(* ===== verification/_CoqProject ===== *)
-Q . S2P
Prelude.v
StateExn.v
PollRing.v
Rle.v
AttrHistory.v
CmdHistory.v
ListHistory.v
PollObj.v
PollThread.v
PollTheory.v
PollCycle.v
PollSleep.v
PollWitness.v
CppString.v
PollPool.v
PollProp.v
DServerPoll.v
DServerTheory.v
DServerWitness.v
EventQueue.v
Locking.v
LockTheory.v
LockCmds.v
LockWitness.v
LockThread.v
Number.v
Attribute.v
AttrTheory.v
DevState.v
DevStateTheory.v
WAttribute.v
WAttrTheory.v
WriteAttrs.v
WriteTheory.v
WriteTypes.v
ReadAttrs.v
ReadTheory.v
ReadProps.v
ReadCache.v
ReadCacheTheory.v
ReadWitness.v
EventDetect.v
EventTheory.v
Monitor.v
BlackBox.v
BlackBoxTheory.v
FileDb.v
FileDbLex.v
FileDbText.v
FileDbNames.v
FileDbRound.v
FileDbCmds.v
FileDbEnds.v
FileDbCmdTheory.v
FileDbWitness.v
DbCache.v
DbCacheTheory.v
DbCacheReads.v
DbClient.v
DbClientTheory.v
ClientExn.v
DeviceAttr.v
DeviceAttrOps.v
DeviceAttrTheory.v
PollStatus.v
PollStatusTheory.v
Connection.v
ProxyRequests.v
ConnTheory.v
ConnProps.v
ConnState.v
ConnSafety.v
ConnWitness.v
ProxyName.v
NameTheory.v
