(* ===== verification/Prelude.v ===== *)
(** * A verification library for the core of a Tango device server and its clients

  cppTango is the C++ library of the Tango control system.  A device server runs devices
  with commands and attributes; its clients read, write and execute them over CORBA, lock
  devices and subscribe to events.  This library models the parts with a logic of their
  own: the polling of a device and the histories it serves, the admin commands that
  configure the polling, the locking of devices, the queue of the events of a client,
  the values of attributes with their limits, alarms, writing and reading, up to the state
  of the device, and the database of the properties with its cache and its file.

  ** The code and the files

  All the paths are under src/src/.
  - Polling.  The polling thread (server/pollthread.cpp: PollThread) takes the first item
    of its work list, has the user code read the object, puts the result in the ring of
    the polled object (server/pollring.cpp: PollRing; server/pollobj.cpp: PollObj), and
    puts the item back at its next date.  PollTheory has the commands the thread
    receives, PollCycle a poll from the user code to the ring, PollSleep the sleep, the
    tuning and the turn of the main loop, PollWitness a scenario.
  - Histories.  A client asks for the records of a ring: server/pollring.cpp and
    pollring_templ.h pack them, client/devapi_base.cpp expands them (Rle for the runs of
    equal values, AttrHistory, CmdHistory; ListHistory for the clients before IDL 4).
  - Administration of the polling (server/dserverpoll.cpp: DServerPoll, with DServerTheory
    and DServerWitness).  A request is checked, changes the poll list of the device, is
    sent to the thread in charge of the device and changes the properties.  The thread is
    chosen by the pool (server/utils_polling.cpp: PollPool, on the strings of CppString),
    whose configuration is checked at start-up; PollProp is the clean-up of the
    properties of a device.
  - Locking (server/device.cpp, dserverlock.cpp, blackbox.cpp: Locking and LockCmds, with
    LockTheory and LockWitness) and the thread of the client that renews the locks
    (client/lockthread.cpp: LockThread).
  - Events.  After a reading, the server decides for each attribute whether clients are to
    be told (server/eventsupplier.cpp: EventDetect, with EventTheory;
    Number has the integers as doubles, since the criteria of every type are compared as
    doubles); EventQueue is the circular queue of a subscription of a client
    (client/eventqueue.cpp).
  - Monitors (include/tango/server/tango_monitor.h, server/auto_tango_monitor.cpp: Monitor):
    the reentrant monitor as an interleaving of the critical sections of its mutex, and
    the monitor a request takes in each serialization model.
  - The black box (server/blackbox.cpp: BlackBox, with BlackBoxTheory):
    the ring of the last requests of a device and the texts a client reads.
  - Attributes.  Number has the arithmetic of the Tango types; Attribute the value, the
    alarms and the limits (server/attribute.cpp, attribute_utils.cpp), with AttrTheory;
    DevState the state of a device computed from its attributes
    (server/device.cpp, multiattribute.cpp), with DevStateTheory; WAttribute the written
    values (server/w_attribute.cpp), with WAttrTheory; WriteAttrs the request that writes
    attributes (server/device_3.cpp), with WriteTheory and WriteTypes.
  - Reading of attributes (server/device_3.cpp, device_4.cpp, device_5.cpp).  ReadAttrs is
    the request that the device answers: look-up, hardware, code of the user, alarms, set
    values, state and status, answers, and the mutex each attribute is read under;
    ReadTheory shows that such a request is a loop of what each name does alone, and
    ReadProps what follows.  ReadCache is the request that the polling answers, and the
    requests of the clients that choose between both; ReadCacheTheory, ReadWitness.
    ReadCache ends with the check of the names by the client (client/devapi_base.cpp).
  - The database of the properties.  A server without a database keeps its properties in a
    file (client/filedatabase.cpp): FileDb has the data, the lexer, the parser and the
    printer, FileDbLex, FileDbText and FileDbNames their lemmas, FileDbRound the round
    trip, FileDbEnds the end of the parsing; FileDbCmds has the requests on it, with
    FileDbCmdTheory and FileDbWitness.  At its start a server receives the
    properties of its devices in one list, which it indexes (client/dbapi_cache.cpp:
    DbCache, DbCacheTheory, DbCacheReads).  DbClient has the requests of the client
    (client/dbapi_base.cpp), which go to the cache, to the file or to the database, with
    DbClientTheory.
  - The client.  DeviceAttr and DeviceAttrOps are the value of an attribute at the client
    (client/devapi_attr.cpp, api_util.cpp): insertions, extractions, checks, conversions
    from and to the IDL types; ClientExn has the exceptions, DeviceAttrTheory
    the properties.  PollStatus is the status of the polling as the
    server writes it and as the client reads it back (server/dserverpoll.cpp,
    client/devapi_base.cpp), with PollStatusTheory.  Connection is
    the connection of a proxy and what each request does when the network fails
    (client/devapi_base.cpp: Connection, include/tango/client/apiexcept.h), ProxyRequests
    the requests of Connection and DeviceProxy; ConnTheory has their Hoare triples,
    ConnProps, ConnState and ConnSafety their properties, ConnWitness a scenario.
    ProxyName is the parsing of the names of devices and attributes
    (client/devapi_base.cpp, attr_proxy.cpp), with NameTheory.

  ** How the code is modelled

  A method is a function of the state of its object.  A method that may throw is written
  in the monad of StateExn: the state after it, with an exception or a value, or [None]
  for undefined behaviour (a null pointer followed, an element past the end, a signed
  overflow); [outcome] is the same without a state.  [wp] is the weakest precondition of such a
  method; undefined behaviour never satisfies it, so that a theorem stated with [wp] says
  that there is none.  The integers keep their bounds where an overflow matters (Number);
  the floating-point numbers are those of IEEE 754; dates are counts of nanoseconds or of
  seconds of the clock the code uses.  Texts are byte strings.  Code that is not in the
  repository (omniORB, the IDL types, the database, ZMQ) and the code of the user are
  parameters.

  The recursions that are not structural have a fuel that a theorem proves sufficient: the
  discard loop of [compute_sleep_time] (computed from the dates), [split_string] (the
  length of the text plus one), [check_loop] of the pool configuration (the number of
  entries plus one), the loop of the checks of [write_attributes_34] (one more than the
  attributes), the loops of the parser of a file, those that read its words and jump its
  blanks and comments included (more than the characters left: each turn reads one) and
  those of the requests on a list of texts (its length).  Without fuel such a function
  returns [Undef], or throws [out_of_fuel] in the parser, which the theorems exclude.

  The user code is a parameter: it may throw, also from [is_allowed].  The code the IDL
  compiler generates is not in the repository; where the code reads a member that a union
  does not hold, what comes out is a parameter too ([other_member] of WAttribute).  The
  list of texts the database sends at the start of a server is described by the parser
  that reads it only; [layout] of DbCacheTheory is what this parser takes.

  ** What is proved

  A theorem names the conditions it needs in its comment; where the code does otherwise
  outside of them, an Example of the same file or of the Witness file shows it.

  - Rings and queues are refinements of lists: an insertion is to push in front and keep
    the newest ([poll_ring_keeps_newest], [event_queue_keeps_newest]).  A history that is
    packed, sent and expanded is the contents of the ring, when the types are handled on
    both sides and no errors are merged ([attr_history_round_trip], [cmd_history_round_trip]).
  - The polling thread: a command changes the set of polled objects as its specification
    says and keeps the work list ordered; a poll stores what the user code answered and
    comes back a period later, if the user code throws nothing but the errors of the
    library; the discard loop terminates; a turn of the main loop has no
    undefined behaviour.
  - The admin commands: which requests are accepted, that a refused one leaves no trace,
    and that a removal undoes an addition, in the device, in the thread, in the
    properties and in the configuration of the pool.
  - Locks: mutual exclusion over any series of requests, nesting, expiration, forced
    unlocking, and that the locking thread of a client renews in time the locks it had at
    its renewal before.
  - Attributes: the quality an alarm check gives, the coherence of the limits, the bounds
    of the read-different-from-set test, the state of the device, and that a request that
    writes several attributes gives each of them its new value or leaves it unchanged and names it
    in the errors; the written values keep the type of their attribute.
  - Reading: a request for several attributes answers each as a request for it alone
    ([read_together]), what the user gives or what the polling has stored is what the
    client receives ([read_value_sent], [polled_result_served]), the source CACHE_DEV is
    the composition of both ([cache_then_device]), and the mutexes of the attributes are
    released or sent with the answers ([mutexes_released]); all for different names,
    without State and Status, which the examples of ReadWitness show to differ.
  - Properties: a file that is written and read again gives the same database when names
    and values are among those the syntax of the file keeps ([file_round_trip]), the
    parsing of any file ends ([parse_ends]), such a property that is put is read back after
    a restart ([device_property_kept], [attribute_property_kept]), and the cache answers
    what the texts of the database say ([cache_answers], [start_up_reads]).
  - The client: what the code of the user sets on the server is what the code of the
    client extracts ([client_receives], [insert_extract]); an attribute that a client asks
    to poll is read back as polled ([polled_as_asked]); a command is sent at most twice,
    and once under a lock ([command_sent_at_most]), the references of a connection follow
    its version ([requests_stay_connected]), a failure of the network is an exception of
    Tango when the version of the device is known ([no_corba_exception]), and what a name means ([device_name_parsed],
    [attribute_name_parsed]).
  - Events: a change event is sent exactly when a criterion is met against the last value
    sent, for every width of integers as long as the difference does not overflow
    ([integer_changes_exact]), and the last value sent follows ([change_events_follow]);
    an alarm event is sent exactly when the quality or the alarm changes.
  - Monitors: two threads never hold a monitor, whatever the interleaving, the wake-ups and
    the time-outs, a release wakes a waiter that can take it, and a request under its
    guard runs alone.
  - The black box: a client reads the last requests, newest first, as they were inserted.

  The behaviours that differ from what the comments of the code promise are the Examples
  of the files of theorems and of the Witness files.

  ** Not modelled

  The transport and its threads: omniORB, ZMQ, the notification service, the sending of
  the events (zmqeventsupplier.cpp, notifdeventsupplier.cpp) and the event consumers; the
  calls of omniORB are the parameters [Orb] and [Services] of Connection, whose record of
  the calls made is a part of the state of the model only.  The database server and its other requests (registration,
  aliases, histories, services).  Logging, telemetry and the sub-device diagnostics, which change no
  state that is modelled.  The requests that write and read at once, the events the user
  pushes (generic_fire_event), the asynchronous requests, pipes, groups, forwarded
  attributes, the configuration of attributes by clients, the start-up and the restart of
  a server. *)
From Stdlib Require Export ZArith Lia.
From stdpp Require Export base numbers option strings gmap fin_maps list.
#[export] Set Default Proof Using "Type".

Declare Scope tango_scope.
Delimit Scope tango_scope with tango.

(** ** Exceptions

  [Tango::DevError] and [Tango::DevFailed] are IDL types of the tangoidl
  submodule; a [DevFailed] carries the error stack, a [DevErrorList].  The code
  reads and writes exactly these four fields. *)

Inductive ErrSeverity := WARN | ERR | PANIC.

Record DevError := mkDevError {
  reason : string;
  severity : ErrSeverity;
  desc : string;
  origin : string;
}.

Abbreviation DevErrorList := (list DevError).

(** What a C++ function can throw here: a Tango exception or a CORBA system
    exception or another exception (known by its name). *)
Inductive exn :=
  | DevFailed (errors : DevErrorList)
  | OtherExc (name : string).

#[export] Instance ErrSeverity_eq_dec : EqDecision ErrSeverity.
Proof. solve_decision. Defined.
#[export] Instance DevError_eq_dec : EqDecision DevError.
Proof. solve_decision. Defined.
#[export] Instance exn_eq_dec : EqDecision exn.
Proof. solve_decision. Defined.

(** ** Outcomes of C++ code

  [Ok] is a normal return, [Exc] an exception, [Undef] undefined behaviour: a
  null pointer followed, a vector indexed out of its bounds, a division by
  zero.  A theorem that says a function returns [Ok] therefore also says that
  none of these happens. *)
Inductive outcome (A : Type) :=
  | Ok (a : A)
  | Exc (e : exn)
  | Undef.
Arguments Ok {A} a.
Arguments Exc {A} e.
Arguments Undef {A}.

#[export] Instance outcome_ret : MRet outcome := @Ok.
#[export] Instance outcome_bind : MBind outcome := λ A B f m,
  match m with Ok a => f a | Exc e => Exc e | Undef => Undef end.
#[export] Instance outcome_fmap : FMap outcome := λ A B f m,
  match m with Ok a => Ok (f a) | Exc e => Exc e | Undef => Undef end.

(** [TANGO_THROW_EXCEPTION(reason, desc)]: one error of severity [ERR]; the
    origin is the throwing function. *)
Definition throw_exception {A} (r d o : string) : outcome A :=
  Exc (DevFailed [mkDevError r ERR d o]).

(** Following a pointer that may be null. *)
Definition deref {A} (p : option A) : outcome A :=
  match p with Some a => Ok a | None => Undef end.

(** [v[i]] of a vector, with a signed index. *)
Definition vget {A} (v : list A) (i : Z) : outcome A :=
  if (0 <=? i)%Z then deref (v !! Z.to_nat i) else Undef.
Definition vset {A} (v : list A) (i : Z) (x : A) : outcome (list A) :=
  if (0 <=? i)%Z && (i <? Z.of_nat (length v))%Z
  then Ok (<[Z.to_nat i := x]> v) else Undef.

(** ** Lemmas on outcomes and vectors *)

Lemma bind_Ok {A B} (f : A → outcome B) (a : A) : (Ok a ≫= f) = f a.
Proof. done. Qed.

Lemma bind_Ok_inv {A B} (m : outcome A) (f : A → outcome B) b :
  m ≫= f = Ok b → ∃ a, m = Ok a ∧ f a = Ok b.
Proof. destruct m; naive_solver. Qed.

Lemma vget_nat {A} (v : list A) (i : nat) x :
  v !! i = Some x → vget v (Z.of_nat i) = Ok x.
Proof.
  intros H. unfold vget. rewrite (proj2 (Z.leb_le _ _)) by lia.
  by rewrite Nat2Z.id, H.
Qed.

Lemma vget_Ok {A} (v : list A) i x :
  vget v i = Ok x ↔ (0 ≤ i)%Z ∧ v !! Z.to_nat i = Some x.
Proof.
  unfold vget. destruct (Z.leb_spec 0 i); [|split; [done|intros [? _]; lia]].
  destruct (v !! _); simpl; split; [by intros [= ->]|by intros [_ [= ->]]|done|by intros [_ ?]].
Qed.

Lemma vset_Ok {A} (v : list A) i x :
  (0 ≤ i < Z.of_nat (length v))%Z → vset v i x = Ok (<[Z.to_nat i := x]> v).
Proof.
  intros H. unfold vset.
  rewrite (proj2 (Z.leb_le _ _)), (proj2 (Z.ltb_lt _ _)) by lia. done.
Qed.

Lemma list_insert_middle {A} (l1 l2 : list A) (n : nat) (x y : A) :
  n = length l1 → <[n := y]> (l1 ++ x :: l2) = l1 ++ y :: l2.
Proof. intros ->. rewrite insert_app_r_alt by lia. by rewrite Nat.sub_diag. Qed.

Lemma last_Some_inv {A} (l : list A) (x : A) : last l = Some x → ∃ l', l = l' ++ [x].
Proof.
  destruct l as [|y l' _] using rev_ind; [done|]. rewrite last_snoc. intros [= ->]. by exists l'.
Qed.

(** ** Tactics and hints *)

Create Rewrite HintDb tango.
#[export] Hint Rewrite @length_insert @length_app @length_take @length_drop
  @length_replicate @length_fmap @length_reverse : tango.

(** Turn the boolean comparisons of the code into propositions. *)
Ltac propb :=
  repeat match goal with
  | H : (_ =? _)%Z = true |- _ => apply Z.eqb_eq in H
  | H : (_ =? _)%Z = false |- _ => apply Z.eqb_neq in H
  | H : (_ <? _)%Z = true |- _ => apply Z.ltb_lt in H
  | H : (_ <? _)%Z = false |- _ => apply Z.ltb_ge in H
  | H : (_ <=? _)%Z = true |- _ => apply Z.leb_le in H
  | H : (_ <=? _)%Z = false |- _ => apply Z.leb_gt in H
  | H : (_ >? _)%Z = _ |- _ => rewrite Z.gtb_ltb in H
  | H : (_ >=? _)%Z = _ |- _ => rewrite Z.geb_leb in H
  | H : _ && _ = true |- _ => apply andb_true_iff in H as [? ?]
  | H : _ || _ = false |- _ => apply orb_false_iff in H as [? ?]
  | H : negb _ = true |- _ => apply negb_true_iff in H
  | H : negb _ = false |- _ => apply negb_false_iff in H
  | H : bool_decide _ = true |- _ => apply bool_decide_eq_true in H
  | H : bool_decide _ = false |- _ => apply bool_decide_eq_false in H
  end.

(** Case analysis on the scrutinee of a [match]/[if] of the goal. *)
Ltac case_if :=
  match goal with
  | |- context [if ?b then _ else _] => let E := fresh "E" in destruct b eqn:E; propb
  end.

Ltac zsimp := autorewrite with tango in *.
