(* ===== verification/StateExn.v ===== *)
(** * Code with a state, exceptions and undefined behaviour

  A method of an object that may throw keeps the changes it did before: its outcome is
  a state with an exception or a value.  [None] is undefined behaviour, or a wait that
  never ends. *)
From S2P Require Import Prelude.

Definition XM (E S A : Type) : Type := S → option (S * (E + A)).
Abbreviation SM := (XM exn).

#[export] Instance SM_ret {E S} : MRet (XM E S) := λ A a s, Some (s, inr a).
#[export] Instance SM_bind {E S} : MBind (XM E S) := λ A B f m s,
  match m s with
  | Some (s, inr a) => f a s
  | Some (s, inl e) => Some (s, inl e)
  | None => None
  end.

Section Ops.
Context {E S : Type}.
Definition get : XM E S S := λ s, Some (s, inr s).
Definition modify (f : S → S) : XM E S unit := λ s, Some (f s, inr tt).
Definition throw_exn {A} (e : E) : XM E S A := λ s, Some (s, inl e).
Definition undef {A} : XM E S A := λ _, None.
Definition when_ (b : bool) (m : XM E S unit) : XM E S unit := if b then m else mret tt.
(** [try { m } catch(e) { h e }], the handler being given every exception. *)
Definition catch {A} (m : XM E S A) (h : E → XM E S A) : XM E S A := λ s,
  match m s with
  | Some (s, inl e) => h e s
  | r => r
  end.
End Ops.
Section Throw.
Context {S : Type}.
Definition throw {A} (r d o : string) : SM S A := λ s, Some (s, inl (DevFailed [mkDevError r ERR d o])).
Definition lift {A} (x : outcome A) : SM S A := λ s,
  match x with Ok a => Some (s, inr a) | Exc e => Some (s, inl e) | Undef => None end.
End Throw.

Section Lemmas.
Context {E S : Type}.
Implicit Types s : S.

Lemma run_bind {A B} (m : XM E S A) (f : A → XM E S B) s s' a :
  m s = Some (s', inr a) → (m ≫= f) s = f a s'.
Proof. intros H. unfold mbind, SM_bind. by rewrite H. Qed.


Lemma bind_inl {A B} (m : XM E S A) (f : A → XM E S B) s s' e :
  (m ≫= f) s = Some (s', inl e) →
  m s = Some (s', inl e) ∨ ∃ s1 a, m s = Some (s1, inr a) ∧ f a s1 = Some (s', inl e).
Proof. unfold mbind, SM_bind. destruct (m s) as [[s1 [e1|a]]|]; naive_solver. Qed.

Lemma bind_inr {A B} (m : XM E S A) (f : A → XM E S B) s s' b :
  (m ≫= f) s = Some (s', inr b) ↔ ∃ s1 a, m s = Some (s1, inr a) ∧ f a s1 = Some (s', inr b).
Proof. unfold mbind, SM_bind. destruct (m s) as [[s1 [e1|a]]|]; naive_solver. Qed.

(** Code that does not change the state, and code that does not throw. *)
Definition reads {A} (m : XM E S A) : Prop := ∀ s s' r, m s = Some (s', r) → s' = s.
Definition no_throw {A} (m : XM E S A) : Prop := ∀ s s' e, m s ≠ Some (s', inl e).

Lemma bind_reads {A B} (m : XM E S A) (f : A → XM E S B) s s' b :
  reads m → (m ≫= f) s = Some (s', inr b) ↔ ∃ a, m s = Some (s, inr a) ∧ f a s = Some (s', inr b).
Proof.
  intros Hr. rewrite bind_inr. split; [|naive_solver].
  intros (s1 & a & H1 & H2). pose proof (Hr _ _ _ H1). naive_solver.
Qed.

Lemma reads_ret {A} (a : A) : reads (mret a).
Proof. by intros s s' r [= ->]. Qed.
Lemma reads_get : reads get.
Proof. by intros s s' r [= ->]. Qed.
Lemma reads_bind {A B} (m : XM E S A) (f : A → XM E S B) : reads m → (∀ a, reads (f a)) → reads (m ≫= f).
Proof.
  intros Hm Hf s s' r. unfold mbind, SM_bind. destruct (m s) as [[s1 [e1|a]]|] eqn:Eq; [| |done].
  - intros [= <- <-]. by eapply Hm.
  - apply Hm in Eq as ->. apply Hf.
Qed.
Lemma reads_when b (m : XM E S unit) : reads m → reads (when_ b m).
Proof. intros H. destruct b; [done|]. apply reads_ret. Qed.

Lemma no_throw_bind {A B} (m : XM E S A) (f : A → XM E S B) : no_throw m → (∀ a, no_throw (f a)) → no_throw (m ≫= f).
Proof. intros Hm Hf s s' e [H|(s1 & a & _ & H)]%bind_inl; [by eapply Hm|by eapply Hf]. Qed.
Lemma no_throw_ret {A} (a : A) : no_throw (mret a).
Proof. by intros s s' e. Qed.
Lemma no_throw_modify f : no_throw (modify f).
Proof. by intros s s' e. Qed.
Lemma no_throw_when b (m : XM E S unit) : no_throw m → no_throw (when_ b m).
Proof. intros H. destruct b; [done|]. apply no_throw_ret. Qed.

(** Code that leaves the state as it was when it throws, and code that does not
    throw, from a given state. *)
Definition keeps {A} s (m : XM E S A) : Prop := ∀ s' e, m s = Some (s', inl e) → s' = s.
Definition never {A} s (m : XM E S A) : Prop := ∀ s' e, m s ≠ Some (s', inl e).

Lemma keeps_reads {A B} s (m : XM E S A) (f : A → XM E S B) :
  reads m → (∀ a, m s = Some (s, inr a) → keeps s (f a)) → keeps s (m ≫= f).
Proof.
  intros Hr Hf s' e [H|(s1 & a & H1 & H2)]%bind_inl; [by eapply Hr|].
  pose proof (Hr _ _ _ H1) as ->. by eapply Hf.
Qed.
Lemma never_keeps {A} s (m : XM E S A) : never s m → keeps s m.
Proof. intros H s' e He. by destruct (H s' e). Qed.
Lemma never_run {A B} s s1 (m : XM E S A) (f : A → XM E S B) a :
  m s = Some (s1, inr a) → never s1 (f a) → never s (m ≫= f).
Proof. intros H Hn s' e. rewrite (run_bind _ _ _ _ _ H). apply Hn. Qed.
Lemma no_throw_never {A} s (m : XM E S A) : no_throw m → never s m.
Proof. intros H s' e. apply H. Qed.

End Lemmas.

Section ThrowLemmas.
Context {S : Type}.
Implicit Types s : S.
Lemma run_ok {A} (x : outcome A) (a : A) s : x = Ok a → lift x s = Some (s, inr a).
Proof. by intros ->. Qed.
Lemma reads_throw {A} r d o : reads (throw (S := S) (A := A) r d o).
Proof. by intros s s' x [= ->]. Qed.
Lemma reads_lift {A} (x : outcome A) : reads (lift (S := S) x).
Proof. intros s s' r. unfold lift. destruct x; naive_solver. Qed.
Lemma no_throw_lift {A} (x : outcome A) : (∀ e, x ≠ Exc e) → no_throw (lift (S := S) x).
Proof. intros H s s' e. unfold lift. destruct x; naive_solver. Qed.
Lemma run_lift {A} (x : outcome A) s s' a : lift x s = Some (s', inr a) ↔ s' = s ∧ x = Ok a.
Proof. unfold lift. destruct x; naive_solver. Qed.
Lemma run_guard b r d o s s' (x : unit) : when_ b (throw r d o) s = Some (s', inr x) ↔ b = false ∧ s' = s.
Proof. destruct x. destruct b; unfold when_, throw; [naive_solver|]. split; [by intros [= ->]|by intros [_ ->]]. Qed.
End ThrowLemmas.

(** ** Weakest preconditions

  [wp m s Q]: from [s], [m] has a defined outcome that satisfies [Q]. *)
Section WP.
Context {E S : Type}.
Implicit Types s : S.

Definition wp {A} (m : XM E S A) s (Q : S → E + A → Prop) : Prop :=
  match m s with Some (s', r) => Q s' r | None => False end.

Lemma wp_run {A} (m : XM E S A) s Q : wp m s Q ↔ ∃ s' r, m s = Some (s', r) ∧ Q s' r.
Proof. unfold wp. destruct (m s) as [[s' r]|]; naive_solver. Qed.
Lemma wp_mono {A} (m : XM E S A) s (Q Q' : S → E + A → Prop) :
  wp m s Q → (∀ s' r, Q s' r → Q' s' r) → wp m s Q'.
Proof. unfold wp. destruct (m s) as [[s' r]|]; naive_solver. Qed.
Lemma wp_ret {A} (a : A) s Q : Q s (inr a) → wp (mret a) s Q.
Proof. done. Qed.
Lemma wp_get s Q : Q s (inr s) → wp get s Q.
Proof. done. Qed.
Lemma wp_modify f s Q : Q (f s) (inr tt) → wp (modify f) s Q.
Proof. done. Qed.
Lemma wp_bind {A B} (m : XM E S A) (f : A → XM E S B) s Q :
  wp m s (λ s1 r, match r with inr a => wp (f a) s1 Q | inl e => Q s1 (inl e) end) → wp (m ≫= f) s Q.
Proof. unfold wp, mbind, SM_bind. by destruct (m s) as [[s1 [e|a]]|]. Qed.
Lemma wp_when b (m : XM E S unit) s Q :
  (b = true → wp m s Q) → (b = false → Q s (inr tt)) → wp (when_ b m) s Q.
Proof. destruct b; [auto|]. intros _ H. by apply H. Qed.
Lemma wp_throw_exn {A} e s (Q : S → E + A → Prop) : Q s (inl e) → wp (throw_exn (A := A) e) s Q.
Proof. done. Qed.
Lemma wp_catch {A} (m : XM E S A) (h : E → XM E S A) s Q :
  wp m s (λ s1 r, match r with inl e => wp (h e) s1 Q | inr a => Q s1 (inr a) end) → wp (catch m h) s Q.
Proof. unfold wp, catch. by destruct (m s) as [[s1 [e|a]]|]. Qed.

Lemma run_catch_ok {A} (m : XM E S A) (h : E → XM E S A) s s' a :
  m s = Some (s', inr a) → catch m h s = Some (s', inr a).
Proof. unfold catch. by intros ->. Qed.
Lemma run_catch_exn {A} (m : XM E S A) (h : E → XM E S A) s s' e :
  m s = Some (s', inl e) → catch m h s = h e s'.
Proof. unfold catch. by intros ->. Qed.
Lemma run_bind_exn {A B} (m : XM E S A) (f : A → XM E S B) s s' e :
  m s = Some (s', inl e) → (m ≫= f) s = Some (s', inl e).
Proof. intros H. unfold mbind, SM_bind. by rewrite H. Qed.
End WP.

Section WPThrow.
Context {S : Type}.
Implicit Types s : S.
Lemma wp_throw {A} r d o s Q : Q s (inl (DevFailed [mkDevError r ERR d o])) → wp (throw (A := A) r d o) s Q.
Proof. done. Qed.
Lemma wp_lift {A} (x : outcome A) s (Q : S → exn + A → Prop) :
  x ≠ Undef → (∀ a, x = Ok a → Q s (inr a)) → (∀ e, x = Exc e → Q s (inl e)) → wp (lift x) s Q.
Proof. unfold wp, lift. destruct x; auto. Qed.
End WPThrow.

(** One step of a proof about [wp], by the structure of the code. *)
Ltac wp_step :=
  lazymatch goal with
  | |- wp (_ ≫= _) _ _ => apply wp_bind; cbv beta
  | |- wp (mret _) _ _ => apply wp_ret; cbv beta iota
  | |- wp get _ _ => apply wp_get; cbv beta iota
  | |- wp (modify _) _ _ => apply wp_modify; cbv beta iota
  | |- wp (throw _ _ _) _ _ => apply wp_throw; cbv beta iota
  | |- wp (throw_exn _) _ _ => apply wp_throw_exn; cbv beta iota
  | |- wp (catch _ _) _ _ => apply wp_catch; cbv beta
  | |- wp (when_ _ _) _ _ => apply wp_when; [intros ?|intros ?]; cbv beta iota
  | |- wp (if ?b then _ else _) _ _ => let E := fresh "E" in destruct b eqn:E
  | |- wp (match ?x with _ => _ end) _ _ => let E := fresh "E" in destruct x eqn:E
  end.

Create HintDb srv.
#[export] Hint Resolve reads_ret reads_get reads_throw reads_lift reads_bind reads_when
  no_throw_ret no_throw_modify no_throw_when : srv.
