(* ===== verification/PollRing.v ===== *)
(** * The polling ring buffer (src/src/server/pollring.cpp, pollring.h)

  [RingElt] and [PollRing] as in pollring.h: a vector managed as a circular
  buffer by [insert_elt], [nb_elt] and [max_elt].  A pointer of [RingElt] is an
  option; the CORBA [Any] of a command result and the elements of an attribute
  value are parameters, since omniORB and the IDL are not part of the
  repository.  [contents] is the abstract view, the stored records from the
  newest to the oldest, and [ring_put_contents] the refinement: an insertion is
  "push in front and keep at most [max_elt]". *)
From S2P Require Import Prelude.
Local Open Scope Z_scope.

(** [DefaultPollRingDepth] of tango_const.h. *)
Definition DefaultPollRingDepth : Z := 10.

(** ** Data *)

Inductive AttrQuality :=
  ATTR_VALID | ATTR_INVALID | ATTR_ALARM | ATTR_CHANGING | ATTR_WARNING.
#[export] Instance AttrQuality_eq_dec : EqDecision AttrQuality.
Proof. solve_decision. Defined.

(** The discriminator of the IDL union [AttrValUnion]. *)
Inductive AttributeDataType :=
  | ATT_BOOL | ATT_SHORT | ATT_LONG | ATT_LONG64 | ATT_FLOAT | ATT_DOUBLE
  | ATT_UCHAR | ATT_USHORT | ATT_ULONG | ATT_ULONG64 | ATT_STRING | ATT_STATE
  | DEVICE_STATE | ATT_ENCODED | ATT_NO_DATA.
#[export] Instance AttributeDataType_eq_dec : EqDecision AttributeDataType.
Proof. solve_decision. Defined.

Record AttributeDim := mkDim { dim_x : Z; dim_y : Z }.
#[export] Instance AttributeDim_eq_dec : EqDecision AttributeDim.
Proof. solve_decision. Defined.

Record TimeVal := mkTimeVal { tv_sec : Z; tv_usec : Z; tv_nsec : Z }.

Section Ring.
Context {Any Elt : Type}.

(** The union: its discriminator and the sequence it holds. *)
Record AttrValUnion := mkUnion { union_d : AttributeDataType; union_seq : list Elt }.

(** The fields of [AttributeValue_3/_4/_5] the server code reads. *)
Record AttributeValue := mkAV {
  av_value : AttrValUnion;
  av_quality : AttrQuality;
  av_time : TimeVal;
  av_r_dim : AttributeDim;
  av_w_dim : AttributeDim;
  av_err_list : DevErrorList;
}.

Record RingElt := mkElt {
  cmd_result : option Any;
  attr_value : option (list AttributeValue);
  attr_value_3 : option (list AttributeValue);
  attr_value_4 : option (list AttributeValue);
  attr_value_5 : option (list AttributeValue);
  except : option DevErrorList;
  when : Z;
}.

Definition RingElt_new : RingElt := mkElt None None None None None None 0.

Record PollRing := mkRing {
  ring : list RingElt;
  insert_elt : Z;
  nb_elt : Z;
  max_elt : Z;
}.

Definition PollRing_new (max_size : Z) : PollRing :=
  mkRing (replicate (Z.to_nat max_size) RingElt_new) 0 0 max_size.
Definition PollRing_default : PollRing := PollRing_new DefaultPollRingDepth.

(** ** Insertion *)

Definition inc_indexes (r : PollRing) : PollRing :=
  let i := insert_elt r + 1 in
  let i := if i =? max_elt r then 0 else i in
  let nb := if negb (nb_elt r =? max_elt r) then nb_elt r + 1 else nb_elt r in
  mkRing (ring r) i nb (max_elt r).

(** Every insertion updates the slot [ring[insert_elt]] and then the indexes. *)
Definition ring_put (f : RingElt → RingElt) (r : PollRing) : outcome PollRing :=
  slot ← vget (ring r) (insert_elt r);
  ring' ← vset (ring r) (insert_elt r) (f slot);
  Ok (inc_indexes (mkRing ring' (insert_elt r) (nb_elt r) (max_elt r))).

Definition put_cmd (any_ptr : Any) (t : Z) (e : RingElt) : RingElt :=
  mkElt (Some any_ptr) (attr_value e) (attr_value_3 e) (attr_value_4 e)
    (attr_value_5 e) None t.
Definition insert_data_cmd (any_ptr : Any) (t : Z) : PollRing → outcome PollRing :=
  ring_put (put_cmd any_ptr t).

Definition put_attr (v : list AttributeValue) (t : Z) (e : RingElt) : RingElt :=
  mkElt (cmd_result e) (Some v) (attr_value_3 e) (attr_value_4 e)
    (attr_value_5 e) None t.
Definition insert_data_attr (v : list AttributeValue) (t : Z) : PollRing → outcome PollRing :=
  ring_put (put_attr v t).

Definition put_attr_3 (v : list AttributeValue) (t : Z) (e : RingElt) : RingElt :=
  mkElt (cmd_result e) (attr_value e) (Some v) (attr_value_4 e)
    (attr_value_5 e) None t.
Definition insert_data_attr_3 (v : list AttributeValue) (t : Z) : PollRing → outcome PollRing :=
  ring_put (put_attr_3 v t).

Definition put_attr_4 (v : list AttributeValue) (t : Z) (e : RingElt) : RingElt :=
  mkElt (cmd_result e) (attr_value e) (attr_value_3 e) (Some v)
    (attr_value_5 e) None t.
Definition insert_data_attr_4 (v : list AttributeValue) (t : Z) : PollRing → outcome PollRing :=
  ring_put (put_attr_4 v t).

Definition put_attr_5 (v : list AttributeValue) (t : Z) (e : RingElt) : RingElt :=
  mkElt (cmd_result e) (attr_value e) (attr_value_3 e) (attr_value_4 e)
    (Some v) None t.
Definition insert_data_attr_5 (v : list AttributeValue) (t : Z) : PollRing → outcome PollRing :=
  ring_put (put_attr_5 v t).

(** [insert_except] frees [attr_value] and [cmd_result], not the values of IDL
    3, 4 and 5. *)
Definition put_except (ex : DevErrorList) (t : Z) (e : RingElt) : RingElt :=
  mkElt None None (attr_value_3 e) (attr_value_4 e) (attr_value_5 e) (Some ex) t.
Definition insert_except (ex : DevErrorList) (t : Z) : PollRing → outcome PollRing :=
  ring_put (put_except ex t).

(** ** Reading *)

Definition is_empty (r : PollRing) : bool := nb_elt r =? 0.
Definition get_nb_elt (r : PollRing) : Z := nb_elt r.

(** The slot before [insert_elt], going round at 0. *)
Definition last_index (r : PollRing) : Z :=
  if insert_elt r =? 0 then max_elt r - 1 else insert_elt r - 1.
Definition last_elt (r : PollRing) : outcome RingElt := vget (ring r) (last_index r).

Definition get_last_insert_date (r : PollRing) : outcome Z := when <$> last_elt r.

Definition is_last_an_error (r : PollRing) : outcome bool :=
  e ← last_elt r; Ok (bool_decide (is_Some (except e))).
Definition is_last_cmd_an_error (r : PollRing) : outcome bool := is_last_an_error r.

(** The value whose [err_list] is looked at: the first non-null of the IDL 3, 4
    and 5 pointers. *)
Definition attr_err_list (e : RingElt) : outcome DevErrorList :=
  l ← match attr_value_3 e, attr_value_4 e with
      | Some v3, _ => Ok v3
      | None, Some v4 => Ok v4
      | None, None => deref (attr_value_5 e)
      end;
  av_err_list <$> vget l 0.

Definition is_last_attr_an_error (r : PollRing) : outcome bool :=
  e ← last_elt r;
  match except e with
  | Some _ => Ok true
  | None =>
      errs ← attr_err_list e;
      Ok (negb (Z.of_nat (length errs) =? 0))
  end.

Definition get_last_except (r : PollRing) : outcome (option DevErrorList) :=
  except <$> last_elt r.

Definition get_last_attr_error (r : PollRing) : outcome DevErrorList :=
  e ← last_elt r; attr_err_list e.

Definition get_last_cmd_result (r : PollRing) : outcome Any :=
  e ← last_elt r;
  match except e with
  | None => deref (cmd_result e)
  | Some errs => Exc (DevFailed errs)
  end.

Definition get_last_value (sel : RingElt → option (list AttributeValue))
    (r : PollRing) : outcome AttributeValue :=
  e ← last_elt r;
  match except e with
  | None => l ← deref (sel e); vget l 0
  | Some errs => Exc (DevFailed errs)
  end.
Definition get_last_attr_value := get_last_value attr_value.
Definition get_last_attr_value_3 := get_last_value attr_value_3.
Definition get_last_attr_value_4 := get_last_value attr_value_4.
Definition get_last_attr_value_5 := get_last_value attr_value_5.

(** The loop of [get_delta_t]: [k] differences, walking both indexes down. *)
Fixpoint delta_loop (r : PollRing) (k : nat) (read_index prev_read : Z)
    (res : list Z) : outcome (list Z) :=
  match k with
  | O => Ok res
  | S k =>
      t_ref ← when <$> vget (ring r) read_index;
      t_prev ← when <$> vget (ring r) prev_read;
      let prev := prev_read - 1 in
      let prev := if prev <? 0 then max_elt r - 1 else prev in
      let read := read_index - 1 in
      let read := if read <? 0 then max_elt r - 1 else read in
      delta_loop r k read prev (res ++ [t_ref - t_prev])
  end.

(** The buffer starting point: the two newest records. *)
Definition delta_start (r : PollRing) : Z * Z :=
  if insert_elt r =? 0 then (max_elt r - 1, max_elt r - 1 - 1)
  else let read := insert_elt r - 1 in
       (read, if read =? 0 then max_elt r - 1 else read - 1).

Definition get_delta_t (nb : Z) (r : PollRing) : outcome (list Z) :=
  if nb_elt r <? 2 then
    throw_exception "API_PollRingBufferEmpty"
      "Not enough data stored yet in polling ring buffer" "PollRing::get_delta_t"
  else
    let '(read_index, prev_read) := delta_start r in
    let nb := if nb_elt r <=? nb then nb_elt r - 1 else nb in
    delta_loop r (Z.to_nat nb) read_index prev_read [].

(** The start and the step of the index with which the histories walk the ring. *)
Definition hist_start (r : PollRing) : Z :=
  (if insert_elt r =? 0 then max_elt r else insert_elt r) - 1.
Definition hist_next (r : PollRing) (index : Z) : Z :=
  (if index =? 0 then max_elt r else index) - 1.

(** The [n] records a history reads, in the order it reads them. *)
Fixpoint hist_walk (r : PollRing) (n : nat) (index : Z) : outcome (list RingElt) :=
  match n with
  | O => Ok []
  | S n =>
      e ← vget (ring r) index;
      es ← hist_walk r n (hist_next r index);
      Ok (e :: es)
  end.

End Ring.
Arguments AttrValUnion : clear implicits.
Arguments AttributeValue : clear implicits.
Arguments RingElt : clear implicits.
Arguments PollRing : clear implicits.

(** ** Well-formed rings and their contents *)

Section RingTheory.
Context {Any Elt : Type}.
Implicit Types (r : PollRing Any Elt) (e : RingElt Any Elt).

Record ring_wf r : Prop := {
  wf_len : Z.of_nat (length (ring r)) = max_elt r;
  wf_max : 0 < max_elt r;
  wf_ins : 0 <= insert_elt r < max_elt r;
  wf_nb : 0 <= nb_elt r <= max_elt r;
}.

(** The slot of the [k]-th newest record. *)
Definition slot_index r (k : nat) : Z :=
  (insert_elt r - 1 - Z.of_nat k) mod max_elt r.

Definition ring_at r (i : Z) : RingElt Any Elt :=
  default RingElt_new (ring r !! Z.to_nat i).

(** The stored records, the newest first. *)
Definition contents r : list (RingElt Any Elt) :=
  (λ k, ring_at r (slot_index r k)) <$> seq 0 (Z.to_nat (nb_elt r)).

Lemma contents_length r : length (contents r) = Z.to_nat (nb_elt r).
Proof. unfold contents. by rewrite length_fmap, length_seq. Qed.

Lemma contents_lookup r k :
  (k < Z.to_nat (nb_elt r))%nat → contents r !! k = Some (ring_at r (slot_index r k)).
Proof.
  intros H. unfold contents. rewrite list_lookup_fmap.
  by rewrite lookup_seq_lt by done.
Qed.

Lemma ring_wf_new max_size : 0 < max_size → ring_wf (PollRing_new max_size).
Proof. intros ?. split; simpl; rewrite ?length_replicate; lia. Qed.

Lemma contents_new max_size : contents (PollRing_new max_size) = [].
Proof. done. Qed.

Lemma vget_ring_at r i : ring_wf r → 0 <= i < max_elt r → vget (ring r) i = Ok (ring_at r i).
Proof.
  intros [? ? ? ?] Hi. destruct (lookup_lt_is_Some_2 (ring r) (Z.to_nat i)) as [x Hx]; [lia|].
  apply vget_Ok. unfold ring_at. rewrite Hx. split; [lia|done].
Qed.

Lemma slot_index_range r k : ring_wf r → 0 <= slot_index r k < max_elt r.
Proof. intros [? ? ? ?]. apply Z.mod_pos_bound. lia. Qed.

Lemma mod_small_neg a m : - m <= a < 0 → a mod m = a + m.
Proof.
  intros H. rewrite <- (Z_mod_plus_full a 1 m), Z.mod_small; lia.
Qed.

Lemma slot_index_0 r : ring_wf r → slot_index r 0 = last_index r.
Proof.
  intros [? ? ? ?]. unfold slot_index, last_index.
  case_if; [rewrite mod_small_neg by lia; lia|].
  rewrite Z.mod_small; lia.
Qed.

Lemma hist_start_slot r : ring_wf r → hist_start r = slot_index r 0.
Proof. intros. rewrite slot_index_0 by done. unfold hist_start, last_index. by case_if. Qed.

Lemma slot_index_S r k :
  ring_wf r → hist_next r (slot_index r k) = slot_index r (S k).
Proof.
  intros Hwf. pose proof (slot_index_range r k Hwf) as Hr. unfold hist_next.
  replace (slot_index r (S k)) with ((slot_index r k - 1) mod max_elt r).
  - destruct Hwf. case_if; [rewrite mod_small_neg by lia; lia|rewrite Z.mod_small; lia].
  - unfold slot_index. rewrite Zminus_mod_idemp_l. f_equal. lia.
Qed.

Lemma last_elt_contents r : ring_wf r → last_elt r = Ok (ring_at r (slot_index r 0)).
Proof.
  intros Hwf. unfold last_elt. rewrite <- slot_index_0 by done.
  apply vget_ring_at; [done|by apply slot_index_range].
Qed.

(** Two different ages among at most [max_elt] live in two different slots. *)
Lemma slot_index_ne_insert r k :
  ring_wf r → Z.of_nat k < max_elt r - 1 → slot_index r k ≠ insert_elt r.
Proof.
  intros [? ? ? ?] Hk. unfold slot_index. destruct (Z.ltb_spec (insert_elt r - 1 - Z.of_nat k) 0).
  - rewrite mod_small_neg; lia.
  - rewrite Z.mod_small; lia.
Qed.

Lemma ring_put_eq f r :
  ring_wf r →
  ring_put f r = Ok (inc_indexes (mkRing
    (<[Z.to_nat (insert_elt r) := f (ring_at r (insert_elt r))]> (ring r))
    (insert_elt r) (nb_elt r) (max_elt r))).
Proof.
  intros Hwf. unfold ring_put. rewrite vget_ring_at by (destruct Hwf; done). simpl.
  rewrite vset_Ok by (destruct Hwf; lia). done.
Qed.

Lemma inc_indexes_wf r : ring_wf r → ring_wf (inc_indexes r).
Proof.
  intros [? ? ? ?]. unfold inc_indexes.
  split; simpl; repeat case_if; lia.
Qed.

Lemma slot_index_inc r k :
  ring_wf r → slot_index (inc_indexes r) k = (insert_elt r - Z.of_nat k) mod max_elt r.
Proof.
  intros [? ? ? ?]. unfold slot_index. simpl. case_if.
  - rewrite <- (Z_mod_plus_full (0 - 1 - Z.of_nat k) 1). f_equal. lia.
  - f_equal. lia.
Qed.

(** The refinement of an insertion. *)
Lemma ring_put_contents f r :
  ring_wf r →
  ∃ r', ring_put f r = Ok r' ∧ ring_wf r' ∧ max_elt r' = max_elt r ∧
    nb_elt r' = Z.min (max_elt r) (nb_elt r + 1) ∧
    contents r' = take (Z.to_nat (max_elt r))
                    (f (ring_at r (insert_elt r)) :: contents r).
Proof.
  intros Hwf. rewrite ring_put_eq by done. eexists. split; [done|].
  set (r1 := mkRing _ _ _ _).
  assert (ring_wf r1) as Hwf1.
  { destruct Hwf. split; simpl; rewrite ?length_insert; lia. }
  assert (nb_elt (inc_indexes r1) = Z.min (max_elt r) (nb_elt r + 1)) as Hnb.
  { destruct Hwf. unfold inc_indexes. simpl. case_if; lia. }
  split; [by apply inc_indexes_wf|]. split; [done|]. split; [done|].
  apply list_eq. intros k. destruct (decide (k < Z.to_nat (nb_elt (inc_indexes r1)))%nat) as [Hk|Hk].
  - rewrite contents_lookup by done. rewrite lookup_take_lt by (destruct Hwf; lia).
    rewrite slot_index_inc by done. unfold ring_at at 1. simpl ring.
    destruct k as [|k]; simpl.
    + rewrite Z.sub_0_r, Z.mod_small by (destruct Hwf; lia).
      rewrite list_lookup_insert_eq by (destruct Hwf; lia). done.
    + rewrite contents_lookup by lia.
      replace (insert_elt r - _) with (insert_elt r - 1 - Z.of_nat k) by lia.
      fold (slot_index r k). rewrite list_lookup_insert_ne; [done|].
      pose proof (slot_index_ne_insert r k Hwf). pose proof (slot_index_range r k Hwf).
      destruct Hwf. lia.
  - rewrite !lookup_ge_None_2; [done|..].
    + rewrite length_take. simpl. rewrite contents_length. destruct Hwf. lia.
    + rewrite contents_length. lia.
Qed.

(** The histories read the newest records of the ring, in order. *)
Lemma hist_walk_contents r n k :
  ring_wf r → (k + n <= Z.to_nat (nb_elt r))%nat →
  hist_walk r n (slot_index r k) = Ok (take n (drop k (contents r))).
Proof.
  intros Hwf. revert k. induction n as [|n IH]; intros k Hk; simpl; [done|].
  rewrite vget_ring_at by (done || by apply slot_index_range). simpl.
  rewrite slot_index_S, IH by (done || lia). simpl.
  rewrite (drop_S (contents r) (ring_at r (slot_index r k)) k); [done|].
  apply contents_lookup. lia.
Qed.

Lemma last_elt_head r e es :
  ring_wf r → contents r = e :: es → last_elt r = Ok e.
Proof.
  intros Hwf Hc. rewrite last_elt_contents by done. f_equal.
  assert (length (contents r) ≠ 0%nat) as Hl by by rewrite Hc.
  rewrite contents_length in Hl.
  pose proof (contents_lookup r 0) as H0. rewrite Hc in H0. simpl in H0.
  assert (0 < Z.to_nat (nb_elt r))%nat as Hlt by lia. specialize (H0 Hlt). congruence.
Qed.

(** *** The differences of [get_delta_t] *)

Fixpoint deltas (ts : list Z) : list Z :=
  match ts with
  | t1 :: (t2 :: _) as rest => (t1 - t2) :: deltas rest
  | _ => []
  end.

Lemma delta_index_next r k :
  ring_wf r →
  (let p := slot_index r k - 1 in if p <? 0 then max_elt r - 1 else p) = slot_index r (S k).
Proof.
  intros Hwf. rewrite <- slot_index_S by done. unfold hist_next. simpl.
  pose proof (slot_index_range r k Hwf). repeat case_if; lia.
Qed.

Lemma delta_loop_contents r m k res :
  ring_wf r → (k + m < Z.to_nat (nb_elt r))%nat →
  delta_loop r m (slot_index r k) (slot_index r (S k)) res
    = Ok (res ++ take m (deltas (when <$> drop k (contents r)))).
Proof.
  intros Hwf. revert k res. induction m as [|m IH]; intros k res Hk; simpl.
  { by rewrite take_0, app_nil_r. }
  rewrite !vget_ring_at by (done || by apply slot_index_range). simpl.
  pose proof (delta_index_next r k Hwf) as E1. pose proof (delta_index_next r (S k) Hwf) as E2.
  simpl in E1, E2. rewrite E1, E2, IH by (done || lia).
  rewrite (drop_S (contents r) (ring_at r (slot_index r k)) k) by (apply contents_lookup; lia).
  rewrite (drop_S (contents r) (ring_at r (slot_index r (S k))) (S k)) by (apply contents_lookup; lia).
  simpl. by rewrite <- app_assoc.
Qed.

End RingTheory.
#[export] Hint Resolve ring_wf_new inc_indexes_wf slot_index_range : core.

(** ** What the ring of a polled command promises *)

Section CmdRing.
Context {Any Elt : Type}.

(** One polling of a command: its result or the exception it threw. *)
Definition cmd_record : Type := (Any + DevErrorList) * Z.

Definition insert_record (x : cmd_record) : PollRing Any Elt → outcome (PollRing Any Elt) :=
  match x with
  | (inl a, t) => insert_data_cmd a t
  | (inr ex, t) => insert_except ex t
  end.

Fixpoint insert_records (xs : list cmd_record) (r : PollRing Any Elt) : outcome (PollRing Any Elt) :=
  match xs with
  | [] => Ok r
  | x :: xs => r' ← insert_record x r; insert_records xs r'
  end.

(** What a record of the ring says: [None] when it holds neither a result nor an
    exception. *)
Definition record_view (e : RingElt Any Elt) : option cmd_record :=
  match except e, cmd_result e with
  | Some ex, _ => Some (inr ex, when e)
  | None, Some a => Some (inl a, when e)
  | None, None => None
  end.

Lemma insert_record_contents x r :
  ring_wf r →
  ∃ r', insert_record x r = Ok r' ∧ ring_wf r' ∧ max_elt r' = max_elt r ∧
    nb_elt r' = Z.min (max_elt r) (nb_elt r + 1) ∧
    record_view <$> contents r' =
      take (Z.to_nat (max_elt r)) (Some x :: (record_view <$> contents r)).
Proof.
  intros Hwf. destruct x as [[a|ex] t];
    [ destruct (ring_put_contents (put_cmd a t) r Hwf) as (r' & Hp & Hw & Hm & Hn & Hc)
    | destruct (ring_put_contents (put_except ex t) r Hwf) as (r' & Hp & Hw & Hm & Hn & Hc) ];
    exists r'; do 4 (split; [done|]); by rewrite Hc, fmap_take.
Qed.

Lemma insert_records_contents xs r :
  ring_wf r →
  ∃ r', insert_records xs r = Ok r' ∧ ring_wf r' ∧ max_elt r' = max_elt r ∧
    nb_elt r' = Z.min (max_elt r) (nb_elt r + Z.of_nat (length xs)) ∧
    record_view <$> contents r' =
      take (Z.to_nat (max_elt r)) ((Some <$> reverse xs) ++ (record_view <$> contents r)).
Proof.
  revert r. induction xs as [|x xs IH]; intros r Hwf; simpl.
  - exists r. destruct Hwf. repeat (split; [done || lia|]).
    rewrite take_ge; [done|]. rewrite length_fmap, contents_length. lia.
  - destruct (insert_record_contents x r Hwf) as (r1 & -> & Hw1 & Hm1 & Hn1 & Hc1). simpl.
    destruct (IH r1 Hw1) as (r2 & -> & Hw2 & Hm2 & Hn2 & Hc2).
    exists r2. rewrite Hm2, Hn2, Hm1, Hn1. do 3 (split; [done|]).
    split; [lia|]. rewrite Hc2, Hc1, Hm1, reverse_cons, fmap_app, <- app_assoc. simpl.
    rewrite !take_app, take_take, length_fmap. f_equal. f_equal. lia.
Qed.

(** C39: A ring of depth [max_size] to which the records [xs] are inserted, in
    that order, never fails and holds exactly the [max_size] most recent of
    them, the newest first: nothing is lost before the ring is full, the oldest
    record is the one overwritten after that, and no pointer left over from an
    earlier use of a slot shows through. *)
Theorem poll_ring_keeps_newest (max_size : Z) (xs : list cmd_record) :
  0 < max_size →
  ∃ r, insert_records xs (PollRing_new max_size) = Ok r ∧ ring_wf r ∧
    get_nb_elt r = Z.min max_size (Z.of_nat (length xs)) ∧
    record_view <$> contents r = take (Z.to_nat max_size) (Some <$> reverse xs).
Proof.
  intros Hm. destruct (insert_records_contents xs _ (ring_wf_new max_size Hm))
    as (r & Hr & Hw & _ & Hn & Hc).
  exists r. do 2 (split; [done|]). split; [exact Hn|].
  by rewrite Hc, contents_new, app_nil_r.
Qed.

Lemma deltas_length ts : length (deltas ts) = (length ts - 1)%nat.
Proof. induction ts as [|t [|u ts] IH]; simpl in *; lia. Qed.

(** [get_delta_t] throws below two records, and otherwise returns the
    differences between consecutive dates from the newest one, at most [nb] of
    them and never more than the ring has. *)
Theorem get_delta_t_spec (r : PollRing Any Elt) (nb : Z) :
  ring_wf r →
  get_delta_t nb r =
    if nb_elt r <? 2
    then throw_exception "API_PollRingBufferEmpty"
           "Not enough data stored yet in polling ring buffer" "PollRing::get_delta_t"
    else Ok (take (Z.to_nat nb) (deltas (when <$> contents r))).
Proof.
  intros Hwf. unfold get_delta_t. case_if; [done|].
  set (k := if nb_elt r <=? nb then nb_elt r - 1 else nb).
  assert (delta_start r = (slot_index r 0, slot_index r 1)) as ->.
  { unfold delta_start. rewrite <- slot_index_S, slot_index_0 by done. unfold hist_next, last_index.
    destruct Hwf. repeat case_if; simpl; f_equal; lia. }
  rewrite delta_loop_contents by first [done|subst k; case_if; lia]. simpl. rewrite drop_0.
  subst k. case_if; [|done]. f_equal.
  rewrite !take_ge; [done|..]; rewrite deltas_length, length_fmap, contents_length; lia.
Qed.

(** Right after a polling, the last-value accessors of the ring give that
    very polling: the result if it succeeded, the stored exception thrown again
    if it did not, and its date. *)
Theorem last_cmd_result_spec (r : PollRing Any Elt) (x : cmd_record) :
  ring_wf r →
  ∃ r', insert_record x r = Ok r' ∧
    get_last_insert_date r' = Ok x.2 ∧
    is_last_cmd_an_error r' = Ok (match x.1 with inl _ => false | inr _ => true end) ∧
    get_last_cmd_result r' =
      match x.1 with inl a => Ok a | inr ex => Exc (DevFailed ex) end.
Proof.
  intros Hwf. destruct x as [[a|ex] t]; simpl;
    [ destruct (ring_put_contents (put_cmd a t) r Hwf) as (r' & Hp & Hw & Hm & _ & Hc)
    | destruct (ring_put_contents (put_except ex t) r Hwf) as (r' & Hp & Hw & Hm & _ & Hc) ];
    exists r'; (split; [exact Hp|]);
    (destruct (Z.to_nat (max_elt r)) as [|d] eqn:Ed; [destruct Hwf; lia|]);
    pose proof (last_elt_head r' _ _ Hw Hc) as Hl;
    unfold get_last_insert_date, is_last_cmd_an_error, is_last_an_error, get_last_cmd_result;
    rewrite Hl; done.
Qed.

End CmdRing.

(** ** Concrete rings *)

(** Three slots, four records: the first is overwritten. *)
Definition four_records : list (@cmd_record Z) :=
  [(inl 10, 100); (inr [mkDevError "API_Late" ERR "late" "poll"], 200); (inl 30, 350); (inl 40, 600)].
Definition ring_of_four : PollRing Z Z :=
  match insert_records four_records (PollRing_new 3) with Ok r => r | _ => PollRing_new 3 end.

Lemma ring_of_four_wf : ring_wf ring_of_four.
Proof. split; vm_compute; by repeat split. Defined.

Lemma poll_ring_keeps_newest_witness :
  ∃ r : PollRing Z Z, insert_records four_records (PollRing_new 3) = Ok r ∧ ring_wf r ∧
    get_nb_elt r = 3 ∧
    record_view <$> contents r =
      [Some (inl 40, 600); Some (inl 30, 350);
       Some (inr [mkDevError "API_Late" ERR "late" "poll"], 200)].
Proof. apply (poll_ring_keeps_newest (Any := Z) (Elt := Z) 3 four_records). lia. Defined.

Lemma get_delta_t_spec_witness :
  get_delta_t 10 ring_of_four = Ok [250; 150].
Proof.
  exact (eq_trans (get_delta_t_spec ring_of_four 10 ring_of_four_wf) eq_refl).
Defined.

Lemma last_cmd_result_spec_witness :
  ∃ r', insert_record (inl 50, 700) ring_of_four = Ok r' ∧
    get_last_insert_date r' = Ok 700 ∧ is_last_cmd_an_error r' = Ok false ∧
    get_last_cmd_result r' = Ok 50.
Proof. exact (last_cmd_result_spec ring_of_four (inl 50, 700) ring_of_four_wf). Defined.
