(* ===== verification/Rle.v ===== *)
(** * Runs of equal values in the history structures

  A [DevAttrHistory_4/_5] or [DevCmdHistory_4] of the IDL stores a property of
  its records (quality, dimension, error) as a sequence of values and a sequence
  of runs [{start, nb_elt}]: the value holds for the records [start],
  [start - 1], ..., [start - nb_elt + 1].  The server appends to these sequences
  (macro-like code of src/src/server/pollring.cpp and pollring_templ.h), the
  client expands them (src/src/client/devapi_base.cpp).  [rle_pairs] is their
  meaning, and [apply_runs_spec] says that the client's loops compute it. *)
From S2P Require Import Prelude.
Local Open Scope Z_scope.

(** ** Runs *)

Record EltInArray := mkEltInArray { ea_start : Z; ea_nb_elt : Z }.

(** A sequence of values with its sequence of runs; the counter [xxx_length] of
    the code is the length plus one. *)
Record rle (A : Type) := mkRle { rle_vals : list A; rle_arr : list EltInArray }.
Arguments mkRle {A}. Arguments rle_vals {A}. Arguments rle_arr {A}.

Definition rle_empty {A} : rle A := mkRle [] [].

(** [vals[len-1] = v; array[len-1] = {start, 1}; len++]. *)
Definition rle_new {A} (v : A) (start : Z) (r : rle A) : rle A :=
  mkRle (rle_vals r ++ [v]) (rle_arr r ++ [mkEltInArray start 1]).

(** [array[len-2].nb_elt++]. *)
Definition rle_inc {A} (r : rle A) : outcome (rle A) :=
  let i := Z.of_nat (length (rle_arr r)) - 1 in
  e ← vget (rle_arr r) i;
  arr ← vset (rle_arr r) i (mkEltInArray (ea_start e) (ea_nb_elt e + 1));
  Ok (mkRle (rle_vals r) arr).

Definition rle_push {A} (same : bool) (v : A) (start : Z) (r : rle A) : outcome (rle A) :=
  if same then rle_inc r else Ok (rle_new v start r).

(** The inner loop: [nb_elt] elements of [ddh] from [start] downwards. *)
Fixpoint apply_run {X} (f : X → X) (k : nat) (start : Z)
    (ddh : list X) : outcome (list X) :=
  match k with
  | O => Ok ddh
  | S k =>
      x ← vget ddh start;
      ddh' ← vset ddh start (f x);
      apply_run f k (start - 1) ddh'
  end.

(** One of the four copy loops: every run of a value. *)
Fixpoint apply_runs {A X} (f : A → X → X)
    (vs : list A) (runs : list EltInArray) (ddh : list X)
    : outcome (list X) :=
  match vs, runs with
  | [], _ => Ok ddh
  | _ :: _, [] => Undef
  | v :: vs, a :: runs =>
      ddh' ← apply_run (f v) (Z.to_nat (ea_nb_elt a)) (ea_start a) ddh;
      apply_runs f vs runs ddh'
  end.

Definition same_lengths {A} (r : rle A) : bool :=
  (length (rle_vals r) =? length (rle_arr r))%nat.

(** ** The meaning of a run-length sequence *)

(** The records a run covers, from [start] downwards. *)
Fixpoint run_pairs {A} (v : A) (k : nat) (start : Z) : list (Z * A) :=
  match k with O => [] | S k => (start, v) :: run_pairs v k (start - 1) end.

Fixpoint runs_pairs {A} (vs : list A) (runs : list EltInArray) : list (Z * A) :=
  match vs, runs with
  | v :: vs, a :: runs => run_pairs v (Z.to_nat (ea_nb_elt a)) (ea_start a) ++ runs_pairs vs runs
  | _, _ => []
  end.
Definition rle_pairs {A} (r : rle A) : list (Z * A) := runs_pairs (rle_vals r) (rle_arr r).

(** Values attached to the positions [p], [p - 1], ... *)
Fixpoint pairs_from {A} (p : Z) (ovs : list (option A)) : list (Z * A) :=
  match ovs with
  | [] => []
  | Some v :: ovs => (p, v) :: pairs_from (p - 1) ovs
  | None :: ovs => pairs_from (p - 1) ovs
  end.

Record rle_wf {A} (r : rle A) : Prop := {
  rle_len : length (rle_vals r) = length (rle_arr r);
  rle_pos : Forall (λ a, 1 <= ea_nb_elt a) (rle_arr r);
}.

Section Theory.
Context {A : Type}.
Implicit Types (r : rle A) (v : A).

Lemma rle_wf_empty : rle_wf (@rle_empty A).
Proof. split; [done|constructor]. Qed.

Lemma runs_pairs_app vs1 vs2 rs1 rs2 :
  length vs1 = length rs1 →
  runs_pairs (A:=A) (vs1 ++ vs2) (rs1 ++ rs2) = runs_pairs vs1 rs1 ++ runs_pairs vs2 rs2.
Proof.
  revert rs1. induction vs1 as [|v vs1 IH]; intros [|a rs1] H; simpl in *; try lia; [done|].
  rewrite IH by lia. by rewrite app_assoc.
Qed.

Lemma run_pairs_snoc v k st :
  run_pairs v (S k) st = run_pairs v k st ++ [(st - Z.of_nat k, v)].
Proof.
  revert st. induction k as [|k IH]; intros st; simpl; [by rewrite Z.sub_0_r|].
  f_equal. simpl in IH. rewrite IH. do 3 f_equal. lia.
Qed.

Lemma rle_new_wf v st r : rle_wf r → rle_wf (rle_new v st r).
Proof.
  intros [Hl Hp]. split; simpl; [rewrite !length_app; simpl; lia|].
  apply Forall_app. split; [done|]. by repeat constructor.
Qed.

Lemma rle_new_pairs v st r :
  rle_wf r → rle_pairs (rle_new v st r) = rle_pairs r ++ [(st, v)].
Proof. intros [Hl _]. unfold rle_pairs. simpl. by rewrite runs_pairs_app. Qed.

(** Extending the last run extends the meaning by the next position down. *)
Lemma rle_inc_spec p v r :
  rle_wf r → last (rle_pairs r) = Some (p, v) →
  ∃ r', rle_inc r = Ok r' ∧ rle_wf r' ∧ rle_vals r' = rle_vals r ∧
    rle_pairs r' = rle_pairs r ++ [(p - 1, v)].
Proof.
  intros [Hl Hp]. destruct r as [vs rs]; simpl in *. unfold rle_pairs. simpl.
  destruct rs as [|a rs0 _] using rev_ind.
  { destruct vs; [done|simpl in Hl; lia]. }
  destruct vs as [|w vs0 _] using rev_ind.
  { rewrite length_app in Hl. simpl in Hl. lia. }
  rewrite !length_app in Hl. simpl in Hl.
  apply Forall_app in Hp as [Hp0 Ha]. apply Forall_cons_1 in Ha as [Ha _].
  rewrite !runs_pairs_app by lia. simpl. rewrite app_nil_r.
  destruct (Z.to_nat (ea_nb_elt a)) as [|k] eqn:Ek; [lia|].
  rewrite run_pairs_snoc, app_assoc, last_snoc. intros [= <- <-].
  unfold rle_inc. simpl. rewrite length_app. simpl.
  replace (Z.of_nat (length rs0 + 1) - 1) with (Z.of_nat (length rs0)) by lia.
  rewrite (vget_nat _ _ a) by (by rewrite list_lookup_middle). simpl.
  rewrite vset_Ok by (rewrite length_app; simpl; lia). simpl.
  rewrite Nat2Z.id, list_insert_middle by done. eexists; split; [done|].
  split; [|split; [done|]]; simpl.
  - split; simpl; [rewrite !length_app; simpl; lia|]. apply Forall_app. split; [done|].
    constructor; [simpl; lia|constructor].
  - rewrite runs_pairs_app by lia. simpl. rewrite app_nil_r.
    replace (Z.to_nat (ea_nb_elt a + 1)) with (S (S k)) by lia.
    rewrite (run_pairs_snoc w (S k)), (run_pairs_snoc w k), <- !app_assoc.
    do 5 f_equal. lia.
Qed.

Lemma rle_pairs_nil r : rle_wf r → rle_pairs r = [] → rle_vals r = [].
Proof.
  intros [Hl Hp] H. destruct r as [[|v vs] [|a rs]]; simpl in *; try lia; [done|].
  apply Forall_cons_1 in Hp as [Ha _]. unfold rle_pairs in H. simpl in H.
  destruct (Z.to_nat (ea_nb_elt a)) eqn:E; [lia|]. done.
Qed.

Lemma pairs_from_snoc_Some p (ovs : list (option A)) v :
  pairs_from p (ovs ++ [Some v]) = pairs_from p ovs ++ [(p - Z.of_nat (length ovs), v)].
Proof.
  revert p. induction ovs as [|[w|] ovs IH]; intros p; simpl;
    [by rewrite Z.sub_0_r|rewrite IH; simpl; do 4 f_equal; lia|rewrite IH; do 3 f_equal; lia].
Qed.

Lemma pairs_from_snoc_None p (ovs : list (option A)) :
  pairs_from p (ovs ++ [None]) = pairs_from p ovs.
Proof. revert p. induction ovs as [|[w|] ovs IH]; intros p; simpl; by rewrite ?IH. Qed.

(** Pushing a value for the next position, when "same" is only said of the value
    of the position just before. *)
Lemma rle_push_spec same v p st (ovs : list (option A)) r :
  rle_wf r → rle_pairs r = pairs_from p ovs →
  st = p - Z.of_nat (length ovs) →
  (same = true → last ovs = Some (Some v)) →
  ∃ r', rle_push same v st r = Ok r' ∧ rle_wf r' ∧
    rle_pairs r' = pairs_from p (ovs ++ [Some v]).
Proof.
  intros Hwf Hp -> Hs. destruct same; simpl.
  - specialize (Hs eq_refl). apply last_Some_inv in Hs as [l' ->].
    rewrite pairs_from_snoc_Some in Hp.
    destruct (rle_inc_spec (p - Z.of_nat (length l')) v r Hwf) as (r' & -> & Hwf' & _ & Hp').
    { by rewrite Hp, last_snoc. }
    exists r'. split; [done|]. split; [done|].
    rewrite Hp', Hp, !pairs_from_snoc_Some, length_app. simpl. do 3 f_equal. lia.
  - eexists; split; [done|]. split; [by apply rle_new_wf|].
    by rewrite rle_new_pairs, Hp, pairs_from_snoc_Some.
Qed.
End Theory.

(** ** The client's loops *)

Section Apply.
Context {A X : Type}.
Implicit Types (f : A → X → X).

Fixpoint apply_pairs f (ps : list (Z * A)) (l : list X) : outcome (list X) :=
  match ps with
  | [] => Ok l
  | (p, v) :: ps => x ← vget l p; l' ← vset l p (f v x); apply_pairs f ps l'
  end.

Lemma apply_pairs_app f ps1 ps2 l :
  apply_pairs f (ps1 ++ ps2) l = (l' ← apply_pairs f ps1 l; apply_pairs f ps2 l').
Proof.
  revert l. induction ps1 as [|[p v] ps1 IH]; intros l; simpl; [done|].
  destruct (vget l p); simpl; [|done..]. destruct (vset l p _); simpl; done.
Qed.

Lemma apply_run_pairs f v k st l :
  apply_run (f v) k st l = apply_pairs f (run_pairs v k st) l.
Proof.
  revert st l. induction k as [|k IH]; intros st l; simpl; [done|].
  destruct (vget l st); simpl; [|done..]. destruct (vset l st _); simpl; done.
Qed.

Lemma apply_runs_pairs f vs rs l :
  length vs = length rs → apply_runs f vs rs l = apply_pairs f (runs_pairs vs rs) l.
Proof.
  revert rs l. induction vs as [|v vs IH]; intros [|a rs] l H; simpl in *; try lia; [done|].
  rewrite apply_run_pairs, apply_pairs_app.
  destruct (apply_pairs f _ l); simpl; [apply IH; lia|done..].
Qed.

Definition upd f (o : option A) (x : X) : X := match o with Some v => f v x | None => x end.

Lemma apply_pairs_from f (ovs : list (option A)) (hi lo : list X) :
  length ovs = length lo →
  apply_pairs f (pairs_from (Z.of_nat (length lo) - 1) ovs) (reverse lo ++ hi)
    = Ok (reverse (zip_with (upd f) ovs lo) ++ hi).
Proof.
  revert lo hi. induction ovs as [|o ovs IH]; intros [|x lo] hi H; simpl in H; try lia; [done|].
  rewrite !reverse_cons. simpl zip_with. rewrite reverse_cons, <- !app_assoc. simpl app.
  replace (Z.of_nat (length (x :: lo)) - 1) with (Z.of_nat (length lo)) by (simpl; lia).
  destruct o as [v|]; simpl.
  - rewrite (vget_nat _ _ x) by (rewrite <- (length_reverse lo); by rewrite list_lookup_middle).
    simpl. rewrite vset_Ok by (rewrite length_app, length_reverse; simpl; lia). simpl.
    rewrite Nat2Z.id, list_insert_middle by (by rewrite length_reverse).
    apply IH. lia.
  - apply IH. lia.
Qed.

(** The client's loop over a whole sequence of runs: with one optional value per
    record, the newest record first, element [i] of the vector gets the value of
    the record [length - 1 - i]. *)
Lemma apply_runs_spec f (r : rle A) (ovs : list (option A)) (l : list X) :
  rle_wf r → length ovs = length l →
  rle_pairs r = pairs_from (Z.of_nat (length l) - 1) ovs →
  apply_runs f (rle_vals r) (rle_arr r) (reverse l) = Ok (reverse (zip_with (upd f) ovs l)).
Proof.
  intros [Hl _] Hlen Hp. rewrite apply_runs_pairs by done. unfold rle_pairs in Hp. rewrite Hp.
  pose proof (apply_pairs_from f ovs [] l Hlen) as H. by rewrite !app_nil_r in H.
Qed.
End Apply.

Lemma rle_wf_same_lengths {A} (r : rle A) : rle_wf r → same_lengths r = true.
Proof. intros [H _]. unfold same_lengths. by apply Nat.eqb_eq. Qed.
#[export] Hint Resolve rle_wf_empty rle_new_wf rle_wf_same_lengths : core.
