(* ===== verification/AttrHistory.v ===== *)
(** * Attribute histories: the server's compression and the client's expansion

  [PollRing::get_attr_history] (src/src/include/tango/server/pollring_templ.h)
  packs the [n] newest records of a ring into a [DevAttrHistory_4/_5]: the
  qualities, the dimensions and the errors as runs of equal values, the data in
  one sequence, the newest record first.  [from_hist_2_AttHistory] and
  [extract_value] (src/src/client/devapi_base.cpp) unpack it into one
  [DeviceAttributeHistory] per record, the oldest first.  The main theorem is
  the round trip of the two. *)
From S2P Require Import Prelude PollRing Rle.
Local Open Scope Z_scope.

(** ** Dates (src/src/include/tango/server/tango_clock.h)

  [make_TimeVal] converts a polling-clock date to the system clock with one
  reading of each clock ([src_ref], [dst_ref]); C++ division truncates. *)

Definition NANOS_IN_SEC : Z := 1000 * 1000 * 1000.
Definition NANOS_IN_USEC : Z := 1000.

Definition convert_time_point (src_ref dst_ref src : Z) : Z := dst_ref - (src_ref - src).

Definition make_TimeVal (src_ref dst_ref tp : Z) : TimeVal :=
  let time_ns := convert_time_point src_ref dst_ref tp in
  mkTimeVal (Z.quot time_ns NANOS_IN_SEC)
    (Z.quot (Z.rem time_ns NANOS_IN_SEC) NANOS_IN_USEC)
    (Z.rem (Z.rem time_ns NANOS_IN_SEC) NANOS_IN_USEC).

(** [detail::make_system_time]: the nanoseconds of seconds, microseconds and
    nanoseconds. *)
Definition make_system_time (tv : TimeVal) : Z :=
  tv_sec tv * NANOS_IN_SEC + tv_usec tv * NANOS_IN_USEC + tv_nsec tv.

Definition clear_nsec (tv : TimeVal) : TimeVal := mkTimeVal (tv_sec tv) (tv_usec tv) 0.

(** ** Data types ([CmdArgType] of tango_const.h) *)

Inductive CmdArgType :=
  | DEV_VOID | DEV_BOOLEAN | DEV_SHORT | DEV_LONG | DEV_FLOAT | DEV_DOUBLE
  | DEV_USHORT | DEV_ULONG | DEV_STRING | DEVVAR_CHARARRAY | DEVVAR_SHORTARRAY
  | DEVVAR_LONGARRAY | DEVVAR_FLOATARRAY | DEVVAR_DOUBLEARRAY | DEVVAR_USHORTARRAY
  | DEVVAR_ULONGARRAY | DEVVAR_STRINGARRAY | DEVVAR_LONGSTRINGARRAY
  | DEVVAR_DOUBLESTRINGARRAY | DEV_STATE | CONST_DEV_STRING | DEVVAR_BOOLEANARRAY
  | DEV_UCHAR | DEV_LONG64 | DEV_ULONG64 | DEVVAR_LONG64ARRAY | DEVVAR_ULONG64ARRAY
  | DEV_ENCODED | DEV_ENUM | DEV_PIPE_BLOB | DEVVAR_STATEARRAY | DEVVAR_ENCODEDARRAY
  | DATA_TYPE_UNKNOWN.

(** The union member each branch of the switch reads; the state read as an
    attribute comes with type [DEV_VOID]. *)
Definition union_member (type : CmdArgType) : option AttributeDataType :=
  match type with
  | DEV_SHORT | DEV_ENUM => Some ATT_SHORT
  | DEV_DOUBLE => Some ATT_DOUBLE
  | DEV_LONG => Some ATT_LONG
  | DEV_LONG64 => Some ATT_LONG64
  | DEV_STRING => Some ATT_STRING
  | DEV_FLOAT => Some ATT_FLOAT
  | DEV_BOOLEAN => Some ATT_BOOL
  | DEV_USHORT => Some ATT_USHORT
  | DEV_UCHAR => Some ATT_UCHAR
  | DEV_ULONG => Some ATT_ULONG
  | DEV_ULONG64 => Some ATT_ULONG64
  | DEV_STATE => Some ATT_STATE
  | DEV_VOID => Some DEVICE_STATE
  | DEV_ENCODED => Some ATT_ENCODED
  | _ => None
  end.

(** The length of the data of a record, from its dimensions. *)
Definition dim_length (d : AttributeDim) : Z :=
  if dim_y d =? 0 then dim_x d else dim_x d * dim_y d.
Definition data_length (rd wd : AttributeDim) : Z := dim_length rd + dim_length wd.

(** ** Server side *)

Section Server.
Context {Any Elt : Type}.
(** The two clock readings of a conversion. *)
Context (src_ref dst_ref : Z).
Implicit Types (r : PollRing Any Elt) (e : RingElt Any Elt).

(** The first value of the list that [ring[index].attr_value_4] or
    [ring[index].attr_value_5] points to. *)
Definition hist_value (idl5 : bool) e : outcome (AttributeValue Elt) :=
  l ← deref (if idl5 then attr_value_5 e else attr_value_4 e); vget l 0.

(** First pass: the size of the global sequence and the number of errors. *)
Fixpoint hist_sizes (r : PollRing Any Elt) (idl5 : bool) (n : nat) (index : Z)
    (seq_size error_nb : Z) : outcome (Z * Z) :=
  match n with
  | O => Ok (seq_size, error_nb)
  | S n =>
      e ← vget (ring r) index;
      match except e with
      | None =>
          av ← hist_value idl5 e;
          hist_sizes r idl5 n (hist_next r index)
            (seq_size + data_length (av_r_dim av) (av_w_dim av)) error_nb
      | Some _ => hist_sizes r idl5 n (hist_next r index) seq_size (error_nb + 1)
      end
  end.

(** The transfer structure being built and the loop variables. *)
Record hist_st := mkHist {
  h_dates : list TimeVal;
  h_quals : rle AttrQuality;
  h_r_dims : rle AttributeDim;
  h_w_dims : rle AttributeDim;
  h_errors : rle DevErrorList;
  last_quality : AttrQuality;
  last_dim_read : AttributeDim;
  last_dim_write : AttributeDim;
  last_err_list : DevErrorList;
  no_data : bool;
  h_buf : option (list (option Elt));
  ind_in_seq : Z;
}.

Definition hist_init (n : nat) : hist_st :=
  mkHist (replicate n (mkTimeVal 0 0 0)) rle_empty rle_empty rle_empty rle_empty
    ATTR_VALID (mkDim (-1) (-1)) (mkDim (-1) (-1)) [] true None 0.

(** [ptr->dates[seq_index]]: from the value when there is one, else from the
    ring; nanoseconds cleared. *)
Definition record_date (idl5 : bool) e : outcome TimeVal :=
  match except e with
  | None => av ← hist_value idl5 e; Ok (clear_nsec (av_time av))
  | Some _ => Ok (clear_nsec (make_TimeVal src_ref dst_ref (when e)))
  end.

(** The branch without exception: quality, read and write dimensions.  The new
    [no_data] is whether the quality is invalid. *)
Definition hist_good (start : Z) (av : AttributeValue Elt) (s : hist_st) : outcome hist_st :=
  let qu := av_quality av in
  let rd := av_r_dim av in
  let wd := av_w_dim av in
  let new_q := (Z.of_nat (length (rle_vals (h_quals s))) + 1 =? 1)
               || negb (bool_decide (qu = last_quality s)) in
  let lq := if new_q then qu else last_quality s in
  quals ← rle_push (negb new_q) qu start (h_quals s);
  r_dims ← rle_push (bool_decide (rd = last_dim_read s)) rd start (h_r_dims s);
  w_dims ← rle_push (bool_decide (wd = last_dim_write s)) wd start (h_w_dims s);
  Ok (mkHist (h_dates s) quals r_dims w_dims (h_errors s) lq
        (if bool_decide (rd = last_dim_read s) then last_dim_read s else rd)
        (if bool_decide (wd = last_dim_write s) then last_dim_write s else wd)
        (last_err_list s) (bool_decide (lq = ATTR_INVALID)) (h_buf s) (ind_in_seq s)).

(** The field-by-field comparison of two errors. *)
Definition error_differs (e1 e2 : DevError) : bool :=
  negb (bool_decide (reason e1 = reason e2))
  || negb (bool_decide (desc e1 = desc e2))
  || negb (bool_decide (origin e1 = origin e2))
  || negb (bool_decide (severity e1 = severity e2)).

Fixpoint errors_differ (l1 l2 : DevErrorList) : bool :=
  match l1, l2 with
  | e1 :: l1, e2 :: l2 => error_differs e1 e2 || errors_differ l1 l2
  | _, _ => false
  end.

Definition is_new_err (previous_no_data : bool) (ex last : DevErrorList) : bool :=
  if previous_no_data then
    if negb (length ex =? length last)%nat then true else errors_differ ex last
  else true.

(** The branch with an exception: the error, then the entries of quality
    invalid and of dimensions zero added by hand. *)
Definition hist_bad (start : Z) (ex : DevErrorList) (previous_no_data : bool) (s : hist_st)
    : outcome hist_st :=
  let new_err := is_new_err previous_no_data ex (last_err_list s) in
  let zero := mkDim 0 0 in
  let new_q := (Z.of_nat (length (rle_vals (h_quals s))) + 1 =? 1)
               || negb (bool_decide (last_quality s = ATTR_INVALID)) in
  errors ← rle_push (negb new_err) ex start (h_errors s);
  quals ← rle_push (negb new_q) ATTR_INVALID start (h_quals s);
  r_dims ← rle_push (bool_decide (last_dim_read s = zero)) zero start (h_r_dims s);
  w_dims ← rle_push (bool_decide (last_dim_write s = zero)) zero start (h_w_dims s);
  Ok (mkHist (h_dates s) quals r_dims w_dims errors
        (if new_q then ATTR_INVALID else last_quality s)
        (if bool_decide (last_dim_read s = zero) then last_dim_read s else zero)
        (if bool_decide (last_dim_write s = zero) then last_dim_write s else zero)
        (if new_err then ex else last_err_list s) true (h_buf s) (ind_in_seq s)).

(** [ADD_ELT_DATA_TO_GLOBAL_SEQ_BY_PTR_REF]. *)
Fixpoint add_elt_data (glob : list (option Elt)) (elts : list Elt) (ind : Z)
    : outcome (list (option Elt)) :=
  match elts with
  | [] => Ok glob
  | x :: elts => glob' ← vset glob ind (Some x); add_elt_data glob' elts (ind + 1)
  end.

(** The data of a record: the union must hold the member the type selects. *)
Definition hist_data (type : CmdArgType) (seq_size : Z) (av : AttributeValue Elt) (s : hist_st)
    : outcome hist_st :=
  match union_member type with
  | None => Ok s
  | Some d =>
      if negb (bool_decide (union_d (av_value av) = d)) then Exc (OtherExc "BAD_PARAM") else
      let glob := default (replicate (Z.to_nat seq_size) None) (h_buf s) in
      glob' ← add_elt_data glob (union_seq (av_value av)) (ind_in_seq s);
      Ok (mkHist (h_dates s) (h_quals s) (h_r_dims s) (h_w_dims s) (h_errors s)
            (last_quality s) (last_dim_read s) (last_dim_write s) (last_err_list s)
            (no_data s) (Some glob')
            (ind_in_seq s + Z.of_nat (length (union_seq (av_value av)))))
  end.

(** One record, at position [start = n - (i + 1)]. *)
Definition hist_step (idl5 : bool) (type : CmdArgType) (seq_size : Z) (start : Z)
    e (s : hist_st) : outcome hist_st :=
  let previous_no_data := no_data s in
  date ← record_date idl5 e;
  dates ← vset (h_dates s) start date;
  let s := mkHist dates (h_quals s) (h_r_dims s) (h_w_dims s) (h_errors s)
             (last_quality s) (last_dim_read s) (last_dim_write s) (last_err_list s)
             (no_data s) (h_buf s) (ind_in_seq s) in
  match except e with
  | None =>
      av ← hist_value idl5 e;
      s ← hist_good start av s;
      if no_data s then Ok s else hist_data type seq_size av s
  | Some ex => hist_bad start ex previous_no_data s
  end.

(** Second pass: [k] records left, the next at position [k - 1]. *)
Fixpoint hist_loop (r : PollRing Any Elt) (idl5 : bool) (type : CmdArgType) (seq_size : Z)
    (k : nat) (index : Z) (s : hist_st) : outcome hist_st :=
  match k with
  | O => Ok s
  | S k' =>
      e ← vget (ring r) index;
      s ← hist_step idl5 type seq_size (Z.of_nat k') e s;
      hist_loop r idl5 type seq_size k' (hist_next r index) s
  end.

(** The IDL structure sent to the client. *)
Record DevAttrHistory := mkDevAttrHistory {
  dates : list TimeVal;
  quals : rle AttrQuality;
  r_dims : rle AttributeDim;
  w_dims : rle AttributeDim;
  errors_h : rle DevErrorList;
  value_h : option (list (option Elt));
}.

(** [PollRing::get_attr_history]: the IDL version is decided on the newest
    record only. *)
Definition get_attr_history (n : nat) (type : CmdArgType) r : outcome DevAttrHistory :=
  let index := hist_start r in
  newest ← vget (ring r) index;
  let idl5 := bool_decide (attr_value_4 newest = None) in
  '(seq_size, error_nb) ← hist_sizes r idl5 n index 0 0;
  s ← hist_loop r idl5 type seq_size n index (hist_init n);
  Ok (mkDevAttrHistory (h_dates s) (h_quals s) (h_r_dims s) (h_w_dims s) (h_errors s) (h_buf s)).

End Server.
Arguments hist_st : clear implicits.
Arguments DevAttrHistory : clear implicits.

(** ** Client side *)

Section Client.
Context {Elt : Type}.

Record DeviceAttributeHistory := mkDAH {
  d_time : TimeVal;
  d_quality : AttrQuality;
  d_dim_x : Z;
  d_dim_y : Z;
  d_w_dim_x : Z;
  d_w_dim_y : Z;
  d_failed : bool;
  d_err_list : DevErrorList;
  d_seq : option (list (option Elt));
}.

(** The default constructor of [DeviceAttributeHistory]. *)
Definition DeviceAttributeHistory_new : DeviceAttributeHistory :=
  mkDAH (mkTimeVal 0 0 0) ATTR_INVALID 0 0 0 0 false [] None.

Definition set_time (t : TimeVal) (x : DeviceAttributeHistory) :=
  mkDAH t (d_quality x) (d_dim_x x) (d_dim_y x) (d_w_dim_x x) (d_w_dim_y x) (d_failed x)
    (d_err_list x) (d_seq x).
Definition set_quality (q : AttrQuality) (x : DeviceAttributeHistory) :=
  mkDAH (d_time x) q (d_dim_x x) (d_dim_y x) (d_w_dim_x x) (d_w_dim_y x) (d_failed x)
    (d_err_list x) (d_seq x).
Definition set_r_dim (d : AttributeDim) (x : DeviceAttributeHistory) :=
  mkDAH (d_time x) (d_quality x) (dim_x d) (dim_y d) (d_w_dim_x x) (d_w_dim_y x) (d_failed x)
    (d_err_list x) (d_seq x).
Definition set_w_dim (d : AttributeDim) (x : DeviceAttributeHistory) :=
  mkDAH (d_time x) (d_quality x) (d_dim_x x) (d_dim_y x) (dim_x d) (dim_y d) (d_failed x)
    (d_err_list x) (d_seq x).
Definition set_errors (errs : DevErrorList) (x : DeviceAttributeHistory) :=
  mkDAH (d_time x) (d_quality x) (d_dim_x x) (d_dim_y x) (d_w_dim_x x) (d_w_dim_y x) true
    errs (d_seq x).
Definition update_internal_sequence (sl : list (option Elt)) (x : DeviceAttributeHistory) :=
  mkDAH (d_time x) (d_quality x) (d_dim_x x) (d_dim_y x) (d_w_dim_x x) (d_w_dim_y x)
    (d_failed x) (d_err_list x) (Some sl).

(** [tmp[offset], ..., tmp[offset + len - 1]]. *)
Definition slice (buf : list (option Elt)) (offset len : Z) : outcome (list (option Elt)) :=
  if (0 <=? offset) && (0 <=? len) && (offset + len <=? Z.of_nat (length buf))
  then Ok (take (Z.to_nat len) (drop (Z.to_nat offset) buf)) else Undef.

(** [extract_value]: from the oldest record, cutting the end of the sequence. *)
Fixpoint extract_value (buf : list (option Elt)) (base : Z) (ddh : list DeviceAttributeHistory)
    : outcome (list DeviceAttributeHistory) :=
  match ddh with
  | [] => Ok []
  | x :: ddh =>
      if d_failed x || bool_decide (d_quality x = ATTR_INVALID) then
        rest ← extract_value buf base ddh; Ok (x :: rest)
      else
        let len := data_length (mkDim (d_dim_x x) (d_dim_y x)) (mkDim (d_w_dim_x x) (d_w_dim_y x)) in
        sl ← slice buf (base - len) len;
        rest ← extract_value buf (base - len) ddh;
        Ok (update_internal_sequence sl x :: rest)
  end.

(** [from_hist_2_AttHistory], on the vector its caller [attribute_history] has
    filled with default elements. *)
Definition from_hist_2_AttHistory (hist : DevAttrHistory Elt) : outcome (list DeviceAttributeHistory) :=
  if negb (same_lengths (quals hist) && same_lengths (r_dims hist)
           && same_lengths (w_dims hist) && same_lengths (errors_h hist)) then
    throw_exception "API_WrongHistoryDataBuffer"
      "Data buffer received from server is not valid !" "from_hist_2_AttHistory"
  else
    let ddh := (λ t, set_time t DeviceAttributeHistory_new) <$> dates hist in
    ddh ← apply_runs set_quality (rle_vals (quals hist)) (rle_arr (quals hist)) ddh;
    ddh ← apply_runs set_r_dim (rle_vals (r_dims hist)) (rle_arr (r_dims hist)) ddh;
    ddh ← apply_runs set_w_dim (rle_vals (w_dims hist)) (rle_arr (w_dims hist)) ddh;
    ddh ← apply_runs set_errors (rle_vals (errors_h hist)) (rle_arr (errors_h hist)) ddh;
    match value_h hist with
    | None => Ok ddh
    | Some buf => extract_value buf (Z.of_nat (length buf)) ddh
    end.

End Client.
Arguments DeviceAttributeHistory : clear implicits.

(** ** Round trip *)

(** [make_TimeVal] splits a system date without losing a nanosecond, dates before
    1970 included. *)
Lemma make_TimeVal_round src_ref dst_ref tp :
  make_system_time (make_TimeVal src_ref dst_ref tp) = convert_time_point src_ref dst_ref tp.
Proof.
  unfold make_system_time, make_TimeVal. simpl. set (t := convert_time_point _ _ _).
  pose proof (Z.quot_rem' t NANOS_IN_SEC) as H1.
  pose proof (Z.quot_rem' (Z.rem t NANOS_IN_SEC) NANOS_IN_USEC) as H2. lia.
Qed.

Section RoundTrip.
Context {Any Elt : Type} (src_ref dst_ref : Z).
Context (idl5 : bool) (type : CmdArgType).
Implicit Types (r : PollRing Any Elt) (e : RingElt Any Elt).

(** *** What a record says *)

Definition value_of e : option (AttributeValue Elt) :=
  (if idl5 then attr_value_5 e else attr_value_4 e) ≫= head.

Definition failed_with e : option DevErrorList := except e.
Definition quality_of e : AttrQuality :=
  match except e, value_of e with None, Some av => av_quality av | _, _ => ATTR_INVALID end.
Definition r_dim_of e : AttributeDim :=
  match except e, value_of e with None, Some av => av_r_dim av | _, _ => mkDim 0 0 end.
Definition w_dim_of e : AttributeDim :=
  match except e, value_of e with None, Some av => av_w_dim av | _, _ => mkDim 0 0 end.
Definition date_of e : TimeVal :=
  match except e, value_of e with
  | None, Some av => clear_nsec (av_time av)
  | _, _ => clear_nsec (make_TimeVal src_ref dst_ref (when e))
  end.
Definition has_data e : bool := negb (bool_decide (quality_of e = ATTR_INVALID)).
Definition data_of e : list Elt :=
  match except e, value_of e with
  | None, Some av => if has_data e then union_seq (av_value av) else []
  | _, _ => []
  end.

(** The element the client must get for a record. *)
Definition client_record e : DeviceAttributeHistory Elt :=
  mkDAH (date_of e) (quality_of e) (dim_x (r_dim_of e)) (dim_y (r_dim_of e))
    (dim_x (w_dim_of e)) (dim_y (w_dim_of e)) (bool_decide (is_Some (failed_with e)))
    (default [] (failed_with e)) (if has_data e then Some (Some <$> data_of e) else None).

(** A record as the polling thread stores it: a non-empty error stack, or a
    value of the device's IDL version with the type of the attribute and the dimensions of
    its data, or an invalid one, with no data and dimensions zero. *)
Definition record_ok e : Prop :=
  match except e with
  | Some ex => ex ≠ []
  | None => ∃ av, value_of e = Some av ∧
      (av_quality av = ATTR_INVALID ∨ union_member type = Some (union_d (av_value av))) ∧
      0 <= dim_x (av_r_dim av) ∧ 0 <= dim_y (av_r_dim av) ∧
      0 <= dim_x (av_w_dim av) ∧ 0 <= dim_y (av_w_dim av) ∧
      (if bool_decide (av_quality av = ATTR_INVALID)
       then av_r_dim av = mkDim 0 0 ∧ av_w_dim av = mkDim 0 0
       else data_length (av_r_dim av) (av_w_dim av) = Z.of_nat (length (union_seq (av_value av))))
  end.

Definition last_error (es : list (RingElt Any Elt)) : DevErrorList :=
  default [] (last (omap failed_with es)).

(** The newest-first list never has the same error stack on both sides of an
    invalid record that is not an error (directly before the second one): the
    server would count it in the run of the first. *)
Definition no_merge (es : list (RingElt Any Elt)) : Prop :=
  ∀ l e e' l' ex, es = l ++ e :: e' :: l' →
    failed_with e = None → quality_of e = ATTR_INVALID →
    failed_with e' = Some ex → last_error l ≠ ex.

Fixpoint records_loop (sz : Z) (es : list (RingElt Any Elt)) (s : hist_st Elt) : outcome (hist_st Elt) :=
  match es with
  | [] => Ok s
  | e :: es =>
      s' ← hist_step src_ref dst_ref idl5 type sz (Z.of_nat (length es)) e s;
      records_loop sz es s'
  end.

Lemma hist_loop_records r sz k j s :
  ring_wf r → (j + k <= Z.to_nat (nb_elt r))%nat →
  hist_loop src_ref dst_ref r idl5 type sz k (slot_index r j) s
    = records_loop sz (take k (drop j (contents r))) s.
Proof.
  intros Hwf. revert j s. induction k as [|k IH]; intros j s Hk; simpl; [done|].
  rewrite vget_ring_at by auto. simpl.
  rewrite (drop_S (contents r) (ring_at r (slot_index r j)) j) by (apply contents_lookup; lia).
  simpl. rewrite length_take, length_drop, contents_length.
  replace (k `min` (Z.to_nat (nb_elt r) - S j))%nat with k by lia.
  destruct (hist_step _ _ _ _ _ _ _ _); simpl; [|done..].
  rewrite slot_index_S by done. apply IH. lia.
Qed.

Definition total_size (es : list (RingElt Any Elt)) : Z :=
  Z.of_nat (length (concat (data_of <$> es))).

Lemma total_size_cons e es : total_size (e :: es) = Z.of_nat (length (data_of e)) + total_size es.
Proof. unfold total_size. rewrite fmap_cons. simpl. rewrite length_app. lia. Qed.

Lemma record_ok_value e :
  record_ok e → except e = None → ∃ av, value_of e = Some av ∧ hist_value idl5 e = Ok av.
Proof.
  unfold record_ok, value_of, hist_value. intros Hok He. rewrite He in Hok.
  destruct Hok as (av & Hv & _). exists av. split; [done|].
  destruct (if idl5 then _ else _) as [[|x l]|]; simpl in *; naive_solver.
Qed.

Lemma record_ok_size e av :
  record_ok e → except e = None → value_of e = Some av →
  data_length (av_r_dim av) (av_w_dim av) = Z.of_nat (length (data_of e)).
Proof.
  unfold record_ok, data_of, has_data, quality_of. intros Hok He Hv. rewrite He, Hv in *.
  destruct Hok as (av' & [= <-] & _ & _ & _ & _ & _ & Hd).
  case_bool_decide; simpl; [|done]. destruct Hd as [-> ->]. done.
Qed.

Lemma hist_sizes_records r k j a b :
  ring_wf r → (j + k <= Z.to_nat (nb_elt r))%nat →
  Forall record_ok (take k (drop j (contents r))) →
  ∃ b', hist_sizes r idl5 k (slot_index r j) a b
    = Ok (a + total_size (take k (drop j (contents r))), b').
Proof.
  intros Hwf. revert j a b. induction k as [|k IH]; intros j a b Hk Hok; simpl.
  { exists b. unfold total_size. simpl. do 2 f_equal. lia. }
  set (e := ring_at r (slot_index r j)).
  assert (drop j (contents r) = e :: drop (S j) (contents r)) as Hd.
  { apply drop_S, contents_lookup. lia. }
  rewrite Hd in *. simpl in Hok |- *. apply Forall_cons_1 in Hok as [He Hok].
  rewrite vget_ring_at by auto. fold e. simpl. rewrite slot_index_S by done.
  rewrite total_size_cons.
  destruct (except e) as [ex|] eqn:Ee.
  - destruct (IH (S j) a (b + 1)) as [b' ->]; [lia|done|]. exists b'.
    unfold data_of at 1. rewrite Ee. simpl. do 2 f_equal; lia.
  - destruct (record_ok_value e He Ee) as (av & Hv & ->). simpl.
    destruct (IH (S j) (a + data_length (av_r_dim av) (av_w_dim av)) b) as [b' ->]; [lia|done|].
    exists b'. rewrite (record_ok_size e av) by done. do 2 f_equal. lia.
Qed.

(** *** The server's loop, record after record *)

Lemma add_elt_data_spec (a : list (option Elt)) (xs : list Elt) (k : nat) :
  (length xs <= k)%nat →
  add_elt_data (a ++ replicate k None) xs (Z.of_nat (length a))
    = Ok (a ++ (Some <$> xs) ++ replicate (k - length xs) None).
Proof.
  revert a k. induction xs as [|x xs IH]; intros a k Hk; simpl in *; [by rewrite Nat.sub_0_r|].
  destruct k as [|k]; [lia|]. simpl replicate.
  rewrite vset_Ok by (rewrite length_app; simpl; lia). simpl.
  rewrite Nat2Z.id, list_insert_middle by done.
  replace (Z.of_nat (length a) + 1) with (Z.of_nat (length (a ++ [Some x])))
    by (rewrite length_app; simpl; lia).
  rewrite (cons_middle (Some x)), app_assoc, IH by lia.
  by rewrite <- !app_assoc.
Qed.

Record server_inv (n : nat) (sz : Z) (pre : list (RingElt Any Elt)) (s : hist_st Elt) : Prop := {
  inv_q_wf : rle_wf (h_quals s);
  inv_q : rle_pairs (h_quals s) = pairs_from (Z.of_nat n - 1) (Some ∘ quality_of <$> pre);
  inv_r_wf : rle_wf (h_r_dims s);
  inv_r : rle_pairs (h_r_dims s) = pairs_from (Z.of_nat n - 1) (Some ∘ r_dim_of <$> pre);
  inv_w_wf : rle_wf (h_w_dims s);
  inv_w : rle_pairs (h_w_dims s) = pairs_from (Z.of_nat n - 1) (Some ∘ w_dim_of <$> pre);
  inv_e_wf : rle_wf (h_errors s);
  inv_e : rle_pairs (h_errors s) = pairs_from (Z.of_nat n - 1) (failed_with <$> pre);
  inv_lq : ∀ e, last pre = Some e → last_quality s = quality_of e;
  inv_lr : last_dim_read s = default (mkDim (-1) (-1)) (r_dim_of <$> last pre);
  inv_lw : last_dim_write s = default (mkDim (-1) (-1)) (w_dim_of <$> last pre);
  inv_le : last_err_list s = last_error pre;
  inv_nd : no_data s = match last pre with None => true | Some e => negb (has_data e) end;
  inv_ind : ind_in_seq s = total_size pre;
  inv_buf : default (replicate (Z.to_nat sz) None) (h_buf s) =
    (Some <$> concat (data_of <$> pre)) ++ replicate (Z.to_nat (sz - total_size pre)) None;
  inv_none : h_buf s = None → Forall (λ e, has_data e = false) pre;
}.

Definition dates_inv (n : nat) (pre : list (RingElt Any Elt)) (s : hist_st Elt) : Prop :=
  h_dates s = replicate (n - length pre) (mkTimeVal 0 0 0) ++ reverse (date_of <$> pre).

Lemma server_inv_init n sz : server_inv n sz [] (hist_init n).
Proof.
  split; simpl; rewrite ?app_nil_r, ?Nat.sub_0_r; auto; try done.
  unfold total_size. simpl. by rewrite Z.sub_0_r.
Qed.

Lemma last_fmap {A B} (f : A → B) (l : list A) : last (f <$> l) = f <$> last l.
Proof. by rewrite fmap_last. Qed.

(** The "same as the previous one" tests of the code are about the record just
    before. *)
Lemma same_quality n sz pre s q :
  server_inv n sz pre s →
  negb ((Z.of_nat (length (rle_vals (h_quals s))) + 1 =? 1)
        || negb (bool_decide (q = last_quality s))) = true →
  last (Some ∘ quality_of <$> pre) = Some (Some q).
Proof.
  intros Hi H. propb. destruct pre as [|e pre _] using rev_ind.
  - pose proof (rle_pairs_nil _ (inv_q_wf _ _ _ _ Hi) (inv_q _ _ _ _ Hi)) as E.
    rewrite E in *. simpl in *. lia.
  - rewrite last_fmap, last_snoc. simpl. subst q.
    rewrite (inv_lq _ _ _ _ Hi e) by apply last_snoc. done.
Qed.

Lemma same_dim (f : RingElt Any Elt → AttributeDim) (l : AttributeDim) pre (d : AttributeDim) :
  l = default (mkDim (-1) (-1)) (f <$> last pre) → 0 <= dim_x d →
  bool_decide (d = l) = true → last (Some ∘ f <$> pre) = Some (Some d).
Proof.
  intros Hl Hd H. propb. subst d. rewrite last_fmap. destruct (last pre); simpl in *; subst; done.
Qed.

Lemma errors_differ_false l1 l2 :
  length l1 = length l2 → errors_differ l1 l2 = false → l1 = l2.
Proof.
  revert l2. induction l1 as [|[r1 v1 d1 o1] l1 IH]; intros [|[r2 v2 d2 o2] l2] Hl H; simpl in *; try lia; [done|].
  unfold error_differs in H. simpl in H. propb. rewrite (IH l2) by (done || lia). congruence.
Qed.

Lemma is_new_err_false p ex l : is_new_err p ex l = false → p = true ∧ ex = l.
Proof.
  unfold is_new_err. destruct p; [|done]. case_if; [done|]. intros H. split; [done|].
  apply errors_differ_false; [|done]. by apply Nat.eqb_eq.
Qed.

Lemma last_error_snoc pre e :
  last_error (pre ++ [e]) = match failed_with e with Some ex => ex | None => last_error pre end.
Proof.
  unfold last_error. rewrite omap_app. simpl. destruct (failed_with e); simpl.
  - by rewrite last_snoc.
  - by rewrite app_nil_r.
Qed.

Lemma same_error n sz pre e post s ex :
  server_inv n sz pre s → no_merge (pre ++ e :: post) →
  failed_with e = Some ex → ex ≠ [] →
  negb (is_new_err (no_data s) ex (last_err_list s)) = true →
  last (failed_with <$> pre) = Some (Some ex).
Proof.
  intros Hi Hm He Hex H. apply negb_true_iff, is_new_err_false in H as [Hn Hl].
  rewrite (inv_le _ _ _ _ Hi) in Hl. destruct pre as [|e' pre _] using rev_ind; [done|].
  rewrite (inv_nd _ _ _ _ Hi), last_snoc in Hn.
  rewrite last_fmap, last_snoc. rewrite last_error_snoc in Hl.
  destruct (failed_with e') as [ex'|] eqn:E'; simpl in *; [congruence|].
  exfalso. apply (Hm pre e' e post ex); try done.
  - by rewrite <- app_assoc.
  - unfold has_data in Hn. rewrite negb_involutive in Hn. by propb.
Qed.

Lemma record_date_ok e : record_ok e → record_date src_ref dst_ref idl5 e = Ok (date_of e).
Proof.
  intros He. unfold record_date, date_of. destruct (except e) eqn:Ee; [done|].
  destruct (record_ok_value e He Ee) as (av & -> & ->). done.
Qed.

Lemma dates_step n pre (post : list (RingElt Any Elt)) e :
  n = S (length pre + length post) →
  vset (replicate (n - length pre) (mkTimeVal 0 0 0) ++ reverse (date_of <$> pre))
       (Z.of_nat (length post)) (date_of e)
  = Ok (replicate (n - length (pre ++ [e])) (mkTimeVal 0 0 0) ++ reverse (date_of <$> pre ++ [e])).
Proof.
  intros ->. rewrite length_app. simpl length.
  replace (S (length pre + length post) - length pre)%nat with (S (length post)) by lia.
  replace (S (length pre + length post) - (length pre + 1))%nat with (length post) by lia.
  rewrite vset_Ok by (rewrite length_app, length_replicate; lia).
  rewrite Nat2Z.id, replicate_S_end, <- app_assoc. simpl.
  rewrite list_insert_middle by (by rewrite length_replicate).
  by rewrite fmap_app, reverse_app.
Qed.

(** The position of the code, [n - (i + 1)], from the end of the list. *)
Lemma start_pos {B} n (pre : list (RingElt Any Elt)) (post : list (RingElt Any Elt)) (g : RingElt Any Elt → B) :
  n = S (length pre + length post) →
  Z.of_nat (length post) = Z.of_nat n - 1 - Z.of_nat (length (g <$> pre)).
Proof. intros ->. rewrite length_fmap. lia. Qed.

Lemma good_branch n sz pre (post : list (RingElt Any Elt)) e s av :
  server_inv n sz pre s → n = S (length pre + length post) →
  except e = None → record_ok e → value_of e = Some av →
  ∃ s', hist_good (Z.of_nat (length post)) av s = Ok s' ∧
    h_dates s' = h_dates s ∧ h_buf s' = h_buf s ∧ ind_in_seq s' = ind_in_seq s ∧
    h_errors s' = h_errors s ∧ last_err_list s' = last_err_list s ∧
    last_quality s' = quality_of e ∧ last_dim_read s' = r_dim_of e ∧
    last_dim_write s' = w_dim_of e ∧ no_data s' = negb (has_data e) ∧
    (rle_wf (h_quals s') ∧
     rle_pairs (h_quals s') = pairs_from (Z.of_nat n - 1) (Some ∘ quality_of <$> pre ++ [e])) ∧
    (rle_wf (h_r_dims s') ∧
     rle_pairs (h_r_dims s') = pairs_from (Z.of_nat n - 1) (Some ∘ r_dim_of <$> pre ++ [e])) ∧
    (rle_wf (h_w_dims s') ∧
     rle_pairs (h_w_dims s') = pairs_from (Z.of_nat n - 1) (Some ∘ w_dim_of <$> pre ++ [e])).
Proof.
  intros Hi Hn Ee Hok Hv.
  assert (quality_of e = av_quality av ∧ r_dim_of e = av_r_dim av ∧ w_dim_of e = av_w_dim av)
    as (Eq & Er & Ew) by (unfold quality_of, r_dim_of, w_dim_of; by rewrite Ee, Hv).
  unfold record_ok in Hok. rewrite Ee in Hok.
  destruct Hok as (av' & Hv' & _ & Hrx & _ & Hwx & _). rewrite Hv in Hv'. injection Hv' as <-.
  unfold hist_good. set (new_q := _ || _).
  destruct (rle_push_spec (negb new_q) (av_quality av) _ (Z.of_nat (length post)) _ _ (inv_q_wf _ _ _ _ Hi) (inv_q _ _ _ _ Hi))
    as (q' & -> & Hqw & Hq);
    [by apply start_pos|by apply (same_quality n sz)|]. simpl.
  destruct (rle_push_spec (bool_decide (av_r_dim av = last_dim_read s)) (av_r_dim av) _ (Z.of_nat (length post)) _ _
    (inv_r_wf _ _ _ _ Hi) (inv_r _ _ _ _ Hi)) as (r' & -> & Hrw & Hr); [by apply start_pos|..]; simpl.
  { by apply (same_dim r_dim_of _ _ _ (inv_lr _ _ _ _ Hi)). }
  destruct (rle_push_spec (bool_decide (av_w_dim av = last_dim_write s)) (av_w_dim av) _ (Z.of_nat (length post)) _ _
    (inv_w_wf _ _ _ _ Hi) (inv_w _ _ _ _ Hi)) as (w' & -> & Hww & Hw); [by apply start_pos|..]; simpl.
  { by apply (same_dim w_dim_of _ _ _ (inv_lw _ _ _ _ Hi)). }
  simpl. eexists. split; [done|]. simpl.
  assert ((if new_q then av_quality av else last_quality s) = av_quality av) as ->.
  { subst new_q. case_if; [done|]. propb. done. }
  rewrite !fmap_app, Eq, Er, Ew in *. simpl. rewrite Eq, Er, Ew.
  unfold has_data. rewrite Eq, negb_involutive.
  repeat (split; [done|]). split; [by case_bool_decide|]. split; [by case_bool_decide|]. done.
Qed.

Lemma bad_branch n sz pre (post : list (RingElt Any Elt)) e s ex :
  server_inv n sz pre s → n = S (length pre + length post) →
  except e = Some ex → ex ≠ [] → no_merge (pre ++ e :: post) →
  ∃ s', hist_bad (Z.of_nat (length post)) ex (no_data s) s = Ok s' ∧
    h_dates s' = h_dates s ∧ h_buf s' = h_buf s ∧ ind_in_seq s' = ind_in_seq s ∧
    last_err_list s' = ex ∧ last_quality s' = ATTR_INVALID ∧
    last_dim_read s' = mkDim 0 0 ∧ last_dim_write s' = mkDim 0 0 ∧ no_data s' = true ∧
    (rle_wf (h_errors s') ∧
     rle_pairs (h_errors s') = pairs_from (Z.of_nat n - 1) ((failed_with <$> pre) ++ [Some ex])) ∧
    (rle_wf (h_quals s') ∧ rle_pairs (h_quals s')
       = pairs_from (Z.of_nat n - 1) ((Some ∘ quality_of <$> pre) ++ [Some ATTR_INVALID])) ∧
    (rle_wf (h_r_dims s') ∧ rle_pairs (h_r_dims s')
       = pairs_from (Z.of_nat n - 1) ((Some ∘ r_dim_of <$> pre) ++ [Some (mkDim 0 0)])) ∧
    (rle_wf (h_w_dims s') ∧ rle_pairs (h_w_dims s')
       = pairs_from (Z.of_nat n - 1) ((Some ∘ w_dim_of <$> pre) ++ [Some (mkDim 0 0)])).
Proof.
  intros Hi Hn Ee Hex Hm. unfold hist_bad. set (new_q := _ || _).
  set (new_err := is_new_err _ _ _).
  destruct (rle_push_spec (negb new_err) ex _ (Z.of_nat (length post)) _ _ (inv_e_wf _ _ _ _ Hi) (inv_e _ _ _ _ Hi))
    as (e' & -> & Hew & He'); [by apply start_pos|by eapply (same_error n sz)|]. simpl.
  destruct (rle_push_spec (negb new_q) ATTR_INVALID _ (Z.of_nat (length post)) _ _
    (inv_q_wf _ _ _ _ Hi) (inv_q _ _ _ _ Hi)) as (q' & -> & Hqw & Hq); [by apply start_pos|..]; simpl.
  { intros Hs. apply (same_quality n sz _ s); [done|].
    subst new_q. destruct (_ =? 1); [done|]. simpl in *. rewrite negb_involutive in *.
    propb. by apply bool_decide_eq_true_2. }
  destruct (rle_push_spec (bool_decide (last_dim_read s = mkDim 0 0)) (mkDim 0 0) _ (Z.of_nat (length post)) _ _
    (inv_r_wf _ _ _ _ Hi) (inv_r _ _ _ _ Hi)) as (r' & -> & Hrw & Hr); [by apply start_pos|..]; simpl.
  { intros Hs. apply (same_dim r_dim_of _ _ _ (inv_lr _ _ _ _ Hi)); [simpl; lia|].
    propb. rewrite Hs. by apply bool_decide_eq_true_2. }
  destruct (rle_push_spec (bool_decide (last_dim_write s = mkDim 0 0)) (mkDim 0 0) _ (Z.of_nat (length post)) _ _
    (inv_w_wf _ _ _ _ Hi) (inv_w _ _ _ _ Hi)) as (w' & -> & Hww & Hw); [by apply start_pos|..]; simpl.
  { intros Hs. apply (same_dim w_dim_of _ _ _ (inv_lw _ _ _ _ Hi)); [simpl; lia|].
    propb. rewrite Hs. by apply bool_decide_eq_true_2. }
  eexists. split; [done|]. simpl. repeat (split; [done|]).
  split; [|split; [|split; [|split; [|done]]]].
  - destruct new_err eqn:En; [done|]. subst new_err. apply is_new_err_false in En as [_ ->]. done.
  - subst new_q. case_if; [done|]. propb. done.
  - by case_bool_decide.
  - by case_bool_decide.
Qed.

Lemma total_size_snoc pre e : total_size (pre ++ [e]) = total_size pre + Z.of_nat (length (data_of e)).
Proof.
  unfold total_size. rewrite fmap_app, concat_app, length_app. simpl. rewrite app_nil_r. lia.
Qed.

Lemma total_size_nonneg es : 0 <= total_size es.
Proof. unfold total_size. lia. Qed.

Lemma data_of_none e : has_data e = false → data_of e = [].
Proof. unfold data_of. intros ->. by destruct (except e), (value_of e). Qed.

(** The buffer part of the invariant when a record without data is passed. *)
Lemma buf_no_data sz pre e (buf : option (list (option Elt))) :
  has_data e = false →
  default (replicate (Z.to_nat sz) None) buf =
    (Some <$> concat (data_of <$> pre)) ++ replicate (Z.to_nat (sz - total_size pre)) None →
  (buf = None → Forall (λ e, has_data e = false) pre) →
  default (replicate (Z.to_nat sz) None) buf =
    (Some <$> concat (data_of <$> pre ++ [e])) ++
    replicate (Z.to_nat (sz - total_size (pre ++ [e]))) None ∧
  (buf = None → Forall (λ e, has_data e = false) (pre ++ [e])).
Proof.
  intros Hd Hb Hn. rewrite total_size_snoc, fmap_app, concat_app. simpl.
  rewrite data_of_none by done. simpl. rewrite app_nil_r, Z.add_0_r.
  split; [done|]. intros E. apply Forall_app. split; [auto|by repeat constructor].
Qed.

Lemma data_step sz pre e s av :
  value_of e = Some av → except e = None → record_ok e → has_data e = true →
  total_size (pre ++ [e]) <= sz →
  ind_in_seq s = total_size pre →
  default (replicate (Z.to_nat sz) None) (h_buf s) =
    (Some <$> concat (data_of <$> pre)) ++ replicate (Z.to_nat (sz - total_size pre)) None →
  hist_data type sz av s =
    Ok (mkHist (h_dates s) (h_quals s) (h_r_dims s) (h_w_dims s) (h_errors s)
          (last_quality s) (last_dim_read s) (last_dim_write s) (last_err_list s) (no_data s)
          (Some ((Some <$> concat (data_of <$> pre ++ [e])) ++
                 replicate (Z.to_nat (sz - total_size (pre ++ [e]))) None))
          (total_size (pre ++ [e]))).
Proof.
  intros Hv Ee Hok Hd Hsz Hind Hbuf. rewrite total_size_snoc in *.
  assert (data_of e = union_seq (av_value av)) as Hde by (unfold data_of; by rewrite Ee, Hv, Hd).
  unfold record_ok in Hok. rewrite Ee in Hok. destruct Hok as (av' & Hv' & Ht & _).
  rewrite Hv in Hv'. injection Hv' as <-.
  destruct Ht as [Hq|Ht]; [by unfold has_data, quality_of in Hd; rewrite Ee, Hv, Hq in Hd|].
  unfold hist_data. rewrite Ht, bool_decide_eq_true_2 by done. simpl.
  rewrite Hbuf, Hind. rewrite Hde in *.
  replace (total_size pre) with (Z.of_nat (length (Some <$> concat (data_of <$> pre)))) at 2
    by (rewrite length_fmap; done).
  rewrite add_elt_data_spec by lia. simpl. f_equal. f_equal. f_equal.
  rewrite fmap_app, concat_app. simpl. rewrite app_nil_r, fmap_app, Hde, <- app_assoc.
  do 2 f_equal. f_equal. lia.
Qed.

(** What is left to check after the good branch: the data and its index. *)
Lemma good_inv n sz pre e (s' : hist_st Elt) :
  last_quality s' = quality_of e → last_dim_read s' = r_dim_of e →
  last_dim_write s' = w_dim_of e → no_data s' = negb (has_data e) →
  (rle_wf (h_quals s') ∧
   rle_pairs (h_quals s') = pairs_from (Z.of_nat n - 1) (Some ∘ quality_of <$> pre ++ [e])) →
  (rle_wf (h_r_dims s') ∧
   rle_pairs (h_r_dims s') = pairs_from (Z.of_nat n - 1) (Some ∘ r_dim_of <$> pre ++ [e])) →
  (rle_wf (h_w_dims s') ∧
   rle_pairs (h_w_dims s') = pairs_from (Z.of_nat n - 1) (Some ∘ w_dim_of <$> pre ++ [e])) →
  except e = None → rle_wf (h_errors s') →
  rle_pairs (h_errors s') = pairs_from (Z.of_nat n - 1) (failed_with <$> pre) →
  last_err_list s' = last_error pre →
  ∀ buf ind, ind = total_size (pre ++ [e]) →
    default (replicate (Z.to_nat sz) None) buf = (Some <$> concat (data_of <$> pre ++ [e])) ++
      replicate (Z.to_nat (sz - total_size (pre ++ [e]))) None →
    (buf = None → Forall (λ e, has_data e = false) (pre ++ [e])) →
    server_inv n sz (pre ++ [e])
      (mkHist (h_dates s') (h_quals s') (h_r_dims s') (h_w_dims s') (h_errors s')
         (last_quality s') (last_dim_read s') (last_dim_write s') (last_err_list s')
         (no_data s') buf ind).
Proof.
  intros Hlq Hlr Hlw Hnd [? ?] [? ?] [? ?] Ee ? He Hle buf ind ? ? ?.
  assert (failed_with e = None) as Hfw by done.
  split; simpl; rewrite ?last_snoc, ?last_error_snoc, ?Hfw; auto.
  - rewrite fmap_app. simpl. rewrite Hfw, pairs_from_snoc_None. done.
  - intros e0 [= <-]. done.
Qed.

Lemma hist_step_inv n sz pre (post : list (RingElt Any Elt)) e s :
  server_inv n sz pre s → dates_inv n pre s → n = S (length pre + length post) →
  record_ok e → no_merge (pre ++ e :: post) → total_size (pre ++ [e]) <= sz →
  ∃ s', hist_step src_ref dst_ref idl5 type sz (Z.of_nat (length post)) e s = Ok s' ∧
    server_inv n sz (pre ++ [e]) s' ∧ dates_inv n (pre ++ [e]) s'.
Proof.
  intros Hi Hda Hn Hok Hm Hsz. unfold hist_step. rewrite record_date_ok by done. simpl.
  rewrite Hda, (dates_step n pre post e Hn). simpl.
  set (s1 := mkHist _ _ _ _ _ _ _ _ _ _ _ _).
  assert (server_inv n sz pre s1) as Hi1 by (destruct Hi; by split).
  pose proof (buf_no_data sz pre e (h_buf s)) as Hbuf.
  destruct (except e) as [ex|] eqn:Ee.
  - assert (has_data e = false ∧ failed_with e = Some ex ∧ quality_of e = ATTR_INVALID ∧
      r_dim_of e = mkDim 0 0 ∧ w_dim_of e = mkDim 0 0) as (Hhd & Hfw & Eq & Er & Ew).
    { unfold has_data, failed_with, quality_of, r_dim_of, w_dim_of. by rewrite Ee. }
    destruct (bad_branch n sz pre post e s1 ex Hi1 Hn Ee) as
      (s' & Hs' & Hd & Hb & Hind & Hle & Hlq & Hlr & Hlw & Hnd & [? He] & [? Hq] & [? Hr] & [? Hw]);
      [by unfold record_ok in Hok; rewrite Ee in Hok|done|].
    simpl in Hs'. rewrite Hs'. exists s'. split; [done|]. split; [|by unfold dates_inv; rewrite Hd].
    destruct (Hbuf Hhd (inv_buf _ _ _ _ Hi) (inv_none _ _ _ _ Hi)) as [Hb1 Hb2].
    split; rewrite ?last_snoc, ?last_error_snoc, ?fmap_app, ?Hfw, ?Hle, ?Hlr, ?Hlw, ?Hnd, ?Hb; simpl;
      rewrite ?Hfw, ?Eq, ?Er, ?Ew, ?Hhd; auto.
    + intros e0 [= <-]. by rewrite Eq.
    + rewrite Hind. simpl. rewrite (inv_ind _ _ _ _ Hi), total_size_snoc, data_of_none by done. simpl. lia.
    + by rewrite fmap_app in Hb1.
  - destruct (record_ok_value e Hok Ee) as (av & Hv & ->). simpl.
    destruct (good_branch n sz pre post e s1 av Hi1 Hn Ee Hok Hv) as
      (s' & -> & Hd & Hb & Hind & He & Hle & Hlq & Hlr & Hlw & Hnd & Hq & Hr & Hw).
    pose proof (good_inv n sz pre e s' Hlq Hlr Hlw Hnd Hq Hr Hw Ee
      ltac:(rewrite He; apply (inv_e_wf _ _ _ _ Hi)) ltac:(rewrite He; apply (inv_e _ _ _ _ Hi))
      ltac:(rewrite Hle; apply (inv_le _ _ _ _ Hi))) as Hgoal.
    simpl. rewrite Hnd. destruct (has_data e) eqn:Hhd; simpl.
    + rewrite (data_step sz pre e s' av) by
        (done || (rewrite ?Hind, ?Hb; simpl; first [apply (inv_ind _ _ _ _ Hi)|apply (inv_buf _ _ _ _ Hi)])).
      eexists. split; [done|]. split; [|by unfold dates_inv; simpl; rewrite Hd].
      by apply Hgoal.
    + exists s'. split; [done|]. split; [|by unfold dates_inv; rewrite Hd].
      destruct (Hbuf eq_refl (inv_buf _ _ _ _ Hi) (inv_none _ _ _ _ Hi)) as [Hb1 Hb2].
      destruct s'; simpl in *. apply Hgoal; rewrite ?Hb; try done.
      rewrite Hind, (inv_ind _ _ _ _ Hi), total_size_snoc, data_of_none by done. simpl. lia.
Qed.

Lemma records_loop_inv n sz post pre s :
  server_inv n sz pre s → dates_inv n pre s → n = (length pre + length post)%nat →
  Forall record_ok post → no_merge (pre ++ post) → total_size (pre ++ post) <= sz →
  ∃ s', records_loop sz post s = Ok s' ∧
    server_inv n sz (pre ++ post) s' ∧ dates_inv n (pre ++ post) s'.
Proof.
  revert pre s. induction post as [|e post IH]; intros pre s Hi Hd Hn Hok Hm Hsz; simpl.
  { rewrite app_nil_r. by exists s. }
  apply Forall_cons_1 in Hok as [He Hok].
  rewrite (cons_middle e), app_assoc in Hm, Hsz |- *.
  destruct (hist_step_inv n sz pre post e s Hi Hd) as (s' & -> & Hi' & Hd');
    [simpl in Hn; lia|done|by rewrite <- app_assoc in Hm| |].
  { unfold total_size in *. rewrite fmap_app, concat_app, length_app in Hsz. lia. }
  simpl. apply IH; [done|done|rewrite length_app; simpl in *; lia|done|done|done].
Qed.

(** *** The client's loops *)

Definition base_record e : DeviceAttributeHistory Elt :=
  mkDAH (date_of e) (quality_of e) (dim_x (r_dim_of e)) (dim_y (r_dim_of e))
    (dim_x (w_dim_of e)) (dim_y (w_dim_of e)) (bool_decide (is_Some (failed_with e)))
    (default [] (failed_with e)) None.

Lemma client_no_data e : has_data e = false → client_record e = base_record e.
Proof. intros H. unfold client_record. by rewrite H. Qed.

Lemma zip_with_fmap_l {B C D F} (f : C → D → F) (g : B → C) (h : B → D) (l : list B) :
  zip_with f (g <$> l) (h <$> l) = (λ x, f (g x) (h x)) <$> l.
Proof. induction l as [|x l IH]; simpl; [done|]. f_equal. apply IH. Qed.

Lemma dim_eta d : mkDim (dim_x d) (dim_y d) = d.
Proof. by destruct d. Qed.

Lemma has_data_ok e : has_data e = true → failed_with e = None.
Proof. unfold has_data, quality_of, failed_with. by destruct (except e). Qed.

Lemma record_ok_data e :
  record_ok e → has_data e = true →
  data_length (r_dim_of e) (w_dim_of e) = Z.of_nat (length (data_of e)).
Proof.
  intros Hok Hd. pose proof (has_data_ok e Hd) as He. unfold failed_with in He.
  destruct (record_ok_value e Hok He) as (av & Hv & _).
  rewrite <- (record_ok_size e av) by done. unfold r_dim_of, w_dim_of. by rewrite He, Hv.
Qed.

Lemma extract_value_spec es tail :
  Forall record_ok es →
  extract_value ((Some <$> concat (data_of <$> es)) ++ tail)
    (total_size es) (reverse (base_record <$> es))
  = Ok (reverse (client_record <$> es)).
Proof.
  revert tail. induction es as [|e es IH] using rev_ind; intros tail Hok; [done|].
  apply Forall_app in Hok as [Hok He]. apply Forall_cons_1 in He as [He _].
  rewrite !fmap_app, !reverse_app, concat_app, fmap_app, <- app_assoc, total_size_snoc. simpl.
  rewrite app_nil_r. destruct (has_data e) eqn:Hd.
  - rewrite (has_data_ok e Hd), !dim_eta, record_ok_data by done.
    pose proof Hd as Hq. unfold has_data in Hq. apply negb_true_iff in Hq. rewrite Hq. simpl.
    replace (total_size es + _ - _) with (total_size es) by lia.
    unfold slice. pose proof (total_size_nonneg es).
    rewrite (proj2 (Z.leb_le _ _)), (proj2 (Z.leb_le _ _)), (proj2 (Z.leb_le _ _)); [|..].
    + simpl. rewrite Nat2Z.id. unfold total_size at 1 2. rewrite Nat2Z.id.
      rewrite <- (length_fmap Some (concat _)), drop_app_length.
      rewrite <- (length_fmap Some (data_of e)), take_app_length.
      rewrite length_fmap. fold (total_size es). rewrite IH by done. simpl. unfold client_record at 2.
      by rewrite Hd.
    + rewrite !length_app, !length_fmap. unfold total_size. lia.
    + lia.
    + lia.
  - rewrite (data_of_none e Hd). simpl. rewrite Z.add_0_r, IH by done.
    rewrite (client_no_data e Hd). unfold has_data in Hd. apply negb_false_iff in Hd.
    rewrite Hd, orb_true_r. done.
Qed.

Lemma no_merge_valid es :
  Forall (λ e, failed_with e = None → quality_of e ≠ ATTR_INVALID) es → no_merge es.
Proof.
  intros H l e e' l' ex -> He Hq. rewrite Forall_app, Forall_cons in H.
  destruct H as [_ [H _]]. by specialize (H He).
Qed.

End RoundTrip.

Section Main.
Context {Any Elt : Type}.

(** The IDL version the server assumes: that of the newest record. *)
Definition server_idl5 (es : list (RingElt Any Elt)) : bool :=
  match es with e :: _ => bool_decide (attr_value_4 e = None) | [] => true end.

Lemma server_output src_ref dst_ref (r : PollRing Any Elt) (n : nat) (type : CmdArgType) es :
  ring_wf r → (1 <= n <= Z.to_nat (nb_elt r))%nat → es = take n (contents r) →
  Forall (record_ok (server_idl5 es) type) es → no_merge (server_idl5 es) es →
  ∃ s, get_attr_history src_ref dst_ref n type r
         = Ok (mkDevAttrHistory (h_dates s) (h_quals s) (h_r_dims s) (h_w_dims s) (h_errors s) (h_buf s)) ∧
       server_inv (server_idl5 es) n (total_size (server_idl5 es) es) es s ∧
       dates_inv src_ref dst_ref (server_idl5 es) n es s.
Proof.
  intros Hwf Hn Hes Hok Hm. set (idl5 := server_idl5 es) in *.
  unfold get_attr_history. rewrite hist_start_slot by done.
  rewrite vget_ring_at by auto. simpl.
  assert (bool_decide (attr_value_4 (ring_at r (slot_index r 0)) = None) = idl5) as ->.
  { subst idl5. pose proof (contents_lookup r 0 ltac:(lia)) as H0.
    destruct (contents r) as [|e0 c] eqn:Ec; [done|]. injection H0 as ->.
    destruct n; [lia|]. by subst es. }
  destruct (hist_sizes_records idl5 type r n 0 0 0 Hwf) as [b' Hsz]; [lia|by subst es|].
  rewrite Hsz. simpl. rewrite drop_0, <- Hes.
  rewrite (hist_loop_records src_ref dst_ref idl5 type r) by (done || lia).
  rewrite drop_0, <- Hes.
  destruct (records_loop_inv src_ref dst_ref idl5 type n (total_size idl5 es) es [] (hist_init n))
    as (s & Hs & Hi & Hd).
  - apply server_inv_init.
  - unfold dates_inv. simpl. by rewrite app_nil_r, Nat.sub_0_r.
  - subst es. simpl. rewrite length_take, contents_length. lia.
  - done.
  - done.
  - simpl. lia.
  - exists s. simpl in *. rewrite Z.add_0_l, Hs. done.
Qed.

(** The conditions of [apply_runs_spec], from the invariant of the server. *)
Ltac side Hi :=
  first [by destruct Hi|by rewrite !length_fmap|
    by rewrite length_fmap; match goal with H : Z.of_nat ?n = Z.of_nat (length _) |- _ =>
      rewrite <- H end; destruct Hi].


End Main.

(** ** Concrete rings *)

Section Examples.

Definition ex_value (q : AttrQuality) (xs : list Z) : AttributeValue Z :=
  mkAV (mkUnion (if bool_decide (q = ATTR_INVALID) then ATT_NO_DATA else ATT_LONG) xs) q (mkTimeVal 5 6 7)
    (if bool_decide (q = ATTR_INVALID) then mkDim 0 0 else mkDim (Z.of_nat (length xs)) 0)
    (mkDim 0 0) [].
Definition ex_error : DevErrorList := [mkDevError "API_X" ERR "failed" "read"].

(** A valid value, an error, an invalid value and a valid value, in a ring of depth 4. *)
Definition ex_ring : PollRing unit Z :=
  mkRing
    [put_attr_5 [ex_value ATTR_VALID [1; 2]] 100 RingElt_new;
     put_except ex_error 200 RingElt_new;
     put_attr_5 [ex_value ATTR_INVALID []] 300 RingElt_new;
     put_attr_5 [ex_value ATTR_ALARM [3]] 400 RingElt_new] 0 4 4.

Lemma ex_ring_wf : ring_wf ex_ring.
Proof. by split. Qed.


(** The condition [no_merge] is needed: between two polls that fail with the same
    error, a value of quality [ATTR_INVALID] (set by the device, no exception)
    makes the server count the older failure in the run of the newer one.  The
    client then sees the oldest record as not failed and the invalid one, which
    did not fail, as failed. *)
Definition ex_merge_ring : PollRing unit Z :=
  mkRing
    [put_except ex_error 100 RingElt_new;
     put_attr_5 [ex_value ATTR_INVALID []] 200 RingElt_new;
     put_except ex_error 300 RingElt_new] 0 3 3.

Example attr_history_merges_errors :
  (h ← get_attr_history 0 0 3 DEV_LONG ex_merge_ring;
   ddh ← from_hist_2_AttHistory h; Ok (map d_failed ddh)) = Ok [false; true; true] ∧
  reverse (map (λ e, bool_decide (is_Some (except e))) (contents ex_merge_ring))
    = [true; false; true].
Proof. by split. Qed.

(** For an IDL 4 device whose newest poll failed in a slot never used before, the
    IDL version is guessed wrong ([attr_value_4] is null there) and the null
    IDL 5 pointer of an older record is followed. *)
Definition ex_idl4_ring : PollRing unit Z :=
  mkRing
    [put_attr_4 [ex_value ATTR_VALID [1]] 100 RingElt_new;
     put_except ex_error 200 RingElt_new;
     RingElt_new] 2 2 3.

Example attr_history_idl4_null :
  (r ← insert_data_attr_4 [ex_value ATTR_VALID [1]] 100 (PollRing_new 3);
   insert_except ex_error 200 r) = Ok ex_idl4_ring ∧
  get_attr_history 0 0 2 DEV_LONG ex_idl4_ring = Undef.
Proof. by split. Qed.

End Examples.
