(* ===== verification/CmdHistory.v ===== *)
(** * Histories of polled commands

  The server packs the records of a ring into a [DevCmdHistory_4]
  ([PollRing::get_cmd_history], src/src/server/pollring.cpp, with the macros of
  pollring.h), the client unpacks it ([from_hist4_2_DataHistory] and
  [extract_value], src/src/client/devapi_base.cpp).  [cmd_history_round_trip]:
  for the data types the two sides agree on, the client gets the records of the
  ring, the oldest first.  The examples at the end are the types for which they
  do not agree. *)
From S2P Require Import Prelude PollRing Rle AttrHistory.
Local Open Scope Z_scope.

(** ** What a [CORBA::Any] holds

  A scalar, a sequence, or the two sequences of a [DevVarLongStringArray] or
  [DevVarDoubleStringArray]. *)
Inductive any_value (E : Type) :=
  | AnyScalar (x : E)
  | AnySeq (l : list E)
  | AnyPair (svalue nvalue : list E).
Arguments AnyScalar {E} x. Arguments AnySeq {E} l. Arguments AnyPair {E} svalue nvalue.

Definition any_map {E F} (f : E → F) (a : any_value E) : any_value F :=
  match a with
  | AnyScalar x => AnyScalar (f x)
  | AnySeq l => AnySeq (f <$> l)
  | AnyPair s n => AnyPair (f <$> s) (f <$> n)
  end.

(** Extraction ([>>=]) of another type than the one inside leaves the target
    unset. *)
Definition to_scalar {E} (a : any_value E) : outcome E :=
  match a with AnyScalar x => Ok x | _ => Undef end.
Definition to_seq {E} (a : any_value E) : outcome (list E) :=
  match a with AnySeq l => Ok l | _ => Undef end.
Definition to_pair {E} (a : any_value E) : outcome (list E * list E) :=
  match a with AnyPair s n => Ok (s, n) | _ => Undef end.

(** The four classes of types in the switches of the server. *)
Inductive cmd_class := Scalar | Sequence | Pair | Unhandled.

Definition class_of (t : CmdArgType) : cmd_class :=
  match t with
  | DEV_SHORT | DEV_LONG | DEV_FLOAT | DEV_DOUBLE | DEV_USHORT | DEV_ULONG | DEV_STRING
  | DEV_BOOLEAN | DEV_LONG64 | DEV_ULONG64 | DEV_ENCODED => Scalar
  | DEVVAR_CHARARRAY | DEVVAR_SHORTARRAY | DEVVAR_LONGARRAY | DEVVAR_FLOATARRAY
  | DEVVAR_DOUBLEARRAY | DEVVAR_USHORTARRAY | DEVVAR_ULONGARRAY | DEVVAR_STRINGARRAY
  | DEVVAR_BOOLEANARRAY | DEVVAR_LONG64ARRAY | DEVVAR_ULONG64ARRAY => Sequence
  | DEVVAR_LONGSTRINGARRAY | DEVVAR_DOUBLESTRINGARRAY => Pair
  | DEV_VOID | DEV_STATE | CONST_DEV_STRING | DEV_UCHAR | DEV_ENUM | DEV_PIPE_BLOB
  | DEVVAR_STATEARRAY | DEVVAR_ENCODEDARRAY | DATA_TYPE_UNKNOWN => Unhandled
  end.

Definition unhandled_type {A} : outcome A :=
  throw_exception "API_CmdArgumentTypeNotSupported" "Unhandled command argument type"
    "PollRing::get_cmd_history".

(** ** Server side *)

Section CmdServer.
Context {Elt : Type}.
Context (src_ref dst_ref : Z).
Abbreviation cmd_ring := (PollRing (any_value Elt) Elt).
Abbreviation cmd_elt := (RingElt (any_value Elt) Elt).
Implicit Types (r : cmd_ring) (e : cmd_elt).

(** The types of constant size: [cmd_type <= DEV_STRING] and six others. *)
Definition constant_size (t : CmdArgType) : bool :=
  match t with
  | DEV_VOID | DEV_BOOLEAN | DEV_SHORT | DEV_LONG | DEV_FLOAT | DEV_DOUBLE | DEV_USHORT
  | DEV_ULONG | DEV_STRING | DEV_STATE | CONST_DEV_STRING | DEV_UCHAR | DEV_LONG64
  | DEV_ULONG64 | DEV_ENCODED => true
  | _ => false
  end.

(** What one record adds to [seq_size], [seq_str_size] and [seq_number_size]. *)
Definition record_size (t : CmdArgType) (a : any_value Elt) : outcome (Z * Z * Z) :=
  match class_of t with
  | Sequence => l ← to_seq a; Ok (Z.of_nat (length l), 0, 0)
  | Pair => '(s, n) ← to_pair a; Ok (0, Z.of_nat (length s), Z.of_nat (length n))
  | Unhandled => unhandled_type
  | Scalar => Undef
  end.

(** First pass, for the types of variable size. *)
Fixpoint cmd_sizes (r : cmd_ring) (t : CmdArgType) (n : nat) (index : Z) : outcome (Z * Z * Z) :=
  match n with
  | O => Ok (0, 0, 0)
  | S n =>
      e ← vget (ring r) index;
      '(a, b, c) ← match except e with
                   | None => v ← deref (cmd_result e); record_size t v
                   | Some _ => Ok (0, 0, 0)
                   end;
      '(a', b', c') ← cmd_sizes r t n (hist_next r index);
      Ok (a + a', b + b', c + c')
  end.

Fixpoint error_count (r : cmd_ring) (n : nat) (index : Z) : outcome Z :=
  match n with
  | O => Ok 0
  | S n =>
      e ← vget (ring r) index;
      k ← error_count r n (hist_next r index);
      Ok (match except e with None => k | Some _ => k + 1 end)
  end.

Definition all_sizes r (t : CmdArgType) (n : nat) : outcome (Z * Z * Z) :=
  if constant_size t then
    error_nb ← error_count r n (hist_start r); Ok (Z.of_nat n - error_nb, 0, 0)
  else cmd_sizes r t n (hist_start r).

Record cmd_st := mkCmdSt {
  c_dates : list TimeVal;
  c_errors : rle DevErrorList;
  c_dims : rle AttributeDim;
  c_last_dim : AttributeDim;
  c_last_err : DevErrorList;
  c_no_data : bool;
  c_seq : option (list (option Elt));
  c_pair : option (list (option Elt) * list (option Elt));
  c_ind : Z;
  c_ind_str : Z;
  c_ind_num : Z;
}.

Definition cmd_init (n : nat) : cmd_st :=
  mkCmdSt (replicate n (mkTimeVal 0 0 0)) rle_empty rle_empty (mkDim (-1) (-1)) [] true None None 0 0 0.

(** [MANAGE_DIM_SIMPLE], [MANAGE_DIM_ARRAY], [MANAGE_DIM_ARRAY_SEQ] and the
    dimension of an error: [same] is the test of the macro. *)
Definition manage_dim (same : bool) (d : AttributeDim) (start : Z) (s : cmd_st) : outcome cmd_st :=
  dims ← rle_push same d start (c_dims s);
  Ok (mkCmdSt (c_dates s) (c_errors s) dims (if same then c_last_dim s else d) (c_last_err s)
        (c_no_data s) (c_seq s) (c_pair s) (c_ind s) (c_ind_str s) (c_ind_num s)).
Definition manage_dim_array (len : Z) (start : Z) (s : cmd_st) : outcome cmd_st :=
  manage_dim (dim_x (c_last_dim s) =? len) (mkDim len 0) start s.
Definition manage_dim_seq (ls ln : Z) (start : Z) (s : cmd_st) : outcome cmd_st :=
  manage_dim ((dim_x (c_last_dim s) =? ls) && (dim_y (c_last_dim s) =? ln)) (mkDim ls ln) start s.

Definition set_buf (seq : option (list (option Elt))) (pair : option (list (option Elt) * list (option Elt)))
    (i istr inum : Z) (s : cmd_st) : cmd_st :=
  mkCmdSt (c_dates s) (c_errors s) (c_dims s) (c_last_dim s) (c_last_err s) (c_no_data s) seq pair i istr inum.

Definition add_seq (seq_size : Z) (l : list Elt) (s : cmd_st) : outcome cmd_st :=
  glob ← add_elt_data (default (replicate (Z.to_nat seq_size) None) (c_seq s)) l (c_ind s);
  Ok (set_buf (Some glob) (c_pair s) (c_ind s + Z.of_nat (length l)) (c_ind_str s) (c_ind_num s) s).

Definition add_pair (str_size num_size : Z) (ss ns : list Elt) (s : cmd_st) : outcome cmd_st :=
  let '(gs, gn) := default (replicate (Z.to_nat str_size) None, replicate (Z.to_nat num_size) None) (c_pair s) in
  gs ← add_elt_data gs ss (c_ind_str s);
  gn ← add_elt_data gn ns (c_ind_num s);
  Ok (set_buf (c_seq s) (Some (gs, gn)) (c_ind s) (c_ind_str s + Z.of_nat (length ss))
        (c_ind_num s + Z.of_nat (length ns)) s).

(** The data of a record and its dimension. *)
Definition cmd_data (t : CmdArgType) (sizes : Z * Z * Z) (a : any_value Elt) (start : Z) (s : cmd_st)
    : outcome cmd_st :=
  let '(seq_size, str_size, num_size) := sizes in
  match class_of t with
  | Scalar => x ← to_scalar a; s ← add_seq seq_size [x] s; manage_dim_array 1 start s
  | Sequence => l ← to_seq a; s ← add_seq seq_size l s; manage_dim_array (Z.of_nat (length l)) start s
  | Pair =>
      '(ss, ns) ← to_pair a;
      s ← add_pair str_size num_size ss ns s;
      manage_dim_seq (Z.of_nat (length ss)) (Z.of_nat (length ns)) start s
  | Unhandled => unhandled_type
  end.

Definition cmd_error (ex : DevErrorList) (previous_no_data : bool) (start : Z) (s : cmd_st) : outcome cmd_st :=
  let new_err := is_new_err previous_no_data ex (c_last_err s) in
  errors ← rle_push (negb new_err) ex start (c_errors s);
  let s := mkCmdSt (c_dates s) errors (c_dims s) (c_last_dim s) (if new_err then ex else c_last_err s) true
             (c_seq s) (c_pair s) (c_ind s) (c_ind_str s) (c_ind_num s) in
  manage_dim_seq 0 0 start s.

Definition cmd_step (t : CmdArgType) (sizes : Z * Z * Z) (start : Z) e (s : cmd_st) : outcome cmd_st :=
  let previous_no_data := c_no_data s in
  dates ← vset (c_dates s) start (make_TimeVal src_ref dst_ref (when e));
  let s := mkCmdSt dates (c_errors s) (c_dims s) (c_last_dim s) (c_last_err s) false
             (c_seq s) (c_pair s) (c_ind s) (c_ind_str s) (c_ind_num s) in
  match except e with
  | Some ex => cmd_error ex previous_no_data start s
  | None => a ← deref (cmd_result e); cmd_data t sizes a start s
  end.

Fixpoint cmd_loop (r : cmd_ring) (t : CmdArgType) (sizes : Z * Z * Z) (k : nat) (index : Z) (s : cmd_st)
    : outcome cmd_st :=
  match k with
  | O => Ok s
  | S k' =>
      e ← vget (ring r) index;
      s ← cmd_step t sizes (Z.of_nat k') e s;
      cmd_loop r t sizes k' (hist_next r index) s
  end.

(** The global sequence in the Any of the answer. *)
Inductive cmd_buf :=
  | SeqBuf (l : list (option Elt))
  | PairBuf (svalue nvalue : list (option Elt)).

Record DevCmdHistory_4 := mkDevCmdHistory {
  ch_type : CmdArgType;
  ch_dates : list TimeVal;
  ch_errors : rle DevErrorList;
  ch_dims : rle AttributeDim;
  ch_value : option cmd_buf;
}.

(** The last switch: the types of unsigned short and unsigned long insert the
    sequence of the doubles, which no record has created. *)
Definition final_value (t : CmdArgType) (s : cmd_st) : outcome (option cmd_buf) :=
  match t with
  | DEV_USHORT | DEVVAR_USHORTARRAY | DEV_ULONG | DEVVAR_ULONGARRAY => Ok None
  | DEV_VOID => Ok None
  | _ =>
      match class_of t with
      | Scalar | Sequence => Ok (SeqBuf <$> c_seq s)
      | Pair => Ok ((λ p, PairBuf (fst p) (snd p)) <$> c_pair s)
      | Unhandled => unhandled_type
      end
  end.

Definition get_cmd_history (n : nat) (t : CmdArgType) r : outcome DevCmdHistory_4 :=
  sizes ← all_sizes r t n;
  s ← cmd_loop r t sizes n (hist_start r) (cmd_init n);
  v ← (if (n =? 0)%nat then Ok None else final_value t s);
  Ok (mkDevCmdHistory t (c_dates s) (c_errors s) (c_dims s) v).

End CmdServer.
Arguments cmd_st : clear implicits.
Arguments cmd_buf : clear implicits.
Arguments DevCmdHistory_4 : clear implicits.

(** ** Client side *)

Section CmdClient.
Context {Elt : Type}.

Record DeviceDataHistory := mkDDH {
  dd_date : TimeVal;
  dd_failed : bool;
  dd_errors : DevErrorList;
  dd_any : option (any_value (option Elt));
}.

Definition DeviceDataHistory_new : DeviceDataHistory := mkDDH (mkTimeVal 0 0 0) false [] None.
Definition set_date (t : TimeVal) (x : DeviceDataHistory) := mkDDH t (dd_failed x) (dd_errors x) (dd_any x).
Definition set_failed (errs : DevErrorList) (x : DeviceDataHistory) := mkDDH (dd_date x) true errs (dd_any x).
Definition set_any (a : any_value (option Elt)) (x : DeviceDataHistory) :=
  mkDDH (dd_date x) (dd_failed x) (dd_errors x) (Some a).

(** [create_any]: a scalar, or a sequence over the end of the buffer. *)
Definition create_any (array : bool) (buf : list (option Elt)) (base len : Z) : outcome (any_value (option Elt)) :=
  if array then AnySeq <$> slice buf (base - len) len
  else AnyScalar <$> vget buf (base - 1).

(** The general [extract_value]: [loop] counts every record. *)
Fixpoint extract_seq (array : bool) (buf : list (option Elt)) (ad : list (option AttributeDim)) (base : Z)
    (loop : nat) (ddh : list DeviceDataHistory) : outcome (list DeviceDataHistory) :=
  match ddh with
  | [] => Ok []
  | x :: ddh =>
      o ← deref (ad !! loop); d ← deref o;
      if dd_failed x then rest ← extract_seq array buf ad base (S loop) ddh; Ok (x :: rest)
      else
        a ← create_any array buf base (dim_x d);
        rest ← extract_seq array buf ad (base - dim_x d) (S loop) ddh;
        Ok (set_any a x :: rest)
  end.

(** The two specialisations for the pairs of arrays: [loop] counts the records
    that did not fail. *)
Fixpoint extract_pair (ss ns : list (option Elt)) (ad : list (option AttributeDim)) (base_str base_num : Z)
    (loop : nat) (ddh : list DeviceDataHistory) : outcome (list DeviceDataHistory) :=
  match ddh with
  | [] => Ok []
  | x :: ddh =>
      if dd_failed x then rest ← extract_pair ss ns ad base_str base_num loop ddh; Ok (x :: rest)
      else
        o ← deref (ad !! loop); d ← deref o;
        sl ← slice ss (base_str - dim_x d) (dim_x d);
        nl ← slice ns (base_num - dim_y d) (dim_y d);
        rest ← extract_pair ss ns ad (base_str - dim_x d) (base_num - dim_y d) (S loop) ddh;
        Ok (set_any (AnyPair sl nl) x :: rest)
  end.

(** An Any without the expected value leaves the pointer unset. *)
Definition buf_seq (v : option (cmd_buf Elt)) : outcome (list (option Elt)) :=
  match v with Some (SeqBuf l) => Ok l | _ => Undef end.
Definition buf_pair (v : option (cmd_buf Elt)) : outcome (list (option Elt) * list (option Elt)) :=
  match v with Some (PairBuf s n) => Ok (s, n) | _ => Undef end.

(** The switch of the client: the state is extracted as a scalar, and the arrays of booleans
    have no case. *)
Definition client_class (t : CmdArgType) : cmd_class :=
  match t with DEV_STATE => Scalar | DEVVAR_BOOLEANARRAY => Unhandled | _ => class_of t end.

Definition from_hist4_2_DataHistory (h : DevCmdHistory_4 Elt) : outcome (list DeviceDataHistory) :=
  if negb (same_lengths (ch_dims h) && same_lengths (ch_errors h)) then
    throw_exception "API_WrongHistoryDataBuffer"
      "Data buffer received from server is not valid !" "from_hist4_2_DataHistory"
  else
    let ddh := (λ t, set_date t DeviceDataHistory_new) <$> ch_dates h in
    ddh ← apply_runs set_failed (rle_vals (ch_errors h)) (rle_arr (ch_errors h)) ddh;
    ad ← apply_runs (λ d _, Some d) (rle_vals (ch_dims h)) (rle_arr (ch_dims h))
           (replicate (length (ch_dates h)) None);
    match client_class (ch_type h) with
    | Scalar => b ← buf_seq (ch_value h); extract_seq false b ad (Z.of_nat (length b)) 0 ddh
    | Sequence => b ← buf_seq (ch_value h); extract_seq true b ad (Z.of_nat (length b)) 0 ddh
    | Pair =>
        '(ss, ns) ← buf_pair (ch_value h);
        extract_pair ss ns ad (Z.of_nat (length ss)) (Z.of_nat (length ns)) 0 ddh
    | Unhandled => Ok ddh
    end.

End CmdClient.
Arguments DeviceDataHistory : clear implicits.

(** ** Round trip *)

Section CmdRoundTrip.
Context {Elt : Type} (src_ref dst_ref : Z) (t : CmdArgType).
Abbreviation cmd_ring := (PollRing (any_value Elt) Elt).
Abbreviation cmd_elt := (RingElt (any_value Elt) Elt).
Implicit Types (e : cmd_elt) (s : cmd_st Elt) (es pre post : list cmd_elt).

(** *** What a record says *)

Definition answer_of e : option (any_value Elt) :=
  match except e with None => cmd_result e | Some _ => None end.
Definition seq_of e : list Elt :=
  match answer_of e with Some (AnyScalar x) => [x] | Some (AnySeq l) => l | _ => [] end.
Definition str_of e : list Elt := match answer_of e with Some (AnyPair s _) => s | _ => [] end.
Definition num_of e : list Elt := match answer_of e with Some (AnyPair _ n) => n | _ => [] end.
Definition cdim_of e : AttributeDim :=
  match answer_of e with
  | Some (AnyScalar _) => mkDim 1 0
  | Some (AnySeq l) => mkDim (Z.of_nat (length l)) 0
  | Some (AnyPair s n) => mkDim (Z.of_nat (length s)) (Z.of_nat (length n))
  | None => mkDim 0 0
  end.
Definition cdate_of e : TimeVal := make_TimeVal src_ref dst_ref (when e).

(** The element the client must get for a record. *)
Definition client_cmd e : DeviceDataHistory Elt :=
  mkDDH (cdate_of e) (bool_decide (is_Some (except e))) (default [] (except e)) (any_map Some <$> answer_of e).

(** A record as a poll stores it: a non-empty error stack or an answer of the
    type of the command. *)
Definition shape (a : any_value Elt) : bool :=
  match class_of t, a with
  | Scalar, AnyScalar _ | Sequence, AnySeq _ | Pair, AnyPair _ _ => true
  | _, _ => false
  end.
Definition cmd_ok e : Prop :=
  match except e with
  | Some ex => ex ≠ []
  | None => ∃ a, cmd_result e = Some a ∧ shape a = true
  end.

Lemma cmd_ok_answer e : cmd_ok e → except e = None → ∃ a, answer_of e = Some a ∧ cmd_result e = Some a ∧ shape a = true.
Proof. unfold cmd_ok, answer_of. intros H He. rewrite He in *. naive_solver. Qed.

Lemma answer_failed e ex : except e = Some ex → answer_of e = None.
Proof. unfold answer_of. by intros ->. Qed.

(** *** Sizes *)

Definition sizes_of es : Z * Z * Z :=
  (Z.of_nat (length (concat (seq_of <$> es))), Z.of_nat (length (concat (str_of <$> es))),
   Z.of_nat (length (concat (num_of <$> es)))).

Lemma contents_walk (r : cmd_ring) j k :
  (j + S k <= Z.to_nat (nb_elt r))%nat →
  take (S k) (drop j (contents r)) = ring_at r (slot_index r j) :: take k (drop (S j) (contents r)).
Proof.
  intros H. rewrite (drop_S (contents r) (ring_at r (slot_index r j)) j) by (apply contents_lookup; lia). done.
Qed.

Lemma cmd_sizes_records (r : cmd_ring) k j :
  ring_wf r → (j + k <= Z.to_nat (nb_elt r))%nat → constant_size t = false →
  Forall cmd_ok (take k (drop j (contents r))) →
  cmd_sizes r t k (slot_index r j) = Ok (sizes_of (take k (drop j (contents r)))).
Proof.
  intros Hwf. revert j. induction k as [|k IH]; intros j Hk Ht Hok; [done|].
  rewrite contents_walk in * by done. apply Forall_cons in Hok as [He Hok]. simpl.
  rewrite vget_ring_at by auto. simpl. rewrite slot_index_S by done. rewrite IH by (done || lia).
  unfold sizes_of. rewrite !fmap_cons. simpl. rewrite !length_app, !Nat2Z.inj_add.
  set (e := ring_at _ _) in *. destruct (except e) as [ex|] eqn:Ee.
  - unfold seq_of, str_of, num_of. rewrite (answer_failed e ex Ee). done.
  - destruct (cmd_ok_answer e He Ee) as (a & Ha & -> & Hs). simpl. unfold record_size.
    unfold seq_of, str_of, num_of. rewrite Ha. unfold shape in Hs.
    destruct (class_of t) eqn:Hc, a; try done.
    exfalso. by destruct t.
Qed.

Lemma error_count_records (r : cmd_ring) k j :
  ring_wf r → (j + k <= Z.to_nat (nb_elt r))%nat → class_of t = Scalar →
  Forall cmd_ok (take k (drop j (contents r))) →
  ∃ n, error_count r k (slot_index r j) = Ok n ∧
    Z.of_nat k - n = Z.of_nat (length (concat (seq_of <$> take k (drop j (contents r))))).
Proof.
  intros Hwf. revert j. induction k as [|k IH]; intros j Hk Ht Hok; [by exists 0|].
  rewrite contents_walk in * by done. apply Forall_cons in Hok as [He Hok]. simpl.
  rewrite vget_ring_at by auto. simpl. rewrite slot_index_S by done.
  destruct (IH (S j)) as (n & -> & Hn); [lia|done|done|]. csimpl. eexists; split; [done|].
  rewrite length_app. set (e := ring_at _ _) in *. destruct (except e) as [ex|] eqn:Ee.
  - assert (seq_of e = []) as -> by (unfold seq_of; by rewrite (answer_failed e ex Ee)). csimpl. lia.
  - destruct (cmd_ok_answer e He Ee) as (a & Ha & _ & Hs).
    unfold shape in Hs. rewrite Ht in Hs. destruct a as [x| |]; try done.
    assert (seq_of e = [x]) as -> by (unfold seq_of; by rewrite Ha). csimpl. lia.
Qed.

Lemma pairs_empty es : class_of t = Scalar ∨ class_of t = Sequence → Forall cmd_ok es →
  concat (str_of <$> es) = [] ∧ concat (num_of <$> es) = [] ∧ Forall (λ e, dim_y (cdim_of e) = 0) es.
Proof.
  intros Hc. induction 1 as [|e es He Hes (IH1 & IH2 & IH3)]; [done|].
  rewrite !fmap_cons. simpl. rewrite IH1, IH2, !app_nil_r.
  unfold str_of, num_of. destruct (except e) as [ex|] eqn:Ee.
  - rewrite (answer_failed e ex Ee). do 2 (split; [done|]). constructor; [|done].
    unfold cdim_of. by rewrite (answer_failed e ex Ee).
  - destruct (cmd_ok_answer e He Ee) as (a & Ha & _ & Hs). rewrite Ha. unfold shape in Hs.
    destruct Hc as [Hc|Hc]; rewrite Hc in Hs; destruct a; try done;
      (do 2 (split; [done|])); (constructor; [|done]); unfold cdim_of; by rewrite Ha.
Qed.

Lemma all_sizes_records (r : cmd_ring) k :
  ring_wf r → (1 <= k <= Z.to_nat (nb_elt r))%nat → class_of t ≠ Unhandled →
  Forall cmd_ok (take k (contents r)) →
  all_sizes r t k = Ok (sizes_of (take k (contents r))).
Proof.
  intros Hwf Hk Ht Hok. unfold all_sizes. rewrite hist_start_slot by done.
  destruct (constant_size t) eqn:Hc.
  - assert (class_of t = Scalar) as Hs by (by destruct t).
    destruct (error_count_records r k 0 Hwf) as (n & -> & Hn); [lia|done|by rewrite drop_0|].
    rewrite drop_0 in Hn. simpl. destruct (pairs_empty (take k (contents r))) as (H1 & H2 & _); [by left|done|].
    unfold sizes_of. by rewrite Hn, H1, H2.
  - rewrite cmd_sizes_records by (rewrite ?drop_0; done || lia). by rewrite drop_0.
Qed.

(** *** The server's loop, record after record *)

Definition buf_at (sz : Z) (o : list (option Elt)) (ind : Z) (xs : list Elt) : Prop :=
  ind = Z.of_nat (length xs) ∧ o = (Some <$> xs) ++ replicate (Z.to_nat sz - length xs) None.

Record cmd_inv (n : nat) (sizes : Z * Z * Z) pre s : Prop := {
  ci_dates : c_dates s = replicate (n - length pre) (mkTimeVal 0 0 0) ++ reverse (cdate_of <$> pre);
  ci_e_wf : rle_wf (c_errors s);
  ci_e : rle_pairs (c_errors s) = pairs_from (Z.of_nat n - 1) (failed_with <$> pre);
  ci_d_wf : rle_wf (c_dims s);
  ci_d : rle_pairs (c_dims s) = pairs_from (Z.of_nat n - 1) (Some ∘ cdim_of <$> pre);
  ci_ld : c_last_dim s = default (mkDim (-1) (-1)) (cdim_of <$> last pre);
  ci_nd : c_no_data s = match last pre with None => true | Some e => bool_decide (is_Some (except e)) end;
  ci_le : match last pre with
          | None => c_last_err s = []
          | Some e => ∀ ex, except e = Some ex → c_last_err s = ex
          end;
  ci_seq : buf_at (fst (fst sizes)) (default (replicate (Z.to_nat (fst (fst sizes))) None) (c_seq s))
             (c_ind s) (concat (seq_of <$> pre));
  ci_str : buf_at (snd (fst sizes))
             (fst (default (replicate (Z.to_nat (snd (fst sizes))) None, replicate (Z.to_nat (snd sizes)) None) (c_pair s)))
             (c_ind_str s) (concat (str_of <$> pre));
  ci_num : buf_at (snd sizes)
             (snd (default (replicate (Z.to_nat (snd (fst sizes))) None, replicate (Z.to_nat (snd sizes)) None) (c_pair s)))
             (c_ind_num s) (concat (num_of <$> pre));
  ci_none : (match class_of t with Pair => c_pair s = None | _ => c_seq s = None end) →
            Forall (λ e, is_Some (except e)) pre;
}.

Lemma cmd_inv_init n sizes : cmd_inv n sizes [] (cmd_init n).
Proof.
  split; simpl; rewrite ?app_nil_r, ?Nat.sub_0_r; auto; unfold buf_at; simpl; rewrite ?Nat.sub_0_r; done.
Qed.

Lemma date_set n pre post e :
  n = S (length pre + length post) →
  vset (replicate (n - length pre) (mkTimeVal 0 0 0) ++ reverse (cdate_of <$> pre)) (Z.of_nat (length post)) (cdate_of e)
  = Ok (replicate (n - length (pre ++ [e])) (mkTimeVal 0 0 0) ++ reverse (cdate_of <$> pre ++ [e])).
Proof.
  intros ->. rewrite length_app. simpl length.
  replace (S (length pre + length post) - length pre)%nat with (S (length post)) by lia.
  replace (S (length pre + length post) - (length pre + 1))%nat with (length post) by lia.
  rewrite vset_Ok by (rewrite length_app, length_replicate; lia).
  rewrite Nat2Z.id, replicate_S_end, <- app_assoc. simpl.
  rewrite list_insert_middle by (by rewrite length_replicate).
  by rewrite fmap_app, reverse_app.
Qed.

Lemma push_last {A} (f : cmd_elt → option A) same v n pre post e (r : rle A) :
  rle_wf r → rle_pairs r = pairs_from (Z.of_nat n - 1) (f <$> pre) → n = S (length pre + length post) →
  f e = Some v → (same = true → f <$> last pre = Some (Some v)) →
  ∃ r', rle_push same v (Z.of_nat (length post)) r = Ok r' ∧ rle_wf r' ∧
    rle_pairs r' = pairs_from (Z.of_nat n - 1) (f <$> pre ++ [e]).
Proof.
  intros Hwf Hp Hn Hf Hs. rewrite fmap_app. simpl. rewrite Hf. apply rle_push_spec; [done|done| |].
  - rewrite length_fmap. lia.
  - intros H. rewrite last_fmap. by apply Hs.
Qed.

(** The state after the date and the data of a record [e]: what the dimension
    still needs. *)
Definition pre_dim (s s' : cmd_st Elt) : Prop :=
  c_dims s' = c_dims s ∧ c_last_dim s' = c_last_dim s.

Lemma manage_dim_inv same n sizes pre post e s s' :
  cmd_inv n sizes pre s → pre_dim s s' → n = S (length pre + length post) →
  (same = true → cdim_of <$> last pre = Some (cdim_of e)) →
  ∃ s2, manage_dim same (cdim_of e) (Z.of_nat (length post)) s' = Ok s2 ∧
    rle_wf (c_dims s2) ∧ rle_pairs (c_dims s2) = pairs_from (Z.of_nat n - 1) (Some ∘ cdim_of <$> pre ++ [e]) ∧
    c_last_dim s2 = cdim_of e ∧ c_dates s2 = c_dates s' ∧ c_errors s2 = c_errors s' ∧
    c_last_err s2 = c_last_err s' ∧ c_no_data s2 = c_no_data s' ∧ c_seq s2 = c_seq s' ∧ c_pair s2 = c_pair s' ∧
    c_ind s2 = c_ind s' ∧ c_ind_str s2 = c_ind_str s' ∧ c_ind_num s2 = c_ind_num s'.
Proof.
  intros Hi [Hd Hl] Hn Hs. unfold manage_dim. rewrite Hd.
  destruct (push_last (Some ∘ cdim_of) same (cdim_of e) n pre post e (c_dims s)) as (r' & -> & Hwf & Hp);
    [apply Hi|apply Hi|done|done| |].
  { intros H. specialize (Hs H). destruct (last pre); simplify_eq/=. by rewrite Hs. }
  eexists. split; [done|]. simpl. do 2 (split; [done|]). split; [|done].
  destruct same; [|done]. rewrite Hl, (ci_ld _ _ _ _ Hi). by rewrite (Hs eq_refl).
Qed.

Lemma add_buf sz buf ind (xs ys : list Elt) :
  buf_at sz buf ind xs → Z.of_nat (length (xs ++ ys)) <= sz →
  ∃ buf', add_elt_data buf ys ind = Ok buf' ∧ buf_at sz buf' (ind + Z.of_nat (length ys)) (xs ++ ys).
Proof.
  intros [-> ->] Hl. rewrite length_app in Hl. pose proof (length_fmap Some xs) as Hf.
  replace (Z.of_nat (length xs)) with (Z.of_nat (length (Some <$> xs))) by (by rewrite Hf).
  rewrite add_elt_data_spec by lia. eexists. split; [done|]. unfold buf_at. rewrite length_app, fmap_app, <-app_assoc.
  split; [lia|]. do 3 f_equal. lia.
Qed.

(** The dimension tests of the macros. *)
Lemma same_array n sizes pre e s len :
  cmd_inv n sizes pre s → Forall cmd_ok pre → class_of t = Scalar ∨ class_of t = Sequence →
  cdim_of e = mkDim len 0 → 0 <= len → (dim_x (c_last_dim s) =? len) = true → cdim_of <$> last pre = Some (cdim_of e).
Proof.
  intros Hi Hok Hc He Hlen H. propb. rewrite (ci_ld _ _ _ _ Hi) in H.
  destruct (last pre) as [e'|] eqn:Hl; simpl in *; [|lia]. f_equal. rewrite He, <-H.
  destruct (pairs_empty pre Hc Hok) as (_ & _ & Hy). apply last_Some in Hl as [l' ->].
  apply Forall_app in Hy as [_ Hy]. apply Forall_cons in Hy as [Hy _]. rewrite <-Hy. by destruct (cdim_of e').
Qed.

Lemma same_seq n sizes pre e s ls ln :
  cmd_inv n sizes pre s → cdim_of e = mkDim ls ln → 0 <= ls →
  (dim_x (c_last_dim s) =? ls) && (dim_y (c_last_dim s) =? ln) = true → cdim_of <$> last pre = Some (cdim_of e).
Proof.
  intros Hi He Hlen H. propb. rewrite (ci_ld _ _ _ _ Hi) in *.
  destruct (last pre) as [e'|] eqn:Hl; simpl in *; [|lia]. f_equal. rewrite He. destruct (cdim_of e'); simpl in *. congruence.
Qed.

Lemma same_err n sizes pre e s ex :
  cmd_inv n sizes pre s → cmd_ok e → except e = Some ex →
  negb (is_new_err (c_no_data s) ex (c_last_err s)) = true → failed_with <$> last pre = Some (Some ex).
Proof.
  intros Hi Hok He H. apply negb_true_iff, is_new_err_false in H as [Hn ->].
  unfold cmd_ok in Hok. rewrite He in Hok. pose proof (ci_nd _ _ _ _ Hi) as Hnd. pose proof (ci_le _ _ _ _ Hi) as Hle.
  destruct (last pre) as [e'|]; [|done]. simpl. rewrite Hn in Hnd. symmetry in Hnd. apply bool_decide_eq_true in Hnd as [ex' Hex].
  unfold failed_with. rewrite Hex. by rewrite (Hle ex' Hex).
Qed.

Definition with_date (dates : list TimeVal) s : cmd_st Elt :=
  mkCmdSt dates (c_errors s) (c_dims s) (c_last_dim s) (c_last_err s) false (c_seq s) (c_pair s)
    (c_ind s) (c_ind_str s) (c_ind_num s).

Lemma failed_parts e ex : except e = Some ex →
  cdim_of e = mkDim 0 0 ∧ seq_of e = [] ∧ str_of e = [] ∧ num_of e = [] ∧ failed_with e = Some ex.
Proof.
  intros He. unfold cdim_of, seq_of, str_of, num_of, failed_with. by rewrite (answer_failed e ex He).
Qed.

Lemma error_step n sizes pre post e s ex :
  cmd_inv n sizes pre s → n = S (length pre + length post) → cmd_ok e → except e = Some ex →
  ∃ s', cmd_error ex (c_no_data s) (Z.of_nat (length post))
          (with_date (replicate (n - length (pre ++ [e])) (mkTimeVal 0 0 0) ++ reverse (cdate_of <$> pre ++ [e])) s) = Ok s' ∧
    cmd_inv n sizes (pre ++ [e]) s'.
Proof.
  intros Hi Hn Hok He. unfold cmd_error. simpl. destruct (failed_parts e ex He) as (Hd & H1 & H2 & H3 & Hf).
  destruct (push_last failed_with (negb (is_new_err (c_no_data s) ex (c_last_err s))) ex n pre post e (c_errors s))
    as (r' & -> & Hwf & Hp); [apply Hi|apply Hi|done|done|by eapply same_err|]. simpl.
  set (s1 := mkCmdSt _ _ _ _ _ _ _ _ _ _ _).
  destruct (manage_dim_inv ((dim_x (c_last_dim s1) =? 0) && (dim_y (c_last_dim s1) =? 0)) n sizes pre post e s s1 Hi)
    as (s2 & Hs2 & D1 & D2 & D3 & E1 & E2 & E3 & E4 & E5 & E6 & E7 & E8 & E9); [done|done|by apply (same_seq n sizes pre e s 0 0 Hi Hd ltac:(lia))|].
  unfold manage_dim_seq. rewrite <-Hd, Hs2. exists s2. split; [done|].
  assert (Hc : ∀ (g : cmd_elt → list Elt), g e = [] → concat (g <$> pre ++ [e]) = concat (g <$> pre)).
  { intros g Hg. rewrite fmap_app, concat_app. simpl. by rewrite Hg, !app_nil_r. }
  split; rewrite ?E1, ?E2, ?E3, ?E4, ?E5, ?E6, ?E7, ?E8, ?E9, ?last_snoc, ?Hc by done; simpl; try done; try apply Hi.
  - by rewrite He.
  - intros ex' Hex. rewrite He in Hex. injection Hex as <-. destruct (is_new_err _ _ _) eqn:Hne; [done|].
    by apply is_new_err_false in Hne as [_ ->].
  - intros Hnone. apply Forall_app. split; [|repeat constructor; by rewrite He]. apply (ci_none _ _ _ _ Hi). exact Hnone.
Qed.

(** What is left of the invariant after a record that did not fail. *)
Lemma data_inv n sizes pre post e s s' :
  cmd_inv n sizes pre s → except e = None →
  c_dates s' = replicate (n - length (pre ++ [e])) (mkTimeVal 0 0 0) ++ reverse (cdate_of <$> pre ++ [e]) →
  c_errors s' = c_errors s → c_last_err s' = c_last_err s → c_no_data s' = false →
  rle_wf (c_dims s') → rle_pairs (c_dims s') = pairs_from (Z.of_nat n - 1) (Some ∘ cdim_of <$> pre ++ [e]) →
  c_last_dim s' = cdim_of e →
  buf_at (fst (fst sizes)) (default (replicate (Z.to_nat (fst (fst sizes))) None) (c_seq s'))
    (c_ind s') (concat (seq_of <$> pre ++ [e])) →
  (let d := default (replicate (Z.to_nat (snd (fst sizes))) None, replicate (Z.to_nat (snd sizes)) None) (c_pair s') in
   buf_at (snd (fst sizes)) (fst d) (c_ind_str s') (concat (str_of <$> pre ++ [e])) ∧
   buf_at (snd sizes) (snd d) (c_ind_num s') (concat (num_of <$> pre ++ [e]))) →
  match class_of t with Pair => c_pair s' ≠ None | _ => c_seq s' ≠ None end →
  cmd_inv n sizes (pre ++ [e]) s'.
Proof.
  intros Hi He H1 H2 H3 H4 H5 H6 H7 H8 [H9 H10] H11.
  split; rewrite ?last_snoc; try done.
  - rewrite H2. apply Hi.
  - rewrite H2, fmap_app. simpl. unfold failed_with at 2. rewrite He, pairs_from_snoc_None. apply Hi.
  - by rewrite H4, He.
  - intros ex. by rewrite He.
  - by destruct (class_of t).
Qed.

Definition fits (sizes : Z * Z * Z) es : Prop :=
  fst (fst (sizes_of es)) <= fst (fst sizes) ∧ snd (fst (sizes_of es)) <= snd (fst sizes) ∧
  snd (sizes_of es) <= snd sizes.

Lemma concat_snoc (g : cmd_elt → list Elt) pre e : concat (g <$> pre ++ [e]) = concat (g <$> pre) ++ g e.
Proof. rewrite fmap_app, concat_app. simpl. by rewrite app_nil_r. Qed.

Lemma seq_step n sz ssz nsz pre post e s l :
  cmd_inv n (sz, ssz, nsz) pre s → n = S (length pre + length post) → Forall cmd_ok pre → except e = None →
  class_of t = Scalar ∨ class_of t = Sequence → cdim_of e = mkDim (Z.of_nat (length l)) 0 →
  seq_of e = l → str_of e = [] → num_of e = [] → fits (sz, ssz, nsz) (pre ++ [e]) →
  let s0 := with_date (replicate (n - length (pre ++ [e])) (mkTimeVal 0 0 0) ++ reverse (cdate_of <$> pre ++ [e])) s in
  ∃ s', (s1 ← add_seq sz l s0; manage_dim_array (Z.of_nat (length l)) (Z.of_nat (length post)) s1) = Ok s' ∧
    cmd_inv n (sz, ssz, nsz) (pre ++ [e]) s'.
Proof.
  intros Hi Hn Hok He Hc Hd Hseq Hstr Hnum (F1 & _ & _) s0. unfold sizes_of in F1. simpl in F1.
  rewrite concat_snoc, Hseq in F1.
  destruct (add_buf sz _ _ _ l (ci_seq _ _ _ _ Hi) F1) as (b & Hb & Bb).
  unfold add_seq. simpl in *. rewrite Hb. simpl. set (s1 := set_buf _ _ _ _ _ _).
  destruct (manage_dim_inv (dim_x (c_last_dim s1) =? Z.of_nat (length l)) n (sz, ssz, nsz) pre post e s s1 Hi)
    as (s2 & Hs2 & D1 & D2 & D3 & E1 & E2 & E3 & E4 & E5 & E6 & E7 & E8 & E9); [done|done| |].
  { apply (same_array n (sz, ssz, nsz) pre e s _ Hi Hok Hc Hd). lia. }
  unfold manage_dim_array. rewrite <-Hd, Hs2. exists s2. split; [done|].
  eapply (data_inv n (sz, ssz, nsz) pre post e s); rewrite ?E1, ?E2, ?E3, ?E4, ?E5, ?E6, ?E7, ?E8, ?E9; try done.
  - by rewrite concat_snoc, Hseq.
  - rewrite !concat_snoc, Hstr, Hnum, !app_nil_r. split; apply Hi.
  - by destruct Hc as [-> | ->].
Qed.

Lemma pair_step n sz ssz nsz pre post e s ss ns :
  cmd_inv n (sz, ssz, nsz) pre s → n = S (length pre + length post) → except e = None →
  class_of t = Pair → cdim_of e = mkDim (Z.of_nat (length ss)) (Z.of_nat (length ns)) →
  seq_of e = [] → str_of e = ss → num_of e = ns → fits (sz, ssz, nsz) (pre ++ [e]) →
  let s0 := with_date (replicate (n - length (pre ++ [e])) (mkTimeVal 0 0 0) ++ reverse (cdate_of <$> pre ++ [e])) s in
  ∃ s', (s1 ← add_pair ssz nsz ss ns s0;
         manage_dim_seq (Z.of_nat (length ss)) (Z.of_nat (length ns)) (Z.of_nat (length post)) s1) = Ok s' ∧
    cmd_inv n (sz, ssz, nsz) (pre ++ [e]) s'.
Proof.
  intros Hi Hn He Hc Hd Hseq Hstr Hnum (_ & F2 & F3) s0. unfold sizes_of in F2, F3. simpl in F2, F3.
  rewrite concat_snoc, Hstr in F2. rewrite concat_snoc, Hnum in F3.
  pose proof (ci_str _ _ _ _ Hi) as Bt. pose proof (ci_num _ _ _ _ Hi) as Bn. simpl in Bt, Bn.
  unfold add_pair. simpl. destruct (default (replicate (Z.to_nat ssz) None, replicate (Z.to_nat nsz) None) (c_pair s))
    as [gs gn]. simpl in Bt, Bn.
  destruct (add_buf ssz _ _ _ ss Bt F2) as (b & -> & Bb). destruct (add_buf nsz _ _ _ ns Bn F3) as (b' & Hb' & Bb').
  simpl. rewrite Hb'. simpl. set (s1 := set_buf _ _ _ _ _ _).
  destruct (manage_dim_inv ((dim_x (c_last_dim s1) =? Z.of_nat (length ss)) &&
             (dim_y (c_last_dim s1) =? Z.of_nat (length ns))) n (sz, ssz, nsz) pre post e s s1 Hi)
    as (s2 & Hs2 & D1 & D2 & D3 & E1 & E2 & E3 & E4 & E5 & E6 & E7 & E8 & E9); [done|done| |].
  { apply (same_seq n (sz, ssz, nsz) pre e s _ _ Hi Hd). lia. }
  unfold manage_dim_seq. rewrite <-Hd, Hs2. exists s2. split; [done|].
  eapply (data_inv n (sz, ssz, nsz) pre post e s); rewrite ?E1, ?E2, ?E3, ?E4, ?E5, ?E6, ?E7, ?E8, ?E9; try done.
  - rewrite concat_snoc, Hseq, app_nil_r. apply Hi.
  - by rewrite !concat_snoc, Hstr, Hnum.
  - by rewrite Hc.
Qed.

Lemma answer_step n sizes pre post e s a :
  cmd_inv n sizes pre s → n = S (length pre + length post) → Forall cmd_ok pre → except e = None →
  answer_of e = Some a → shape a = true → fits sizes (pre ++ [e]) →
  ∃ s', cmd_data t sizes a (Z.of_nat (length post))
          (with_date (replicate (n - length (pre ++ [e])) (mkTimeVal 0 0 0) ++ reverse (cdate_of <$> pre ++ [e])) s) = Ok s' ∧
    cmd_inv n sizes (pre ++ [e]) s'.
Proof.
  intros Hi Hn Hok He Ha Hshape Hf. destruct sizes as [[sz ssz] nsz]. unfold cmd_data, shape in *.
  destruct (class_of t) eqn:Hc, a as [x|l|ss ns]; try done.
  - apply (seq_step n sz ssz nsz pre post e s [x]); try done; [by left|..];
      unfold cdim_of, seq_of, str_of, num_of; by rewrite Ha.
  - apply (seq_step n sz ssz nsz pre post e s l); try done; [by right|..];
      unfold cdim_of, seq_of, str_of, num_of; by rewrite Ha.
  - apply (pair_step n sz ssz nsz pre post e s ss ns); try done;
      unfold cdim_of, seq_of, str_of, num_of; by rewrite Ha.
Qed.

Lemma cmd_step_inv n sizes pre post e s :
  cmd_inv n sizes pre s → n = S (length pre + length post) → Forall cmd_ok pre → cmd_ok e →
  fits sizes (pre ++ [e]) →
  ∃ s', cmd_step src_ref dst_ref t sizes (Z.of_nat (length post)) e s = Ok s' ∧ cmd_inv n sizes (pre ++ [e]) s'.
Proof.
  intros Hi Hn Hok He Hf. unfold cmd_step. rewrite (ci_dates _ _ _ _ Hi).
  change (make_TimeVal src_ref dst_ref (when e)) with (cdate_of e). rewrite (date_set n pre post e Hn).
  rewrite bind_Ok. destruct (except e) as [ex|] eqn:Hex.
  - by apply error_step.
  - destruct (cmd_ok_answer e He Hex) as (a & Ha & -> & Hs). simpl. by apply answer_step.
Qed.

Lemma fits_app sizes es1 es2 : fits sizes (es1 ++ es2) → fits sizes es1.
Proof. unfold fits, sizes_of. simpl. rewrite !fmap_app, !concat_app, !length_app. lia. Qed.

Lemma cmd_loop_inv (r : cmd_ring) n sizes k j pre s :
  ring_wf r → (j + k <= Z.to_nat (nb_elt r))%nat → cmd_inv n sizes pre s → n = (length pre + k)%nat →
  Forall cmd_ok (pre ++ take k (drop j (contents r))) → fits sizes (pre ++ take k (drop j (contents r))) →
  ∃ s', cmd_loop src_ref dst_ref r t sizes k (slot_index r j) s = Ok s' ∧
    cmd_inv n sizes (pre ++ take k (drop j (contents r))) s'.
Proof.
  intros Hwf. revert j pre s. induction k as [|k IH]; intros j pre s Hk Hi Hn Hok Hf.
  { rewrite app_nil_r. by exists s. }
  rewrite contents_walk in * by done. set (e := ring_at _ _) in *. set (post := take k _) in *.
  rewrite (cons_middle e), app_assoc in Hok, Hf |- *. simpl. rewrite vget_ring_at by auto. fold e. simpl.
  assert (Hlen : length post = k).
  { unfold post. rewrite length_take, length_drop, contents_length. lia. }
  pose proof Hok as [Hok1 _]%Forall_app. apply Forall_app in Hok1 as [Hpre He]. apply Forall_cons in He as [He _].
  destruct (cmd_step_inv n sizes pre post e s Hi) as (s' & Hs & Hi'); [lia|done|done|by eapply fits_app|].
  replace (Z.of_nat k) with (Z.of_nat (length post)) by (by rewrite Hlen). rewrite Hs. simpl. rewrite slot_index_S by done.
  apply IH; [lia|done|rewrite length_app; simpl; lia|done|done].
Qed.

Lemma cmd_history_output (r : cmd_ring) n es :
  ring_wf r → (1 <= n <= Z.to_nat (nb_elt r))%nat → es = take n (contents r) → Forall cmd_ok es →
  class_of t ≠ Unhandled →
  ∃ s, cmd_inv n (sizes_of es) es s ∧
    get_cmd_history src_ref dst_ref n t r =
      (v ← final_value t s; Ok (mkDevCmdHistory t (c_dates s) (c_errors s) (c_dims s) v)).
Proof.
  intros Hwf Hn Hes Hok Ht. unfold get_cmd_history.
  rewrite all_sizes_records by (done || lia || by subst). simpl. rewrite <-Hes, hist_start_slot by done.
  destruct (cmd_loop_inv r n (sizes_of es) n 0 [] (cmd_init n) Hwf) as (s & Hs & Hi); rewrite ?drop_0, <-?Hes; simpl;
    [lia|apply cmd_inv_init|lia|done|unfold fits; lia|].
  rewrite drop_0, <-Hes in Hi. rewrite Hs. simpl. exists s. split; [done|]. by destruct n; [lia|].
Qed.

(** *** The client's loops *)

Definition base_cmd e : DeviceDataHistory Elt :=
  mkDDH (cdate_of e) (bool_decide (is_Some (except e))) (default [] (except e)) None.

Lemma client_cmd_failed e : except e ≠ None → client_cmd e = base_cmd e.
Proof. unfold client_cmd, base_cmd, answer_of. by destruct (except e). Qed.

Lemma slice_end (a b tail : list (option Elt)) :
  slice (a ++ b ++ tail) (Z.of_nat (length a)) (Z.of_nat (length b)) = Ok b.
Proof.
  unfold slice. rewrite (proj2 (Z.leb_le 0 _)), (proj2 (Z.leb_le 0 _)) by lia.
  rewrite (proj2 (Z.leb_le _ _)) by (rewrite !length_app; lia). simpl.
  by rewrite !Nat2Z.id, drop_app_length, take_app_length.
Qed.

Lemma lookup_ad pre_ad d (ads : list (option AttributeDim)) :
  (pre_ad ++ Some d :: ads) !! length pre_ad = Some (Some d).
Proof. by rewrite list_lookup_middle. Qed.

Abbreviation dims_ad es := (fmap (M:=list) (λ e : cmd_elt, Some (cdim_of e)) es).

Lemma extract_seq_spec (array : bool) es pre_ad tail :
  class_of t = (if array then Sequence else Scalar) → Forall cmd_ok es →
  extract_seq array ((Some <$> concat (seq_of <$> es)) ++ tail) (pre_ad ++ dims_ad (reverse es))
    (Z.of_nat (length (concat (seq_of <$> es)))) (length pre_ad) (base_cmd <$> reverse es)
  = Ok (client_cmd <$> reverse es).
Proof.
  intros Hc. revert pre_ad tail. induction es as [|e es IH] using rev_ind; intros pre_ad tail Hok; [done|].
  apply Forall_app in Hok as [Hok He]. apply Forall_cons in He as [He _].
  rewrite reverse_app. csimpl. rewrite lookup_ad. simpl. rewrite concat_snoc.
  assert (IH' : ∀ tl, extract_seq array ((Some <$> concat (seq_of <$> es)) ++ tl)
     (pre_ad ++ Some (cdim_of e) :: dims_ad (reverse es)) (Z.of_nat (length (concat (seq_of <$> es))))
     (S (length pre_ad)) (base_cmd <$> reverse es) = Ok (client_cmd <$> reverse es)).
  { intros tl. specialize (IH (pre_ad ++ [Some (cdim_of e)]) tl Hok).
    rewrite <-app_assoc, length_app, Nat.add_1_r in IH. exact IH. }
  rewrite fmap_app, <-app_assoc, length_app, Nat2Z.inj_add.
  destruct (except e) as [ex|] eqn:Hex; simpl.
  - destruct (failed_parts e ex Hex) as (_ & -> & _). simpl. rewrite Z.add_0_r, IH'. simpl.
    unfold client_cmd at 2, base_cmd at 1, answer_of. by rewrite Hex.
  - destruct (cmd_ok_answer e He Hex) as (a & Ha & _ & Hs). unfold shape in Hs. rewrite Hc in Hs.
    assert (Hcl : client_cmd e = mkDDH (cdate_of e) false [] (Some (any_map Some a))).
    { unfold client_cmd. by rewrite Hex, Ha. }
    rewrite Hcl. destruct array, a as [x|l|]; try done; simpl.
    + assert (seq_of e = l ∧ cdim_of e = mkDim (Z.of_nat (length l)) 0) as [-> Hd]
        by (unfold seq_of, cdim_of; by rewrite Ha).
      rewrite Hd in *. simpl. replace (_ + _ - _) with (Z.of_nat (length (concat (seq_of <$> es)))) by lia.
      pose proof (slice_end (Some <$> concat (seq_of <$> es)) (Some <$> l) tail) as Hsl.
      rewrite !length_fmap in Hsl. rewrite Hsl. simpl. rewrite IH'. unfold set_any. simpl. by rewrite Hex.
    + assert (seq_of e = [x] ∧ cdim_of e = mkDim 1 0) as [-> Hd] by (unfold seq_of, cdim_of; by rewrite Ha).
      rewrite Hd in *. simpl. replace (_ + 1 - 1) with (Z.of_nat (length (concat (seq_of <$> es)))) by lia.
      rewrite (vget_nat _ _ (Some x)).
      2: { rewrite <-(length_fmap Some). by rewrite list_lookup_middle. }
      simpl. rewrite (IH' (Some x :: tail)). unfold set_any. simpl. by rewrite Hex.
Qed.

Lemma extract_pair_spec es pre_ad tail tail' :
  class_of t = Pair → Forall cmd_ok es → Forall (λ e, except e = None) es →
  extract_pair ((Some <$> concat (str_of <$> es)) ++ tail) ((Some <$> concat (num_of <$> es)) ++ tail')
    (pre_ad ++ dims_ad (reverse es)) (Z.of_nat (length (concat (str_of <$> es))))
    (Z.of_nat (length (concat (num_of <$> es)))) (length pre_ad) (base_cmd <$> reverse es)
  = Ok (client_cmd <$> reverse es).
Proof.
  intros Hc. revert pre_ad tail tail'. induction es as [|e es IH] using rev_ind; intros pre_ad tail tail' Hok Hno; [done|].
  apply Forall_app in Hok as [Hok He]. apply Forall_cons in He as [He _].
  apply Forall_app in Hno as [Hno Hex]. apply Forall_cons in Hex as [Hex _].
  rewrite reverse_app. csimpl. 
  assert (Hf : bool_decide (is_Some (except e)) = false) by (by rewrite Hex).
  rewrite Hf. simpl. rewrite lookup_ad. simpl. rewrite !concat_snoc.
  destruct (cmd_ok_answer e He Hex) as (a & Ha & _ & Hs). unfold shape in Hs. rewrite Hc in Hs.
  destruct a as [| |ss ns]; try done.
  assert (str_of e = ss ∧ num_of e = ns ∧ cdim_of e = mkDim (Z.of_nat (length ss)) (Z.of_nat (length ns)))
    as (-> & -> & Hd) by (unfold str_of, num_of, cdim_of; by rewrite Ha).
  rewrite Hd. simpl. rewrite !fmap_app, <-!app_assoc, !length_app, !Nat2Z.inj_add.
  replace (Z.of_nat (length (concat (str_of <$> es))) + _ - _) with (Z.of_nat (length (concat (str_of <$> es)))) by lia.
  replace (Z.of_nat (length (concat (num_of <$> es))) + _ - _) with (Z.of_nat (length (concat (num_of <$> es)))) by lia.
  pose proof (slice_end (Some <$> concat (str_of <$> es)) (Some <$> ss) tail) as Hsl.
  pose proof (slice_end (Some <$> concat (num_of <$> es)) (Some <$> ns) tail') as Hnl.
  rewrite !length_fmap in Hsl, Hnl. rewrite Hsl, bind_Ok, Hnl, bind_Ok.
  specialize (IH (pre_ad ++ [Some (mkDim (Z.of_nat (length ss)) (Z.of_nat (length ns)))]) ((Some <$> ss) ++ tail)
    ((Some <$> ns) ++ tail') Hok Hno).
  rewrite <-app_assoc, length_app, Nat.add_1_r in IH. simpl in IH. rewrite IH. simpl.
  assert (Hcl : client_cmd e = mkDDH (cdate_of e) false [] (Some (any_map Some (AnyPair ss ns)))).
  { unfold client_cmd. by rewrite Hex, Ha. }
  rewrite Hcl. unfold set_any. simpl. by rewrite Hex.
Qed.

(** The types for which the last switch of the server forgets the value. *)
Definition forgotten (ty : CmdArgType) : bool :=
  match ty with DEV_USHORT | DEVVAR_USHORTARRAY | DEV_ULONG | DEVVAR_ULONGARRAY => true | _ => false end.

Lemma zip_records {A X} (f : A → X → X) (g : cmd_elt → option A) (h : cmd_elt → X) es :
  zip_with (upd f) (g <$> es) (h <$> es) = (λ e, upd f (g e) (h e)) <$> es.
Proof. apply zip_with_fmap_l. Qed.

Lemma replicate_reverse {A} (a : A) es : replicate (length es) a = reverse ((λ _, a) <$> es).
Proof. rewrite <-reverse_replicate. f_equal. induction es as [|e es IH]; simpl; [done|]. by f_equal. Qed.

(** C2: Round trip of the command histories.  For the [n] newest records of a
    well-formed ring, stored as the polling thread stores them ([cmd_ok]), with
    at least one answer, and for a command whose output type is a scalar, a
    sequence or a pair of sequences that the server does not forget
    ([forgotten]: the unsigned short and unsigned long types) and that the client knows
    (the arrays of booleans are not in its switch), no record being an error when the type
    is a pair: the server packs the
    records without an exception or undefined behaviour, and the client gets one
    element per record, the oldest first, with the date, the failed flag, the
    errors and the answer of the record. *)
Theorem cmd_history_round_trip (r : cmd_ring) (n : nat) es :
  ring_wf r → (1 <= n <= Z.to_nat (nb_elt r))%nat → es = take n (contents r) → Forall cmd_ok es →
  class_of t ≠ Unhandled → forgotten t = false → client_class t = class_of t →
  Exists (λ e, except e = None) es → (class_of t = Pair → Forall (λ e, except e = None) es) →
  (h ← get_cmd_history src_ref dst_ref n t r; from_hist4_2_DataHistory h) = Ok (reverse (client_cmd <$> es)).
Proof.
  intros Hwf Hn Hes Hok Ht Hfg Hcl Hsome Hpair.
  destruct (cmd_history_output r n es Hwf Hn Hes Hok Ht) as (s & Hi & ->).
  assert (Hlen : length es = n) by (subst es; rewrite length_take, contents_length; lia). clear Hes.
  assert (Hnone : ¬ match class_of t with Pair => c_pair s = None | _ => c_seq s = None end).
  { intros H. pose proof (ci_none _ _ _ _ Hi H) as Hall. rewrite Forall_forall in Hall.
    apply Exists_exists in Hsome as (e & Hin & He). specialize (Hall e Hin). rewrite He in Hall. by destruct Hall. }
  pose proof (ci_dates _ _ _ _ Hi) as Hd. rewrite Hlen, Nat.sub_diag in Hd. simpl in Hd.
  assert (Hout : ∃ v, final_value t s = Ok (Some v) ∧
    match class_of t with
    | Scalar | Sequence => v = SeqBuf (Some <$> concat (seq_of <$> es))
    | Pair => v = PairBuf (Some <$> concat (str_of <$> es)) (Some <$> concat (num_of <$> es))
    | Unhandled => False
    end).
  { clear Hcl. destruct (ci_seq _ _ _ _ Hi) as [_ Hs]. destruct (ci_str _ _ _ _ Hi) as [_ Hst].
    destruct (ci_num _ _ _ _ Hi) as [_ Hnu]. simpl in Hs, Hst, Hnu.
    rewrite Nat2Z.id, Nat.sub_diag, app_nil_r in Hs. rewrite Nat2Z.id, Nat.sub_diag, app_nil_r in Hst.
    rewrite ?Nat2Z.id, ?Nat.sub_diag, ?app_nil_r in Hnu.
    unfold final_value. destruct t; try discriminate Hfg; try (by destruct (Ht eq_refl)); simpl in *;
      first [destruct (c_seq s); [|by destruct Hnone]|destruct (c_pair s) as [[]|]; [|by destruct Hnone]];
      simpl in *; subst; by eexists. }
  destruct Hout as (v & -> & Hv). simpl. unfold from_hist4_2_DataHistory. simpl.
  rewrite !rle_wf_same_lengths by apply Hi. simpl. rewrite Hd, fmap_reverse, <-list_fmap_compose.
  rewrite (apply_runs_spec set_failed _ (failed_with <$> es));
    [|apply Hi|by rewrite !length_fmap|rewrite length_fmap, Hlen; apply Hi].
  rewrite bind_Ok, zip_records, length_reverse, length_fmap, replicate_reverse.
  rewrite (apply_runs_spec (λ d _, Some d) _ (Some ∘ cdim_of <$> es));
    [|apply Hi|by rewrite !length_fmap|rewrite length_fmap, Hlen; apply Hi].
  rewrite bind_Ok, zip_records.
  replace (reverse (_ <$> es)) with (base_cmd <$> reverse es).
  2: { rewrite fmap_reverse. f_equal. apply list_fmap_ext. intros _ e _. unfold base_cmd, failed_with. simpl.
       by destruct (except e). }
  replace (reverse (_ <$> es)) with (dims_ad (reverse es)) by (by rewrite fmap_reverse).
  rewrite <-fmap_reverse.
  rewrite Hcl. clear Hcl.
  destruct (class_of t) eqn:Hc; [| | |done]; subst v; simpl; rewrite !length_fmap.
  - pose proof (extract_seq_spec false es [] [] Hc Hok) as H. rewrite app_nil_r in H. exact H.
  - pose proof (extract_seq_spec true es [] [] Hc Hok) as H. rewrite app_nil_r in H. exact H.
  - pose proof (extract_pair_spec es [] [] [] Hc Hok (Hpair eq_refl)) as H. rewrite !app_nil_r in H. exact H.
Qed.

End CmdRoundTrip.

(** ** Concrete rings *)

Section CmdExamples.

Definition exc_put (x : any_value Z + DevErrorList) (t : Z) (r : PollRing (any_value Z) Z) :
    outcome (PollRing (any_value Z) Z) :=
  match x with inl a => insert_data_cmd a t r | inr errs => insert_except errs t r end.
Definition exc_ring (xs : list (any_value Z + DevErrorList)) : PollRing (any_value Z) Z :=
  match foldl (λ o x, r ← o; exc_put x 5 r) (Ok (PollRing_new 4)) xs with Ok r => r | _ => PollRing_default end.
Definition exc_error : DevErrorList := [mkDevError "API_X" ERR "failed" "cmd"].

Definition exc_mixed : PollRing (any_value Z) Z :=
  exc_ring [inl (AnySeq [1; 2]); inr exc_error; inr exc_error; inl (AnySeq [3]); inl (AnySeq [4])].

Lemma cmd_history_round_trip_witness :
  (h ← get_cmd_history 0 0 4 DEVVAR_LONGARRAY exc_mixed; from_hist4_2_DataHistory h)
    = Ok (reverse (client_cmd 0 0 <$> contents exc_mixed)).
Proof.
  apply (cmd_history_round_trip 0 0 DEVVAR_LONGARRAY exc_mixed 4 (contents exc_mixed)).
  - vm_compute. split; done.
  - vm_compute. lia.
  - reflexivity.
  - repeat (constructor; [vm_compute; first [discriminate|by eexists]|]). constructor.
  - discriminate.
  - reflexivity.
  - reflexivity.
  - by apply Exists_cons_hd.
  - discriminate.
Defined.

(** The round trip on these data, evaluated. *)
Example exc_mixed_client :
  (λ x, (dd_failed x, dd_any x)) <$>
    match (h ← get_cmd_history 0 0 4 DEVVAR_LONGARRAY exc_mixed; from_hist4_2_DataHistory h) with Ok l => l | _ => [] end
  = [(true, None); (true, None); (false, Some (AnySeq [Some 3])); (false, Some (AnySeq [Some 4]))].
Proof. vm_compute. reflexivity. Qed.

(** A command that returns an unsigned short (or long): the server packs no value
    at all, and the client then reads through an unset pointer. *)
Example ushort_history_lost :
  ∃ h, get_cmd_history 0 0 1 DEV_USHORT (exc_ring [inl (AnyScalar 7)]) = Ok h ∧ ch_value h = None ∧
    from_hist4_2_DataHistory h = Undef.
Proof. eexists. repeat split; vm_compute; reflexivity. Qed.

(** A command that returns an array of booleans: the server packs the values, and the switch
    of the client has no case for them. *)
Example booleans_history_lost :
  ∃ h, get_cmd_history 0 0 1 DEVVAR_BOOLEANARRAY (exc_ring [inl (AnySeq [1; 0])]) = Ok h ∧
    ch_value h = Some (SeqBuf [Some 1; Some 0]) ∧
    (map (dd_any (Elt := Z)) <$> match from_hist4_2_DataHistory h with Ok l => Some l | _ => None end) = Some [None].
Proof. eexists. repeat split; vm_compute; reflexivity. Qed.

(** A command without output: the first switch lists it with the unhandled types,
    the last one does nothing for it; its history throws. *)
Example void_history_throws (a : any_value Z) :
  get_cmd_history 0 0 1 DEV_VOID (exc_ring [inl a]) = unhandled_type.
Proof. vm_compute. reflexivity. Qed.

(** When every record is an error there is no sequence in the Any, and the client
    uses it all the same. *)
Example all_errors_history :
  (h ← get_cmd_history 0 0 1 DEV_LONG (exc_ring [inr exc_error]); from_hist4_2_DataHistory h) = Undef.
Proof. vm_compute. reflexivity. Qed.

(** Pairs of sequences with an error: the index in the dimensions does not
    advance for the failed record, and the next one gets its dimensions (0, 0)
    and no data. *)
Example pair_history_shifted :
  (λ x, dd_any x) <$>
    match (h ← get_cmd_history 0 0 2 DEVVAR_LONGSTRINGARRAY
                (exc_ring [inr exc_error; inl (AnyPair [1] [2; 3])]); from_hist4_2_DataHistory h) with
    | Ok l => l | _ => []
    end = [None; Some (AnyPair [] [])].
Proof. vm_compute. reflexivity. Qed.

End CmdExamples.
