(* ===== verification/ListHistory.v ===== *)
(** * Histories for clients of IDL 1 to 3

  Before IDL 4 a history is a plain list with one structure per record
  ([PollRing::get_cmd_history] for a [DevCmdHistoryList],
  [PollRing::get_attr_history] for a [DevAttrHistoryList] and a
  [DevAttrHistoryList_3], [PollRing::get_attr_history_43] for a device of IDL 4
  read by a client of IDL 3; src/src/server/pollring.cpp).  All four walk the
  ring from the newest record and fill the list from its end. *)
From S2P Require Import Prelude PollRing AttrHistory.
Local Open Scope Z_scope.

Section ListHistory.
Context {Any Elt : Type} (src_ref dst_ref : Z).
Abbreviation ring_t := (PollRing Any Elt).
Abbreviation elt_t := (RingElt Any Elt).
Implicit Types (r : ring_t) (e : elt_t).

(** ** The structures of the IDL *)

Record DevCmdHistory := mkCmdHist {
  lc_time : TimeVal;
  lc_failed : bool;
  lc_value : option Any;
  lc_errors : DevErrorList;
}.
Definition DevCmdHistory_new : DevCmdHistory := mkCmdHist (mkTimeVal 0 0 0) false None [].

(** [DevAttrHistory] and [DevAttrHistory_3]; the first has its errors beside the
    value and no written dimension. *)
Record DevAttrHist := mkAttrHist {
  la_failed : bool;
  la_time : TimeVal;
  la_quality : AttrQuality;
  la_r_dim : AttributeDim;
  la_w_dim : AttributeDim;
  la_value : option (AttributeDataType * list Elt);
  la_errors : DevErrorList;
}.
Definition DevAttrHist_new : DevAttrHist :=
  mkAttrHist false (mkTimeVal 0 0 0) ATTR_VALID (mkDim 0 0) (mkDim 0 0) None [].

(** ** The loop all four share: [ptr[seq_index]] from [ring[index]] *)

Fixpoint fill_list {H} (f : elt_t → H → outcome H) r (k : nat) (index : Z) (ptr : list H) : outcome (list H) :=
  match k with
  | O => Ok ptr
  | S k' =>
      e ← vget (ring r) index;
      x ← vget ptr (Z.of_nat k');
      x ← f e x;
      ptr ← vset ptr (Z.of_nat k') x;
      fill_list f r k' (hist_next r index) ptr
  end.

(** ** Commands *)

Definition cmd_entry e (x : DevCmdHistory) : outcome DevCmdHistory :=
  let time := make_TimeVal src_ref dst_ref (when e) in
  match except e with
  | None => a ← deref (cmd_result e); Ok (mkCmdHist time false (Some a) [])
  | Some ex => Ok (mkCmdHist time true (lc_value x) ex)
  end.
Definition get_cmd_history_list (n : nat) r : outcome (list DevCmdHistory) :=
  fill_list cmd_entry r n (hist_start r) (replicate n DevCmdHistory_new).

(** ** Attributes *)

(** The value of the type of the attribute: [missing] when the value holds
    another type (an exception of the union accessor, or an unset pointer after
    a failed extraction from an Any). *)
Definition hist_seq (missing : outcome (option (AttributeDataType * list Elt))) (scalar_state : bool)
    (type : CmdArgType) (u : AttrValUnion Elt) : outcome (option (AttributeDataType * list Elt)) :=
  match type with
  | DEV_VOID | DEV_ENCODED => Ok None
  | DEV_STATE =>
      if (scalar_state && bool_decide (union_d u = DEVICE_STATE)) || bool_decide (union_d u = ATT_STATE)
      then Ok (Some (union_d u, union_seq u)) else missing
  | _ =>
      match union_member type with
      | Some d => if bool_decide (union_d u = d) then Ok (Some (d, union_seq u)) else missing
      | None => Ok None
      end
  end.

Definition hist_val (missing : outcome (option (AttributeDataType * list Elt))) (scalar_state : bool)
    (type : CmdArgType) (av : AttributeValue Elt) (old : option (AttributeDataType * list Elt))
    : outcome (option (AttributeDataType * list Elt)) :=
  if bool_decide (av_quality av = ATTR_INVALID) then Ok old
  else v ← hist_seq missing scalar_state type (av_value av); Ok (match v with Some _ => v | None => old end).

(** IDL 2: [attr_value], no written dimension. *)
Definition attr_entry (type : CmdArgType) e (x : DevAttrHist) : outcome DevAttrHist :=
  let time := make_TimeVal src_ref dst_ref (when e) in
  match except e with
  | None =>
      l ← deref (attr_value e); av ← vget l 0;
      v ← hist_val Undef false type av (la_value x);
      Ok (mkAttrHist false time (av_quality av) (av_r_dim av) (la_w_dim x) v [])
  | Some ex => Ok (mkAttrHist true time ATTR_INVALID (mkDim 0 0) (la_w_dim x) (la_value x) ex)
  end.

(** IDL 3 and the conversion of IDL 4 to 3. *)
Definition attr_entry_3 (v4 : bool) (type : CmdArgType) e (x : DevAttrHist) : outcome DevAttrHist :=
  let time := make_TimeVal src_ref dst_ref (when e) in
  match except e with
  | None =>
      l ← deref (if v4 then attr_value_4 e else attr_value_3 e); av ← vget l 0;
      v ← hist_val (if v4 then Exc (OtherExc "BAD_PARAM") else Undef) true type av (la_value x);
      Ok (mkAttrHist false time (av_quality av) (av_r_dim av) (av_w_dim av) v (av_err_list av))
  | Some ex => Ok (mkAttrHist true time ATTR_INVALID (mkDim 0 0) (mkDim 0 0) (la_value x) ex)
  end.

Definition get_attr_history_list (n : nat) (type : CmdArgType) r : outcome (list DevAttrHist) :=
  fill_list (attr_entry type) r n (hist_start r) (replicate n DevAttrHist_new).
Definition get_attr_history_list_3 (n : nat) (type : CmdArgType) r : outcome (list DevAttrHist) :=
  fill_list (attr_entry_3 false type) r n (hist_start r) (replicate n DevAttrHist_new).
Definition get_attr_history_43 (n : nat) (type : CmdArgType) r : outcome (list DevAttrHist) :=
  fill_list (attr_entry_3 true type) r n (hist_start r) (replicate n DevAttrHist_new).

(** ** The list is the contents of the ring, the oldest record first *)

Lemma fill_list_spec {H} (f : elt_t → H → outcome H) (out : elt_t → H) r x0 k j (done : list elt_t) :
  ring_wf r → (j + k <= Z.to_nat (nb_elt r))%nat →
  Forall (λ e, f e x0 = Ok (out e)) (take k (drop j (contents r))) →
  fill_list f r k (slot_index r j) (replicate k x0 ++ reverse (out <$> done)) =
    Ok (reverse (out <$> done ++ take k (drop j (contents r)))).
Proof.
  intros Hwf. revert j done. induction k as [|k IH]; intros j done Hk Hf; [by rewrite app_nil_r|].
  rewrite (drop_S (contents r) (ring_at r (slot_index r j)) j) in * by (apply contents_lookup; lia).
  set (e := ring_at _ _) in *. simpl in Hf |- *. apply Forall_cons in Hf as [He Hf].
  rewrite vget_ring_at by auto. fold e. rewrite bind_Ok.
  assert (Hr : x0 :: replicate k x0 ++ reverse (out <$> done) = replicate k x0 ++ x0 :: reverse (out <$> done)).
  { rewrite (app_comm_cons _ _ x0). change (x0 :: replicate k x0) with (replicate (S k) x0).
    by rewrite replicate_S_end, <-app_assoc. }
  rewrite Hr, (vget_nat _ _ x0) by (by apply list_lookup_middle; rewrite length_replicate).
  rewrite bind_Ok, He, bind_Ok, vset_Ok by (rewrite length_app, length_replicate; simpl; lia).
  rewrite bind_Ok, Nat2Z.id, list_insert_middle by (by rewrite length_replicate). rewrite slot_index_S by done.
  specialize (IH (S j) (done ++ [e])). rewrite fmap_app, reverse_app in IH. simpl in IH.
  rewrite IH by (done || lia). by rewrite <-app_assoc.
Qed.

(** What the records say. *)
Definition cmd_rec e : DevCmdHistory :=
  match except e with
  | None => mkCmdHist (make_TimeVal src_ref dst_ref (when e)) false (cmd_result e) []
  | Some ex => mkCmdHist (make_TimeVal src_ref dst_ref (when e)) true None ex
  end.

Definition attr_rec (v4 : bool) e : DevAttrHist :=
  let time := make_TimeVal src_ref dst_ref (when e) in
  match except e, (if v4 then attr_value_4 e else attr_value_3 e) with
  | None, Some (av :: _) =>
      mkAttrHist false time (av_quality av) (av_r_dim av) (av_w_dim av)
        (if bool_decide (av_quality av = ATTR_INVALID) then None
         else Some (union_d (av_value av), union_seq (av_value av))) (av_err_list av)
  | Some ex, _ => mkAttrHist true time ATTR_INVALID (mkDim 0 0) (mkDim 0 0) None ex
  | _, _ => DevAttrHist_new
  end.

(** A record stored for an attribute whose type the switch knows. *)
Definition attr_rec_ok (v4 : bool) (type : CmdArgType) e : Prop :=
  match except e with
  | Some _ => True
  | None => ∃ av l, (if v4 then attr_value_4 e else attr_value_3 e) = Some (av :: l) ∧
      match type with
      | DEV_VOID | DEV_ENCODED => False
      | DEV_STATE => union_d (av_value av) = DEVICE_STATE ∨ union_d (av_value av) = ATT_STATE
      | _ => union_member type = Some (union_d (av_value av))
      end
  end.

Lemma attr_entry_ok v4 type e :
  attr_rec_ok v4 type e → attr_entry_3 v4 type e DevAttrHist_new = Ok (attr_rec v4 e).
Proof.
  unfold attr_rec_ok, attr_entry_3, attr_rec. destruct (except e) as [ex|]; [done|].
  intros (av & l & -> & Ht). simpl. unfold hist_val. case_bool_decide as Hq; [done|].
  assert (Hv : hist_seq (if v4 then Exc (OtherExc "BAD_PARAM") else Undef) true type (av_value av)
               = Ok (Some (union_d (av_value av), union_seq (av_value av)))).
  { unfold hist_seq. destruct type; try done; try (destruct Ht as [-> | ->]; done);
      injection Ht as Ht; simpl; rewrite <-Ht; by rewrite ?bool_decide_eq_true_2. }
  by rewrite Hv.
Qed.

(** The histories sent to old clients: for the [n] newest records of a
    well-formed ring the list has one structure per record, the oldest first, with
    the date of the ring, the answer of the command or its errors. *)
Theorem cmd_history_list_spec r (n : nat) :
  ring_wf r → (n <= Z.to_nat (nb_elt r))%nat →
  Forall (λ e, except e = None → cmd_result e ≠ None) (take n (contents r)) →
  get_cmd_history_list n r = Ok (reverse (cmd_rec <$> take n (contents r))).
Proof.
  intros Hwf Hn Hok. unfold get_cmd_history_list. rewrite hist_start_slot by done.
  pose proof (fill_list_spec cmd_entry cmd_rec r DevCmdHistory_new n 0 [] Hwf) as H.
  rewrite drop_0 in H. simpl in H. rewrite app_nil_r in H. apply H; [lia|].
  eapply Forall_impl; [exact Hok|]. intros e He. unfold cmd_entry, cmd_rec.
  simpl in He. destruct (except e); [done|]. by destruct (cmd_result e); [|destruct (He eq_refl)].
Qed.

(** The same for the attributes of an IDL 3 device and for an IDL 4 device
    read by an IDL 3 client: value, quality, dimensions and errors of each
    record, and no value for an invalid one. *)
Theorem attr_history_list_spec (v4 : bool) (type : CmdArgType) r (n : nat) :
  ring_wf r → (n <= Z.to_nat (nb_elt r))%nat → Forall (attr_rec_ok v4 type) (take n (contents r)) →
  (if v4 then get_attr_history_43 n type r else get_attr_history_list_3 n type r)
    = Ok (reverse (attr_rec v4 <$> take n (contents r))).
Proof.
  intros Hwf Hn Hok. unfold get_attr_history_43, get_attr_history_list_3. rewrite !hist_start_slot by done.
  pose proof (fill_list_spec (attr_entry_3 v4 type) (attr_rec v4) r DevAttrHist_new n 0 [] Hwf) as H.
  rewrite drop_0 in H. simpl in H. rewrite app_nil_r in H. destruct v4; apply H; try lia;
    eapply Forall_impl; try exact Hok; apply attr_entry_ok.
Qed.

End ListHistory.
Arguments DevCmdHistory : clear implicits.
Arguments DevAttrHist : clear implicits.

(** ** Concrete rings *)

Section ListExamples.

Definition exl_error : DevErrorList := [mkDevError "API_X" ERR "failed" "cmd"].
Definition exl_ring : PollRing Z Z :=
  match (r ← insert_data_cmd 7 1 (PollRing_new 2); r ← insert_except exl_error 2 r; insert_data_cmd 9 3 r) with
  | Ok r => r | _ => PollRing_default
  end.

Lemma cmd_history_list_spec_witness :
  get_cmd_history_list 0 0 2 exl_ring = Ok (reverse (cmd_rec 0 0 <$> take 2 (contents exl_ring))).
Proof.
  apply (cmd_history_list_spec 0 0 exl_ring 2).
  - split; vm_compute; done.
  - vm_compute. lia.
  - repeat (constructor; [vm_compute; discriminate|]). constructor.
Defined.

Definition exl_av (q : AttrQuality) : AttributeValue Z :=
  mkAV (mkUnion ATT_LONG [7]) q (mkTimeVal 0 0 0) (mkDim 1 0) (mkDim 0 0) [].
Definition exl_att_ring : PollRing Z Z :=
  match (r ← insert_data_attr_4 [exl_av ATTR_VALID] 1 (PollRing_new 3); r ← insert_except exl_error 2 r;
         insert_data_attr_4 [exl_av ATTR_INVALID] 3 r) with
  | Ok r => r | _ => PollRing_default
  end.

Lemma attr_history_list_spec_witness :
  get_attr_history_43 0 0 3 DEV_LONG exl_att_ring = Ok (reverse (attr_rec 0 0 true <$> take 3 (contents exl_att_ring))).
Proof.
  apply (attr_history_list_spec 0 0 true DEV_LONG exl_att_ring 3).
  - split; vm_compute; done.
  - vm_compute. lia.
  - repeat (constructor; [vm_compute; first [exact I|by do 2 eexists]|]). constructor.
Defined.

End ListExamples.
