(* ===== verification/PollObj.v ===== *)
(** * Polled objects and the poll list of a device

  [PollObj] (src/src/server/pollobj.cpp, pollobj.h): a polled command or
  attribute with its period and its ring; and the lookup
  [DeviceImpl::get_polled_obj_by_type_name] (src/src/server/device.cpp).  Dates
  and durations are counts of nanoseconds of the steady clock. *)
From S2P Require Import Prelude PollRing.
Local Open Scope Z_scope.

Definition milliseconds (n : Z) : Z := n * 1000000.
Definition microseconds (n : Z) : Z := n * 1000.
Definition minutes (n : Z) : Z := n * 60 * 1000000000.

Inductive PollObjType := POLL_CMD | POLL_ATTR | EVENT_HEARTBEAT | STORE_SUBDEV.
#[export] Instance PollObjType_eq_dec : EqDecision PollObjType.
Proof. solve_decision. Defined.

Section PollObj.
Context {Any Elt : Type}.

Record PollObj := mkPollObj {
  po_type : PollObjType;
  po_name : string;
  po_upd : Z;
  po_needed_time : Z;
  po_max_delta_t : Z;
  po_ring : PollRing Any Elt;
}.

(** The two constructors; [poll_old_factor] is the device's. *)
Definition PollObj_depth (poll_old_factor : Z) (ty : PollObjType) (na : string)
    (user_upd r_depth : Z) : PollObj :=
  mkPollObj ty na user_upd 0 (user_upd * poll_old_factor) (PollRing_new r_depth).
Definition PollObj_new (poll_old_factor : Z) (ty : PollObjType) (na : string)
    (user_upd : Z) : PollObj :=
  mkPollObj ty na user_upd 0 (user_upd * poll_old_factor) PollRing_default.

(** What a poll stores. *)
Inductive PollData :=
  | CmdData (any_ptr : Any)
  | AttrData (l : list (AttributeValue Elt))
  | AttrData_3 (l : list (AttributeValue Elt))
  | AttrData_4 (l : list (AttributeValue Elt))
  | AttrData_5 (l : list (AttributeValue Elt)).

Definition insert_data (res : PollData) (when needed : Z) (o : PollObj) : outcome PollObj :=
  r ← match res with
      | CmdData a => insert_data_cmd a when (po_ring o)
      | AttrData l => insert_data_attr l when (po_ring o)
      | AttrData_3 l => insert_data_attr_3 l when (po_ring o)
      | AttrData_4 l => insert_data_attr_4 l when (po_ring o)
      | AttrData_5 l => insert_data_attr_5 l when (po_ring o)
      end;
  Ok (mkPollObj (po_type o) (po_name o) (po_upd o) needed (po_max_delta_t o) r).

Definition insert_except_obj (res : DevErrorList) (when needed : Z) (o : PollObj) : outcome PollObj :=
  r ← insert_except res when (po_ring o);
  Ok (mkPollObj (po_type o) (po_name o) (po_upd o) needed (po_max_delta_t o) r).

Definition update_upd (poll_old_factor new_upd : Z) (o : PollObj) : PollObj :=
  mkPollObj (po_type o) (po_name o) new_upd (po_needed_time o) (new_upd * poll_old_factor) (po_ring o).

Definition get_authorized_delta (o : PollObj) : Z := po_max_delta_t o.

(** A device, as far as its polling is concerned. *)
Record Device := mkDevice {
  dev_idl_version : Z;
  poll_old_factor : Z;
  poll_obj_list : list PollObj;
}.

(** [get_polled_obj_by_type_name]: the index of the first match. *)
Fixpoint find_polled_obj (ty : PollObjType) (na : string) (l : list PollObj) : option nat :=
  match l with
  | [] => None
  | o :: l =>
      if bool_decide (po_type o = ty) && bool_decide (po_name o = na) then Some 0%nat
      else S <$> find_polled_obj ty na l
  end.

Definition get_polled_obj_by_type_name (d : Device) (ty : PollObjType) (na : string) : outcome nat :=
  match find_polled_obj ty na (poll_obj_list d) with
  | Some i => Ok i
  | None => throw_exception "API_PollObjNotFound"
              (na +:+ " not found in list of polled object") "DeviceImpl::get_polled_obj_by_type_name"
  end.

Definition with_poll_list (d : Device) (l : list PollObj) : Device :=
  mkDevice (dev_idl_version d) (poll_old_factor d) l.

(** A method call through an iterator, on the object an iterator points to. *)
Definition on_polled_obj (f : PollObj → outcome PollObj) (i : nat) (d : Device) : outcome Device :=
  o ← deref (poll_obj_list d !! i);
  o' ← f o;
  Ok (with_poll_list d (<[i := o']> (poll_obj_list d))).

Lemma find_polled_obj_Some ty na l i :
  find_polled_obj ty na l = Some i →
  ∃ o, l !! i = Some o ∧ po_type o = ty ∧ po_name o = na.
Proof.
  revert i. induction l as [|o l IH]; intros i H; simpl in *; [done|].
  destruct (_ && _) eqn:E.
  - injection H as <-. propb. by exists o.
  - destruct (find_polled_obj ty na l) as [j|]; [|done]. injection H as <-. by apply IH.
Qed.

Lemma find_polled_obj_None ty na l :
  find_polled_obj ty na l = None → Forall (λ o, ¬ (po_type o = ty ∧ po_name o = na)) l.
Proof.
  induction l as [|o l IH]; simpl; [done|]. destruct (_ && _) eqn:E; [done|].
  intros H. constructor; [|by apply IH; destruct (find_polled_obj ty na l)].
  intros [? ?]. rewrite !bool_decide_eq_true_2 in E by done. done.
Qed.

End PollObj.
Arguments PollObj : clear implicits.
Arguments PollData : clear implicits.
Arguments Device : clear implicits.
