(* ===== verification/PollThread.v ===== *)
(** * The polling thread (src/src/server/pollthread.cpp, pollthread.h)

  The state of [PollThread] is the record [PollSt]; each method is a function on
  it: the work list ([insert_in_list], [add_insert_in_list], [tune_list],
  [compute_sleep_time]), the commands the thread receives ([execute_cmd], one
  definition per command code), a poll ([poll_cmd], [poll_attr],
  [one_more_poll], [one_more_trigg]) and one turn of the main loop
  ([loop_step]).  Devices are numbers, a null device pointer is [None].  User
  code (a polled command or attribute), the event suppliers and the clock are
  parameters; user code may itself send polling commands to its own thread. *)
From S2P Require Import Prelude PollRing PollObj.
Local Open Scope Z_scope.

Definition TIME_NEEDED_HEARTBEAT : Z := microseconds 2000.
Definition POLL_LOOP_NB : Z := 500.
Definition DISCARD_THRESHOLD : Z := milliseconds 20.

Inductive PollCmdCode :=
  | POLL_ADD_OBJ | POLL_REM_OBJ | POLL_START | POLL_STOP | POLL_UPD_PERIOD
  | POLL_REM_DEV | POLL_EXIT | POLL_REM_EXT_TRIG_OBJ | POLL_ADD_HEARTBEAT
  | POLL_REM_HEARTBEAT.

Inductive PollCmdType := POLL_TIME_OUT | POLL_COMMAND | POLL_TRIGGER.

(** A [DeviceImpl *]. *)
Abbreviation dev_ptr := (option nat).

Record PollThCmd := mkCmd {
  cmd_pending : bool;
  trigger : bool;
  cmd_code : PollCmdCode;
  cmd_dev : dev_ptr;
  cmd_index : Z;
  cmd_name : string;
  cmd_type : PollObjType;
  new_upd : Z;
}.

Record WorkItem := mkWork {
  w_dev : dev_ptr;
  wake_up_date : Z;
  update : Z;
  w_type : PollObjType;
  w_name : list string;
  needed_time : Z;
}.

Definition set_wake (t : Z) (w : WorkItem) : WorkItem :=
  mkWork (w_dev w) t (update w) (w_type w) (w_name w) (needed_time w).
Definition set_names (n : list string) (w : WorkItem) : WorkItem :=
  mkWork (w_dev w) (wake_up_date w) (update w) (w_type w) n (needed_time w).
Definition set_needed (t : Z) (w : WorkItem) : WorkItem :=
  mkWork (w_dev w) (wake_up_date w) (update w) (w_type w) (w_name w) t.

(** What the thread does to the outside. *)
Inductive EventName := CHANGE_EVENT | ARCHIVE_EVENT | PERIODIC_EVENT.
Inductive Supplier := Notifd | Zmq.
Inductive Action :=
  | PushHeartbeat (s : Supplier)
  | AutoUnsub
  | StoreSubDevices
  | DetectAndPush (s : Supplier) (dev : nat) (att : string) (error : option exn)
  | PushEventLoop (ev : EventName) (dev : nat) (att : string) (error : option exn).

Section PollThread.
Context {Any Elt : Type}.

(** A [WorkItem] that [execute_cmd] does not initialise has an indeterminate
    [needed_time]. *)
Context (indet : Z).

Record PollSt := mkPollSt {
  works : list WorkItem;
  ext_trig_works : list WorkItem;
  local_cmd : PollThCmd;
  shared_cmd : PollThCmd;
  now : Z;
  after : Z;
  sleep : option Z;
  polling_stop : bool;
  tune_ctr : Z;
  need_two_tuning : bool;
  send_heartbeat : bool;
  heartbeat_ctr : Z;
  previous_nb_late : Z;
  polling_bef_9 : bool;
  auto_upd : list (Z * string);
  rem_upd : list (Z * string);
  ignore_call : bool;
  devs : gmap nat (Device Any Elt);
  trace : list Action;
}.

(** Assignments to the members. *)
Definition set_works l s := mkPollSt l (ext_trig_works s) (local_cmd s) (shared_cmd s) (now s)
  (after s) (sleep s) (polling_stop s) (tune_ctr s) (need_two_tuning s) (send_heartbeat s)
  (heartbeat_ctr s) (previous_nb_late s) (polling_bef_9 s) (auto_upd s) (rem_upd s)
  (ignore_call s) (devs s) (trace s).
Definition set_ext l s := mkPollSt (works s) l (local_cmd s) (shared_cmd s) (now s)
  (after s) (sleep s) (polling_stop s) (tune_ctr s) (need_two_tuning s) (send_heartbeat s)
  (heartbeat_ctr s) (previous_nb_late s) (polling_bef_9 s) (auto_upd s) (rem_upd s)
  (ignore_call s) (devs s) (trace s).
Definition set_local_cmd c s := mkPollSt (works s) (ext_trig_works s) c (shared_cmd s) (now s)
  (after s) (sleep s) (polling_stop s) (tune_ctr s) (need_two_tuning s) (send_heartbeat s)
  (heartbeat_ctr s) (previous_nb_late s) (polling_bef_9 s) (auto_upd s) (rem_upd s)
  (ignore_call s) (devs s) (trace s).
Definition set_shared c s := mkPollSt (works s) (ext_trig_works s) (local_cmd s) c (now s)
  (after s) (sleep s) (polling_stop s) (tune_ctr s) (need_two_tuning s) (send_heartbeat s)
  (heartbeat_ctr s) (previous_nb_late s) (polling_bef_9 s) (auto_upd s) (rem_upd s)
  (ignore_call s) (devs s) (trace s).
Definition set_now t s := mkPollSt (works s) (ext_trig_works s) (local_cmd s) (shared_cmd s) t
  (after s) (sleep s) (polling_stop s) (tune_ctr s) (need_two_tuning s) (send_heartbeat s)
  (heartbeat_ctr s) (previous_nb_late s) (polling_bef_9 s) (auto_upd s) (rem_upd s)
  (ignore_call s) (devs s) (trace s).
Definition set_after t s := mkPollSt (works s) (ext_trig_works s) (local_cmd s) (shared_cmd s)
  (now s) t (sleep s) (polling_stop s) (tune_ctr s) (need_two_tuning s) (send_heartbeat s)
  (heartbeat_ctr s) (previous_nb_late s) (polling_bef_9 s) (auto_upd s) (rem_upd s)
  (ignore_call s) (devs s) (trace s).
Definition set_sleep o s := mkPollSt (works s) (ext_trig_works s) (local_cmd s) (shared_cmd s)
  (now s) (after s) o (polling_stop s) (tune_ctr s) (need_two_tuning s) (send_heartbeat s)
  (heartbeat_ctr s) (previous_nb_late s) (polling_bef_9 s) (auto_upd s) (rem_upd s)
  (ignore_call s) (devs s) (trace s).
Definition set_polling_stop b s := mkPollSt (works s) (ext_trig_works s) (local_cmd s)
  (shared_cmd s) (now s) (after s) (sleep s) b (tune_ctr s) (need_two_tuning s)
  (send_heartbeat s) (heartbeat_ctr s) (previous_nb_late s) (polling_bef_9 s) (auto_upd s)
  (rem_upd s) (ignore_call s) (devs s) (trace s).
Definition set_tune c two s := mkPollSt (works s) (ext_trig_works s) (local_cmd s)
  (shared_cmd s) (now s) (after s) (sleep s) (polling_stop s) c two (send_heartbeat s)
  (heartbeat_ctr s) (previous_nb_late s) (polling_bef_9 s) (auto_upd s) (rem_upd s)
  (ignore_call s) (devs s) (trace s).
Definition set_heartbeat_ctr c s := mkPollSt (works s) (ext_trig_works s) (local_cmd s)
  (shared_cmd s) (now s) (after s) (sleep s) (polling_stop s) (tune_ctr s) (need_two_tuning s)
  (send_heartbeat s) c (previous_nb_late s) (polling_bef_9 s) (auto_upd s) (rem_upd s)
  (ignore_call s) (devs s) (trace s).
Definition set_previous_nb_late n s := mkPollSt (works s) (ext_trig_works s) (local_cmd s)
  (shared_cmd s) (now s) (after s) (sleep s) (polling_stop s) (tune_ctr s) (need_two_tuning s)
  (send_heartbeat s) (heartbeat_ctr s) n (polling_bef_9 s) (auto_upd s) (rem_upd s)
  (ignore_call s) (devs s) (trace s).
Definition set_upds au ru s := mkPollSt (works s) (ext_trig_works s) (local_cmd s)
  (shared_cmd s) (now s) (after s) (sleep s) (polling_stop s) (tune_ctr s) (need_two_tuning s)
  (send_heartbeat s) (heartbeat_ctr s) (previous_nb_late s) (polling_bef_9 s) au ru
  (ignore_call s) (devs s) (trace s).
Definition set_ignore_call b s := mkPollSt (works s) (ext_trig_works s) (local_cmd s)
  (shared_cmd s) (now s) (after s) (sleep s) (polling_stop s) (tune_ctr s) (need_two_tuning s)
  (send_heartbeat s) (heartbeat_ctr s) (previous_nb_late s) (polling_bef_9 s) (auto_upd s)
  (rem_upd s) b (devs s) (trace s).
Definition set_devs d s := mkPollSt (works s) (ext_trig_works s) (local_cmd s)
  (shared_cmd s) (now s) (after s) (sleep s) (polling_stop s) (tune_ctr s) (need_two_tuning s)
  (send_heartbeat s) (heartbeat_ctr s) (previous_nb_late s) (polling_bef_9 s) (auto_upd s)
  (rem_upd s) (ignore_call s) d (trace s).
Definition act (a : Action) s := mkPollSt (works s) (ext_trig_works s) (local_cmd s)
  (shared_cmd s) (now s) (after s) (sleep s) (polling_stop s) (tune_ctr s) (need_two_tuning s)
  (send_heartbeat s) (heartbeat_ctr s) (previous_nb_late s) (polling_bef_9 s) (auto_upd s)
  (rem_upd s) (ignore_call s) (devs s) (trace s ++ [a]).

(** ** The work list *)

Fixpoint insert_in_list (new_work : WorkItem) (l : list WorkItem) : list WorkItem :=
  match l with
  | [] => [new_work]
  | w :: l' =>
      if wake_up_date w <? wake_up_date new_work then w :: insert_in_list new_work l'
      else new_work :: l
  end.

Definition same_group (d : dev_ptr) (upd : Z) (ty : PollObjType) (w : WorkItem) : bool :=
  bool_decide (w_dev w = d) && (update w =? upd) && bool_decide (w_type w = ty).

(** [find_if] on the work list, then [ite->name.push_back]. *)
Fixpoint push_name (d : dev_ptr) (upd : Z) (ty : PollObjType) (nm : string) (l : list WorkItem)
    : option (list WorkItem) :=
  match l with
  | [] => None
  | w :: l' =>
      if same_group d upd ty w then Some (set_names (w_name w ++ [nm]) w :: l')
      else cons w <$> push_name d upd ty nm l'
  end.

Definition dev_of (p : dev_ptr) (s : PollSt) : outcome (Device Any Elt) :=
  i ← deref p; deref (devs s !! i).

(** [add_insert_in_list] (the tests are in the order of the C++ condition). *)
Definition groupable (d : dev_ptr) (ty : PollObjType) (s : PollSt) : outcome bool :=
  if bool_decide (ty = POLL_ATTR) then
    d ← dev_of d s;
    Ok ((dev_idl_version d >=? 4) && negb (polling_bef_9 s))
  else Ok false.

Definition add_insert_in_list (new_work : WorkItem) (s : PollSt) : outcome PollSt :=
  g ← groupable (w_dev new_work) (w_type new_work) s;
  if (g : bool) then
    nm ← deref (w_name new_work !! 0%nat);
    match push_name (w_dev new_work) (update new_work) (w_type new_work) nm (works s) with
    | Some l => Ok (set_works l s)
    | None => Ok (set_works (insert_in_list new_work (works s)) s)
    end
  else Ok (set_works (insert_in_list new_work (works s)) s).

(** The removal loop of POLL_REM_OBJ and POLL_UPD_PERIOD: the first item of that
    device and type that has the name loses it, and goes when it has no name
    left. *)
Fixpoint erase_name (nm : string) (l : list string) : option (list string) :=
  match l with
  | [] => None
  | x :: l => if bool_decide (x = nm) then Some l else cons x <$> erase_name nm l
  end.

Fixpoint rem_obj (d : dev_ptr) (ty : PollObjType) (nm : string) (l : list WorkItem)
    : list WorkItem * bool :=
  match l with
  | [] => ([], false)
  | w :: l' =>
      match (if bool_decide (w_dev w = d) && bool_decide (w_type w = ty)
             then erase_name nm (w_name w) else None) with
      | Some [] => (l', true)
      | Some names => (set_names names w :: l', true)
      | None => let '(r, b) := rem_obj d ty nm l' in (w :: r, b)
      end
  end.

(** The search of the externally triggered list; [name[0]] of an item. *)
Fixpoint rem_ext_trig (d : dev_ptr) (ty : PollObjType) (nm : string) (l : list WorkItem)
    : outcome (option (list WorkItem)) :=
  match l with
  | [] => Ok None
  | w :: l' =>
      if bool_decide (w_dev w = d) && bool_decide (w_type w = ty) then
        n0 ← deref (w_name w !! 0%nat);
        if bool_decide (n0 = nm) then Ok (Some l')
        else r ← rem_ext_trig d ty nm l'; Ok (cons w <$> (r : option (list WorkItem)))
      else r ← rem_ext_trig d ty nm l'; Ok (cons w <$> (r : option (list WorkItem)))
  end.

(** ** Commands *)

Definition cmd_done (s : PollSt) : PollSt :=
  let c := shared_cmd s in
  set_shared (mkCmd false (trigger c) (cmd_code c) (cmd_dev c) (cmd_index c) (cmd_name c)
                (cmd_type c) (new_upd c)) s.

(** The element of the device poll list at [local_cmd.index]. *)
Definition cmd_poll_obj (s : PollSt) : outcome (PollObj Any Elt) :=
  d ← dev_of (cmd_dev (local_cmd s)) s;
  vget (poll_obj_list d) (cmd_index (local_cmd s)).

Definition exec_add_obj (s : PollSt) : outcome PollSt :=
  let c := local_cmd s in
  o ← cmd_poll_obj s;
  g ← groupable (cmd_dev c) (po_type o) s;
  let grouped := if (g : bool) then push_name (cmd_dev c) (po_upd o) (po_type o) (po_name o) (works s) else None in
  match grouped with
  | Some l => Ok (set_works l s)
  | None =>
      if negb (po_upd o =? 0) then
        let wake := if negb (new_upd c =? 0) then now s + new_upd c else now s in
        let wo := mkWork (cmd_dev c) wake (po_upd o) (po_type o) [po_name o] 0 in
        let l := insert_in_list wo (works s) in
        Ok (set_tune (Z.of_nat (length l) * 4) true (set_works l s))
      else
        let wo := mkWork (cmd_dev c) 0 (po_upd o) (po_type o) [po_name o] 0 in
        Ok (set_ext (ext_trig_works s ++ [wo]) s)
  end.

Definition exec_rem_obj (s : PollSt) : outcome PollSt :=
  let c := local_cmd s in
  Ok (set_works (fst (rem_obj (cmd_dev c) (cmd_type c) (cmd_name c) (works s))) s).

Definition exec_rem_ext_trig_obj (s : PollSt) : outcome PollSt :=
  let c := local_cmd s in
  r ← rem_ext_trig (cmd_dev c) (cmd_type c) (cmd_name c) (ext_trig_works s);
  match r with Some l => Ok (set_ext l s) | None => Ok s end.

Definition exec_rem_dev (s : PollSt) : outcome PollSt :=
  let other (w : WorkItem) := negb (bool_decide (w_dev w = cmd_dev (local_cmd s))) in
  Ok (set_ext (List.filter other (ext_trig_works s)) (set_works (List.filter other (works s)) s)).

(** POLL_UPD_PERIOD with a new period: only when the work list is not empty. *)
Definition upd_in_works (s : PollSt) : outcome (PollSt * bool) :=
  let c := local_cmd s in
  match works s with
  | [] => Ok (s, false)
  | _ :: _ =>
      let '(l, found) := rem_obj (cmd_dev c) (cmd_type c) (cmd_name c) (works s) in
      let now' := now s + new_upd c in
      let tmp_work := mkWork (cmd_dev c) now' (new_upd c) (cmd_type c) [cmd_name c] 0 in
      s ← add_insert_in_list tmp_work (set_now now' (set_works l s));
      let s := set_tune 0 (need_two_tuning s) s in
      Ok (if found then s else set_upds (auto_upd s) (rem_upd s ++ [(new_upd c, cmd_name c)]) s, true)
  end.

(** POLL_UPD_PERIOD with period zero: to the externally triggered list. *)
Definition upd_to_ext_trig (s : PollSt) : outcome (PollSt * bool * list string) :=
  let c := local_cmd s in
  let '(l, found) := rem_obj (cmd_dev c) (cmd_type c) (cmd_name c) (works s) in
  o ← cmd_poll_obj s;
  let wo := mkWork (cmd_dev c) 0 (po_upd o) (po_type o) [po_name o] indet in
  Ok (set_ext (ext_trig_works s ++ [wo]) (set_works l s), found, [po_name o]).

Definition exec_upd_period (s : PollSt) : outcome PollSt :=
  let c := local_cmd s in
  '(s, found_in_work_list, wo_names) ←
    (if negb (new_upd c =? 0)
     then '(s, f) ← upd_in_works s; Ok (s, f, [])
     else upd_to_ext_trig s);
  if (found_in_work_list : bool) then Ok s
  else
    r ← rem_ext_trig (cmd_dev c) (cmd_type c) (cmd_name c) (ext_trig_works s);
    match r with
    | Some l =>
        let wo := mkWork (cmd_dev c) (now s) (new_upd c) (cmd_type c) (wo_names ++ [cmd_name c]) indet in
        Ok (set_works (insert_in_list wo (works s)) (set_ext l s))
    | None => Ok (set_upds (auto_upd s ++ [(new_upd c, cmd_name c)]) (rem_upd s) s)
    end.

Definition exec_add_heartbeat (s : PollSt) : outcome PollSt :=
  let wo := mkWork None (now s) (milliseconds 9000) EVENT_HEARTBEAT ["Event heartbeat"%string]
              TIME_NEEDED_HEARTBEAT in
  Ok (set_works (insert_in_list wo (works s)) s).

Fixpoint rem_first_heartbeat (l : list WorkItem) : list WorkItem :=
  match l with
  | [] => []
  | w :: l' => if bool_decide (w_type w = EVENT_HEARTBEAT) then l' else w :: rem_first_heartbeat l'
  end.
Definition exec_rem_heartbeat (s : PollSt) : outcome PollSt :=
  Ok (set_works (rem_first_heartbeat (works s)) s).

Definition execute_cmd (s : PollSt) : outcome PollSt :=
  s ← match cmd_code (local_cmd s) with
      | POLL_ADD_OBJ => exec_add_obj s
      | POLL_REM_OBJ => exec_rem_obj s
      | POLL_REM_EXT_TRIG_OBJ => exec_rem_ext_trig_obj s
      | POLL_REM_DEV => exec_rem_dev s
      | POLL_UPD_PERIOD => exec_upd_period s
      | POLL_ADD_HEARTBEAT => exec_add_heartbeat s
      | POLL_REM_HEARTBEAT => exec_rem_heartbeat s
      | POLL_START => Ok (set_polling_stop false s)
      | POLL_STOP => Ok (set_polling_stop true s)
      | POLL_EXIT => Exc (OtherExc "omni_thread::exit")
      end;
  Ok (cmd_done s).



(** ** The rest of the program, as the thread sees it *)

(** A call of user code (a command or the reading of attributes) by a poll:
    the dates before and after it, the polling commands the user code sends to
    its own thread (each with the devices at that moment), the devices at the
    end, and what the call returns.  [poll_monitor] is false when the poll
    monitor of the device then times out. *)
Record UserCall (R : Type) := mkUserCall {
  before_cmd : Z;
  after_cmd : Z;
  nested : list (gmap nat (Device Any Elt) * PollThCmd);
  devs_after : gmap nat (Device Any Elt);
  uc_result : exn + R;
  poll_monitor : bool;
}.

Arguments before_cmd {R} _.
Arguments after_cmd {R} _.
Arguments nested {R} _.
Arguments devs_after {R} _.
Arguments uc_result {R} _.
Arguments poll_monitor {R} _.

Record SendEventType := mkSend { ev_change : bool; ev_archive : bool; ev_periodic : bool }.

(** [call_cmd] is [command_inout], [call_attr] [read_attributes(_3/_4/_5)];
    [att_events] tells whether an attribute uses notifd and zmq events, [None]
    when the device has no such attribute; [suppliers] are the event suppliers
    that exist, and [detect] the result of [detect_and_push_events]. *)
Record Env := mkEnv {
  call_cmd : PollSt → nat → string → UserCall Any;
  call_attr : PollSt → nat → list string → UserCall (list (AttributeValue Elt));
  att_events : nat → string → option (bool * bool);
  suppliers : Supplier → bool;
  one_subscription_cmd : Supplier → bool;
  detect : Supplier → nat → string → option exn → SendEventType;
}.

Context (env : Env).

(** A method that throws keeps what it did before: its outcome is the state and
    the exception, if any. *)
Definition get_attr_by_name (d : nat) (nm : string) : exn + (bool * bool) :=
  match att_events env d nm with
  | Some u => inr u
  | None => inl (DevFailed [mkDevError "API_AttrNotFound" ERR (nm +:+ " attribute not found")
                              "MultiAttribute::get_attr_by_name"])
  end.

Definition ev_flag (ev : EventName) (t : SendEventType) : bool :=
  match ev with CHANGE_EVENT => ev_change t | ARCHIVE_EVENT => ev_archive t
           | PERIODIC_EVENT => ev_periodic t end.

(** Detection by one supplier only; with both, the second one pushes what the
    first one detected, in the given order. *)
Definition fire_events (nd zmq : bool) (order : list EventName) (d : nat) (nm : string)
    (err : option exn) (s : PollSt) : PollSt :=
  if nd then
    let send_event := detect env Notifd d nm err in
    let s := act (DetectAndPush Notifd d nm err) s in
    if zmq then
      fold_left (λ s ev, if ev_flag ev send_event then act (PushEventLoop ev d nm err) s else s) order s
    else s
  else if zmq then act (DetectAndPush Zmq d nm err) s
  else s.

(** The loop on the names of an item: once an attribute has selected a supplier,
    it is used for the next ones too. *)
Fixpoint event_loop (order : list EventName) (d : nat) (err_of : nat → outcome (option exn))
    (ctr : nat) (nd zmq : bool) (names : list string) (s : PollSt) : outcome (PollSt * option exn) :=
  match names with
  | [] => Ok (s, None)
  | nm :: names =>
      match get_attr_by_name d nm with
      | inl e => Ok (s, Some e)
      | inr (use_notifd, use_zmq) =>
          let nd := nd || (use_notifd && suppliers env Notifd) in
          let zmq := zmq || (use_zmq && suppliers env Zmq) in
          if nd || zmq then
            err ← err_of ctr;
            event_loop order d err_of (S ctr) nd zmq names (fire_events nd zmq order d nm err s)
          else event_loop order d err_of (S ctr) nd zmq names s
      end
  end.

Definition out_of_sync : exn :=
  DevFailed [mkDevError "API_PollThreadOutOfSync" ERR
    "The polling thread is late and discard this object polling. Advice: Tune device server polling"
    "PollThread::err_out_of_sync"].

Definition err_out_of_sync (to_do : WorkItem) (s : PollSt) : outcome (PollSt * option exn) :=
  match w_name to_do with
  | [] => Ok (s, None)
  | names =>
      d ← deref (w_dev to_do);
      event_loop [CHANGE_EVENT; ARCHIVE_EVENT; PERIODIC_EVENT] d (λ _, Ok (Some out_of_sync))
        0 false false names s
  end.

(** ** A poll *)

(** User code that sends commands to its own thread: [set_local_cmd] and
    [execute_cmd], without the monitor. *)
Fixpoint run_nested (l : list (gmap nat (Device Any Elt) * PollThCmd)) (s : PollSt) : outcome PollSt :=
  match l with
  | [] => Ok s
  | (d, c) :: l => s ← execute_cmd (set_local_cmd c (set_devs d s)); run_nested l s
  end.
Definition run_user {R} (uc : UserCall R) (s : PollSt) : outcome PollSt :=
  set_devs (devs_after uc) <$> run_nested (nested uc) s.

(** The result goes in the ring of the polled object, or is forgotten when the
    object is not polled any more or the poll monitor is not available. *)
Definition store_polled (ty : PollObjType) (nm : string) (f : PollObj Any Elt → outcome (PollObj Any Elt))
    (d : Device Any Elt) : outcome (option (Device Any Elt)) :=
  match get_polled_obj_by_type_name d ty nm with
  | Ok k => Some <$> on_polled_obj f k d
  | Exc _ => Ok None
  | Undef => Undef
  end.

Definition cmd_stored (res : DevErrorList + Any) (when needed : Z) : PollObj Any Elt → outcome (PollObj Any Elt) :=
  match res with
  | inr argout => insert_data (CmdData argout) when needed
  | inl save_except => insert_except_obj save_except when needed
  end.

Definition set_dev (i : nat) (d : Device Any Elt) (s : PollSt) : PollSt := set_devs (<[i := d]> (devs s)) s.

Definition cmd_store (i : nat) (ty : PollObjType) (nm : string) (ok : bool)
    (f : PollObj Any Elt → outcome (PollObj Any Elt)) (s : PollSt) : outcome PollSt :=
  if ok then
    d ← deref (devs s !! i);
    r ← store_polled ty nm f d;
    match r with Some d => Ok (set_dev i d s) | None => Ok s end
  else Ok s.

Definition poll_cmd (to_do : WorkItem) (s : PollSt) : outcome (PollSt * option exn * WorkItem) :=
  i ← deref (w_dev to_do);
  nm ← deref (w_name to_do !! 0%nat);
  let uc := call_cmd env s i nm in
  s ← run_user uc s;
  let needed_time := after_cmd uc - before_cmd uc in
  let store (res : DevErrorList + Any) :=
    s ← cmd_store i (w_type to_do) nm (poll_monitor uc) (cmd_stored res (before_cmd uc) needed_time) s;
    Ok (s, None, set_needed needed_time to_do) in
  match uc_result uc with
  | inl (OtherExc e) => Ok (s, Some (OtherExc e), to_do)
  | inl (DevFailed errs) => store (inl errs)
  | inr argout => store (inr argout)
  end.

(** Since IDL 3 an attribute in error is a value with an error list: with one
    attribute (and always with IDL 3) it becomes the exception of the call. *)
Definition recreate_except (idl_vers : Z) (nb_obj : nat) (l : list (AttributeValue Elt))
    : outcome (DevErrorList + list (AttributeValue Elt)) :=
  if (idl_vers >=? 3) && ((idl_vers =? 3) || (nb_obj =? 1)%nat) then
    av ← deref (l !! 0%nat);
    match av_err_list av with [] => Ok (inr l) | errs => Ok (inl errs) end
  else Ok (inr l).

(** With several attributes, [map_except] keeps the errors of each. *)
Definition err_at (l : list (AttributeValue Elt)) (ctr : nat) : outcome (option DevErrorList) :=
  av ← deref (l !! ctr);
  Ok (match av_err_list av with [] => None | errs => Some errs end).
Fixpoint err_map (l : list (AttributeValue Elt)) (ctr nb : nat) : outcome (list (option DevErrorList)) :=
  match nb with
  | O => Ok []
  | S nb => e ← err_at l ctr; m ← err_map l (S ctr) nb; Ok (e :: m)
  end.
Definition map_except (idl_vers : Z) (nb_obj : nat) (res : DevErrorList + list (AttributeValue Elt))
    : outcome (list (option DevErrorList)) :=
  match res with
  | inr l => if (idl_vers >=? 4) && negb (nb_obj =? 1)%nat then err_map l 0 nb_obj else Ok []
  | inl _ => Ok []
  end.
Definition except_of (m : list (option DevErrorList)) (ctr : nat) : option DevErrorList :=
  match m !! ctr with Some e => e | None => None end.

(** [robb_data] and [copy_remaining]: the value for a single attribute. *)
Definition robb (av : AttributeValue Elt) : AttributeValue Elt :=
  mkAV (mkUnion (union_d (av_value av)) (union_seq (av_value av))) (av_quality av) (av_time av)
    (av_r_dim av) (av_w_dim av) (av_err_list av).

Definition attr_data (idl_vers : Z) (l : list (AttributeValue Elt)) : PollData Any Elt :=
  if idl_vers >=? 5 then AttrData_5 l
  else if idl_vers =? 4 then AttrData_4 l
  else if idl_vers =? 3 then AttrData_3 l
  else AttrData l.

Definition attr_stored (idl_vers : Z) (nb_obj ctr : nat) (res : DevErrorList + list (AttributeValue Elt))
    (m : list (option DevErrorList)) (when needed : Z) (o : PollObj Any Elt) : outcome (PollObj Any Elt) :=
  match res with
  | inl save_except => insert_except_obj save_except when needed o
  | inr l =>
      if (nb_obj =? 1)%nat then insert_data (attr_data idl_vers l) when needed o
      else match except_of m ctr with
      | Some e => insert_except_obj e when needed o
      | None =>
          av ← (if idl_vers >=? 4 then deref (l !! ctr) else Undef);
          insert_data (if idl_vers >=? 5 then AttrData_5 [robb av] else AttrData_4 [robb av]) when needed o
      end
  end.

(** The loop under the poll monitor: it stops at the first attribute that is not
    polled any more. *)
Fixpoint attrs_store (store : nat → PollObj Any Elt → outcome (PollObj Any Elt)) (ty : PollObjType)
    (ctr : nat) (names : list string) (d : Device Any Elt) : outcome (Device Any Elt) :=
  match names with
  | [] => Ok d
  | nm :: names =>
      r ← store_polled ty nm (store ctr) d;
      match r with
      | Some d => attrs_store store ty (S ctr) names d
      | None => Ok d
      end
  end.

(** What the event loop reports for attribute [ctr]. *)
Definition event_err (res : DevErrorList + list (AttributeValue Elt)) (m : list (option DevErrorList))
    (ctr : nat) : outcome (option exn) :=
  match res with
  | inl errs => Ok (Some (DevFailed errs))
  | inr l => _ ← deref (l !! ctr); Ok (DevFailed <$> except_of m ctr)
  end.
Definition event_order (res : DevErrorList + list (AttributeValue Elt)) : list EventName :=
  match res with
  | inl _ => [CHANGE_EVENT; ARCHIVE_EVENT; PERIODIC_EVENT]
  | inr _ => [CHANGE_EVENT; PERIODIC_EVENT; ARCHIVE_EVENT]
  end.

(** From the result of the reading on. *)
Definition attr_result (to_do : WorkItem) (i : nat) (idl_vers when needed : Z) (ok : bool)
    (res : DevErrorList + list (AttributeValue Elt)) (s : PollSt) : outcome (PollSt * option exn) :=
  let nb_obj := length (w_name to_do) in
  res ← match res with inl e => Ok (inl e) | inr l => recreate_except idl_vers nb_obj l end;
  m ← map_except idl_vers nb_obj res;
  '(s, e) ← event_loop (event_order res) i (event_err res m) 0 false false (w_name to_do) s;
  match e with
  | Some e => Ok (s, Some e)
  | None =>
      if ok then
        d ← deref (devs s !! i);
        d ← attrs_store (λ ctr, attr_stored idl_vers nb_obj ctr res m when needed) (w_type to_do)
              0 (w_name to_do) d;
        Ok (set_dev i d s, None)
      else Ok (s, None)
  end.

Definition poll_attr (to_do : WorkItem) (s : PollSt) : outcome (PollSt * option exn * WorkItem) :=
  i ← deref (w_dev to_do);
  dev ← deref (devs s !! i);
  let uc := call_attr env s i (w_name to_do) in
  s ← run_user uc s;
  let needed_time := after_cmd uc - before_cmd uc in
  let to_do' := set_needed needed_time to_do in
  let result res := 
    '(s, e) ← attr_result to_do i (dev_idl_version dev) (before_cmd uc) needed_time (poll_monitor uc) res s;
    Ok (s, e, to_do') in
  match uc_result uc with
  | inl (OtherExc e) => Ok (s, Some (OtherExc e), to_do)
  | inl (DevFailed errs) => result (inl errs)
  | inr l => result (inr l)
  end.

Definition push_heartbeat (sup : Supplier) (s : PollSt) : PollSt :=
  if suppliers env sup && send_heartbeat s && one_subscription_cmd env sup
  then act (PushHeartbeat sup) s else s.
Definition eve_heartbeat (s : PollSt) : PollSt := push_heartbeat Notifd (push_heartbeat Zmq s).

Definition store_subdev (s : PollSt) : PollSt :=
  if ignore_call s then set_ignore_call false s else act StoreSubDevices s.

(** [heartbeat_ctr] is an [unsigned int]. *)
Definition heartbeat_poll (s : PollSt) : PollSt :=
  let s := eve_heartbeat s in
  let s := set_heartbeat_ctr ((heartbeat_ctr s + 1) mod 2 ^ 32) s in
  if heartbeat_ctr s mod 3 =? 0 then act AutoUnsub s else s.

Definition do_poll (tmp : WorkItem) (s : PollSt) : outcome (PollSt * option exn * WorkItem) :=
  if polling_stop s then Ok (s, None, tmp)
  else match w_type tmp with
  | POLL_CMD => poll_cmd tmp s
  | POLL_ATTR => poll_attr tmp s
  | EVENT_HEARTBEAT => Ok (heartbeat_poll s, None, tmp)
  | STORE_SUBDEV => Ok (store_subdev s, None, tmp)
  end.

(** ** Rescheduling *)

(** [remove] and [erase]: every occurrence of the names to move. *)
Definition remove_names (upds : list (Z * string)) (names : list string) : list string :=
  fold_left (λ names e, List.filter (λ nm, negb (bool_decide (nm = snd e))) names) upds names.

Definition next_date (w : WorkItem) : WorkItem := set_wake (wake_up_date w + update w) w.

Definition reinsert_named (tmp : WorkItem) (s : PollSt) : PollSt :=
  match w_name tmp with
  | [] => s
  | _ :: _ => set_works (insert_in_list (next_date tmp) (works s)) s
  end.

(** One entry of [auto_upd]: the item polled changed its own period. *)
Definition auto_upd_one (tmp : WorkItem) (s : PollSt) (entry : Z * string) : PollSt :=
  match push_name (w_dev tmp) (fst entry) (w_type tmp) (snd entry) (works s) with
  | Some l => set_works l s
  | None =>
      let now' := now s + new_upd (local_cmd s) in
      let new_tmp := mkWork (w_dev tmp) now' (fst entry) (w_type tmp) [snd entry] 0 in
      set_works (insert_in_list new_tmp (works s)) (set_now now' s)
  end.

Definition reschedule (tmp : WorkItem) (s : PollSt) : PollSt :=
  match auto_upd s, rem_upd s with
  | (_ :: _) as au, _ =>
      let tmp := set_names (remove_names au (w_name tmp)) tmp in
      let s := fold_left (auto_upd_one tmp) au (reinsert_named tmp s) in
      set_upds [] (rem_upd s) s
  | [], (_ :: _) as ru =>
      let tmp := set_names (remove_names ru (w_name tmp)) tmp in
      set_upds [] [] (reinsert_named tmp s)
  | [], [] => set_works (insert_in_list (next_date tmp) (works s)) s
  end.

(** An exception leaves before the rescheduling: the item is then in no list. *)
Definition one_more_poll (s : PollSt) : outcome (PollSt * option exn) :=
  match works s with
  | [] => Undef
  | tmp :: l =>
      '(s, e, tmp) ← do_poll tmp (set_works l s);
      match e with
      | Some e => Ok (s, Some e)
      | None => let s := reschedule tmp s in Ok (set_tune (tune_ctr s - 1) (need_two_tuning s) s, None)
      end
  end.

Definition trigger_done (s : PollSt) : PollSt :=
  let c := shared_cmd s in
  set_shared (mkCmd (cmd_pending c) false (cmd_code c) (cmd_dev c) (cmd_index c) (cmd_name c)
                (cmd_type c) (new_upd c)) s.

Fixpoint find_ext_trig (d : dev_ptr) (ty : PollObjType) (nm : string) (l : list WorkItem)
    : outcome (option WorkItem) :=
  match l with
  | [] => Ok None
  | w :: l =>
      if bool_decide (w_dev w = d) && bool_decide (w_type w = ty) then
        n0 ← deref (w_name w !! 0%nat);
        if bool_decide (n0 = nm) then Ok (Some w) else find_ext_trig d ty nm l
      else find_ext_trig d ty nm l
  end.

Definition one_more_trigg (s : PollSt) : outcome (PollSt * option exn) :=
  let c := local_cmd s in
  w ← find_ext_trig (cmd_dev c) (cmd_type c) (cmd_name c) (ext_trig_works s);
  match w with
  | None => Ok (trigger_done s, None)
  | Some tmp =>
      '(s, e, _) ← (if polling_stop s then Ok (s, None, tmp)
                     else if bool_decide (w_type tmp = POLL_CMD) then poll_cmd tmp s
                     else poll_attr tmp s);
      match e with Some e => Ok (s, Some e) | None => Ok (trigger_done s, None) end
  end.


(** ** Tuning *)

Definition needed_sum (l : list WorkItem) : Z := foldr (λ w a, needed_time w + a) 0 l.
Definition min_upd (l : list WorkItem) : Z :=
  match l with [] => 0 | w :: l => fold_left (λ m w, if m >? update w then update w else m) l (update w) end.

(** The date of the poll of the previous item just before [next_work]. *)
Definition next_prev (prev : WorkItem) (next_work : Z) : outcome Z :=
  if next_work >? wake_up_date prev then
    if update prev =? 0 then Undef
    else Ok (wake_up_date prev + Z.quot (next_work - wake_up_date prev) (update prev) * update prev)
  else Ok (wake_up_date prev).

Fixpoint tune_from (next_tuning max_delta_needed : Z) (prev : WorkItem) (l : list WorkItem)
    : outcome (list WorkItem) :=
  match l with
  | [] => Ok []
  | wo :: l =>
      wo ← (if wake_up_date wo <? next_tuning then
              np ← next_prev prev (wake_up_date wo);
              Ok (set_wake (np + (needed_time prev + max_delta_needed)) wo)
            else Ok wo);
      l' ← tune_from next_tuning max_delta_needed wo l;
      Ok (wo :: l')
  end.

(** The list after the tuning with respect to the needed times. *)
Definition tune_needed (nw : Z) (l : list WorkItem) : outcome (list WorkItem) :=
  match l with
  | w :: (_ :: _) as rest =>
      if needed_sum l >? min_upd l then Ok l
      else
        let max_delta_needed := Z.quot (min_upd l - needed_sum l) (Z.of_nat (length l)) in
        rest' ← tune_from (nw + POLL_LOOP_NB * min_upd l) max_delta_needed w rest;
        Ok (w :: rest')
  | _ => Ok l
  end.

(** The other tuning: a work is never before the previous one. *)
Fixpoint shift_late (prev : WorkItem) (l : list WorkItem) : list WorkItem :=
  match l with
  | [] => []
  | w :: l =>
      let diff := wake_up_date w - wake_up_date prev in
      let w := if diff <? 0 then set_wake (wake_up_date w - diff) w else w in
      w :: shift_late w l
  end.

Definition tune_list (from_needed : bool) (s : PollSt) : outcome PollSt :=
  if from_needed then l ← tune_needed (now s) (works s); Ok (set_works l s)
  else Ok (set_works match works s with w :: l => w :: shift_late w l | [] => [] end s).

(** ** How long to sleep *)

Definition is_late (aft : Z) (w : WorkItem) : bool := aft - wake_up_date w >? DISCARD_THRESHOLD.
Definition nb_late (aft : Z) (l : list WorkItem) : Z := Z.of_nat (length (List.filter (is_late aft) l)).

(** Discard the front item: an error event for an attribute, the item inserted at
    its next date, then the front of the list removed. *)
Definition discard_one (tmp : WorkItem) (s : PollSt) : outcome (PollSt * option exn) :=
  '(s, e) ← (if bool_decide (w_type tmp = POLL_ATTR) then err_out_of_sync tmp s else Ok (s, None));
  match e with
  | Some e => Ok (s, Some e)
  | None =>
      let s := set_works (tail (insert_in_list (next_date tmp) (works s))) s in
      Ok (set_tune (tune_ctr s - 1) (need_two_tuning s) s, None)
  end.

(** The loop: out of fuel is [None]. *)
Fixpoint discard_loop (fuel : nat) (s : PollSt) : option (outcome (PollSt * option exn)) :=
  match fuel with
  | O => None
  | S fuel =>
      match works s with
      | [] => Some Undef
      | tmp :: _ =>
          if is_late (after s) tmp then
            match discard_one tmp s with
            | Ok (s, None) => discard_loop fuel s
            | r => Some r
            end
          else Some (Ok (s, None))
      end
  end.

Definition sleep_until (next : Z) (s : PollSt) : PollSt :=
  if Z.abs (next - after s) <? DISCARD_THRESHOLD then set_sleep None s
  else set_sleep (Some (next - after s)) s.

Definition front_sleep (fuel : nat) (s : PollSt) : option (outcome (PollSt * option exn)) :=
  match works s with
  | [] => Some Undef
  | w :: _ =>
      let next := wake_up_date w in
      if next <? after s then
        if after s - next <? DISCARD_THRESHOLD then Some (Ok (set_sleep None s, None))
        else match discard_loop fuel s with
        | Some (Ok (s, None)) =>
            match works s with
            | [] => Some Undef
            | w :: _ => Some (Ok (sleep_until (wake_up_date w) s, None))
            end
        | r => r
        end
      else Some (Ok (set_sleep (Some (next - after s)) s, None))
  end.

(** Are the late items to be discarded? And the memory of their number. *)
Definition late_policy (s : PollSt) : bool * PollSt :=
  let n := nb_late (after s) (works s) in
  if polling_bef_9 s then (true, s)
  else if n =? 0 then (false, s)
  else if n =? Z.of_nat (length (works s)) then (true, s)
  else if negb (previous_nb_late s =? 0) then
    if n <? previous_nb_late s then (false, set_sleep None (set_previous_nb_late n s))
    else (true, set_sleep None (set_previous_nb_late 0 s))
  else (false, set_sleep None (set_previous_nb_late n s)).

Definition compute_sleep_time (fuel : nat) (s : PollSt) : option (outcome (PollSt * option exn)) :=
  match works s with
  | [] => Some (Ok (s, None))
  | _ :: _ =>
      let n := if polling_bef_9 s then 0 else nb_late (after s) (works s) in
      let '(discard, s) := late_policy s in
      if (n =? 0) || discard then front_sleep fuel (set_previous_nb_late 0 s)
      else Some (Ok (s, None))
  end.

(** The number of discards a list can need. *)
Definition late_count (aft : Z) (w : WorkItem) : nat :=
  Z.to_nat ((aft - wake_up_date w) / update w + 1).
Definition discard_fuel (aft : Z) (l : list WorkItem) : nat :=
  S (foldr (λ w n, (late_count aft w + n)%nat) 0%nat l).

(** ** The main loop *)

(** [get_command]: [arrived] is what another thread left in the shared buffer
    when the wait ends.  With no sleep at all the buffer is not looked at. *)
Definition get_command (arrived : PollThCmd) (s : PollSt) : PollCmdType * PollSt :=
  match sleep s with
  | Some 0 => (POLL_TIME_OUT, s)
  | _ =>
      let s := set_shared arrived s in
      if cmd_pending arrived then (POLL_COMMAND, set_local_cmd arrived s)
      else if trigger arrived then (POLL_TRIGGER, set_local_cmd arrived s)
      else (POLL_TIME_OUT, s)
  end.

Definition serve (received : PollCmdType) (s : PollSt) : outcome (PollSt * option exn) :=
  match received with
  | POLL_COMMAND => s ← execute_cmd s; Ok (s, None)
  | POLL_TIME_OUT => one_more_poll s
  | POLL_TRIGGER => one_more_trigg s
  end.

Definition tune_turn (s : PollSt) : outcome PollSt :=
  if tune_ctr s <=? 0 then
    s ← tune_list true s;
    Ok (if need_two_tuning s then set_tune (Z.of_nat (length (works s)) * 4) false s
        else set_tune POLL_LOOP_NB (need_two_tuning s) s)
  else Ok s.

(** One turn of the infinite loop of [run_undetached], with the two readings of
    the clock; every exception but [omni_thread::exit] re-enters the loop. *)
Definition loop_step (arrived : PollThCmd) (t_now t_after : Z) (s : PollSt) : outcome PollSt :=
  let '(received, s) := get_command arrived s in
  '(s, e) ← serve received (set_now t_now s);
  match e with
  | Some _ => Ok s
  | None =>
      s ← tune_turn (set_after t_after s);
      match compute_sleep_time (discard_fuel (after s) (works s)) s with
      | Some (Ok (s, _)) => Ok s
      | Some (Exc e) => Exc e
      | _ => Undef
      end
  end.

(** The start of [run_undetached] in the heartbeat thread. *)
Definition first_works (t_now : Z) (s : PollSt) : PollSt :=
  if send_heartbeat s then
    let wo := mkWork None t_now (minutes 30) STORE_SUBDEV ["Sub device property storage"%string] 0 in
    set_works (insert_in_list wo (works s)) (set_now t_now s)
  else s.

End PollThread.
Arguments PollSt : clear implicits.
Arguments UserCall : clear implicits.
Arguments Env : clear implicits.
Arguments before_cmd {Any Elt R} _.
Arguments after_cmd {Any Elt R} _.
Arguments nested {Any Elt R} _.
Arguments devs_after {Any Elt R} _.
Arguments uc_result {Any Elt R} _.
Arguments poll_monitor {Any Elt R} _.
