(* ===== verification/PollTheory.v ===== *)
(** * The work list of the polling thread as a bag of polled objects

  [polled] is the abstract view of a work list: the polled objects (device, type,
  name and period), each as often as it is scheduled.  The commands of the
  polling thread are related to it: a command adds, removes or moves exactly one
  object; a poll reschedules its item and loses nothing; the discard loop of
  [compute_sleep_time] and [tune_list] only move dates. *)
From Stdlib Require Import Sorted.
From S2P Require Import Prelude PollRing PollObj PollThread.
Local Open Scope Z_scope.

(** ** The work list as a bag of polled objects *)

Definition entry : Type := dev_ptr * PollObjType * string * Z.
Definition polled_of (w : WorkItem) : list entry := (λ nm, (w_dev w, w_type w, nm, update w)) <$> w_name w.
Definition polled (l : list WorkItem) : list entry := l ≫= polled_of.
Arguments polled : simpl never.

Definition by_date (l : list WorkItem) : Prop := StronglySorted Z.le (wake_up_date <$> l).

(** Every item has something to poll and a period. *)
Definition work_ok (w : WorkItem) : Prop := 0 < update w ∧ w_name w ≠ [].

Lemma insert_in_list_perm w l : insert_in_list w l ≡ₚ w :: l.
Proof. induction l as [|x l IH]; simpl; [done|]. case_if; [|done]. rewrite IH. apply Permutation_swap. Qed.

Lemma insert_in_list_Forall (P : WorkItem → Prop) w l : P w → Forall P l → Forall P (insert_in_list w l).
Proof. intros. rewrite insert_in_list_perm. by constructor. Qed.

Lemma insert_in_list_sorted w l : by_date l → by_date (insert_in_list w l).
Proof.
  unfold by_date. induction l as [|x l IH]; simpl; intros H; [repeat constructor|].
  apply StronglySorted_inv in H as [Hs Hx]. case_if; simpl.
  - constructor; [by apply IH|]. rewrite insert_in_list_perm. simpl. constructor; [lia|done].
  - constructor; [by constructor|]. constructor; [lia|]. eapply Forall_impl; [exact Hx|]. simpl. lia.
Qed.

Lemma polled_app l1 l2 : polled (l1 ++ l2) = polled l1 ++ polled l2.
Proof. apply bind_app. Qed.

Lemma polled_perm l1 l2 : l1 ≡ₚ l2 → polled l1 ≡ₚ polled l2.
Proof. intros H. unfold polled. by rewrite H. Qed.

Lemma insert_in_list_polled w l : polled (insert_in_list w l) ≡ₚ polled_of w ++ polled l.
Proof. by rewrite (polled_perm _ _ (insert_in_list_perm w l)). Qed.

Lemma sorted_sublist l1 l2 : sublist l1 l2 → StronglySorted Z.le l2 → StronglySorted Z.le l1.
Proof.
  induction 1 as [|x l1 l2 Hs IH|x l1 l2 Hs IH]; intros H; [done| |].
  - apply StronglySorted_inv in H as [H Hx]. constructor; [by apply IH|].
    rewrite Forall_forall in Hx |- *. intros z Hz. apply Hx. by eapply sublist_subseteq.
  - apply StronglySorted_inv in H as [H _]. by apply IH.
Qed.

Lemma same_group_true d upd ty w :
  same_group d upd ty w = true → w_dev w = d ∧ update w = upd ∧ w_type w = ty.
Proof. unfold same_group. intros. by propb. Qed.

Lemma push_name_Some d upd ty nm l l' :
  push_name d upd ty nm l = Some l' →
  polled l' ≡ₚ (d, ty, nm, upd) :: polled l ∧ wake_up_date <$> l' = wake_up_date <$> l.
Proof.
  revert l'. induction l as [|w l IH]; intros l' H; simpl in H; [done|].
  destruct (same_group d upd ty w) eqn:E.
  - injection H as <-. apply same_group_true in E as (<- & <- & <-). split; [|done].
    unfold polled; simpl. fold (polled l). unfold polled_of at 1; simpl.
    rewrite fmap_app, <-(assoc_L (++)); simpl. symmetry. apply Permutation_middle.
  - destruct (push_name d upd ty nm l) as [l2|]; [|done]. injection H as <-.
    destruct (IH _ eq_refl) as [Hp Hw]. split; [|by rewrite !fmap_cons, Hw].
    unfold polled in *; simpl. rewrite Hp. symmetry. apply Permutation_middle.
Qed.

Lemma push_name_ok d upd ty nm l l' :
  push_name d upd ty nm l = Some l' → Forall work_ok l → Forall work_ok l'.
Proof.
  intros H Hl. revert l' H. induction Hl as [|w l [Hu Hn] Hl IH]; intros l' H; simpl in H; [done|].
  destruct (same_group _ _ _ _); [injection H as <-; constructor; [|done]|].
  - split; [done|]. simpl. by destruct (w_name w).
  - destruct (push_name d upd ty nm l) as [l2|]; [|done]. injection H as <-. constructor; [done|auto].
Qed.

Lemma push_name_upd_pos d upd ty nm l l' :
  push_name d upd ty nm l = Some l' → Forall work_ok l → 0 < upd.
Proof.
  intros H Hl. revert l' H. induction Hl as [|w l [Hu Hn] Hl IH]; intros l' H; simpl in H; [done|].
  destruct (same_group _ _ _ _) eqn:E; [by apply same_group_true in E as (_ & <- & _)|].
  destruct (push_name d upd ty nm l) as [l2|]; [by eapply IH|done].
Qed.

Lemma erase_name_Some nm l l' : erase_name nm l = Some l' → l ≡ₚ nm :: l'.
Proof.
  revert l'. induction l as [|x l IH]; intros l' H; simpl in H; [done|].
  case_bool_decide; [by simplify_eq|]. destruct (erase_name nm l) as [l2|]; [|done].
  injection H as <-. rewrite (IH _ eq_refl). apply Permutation_swap.
Qed.

Lemma erase_name_None nm l : erase_name nm l = None → nm ∉ l.
Proof.
  induction l as [|x l IH]; simpl; [by intros _ ?%elem_of_nil|].
  case_bool_decide; [done|]. destruct (erase_name nm l); [done|]. intros _.
  rewrite not_elem_of_cons. split; [done|]. by apply IH.
Qed.

Lemma rem_obj_true d ty nm l l' :
  rem_obj d ty nm l = (l', true) →
  ∃ upd, polled l ≡ₚ (d, ty, nm, upd) :: polled l' ∧ sublist (wake_up_date <$> l') (wake_up_date <$> l).
Proof.
  revert l'. induction l as [|w l IH]; intros l' H; simpl in H; [done|].
  destruct (if _ && _ then erase_name nm (w_name w) else None) as [names|] eqn:E.
  - destruct (bool_decide (w_dev w = d)) eqn:E1; [|done].
    destruct (bool_decide (w_type w = ty)) eqn:E2; [|done]. propb. subst d ty.
    apply erase_name_Some in E. exists (update w).
    assert (Hp : polled_of w ≡ₚ (w_dev w, w_type w, nm, update w) ::
              ((λ nm, (w_dev w, w_type w, nm, update w)) <$> names)).
    { unfold polled_of. by rewrite E. }
    unfold polled in *; simpl. rewrite Hp.
    destruct names; injection H as <-; simpl.
    + split; [done|]. by apply sublist_cons.
    + split; [done|]. by apply sublist_skip.
  - destruct (rem_obj d ty nm l) as [r b] eqn:Er. injection H as <- ->.
    destruct (IH _ eq_refl) as (upd & Hp & Hs). exists upd. simpl. split; [|by apply sublist_skip].
    unfold polled in *; simpl. rewrite Hp. symmetry. apply Permutation_middle.
Qed.

Lemma rem_obj_false d ty nm l l' :
  rem_obj d ty nm l = (l', false) → l' = l ∧ ∀ upd, (d, ty, nm, upd) ∉ polled l.
Proof.
  revert l'. induction l as [|w l IH]; intros l' H; simpl in H.
  - injection H as <-. split; [done|]. intros upd. apply not_elem_of_nil.
  - destruct (if _ && _ then erase_name nm (w_name w) else None) as [names|] eqn:E;
      [by destruct names|].
    destruct (rem_obj d ty nm l) as [r b] eqn:Er. injection H as <- ->.
    destruct (IH _ eq_refl) as [-> Hno]. split; [done|]. intros upd Hin.
    unfold polled in Hin; simpl in Hin. apply elem_of_app in Hin as [Hin|Hin]; [|by apply (Hno upd)].
    unfold polled_of in Hin. apply list_elem_of_fmap in Hin as (nm' & [= -> -> -> ->] & Hin).
    rewrite !bool_decide_eq_true_2 in E by done. simpl in E. by apply erase_name_None in E.
Qed.

Lemma rem_obj_ok d ty nm l : Forall work_ok l → Forall work_ok (fst (rem_obj d ty nm l)).
Proof.
  induction 1 as [|w l [Hu Hn] Hl IH]; simpl; [constructor|].
  destruct (if _ && _ then erase_name nm (w_name w) else None) as [[|n names]|] eqn:E; simpl; [done| |].
  - constructor; [|done]. split; [done|]. done.
  - destruct (rem_obj d ty nm l). simpl in *. by constructor.
Qed.

Lemma polled_cons w l : polled (w :: l) = polled_of w ++ polled l.
Proof. done. Qed.

Lemma polled_of_filter_dev d w :
  filter (λ e : entry, e.1.1.1 ≠ d) (polled_of w) = if bool_decide (w_dev w = d) then [] else polled_of w.
Proof.
  unfold polled_of. case_bool_decide as E; induction (w_name w) as [|n ns IH]; simpl; try done.
  - rewrite filter_cons_False; [done|]. simpl. naive_solver.
  - rewrite filter_cons_True by done. by f_equal.
Qed.

Lemma polled_filter_dev d l :
  polled (List.filter (λ w, negb (bool_decide (w_dev w = d))) l) =
  filter (λ e : entry, e.1.1.1 ≠ d) (polled l).
Proof.
  induction l as [|w l IH]; simpl; [done|].
  rewrite polled_cons, filter_app, <-IH, polled_of_filter_dev. by case_bool_decide.
Qed.

(** The externally triggered list: one name per item. *)
Definition single (w : WorkItem) : Prop := ∃ n, w_name w = [n].

Lemma polled_cons_single w n l :
  w_name w = [n] → polled (w :: l) = (w_dev w, w_type w, n, update w) :: polled l.
Proof. intros H. unfold polled, polled_of. simpl. by rewrite H. Qed.

Lemma rem_ext_trig_spec d ty nm l :
  Forall single l →
  ∃ r, rem_ext_trig d ty nm l = Ok r ∧
    match r with
    | Some l' => Forall single l' ∧ ∃ upd, polled l ≡ₚ (d, ty, nm, upd) :: polled l'
    | None => ∀ upd, (d, ty, nm, upd) ∉ polled l
    end.
Proof.
  induction 1 as [|w l [n Hn] Hl (r & Hr & IH)]; simpl.
  - exists None. split; [done|]. intros upd. apply not_elem_of_nil.
  - rewrite Hr, Hn. simpl.
    destruct (decide (w_dev w = d ∧ w_type w = ty ∧ n = nm)) as [(<- & <- & <-)|Hne].
    + rewrite !bool_decide_eq_true_2 by done. simpl. exists (Some l). split; [done|].
      split; [done|]. exists (update w). by rewrite (polled_cons_single _ n).
    + exists (cons w <$> r). split.
      * destruct (bool_decide (w_dev w = d)) eqn:E1, (bool_decide (w_type w = ty)) eqn:E2; simpl; try done.
        propb. rewrite bool_decide_eq_false_2; [done|]. naive_solver.
      * destruct r as [l'|]; simpl.
        -- destruct IH as [Hs [upd Hp]]. split; [constructor; [by exists n|done]|]. exists upd.
           rewrite !(polled_cons_single w n) by done. rewrite Hp. apply Permutation_swap.
        -- intros upd. rewrite (polled_cons_single w n) by done. rewrite not_elem_of_cons.
           split; [|done]. intros [= -> -> -> ->]. by apply Hne.
Qed.

Lemma rem_first_heartbeat_sublist l :
  sublist (rem_first_heartbeat l) l.
Proof. induction l as [|w l IH]; simpl; [done|]. case_if; [by apply sublist_cons|by apply sublist_skip]. Qed.

Lemma sublist_fmap {A B} (f : A → B) l1 l2 : sublist l1 l2 → sublist (f <$> l1) (f <$> l2).
Proof. induction 1; simpl; by constructor. Qed.

Lemma polled_sublist l1 l2 : sublist l1 l2 → polled l1 ⊆+ polled l2.
Proof.
  induction 1 as [|w l1 l2 Hs IH|w l1 l2 Hs IH]; [done| |]; rewrite !polled_cons.
  - by apply submseteq_skips_l.
  - by apply submseteq_inserts_l.
Qed.

Lemma work_ok_sublist l1 l2 : sublist l1 l2 → Forall work_ok l2 → Forall work_ok l1.
Proof. intros Hs H. rewrite Forall_forall in H |- *. intros x Hx. apply H. by eapply sublist_subseteq. Qed.

Lemma by_date_of_sublist l1 l2 : sublist l1 l2 → by_date l2 → by_date l1.
Proof. intros Hs. apply sorted_sublist. by apply sublist_fmap. Qed.

Lemma list_filter_sublist {A} (f : A → bool) (l : list A) : sublist (List.filter f l) l.
Proof. induction l as [|x l IH]; simpl; [done|]. case_if; [by apply sublist_skip|by apply sublist_cons]. Qed.

(** ** What each command does to the bags of polled objects

  The abstract polling thread: the bag [W] of the periodically polled objects
  and the bag [E] of the externally triggered ones.  [d], [ty], [nm] are the
  target of the command and [upd] the period it asks for. *)
Inductive bag_step (d : dev_ptr) (ty : PollObjType) (nm : string) (upd : Z) (W E : list entry) :
    PollCmdCode → list entry → list entry → Prop :=
  | bag_add W' : 0 < upd → W' ≡ₚ (d, ty, nm, upd) :: W → bag_step d ty nm upd W E POLL_ADD_OBJ W' E
  | bag_add_ext E' : upd = 0 → E' ≡ₚ (d, ty, nm, upd) :: E → bag_step d ty nm upd W E POLL_ADD_OBJ W E'
  | bag_rem old W' : W ≡ₚ (d, ty, nm, old) :: W' → bag_step d ty nm upd W E POLL_REM_OBJ W' E
  | bag_rem_none : (∀ old, (d, ty, nm, old) ∉ W) → bag_step d ty nm upd W E POLL_REM_OBJ W E
  | bag_rem_ext old E' :
      E ≡ₚ (d, ty, nm, old) :: E' → bag_step d ty nm upd W E POLL_REM_EXT_TRIG_OBJ W E'
  | bag_rem_ext_none :
      (∀ old, (d, ty, nm, old) ∉ E) → bag_step d ty nm upd W E POLL_REM_EXT_TRIG_OBJ W E
  | bag_rem_dev :
      bag_step d ty nm upd W E POLL_REM_DEV
        (filter (λ e : entry, e.1.1.1 ≠ d) W) (filter (λ e : entry, e.1.1.1 ≠ d) E)
  | bag_upd old R W' :
      0 < upd → W ≡ₚ (d, ty, nm, old) :: R → W' ≡ₚ (d, ty, nm, upd) :: R →
      bag_step d ty nm upd W E POLL_UPD_PERIOD W' E
  | bag_upd_elsewhere W' :
      0 < upd → W ≠ [] → (∀ old, (d, ty, nm, old) ∉ W) → W' ≡ₚ (d, ty, nm, upd) :: W →
      bag_step d ty nm upd W E POLL_UPD_PERIOD W' E
  | bag_upd_triggered old W' E' :
      0 < upd → W = [] → E ≡ₚ (d, ty, nm, old) :: E' → W' ≡ₚ (d, ty, nm, upd) :: W →
      bag_step d ty nm upd W E POLL_UPD_PERIOD W' E'
  | bag_upd_later :
      0 < upd → W = [] → (∀ old, (d, ty, nm, old) ∉ E) → bag_step d ty nm upd W E POLL_UPD_PERIOD W E
  | bag_upd_to_trigger old now W' E' :
      upd = 0 → W ≡ₚ (d, ty, nm, old) :: W' → E' ≡ₚ (d, ty, nm, now) :: E →
      bag_step d ty nm upd W E POLL_UPD_PERIOD W' E'
  | bag_add_heartbeat W' :
      W' ≡ₚ (None, EVENT_HEARTBEAT, "Event heartbeat"%string, milliseconds 9000) :: W →
      bag_step d ty nm upd W E POLL_ADD_HEARTBEAT W' E
  | bag_rem_heartbeat owner old names W' :
      names ≠ [] → W ≡ₚ ((λ n, (owner, EVENT_HEARTBEAT, n, old)) <$> names) ++ W' →
      bag_step d ty nm upd W E POLL_REM_HEARTBEAT W' E
  | bag_rem_heartbeat_none :
      Forall (λ e : entry, e.1.1.2 ≠ EVENT_HEARTBEAT) W → bag_step d ty nm upd W E POLL_REM_HEARTBEAT W E
  | bag_start : bag_step d ty nm upd W E POLL_START W E
  | bag_stop : bag_step d ty nm upd W E POLL_STOP W E.

(** The first heartbeat item leaves the list, with its names. *)
Lemma rem_first_heartbeat_polled l :
  Forall work_ok l →
  (∃ owner old names, names ≠ [] ∧
     polled l ≡ₚ ((λ n, (owner, EVENT_HEARTBEAT, n, old)) <$> names) ++ polled (rem_first_heartbeat l)) ∨
  (rem_first_heartbeat l = l ∧ Forall (λ e : entry, e.1.1.2 ≠ EVENT_HEARTBEAT) (polled l)).
Proof.
  induction 1 as [|w l [_ Hn] _ IH]; simpl; [right; by split|]. case_bool_decide as Ht.
  - left. exists (w_dev w), (update w), (w_name w). split; [done|]. rewrite polled_cons. unfold polled_of. by rewrite Ht.
  - destruct IH as [(owner & old & names & ? & Hp)|[-> Hno]].
    + left. exists owner, old, names. split; [done|]. rewrite !polled_cons, Hp, !(assoc_L (++)). f_equiv. apply Permutation_app_comm.
    + right. split; [done|]. rewrite polled_cons. apply Forall_app_2; [|done]. apply Forall_fmap, Forall_true. intros n. exact Ht.
Qed.

Record lists_ok (W E : list WorkItem) : Prop := mkListsOk {
  ok_works : Forall work_ok W;
  ok_sorted : by_date W;
  ok_ext : Forall single E;
}.

Section Commands.
Context {Any Elt : Type} (indet : Z).
Implicit Types s : PollSt Any Elt.

Definition thread_ok s : Prop := lists_ok (works s) (ext_trig_works s).

Lemma groupable_Ok d ty s x : dev_of d s = Ok x → ∃ g, groupable d ty s = Ok g.
Proof. intros H. unfold groupable. rewrite H. case_if; eexists; done. Qed.

Lemma cmd_poll_obj_dev s o : cmd_poll_obj s = Ok o → ∃ x, dev_of (cmd_dev (local_cmd s)) s = Ok x.
Proof. unfold cmd_poll_obj. intros (x & H & _)%bind_Ok_inv. by exists x. Qed.

Lemma push_name_by_date d upd ty nm l l' : push_name d upd ty nm l = Some l' → by_date l → by_date l'.
Proof. intros [_ H]%push_name_Some. unfold by_date. by rewrite H. Qed.

(** Inserting one object, in an item of its own or in the item of its group. *)
Lemma insert_ok w s :
  thread_ok s → work_ok w → thread_ok (set_works (insert_in_list w (works s)) s).
Proof.
  intros [H1 H2 H3] Hw. split; simpl; [|by apply insert_in_list_sorted|done].
  by apply insert_in_list_Forall.
Qed.

Lemma push_ok d upd ty nm l s :
  thread_ok s → push_name d upd ty nm (works s) = Some l → thread_ok (set_works l s).
Proof.
  intros [H1 H2 H3] Hp. split; simpl; [by eapply push_name_ok|by eapply push_name_by_date|done].
Qed.

Lemma sublist_ok l s :
  thread_ok s → sublist l (works s) → thread_ok (set_works l s).
Proof.
  intros [H1 H2 H3] Hs. split; simpl; [by eapply work_ok_sublist|by eapply by_date_of_sublist|done].
Qed.

Lemma rem_obj_sublist d ty nm l : sublist (wake_up_date <$> fst (rem_obj d ty nm l)) (wake_up_date <$> l).
Proof.
  destruct (rem_obj d ty nm l) as [l' [|]] eqn:E; simpl.
  - by apply rem_obj_true in E as (? & _ & ?).
  - by apply rem_obj_false in E as [-> _].
Qed.

Lemma rem_ok d ty nm s : thread_ok s → thread_ok (set_works (fst (rem_obj d ty nm (works s))) s).
Proof.
  intros [H1 H2 H3]. split; simpl; [by apply rem_obj_ok| |done].
  eapply sorted_sublist; [apply rem_obj_sublist|done].
Qed.

Lemma add_insert_spec w n s x :
  dev_of (w_dev w) s = Ok x → w_name w = [n] → 0 < update w → thread_ok s →
  ∃ l, add_insert_in_list w s = Ok (set_works l s) ∧ thread_ok (set_works l s) ∧
    polled l ≡ₚ (w_dev w, w_type w, n, update w) :: polled (works s).
Proof.
  intros Hd Hn Hu Hs. unfold add_insert_in_list.
  destruct (groupable_Ok _ (w_type w) _ _ Hd) as [g ->]; simpl.
  assert (Hw : work_ok w) by (split; [done|by rewrite Hn]).
  assert (Hi : polled (insert_in_list w (works s)) ≡ₚ (w_dev w, w_type w, n, update w) :: polled (works s)).
  { rewrite insert_in_list_polled. unfold polled_of. by rewrite Hn. }
  rewrite Hn. simpl. destruct g; [destruct (push_name _ _ _ _ _) as [l|] eqn:Hp|].
  - exists l. split; [done|]. split; [by eapply push_ok|]. by apply push_name_Some in Hp as [-> _].
  - eexists. split; [done|]. split; [by apply insert_ok|done].
  - eexists. split; [done|]. split; [by apply insert_ok|done].
Qed.

(** The abstract step of the command [local_cmd s] from [s] to [s']; the target
    of POLL_ADD_OBJ is the element of the device list the command points to. *)
Definition refines (ty : PollObjType) (nm : string) (upd : Z) s s' : Prop :=
  thread_ok s' ∧ shared_cmd s' = shared_cmd s ∧
  bag_step (cmd_dev (local_cmd s)) ty nm upd (polled (works s)) (polled (ext_trig_works s))
    (cmd_code (local_cmd s)) (polled (works s')) (polled (ext_trig_works s')).

Lemma exec_add_refines s o :
  thread_ok s → cmd_code (local_cmd s) = POLL_ADD_OBJ → cmd_poll_obj s = Ok o → 0 <= po_upd o →
  ∃ s', exec_add_obj s = Ok s' ∧ refines (po_type o) (po_name o) (po_upd o) s s'.
Proof.
  intros Hs Hc Ho Hu. unfold exec_add_obj. rewrite Ho; simpl.
  destruct (cmd_poll_obj_dev _ _ Ho) as [x Hx].
  destruct (groupable_Ok _ (po_type o) _ _ Hx) as [g ->]; simpl.
  unfold refines. rewrite Hc. destruct (if g then _ else None) as [l|] eqn:Hp.
  - destruct g; [|done]. eexists; split; [done|]. split; [by eapply push_ok|]. split; [done|].
    pose proof (push_name_upd_pos _ _ _ _ _ _ Hp (ok_works _ _ Hs)).
    apply bag_add; [done|]. by apply push_name_Some in Hp as [-> _].
  - clear Hp. case_if.
    + set (w := mkWork _ _ _ _ _ _). eexists; split; [done|].
      assert (Hw : work_ok w) by (split; simpl; [lia|done]).
      split; [exact (insert_ok w s Hs Hw)|]. split; [done|].
      apply bag_add; simpl; [lia|]. by rewrite insert_in_list_polled.
    + eexists; split; [done|]. split; [|split; [done|]].
      * destruct Hs. split; simpl; [done|done|]. apply Forall_app_2; [done|]. repeat constructor. by eexists.
      * apply bag_add_ext; [done|]. simpl. rewrite polled_app. unfold polled at 2. simpl.
        by rewrite Permutation_app_comm.
Qed.

Lemma rem_obj_cases d ty nm (l : list WorkItem) :
  (∃ old, snd (rem_obj d ty nm l) = true ∧ polled l ≡ₚ (d, ty, nm, old) :: polled (fst (rem_obj d ty nm l))) ∨
  (snd (rem_obj d ty nm l) = false ∧ fst (rem_obj d ty nm l) = l ∧ ∀ old, (d, ty, nm, old) ∉ polled l).
Proof.
  destruct (rem_obj d ty nm l) as [l' [|]] eqn:E; simpl.
  - apply rem_obj_true in E as (old & ? & _). left. by exists old.
  - apply rem_obj_false in E as [-> ?]. by right.
Qed.

Lemma exec_rem_refines s :
  thread_ok s → cmd_code (local_cmd s) = POLL_REM_OBJ →
  ∃ s', exec_rem_obj s = Ok s' ∧
    refines (cmd_type (local_cmd s)) (cmd_name (local_cmd s)) (new_upd (local_cmd s)) s s'.
Proof.
  intros Hs Hc. unfold exec_rem_obj. eexists; split; [done|].
  split; [by apply rem_ok|]. split; [done|]. rewrite Hc. simpl.
  destruct (rem_obj_cases (cmd_dev (local_cmd s)) (cmd_type (local_cmd s)) (cmd_name (local_cmd s)) (works s))
    as [(old & _ & Hp)|(_ & -> & Hno)]; [by eapply bag_rem|by apply bag_rem_none].
Qed.

Lemma exec_rem_ext_refines s :
  thread_ok s → cmd_code (local_cmd s) = POLL_REM_EXT_TRIG_OBJ →
  ∃ s', exec_rem_ext_trig_obj s = Ok s' ∧
    refines (cmd_type (local_cmd s)) (cmd_name (local_cmd s)) (new_upd (local_cmd s)) s s'.
Proof.
  intros [H1 H2 H3] Hc. unfold exec_rem_ext_trig_obj.
  destruct (rem_ext_trig_spec (cmd_dev (local_cmd s)) (cmd_type (local_cmd s)) (cmd_name (local_cmd s)) _ H3)
    as (r & -> & Hr). simpl. destruct r as [l|].
  - destruct Hr as [Hl [old Hp]]. eexists; split; [done|]. split; [by split|]. split; [done|].
    rewrite Hc. by eapply bag_rem_ext.
  - eexists; split; [done|]. split; [by split|]. split; [done|]. rewrite Hc. by apply bag_rem_ext_none.
Qed.

Lemma exec_rem_dev_refines s :
  thread_ok s → cmd_code (local_cmd s) = POLL_REM_DEV →
  ∃ s', exec_rem_dev s = Ok s' ∧
    refines (cmd_type (local_cmd s)) (cmd_name (local_cmd s)) (new_upd (local_cmd s)) s s'.
Proof.
  intros [H1 H2 H3] Hc. eexists; split; [done|]. split; [|split; [done|]].
  - split; simpl.
    + eapply work_ok_sublist; [apply list_filter_sublist|done].
    + eapply by_date_of_sublist; [apply list_filter_sublist|done].
    + rewrite Forall_forall in H3 |- *. intros w Hw. apply H3.
      eapply sublist_subseteq; [apply list_filter_sublist|done].
  - rewrite Hc. simpl. rewrite !polled_filter_dev. apply bag_rem_dev.
Qed.

Lemma works_nil (l : list WorkItem) : Forall work_ok l → l ≠ [] → polled l ≠ [].
Proof.
  destruct 1 as [|w l [_ Hn] Hl]; [done|]. intros _. rewrite polled_cons. unfold polled_of.
  by destruct (w_name w).
Qed.

(** A non-zero period for an object of a non-empty work list, or of another. *)
Lemma upd_in_works_spec s x :
  thread_ok s → dev_of (cmd_dev (local_cmd s)) s = Ok x → 0 < new_upd (local_cmd s) → works s ≠ [] →
  ∃ l nw t, upd_in_works s = Ok (set_upds (auto_upd s)
      (if snd (rem_obj (cmd_dev (local_cmd s)) (cmd_type (local_cmd s)) (cmd_name (local_cmd s)) (works s))
       then rem_upd s else rem_upd s ++ [(new_upd (local_cmd s), cmd_name (local_cmd s))])
      (set_tune 0 t (set_works l (set_now nw s))), true) ∧
    lists_ok l (ext_trig_works s) ∧
    polled l ≡ₚ (cmd_dev (local_cmd s), cmd_type (local_cmd s), cmd_name (local_cmd s), new_upd (local_cmd s))
      :: polled (fst (rem_obj (cmd_dev (local_cmd s)) (cmd_type (local_cmd s)) (cmd_name (local_cmd s)) (works s))).
Proof.
  intros Hs Hx Hu Hne. unfold upd_in_works. destruct (works s) as [|w0 l0] eqn:Hw; [done|]. rewrite <-Hw.
  destruct (rem_obj _ _ _ _) as [l found] eqn:Hr. set (nw := now s + _). set (t := mkWork _ _ _ _ _ _).
  pose proof (rem_ok (cmd_dev (local_cmd s)) (cmd_type (local_cmd s)) (cmd_name (local_cmd s)) s Hs) as Hl.
  rewrite Hr in Hl. simpl in Hl.
  destruct (add_insert_spec t (cmd_name (local_cmd s)) (set_now nw (set_works l s)) x)
    as (l' & -> & Hok & Hp); [done|done|done|done|].
  simpl. exists l', nw, (need_two_tuning s).
  split; [|split; [exact Hok|done]]. by destruct found, s.
Qed.

Lemma exec_upd_refines s x :
  thread_ok s → cmd_code (local_cmd s) = POLL_UPD_PERIOD → dev_of (cmd_dev (local_cmd s)) s = Ok x →
  0 < new_upd (local_cmd s) →
  ∃ s', exec_upd_period indet s = Ok s' ∧
    refines (cmd_type (local_cmd s)) (cmd_name (local_cmd s)) (new_upd (local_cmd s)) s s'.
Proof.
  intros Hs Hc Hx Hu. unfold exec_upd_period. rewrite (proj2 (Z.eqb_neq (new_upd (local_cmd s)) 0)) by lia. simpl.
  destruct (decide (works s = [])) as [Hw|Hw].
  - unfold upd_in_works. rewrite Hw. simpl. destruct Hs as [H1 H2 H3].
    destruct (rem_ext_trig_spec (cmd_dev (local_cmd s)) (cmd_type (local_cmd s)) (cmd_name (local_cmd s)) _ H3)
      as (r & -> & Hr). simpl. destruct r as [l|]; eexists; (split; [done|]).
    + destruct Hr as [Hl [old Hp]]. split; [|split; [done|rewrite Hc]]; simpl; rewrite ?Hw; simpl.
      * split; [by repeat constructor|repeat constructor|done].
      * by eapply bag_upd_triggered.
    + split; [by split|]. split; [done|]. rewrite Hc. simpl. rewrite Hw. by apply bag_upd_later.
  - destruct (upd_in_works_spec _ _ Hs Hx Hu Hw) as (l & nw & t & -> & Hl & Hp). simpl.
    eexists; split; [done|]. split; [exact Hl|]. split; [done|]. rewrite Hc. simpl.
    destruct (rem_obj_cases (cmd_dev (local_cmd s)) (cmd_type (local_cmd s)) (cmd_name (local_cmd s)) (works s))
      as [(old & _ & Hq)|(_ & Hq & Hno)]; [by eapply bag_upd|].
    rewrite Hq in Hp. apply bag_upd_elsewhere; [done| |done|done]. apply works_nil; [by destruct Hs|done].
Qed.

Lemma exec_upd_zero_refines s o :
  thread_ok s → cmd_code (local_cmd s) = POLL_UPD_PERIOD → cmd_poll_obj s = Ok o →
  po_type o = cmd_type (local_cmd s) → po_name o = cmd_name (local_cmd s) → new_upd (local_cmd s) = 0 →
  snd (rem_obj (cmd_dev (local_cmd s)) (cmd_type (local_cmd s)) (cmd_name (local_cmd s)) (works s)) = true →
  ∃ s', exec_upd_period indet s = Ok s' ∧
    refines (cmd_type (local_cmd s)) (cmd_name (local_cmd s)) (new_upd (local_cmd s)) s s'.
Proof.
  intros Hs Hc Ho Hty Hnm Hu Hf. unfold exec_upd_period. rewrite Hu. simpl. unfold upd_to_ext_trig.
  pose proof (rem_ok (cmd_dev (local_cmd s)) (cmd_type (local_cmd s)) (cmd_name (local_cmd s)) s Hs) as Hl.
  destruct (rem_obj_cases (cmd_dev (local_cmd s)) (cmd_type (local_cmd s)) (cmd_name (local_cmd s)) (works s))
      as [(old & _ & Hq)|(Hq & _)]; [|congruence].
  destruct (rem_obj _ _ _ _) as [l found] eqn:Hr. simpl in *. subst found. rewrite Ho. simpl.
  eexists; split; [done|]. split; [|split; [done|rewrite Hc]].
  - destruct Hl. split; simpl; [done|done|]. apply Forall_app_2; [done|]. repeat constructor. by eexists.
  - eapply bag_upd_to_trigger; [done|exact Hq|]. simpl. rewrite polled_app.
    rewrite (polled_cons_single _ (po_name o)) by done. simpl. rewrite Permutation_app_comm. simpl.
    by rewrite Hty, Hnm.
Qed.

Definition cmd_target s (ty : PollObjType) (nm : string) (upd : Z) : Prop :=
  let c := local_cmd s in
  match cmd_code c with
  | POLL_ADD_OBJ => ∃ o, cmd_poll_obj s = Ok o ∧ ty = po_type o ∧ nm = po_name o ∧ upd = po_upd o
  | _ => ty = cmd_type c ∧ nm = cmd_name c ∧ upd = new_upd c
  end.

(** What the admin device guarantees about the commands it sends. *)
Definition cmd_ok s : Prop :=
  let c := local_cmd s in
  match cmd_code c with
  | POLL_ADD_OBJ => ∃ o, cmd_poll_obj s = Ok o ∧ 0 <= po_upd o
  | POLL_UPD_PERIOD =>
      (0 < new_upd c ∧ ∃ x, dev_of (cmd_dev c) s = Ok x) ∨
      (new_upd c = 0 ∧ (∃ o, cmd_poll_obj s = Ok o ∧ po_type o = cmd_type c ∧ po_name o = cmd_name c) ∧
       snd (rem_obj (cmd_dev c) (cmd_type c) (cmd_name c) (works s)) = true)
  | POLL_EXIT => False
  | _ => True
  end.

(** The command and its abstract step, for the clients of this file. *)
Lemma execute_cmd_ok s :
  thread_ok s → cmd_ok s →
  ∃ s' ty nm upd, execute_cmd indet s = Ok s' ∧ cmd_target s ty nm upd ∧ thread_ok s' ∧
    cmd_pending (shared_cmd s') = false ∧
    bag_step (cmd_dev (local_cmd s)) ty nm upd (polled (works s)) (polled (ext_trig_works s))
      (cmd_code (local_cmd s)) (polled (works s')) (polled (ext_trig_works s')).
Proof.
  intros Hs Hok.
  assert (H : ∃ r ty nm upd, execute_cmd indet s = Ok (cmd_done r) ∧ cmd_target s ty nm upd ∧ refines ty nm upd s r).
  2: { destruct H as (r & ty & nm & upd & He & Ht & H1 & H2 & H3). exists (cmd_done r), ty, nm, upd. done. }
  unfold execute_cmd, cmd_target. unfold cmd_ok in Hok. destruct (cmd_code (local_cmd s)) eqn:Hc.
  - destruct Hok as (o & Ho & Hu). destruct (exec_add_refines s o) as (r & -> & Hr); [done..|].
    by exists r, (po_type o), (po_name o), (po_upd o); eauto 10.
  - destruct (exec_rem_refines s) as (r & -> & Hr); [done..|].
      exists r, (cmd_type (local_cmd s)), (cmd_name (local_cmd s)), (new_upd (local_cmd s)); eauto 10.
  - do 4 eexists; repeat split; try done; try (apply Hs). rewrite Hc. apply bag_start.
  - do 4 eexists; repeat split; try done; try (apply Hs). rewrite Hc. apply bag_stop.
  - destruct Hok as [[Hu [x Hx]]|(Hu & (o & Ho & Hty & Hnm) & Hf)].
    + destruct (exec_upd_refines s x) as (r & -> & Hr); [done..|].
      exists r, (cmd_type (local_cmd s)), (cmd_name (local_cmd s)), (new_upd (local_cmd s)); eauto 10.
    + destruct (exec_upd_zero_refines s o) as (r & -> & Hr); [done..|].
      exists r, (cmd_type (local_cmd s)), (cmd_name (local_cmd s)), (new_upd (local_cmd s)); eauto 10.
  - destruct (exec_rem_dev_refines s) as (r & -> & Hr); [done..|].
      exists r, (cmd_type (local_cmd s)), (cmd_name (local_cmd s)), (new_upd (local_cmd s)); eauto 10.
  - done.
  - destruct (exec_rem_ext_refines s) as (r & -> & Hr); [done..|].
      exists r, (cmd_type (local_cmd s)), (cmd_name (local_cmd s)), (new_upd (local_cmd s)); eauto 10.
  - do 4 eexists; split; [done|]. split; [done|]. split; [by apply insert_ok|]. split; [done|].
    rewrite Hc. apply bag_add_heartbeat. simpl. by rewrite insert_in_list_polled.
  - do 4 eexists; split; [done|]. split; [done|].
    split; [by apply sublist_ok; [|apply rem_first_heartbeat_sublist]|]. split; [done|].
    rewrite Hc. simpl. destruct (rem_first_heartbeat_polled (works s) (ok_works _ _ Hs)) as [(owner & old & names & Hn & Hp)|[-> Hno]];
      [by eapply bag_rem_heartbeat|by apply bag_rem_heartbeat_none].
Qed.

End Commands.
