(* ===== verification/PollCycle.v ===== *)
(** * A poll, from the user code to the ring, and the rescheduling of its item

  The composition of the polling thread with the poll list of the device and
  the rings: what a poll of a command or of several attributes stores, and that
  the polled item comes back in the work list. *)
From S2P Require Import Prelude PollRing PollObj PollThread PollTheory.
Local Open Scope Z_scope.

Section Store.
Context {Any Elt : Type}.
Implicit Types (o : PollObj Any Elt) (d : Device Any Elt).

(** ** One record in one ring *)

(** What a poll stores: the errors of the poll or its data. *)
Abbreviation poll_result := (sum DevErrorList (PollData Any Elt)).

Definition insert_poll (x : poll_result) (when needed : Z) o : outcome (PollObj Any Elt) :=
  match x with
  | inl errs => insert_except_obj errs when needed o
  | inr data => insert_data data when needed o
  end.

(** The record [e] of a ring holds the result [x] of a poll at date [t]. *)
Definition holds (x : poll_result) (t : Z) (e : RingElt Any Elt) : Prop :=
  when e = t ∧
  match x with
  | inl errs => except e = Some errs
  | inr data =>
      except e = None ∧
      match data with
      | CmdData a => cmd_result e = Some a
      | AttrData l => attr_value e = Some l
      | AttrData_3 l => attr_value_3 e = Some l
      | AttrData_4 l => attr_value_4 e = Some l
      | AttrData_5 l => attr_value_5 e = Some l
      end
  end.

(** [o'] is [o] with the result [x] as the newest record of its ring. *)
Definition records (x : poll_result) (t : Z) o o' : Prop :=
  po_type o' = po_type o ∧ po_name o' = po_name o ∧ po_upd o' = po_upd o ∧
  po_max_delta_t o' = po_max_delta_t o ∧ ring_wf (po_ring o') ∧
  ∃ e, holds x t e ∧
    contents (po_ring o') = take (Z.to_nat (max_elt (po_ring o))) (e :: contents (po_ring o)).

Lemma insert_poll_records x t needed o :
  ring_wf (po_ring o) → ∃ o', insert_poll x t needed o = Ok o' ∧ records x t o o'.
Proof.
  intros Hwf. unfold insert_poll, insert_except_obj, insert_data, insert_except, insert_data_cmd,
    insert_data_attr, insert_data_attr_3, insert_data_attr_4, insert_data_attr_5, records, holds.
  destruct x as [errs|[a|l|l|l|l]];
    match goal with |- context [ring_put ?f (po_ring o)] =>
      destruct (ring_put_contents f (po_ring o) Hwf) as (r' & -> & Hw & _ & _ & Hc) end; simpl;
    eexists; (split; [done|]); simpl; do 4 (split; [done|]); (split; [exact Hw|]);
    eexists; (split; [|exact Hc]); done.
Qed.

(** ** The poll list of a device *)

Definition key o : PollObjType * string := (po_type o, po_name o).

Lemma find_polled_obj_key ty na (l1 l2 : list (PollObj Any Elt)) :
  key <$> l1 = key <$> l2 → find_polled_obj ty na l1 = find_polled_obj ty na l2.
Proof.
  revert l2. induction l1 as [|o l1 IH]; intros [|o2 l2] H; try done.
  rewrite !fmap_cons in H. injection H as Hk Hk' Hl. simpl. rewrite Hk, Hk'. by rewrite (IH l2).
Qed.

Lemma store_polled_spec x t needed ty nm d k o :
  find_polled_obj ty nm (poll_obj_list d) = Some k → poll_obj_list d !! k = Some o →
  ring_wf (po_ring o) →
  ∃ o', records x t o o' ∧
    store_polled ty nm (insert_poll x t needed) d = Ok (Some (with_poll_list d (<[k:=o']> (poll_obj_list d)))).
Proof.
  intros Hf Ho Hwf. destruct (insert_poll_records x t needed o Hwf) as (o' & He & Hr).
  exists o'. split; [done|]. unfold store_polled, get_polled_obj_by_type_name, on_polled_obj.
  rewrite Hf, Ho. simpl. by rewrite He.
Qed.

Definition rings_ok d : Prop := Forall (λ o, ring_wf (po_ring o)) (poll_obj_list d).

(** The device [d'] is [d] where exactly the named objects got the results [xs]
    of the poll at [t]. *)
Definition stored (ty : PollObjType) (names : list string) (xs : nat → poll_result) (t : Z) d d' : Prop :=
  dev_idl_version d' = dev_idl_version d ∧ rings_ok d' ∧
  key <$> poll_obj_list d' = key <$> poll_obj_list d ∧
  (∀ ctr nm, names !! ctr = Some nm → ∃ k o o', find_polled_obj ty nm (poll_obj_list d) = Some k ∧
     poll_obj_list d !! k = Some o ∧ poll_obj_list d' !! k = Some o' ∧ records (xs ctr) t o o') ∧
  (∀ k o, poll_obj_list d !! k = Some o → ¬ (po_type o = ty ∧ po_name o ∈ names) →
     poll_obj_list d' !! k = Some o).

Lemma stored_nil ty xs t d : rings_ok d → stored ty [] xs t d d.
Proof. intros. by repeat split; naive_solver. Qed.

Lemma stored_cons ty nm names xs t d k o o' d' :
  find_polled_obj ty nm (poll_obj_list d) = Some k → poll_obj_list d !! k = Some o →
  records (xs 0%nat) t o o' → nm ∉ names →
  stored ty names (λ n, xs (S n)) t (with_poll_list d (<[k:=o']> (poll_obj_list d))) d' →
  stored ty (nm :: names) xs t d d'.
Proof.
  intros Hf Ho Hr Hnm (H1 & H2 & H3 & H4 & H5). simpl in *.
  pose proof Hr as (Hty & Hna & _).
  pose proof (find_polled_obj_Some _ _ _ _ Hf) as (o0 & Ho0 & Ht0 & Hn0). rewrite Ho in Ho0.
  injection Ho0 as <-.
  assert (Hkey : key <$> <[k:=o']> (poll_obj_list d) = key <$> poll_obj_list d).
  { rewrite list_fmap_insert. apply list_insert_id. rewrite list_lookup_fmap, Ho. simpl. unfold key. by rewrite Hty, Hna. }
  split; [done|]. split; [done|]. split; [by rewrite H3|]. split.
  - intros [|ctr] nm' Hl; simpl in Hl.
    + injection Hl as <-. exists k, o, o'. split; [done|]. split; [done|]. split; [|done].
      apply H5; [|rewrite Hna, Hn0; naive_solver]. apply list_lookup_insert_eq. by eapply lookup_lt_Some.
    + destruct (H4 _ _ Hl) as (k2 & o2 & o2' & Hf2 & Ho2 & Ho2' & Hr2).
      rewrite (find_polled_obj_key _ _ _ _ Hkey) in Hf2. exists k2, o2, o2'. split; [done|].
      split; [|done]. pose proof (find_polled_obj_Some _ _ _ _ Hf2) as (o3 & Ho3 & _ & Hn3).
      rewrite list_lookup_insert_ne in Ho2; [done|]. intros <-. rewrite Ho in Ho3. injection Ho3 as <-.
      apply Hnm. rewrite <-Hn0, Hn3. by eapply list_elem_of_lookup_2.
  - intros k2 o2 Ho2 Hne. apply H5; [|set_solver].
    rewrite list_lookup_insert_ne; [done|]. intros <-. rewrite Ho in Ho2. injection Ho2 as <-. set_solver.
Qed.

Lemma attrs_store_spec store ty t needed (xs : nat → poll_result) c names d :
  (∀ n o, (n < length names)%nat → store (c + n)%nat o = insert_poll (xs n) t needed o) →
  NoDup names → rings_ok d →
  (∀ nm, nm ∈ names → is_Some (find_polled_obj ty nm (poll_obj_list d))) →
  ∃ d', attrs_store store ty c names d = Ok d' ∧ stored ty names xs t d d'.
Proof.
  revert c xs d. induction names as [|nm names IH]; intros c xs d Hs Hnd Hok Hf.
  - exists d. split; [done|]. by apply stored_nil.
  - apply NoDup_cons in Hnd as [Hnm Hnd].
    destruct (Hf nm) as [k Hk]; [set_solver|].
    destruct (find_polled_obj_Some _ _ _ _ Hk) as (o & Ho & Hty & Hna).
    assert (Hwf : ring_wf (po_ring o)) by (by eapply Forall_lookup_1 in Hok).
    destruct (store_polled_spec (xs 0%nat) t needed ty nm d k o Hk Ho Hwf) as (o' & Hr & He).
    set (d1 := with_poll_list d (<[k:=o']> (poll_obj_list d))) in *.
    assert (Hkey : key <$> poll_obj_list d1 = key <$> poll_obj_list d).
    { simpl. rewrite list_fmap_insert. apply list_insert_id. rewrite list_lookup_fmap, Ho. simpl.
      unfold key. by destruct Hr as (-> & -> & _). }
    destruct (IH (S c) (λ n, xs (S n)) d1) as (d' & Hd' & Hst); [|done| | |].
    + intros n o2 Hn. rewrite <-Hs by (simpl; lia). f_equal. lia.
    + unfold rings_ok. simpl. apply Forall_insert; [done|]. by destruct Hr as (_ & _ & _ & _ & ? & _).
    + intros nm2 Hin. rewrite (find_polled_obj_key _ _ _ _ Hkey). apply Hf. set_solver.
    + exists d'. split; [|by eapply stored_cons]. simpl.
      unfold store_polled, get_polled_obj_by_type_name in *. rewrite Hk in *. simpl in *.
      replace (on_polled_obj (store c) k d) with (on_polled_obj (insert_poll (xs 0%nat) t needed) k d).
      2: { unfold on_polled_obj. rewrite Ho. simpl. rewrite <-(Hs 0%nat) by (simpl; lia). by rewrite Nat.add_0_r. }
      by destruct (on_polled_obj _ _ _); simplify_eq/=.
Qed.

End Store.

Section Cycle.
Context {Any Elt : Type} (indet : Z) (env : Env Any Elt).
Implicit Types (s : PollSt Any Elt) (w : WorkItem).

(** ** Events only leave a trace *)

Definition with_trace tr s : PollSt Any Elt :=
  mkPollSt (works s) (ext_trig_works s) (local_cmd s) (shared_cmd s) (now s) (after s) (sleep s)
    (polling_stop s) (tune_ctr s) (need_two_tuning s) (send_heartbeat s) (heartbeat_ctr s)
    (previous_nb_late s) (polling_bef_9 s) (auto_upd s) (rem_upd s) (ignore_call s) (devs s) tr.

Lemma with_trace_id s : s = with_trace (trace s) s.
Proof. by destruct s. Qed.

Lemma fire_events_trace nd zmq order d nm err s :
  ∃ tr, fire_events env nd zmq order d nm err s = with_trace tr s.
Proof.
  unfold fire_events. destruct nd, zmq; try (eexists; reflexivity); [|by eexists; apply with_trace_id].
  generalize (act (DetectAndPush Notifd d nm err) s) (trace s ++ [DetectAndPush Notifd d nm err])
    (eq_refl : act (DetectAndPush Notifd d nm err) s = with_trace (trace s ++ [DetectAndPush Notifd d nm err]) s).
  set (se := detect _ _ _ _ _). clearbody se.
  induction order as [|ev order IH]; intros s1 tr Htr; simpl; [by exists tr|].
  case_if; [|by eapply IH]. eapply IH. rewrite Htr. done.
Qed.

Definition attrs_known (d : nat) (names : list string) : Prop :=
  Forall (λ nm, is_Some (att_events env d nm)) names.

Lemma event_loop_trace order d err_of c nd zmq names s :
  attrs_known d names → (∀ n, (n < length names)%nat → ∃ e, err_of (c + n)%nat = Ok e) →
  ∃ tr, event_loop env order d err_of c nd zmq names s = Ok (with_trace tr s, None).
Proof.
  intros Hk. revert c nd zmq s. induction Hk as [|nm names [[un uz] Hu] Hk IH]; intros c nd zmq s He; simpl.
  - exists (trace s). by rewrite <-with_trace_id.
  - unfold get_attr_by_name. rewrite Hu.
    assert (He' : ∀ n, (n < length names)%nat → ∃ e, err_of (S c + n)%nat = Ok e).
    { intros n Hn. destruct (He (S n)) as [e He2]; [simpl; lia|]. exists e. by rewrite <-He2, Nat.add_succ_r. }
    destruct (_ || _) eqn:Eor; [|by apply IH].
    destruct (He 0%nat) as [e Hz]; [simpl; lia|]. rewrite Nat.add_0_r in Hz. rewrite Hz. simpl.
    destruct (fire_events_trace (nd || un && suppliers env Notifd) (zmq || uz && suppliers env Zmq) order d nm e s)
      as [tr ->].
    destruct (IH (S c) (nd || un && suppliers env Notifd) (zmq || uz && suppliers env Zmq) (with_trace tr s) He')
      as [tr' ->].
    by exists tr'.
Qed.

(** ** Poll of a command *)

(** the poll of a command stores the answer of the command, or the errors of
    its [DevFailed], as the newest record of the ring of the polled object, with
    the date before the call; the oldest record of a full ring is lost and
    nothing else of the device changes. *)
Theorem poll_cmd_stores w i nm s s1 (d : Device Any Elt) k o :
  let uc := call_cmd env s i nm in
  w_dev w = Some i → w_name w !! 0%nat = Some nm → run_user indet uc s = Ok s1 →
  devs s1 !! i = Some d → find_polled_obj (w_type w) nm (poll_obj_list d) = Some k →
  poll_obj_list d !! k = Some o → ring_wf (po_ring o) → poll_monitor uc = true →
  (∀ e, uc_result uc ≠ inl (OtherExc e)) →
  ∃ o' x, records x (before_cmd uc) o o' ∧
    match uc_result uc with inl (DevFailed errs) => x = inl errs | inr a => x = inr (CmdData a) | _ => False end ∧
    poll_cmd indet env w s =
      Ok (set_dev i (with_poll_list d (<[k:=o']> (poll_obj_list d))) s1, None,
          set_needed (after_cmd uc - before_cmd uc) w).
Proof.
  intros uc Hd Hnm Hrun Hdev Hf Ho Hwf Hmon Hexc. unfold poll_cmd. rewrite Hd, Hnm. simpl.
  fold uc. rewrite Hrun. simpl. unfold cmd_store. rewrite Hmon, Hdev. simpl.
  destruct (uc_result uc) as [[errs|e]|a]; [|by destruct (Hexc e)|].
  - destruct (store_polled_spec (inl errs) (before_cmd uc) (after_cmd uc - before_cmd uc) _ _ _ _ _ Hf Ho Hwf)
      as (o' & Hr & He).
    exists o', (inl errs). split; [done|]. split; [done|].
    change (@insert_poll Any Elt (inl errs)) with (@insert_except_obj Any Elt errs) in He. simpl. by rewrite He.
  - destruct (store_polled_spec (inr (CmdData a)) (before_cmd uc) (after_cmd uc - before_cmd uc) _ _ _ _ _ Hf Ho Hwf)
      as (o' & Hr & He).
    exists o', (inr (CmdData a)). split; [done|]. split; [done|].
    change (@insert_poll Any Elt (inr (CmdData a))) with (@insert_data Any Elt (CmdData a)) in He.
    simpl. by rewrite He.
Qed.

(** ** Poll of attributes *)

Abbreviation read_result := (sum DevErrorList (list (AttributeValue Elt))).

(** What the reading of attribute [ctr] gives: the errors of the call, the
    errors of the attribute, or its value. *)
Definition attr_outcome (idl : Z) (res : read_result) (ctr : nat) : DevErrorList + PollData Any Elt :=
  match res with
  | inl errs => inl errs
  | inr l =>
      match l !! ctr with
      | Some av =>
          if idl <? 3 then inr (attr_data idl [av])
          else match av_err_list av with [] => inr (attr_data idl [av]) | errs => inl errs end
      | None => inl []
      end
  end.

Definition read_ok (n : nat) (res : read_result) : Prop :=
  match res with inl _ => True | inr l => length l = n end.

Lemma robb_id (av : AttributeValue Elt) : robb av = av.
Proof. by destruct av as [[] ? ? ? ? ?]. Qed.

Lemma err_map_spec (l : list (AttributeValue Elt)) c n :
  (c + n <= length l)%nat →
  ∃ m, err_map l c n = Ok m ∧ length m = n ∧
    ∀ i av, (i < n)%nat → l !! (c + i)%nat = Some av →
      m !! i = Some (match av_err_list av with [] => None | errs => Some errs end).
Proof.
  revert c. induction n as [|n IH]; intros c Hl; simpl.
  - exists []. split; [done|]. split; [done|]. intros; lia.
  - destruct (lookup_lt_is_Some_2 l c) as [av Hav]; [lia|]. unfold err_at. rewrite Hav. simpl.
    destruct (IH (S c)) as (m & -> & Hm & Hi); [lia|]. simpl. eexists. split; [done|]. simpl.
    split; [by rewrite Hm|]. intros [|i] av' Hin Hav'.
    + rewrite Nat.add_0_r, Hav in Hav'. by injection Hav' as <-.
    + simpl. apply Hi; [lia|]. by rewrite <-Nat.add_succ_comm in Hav'.
Qed.

(** The two ways an error is found give the same record. *)
Lemma attr_result_cases idl n (res : read_result) :
  (idl <= 3 → n = 1%nat) → n ≠ 0%nat → read_ok n res →
  ∃ res' m, match res with inl e => Ok (inl e) | inr l => recreate_except idl n l end = Ok res' ∧
    map_except idl n res' = Ok m ∧
    (∀ ctr, (ctr < n)%nat → ∃ e, event_err res' m ctr = Ok e) ∧
    ∀ ctr t needed o, (ctr < n)%nat →
      attr_stored (Any:=Any) idl n ctr res' m t needed o = insert_poll (attr_outcome idl res ctr) t needed o.
Proof.
  intros H3 Hn Hok. destruct res as [errs|l].
  { exists (inl errs), []. split; [done|]. split; [done|]. split; [by eexists|done]. }
  simpl in Hok. destruct (Z.ltb_spec idl 3) as [Hold|Hidl].
  { rewrite H3 in * by lia. destruct l as [|av [|]]; try done. exists (inr [av]), [].
    unfold recreate_except, map_except, attr_stored, attr_outcome. rewrite andb_false_r, (proj2 (Z.ltb_lt idl 3)) by lia.
    replace (idl >=? 3) with false by (symmetry; rewrite Z.geb_leb; apply Z.leb_gt; lia).
    split; [done|]. split; [done|]. split; [intros [|ctr] Hc; [by eexists|lia]|]. by intros [|ctr] ? ? ? Hc; [|lia]. }
  unfold recreate_except. rewrite (proj2 (Z.geb_le idl 3)) by lia. simpl.
  destruct (Nat.eqb_spec n 1) as [->|Hn1].
  - rewrite orb_true_r. destruct l as [|av [|]]; try done. simpl.
    unfold attr_stored, attr_outcome, map_except. rewrite ?andb_false_r, (proj2 (Z.ltb_ge idl 3)) by done.
    destruct (av_err_list av) as [|e errs] eqn:Herr; simpl.
    + exists (inr [av]), []. rewrite ?andb_false_r. split; [done|]. split; [done|]. split.
      * intros [|ctr] Hc; [by eexists|lia].
      * intros [|ctr] t needed o Hc; [|lia]. simpl. by rewrite Herr.
    + exists (inl (e :: errs)), []. split; [done|]. split; [done|]. split; [by eexists|].
      intros [|ctr] t needed o Hc; [|lia]. simpl. by rewrite Herr.
  - rewrite (proj2 (Z.eqb_neq idl 3)) by naive_solver lia. simpl.
    destruct (err_map_spec l 0 n) as (m & Hm & Hlen & Hi); [lia|].
    exists (inr l), m. split; [done|]. unfold map_except. rewrite (proj2 (Z.geb_le idl 4)) by naive_solver lia.
    rewrite (proj2 (Nat.eqb_neq n 1)) by done. simpl. split; [done|].
    split.
    + intros ctr Hc. destruct (lookup_lt_is_Some_2 l ctr) as [av ->]; [lia|]. by eexists.
    + intros ctr t needed o Hc. unfold attr_stored, attr_outcome, except_of.
      rewrite (proj2 (Nat.eqb_neq n 1)), (proj2 (Z.ltb_ge idl 3)) by done.
      destruct (lookup_lt_is_Some_2 l ctr) as [av Hav]; [lia|]. rewrite (Hi ctr av Hc Hav), Hav.
      destruct (av_err_list av); [|done]. rewrite (proj2 (Z.geb_le idl 4)) by naive_solver lia. simpl.
      rewrite robb_id. unfold attr_data. case_if; [done|].
      by replace (idl =? 4) with true by (symmetry; apply Z.eqb_eq; naive_solver lia).
Qed.

(** From the result of the reading to the rings. *)
Lemma attr_result_spec w i idl t needed (res : read_result) s d :
  (idl <= 3 → length (w_name w) = 1%nat) → w_name w ≠ [] → read_ok (length (w_name w)) res →
  attrs_known i (w_name w) → NoDup (w_name w) → devs s !! i = Some d → rings_ok d →
  (∀ nm, nm ∈ w_name w → is_Some (find_polled_obj (w_type w) nm (poll_obj_list d))) →
  ∃ d' tr, attr_result env w i idl t needed true res s = Ok (set_dev i d' (with_trace tr s), None) ∧
    stored (w_type w) (w_name w) (attr_outcome idl res) t d d'.
Proof.
  intros H3 Hn Hok Hk Hnd Hd Hr Hf. unfold attr_result.
  destruct (attr_result_cases idl (length (w_name w)) res) as (res' & m & -> & Hm & He & Hs);
    [done|by destruct (w_name w)|done|].
  simpl. rewrite Hm. simpl.
  destruct (event_loop_trace (event_order res') i (event_err res' m) 0 false false (w_name w) s Hk) as [tr ->].
  { intros n Hlt. by apply He. }
  simpl. rewrite Hd. simpl.
  destruct (attrs_store_spec (λ ctr, attr_stored idl (length (w_name w)) ctr res' m t needed) (w_type w) t needed
              (attr_outcome idl res) 0 (w_name w) d) as (d' & -> & Hst); [|done..|].
  { intros n o Hlt. by apply Hs. }
  exists d', tr. by split.
Qed.

(** C5: one poll of the attributes of an item with one [read_attributes] call, several of
    them only from IDL 4 on: each polled attribute gets, in its own ring and with
    the date before the call, its own value, or its own errors (from IDL 3 on), or the
    errors of the whole call; the other polled objects of the device do not change, and no
    pointer or index of the code is out of bounds.  The attributes are known to the device
    and still polled, the monitor of the polled objects is obtained, and the reading
    answers each of them or throws a [DevFailed]. *)
Theorem poll_attr_stores w i s s1 d0 d :
  let uc := call_attr env s i (w_name w) in
  let idl := dev_idl_version d0 in
  w_dev w = Some i → devs s !! i = Some d0 → run_user indet uc s = Ok s1 → devs s1 !! i = Some d →
  (idl <= 3 → length (w_name w) = 1%nat) → w_name w ≠ [] → NoDup (w_name w) →
  attrs_known i (w_name w) → rings_ok d → poll_monitor uc = true →
  (∀ nm, nm ∈ w_name w → is_Some (find_polled_obj (w_type w) nm (poll_obj_list d))) →
  ∀ res, match uc_result uc with
    | inl (DevFailed errs) => res = inl errs
    | inr l => length l = length (w_name w) ∧ res = inr l
    | inl (OtherExc _) => False
    end →
  ∃ d' tr, poll_attr indet env w s =
      Ok (set_dev i d' (with_trace tr s1), None, set_needed (after_cmd uc - before_cmd uc) w) ∧
    stored (w_type w) (w_name w) (attr_outcome idl res) (before_cmd uc) d d'.
Proof.
  intros uc idl Hw Hd0 Hrun Hd H31 Hne Hnd Hk Hr Hmon Hf res Hres. unfold poll_attr.
  rewrite Hw. simpl. rewrite Hd0. simpl. fold uc idl. rewrite Hrun. simpl. rewrite Hmon.
  destruct (uc_result uc) as [[errs|e]|l]; [subst res|done|destruct Hres as [Hlen ->]].
  - destruct (attr_result_spec w i idl (before_cmd uc) (after_cmd uc - before_cmd uc) (inl errs) s1 d)
      as (d' & tr & -> & Hst); [done..|]. by exists d', tr.
  - destruct (attr_result_spec w i idl (before_cmd uc) (after_cmd uc - before_cmd uc) (inr l) s1 d)
      as (d' & tr & -> & Hst); [done..|]. by exists d', tr.
Qed.

(** ** One poll and its rescheduling *)

(** User code that neither sends polling commands nor touches the device table,
    that answers one value per attribute, and throws nothing but [DevFailed]. *)
Definition plain_call {R} (ok : R → Prop) s (uc : UserCall Any Elt R) : Prop :=
  nested uc = [] ∧ devs_after uc = devs s ∧
  match uc_result uc with inl (OtherExc _) => False | inl _ => True | inr r => ok r end.

Definition dev_ready w s : Prop :=
  ∃ i d, w_dev w = Some i ∧ devs s !! i = Some d ∧ rings_ok d ∧
    match w_type w with
    | POLL_CMD => ∃ nm, w_name w = [nm] ∧ plain_call (λ _, True) s (call_cmd env s i nm)
    | _ => (dev_idl_version d <= 3 → length (w_name w) = 1%nat) ∧
           w_name w ≠ [] ∧ NoDup (w_name w) ∧ attrs_known i (w_name w) ∧
           (∀ nm, nm ∈ w_name w → is_Some (find_polled_obj (w_type w) nm (poll_obj_list d))) ∧
           plain_call (λ l, length l = length (w_name w)) s (call_attr env s i (w_name w))
    end.

Definition poll_ready w s : Prop :=
  match w_type w with POLL_CMD | POLL_ATTR => dev_ready w s | _ => True end.

(** The part of the state a poll of [w] leaves alone. *)
Definition same_lists s s' : Prop :=
  works s' = works s ∧ ext_trig_works s' = ext_trig_works s ∧ auto_upd s' = auto_upd s ∧
  rem_upd s' = rem_upd s ∧ now s' = now s ∧ tune_ctr s' = tune_ctr s.

Lemma run_plain {R} (ok : R → Prop) s (uc : UserCall Any Elt R) :
  plain_call ok s uc → run_user indet uc s = Ok s.
Proof. intros (Hn & Hd & _). unfold run_user. rewrite Hn, Hd. by destruct s. Qed.

Lemma store_polled_total f ty nm d :
  (∀ o, ring_wf (po_ring o) → ∃ o', f o = Ok o') → rings_ok d →
  ∃ r, store_polled (Any:=Any) (Elt:=Elt) ty nm f d = Ok r.
Proof.
  intros Hf Hd. unfold store_polled, get_polled_obj_by_type_name, on_polled_obj.
  destruct (find_polled_obj ty nm (poll_obj_list d)) as [k|] eqn:E; simpl; [|by eexists].
  destruct (find_polled_obj_Some _ _ _ _ E) as (o & Ho & _). rewrite Ho. simpl.
  destruct (Hf o) as [o' ->]; [by eapply Forall_lookup_1 in Hd|]. by eexists.
Qed.

Lemma poll_cmd_plain w i nm d s :
  w_dev w = Some i → devs s !! i = Some d → rings_ok d → w_name w = [nm] →
  plain_call (λ _, True) s (call_cmd env s i nm) →
  ∃ s' t, poll_cmd indet env w s = Ok (s', None, set_needed t w) ∧ same_lists s s'.
Proof.
  intros Hw Hd Hr Hn Hp. unfold poll_cmd. rewrite Hw, Hn. simpl. rewrite (run_plain _ _ _ Hp). simpl.
  destruct Hp as (_ & _ & Hres). set (uc := call_cmd env s i nm) in *.
  assert (H : ∀ x, ∃ s', cmd_store i (w_type w) nm (poll_monitor uc)
            (cmd_stored x (before_cmd uc) (after_cmd uc - before_cmd uc)) s = Ok s' ∧ same_lists s s').
  { intros x. unfold cmd_store. case_if; [|by eexists]. rewrite Hd. simpl.
    destruct (store_polled_total (cmd_stored x (before_cmd uc) (after_cmd uc - before_cmd uc)) (w_type w) nm d)
      as [r ->]; [|done|by destruct r; eexists].
    intros o Ho.
    destruct (insert_poll_records (Elt:=Elt) (match x with inl e => inl e | inr a => inr (CmdData a) end)
      (before_cmd uc) (after_cmd uc - before_cmd uc) o Ho) as (o' & He & _). exists o'. by destruct x. }
  destruct (uc_result uc) as [[errs|e]|a]; [|done|].
  - destruct (H (inl errs)) as (s' & Hc & Hs). simpl in Hc |- *. rewrite Hc. by do 2 eexists.
  - destruct (H (inr a)) as (s' & Hc & Hs). simpl in Hc |- *. rewrite Hc. by do 2 eexists.
Qed.

Lemma attr_result_forgotten w i idl t needed (res : read_result) s :
  (idl <= 3 → length (w_name w) = 1%nat) → w_name w ≠ [] → read_ok (length (w_name w)) res →
  attrs_known i (w_name w) →
  ∃ tr, attr_result env w i idl t needed false res s = Ok (with_trace tr s, None).
Proof.
  intros H3 Hn Hok Hk. unfold attr_result.
  destruct (attr_result_cases idl (length (w_name w)) res) as (res' & m & -> & Hm & He & _);
    [done|by destruct (w_name w)|done|].
  simpl. rewrite Hm. simpl.
  destruct (event_loop_trace (event_order res') i (event_err res' m) 0 false false (w_name w) s Hk) as [tr ->].
  { intros n Hlt. by apply He. }
  by exists tr.
Qed.

Lemma poll_attr_plain w i d s :
  w_dev w = Some i → devs s !! i = Some d → rings_ok d → w_type w = POLL_ATTR → dev_ready w s →
  ∃ s' t, poll_attr indet env w s = Ok (s', None, set_needed t w) ∧ same_lists s s'.
Proof.
  intros Hw Hd Hr Hty (i' & d' & Hw' & Hd' & _ & Hrest). rewrite Hw in Hw'. injection Hw' as <-.
  rewrite Hd in Hd'. injection Hd' as <-. rewrite Hty in Hrest.
  destruct Hrest as (H31 & Hne & Hnd & Hk & Hf & Hp). rewrite <-Hty in Hf.
  unfold poll_attr. rewrite Hw. simpl. rewrite Hd. simpl. rewrite (run_plain _ _ _ Hp). simpl.
  destruct Hp as (_ & _ & Hres). set (uc := call_attr env s i (w_name w)) in *.
  assert (H : ∀ res, read_ok (length (w_name w)) res →
    ∃ s', attr_result env w i (dev_idl_version d) (before_cmd uc) (after_cmd uc - before_cmd uc) (poll_monitor uc) res s
          = Ok (s', None) ∧ same_lists s s').
  { intros res Hok. destruct (poll_monitor uc).
    - destruct (attr_result_spec w i (dev_idl_version d) (before_cmd uc) (after_cmd uc - before_cmd uc) res s d)
        as (d' & tr & -> & _); [done..|]. by eexists.
    - destruct (attr_result_forgotten w i (dev_idl_version d) (before_cmd uc) (after_cmd uc - before_cmd uc) res s)
        as (tr & ->); [done..|]. by eexists. }
  destruct (uc_result uc) as [[errs|e]|l]; [|done|].
  - destruct (H (inl errs) I) as (s' & Hc & Hs). rewrite Hc. by do 2 eexists.
  - destruct (H (inr l) Hres) as (s' & Hc & Hs). rewrite Hc. by do 2 eexists.
Qed.

Lemma set_needed_id w : w = set_needed (needed_time w) w.
Proof. by destruct w. Qed.

Lemma heartbeat_same s : same_lists s (heartbeat_poll env s).
Proof. unfold heartbeat_poll, eve_heartbeat, push_heartbeat. repeat (case_if || simpl); done. Qed.

Lemma do_poll_ready w s :
  poll_ready w s → ∃ s' t, do_poll indet env w s = Ok (s', None, set_needed t w) ∧ same_lists s s'.
Proof.
  intros H. unfold do_poll, poll_ready in *. destruct (polling_stop s).
  { exists s, (needed_time w). by rewrite <-set_needed_id. }
  destruct (w_type w) eqn:Hty.
  - destruct H as (i & d & Hw & Hd & Hr & Hrest). rewrite Hty in Hrest. destruct Hrest as (nm & Hn & Hp).
    by eapply poll_cmd_plain.
  - pose proof H as (i & d & Hw & Hd & Hr & _). by eapply poll_attr_plain.
  - exists (heartbeat_poll env s), (needed_time w). rewrite <-set_needed_id. split; [done|]. apply heartbeat_same.
  - exists (store_subdev s), (needed_time w). rewrite <-set_needed_id. split; [done|].
    unfold store_subdev. by case_if.
Qed.

Lemma work_ok_next w t : work_ok w → work_ok (next_date (set_needed t w)).
Proof. done. Qed.

Lemma by_date_tail w l : by_date (w :: l) → by_date l.
Proof. unfold by_date. simpl. by intros [? _]%Sorted.StronglySorted_inv. Qed.

(** A turn of [one_more_poll] on its first item. *)
Lemma one_more_poll_run w l s :
  thread_ok s → works s = w :: l → auto_upd s = [] → rem_upd s = [] → poll_ready w (set_works l s) →
  ∃ s' t, one_more_poll indet env s = Ok (s', None) ∧
    works s' = insert_in_list (next_date (set_needed t w)) l ∧
    polled (works s') ≡ₚ polled (works s) ∧ thread_ok s' ∧
    ext_trig_works s' = ext_trig_works s ∧ tune_ctr s' = tune_ctr s - 1.
Proof.
  intros [H1 H2 H3] Hw Ha Hru Hready. rewrite Hw in H1, H2. apply Forall_cons in H1 as [Hwok Hl].
  destruct (do_poll_ready _ _ Hready) as (s1 & t & Hp & (S1 & S2 & S3 & S4 & S5 & S6)). simpl in *.
  unfold one_more_poll. rewrite Hw, Hp. simpl. unfold reschedule. rewrite S3, S4, Ha, Hru.
  do 2 eexists. split; [done|]. simpl. rewrite S1, S2, S6.
  split; [done|]. split; [|split; [split; simpl; rewrite ?S1, ?S2|done]].
  - by rewrite insert_in_list_polled.
  - by apply insert_in_list_Forall.
  - apply insert_in_list_sorted. by eapply by_date_tail.
  - done.
Qed.


(** ** The polling thread that changes the period of what it polls *)

Lemma remove_names_one nm p names : NoDup names → nm ∈ names →
  nm :: remove_names [(p, nm)] names ≡ₚ names.
Proof.
  intros Hnd Hin. unfold remove_names. simpl. induction Hnd as [|x l Hx Hnd IH]; [by apply elem_of_nil in Hin|].
  simpl. case_bool_decide as E; simpl.
  - subst x. f_equiv. replace (List.filter _ l) with l; [done|].
    clear -Hx. induction l as [|y l IH]; [done|]. simpl. rewrite bool_decide_eq_false_2 by set_solver. simpl.
    f_equal. apply IH. set_solver.
  - rewrite Permutation_swap. f_equiv. apply IH. set_solver.
Qed.

Lemma reinsert_named_polled w s :
  polled (works (reinsert_named w s)) ≡ₚ polled_of w ++ polled (works s).
Proof.
  unfold reinsert_named. destruct (w_name w) eqn:E; simpl.
  - unfold polled_of. by rewrite E.
  - rewrite insert_in_list_polled. done.
Qed.

Lemma reinsert_named_frame w s : ∃ l, reinsert_named w s = set_works l s.
Proof. unfold reinsert_named. destruct (w_name w); [exists (works s); by destruct s|by eexists]. Qed.

Lemma polled_of_remove nm p w :
  NoDup (w_name w) → nm ∈ w_name w →
  polled_of w ≡ₚ (w_dev w, w_type w, nm, update w) :: polled_of (set_names (remove_names [(p, nm)] (w_name w)) w).
Proof. intros Hnd Hin. unfold polled_of. simpl. by rewrite <-(remove_names_one nm p _ Hnd Hin) at 1. Qed.

(** case 2-2 of the comment of [execute_cmd]: the user code of a poll changes
    the period of the object that is being polled, whose item is in no list at
    that moment.  The command is accepted, and after the poll the object is
    scheduled with its new period, once, and all other objects as before. *)
Theorem self_update_period w l s c ds x nm :
  thread_ok s → works s = w :: l → auto_upd s = [] → rem_upd s = [] →
  cmd_code c = POLL_UPD_PERIOD → cmd_dev c = w_dev w → cmd_type c = w_type w → cmd_name c = nm →
  0 < new_upd c → dev_of (w_dev w) (set_devs ds s) = Ok x → NoDup (w_name w) → nm ∈ w_name w →
  (∀ upd, (w_dev w, w_type w, nm, upd) ∉ polled l) →
  (∀ upd, (w_dev w, w_type w, nm, upd) ∉ polled (ext_trig_works s)) →
  ∃ sx R, run_nested indet [(ds, c)] (set_works l s) = Ok sx ∧
    polled (works s) ≡ₚ (w_dev w, w_type w, nm, update w) :: R ∧
    ∀ s1 t, same_lists sx s1 →
      let s2 := reschedule (set_needed t w) s1 in
      polled (works s2) ≡ₚ (w_dev w, w_type w, nm, new_upd c) :: R ∧ auto_upd s2 = [] ∧ rem_upd s2 = [].
Proof.
  intros Hs Hw Ha Hr Hc Hcd Hct Hcn Hu Hx Hnd Hin Hl He.
  assert (HR : polled (works s) ≡ₚ (w_dev w, w_type w, nm, update w) ::
            (polled_of (set_names (remove_names [(new_upd c, nm)] (w_name w)) w) ++ polled l)).
  { rewrite Hw, polled_cons. by rewrite (polled_of_remove nm (new_upd c) w Hnd Hin) at 1. }
  set (s0 := set_local_cmd c (set_devs ds (set_works l s))).
  assert (Hs0 : thread_ok s0).
  { destruct Hs as [H1 H2 H3]. rewrite Hw in H1, H2. apply Forall_cons in H1 as [_ H1].
    split; simpl; [done|by eapply by_date_tail|done]. }
  simpl. fold s0. unfold execute_cmd. change (local_cmd s0) with c. rewrite Hc. unfold exec_upd_period.
  change (local_cmd s0) with c. rewrite (proj2 (Z.eqb_neq (new_upd c) 0)) by lia. simpl.
  destruct (decide (l = [])) as [->|Hne].
  - unfold upd_in_works. simpl. destruct (rem_ext_trig_spec (w_dev w) (w_type w) nm _ (ok_ext _ _ Hs0))
      as (r & Hrt & Hrs). rewrite Hcd, Hct, Hcn. simpl in Hrt. rewrite Hrt. simpl.
    destruct r as [l'|].
    { destruct Hrs as [_ [upd Hp]]. destruct (He upd). simpl in Hp. rewrite Hp. by left. }
    simpl. do 2 eexists. split; [done|]. split; [exact HR|]. intros s1 t (S1 & S2 & S3 & S4 & _).
    simpl in S1, S2, S3, S4. rewrite Ha in S3. rewrite Hr in S4. unfold reschedule. rewrite S3, S4. simpl.
    set (w' := set_names _ _). destruct (reinsert_named_frame w' s1) as [l' Hl'].
    pose proof (reinsert_named_polled w' s1) as Hp. rewrite S1, app_nil_r in Hp.
    unfold auto_upd_one. simpl. rewrite app_nil_r.
    destruct (push_name _ _ _ _ _) as [l2|] eqn:Hpush; simpl.
    + apply push_name_Some in Hpush as [-> _]. split; [|by rewrite Hl']. f_equiv. exact Hp.
    + rewrite insert_in_list_polled. split; [|by rewrite Hl']. simpl. f_equiv. exact Hp.
  - destruct (upd_in_works_spec s0 x Hs0) as (l' & nw & t & Hupd & _ & Hp); [by rewrite <-Hx, <-Hcd|done|done|].
    rewrite Hupd. simpl. change (local_cmd s0) with c in Hp.
    destruct (rem_obj_cases (cmd_dev c) (cmd_type c) (cmd_name c) l) as [(old & _ & Hq)|(Hf & Hq & _)].
    { destruct (Hl old). rewrite <-Hcd, <-Hct, <-Hcn, Hq. by left. }
    do 2 eexists. split; [done|]. split; [exact HR|]. intros s1 t' (S1 & S2 & S3 & S4 & _).
    simpl in S1, S2, S3, S4, Hp. rewrite Ha in S3. rewrite Hr, Hf, Hcn in S4. simpl in S4.
    unfold reschedule. rewrite S3, S4. simpl.
    set (w' := set_names _ _). rewrite reinsert_named_polled, S1, Hp, Hq, Hcd, Hct, Hcn.
    split; [|done]. symmetry. apply Permutation_middle.
Qed.

End Cycle.
