(* ===== verification/PollSleep.v ===== *)
(** * Late polls, tuning and sleeping

  [compute_sleep_time] and [tune_list] of the polling thread: the discard loop
  terminates and moves each late item by the least number of periods; the sleep
  ends at the date of the first item; the tuning leaves every item the time the
  previous one needs. *)
From Stdlib Require Import Sorted.
From S2P Require Import Prelude PollRing PollObj PollThread PollTheory PollCycle.
Local Open Scope Z_scope.

(** ** Late items *)

(** The least number of periods that brings the date of [w] within the threshold
    of [aft]. *)
Definition missed (aft : Z) (w : WorkItem) : Z :=
  Z.max 0 (- ((wake_up_date w + DISCARD_THRESHOLD - aft) / update w)).
Definition catch_up (aft : Z) (w : WorkItem) : WorkItem :=
  set_wake (wake_up_date w + missed aft w * update w) w.

Lemma is_late_true aft w : is_late aft w = true ↔ DISCARD_THRESHOLD < aft - wake_up_date w.
Proof. unfold is_late. rewrite Z.gtb_ltb. apply Z.ltb_lt. Qed.

Lemma is_late_false aft w : is_late aft w = false ↔ aft - wake_up_date w <= DISCARD_THRESHOLD.
Proof. unfold is_late. rewrite Z.gtb_ltb. apply Z.ltb_ge. Qed.

Lemma missed_late aft w : 0 < update w → is_late aft w = true → missed aft (next_date w) = missed aft w - 1 ∧ 0 < missed aft w.
Proof.
  intros Hu Hl%is_late_true. unfold missed, next_date. simpl.
  replace (wake_up_date w + update w + DISCARD_THRESHOLD - aft)
    with (wake_up_date w + DISCARD_THRESHOLD - aft + 1 * update w) by lia.
  rewrite Z.div_add by lia.
  assert ((wake_up_date w + DISCARD_THRESHOLD - aft) / update w < 0) by (apply Z.div_lt_upper_bound; lia).
  lia.
Qed.

Lemma missed_not_late aft w : 0 < update w → is_late aft w = false → missed aft w = 0.
Proof.
  intros Hu Hl%is_late_false. unfold missed.
  assert (0 <= (wake_up_date w + DISCARD_THRESHOLD - aft) / update w) by (apply Z.div_pos; lia). lia.
Qed.

Lemma catch_up_next aft w : 0 < update w → is_late aft w = true → catch_up aft (next_date w) = catch_up aft w.
Proof.
  intros Hu Hl. destruct (missed_late aft w Hu Hl) as [Hm _]. unfold catch_up. rewrite Hm. unfold next_date, set_wake.
  simpl. f_equal. lia.
Qed.

Lemma catch_up_id aft w : 0 < update w → is_late aft w = false → catch_up aft w = w.
Proof. intros Hu Hl. unfold catch_up. rewrite (missed_not_late _ _ Hu Hl), Z.mul_0_l, Z.add_0_r. by destruct w. Qed.

(** [catch_up] moves by whole periods, past the lateness but not a period more. *)
Lemma catch_up_bounds aft w :
  0 < update w → is_late aft w = true →
  aft - DISCARD_THRESHOLD <= wake_up_date (catch_up aft w) < aft - DISCARD_THRESHOLD + update w.
Proof.
  intros Hu Hl. destruct (missed_late aft w Hu Hl) as [_ Hp]. simpl. unfold missed in *.
  pose proof (Z.div_mod (wake_up_date w + DISCARD_THRESHOLD - aft) (update w)).
  pose proof (Z.mod_pos_bound (wake_up_date w + DISCARD_THRESHOLD - aft) (update w) Hu). nia.
Qed.

Definition total_missed (aft : Z) (l : list WorkItem) : nat :=
  foldr (λ w n, (Z.to_nat (missed aft w) + n)%nat) 0%nat l.

Lemma total_missed_perm aft l1 l2 : l1 ≡ₚ l2 → total_missed aft l1 = total_missed aft l2.
Proof. induction 1; simpl; lia. Qed.

Lemma missed_count aft w : 0 < update w → (Z.to_nat (missed aft w) <= late_count aft w)%nat.
Proof.
  intros Hu. unfold missed, late_count.
  pose proof (Z.div_mod (wake_up_date w + DISCARD_THRESHOLD - aft) (update w)).
  pose proof (Z.mod_pos_bound (wake_up_date w + DISCARD_THRESHOLD - aft) (update w) Hu).
  pose proof (Z.div_mod (aft - wake_up_date w) (update w)).
  pose proof (Z.mod_pos_bound (aft - wake_up_date w) (update w) Hu).
  unfold DISCARD_THRESHOLD, milliseconds in *.
  assert (- ((wake_up_date w + 20 * 1000000 - aft) / update w) <= (aft - wake_up_date w) / update w + 1) by nia.
  lia.
Qed.

Lemma total_missed_fuel aft l : Forall work_ok l → (total_missed aft l < discard_fuel aft l)%nat.
Proof.
  unfold discard_fuel. induction 1 as [|w l [Hu _] Hl IH]; simpl; [lia|].
  pose proof (missed_count aft w Hu). lia.
Qed.

Section Sleep.
Context {Any Elt : Type} (env : Env Any Elt).
Implicit Types (s : PollSt Any Elt).

(** The attributes of the item exist. *)
Definition item_known (w : WorkItem) : Prop :=
  w_type w = POLL_ATTR → ∃ i, w_dev w = Some i ∧ attrs_known env i (w_name w).

Definition items_ok (l : list WorkItem) : Prop := Forall (λ w, work_ok w ∧ item_known w) l.

Lemma items_work_ok l : items_ok l → Forall work_ok l.
Proof. intros H. eapply Forall_impl; [exact H|]. by intros w [? _]. Qed.

Lemma insert_after_front w l :
  0 < update w → tail (insert_in_list (next_date w) (w :: l)) = insert_in_list (next_date w) l.
Proof. intros Hu. simpl. rewrite (proj2 (Z.ltb_lt _ _)); [done|lia]. Qed.

(** The state after some discards: only dates, the tuning counter and the trace
    change. *)
Definition discarded (l : list WorkItem) (n : Z) tr s : PollSt Any Elt :=
  set_works l (set_tune n (need_two_tuning s) (with_trace tr s)).

Lemma discard_one_spec w l s :
  works s = w :: l → work_ok w → item_known w →
  ∃ tr, discard_one env w s = Ok (discarded (insert_in_list (next_date w) l) (tune_ctr s - 1) tr s, None).
Proof.
  intros Hw [Hu Hn] Hk. unfold discard_one.
  assert (H : ∃ tr, (if bool_decide (w_type w = POLL_ATTR) then err_out_of_sync env w s else Ok (s, None))
                    = Ok (with_trace tr s, None)).
  { case_bool_decide as E; [|exists (trace s); by rewrite <-with_trace_id].
    destruct (Hk E) as (i & Hi & Hatt). unfold err_out_of_sync. destruct (w_name w) as [|n ns] eqn:Hns; [done|].
    rewrite Hi. simpl deref. rewrite bind_Ok. apply event_loop_trace; [done|]. intros. by eexists. }
  destruct H as [tr ->]. exists tr. simpl. rewrite Hw.
  change (if wake_up_date w <? _ then _ else _) with (insert_in_list (next_date w) (w :: l)).
  rewrite insert_after_front by done. done.
Qed.

(** The loop needs no more turns than periods were missed. *)
Lemma discard_loop_ends fuel s :
  items_ok (works s) → works s ≠ [] → (total_missed (after s) (works s) < fuel)%nat →
  ∃ l n tr w l', discard_loop env fuel s = Some (Ok (discarded l n tr s, None)) ∧ l = w :: l' ∧
    is_late (after s) w = false ∧ items_ok l ∧
    catch_up (after s) <$> l ≡ₚ catch_up (after s) <$> works s ∧
    (by_date (works s) → by_date l).
Proof.
  revert s. induction fuel as [|fuel IH]; intros s Hok Hne Hf; [lia|].
  destruct (works s) as [|w l] eqn:Hw; [done|]. simpl. rewrite Hw.
  destruct (is_late (after s) w) eqn:Hl.
  2: { exists (works s), (tune_ctr s), (trace s), w, l. rewrite Hw. split; [|by repeat split].
       do 3 f_equal. destruct s; simpl in *; by subst. }
  apply Forall_cons in Hok as [[Hwok Hk] Hok].
  destruct (discard_one_spec w l s Hw Hwok Hk) as [tr ->]. set (s1 := discarded _ _ _ _).
  destruct Hwok as [Hu Hn]. destruct (missed_late _ _ Hu Hl) as [Hm Hm0].
  destruct (IH s1) as (l2 & n2 & tr2 & w2 & l2' & He & H1 & H2 & H3 & H4 & H5).
  - simpl. apply insert_in_list_Forall; done.
  - simpl. intros Hnil. pose proof (insert_in_list_perm (next_date w) l) as Hp. rewrite Hnil in Hp.
    by apply Permutation_nil in Hp.
  - simpl. rewrite (total_missed_perm _ _ _ (insert_in_list_perm _ _)). simpl. rewrite Hm. simpl in Hf. lia.
  - exists l2, n2, tr2, w2, l2'. split; [by rewrite He|]. split; [done|]. split; [done|]. split; [done|]. split.
    + change (after s1) with (after s) in H4. rewrite H4. simpl.
      rewrite insert_in_list_perm, fmap_cons. by rewrite (catch_up_next _ _ Hu Hl).
    + intros Hs. apply H5. simpl. apply insert_in_list_sorted. by eapply by_date_tail.
Qed.

Lemma by_date_not_late aft w l :
  by_date (w :: l) → is_late aft w = false → Forall (λ w, is_late aft w = false) (w :: l).
Proof.
  unfold by_date. simpl. intros [_ H]%StronglySorted_inv Hl. constructor; [done|].
  rewrite Forall_fmap in H. eapply Forall_impl; [exact H|]. simpl. intros x Hx.
  apply is_late_false in Hl. apply is_late_false. lia.
Qed.

Lemma catch_up_all_id aft l :
  Forall work_ok l → Forall (λ w, is_late aft w = false) l → catch_up aft <$> l = l.
Proof.
  intros H1 H2. induction H1 as [|w l [Hu _] H1 IH]; [done|]. apply Forall_cons in H2 as [Hl H2].
  rewrite fmap_cons, (catch_up_id _ _ Hu Hl). f_equal. by apply IH.
Qed.

Lemma discard_loop_spec s :
  items_ok (works s) → works s ≠ [] → by_date (works s) →
  ∃ l n tr, discard_loop env (discard_fuel (after s) (works s)) s = Some (Ok (discarded l n tr s, None)) ∧
    l ≡ₚ catch_up (after s) <$> works s ∧ Forall (λ w, is_late (after s) w = false) l ∧ items_ok l ∧ by_date l.
Proof.
  intros Hok Hne Hs.
  destruct (discard_loop_ends (discard_fuel (after s) (works s)) s Hok Hne) as
    (l & n & tr & w & l' & He & -> & Hl & Hok' & Hp & Hs').
  { by apply total_missed_fuel, items_work_ok. }
  exists (w :: l'), n, tr. split; [done|]. pose proof (by_date_not_late _ _ _ (Hs' Hs) Hl) as Hnl.
  split; [|by auto]. rewrite <-Hp. by rewrite (catch_up_all_id _ _ (items_work_ok _ Hok') Hnl).
Qed.

(** What the sleep tells of the first item [w]. *)
Definition wakes_for s (w : WorkItem) : Prop :=
  match sleep s with
  | Some d => after s + d = wake_up_date w
  | None => Z.abs (wake_up_date w - after s) < DISCARD_THRESHOLD
  end.

Definition caught_up (aft : Z) (W W' : list WorkItem) : Prop :=
  W' ≡ₚ catch_up aft <$> W ∧ Forall (λ w, is_late aft w = false) W'.

Lemma caught_up_refl aft w l :
  items_ok (w :: l) → by_date (w :: l) → is_late aft w = false → caught_up aft (w :: l) (w :: l).
Proof.
  intros Hok Hs Hl. pose proof (by_date_not_late _ _ _ Hs Hl) as Hnl. split; [|done].
  by rewrite (catch_up_all_id _ _ (items_work_ok _ Hok) Hnl).
Qed.

Lemma sleep_until_wakes w s : wakes_for (sleep_until (wake_up_date w) s) w ∧
  ∃ o, sleep_until (wake_up_date w) s = set_sleep o s.
Proof.
  unfold sleep_until, wakes_for. case_if; simpl; (split; [lia|by eexists]).
Qed.

Lemma front_sleep_spec s :
  items_ok (works s) → by_date (works s) → works s ≠ [] →
  ∃ s' w l, front_sleep env (discard_fuel (after s) (works s)) s = Some (Ok (s', None)) ∧
    works s' = w :: l ∧ after s' = after s ∧ items_ok (works s') ∧ by_date (works s') ∧
    ext_trig_works s' = ext_trig_works s ∧ caught_up (after s) (works s) (works s') ∧ wakes_for s' w.
Proof.
  intros Hok Hs Hne. unfold front_sleep. destruct (works s) as [|w l] eqn:Hw; [done|].
  assert (Hquiet : is_late (after s) w = false → ∀ o, wakes_for (set_sleep o s) w →
     ∃ s' w0 l0, Some (Ok (set_sleep o s, @None exn)) = Some (Ok (s', None)) ∧
       works s' = w0 :: l0 ∧ after s' = after s ∧ items_ok (works s') ∧ by_date (works s') ∧
       ext_trig_works s' = ext_trig_works s ∧ caught_up (after s) (w :: l) (works s') ∧ wakes_for s' w0).
  { intros Hl o Ho. exists (set_sleep o s), w, l. simpl. rewrite Hw.
    repeat (split; [done|]). split; [by apply caught_up_refl|done]. }
  case_if; [case_if|].
  - apply Hquiet; [apply is_late_false; lia|]. unfold wakes_for. simpl. lia.
  - rewrite <-Hw. destruct (discard_loop_spec s) as (l' & n & tr & -> & Hc & Hnl & Hok' & Hs');
      [by rewrite Hw|by rewrite Hw|by rewrite Hw|].
    simpl. destruct l' as [|w' l']; [by rewrite Hw in Hc; apply Permutation_nil_l in Hc|].
    destruct (sleep_until_wakes w' (discarded (w' :: l') n tr s)) as [Hwk [o Ho]].
    rewrite Ho in Hwk |- *. exists (set_sleep o (discarded (w' :: l') n tr s)), w', l'. by repeat (split; [done|]).
  - apply Hquiet; [apply is_late_false; unfold DISCARD_THRESHOLD, milliseconds; lia|].
    unfold wakes_for. simpl. lia.
Qed.

Lemma nb_late_zero aft l : nb_late aft l = 0 → Forall (λ w, is_late aft w = false) l.
Proof.
  unfold nb_late. induction l as [|w l IH]; simpl; [constructor|]. case_if; simpl; [lia|]. by constructor; [|apply IH].
Qed.

Lemma nb_late_pos aft l : nb_late aft l ≠ 0 → Exists (λ w, is_late aft w = true) l.
Proof.
  unfold nb_late. induction l as [|w l IH]; simpl; [done|]. case_if; simpl; [by constructor|].
  intros H. by apply Exists_cons_tl, IH.
Qed.

(** The result of [compute_sleep_time], on each of its branches. *)
Lemma compute_sleep_time_run s :
  items_ok (works s) → by_date (works s) → works s ≠ [] →
  ∃ s' w l, compute_sleep_time env (discard_fuel (after s) (works s)) s = Some (Ok (s', None)) ∧
    works s' = w :: l ∧ items_ok (works s') ∧ by_date (works s') ∧
    ext_trig_works s' = ext_trig_works s ∧
    ((works s' = works s ∧ sleep s' = None ∧ Exists (λ w, is_late (after s) w = true) (works s)) ∨
     (caught_up (after s) (works s) (works s') ∧ wakes_for s' w)).
Proof.
  intros Hok Hs Hne. unfold compute_sleep_time.
  assert (Hfront : ∀ s1, works s1 = works s → after s1 = after s → ext_trig_works s1 = ext_trig_works s →
    ∃ s' w l, front_sleep env (discard_fuel (after s) (works s)) s1 = Some (Ok (s', None)) ∧
      works s' = w :: l ∧ items_ok (works s') ∧ by_date (works s') ∧ ext_trig_works s' = ext_trig_works s ∧
      ((works s' = works s ∧ sleep s' = None ∧ Exists (λ w, is_late (after s) w = true) (works s)) ∨
       (caught_up (after s) (works s) (works s') ∧ wakes_for s' w))).
  { intros s1 H1 H2 H3. destruct (front_sleep_spec s1) as (s' & w & l & He & Hr); [by rewrite H1..|].
    rewrite H1, H2, H3 in *. exists s', w, l. naive_solver. }
  destruct (works s) as [|w l] eqn:Hw; [done|]. rewrite <-Hw in *. clear Hne.
  assert (Hlate : ∀ s1, works s1 = works s → sleep s1 = None → ext_trig_works s1 = ext_trig_works s →
    nb_late (after s) (works s) ≠ 0 →
    ∃ s' w l, Some (Ok (s1, @None exn)) = Some (Ok (s', None)) ∧
      works s' = w :: l ∧ items_ok (works s') ∧ by_date (works s') ∧ ext_trig_works s' = ext_trig_works s ∧
      ((works s' = works s ∧ sleep s' = None ∧ Exists (λ w, is_late (after s) w = true) (works s)) ∨
       (caught_up (after s) (works s) (works s') ∧ wakes_for s' w))).
  { intros s1 H1 H2 H3 H4. exists s1, w, l. rewrite H1, Hw in *. repeat (split; [done|]).
    left. split; [done|]. split; [done|]. by apply nb_late_pos. }
  unfold late_policy. destruct (polling_bef_9 s); [by apply Hfront|].
  destruct (Z.eqb_spec (nb_late (after s) (works s)) 0) as [E|E]; [by apply Hfront|].
  repeat case_if; simpl; first [by apply Hfront|by apply Hlate].
Qed.


(** ** Tuning *)

(** [l'] is [l] tuned after the item [prev]: only dates change, and an item
    planned before [nt] comes after a whole number of periods of the previous
    item, the time this one needs and the share [delta] of the idle time. *)
Fixpoint spaced (nt delta : Z) (prev : WorkItem) (l l' : list WorkItem) : Prop :=
  match l, l' with
  | [], [] => True
  | w :: l, w' :: l' =>
      w' = set_wake (wake_up_date w') w ∧
      (if wake_up_date w <? nt then
         ∃ n, 0 <= n ∧ wake_up_date w' = wake_up_date prev + n * update prev + needed_time prev + delta ∧
              wake_up_date prev + n * update prev <= Z.max (wake_up_date prev) (wake_up_date w) ∧
              Z.max (wake_up_date prev) (wake_up_date w) < wake_up_date prev + (n + 1) * update prev
       else wake_up_date w' = wake_up_date w) ∧
      spaced nt delta w' l l'
  | _, _ => False
  end.

Lemma next_prev_spec prev nw :
  0 < update prev →
  ∃ n, 0 <= n ∧ next_prev prev nw = Ok (wake_up_date prev + n * update prev) ∧
    wake_up_date prev + n * update prev <= Z.max (wake_up_date prev) nw ∧
    Z.max (wake_up_date prev) nw < wake_up_date prev + (n + 1) * update prev.
Proof.
  intros Hu. unfold next_prev. case_if.
  - rewrite (proj2 (Z.eqb_neq _ _)) by lia. exists (Z.quot (nw - wake_up_date prev) (update prev)).
    rewrite Z.quot_div_nonneg by lia.
    pose proof (Z.div_mod (nw - wake_up_date prev) (update prev)).
    pose proof (Z.mod_pos_bound (nw - wake_up_date prev) (update prev) Hu).
    pose proof (Z.div_pos (nw - wake_up_date prev) (update prev)).
    split; [lia|]. split; [done|]. rewrite Z.max_r by lia. nia.
  - exists 0. rewrite Z.mul_0_l, Z.add_0_r. split; [lia|]. split; [done|]. lia.
Qed.

Lemma tune_from_spaced nt delta prev l :
  0 < update prev → Forall work_ok l → ∃ l', tune_from nt delta prev l = Ok l' ∧ spaced nt delta prev l l'.
Proof.
  intros Hu Hl. revert prev Hu. induction Hl as [|w l [Hw Hn] Hl IH]; intros prev Hu; simpl; [by exists []|].
  case_if.
  - destruct (next_prev_spec prev (wake_up_date w) Hu) as (n & Hn0 & -> & H1 & H2). simpl.
    set (w' := set_wake _ _). destruct (IH w') as (l' & -> & Hs); [done|]. exists (w' :: l'). split; [done|].
    simpl. split; [done|]. split; [|done]. exists n.
    split; [done|]. split; [lia|done].
  - simpl. destruct (IH w) as (l' & -> & Hs); [done|]. exists (w :: l'). split; [done|]. simpl.
    split; [by destruct w|]. done.
Qed.

Lemma spaced_polled nt delta prev l l' : spaced nt delta prev l l' → polled l' = polled l.
Proof.
  revert prev l'. induction l as [|w l IH]; intros prev [|w' l']; simpl; try done.
  intros (-> & _ & H). rewrite !polled_cons. f_equal. by eapply IH.
Qed.

Lemma spaced_ok nt delta prev l l' : spaced nt delta prev l l' → Forall work_ok l → Forall work_ok l'.
Proof.
  intros H Hl. revert prev l' H. induction Hl as [|w l Hw Hl IH]; intros prev [|w' l']; simpl; try done.
  intros (-> & _ & H). constructor; [done|]. by eapply IH.
Qed.

Lemma spaced_sorted nt delta prev l l' :
  0 <= delta → 0 < update prev → 0 <= needed_time prev → Forall work_ok l → Forall (λ w, 0 <= needed_time w) l →
  Forall (λ w, wake_up_date w < nt) l → spaced nt delta prev l l' → by_date (prev :: l').
Proof.
  intros Hd Hu Hn Hl. revert prev Hu Hn l'. unfold by_date.
  induction Hl as [|w l [Hw Hnm] Hl IH]; intros prev Hu Hn [|w' l'] Hneed Hnt H; simpl in H; try done.
  { repeat constructor. }
  apply Forall_cons in Hneed as [Hnw Hneed]. apply Forall_cons in Hnt as [Hw1 Hnt].
  destruct H as (Hw' & Hd' & H). rewrite (proj2 (Z.ltb_lt _ _)) in Hd' by done.
  destruct Hd' as (n & Hn0 & He & _ & _).
  assert (0 < update w' ∧ 0 <= needed_time w') as [Hu' Hn'] by (by rewrite Hw').
  specialize (IH w' Hu' Hn' l' Hneed Hnt H). constructor; [done|].
  apply StronglySorted_inv in IH as [_ IH]. assert (wake_up_date prev <= wake_up_date w') by nia.
  constructor; [done|]. eapply Forall_impl; [exact IH|]. simpl. lia.
Qed.

Lemma needed_sum_le_min l :
  Forall (λ w, 0 <= needed_time w) l → 0 <= needed_sum l.
Proof. induction 1; unfold needed_sum in *; simpl; lia. Qed.

(** the tuning of the work list never fails, changes only dates and keeps
    the bag of polled objects; unless the needed times exceed the smallest
    period, each item planned within the tuning horizon is put after a poll of
    the previous item, at a distance of at least the time that item needs plus
    an equal share of the idle time; when all the items are within the horizon
    the list stays sorted. *)
Theorem tune_list_spaces s w l :
  works s = w :: l → l ≠ [] → Forall work_ok (works s) → Forall (λ w, 0 <= needed_time w) (works s) →
  let delta := (min_upd (works s) - needed_sum (works s)) / Z.of_nat (length (works s)) in
  let nt := now s + POLL_LOOP_NB * min_upd (works s) in
  ∃ l', tune_list true s = Ok (set_works (w :: l') s) ∧
    polled (w :: l') = polled (works s) ∧ Forall work_ok (w :: l') ∧
    (min_upd (works s) < needed_sum (works s) → l' = l) ∧
    (needed_sum (works s) <= min_upd (works s) → spaced nt delta w l l' ∧
       (Forall (λ w, wake_up_date w < nt) l → by_date (w :: l'))).
Proof.
  intros Hw Hl Hok Hneed. unfold tune_list, tune_needed. rewrite Hw in *.
  destruct l as [|w2 l2]; [done|]. clear Hl. case_if.
  - exists (w2 :: l2). split; [done|]. split; [done|]. split; [done|]. split; [done|]. intros; lia.
  - pose proof (needed_sum_le_min _ Hneed) as Hn0. pose proof Hok as [[Hu Hnm] Hok2]%Forall_cons.
    pose proof Hneed as [Hnw Hneed2]%Forall_cons.
    rewrite Z.quot_div_nonneg by (simpl length; lia).
    set (delta := _ / _). set (nt := now s + _).
    assert (Hdel : 0 <= delta) by (apply Z.div_pos; simpl length; lia).
    destruct (tune_from_spaced nt delta w (w2 :: l2) Hu Hok2) as (l' & -> & Hs).
    exists l'. split; [done|]. split; [|split; [|split; [intros; lia|]]].
    + rewrite !(polled_cons w). f_equal. by eapply spaced_polled.
    + constructor; [done|]. by eapply spaced_ok.
    + intros _. split; [done|]. intros Hnt. by eapply spaced_sorted.
Qed.

(** ** A turn of the main loop *)

Lemma polled_catch_up aft l : polled (catch_up aft <$> l) = polled l.
Proof. induction l as [|w l IH]; [done|]. rewrite fmap_cons, !polled_cons, IH. done. Qed.

Lemma get_command_timeout arrived s :
  cmd_pending arrived = false → trigger arrived = false →
  fst (get_command arrived s) = POLL_TIME_OUT ∧ same_lists s (snd (get_command arrived s)) ∧
  polling_bef_9 (snd (get_command arrived s)) = polling_bef_9 s.
Proof. intros Hc Ht. unfold get_command. rewrite Hc, Ht. by destruct (sleep s) as [[]|]. Qed.

(** a turn of the main loop in which no command arrives and no tuning is due
    never fails and never hangs: the bag of the polled objects is the same
    after it, every item stays well formed, and the list is sorted again. *)
Theorem main_loop_turn indet arrived t_now t_after s w l :
  let s0 := set_now t_now (snd (get_command arrived s)) in
  cmd_pending arrived = false → trigger arrived = false →
  thread_ok s → items_ok (works s) → works s = w :: l → auto_upd s = [] → rem_upd s = [] →
  poll_ready env w (set_works l s0) → 1 < tune_ctr s →
  ∃ s', loop_step indet env arrived t_now t_after s = Ok s' ∧
    polled (works s') ≡ₚ polled (works s) ∧ thread_ok s' ∧ items_ok (works s').
Proof.
  intros s0 Hc Ht Hok Hitems Hw Ha Hr Hready Htune. unfold loop_step.
  destruct (get_command_timeout arrived s Hc Ht) as (Hg & (S1 & S2 & S3 & S4 & S5 & S6) & _).
  destruct (get_command arrived s) as [received sg] eqn:Hgc. simpl in *. subst received.
  assert (Hok0 : thread_ok s0) by (unfold thread_ok in *; simpl; by rewrite S1, S2).
  destruct (one_more_poll_run indet env w l s0) as (s1 & t & He & Hw1 & Hp1 & Hok1 & Hext & Htc);
    [done|by simpl; rewrite S1|by simpl; rewrite S3|by simpl; rewrite S4|done|].
  simpl. fold s0. rewrite He. simpl. unfold tune_turn. simpl in Htc. rewrite S6 in Htc.
  simpl. rewrite (proj2 (Z.leb_gt _ _)) by lia. simpl.
  assert (Hitems1 : items_ok (works s1)).
  { rewrite Hw1. rewrite Hw in Hitems. apply Forall_cons in Hitems as [[Hwk Hk] Hl].
    apply insert_in_list_Forall; [split; [by apply work_ok_next|exact Hk]|exact Hl]. }
  destruct (compute_sleep_time_run (set_after t_after s1)) as (s2 & w2 & l2 & Hcs & Hw2 & Hi2 & Hs2 & He2 & Hcase).
  { exact Hitems1. }
  { simpl. apply Hok1. }
  { simpl. rewrite Hw1. intros Hnil.
    pose proof (insert_in_list_perm (next_date (set_needed t w)) l) as Hp. rewrite Hnil in Hp.
    by apply Permutation_nil in Hp. }
  simpl in *. rewrite Hcs. exists s2. split; [done|]. split; [|split; [|done]].
  - rewrite S1 in Hp1. rewrite <-Hp1. destruct Hcase as [[-> _]|[[Hcp _] _]]; [done|].
    by rewrite (polled_perm _ _ Hcp), polled_catch_up.
  - split; [by apply items_work_ok|done|]. rewrite He2. apply Hok1.
Qed.

End Sleep.
