(* ===== verification/PollWitness.v ===== *)
(** * A polling thread on concrete data

  One scenario for the theorems on the polling thread: a device of IDL 5 that
  polls a command every second and two attributes every two seconds.  The
  witnesses apply the theorems to it; the examples at the end are behaviours of
  the code that differ from what its comments promise. *)
From Stdlib Require Import Sorted.
From S2P Require Import Prelude PollRing PollObj PollThread PollTheory PollCycle PollSleep.
Local Open Scope string_scope.
Local Open Scope Z_scope.

Definition ex_obj (ty : PollObjType) (nm : string) (upd : Z) : PollObj Z Z := PollObj_depth 4 ty nm upd 3.
Definition ex_dev : Device Z Z :=
  mkDevice 5 4 [ex_obj POLL_CMD "Cmd" (milliseconds 1000); ex_obj POLL_ATTR "a" (milliseconds 2000);
                ex_obj POLL_ATTR "b" (milliseconds 2000)].
Definition ex_devs : gmap nat (Device Z Z) := {[ 0%nat := ex_dev; 1%nat := ex_dev ]}.

Definition ex_no_cmd : PollThCmd := mkCmd false false POLL_START None 0 "" POLL_CMD 0.
Definition ex_state (works ext : list WorkItem) : PollSt Z Z :=
  mkPollSt works ext ex_no_cmd ex_no_cmd 0 0 (Some 1) false 10 false false 0 0 false [] [] false ex_devs [].

Definition ex_value (errs : DevErrorList) : AttributeValue Z :=
  mkAV (mkUnion ATT_LONG [7]) ATTR_VALID (mkTimeVal 0 0 0) (mkDim 1 0) (mkDim 0 0) errs.
Definition ex_error : DevErrorList := [mkDevError "API_X" ERR "not available" "read"].

Definition ex_env : Env Z Z :=
  mkEnv (λ s _ _, mkUserCall _ 100 150 [] (devs s) (inr 42) true)
    (λ s _ names, mkUserCall _ 100 180 [] (devs s)
       (inr (imap (λ i _, ex_value (if (i =? 1)%nat then ex_error else [])) names)) true)
    (λ _ nm, if bool_decide (nm = "gone") then None else Some (false, true))
    (λ sup, match sup with Zmq => true | Notifd => false end) (λ _, true)
    (λ _ _ _ _, mkSend true false false).

Definition ex_cmd_item : WorkItem := mkWork (Some 0%nat) 0 (milliseconds 1000) POLL_CMD ["Cmd"] 0.
Definition ex_att_item : WorkItem := mkWork (Some 0%nat) (milliseconds 5) (milliseconds 2000) POLL_ATTR ["a"; "b"] 0.
Definition ex_works : list WorkItem := [ex_cmd_item; ex_att_item].
Definition ex_ring_wf : ring_wf (PollRing_new 3 : PollRing Z Z) := ring_wf_new 3 eq_refl.

Lemma ex_thread_ok (l : list WorkItem) s :
  forallb (λ w, (0 <? update w) && negb (bool_decide (w_name w = []))) l = true →
  by_date l → works s = l → ext_trig_works s = [] → thread_ok (Any:=Z) (Elt:=Z) s.
Proof.
  intros H Hs Hw He. unfold thread_ok. rewrite Hw, He. split; [|done|constructor].
  apply Forall_forall. intros w Hin. apply Is_true_true_2, forallb_True in H. rewrite Forall_forall in H.
  specialize (H w Hin). apply Is_true_true in H. propb. by split.
Qed.

Lemma ex_works_ok : thread_ok (ex_state ex_works []).
Proof.
  apply (ex_thread_ok ex_works); [done| |done|done]. unfold by_date. simpl. repeat constructor; done.
Qed.

Lemma ex_rings_ok : rings_ok ex_dev.
Proof. repeat constructor; simpl; lia. Qed.

Definition ex_with_cmd (c : PollThCmd) (s : PollSt Z Z) : PollSt Z Z := set_local_cmd c s.
Definition ex_upd_cmd : PollThCmd := mkCmd true false POLL_UPD_PERIOD (Some 0%nat) 0 "b" POLL_ATTR (milliseconds 500).


Lemma poll_cmd_stores_witness :
  let uc := call_cmd ex_env (ex_state ex_works []) 0%nat "Cmd" in
  ∃ o' x, records x (before_cmd uc) (ex_obj POLL_CMD "Cmd" (milliseconds 1000)) o' ∧
    match uc_result uc with inl (DevFailed errs) => x = inl errs | inr a => x = inr (CmdData a) | _ => False end ∧
    poll_cmd 0 ex_env ex_cmd_item (ex_state ex_works []) =
      Ok (set_dev 0%nat (with_poll_list ex_dev (<[0%nat:=o']> (poll_obj_list ex_dev))) (ex_state ex_works []), None,
          set_needed (after_cmd uc - before_cmd uc) ex_cmd_item).
Proof.
  apply (poll_cmd_stores 0 ex_env ex_cmd_item 0%nat "Cmd" (ex_state ex_works []) (ex_state ex_works []) ex_dev 0%nat);
    try reflexivity; [exact ex_ring_wf|discriminate].
Defined.

Lemma ex_known (d : nat) (names : list string) : "gone" ∉ names → attrs_known ex_env d names.
Proof.
  intros H. apply Forall_forall. intros nm Hin. simpl. rewrite bool_decide_eq_false_2; [by eexists|].
  by intros ->.
Qed.

Lemma ex_found nm : nm ∈ ["a"; "b"] → is_Some (find_polled_obj POLL_ATTR nm (poll_obj_list ex_dev)).
Proof. intros H. apply elem_of_cons in H as [->|H]; [by eexists|]. apply elem_of_cons in H as [->|H]; [by eexists|]. by apply elem_of_nil in H. Qed.

Lemma poll_attr_stores_witness :
  let s := ex_state ex_works [] in
  let uc := call_attr ex_env s 0%nat ["a"; "b"] in
  ∃ d' tr, poll_attr 0 ex_env ex_att_item s =
      Ok (set_dev 0%nat d' (with_trace tr s), None, set_needed (after_cmd uc - before_cmd uc) ex_att_item) ∧
    stored POLL_ATTR ["a"; "b"] (attr_outcome 5 (inr [ex_value []; ex_value ex_error])) (before_cmd uc) ex_dev d'.
Proof.
  apply (poll_attr_stores 0 ex_env ex_att_item 0%nat (ex_state ex_works []) (ex_state ex_works []) ex_dev ex_dev);
    try reflexivity; try done.
  - by apply (bool_decide_unpack _).
  - apply ex_known. by apply (bool_decide_unpack _).
  - exact ex_rings_ok.
  - exact ex_found.
Defined.

Lemma ex_ready s : devs s = ex_devs → poll_ready ex_env ex_cmd_item s.
Proof. intros H. exists 0%nat, ex_dev. rewrite H. repeat split; try done; [exact ex_rings_ok|]. by exists "Cmd". Qed.


Definition ex_first_att : WorkItem := set_wake (-1) ex_att_item.

Lemma self_update_period_witness :
  let s := ex_state [ex_first_att; ex_cmd_item] [] in
  ∃ sx R, run_nested 0 [(ex_devs, ex_upd_cmd)] (set_works [ex_cmd_item] s) = Ok sx ∧
    polled (works s) ≡ₚ (Some 0%nat, POLL_ATTR, "b", milliseconds 2000) :: R ∧
    ∀ s1 t, same_lists sx s1 →
      let s2 := reschedule (set_needed t ex_first_att) s1 in
      polled (works s2) ≡ₚ (Some 0%nat, POLL_ATTR, "b", milliseconds 500) :: R ∧ auto_upd s2 = [] ∧ rem_upd s2 = [].
Proof.
  apply (self_update_period 0 ex_first_att [ex_cmd_item] (ex_state [ex_first_att; ex_cmd_item] [])
           ex_upd_cmd ex_devs ex_dev "b"); try reflexivity; try (by apply (bool_decide_unpack _)).
  - apply (ex_thread_ok [ex_first_att; ex_cmd_item]); try done. unfold by_date. simpl. repeat constructor; done.
  - intros upd H. apply elem_of_cons in H as [H|H]; [discriminate|by apply elem_of_nil in H].
  - intros upd H. by apply elem_of_nil in H.
Defined.

Lemma ex_items_ok (l : list WorkItem) :
  forallb (λ w, (0 <? update w) && negb (bool_decide (w_name w = [])) &&
                negb (bool_decide (w_dev w = None)) && negb (bool_decide ("gone" ∈ w_name w))) l = true →
  items_ok ex_env l.
Proof.
  intros H. apply Forall_forall. intros w Hin. apply Is_true_true_2, forallb_True in H. rewrite Forall_forall in H.
  specialize (H w Hin). apply Is_true_true in H. propb. split; [by split|]. intros _.
  destruct (w_dev w) as [i|]; [|done]. exists i. split; [done|]. by apply ex_known.
Qed.

(** A thread that is three periods late for the command. *)
Definition ex_late : PollSt Z Z := set_after (milliseconds 3500) (ex_state ex_works []).


Lemma tune_list_spaces_witness :
  let s := ex_state ex_works [] in
  let delta := (min_upd (works s) - needed_sum (works s)) / Z.of_nat (length (works s)) in
  let nt := now s + POLL_LOOP_NB * min_upd (works s) in
  ∃ l', tune_list true s = Ok (set_works (ex_cmd_item :: l') s) ∧
    polled (ex_cmd_item :: l') = polled (works s) ∧ Forall work_ok (ex_cmd_item :: l') ∧
    (min_upd (works s) < needed_sum (works s) → l' = [ex_att_item]) ∧
    (needed_sum (works s) <= min_upd (works s) → spaced nt delta ex_cmd_item [ex_att_item] l' ∧
       (Forall (λ w, wake_up_date w < nt) [ex_att_item] → by_date (ex_cmd_item :: l'))).
Proof.
  apply (tune_list_spaces (ex_state ex_works []) ex_cmd_item [ex_att_item]).
  - reflexivity.
  - discriminate.
  - exact (ok_works _ _ ex_works_ok).
  - repeat constructor; done.
Defined.

Lemma main_loop_turn_witness :
  let s := ex_state ex_works [] in
  ∃ s', loop_step 0 ex_env ex_no_cmd 10 20 s = Ok s' ∧
    polled (works s') ≡ₚ polled (works s) ∧ thread_ok s' ∧ items_ok ex_env (works s').
Proof.
  apply (main_loop_turn ex_env 0 ex_no_cmd 10 20 (ex_state ex_works []) ex_cmd_item [ex_att_item]);
    try reflexivity; try (by apply ex_items_ok); [exact ex_works_ok|by apply ex_ready].
Defined.

(** ** Where the code differs from its comments *)

(** An exception that leaves a poll (an attribute that has gone) drops the item:
    it is in no list afterwards, its objects are not polled any more. *)
Definition ex_gone_item : WorkItem := mkWork (Some 0%nat) 0 (milliseconds 1000) POLL_ATTR ["a"; "gone"] 0.
Example poll_exception_drops_item :
  ∃ s e, one_more_poll 0 ex_env (ex_state [ex_gone_item; ex_att_item] []) = Ok (s, Some e) ∧ works s = [ex_att_item].
Proof. do 2 eexists. split; vm_compute; reflexivity. Qed.

(** POLL_UPD_PERIOD with a period for an externally triggered object, when the
    work list is not empty: the object is then polled but also stays externally
    triggered, and the entry in [rem_upd], which has only a name, makes the next
    poll drop the object of that name of another device. *)
Definition ex_ext : list WorkItem := [mkWork (Some 0%nat) 0 0 POLL_ATTR ["b"] 0].
Definition ex_other : WorkItem := mkWork (Some 1%nat) 0 (milliseconds 2000) POLL_ATTR ["b"] 0.
Example upd_period_of_triggered_object :
  ∃ s1 s2, execute_cmd 0 (ex_with_cmd ex_upd_cmd (ex_state [ex_other] ex_ext)) = Ok s1 ∧
    polled (ext_trig_works s1) = [(Some 0%nat, POLL_ATTR, "b", 0)] ∧
    (Some 1%nat, POLL_ATTR, "b", milliseconds 2000) ∈ polled (works s1) ∧
    one_more_poll 0 ex_env s1 = Ok (s2, None) ∧
    polled (works s2) = [(Some 0%nat, POLL_ATTR, "b", milliseconds 500)].
Proof.
  do 2 eexists. split; [vm_compute; reflexivity|]. split; [vm_compute; reflexivity|].
  split; [by apply (bool_decide_unpack _); vm_compute|]. split; vm_compute; reflexivity.
Qed.

(** POLL_UPD_PERIOD with period 0 for an object that is not in the work list: it
    ends in the work list with period 0 and its name twice. *)
Definition ex_upd_zero : PollThCmd := mkCmd true false POLL_UPD_PERIOD (Some 0%nat) 2 "b" POLL_ATTR 0.
Example upd_period_zero_twice :
  ∃ s, execute_cmd 0 (ex_with_cmd ex_upd_zero (ex_state [ex_cmd_item] [])) = Ok s ∧
    (Some 0%nat, POLL_ATTR, "b", 0) ∈ polled (works s) ∧ w_name <$> works s = [["b"; "b"]; ["Cmd"]].
Proof.
  eexists. split; [vm_compute; reflexivity|].
  split; [by apply (bool_decide_unpack _); vm_compute|vm_compute; reflexivity].
Qed.

(** A lateness of exactly the threshold gives a negative sleep. *)
Example negative_sleep :
  ∃ s, compute_sleep_time ex_env 5 (set_after DISCARD_THRESHOLD (ex_state [ex_cmd_item] [])) = Some (Ok (s, None)) ∧
    sleep s = Some (- DISCARD_THRESHOLD).
Proof. eexists. split; vm_compute; reflexivity. Qed.

(** An item planned after the tuning horizon does not move, and the tuned list
    is then not sorted. *)
Definition ex_horizon : list WorkItem :=
  [ mkWork (Some 0%nat) 0 4999 POLL_CMD ["Cmd"] 900;
    mkWork (Some 0%nat) 499999 2000000 POLL_ATTR ["a"] 0;
    mkWork (Some 1%nat) 500000 1000 POLL_ATTR ["b"] 0 ].
Example tuned_list_unsorted :
  ∃ l, tune_needed 0 ex_horizon = Ok l ∧ wake_up_date <$> l = [0; 500833; 500000].
Proof. eexists. split; vm_compute; reflexivity. Qed.
