(* ===== verification/CppString.v ===== *)
(** * The operations of [std::string] the polling code uses

  [find], [rfind], [substr] and [erase] with the meaning of the C++ standard:
  positions count from 0, [None] is [npos], and a start beyond the end of the
  string throws [std::out_of_range].  [tolower] is the C locale's.  [join] is the
  abstract counterpart of [Util::split_string]: names separated by commas. *)
From Stdlib Require Import Ascii.
From S2P Require Import Prelude.
Local Open Scope string_scope.
#[local] Arguments String.append : simpl nomatch.
Local Open Scope list_scope.
Local Open Scope nat_scope.

Abbreviation chars := String.list_ascii_of_string.
Abbreviation len := String.length.

Definition out_of_range {A} : outcome A := Exc (OtherExc "std::out_of_range").

(** ** Definitions *)

Fixpoint str_drop (n : nat) (s : string) : string :=
  match n, s with S n, String _ s => str_drop n s | _, _ => s end.
Fixpoint str_take (n : nat) (s : string) : string :=
  match n, s with S n, String a s => String a (str_take n s) | _, _ => "" end.

Fixpoint find_at (p s : string) : option nat :=
  if String.prefix p s then Some 0
  else match s with "" => None | String _ s => S <$> find_at p s end.

(** [s.find(p, start)]. *)
Definition find (p s : string) (start : nat) : option nat :=
  if start <=? len s then Nat.add start <$> find_at p (str_drop start s) else None.

(** [s.rfind(p)]. *)
Fixpoint rfind (p s : string) : option nat :=
  match s with
  | "" => if String.prefix p "" then Some 0 else None
  | String _ s' =>
      match rfind p s' with
      | Some i => Some (S i)
      | None => if String.prefix p s then Some 0 else None
      end
  end.

Definition substr (s : string) (start n : nat) : outcome string :=
  if start <=? len s then Ok (str_take n (str_drop start s)) else out_of_range.

(** [s.erase(pos, n)], and [s.erase(pos)] up to the end. *)
Definition erase (s : string) (pos n : nat) : outcome string :=
  if pos <=? len s then Ok (str_take pos s +:+ str_drop (pos + n) s) else out_of_range.
Definition erase_end (s : string) (pos : nat) : outcome string := erase s pos (len s).

Definition tolower_char (a : Ascii.ascii) : Ascii.ascii :=
  let n := Ascii.nat_of_ascii a in
  if (65 <=? n) && (n <=? 90) then Ascii.ascii_of_nat (n + 32) else a.
Fixpoint tolower (s : string) : string :=
  match s with "" => "" | String a s => String (tolower_char a) (tolower s) end.

Definition comma : Ascii.ascii := ","%char.

(** Names separated by commas. *)
Fixpoint join (l : list string) : string :=
  match l with
  | [] => ""
  | [x] => x
  | x :: l => x +:+ String comma (join l)
  end.

(** A name without a comma. *)
Definition comma_free (s : string) : Prop := comma ∉ chars s.

(** ** Lengths and parts *)

Lemma app_len s1 s2 : len (s1 +:+ s2) = len s1 + len s2.
Proof. induction s1; simpl; auto. Qed.

Lemma app_empty s : s +:+ "" = s.
Proof. induction s as [|a s IH]; simpl; [done|]. by rewrite IH. Qed.

Lemma app_assoc_str s1 s2 s3 : (s1 +:+ s2) +:+ s3 = s1 +:+ s2 +:+ s3.
Proof. induction s1 as [|a s1 IH]; simpl; [done|]. by rewrite IH. Qed.

Lemma str_drop_app n s1 s2 : str_drop (len s1 + n) (s1 +:+ s2) = str_drop n s2.
Proof. induction s1; simpl; auto. Qed.

Lemma str_drop_0 s : str_drop 0 s = s.
Proof. by destruct s. Qed.

Lemma str_drop_app0 s1 s2 : str_drop (len s1) (s1 +:+ s2) = s2.
Proof. rewrite <- (Nat.add_0_r (len s1)), str_drop_app. apply str_drop_0. Qed.

Lemma str_drop_all s n : len s <= n → str_drop n s = "".
Proof.
  revert n. induction s as [|a s IH]; intros [|n] H; simpl in *; try done; [lia|].
  apply IH. lia.
Qed.

Lemma str_take_0 s : str_take 0 s = "".
Proof. by destruct s. Qed.

Lemma str_take_app s1 s2 : str_take (len s1) (s1 +:+ s2) = s1.
Proof. induction s1 as [|a s1 IH]; simpl; [by destruct s2|]. by rewrite IH. Qed.

Lemma str_take_all s n : len s <= n → str_take n s = s.
Proof.
  revert n. induction s as [|a s IH]; intros [|n] H; simpl in *; try done; [lia|].
  by rewrite IH by lia.
Qed.

(** ** Searching *)

Lemma prefix_app p r : String.prefix p (p +:+ r) = true.
Proof. induction p as [|a p IH]; simpl; [by destruct r|]. destruct (Ascii.ascii_dec a a); done. Qed.

Lemma prefix_ne a b p s : a ≠ b → String.prefix (String a p) (String b s) = false.
Proof. intros H. simpl. by destruct (Ascii.ascii_dec a b). Qed.

Lemma prefix_app_r q x r : String.prefix q x = true → String.prefix q (x +:+ r) = true.
Proof.
  revert q. induction x as [|a x IH]; intros [|b q]; simpl; try done; [by destruct r|].
  destruct (Ascii.ascii_dec b a); auto.
Qed.

Lemma prefix_comma p x r :
  comma_free p → String.prefix p (x +:+ String comma r) = true → String.prefix p x = true.
Proof.
  unfold comma_free. revert x. induction p as [|a p IH]; intros x Hp H; [by destruct x|].
  destruct x as [|b x]; simpl in *.
  - destruct (Ascii.ascii_dec a comma); [|done]. subst. set_solver.
  - destruct (Ascii.ascii_dec a b); [|done]. apply IH; [set_solver|done].
Qed.

Lemma find_at_cons p a s :
  find_at p (String a s) = if String.prefix p (String a s) then Some 0 else S <$> find_at p s.
Proof. done. Qed.

Lemma find_at_cons_None p a s :
  find_at p (String a s) = None ↔ String.prefix p (String a s) = false ∧ find_at p s = None.
Proof.
  rewrite find_at_cons. destruct (String.prefix p _); [naive_solver|].
  destruct (find_at p s); naive_solver.
Qed.

(** A name that is not part of [x] is looked for after the comma. *)
Lemma find_at_skip p x r :
  comma_free p → p ≠ "" → find_at p x = None →
  find_at p (x +:+ String comma r) = (λ i, len x + 1 + i) <$> find_at p r.
Proof.
  intros Hp Hne. induction x as [|a x IH]; intros Hx.
  - change ("" +:+ String comma r) with (String comma r). rewrite find_at_cons.
    destruct p as [|b p]; [done|].
    rewrite prefix_ne by (intros ->; apply Hp; simpl; set_solver).
    by destruct (find_at (String b p) r).
  - apply find_at_cons_None in Hx as [Hpre Hx].
    assert (String.prefix p (String a x +:+ String comma r) = false) as Hf.
    { apply not_true_is_false. intros H%prefix_comma; [congruence|done]. }
    change (String a x +:+ String comma r) with (String a (x +:+ String comma r)) in *.
    rewrite find_at_cons, Hf, IH by done. by destruct (find_at p r).
Qed.

Lemma find_at_prefix p r : find_at p (p +:+ r) = Some 0.
Proof.
  pose proof (prefix_app p r) as H. destruct (p +:+ r) eqn:E; cbn [find_at]; by rewrite H.
Qed.

Lemma find_at_self p : find_at p p = Some 0.
Proof. rewrite <- (app_empty p) at 2. apply find_at_prefix. Qed.

(** The comma itself. *)
Lemma find_comma_free s : comma_free s → find_at (String comma "") s = None.
Proof.
  unfold comma_free. induction s as [|a s IH]; intros H; [done|].
  apply find_at_cons_None. split; [|apply IH; simpl in H; set_solver].
  apply prefix_ne. intros <-. simpl in H. set_solver.
Qed.

Lemma find_comma_app s r : comma_free s → find_at (String comma "") (s +:+ String comma r) = Some (len s).
Proof.
  unfold comma_free. induction s as [|a s IH]; intros H.
  - apply (find_at_prefix (String comma "") r).
  - change (String a s +:+ String comma r) with (String a (s +:+ String comma r)).
    rewrite find_at_cons, IH by (simpl in H; set_solver).
    rewrite prefix_ne by (intros <-; simpl in H; set_solver). done.
Qed.

(** ** Joined names *)

Lemma join_cons x l : l ≠ [] → join (x :: l) = x +:+ String comma (join l).
Proof. by destruct l. Qed.

Lemma join_app l1 l2 : l1 ≠ [] → l2 ≠ [] → join (l1 ++ l2) = join l1 +:+ String comma (join l2).
Proof.
  intros H1 H2. induction l1 as [|x l1 IH]; [done|]. destruct l1 as [|y l1].
  - simpl app. by rewrite join_cons.
  - change ((x :: y :: l1) ++ l2) with (x :: ((y :: l1) ++ l2)).
    rewrite (join_cons x (_ ++ _)), IH, (join_cons x (y :: l1)) by done.
    by rewrite app_assoc_str.
Qed.

Lemma find_at_join p l :
  comma_free p → p ≠ "" → Forall (λ x, find_at p x = None) l → find_at p (join l) = None.
Proof.
  intros Hp Hne. induction 1 as [|x l Hx Hl IH]; [by destruct p|].
  destruct l; [done|]. rewrite join_cons, find_at_skip, IH by done. done.
Qed.

(** The position of a name in a list of names none of which contains it. *)
Definition name_pos (l : list string) : nat := match l with [] => 0 | _ => len (join l) + 1 end.

Lemma name_pos_cons x l : name_pos (x :: l) = len x + 1 + name_pos l.
Proof.
  destruct l as [|y l]; [simpl; lia|].
  unfold name_pos. rewrite join_cons, app_len by done. simpl len. lia.
Qed.

Lemma find_at_join_pos p l1 l2 :
  comma_free p → p ≠ "" → Forall (λ x, find_at p x = None) l1 →
  find_at p (join (l1 ++ p :: l2)) = Some (name_pos l1).
Proof.
  intros Hp Hne. induction 1 as [|x l1 Hx Hl IH].
  - simpl app. destruct l2; [apply find_at_self|]. rewrite join_cons by done. apply find_at_prefix.
  - simpl app. rewrite join_cons by (by destruct l1).
    rewrite find_at_skip, IH, name_pos_cons by done. done.
Qed.

Lemma tolower_idemp s : tolower (tolower s) = tolower s.
Proof.
  induction s as [|a s IH]; [done|]. simpl. rewrite IH. f_equal.
  destruct a as [[] [] [] [] [] [] [] []]; reflexivity.
Qed.

(** A character that the text does not have. *)
Lemma prefix_chars p s : String.prefix p s = true → chars p ⊆ chars s.
Proof.
  revert s. induction p as [|a p IH]; intros s H; [set_solver|].
  destruct s as [|b s]; [done|]. simpl in H. destruct (Ascii.ascii_dec a b) as [->|]; [|done]. apply IH in H. simpl. set_solver.
Qed.

Lemma find_at_absent a p s : a ∈ chars p → a ∉ chars s → find_at p s = None.
Proof.
  intros Hp. induction s as [|b s IH]; intros Hs.
  - cbn [find_at]. destruct (String.prefix p "") eqn:E; [|done]. apply prefix_chars in E. set_solver.
  - apply find_at_cons_None. split; [|apply IH; simpl in Hs; set_solver].
    destruct (String.prefix p (String b s)) eqn:E; [|done]. apply prefix_chars in E. set_solver.
Qed.

Lemma find_char_app c s r : c ∉ chars s → find_at (String c "") (s +:+ String c r) = Some (len s).
Proof.
  induction s as [|a s IH]; intros H.
  - apply (find_at_prefix (String c "") r).
  - change (String a s +:+ String c r) with (String a (s +:+ String c r)). rewrite find_at_cons.
    simpl in H. apply not_elem_of_cons in H as [Hne H]. rewrite prefix_ne, IH by done. done.
Qed.

Lemma chars_app s1 s2 : chars (s1 +:+ s2) = chars s1 ++ chars s2.
Proof. induction s1 as [|a s1 IH]; [done|]. change (String a s1 +:+ s2) with (String a (s1 +:+ s2)). simpl. by rewrite IH. Qed.
Lemma tolower_app a b : tolower (a +:+ b) = tolower a +:+ tolower b.
Proof. induction a as [|x a IH]; simpl; [done|]. by rewrite IH. Qed.
Lemma tolower_absent c s : (∀ a, tolower_char a = c → a = c) → c ∉ chars s → c ∉ chars (tolower s).
Proof.
  intros Hc. induction s as [|b s IH]; simpl; [done|]. rewrite !not_elem_of_cons. intros [Hb Hs]. split; [|by apply IH].
  intros ->. apply Hb. symmetry. by apply Hc.
Qed.
