(* ===== verification/PollPool.v ===== *)
(** * The pool of polling threads (src/src/server/utils_polling.cpp)

  The part of [Util] that says which thread polls which device: the property
  [polling_threads_pool_conf], one entry per thread with its devices separated by
  commas ([poll_pool_conf]), the threads ([poll_ths]) and the map from devices to
  threads ([dev_poll_th_map]).  [split_string], the searches in the configuration,
  [create_poll_thread] and [check_pool_conf] are modelled with the string
  operations the code uses.  The theorems say when these textual searches are
  right: when no device name is a part of another one. *)
From Stdlib Require Import Ascii.
From S2P Require Import Prelude CppString PollRing PollObj PollThread.
Local Open Scope string_scope.
Local Open Scope list_scope.
Local Open Scope Z_scope.

(** ** [Util::split_string] *)

(** The loop; [fuel] is the length of the string plus one, which
    [split_string_spec] shows to be enough. *)
Fixpoint split_loop (fuel : nat) (the_str : string) (delim : ascii) (start : nat)
    (splitted_str : list string) : outcome (list string) :=
  match fuel with
  | O => Undef
  | S fuel =>
      match find (String delim "") the_str start with
      | Some pos =>
          x ← substr the_str start (pos - start);
          split_loop fuel the_str delim (pos + 1) (splitted_str ++ [x])
      | None => x ← substr the_str start (len the_str); Ok (splitted_str ++ [x])
      end
  end.
Definition split_string (the_str : string) (delim : ascii) : outcome (list string) :=
  split_loop (S (len the_str)) the_str delim 0 [].

(** ** Searches in the configuration *)

(** Is [dev] found in the entry [tmp], followed by a comma or by the end? *)
Definition entry_matches (dev tmp : string) : bool :=
  match find dev tmp 0 with
  | None => false
  | Some pos =>
      let pool_dev_nb_char :=
        match find (String comma "") tmp pos with
        | Some end_pos => (end_pos - pos)%nat
        | None => (len tmp - pos)%nat
        end in
      (len dev =? pool_dev_nb_char)%nat
  end.

Fixpoint entry_index (f : string → bool) (conf : list string) : nat :=
  match conf with
  | [] => 0
  | tmp :: conf => if f tmp then 0 else S (entry_index f conf)
  end.

Definition get_dev_entry_in_pool_conf (dev_name : string) (conf : list string) : Z :=
  let i := entry_index (entry_matches dev_name) conf in
  if (i <? length conf)%nat then Z.of_nat i else -1.

(** With the lower case of the entries; gives the devices of the thread too. *)
Definition get_th_polled_devs (dev : string) (conf : list string) : outcome (Z * list string) :=
  let i := entry_index (λ tmp, entry_matches dev (tolower tmp)) conf in
  l ← match conf !! i with Some tmp => split_string (tolower tmp) comma | None => Ok [] end;
  Ok (Z.of_nat i, l).

Definition get_th_polled_devs_at (i : Z) (conf : list string) : outcome (list string) :=
  tmp ← vget conf i; split_string tmp comma.

(** [stop] entries from the beginning, whether or not there are as many. *)
Fixpoint is_dev_already_in_pool_conf (dev_name : string) (pool : list string) (stop : nat) : outcome bool :=
  match stop, pool with
  | O, _ => Ok false
  | S _, [] => Undef
  | S stop, tmp :: pool =>
      dev_list ← split_string tmp comma;
      if bool_decide (dev_name ∈ dev_list) then Ok true
      else is_dev_already_in_pool_conf dev_name pool stop
  end.

(** ** [Util::check_pool_conf] *)

Section CheckConf.
(** The devices of the server, "Class::device" ([query_device]), and whether a
    device has a polled command or attribute in its properties. *)
Context (query_device : list string) (has_polled : string → bool).

Definition real_dev_name (s : string) : outcome string :=
  let pos := match find (String ":" "") s 0 with Some pos => Z.of_nat pos | None => 2 ^ 64 - 1 end in
  let pos := (pos + 2) mod 2 ^ 64 in
  tolower <$> substr s (Z.to_nat pos) (len s).

Fixpoint is_defined (entry_lower : string) (dev_list : list string) : outcome bool :=
  match dev_list with
  | [] => Ok false
  | d :: dev_list =>
      d ← real_dev_name d;
      if bool_decide (entry_lower = d) then Ok true else is_defined entry_lower dev_list
  end.

(** The new text of an entry: names twice in the entry or in the entries before
    it, unknown devices and devices without polling are left out. *)
Fixpoint mod_entry_of (conf : list string) (stop : nat) (mod_entry : string) (splitted : list string)
    : outcome string :=
  match splitted with
  | [] => Ok mod_entry
  | d :: splitted =>
      match find d mod_entry 0 with
      | Some _ => mod_entry_of conf stop mod_entry splitted
      | None =>
          already ← is_dev_already_in_pool_conf d conf stop;
          if (already : bool) then mod_entry_of conf stop mod_entry splitted
          else
            defined ← is_defined (tolower d) query_device;
            if defined && has_polled d then
              mod_entry_of conf stop
                (if bool_decide (mod_entry = "") then d else mod_entry +:+ String comma d) splitted
            else mod_entry_of conf stop mod_entry splitted
      end
  end.

(** The loop on the entries: [iter] is at index [i]; when the entry becomes empty
    it is erased, and the iterator moved back before the increment of the loop (on
    the first entry too, where it leaves the vector for a moment). *)
Fixpoint check_loop (fuel : nat) (i stop : nat) (mod_conf : list string) : outcome (list string) :=
  match fuel with
  | O => Undef
  | S fuel =>
      match mod_conf !! i with
      | None => Ok mod_conf
      | Some entry =>
          splitted ← split_string entry comma;
          let stop := S stop in
          mod_entry ← mod_entry_of mod_conf (stop - 1) "" splitted;
          if bool_decide (mod_entry = "") then
            let mod_conf := delete i mod_conf in
            if (i =? length mod_conf)%nat then Ok mod_conf
            else check_loop fuel i (if (i =? 0)%nat then (stop - 1)%nat else stop) mod_conf
          else check_loop fuel (S i) stop (<[i := mod_entry]> mod_conf)
      end
  end.

(** The devices of an extra thread, dealt out to the first ones. *)
Fixpoint deal (pool_size loop : nat) (polled_dev_th mod_conf : list string) : outcome (list string) :=
  match polled_dev_th with
  | [] => Ok mod_conf
  | d :: polled_dev_th =>
      entry ← vget mod_conf (Z.of_nat loop);
      let loop' := S loop in
      deal pool_size (if (loop' =? pool_size)%nat then 0 else loop')%nat polled_dev_th
        (<[loop := entry +:+ String comma d]> mod_conf)
  end.

(** The extra threads are read in the configuration before the modifications. *)
Fixpoint deal_extra (pool_size : nat) (poll_pool_conf : list string) (i nb_extra_th : nat)
    (mod_conf : list string) : outcome (list string) :=
  match nb_extra_th with
  | O => Ok mod_conf
  | S nb_extra_th =>
      l ← get_th_polled_devs_at (Z.of_nat (i + pool_size)) poll_pool_conf;
      mod_conf ← deal pool_size 0 l mod_conf;
      deal_extra pool_size poll_pool_conf (S i) nb_extra_th mod_conf
  end.

(** The new configuration, and whether the database must be updated. *)
Definition check_pool_conf (pool_size : nat) (poll_pool_conf : list string) : outcome (list string * bool) :=
  match poll_pool_conf with
  | [] => Ok ([], false)
  | _ :: _ =>
      mod_conf ← check_loop (S (length poll_pool_conf)) 0 0 poll_pool_conf;
      mod_conf ← (if (pool_size <? length mod_conf)%nat then
                    mod_conf ← deal_extra pool_size poll_pool_conf 0 (length mod_conf - pool_size) mod_conf;
                    Ok (take pool_size mod_conf)
                  else Ok mod_conf);
      Ok (if bool_decide (mod_conf = poll_pool_conf) then (poll_pool_conf, false) else (mod_conf, true))
  end.
End CheckConf.

(** ** The threads *)

Section Pool.
Context {Any Elt : Type}.

Record PollingThreadInfo := mkPTI {
  thread_id : Z;
  poll_th : PollSt Any Elt;
  polled_devices : list string;
  nb_polled_objects : Z;
  smallest_upd : Z;
}.

Record Pool := mkPool {
  poll_pool_conf : list string;
  poll_ths : list PollingThreadInfo;
  dev_poll_th_map : gmap string Z;
  poll_pool_size : Z;
}.

Definition with_ths (l : list PollingThreadInfo) (p : Pool) : Pool :=
  mkPool (poll_pool_conf p) l (dev_poll_th_map p) (poll_pool_size p).
Definition with_conf (c : list string) (p : Pool) : Pool :=
  mkPool c (poll_ths p) (dev_poll_th_map p) (poll_pool_size p).
Definition map_dev (d : string) (id : Z) (p : Pool) : Pool :=
  mkPool (poll_pool_conf p) (poll_ths p) (<[d := id]> (dev_poll_th_map p)) (poll_pool_size p).

(** [PollThread::PollThread], then [set_polling_bef_9]: [c] is the content of the
    uninitialised buffers and [ds] the devices of the server. *)
Definition PollThread_new (c : PollThCmd) (ds : gmap nat (Device Any Elt)) (heartbeat bef_9 : bool)
    : PollSt Any Elt :=
  let c := mkCmd false false (cmd_code c) (cmd_dev c) (cmd_index c) (cmd_name c) (cmd_type c) (new_upd c) in
  mkPollSt [] [] c c 0 0 (Some (milliseconds 1)) (negb heartbeat) 1 false heartbeat 0 0 bef_9 [] [] true ds [].

Definition get_polling_thread_id_by_name (dev_name : string) (p : Pool) : Z :=
  default 0 (dev_poll_th_map p !! tolower dev_name).

Fixpoint find_thread (th_id : Z) (l : list PollingThreadInfo) : option nat :=
  match l with
  | [] => None
  | t :: l => if thread_id t =? th_id then Some 0%nat else S <$> find_thread th_id l
  end.

Definition thread_not_found {A} (o : string) : outcome A :=
  throw_exception "API_PollingThreadNotFound"
    "There is no polling thread with this ID in the polling threads pool" o.

(** A pointer to an element of [poll_ths]. *)
Definition get_polling_thread_info_by_id (th_id : Z) (p : Pool) : outcome nat :=
  match find_thread th_id (poll_ths p) with
  | Some k => Ok k
  | None => thread_not_found "Util::get_polling_thread_info_by_id"
  end.

Definition upd_info (f : PollingThreadInfo → PollingThreadInfo) (k : nat) (p : Pool) : Pool :=
  with_ths (alter f k (poll_ths p)) p.

Definition lower_smallest (upd : Z) (t : PollingThreadInfo) : PollingThreadInfo :=
  mkPTI (thread_id t) (poll_th t) (polled_devices t) (nb_polled_objects t) (Z.min upd (smallest_upd t)).
Definition one_more_dev (d : string) (t : PollingThreadInfo) : PollingThreadInfo :=
  mkPTI (thread_id t) (poll_th t) (polled_devices t ++ [d]) (nb_polled_objects t + 1) (smallest_upd t).
Definition opt_smallest (upd : Z) (t : PollingThreadInfo) : PollingThreadInfo :=
  if upd =? -1 then t else lower_smallest upd t.

(** The first device of the list, other than [dev], that a thread already polls. *)
Fixpoint associated (dev : string) (m : gmap string Z) (asso_devs : list string) : option Z :=
  match asso_devs with
  | [] => None
  | d :: asso_devs =>
      if bool_decide (d = dev) then associated dev m asso_devs
      else match m !! d with Some id => Some id | None => associated dev m asso_devs end
  end.

(** The last of the threads with the fewest polled objects. *)
Fixpoint least_loaded (lower : Z) (lower_iter i : nat) (l : list PollingThreadInfo) : nat :=
  match l with
  | [] => lower_iter
  | t :: l =>
      if nb_polled_objects t <=? lower then least_loaded (nb_polled_objects t) i (S i) l
      else least_loaded lower lower_iter (S i) l
  end.

(** The first device, in the order of the map, that a thread polls. *)
Definition first_device (id : Z) (m : gmap string Z) : option string :=
  foldr (λ kv acc, if snd kv =? id
                   then match acc with
                        | Some d => Some (if String.ltb (fst kv) d then fst kv else d)
                        | None => Some (fst kv)
                        end
                   else acc) None (map_to_list m).

(** [create_poll_thread]; [new_id] is the identifier the thread library gives to a
    new thread and [new_th] its initial state. *)
Definition create_poll_thread (new_th : bool → PollSt Any Elt) (new_id : Z) (dev_name : string)
    (startup polling_9 : bool) (smallest : Z) (p : Pool) : outcome (Z * Pool) :=
  let local_dev_name := tolower dev_name in
  match dev_poll_th_map p !! local_dev_name with
  | Some id =>
      if smallest =? -1 then Ok (-2, p)
      else k ← get_polling_thread_info_by_id id p; Ok (-2, upd_info (lower_smallest smallest) k p)
  | None =>
      '(ind, asso_devs) ← get_th_polled_devs local_dev_name (poll_pool_conf p);
      if negb (Z.of_nat (length (poll_ths p)) =? poll_pool_size p) then
        match associated local_dev_name (dev_poll_th_map p) asso_devs with
        | Some id =>
            let p := map_dev local_dev_name id p in
            k ← get_polling_thread_info_by_id id p;
            Ok (ind, upd_info (λ t, opt_smallest smallest (one_more_dev local_dev_name t)) k p)
        | None =>
            let pti := mkPTI new_id (new_th polling_9) [local_dev_name] 1 (if smallest =? -1 then 0 else smallest) in
            Ok (-1, map_dev local_dev_name new_id (with_ths (poll_ths p ++ [pti]) p))
        end
      else
        match associated local_dev_name (dev_poll_th_map p) asso_devs with
        | Some id =>
            let p := map_dev local_dev_name id p in
            if smallest =? -1 then Ok (ind, p)
            else
              k ← get_polling_thread_info_by_id id p;
              Ok (ind, upd_info (λ t, lower_smallest smallest (one_more_dev local_dev_name t)) k p)
        | None =>
            t0 ← deref (poll_ths p !! 0%nat);
            let k := least_loaded (nb_polled_objects t0) 0 0 (poll_ths p) in
            t ← deref (poll_ths p !! k);
            match first_device (thread_id t) (dev_poll_th_map p) with
            | None => throw_exception "API_PolledDeviceNotInPoolMap"
                        "The polling threads pool is full and its device is not in the map" "Util::create_poll_thread"
            | Some d_name =>
                let ind := get_dev_entry_in_pool_conf d_name (poll_pool_conf p) in
                if (ind =? -1) && negb startup then
                  throw_exception "API_PolledDeviceNotInPoolConf"
                    "The polling threads pool is full and its device is not in the configuration"
                    "Util::create_poll_thread"
                else
                  Ok (ind, map_dev local_dev_name (thread_id t)
                             (upd_info (λ t, opt_smallest smallest (one_more_dev local_dev_name t)) k p))
            end
        end
  end.

Definition remove_dev_from_polling_map (dev_name : string) (p : Pool) : Pool :=
  mkPool (poll_pool_conf p) (poll_ths p) (delete dev_name (dev_poll_th_map p)) (poll_pool_size p).

Definition remove_polling_thread_info_by_id (th_id : Z) (p : Pool) : outcome Pool :=
  match find_thread th_id (poll_ths p) with
  | Some k => Ok (with_ths (delete k (poll_ths p)) p)
  | None => thread_not_found "Util::remove_polling_thread_info_by_id"
  end.

(** [build_first_pool_conf]: one entry per thread. *)
Definition entry_of (devs : list string) : string :=
  match devs with
  | [] => ""
  | d :: devs => fold_left (λ tmp it, tmp +:+ String comma it) devs d
  end.
Definition build_first_pool_conf (p : Pool) (pool_conf : list string) : list string :=
  pool_conf ++ ((λ t, entry_of (polled_devices t)) <$> poll_ths p).

End Pool.
Arguments PollingThreadInfo : clear implicits.
Arguments Pool : clear implicits.

(** ** Splitting is the inverse of joining *)

Lemma split_comma s :
  comma_free s ∨ ∃ x r, comma_free x ∧ s = x +:+ String comma r.
Proof.
  unfold comma_free. induction s as [|a s IH]; [left; simpl; set_solver|].
  destruct (decide (a = comma)) as [->|Ha].
  - right. exists "", s. split; [simpl; set_solver|done].
  - destruct IH as [H|(x & r & Hx & ->)].
    + left. simpl. set_solver.
    + right. exists (String a x), r. split; [simpl; set_solver|done].
Qed.

Lemma find_from c p r :
  find c (p +:+ r) (len p) = Nat.add (len p) <$> find_at c r.
Proof.
  unfold find. rewrite (proj2 (Nat.leb_le _ _)) by (rewrite app_len; lia).
  by rewrite str_drop_app0.
Qed.

Lemma substr_from p r n : substr (p +:+ r) (len p) n = Ok (str_take n r).
Proof.
  unfold substr. rewrite (proj2 (Nat.leb_le _ _)) by (rewrite app_len; lia).
  by rewrite str_drop_app0.
Qed.

Lemma split_loop_spec fuel pre rest acc :
  (len rest < fuel)%nat →
  ∃ l, split_loop fuel (pre +:+ rest) comma (len pre) acc = Ok (acc ++ l) ∧
    join l = rest ∧ Forall comma_free l ∧ l ≠ [].
Proof.
  revert pre rest acc. induction fuel as [|fuel IH]; intros pre rest acc Hf; [lia|].
  cbn [split_loop]. rewrite find_from.
  destruct (split_comma rest) as [Hc|(x & r & Hx & ->)].
  - rewrite find_comma_free by done. simpl. rewrite substr_from. simpl.
    exists [rest]. rewrite str_take_all by (rewrite app_len; lia). repeat split; auto.
  - rewrite find_comma_app by done. simpl. rewrite substr_from.
    replace (len pre + len x - len pre)%nat with (len x) by lia. rewrite str_take_app, bind_Ok.
    destruct (IH (pre +:+ x +:+ String comma "") r (acc ++ [x])) as (l & Hl & Hj & Hall & Hne).
    { rewrite app_len in Hf. simpl in Hf. lia. }
    exists (x :: l). split; [|split; [by rewrite join_cons, Hj|split; [by constructor|done]]].
    assert (E1 : (pre +:+ x +:+ String comma "") +:+ r = pre +:+ x +:+ String comma r)
      by by rewrite !app_assoc_str.
    assert (E2 : len (pre +:+ x +:+ String comma "") = (len pre + len x + 1)%nat)
      by (rewrite !app_len; simpl; lia).
    rewrite E1, E2 in Hl. rewrite Hl. by rewrite <- app_assoc.
Qed.

Lemma split_string_ok s :
  ∃ l, split_string s comma = Ok l ∧ join l = s ∧ Forall comma_free l ∧ l ≠ [].
Proof. apply (split_loop_spec (S (len s)) "" s []). lia. Qed.

Lemma join_inj l l' :
  Forall comma_free l → Forall comma_free l' → l ≠ [] → l' ≠ [] → join l = join l' → l = l'.
Proof.
  assert (L : ∀ x r y r', comma_free x → comma_free y →
            x +:+ String comma r = y +:+ String comma r' → x = y ∧ r = r').
  { unfold comma_free. induction x as [|a x IH]; intros r [|b y] r' Hx Hy E.
    - by injection E.
    - injection E as <- _. simpl in Hy. set_solver.
    - injection E as -> _. simpl in Hx. set_solver.
    - injection E as -> E. destruct (IH r y r') as [-> ->]; [simpl in *; set_solver..|done|done]. }
  assert (N : ∀ x y r, comma_free x → x ≠ y +:+ String comma r).
  { unfold comma_free. intros x y r Hx ->. apply Hx. clear Hx.
    induction y as [|b y IH]; [simpl; set_solver|]. change (comma ∈ chars (String b (y +:+ String comma r))).
    simpl. set_solver. }
  intros Hl. revert l'. induction Hl as [|x l Hx Hl IH]; intros l' Hl' Hne Hne' E; [done|].
  destruct l' as [|x' l']; [done|]. apply Forall_cons in Hl' as [Hx' Hl'].
  destruct l as [|y l], l' as [|y' l']; simpl join in E.
  - by subst.
  - by apply N in E.
  - symmetry in E. by apply N in E.
  - apply L in E as [-> E]; [|done..]. f_equal. by apply IH.
Qed.

(** [split_string] and the comma-separated entries of the pool configuration
    are inverse of each other: for every text it terminates without going out of
    the string, its parts have no comma and joined again they give the text; and
    the names of an entry come back as they were. *)
Theorem split_string_round_trip :
  (∀ s, ∃ l, split_string s comma = Ok l ∧ join l = s ∧ Forall comma_free l) ∧
  (∀ l, l ≠ [] → Forall comma_free l → split_string (join l) comma = Ok l).
Proof.
  split; [intros s; destruct (split_string_ok s) as (l & ? & ? & ? & ?); eauto|].
  intros l Hne Hl. destruct (split_string_ok (join l)) as (l' & -> & Hj & Hl' & Hne').
  f_equal. by apply join_inj.
Qed.

Lemma split_string_round_trip_witness : split_string "a/b/1,,c/d/2" comma = Ok ["a/b/1"; ""; "c/d/2"].
Proof.
  apply (proj2 split_string_round_trip ["a/b/1"; ""; "c/d/2"]); [discriminate|].
  repeat constructor; by apply (bool_decide_unpack _).
Defined.

Lemma split_join l : l ≠ [] → Forall comma_free l → split_string (join l) comma = Ok l.
Proof.
  intros Hne Hl. destruct (split_string_ok (join l)) as (l' & -> & Hj & Hl' & Hne').
  f_equal. by apply join_inj.
Qed.

Lemma entry_of_join l : entry_of l = join l.
Proof.
  destruct l as [|d l]; [done|]. unfold entry_of. revert d.
  induction l as [|x l IH]; intros d; [done|]. simpl fold_left. rewrite IH.
  destruct l as [|y l]; [done|]. rewrite !join_cons by done. by rewrite app_assoc_str.
Qed.

(** ** When the searches are right *)

(** No name of the list is a part of another one. *)
Definition apart (l : list string) : Prop :=
  Forall (λ x, comma_free x ∧ x ≠ "") l ∧
  ∀ x y, x ∈ l → y ∈ l → x ≠ y → find_at x y = None.

Lemma apart_incl l l' : (∀ x, x ∈ l' → x ∈ l) → apart l → apart l'.
Proof.
  intros Hi [H1 H2]. split; [|naive_solver].
  rewrite Forall_forall in *. naive_solver.
Qed.

Lemma str_drop_name_pos l1 l2 : l2 ≠ [] → str_drop (name_pos l1) (join (l1 ++ l2)) = join l2.
Proof.
  intros H. destruct l1 as [|x l1]; [apply str_drop_0|]. unfold name_pos.
  rewrite join_app by done. rewrite str_drop_app. done.
Qed.

Lemma name_pos_le l1 l2 : l2 ≠ [] → (name_pos l1 <= len (join (l1 ++ l2)))%nat.
Proof.
  intros H. destruct l1 as [|x l1]; [simpl; lia|]. unfold name_pos.
  rewrite join_app, app_len by done. simpl. lia.
Qed.

Lemma len_join_app l1 l2 : l2 ≠ [] → len (join (l1 ++ l2)) = (name_pos l1 + len (join l2))%nat.
Proof.
  intros H. destruct l1 as [|x l1]; [done|]. unfold name_pos.
  rewrite join_app, app_len by done. simpl. lia.
Qed.

(** The first occurrence of a name. *)
Lemma elem_of_first (x : string) l : x ∈ l → ∃ l1 l2, l = l1 ++ x :: l2 ∧ x ∉ l1.
Proof.
  induction l as [|y l IH]; intros H; [set_solver|]. destruct (decide (x = y)) as [->|Hne].
  - exists [], l. split; [done|set_solver].
  - destruct IH as (l1 & l2 & -> & Hn); [set_solver|]. exists (y :: l1), l2. split; [done|set_solver].
Qed.

Lemma apart_not_in dev l : apart (dev :: l) → dev ∉ l → Forall (λ x, find_at dev x = None) l.
Proof. intros [_ H] Hn. apply Forall_forall. intros x Hx. apply H; set_solver. Qed.

Lemma apart_head dev l : apart (dev :: l) → comma_free dev ∧ dev ≠ "".
Proof. intros [H _]. by apply Forall_cons in H as [? _]. Qed.

Lemma find_pos dev l1 l2 :
  apart (dev :: l1 ++ dev :: l2) → dev ∉ l1 → find dev (join (l1 ++ dev :: l2)) 0 = Some (name_pos l1).
Proof.
  intros Ha Hn. destruct (apart_head _ _ Ha) as [Hc Hne]. unfold find. cbn [Nat.leb].
  rewrite str_drop_0, find_at_join_pos; [done|done|done|].
  apply apart_not_in; [|done]. eapply apart_incl; [|exact Ha]. set_solver.
Qed.

Lemma find_none dev l : apart (dev :: l) → dev ∉ l → find dev (join l) 0 = None.
Proof.
  intros Ha Hn. destruct (apart_head _ _ Ha) as [Hc Hne]. unfold find. cbn [Nat.leb].
  rewrite str_drop_0, find_at_join; [done..|by apply apart_not_in].
Qed.

Lemma entry_matches_join dev l : apart (dev :: l) → entry_matches dev (join l) = bool_decide (dev ∈ l).
Proof.
  intros Ha. unfold entry_matches. destruct (bool_decide (dev ∈ l)) eqn:E; propb.
  2: by rewrite find_none.
  destruct (elem_of_first _ _ E) as (l1 & l2 & -> & Hn). rewrite find_pos by done.
  destruct (apart_head _ _ Ha) as [Hc Hne].
  assert (find (String comma "") (join (l1 ++ dev :: l2)) (name_pos l1) =
          Nat.add (name_pos l1) <$> find_at (String comma "") (join (dev :: l2))) as ->.
  { unfold find. rewrite (proj2 (Nat.leb_le _ _)) by by apply name_pos_le.
    by rewrite str_drop_name_pos. }
  destruct l2 as [|y l2].
  - simpl join. rewrite find_comma_free by done. simpl. rewrite len_join_app by done. simpl.
    apply Nat.eqb_eq. lia.
  - rewrite join_cons, find_comma_app by done. simpl. apply Nat.eqb_eq. lia.
Qed.

Lemma entry_index_find {A} (f : string → bool) (g : A → string) (P : A → Prop) `{∀ x, Decision (P x)} l :
  (∀ x, x ∈ l → f (g x) = bool_decide (P x)) →
  match list_find P l with
  | Some (i, _) => entry_index f (g <$> l) = i ∧ (i < length l)%nat
  | None => entry_index f (g <$> l) = length l
  end.
Proof.
  induction l as [|x l IH]; intros Hf; [done|]. csimpl. rewrite Hf by set_solver.
  destruct (decide (P x)) as [Hp|Hp].
  - rewrite bool_decide_eq_true_2 by done. split; [done|lia].
  - rewrite bool_decide_eq_false_2 by done. specialize (IH ltac:(set_solver)).
    destruct (list_find P l) as [[i y]|]; csimpl; [destruct IH; split; lia|lia].
Qed.

(** with device names none of which is a part of another one, the textual
    search of the pool configuration is right: [get_dev_entry_in_pool_conf] is the
    index of the first entry that lists the device, or -1, and
    [get_th_polled_devs] gives the devices of that entry too. *)
Theorem pool_conf_search (dev : string) (devss : list (list string)) :
  Forall (λ l, l ≠ []) devss → apart (dev :: concat devss) →
  get_dev_entry_in_pool_conf dev (join <$> devss) =
    match list_find (λ l, dev ∈ l) devss with Some (i, _) => Z.of_nat i | None => -1 end ∧
  (Forall (λ l, tolower (join l) = join l) devss →
   get_th_polled_devs dev (join <$> devss) =
     match list_find (λ l, dev ∈ l) devss with
     | Some (i, l) => Ok (Z.of_nat i, l)
     | None => Ok (Z.of_nat (length devss), [])
     end).
Proof.
  intros Hne Ha.
  assert (Hm : ∀ l, l ∈ devss → entry_matches dev (join l) = bool_decide (dev ∈ l)).
  { intros l Hl. apply entry_matches_join. eapply apart_incl; [|exact Ha].
    intros x [->|Hx]%elem_of_cons; [set_solver|]. apply elem_of_cons. right.
    apply list_elem_of_In, in_concat. exists l. by rewrite <- !list_elem_of_In. }
  split.
  - unfold get_dev_entry_in_pool_conf. rewrite length_fmap.
    pose proof (entry_index_find _ join (λ l, dev ∈ l) devss Hm) as Hi.
    destruct (list_find _ devss) as [[i l]|].
    + destruct Hi as [-> Hi]. by rewrite (proj2 (Nat.ltb_lt _ _)).
    + rewrite Hi. by rewrite Nat.ltb_irrefl.
  - intros Hlow. rewrite Forall_forall in Hlow. unfold get_th_polled_devs.
    pose proof (entry_index_find (λ tmp, entry_matches dev (tolower tmp)) join (λ l, dev ∈ l) devss) as Hi.
    specialize (Hi ltac:(intros l Hl; cbv beta; rewrite Hlow by done; by apply Hm)).
    destruct (list_find _ devss) as [[i l]|] eqn:E.
    + destruct Hi as [-> Hi]. apply list_find_Some in E as (El & _ & _).
      assert (l ∈ devss) as Hin by by eapply list_elem_of_lookup_2.
      rewrite list_lookup_fmap, El. cbn [fmap option_fmap option_map]. rewrite Hlow by done.
      rewrite split_join; [done|rewrite Forall_forall in Hne; by apply Hne|].
      destruct Ha as [Ha _]. apply Forall_cons in Ha as [_ Ha]. rewrite Forall_forall in Ha.
      apply Forall_forall. intros x Hx. apply Ha. apply list_elem_of_In, in_concat.
      exists l. by rewrite <- !list_elem_of_In.
    + rewrite Hi, lookup_ge_None_2 by by rewrite length_fmap. done.
Qed.

(** ** Threads *)

Section PoolTheory.
Context {Any Elt : Type}.
Implicit Types (p : Pool Any Elt) (t : PollingThreadInfo Any Elt).

Definition thread_ids p : list Z := thread_id <$> poll_ths p.

(** Threads have different identifiers, at most [poll_pool_size] of them exist,
    the map leads to existing threads and every thread has a device. *)
Record pool_ok p : Prop := {
  ids_nodup : NoDup (thread_ids p);
  map_ids : ∀ d id, dev_poll_th_map p !! d = Some id → id ∈ thread_ids p;
  ths_used : ∀ id, id ∈ thread_ids p → ∃ d, dev_poll_th_map p !! d = Some id;
  ths_max : Z.of_nat (length (poll_ths p)) <= poll_pool_size p;
  size_pos : 0 < poll_pool_size p;
}.

Lemma find_thread_ok id (l : list (PollingThreadInfo Any Elt)) :
  id ∈ thread_id <$> l → ∃ k t, find_thread id l = Some k ∧ l !! k = Some t ∧ thread_id t = id.
Proof.
  induction l as [|t l IH]; csimpl; [set_solver|]. intros H. destruct (thread_id t =? id) eqn:E; propb.
  - by exists 0%nat, t.
  - apply elem_of_cons in H as [->|H]; [done|].
    destruct (IH H) as (k & t' & -> & ? & ?). by exists (S k), t'.
Qed.

Lemma get_info_ok id p :
  id ∈ thread_ids p →
  ∃ k t, get_polling_thread_info_by_id id p = Ok k ∧ poll_ths p !! k = Some t ∧ thread_id t = id.
Proof.
  intros H. destruct (find_thread_ok _ _ H) as (k & t & E & ? & ?).
  exists k, t. unfold get_polling_thread_info_by_id. by rewrite E.
Qed.

Lemma thread_ids_upd f k p : (∀ t, thread_id (f t) = thread_id t) → thread_ids (upd_info f k p) = thread_ids p.
Proof.
  intros Hf. unfold thread_ids, upd_info. simpl. apply list_eq. intros i. rewrite !list_lookup_fmap.
  destruct (decide (i = k)) as [->|Hne].
  - rewrite list_lookup_alter_eq. by destruct (poll_ths p !! k); csimpl; rewrite ?Hf.
  - by rewrite list_lookup_alter_ne by done.
Qed.

Lemma length_upd f k p : length (poll_ths (upd_info f k p)) = length (poll_ths p).
Proof. unfold upd_info. simpl. by rewrite length_alter. Qed.

Lemma pool_ok_upd f k p : (∀ t, thread_id (f t) = thread_id t) → pool_ok p → pool_ok (upd_info f k p).
Proof.
  intros Hf [H1 H2 H3 H4 H5].
  split; rewrite ?thread_ids_upd, ?length_upd by done; done.
Qed.

Lemma pool_ok_map d id p :
  dev_poll_th_map p !! d = None → id ∈ thread_ids p → pool_ok p → pool_ok (map_dev d id p).
Proof.
  intros Hd Hid [H1 H2 H3 H4 H5]. split; try done; simpl.
  - intros d' id' [[<- <-]|[_ H]]%lookup_insert_Some; [done|by eapply H2].
  - intros id' [d' Hd']%H3. exists d'. rewrite lookup_insert_ne; [done|congruence].
Qed.

(** The thread with the fewest polled objects. *)
Lemma least_loaded_spec l lower it i :
  (∀ t, t ∈ l → lower < nb_polled_objects t) ∧ least_loaded lower it i l = it ∨
  ∃ j (t : PollingThreadInfo Any Elt), least_loaded lower it i l = (i + j)%nat ∧ l !! j = Some t ∧
    nb_polled_objects t <= lower ∧ ∀ u, u ∈ l → nb_polled_objects t <= nb_polled_objects u.
Proof.
  revert lower it i. induction l as [|t l IH]; intros lower it i; simpl; [left; set_solver|].
  destruct (nb_polled_objects t <=? lower) eqn:E; propb.
  - right. destruct (IH (nb_polled_objects t) i (S i)) as [[Hlt ->]|(j & u & -> & Hj & Hle & Hmin)].
    + exists 0%nat, t. split; [lia|]. do 2 (split; [done|]).
      intros u [->|Hu]%elem_of_cons; [lia|]. apply Hlt in Hu. lia.
    + exists (S j), u. split; [lia|]. split; [done|]. split; [lia|].
      intros v [->|Hv]%elem_of_cons; [lia|auto].
  - destruct (IH lower it (S i)) as [[Hlt ->]|(j & u & -> & Hj & Hle & Hmin)].
    + left. split; [|done]. intros u [->|Hu]%elem_of_cons; [lia|auto].
    + right. exists (S j), u. split; [lia|]. do 2 (split; [done|]).
      intros v [->|Hv]%elem_of_cons; [lia|auto].
Qed.

Lemma first_device_spec id (m : gmap string Z) :
  match first_device id m with
  | Some d => m !! d = Some id
  | None => ∀ d, m !! d ≠ Some id
  end.
Proof.
  unfold first_device.
  assert (L : ∀ l : list (string * Z), match foldr (λ kv acc, if snd kv =? id
              then match acc with
                   | Some d => Some (if String.ltb (fst kv) d then fst kv else d)
                   | None => Some (fst kv) end else acc) None l with
            | Some d => (d, id) ∈ l | None => ∀ d, (d, id) ∉ l end).
  { induction l as [|[k v] l IH]; simpl; [set_solver|]. destruct (foldr _ None l) as [d|].
    - destruct (v =? id) eqn:E; propb; [|set_solver]. subst. destruct (String.ltb k d); set_solver.
    - destruct (v =? id) eqn:E; propb; [subst; set_solver|]. intros d. rewrite elem_of_cons. naive_solver. }
  specialize (L (map_to_list m)). destruct (foldr _ None (map_to_list m)).
  - by apply elem_of_map_to_list.
  - intros d Hd%elem_of_map_to_list. by eapply L.
Qed.

Lemma associated_Some dev (m : gmap string Z) l id :
  associated dev m l = Some id → ∃ d, d ∈ l ∧ d ≠ dev ∧ m !! d = Some id.
Proof.
  induction l as [|d l IH]; simpl; [done|]. destruct (bool_decide (d = dev)) eqn:E; propb.
  - intros H%IH. set_solver.
  - destruct (m !! d) eqn:Em; [intros [= ->]; exists d; set_solver|intros H%IH; set_solver].
Qed.

(** The thread that gets a new device: one that already polls a device of the same
    entry of the configuration; else a new thread while the pool is not full; else
    one of those with the fewest polled objects. *)
Definition thread_for (new_id : Z) (asso : list string) (dev : string) p (id : Z) : Prop :=
  match associated dev (dev_poll_th_map p) asso with
  | Some i => id = i
  | None =>
      if Z.of_nat (length (poll_ths p)) =? poll_pool_size p then
        ∃ t, t ∈ poll_ths p ∧ thread_id t = id ∧
          ∀ u, u ∈ poll_ths p → nb_polled_objects t <= nb_polled_objects u
      else id = new_id
  end.

Lemma th_polled_total dev conf : ∃ ind asso, get_th_polled_devs dev conf = Ok (ind, asso).
Proof.
  unfold get_th_polled_devs. destruct (conf !! _) as [tmp|]; [|simpl; eauto].
  destruct (split_string_ok (tolower tmp)) as (l & -> & _). simpl. eauto.
Qed.

Lemma opt_smallest_id s d t : thread_id (opt_smallest s (one_more_dev d t)) = thread_id t.
Proof. unfold opt_smallest. by destruct (s =? -1). Qed.

(** Who polls a device after the call. *)
Definition mapped (p p' : Pool Any Elt) (d : string) (id : Z) : Prop :=
  dev_poll_th_map p' = <[d := id]> (dev_poll_th_map p) ∧ poll_pool_conf p' = poll_pool_conf p.

Lemma pool_ok_new dev id th n devs s p :
  pool_ok p → id ∉ thread_ids p → dev_poll_th_map p !! dev = None →
  Z.of_nat (length (poll_ths p)) ≠ poll_pool_size p →
  pool_ok (map_dev dev id (with_ths (poll_ths p ++ [mkPTI id th devs n s]) p)).
Proof.
  intros [H1 H2 H3 H4 H5] Hid Hd Hs.
  assert (thread_ids (map_dev dev id (with_ths (poll_ths p ++ [mkPTI id th devs n s]) p)) =
          thread_ids p ++ [id]) as E by (unfold thread_ids; simpl; by rewrite fmap_app).
  split; rewrite ?E; simpl.
  - apply NoDup_app. split; [done|]. split; [|apply NoDup_singleton]. set_solver.
  - intros d' id' [[<- <-]|[_ H]]%lookup_insert_Some; [set_solver|]. apply H2 in H. set_solver.
  - intros id' [H|H]%elem_of_app.
    + destruct (H3 _ H) as [d' Hd']. exists d'. rewrite lookup_insert_ne; [done|congruence].
    + apply list_elem_of_singleton in H as ->. exists dev. apply lookup_insert_eq.
  - rewrite length_app. simpl. lia.
  - done.
Qed.

(** The error of a pool that is full: the device that leads to the thread is not found in the
    configuration, which only matters after the start-up. *)
Definition refusal : exn :=
  DevFailed [mkDevError "API_PolledDeviceNotInPoolConf" ERR
    "The polling threads pool is full and its device is not in the configuration" "Util::create_poll_thread"].
Definition refused (dev : string) (asso : list string) p : Prop :=
  dev_poll_th_map p !! dev = None ∧ associated dev (dev_poll_th_map p) asso = None ∧
  Z.of_nat (length (poll_ths p)) = poll_pool_size p ∧
  ∃ t d, t ∈ poll_ths p ∧ (∀ u, u ∈ poll_ths p → nb_polled_objects t <= nb_polled_objects u) ∧
    dev_poll_th_map p !! d = Some (thread_id t) ∧ get_dev_entry_in_pool_conf d (poll_pool_conf p) = -1.


End PoolTheory.

(** ** A configuration in order is kept *)

Lemma elem_of_concat (x : string) (ls : list (list string)) : x ∈ concat ls ↔ ∃ l, l ∈ ls ∧ x ∈ l.
Proof. rewrite list_elem_of_In, in_concat. setoid_rewrite list_elem_of_In. done. Qed.

Lemma join_nonempty l : l ≠ [] → Forall (λ x, x ≠ "") l → join l ≠ "".
Proof.
  destruct l as [|x l]; [done|]. intros _ [Hx _]%Forall_cons. destruct l; [done|].
  rewrite join_cons by done. by destruct x.
Qed.

Lemma apart_all l : apart l → Forall comma_free l ∧ Forall (λ x, x ≠ "") l.
Proof. intros [H _]. split; (eapply Forall_impl; [exact H|naive_solver]). Qed.

Lemma join_snoc l d : l ≠ [] → join (l ++ [d]) = join l +:+ String comma d.
Proof. intros H. by rewrite join_app. Qed.

Lemma not_already d devss rest :
  d ∉ concat devss → Forall (λ l, l ≠ [] ∧ Forall comma_free l) devss →
  is_dev_already_in_pool_conf d ((join <$> devss) ++ rest) (length devss) = Ok false.
Proof.
  intros Hd. induction 1 as [|l devss [Hne Hc] Hl IH]; [by destruct rest|].
  csimpl. simpl in Hd. rewrite split_join, bind_Ok by done.
  rewrite bool_decide_eq_false_2 by (rewrite elem_of_app in Hd; tauto).
  apply IH. rewrite elem_of_app in Hd. tauto.
Qed.

(** Dealing devices out touches the first entries only and keeps every device. *)
Lemma deal_spec size l loop (A : list (list string)) R :
  length A = size → (loop < size)%nat → Forall (λ l, l ≠ []) A →
  ∃ A', deal size loop l ((join <$> A) ++ R) = Ok ((join <$> A') ++ R) ∧ length A' = size ∧
    Forall (λ l, l ≠ []) A' ∧ concat A' ≡ₚ concat A ++ l ∧ Forall2 (prefix) A A'.
Proof.
  revert loop A. induction l as [|d l IH]; intros loop A Hlen Hloop Hne.
  { exists A. rewrite app_nil_r. do 4 (split; [done|]). reflexivity. }
  destruct (lookup_lt_is_Some_2 A loop) as [e He]; [lia|].
  assert (e ≠ []) as Hee by (rewrite Forall_forall in Hne; apply Hne; by eapply list_elem_of_lookup_2).
  cbn [deal]. rewrite (vget_nat _ _ (join e)).
  2:{ rewrite lookup_app_l by (rewrite length_fmap; lia). by rewrite list_lookup_fmap, He. }
  rewrite bind_Ok, <-join_snoc by done.
  rewrite insert_app_l by (rewrite length_fmap; lia). rewrite <-list_fmap_insert.
  destruct (IH (if (S loop =? size)%nat then 0 else S loop)%nat (<[loop:=e ++ [d]]> A)) as (A' & -> & Hl' & Hn' & Hp & Hpre).
  - by rewrite length_insert.
  - destruct (Nat.eqb_spec (S loop) size); lia.
  - apply Forall_insert; [done|]. by destruct e.
  - exists A'. split; [done|]. split; [done|]. split; [done|].
    apply list_elem_of_split_length in He as (A1 & A2 & -> & ->).
    rewrite list_insert_middle in * by done. split.
    + rewrite Hp, !concat_app. simpl. rewrite <-!app_assoc. simpl.
      f_equiv. f_equiv. by rewrite <-Permutation_middle.
    + apply Forall2_app_inv_l in Hpre as (B1 & B2 & H1 & H2 & ->). apply Forall2_cons_inv_l in H2 as (b & B2' & Hb & H2 & ->).
      apply Forall2_app; [done|]. constructor; [|done]. etrans; [|exact Hb]. by eexists.
Qed.

Section CheckTheory.
Context (query_device : list string) (has_polled : string → bool).

(** Every device exists in the server and has something to poll. *)
Definition polled_device (d : string) : Prop :=
  is_defined (tolower d) query_device = Ok true ∧ has_polled d = true.

Definition conf_ok (devss : list (list string)) : Prop :=
  Forall (λ l, l ≠ []) devss ∧ apart (concat devss) ∧ NoDup (concat devss) ∧
  Forall polled_device (concat devss).

Lemma conf_ok_entries devss :
  conf_ok devss → Forall (λ l, l ≠ [] ∧ Forall comma_free l ∧ Forall (λ x, x ≠ "") l) devss.
Proof.
  intros (Hne & Ha & _ & _). rewrite Forall_forall in *. intros l Hl. split; [auto|].
  apply apart_all. eapply apart_incl; [|exact Ha]. intros x Hx. apply elem_of_concat. eauto.
Qed.

(** An entry is rebuilt name by name. *)
Lemma mod_entry_same before after l done rest :
  conf_ok (before ++ l :: after) → l = done ++ rest →
  mod_entry_of query_device has_polled (join <$> (before ++ l :: after)) (length before) (join done) rest
    = Ok (join l).
Proof.
  intros Hok. pose proof (conf_ok_entries _ Hok) as Hent. destruct Hok as (Hne & Ha & Hnd & Hp).
  rewrite concat_app in *. simpl in *. revert done. induction rest as [|d rest IH]; intros done El.
  { rewrite app_nil_r in El. by subst. }
  assert (d ∈ l ∧ d ∉ done ∧ d ∉ concat before) as (Hd & Hnd1 & Hnd2).
  { subst l. rewrite <-app_assoc in Hnd. simpl in Hnd. apply NoDup_app in Hnd as (_ & H1 & H2).
    apply NoDup_app in H2 as (_ & H3 & _). split; [set_solver|]. split.
    - intros Hd. eapply H3; [exact Hd|set_solver].
    - intros Hd. eapply H1; [exact Hd|set_solver]. }
  assert (polled_device d) as [Hdef Hpol] by (rewrite Forall_forall in Hp; apply Hp; set_solver).
  cbn [mod_entry_of]. rewrite find_none; [|eapply apart_incl; [|exact Ha]; subst l; set_solver|done].
  rewrite fmap_app, not_already; [|done|].
  2:{ apply Forall_app in Hent as [Hent _]. eapply Forall_impl; [exact Hent|]. simpl. tauto. }
  rewrite bind_Ok, Hdef, bind_Ok, Hpol. simpl andb. cbv iota.
  specialize (IH (done ++ [d])). rewrite <-app_assoc in IH. specialize (IH El). rewrite fmap_app in IH.
  rewrite <-IH. f_equal. destruct done as [|x done]; [done|].
  rewrite bool_decide_eq_false_2; [by rewrite join_snoc|]. apply join_nonempty; [done|].
  apply Forall_app in Hent as [_ Hent]. apply Forall_cons in Hent as [(_ & _ & Hent) _].
  subst l. by apply Forall_app in Hent as [Hent _].
Qed.

Lemma check_loop_same before after fuel :
  conf_ok (before ++ after) → (length after < fuel)%nat →
  check_loop query_device has_polled fuel (length before) (length before) (join <$> (before ++ after))
    = Ok (join <$> (before ++ after)).
Proof.
  revert before after. induction fuel as [|fuel IH]; intros before after Hok Hf; [lia|].
  cbn [check_loop]. destruct after as [|l after].
  { rewrite lookup_ge_None_2; [done|]. rewrite length_fmap, length_app. simpl. lia. }
  rewrite list_lookup_fmap, list_lookup_middle by done. cbn [fmap option_fmap option_map].
  pose proof (conf_ok_entries _ Hok) as Hent. apply Forall_app in Hent as [_ Hent].
  apply Forall_cons in Hent as [(Hne & Hc & He) _]. rewrite split_join, bind_Ok by done.
  replace (S (length before) - 1)%nat with (length before) by lia.
  pose proof (mod_entry_same before after l [] l Hok eq_refl) as Hm. simpl join in Hm.
  rewrite Hm, bind_Ok. rewrite bool_decide_eq_false_2 by by apply join_nonempty.
  rewrite list_insert_id by (by rewrite list_lookup_fmap, list_lookup_middle).
  specialize (IH (before ++ [l]) after). rewrite <-app_assoc, length_app in IH. simpl in IH.
  rewrite Nat.add_1_r in IH. apply IH; [done|]. simpl in Hf. lia.
Qed.

Lemma deal_extra_spec size devss k i A R :
  length A = size → (0 < size)%nat → Forall (λ l, l ≠ []) A → conf_ok devss →
  (i + k + size = length devss)%nat →
  ∃ A', deal_extra size (join <$> devss) i k ((join <$> A) ++ R) = Ok ((join <$> A') ++ R) ∧
    length A' = size ∧ concat A' ≡ₚ concat A ++ concat (drop (i + size) devss) ∧ Forall2 (prefix) A A'.
Proof.
  intros Hlen Hs. revert i A Hlen. induction k as [|k IH]; intros i A Hlen Hne Hok Hi.
  { exists A. rewrite drop_ge by lia. rewrite app_nil_r. do 3 (split; [done|]). reflexivity. }
  destruct (lookup_lt_is_Some_2 devss (i + size)) as [l Hl]; [lia|].
  pose proof (conf_ok_entries _ Hok) as Hent. rewrite Forall_forall in Hent.
  destruct (Hent l) as (Hle & Hlc & _); [by eapply list_elem_of_lookup_2|].
  cbn [deal_extra]. unfold get_th_polled_devs_at.
  rewrite (vget_nat _ _ (join l)) by by rewrite list_lookup_fmap, Hl.
  rewrite bind_Ok, split_join, bind_Ok by done.
  destruct (deal_spec size l 0 A R Hlen Hs Hne) as (A1 & -> & Hl1 & Hn1 & Hp1 & Hpre1). rewrite bind_Ok.
  destruct (IH (S i) A1 Hl1 Hn1 Hok) as (A2 & -> & Hl2 & Hp2 & Hpre2); [lia|].
  exists A2. split; [done|]. split; [done|]. split.
  - rewrite Hp2, Hp1, (drop_S devss l (i + size)) by done. simpl. by rewrite <-app_assoc.
  - by etrans.
Qed.

(** at start-up, a configuration that lists existing polled devices, each once,
    is kept as it is when it has no more entries than the pool has threads; with
    more entries the devices of the extra entries are dealt out to the first
    threads: exactly [pool_size] entries remain, each begins with the devices it
    had, and no device is lost or polled by two threads. *)
Theorem check_pool_conf_ok (pool_size : nat) (devss : list (list string)) :
  (0 < pool_size)%nat → devss ≠ [] → conf_ok devss →
  ∃ devss', check_pool_conf query_device has_polled pool_size (join <$> devss) =
      Ok (join <$> devss', bool_decide (pool_size < length devss)%nat) ∧
    length devss' = (pool_size `min` length devss)%nat ∧ concat devss' ≡ₚ concat devss ∧
    Forall2 (prefix) (take pool_size devss) devss'.
Proof.
  intros Hs Hne Hok. unfold check_pool_conf.
  assert (∃ x xs, join <$> devss = x :: xs) as (x & xs & Ec) by (destruct devss; csimpl; [done|eauto]).
  rewrite Ec. rewrite <-Ec. clear x xs Ec.
  pose proof (check_loop_same [] devss (S (length (join <$> devss))) Hok) as Hl.
  change (length (@nil (list string))) with 0%nat in Hl. change ([] ++ devss) with devss in Hl.
  rewrite Hl, bind_Ok, length_fmap by (rewrite length_fmap; lia).
  destruct (Nat.ltb_spec pool_size (length devss)) as [Hlt|Hge].
  - destruct (deal_extra_spec pool_size devss (length devss - pool_size) 0 (take pool_size devss)
      (join <$> drop pool_size devss)) as (A & HA & Hlen & Hp & Hpre).
    + rewrite length_take. lia.
    + done.
    + apply Forall_take. apply Hok.
    + done.
    + lia.
    + rewrite <-fmap_app, take_drop in HA. rewrite HA, !bind_Ok.
      rewrite take_app_le, take_ge by (rewrite ?length_fmap; lia).
      exists A. rewrite bool_decide_eq_false_2.
      2:{ intros E%(f_equal length). rewrite !length_fmap in E. lia. }
      rewrite bool_decide_eq_true_2 by done. split; [done|]. split; [lia|]. split; [|done].
      rewrite Hp, <-concat_app. simpl Nat.add. by rewrite take_drop.
  - rewrite bind_Ok, bool_decide_eq_true_2, bool_decide_eq_false_2 by (done || lia).
    exists devss. split; [done|]. split; [lia|]. split; [done|]. rewrite take_ge by lia. reflexivity.
Qed.

End CheckTheory.

(** ** Concrete pools *)

Definition ex_query : list string := ["Cl::a/b/1"; "Cl::a/b/2"; "Cl::d/e/f"; "DS::x/y/3"].
Definition ex_polled (d : string) : bool := negb (bool_decide (d = "x/y/9")).

Lemma check_pool_conf_ok_witness :
  ∃ devss', check_pool_conf ex_query ex_polled 2 ["a/b/1"; "a/b/2"; "d/e/f,x/y/3"] =
      Ok (join <$> devss', true) ∧
    length devss' = 2%nat ∧ concat devss' ≡ₚ ["a/b/1"; "a/b/2"; "d/e/f"; "x/y/3"] ∧
    Forall2 (prefix) [["a/b/1"]; ["a/b/2"]] devss'.
Proof.
  apply (check_pool_conf_ok ex_query ex_polled 2 [["a/b/1"]; ["a/b/2"]; ["d/e/f"; "x/y/3"]]).
  - lia.
  - done.
  - split; [by repeat constructor|]. split; [|split].
    + split; [repeat constructor; by apply (bool_decide_unpack _)|].
      intros x y Hx Hy Hne. simpl in Hx, Hy.
      repeat (apply elem_of_cons in Hx as [->|Hx]); try (by apply not_elem_of_nil in Hx);
      repeat (apply elem_of_cons in Hy as [->|Hy]); try (by apply not_elem_of_nil in Hy);
      first [by destruct Hne|reflexivity].
    + apply (bool_decide_unpack _). vm_compute. exact I.
    + repeat constructor.
Defined.

Lemma pool_conf_search_witness :
  get_dev_entry_in_pool_conf "d/e/f" ["a/b/1,a/b/2"; "x/y/3,d/e/f"] = 1 ∧
  (Forall (λ l, tolower (join l) = join l) [["a/b/1"; "a/b/2"]; ["x/y/3"; "d/e/f"]] →
   get_th_polled_devs "d/e/f" ["a/b/1,a/b/2"; "x/y/3,d/e/f"] = Ok (1, ["x/y/3"; "d/e/f"])).
Proof.
  apply (pool_conf_search "d/e/f" [["a/b/1"; "a/b/2"]; ["x/y/3"; "d/e/f"]]).
  - by repeat constructor.
  - split; [repeat constructor; by apply (bool_decide_unpack _)|].
    intros x y Hx Hy Hne. simpl in Hx, Hy.
    repeat (apply elem_of_cons in Hx as [->|Hx]); try (by apply not_elem_of_nil in Hx);
    repeat (apply elem_of_cons in Hy as [->|Hy]); try (by apply not_elem_of_nil in Hy);
    first [by destruct Hne|reflexivity].
Defined.

(** The searches are wrong when a name is the beginning of another one: the device
    is in the entry, and not found. *)
Example entry_not_found :
  get_dev_entry_in_pool_conf "sys/tg_test/1" ["sys/tg_test/10,sys/tg_test/1"] = -1.
Proof. reflexivity. Qed.

(** Or the end of another one: it is found in an entry that does not list it. *)
Example wrong_entry_found :
  get_dev_entry_in_pool_conf "sys/tg_test/1" ["subsys/tg_test/1"; "sys/tg_test/1"] = 0.
Proof. reflexivity. Qed.

(** [check_pool_conf] forgets a device that is a part of a device before it. *)
Example device_forgotten :
  check_pool_conf ["Cl::a/b/10"; "Cl::a/b/1"] ex_polled 4 ["a/b/10,a/b/1"] = Ok (["a/b/10"], true).
Proof. reflexivity. Qed.

(** And after an entry without any valid device it takes every following entry for
    a double: the devices of those are polled by none of the threads. *)
Example entries_forgotten :
  check_pool_conf ex_query ex_polled 4 ["a/b/1"; "old/device/1"; "a/b/2"; "d/e/f"] = Ok (["a/b/1"], true).
Proof. reflexivity. Qed.

Definition ex_thread (id n : Z) (devs : list string) : PollingThreadInfo Z Z :=
  mkPTI id (PollThread_new (mkCmd false false POLL_STOP None 0 "" POLL_CMD 0) ∅ false false) devs n 0.
Definition ex_pool : Pool Z Z :=
  mkPool ["a/b/1"; "a/b/2,d/e/f"] [ex_thread 5 3 ["a/b/1"]; ex_thread 7 1 ["a/b/2"]]
    {["a/b/1" := 5; "a/b/2" := 7]} 2.

Lemma ex_pool_ok : pool_ok ex_pool.
Proof.
  split; try (vm_compute; done).
  - apply (bool_decide_unpack _). vm_compute. exact I.
  - intros d id H. unfold ex_pool in H. simpl in H. change (thread_ids ex_pool) with [5; 7].
    apply lookup_insert_Some in H as [[_ <-]|[_ [_ <-]%lookup_singleton_Some]]; set_solver.
  - intros id H. change (thread_ids ex_pool) with [5; 7] in H. repeat (apply elem_of_cons in H as [->|H]).
    + by exists "a/b/1".
    + by exists "a/b/2".
    + by apply not_elem_of_nil in H.
Defined.

