(* ===== verification/PollProp.v ===== *)
(** * The polling properties of a device at start-up (src/src/server/utils_polling.cpp)

  [Util::check_dev_poll] removes from the two properties the objects that the device
  does not have, [clean_attr_polled_prop] and [clean_cmd_polled_prop] those of the
  dynamic attributes and commands that went.  A property is a list of names, each
  followed by its period. *)
From S2P Require Import Prelude CppString.
Local Open Scope string_scope.
Local Open Scope list_scope.
Local Open Scope Z_scope.

(** One of the two loops of [check_dev_poll]: the list and the number of objects
    removed.  An odd list makes the iterator jump over the end. *)
Fixpoint check_names (known l : list string) : outcome (list string * nat) :=
  match l with
  | [] => Ok ([], 0%nat)
  | [_] => Undef
  | k :: v :: l =>
      '(r, n) ← check_names known l;
      Ok (if bool_decide (tolower k ∈ known) then (k :: v :: r, n) else (r, S n))
  end.

(** The code returned, updated at each object removed. *)
Definition cmd_ret (n : nat) : Z := Nat.iter n (λ _, -1) 0.
Definition attr_ret (n : nat) (ret : Z) : Z := Nat.iter n (λ ret, if ret =? -1 then -3 else -2) ret.

(** [cmds] and [atts] are the names, in lower case, of the commands of the class and
    of the attributes of the device. *)
Definition check_dev_poll (cmds atts poll_cmd_list poll_attr_list : list string)
    : outcome (Z * list string * list string) :=
  '(c, n) ← check_names cmds poll_cmd_list;
  '(a, m) ← check_names atts poll_attr_list;
  Ok (attr_ret m (cmd_ret n), c, a).

(** The loop of [clean_attr_polled_prop] and [clean_cmd_polled_prop]: [find] looks at
    the periods as well as at the names; the list keeps the removals done before the
    exception. *)
Fixpoint clean_names (names l : list string) : list string * option string :=
  match names with
  | [] => (l, None)
  | nm :: names =>
      match list_find (λ x, x = nm) l with
      | Some (k, _) => clean_names names (take k l ++ drop (k + 2) l)
      | None => (l, Some nm)
      end
  end.

(** The property written, if any: an empty one is deleted. *)
Inductive prop_write := PutProp (l : list string) | DelProp.
Definition clean_polled_prop (use_db : bool) (what dev_name : string) (names l : list string)
    : list string * (exn + option prop_write) :=
  if use_db then
    let '(l, missing) := clean_names names l in
    match missing with
    | Some nm =>
        (l, inl (DevFailed [mkDevError "API_MethodArgument" ERR
           ("Polling properties for " +:+ what +:+ " " +:+ nm +:+ " on device " +:+ dev_name +:+
            " not found device in polled " +:+ what +:+ " list!") ("Util::clean_" +:+ what +:+ "_polled_prop")]))
    | None => (l, inr (Some (match l with [] => DelProp | _ => PutProp l end)))
    end
  else (l, inr None).

(** ** Properties *)

(** A well-formed property. *)
Definition pairs (kvs : list (string * string)) : list string := concat ((λ kv, [kv.1; kv.2]) <$> kvs).

Lemma check_names_pairs known kvs :
  let kept := filter (λ kv : string * string, tolower kv.1 ∈ known) kvs in
  check_names known (pairs kvs) = Ok (pairs kept, (length kvs - length kept)%nat).
Proof.
  cbv zeta. induction kvs as [|[k v] kvs IH]; [done|]. unfold pairs in *. csimpl. rewrite IH, filter_cons.
  pose proof (length_filter (λ kv : string * string, tolower kv.1 ∈ known) kvs) as Hl. simpl. destruct (decide (tolower k ∈ known)) as [H|H].
  - by rewrite bool_decide_eq_true_2 by done.
  - rewrite bool_decide_eq_false_2 by done. do 3 f_equal. lia.
Qed.

(** A filter keeps the list when it keeps its length. *)
Lemma filter_same {A} (P : A → Prop) `{∀ x, Decision (P x)} l : filter P l = l ↔ length (filter P l) = length l.
Proof.
  split; [by intros ->|]. induction l as [|x l IH]; [done|]. rewrite filter_cons.
  destruct (decide (P x)); simpl; [intros [= E]; by rewrite IH|].
  pose proof (length_filter P l). lia.
Qed.

Lemma filter_keeps {A} (P : A → Prop) `{∀ x, Decision (P x)} (l : list A) : (∀ x, x ∈ l → P x) → filter P l = l.
Proof.
  induction l as [|x l IH]; intros Hp; [done|]. rewrite filter_cons_True by (apply Hp; by left).
  f_equal. apply IH. intros y Hy. apply Hp. by right.
Qed.

Lemma cmd_ret_spec n : cmd_ret n = if (n =? 0)%nat then 0 else -1.
Proof. by destruct n. Qed.

Lemma attr_ret_spec n ret :
  ret = 0 ∨ ret = -1 → attr_ret n ret =
    match n with O => ret | 1%nat => if ret =? -1 then -3 else -2 | _ => -2 end.
Proof.
  intros H. destruct n as [|[|n]]; [done|done|]. unfold attr_ret.
  induction n as [|n IH]; [by destruct H as [-> | ->]|]. by rewrite Nat.iter_succ, IH.
Qed.

(** [check_dev_poll] keeps exactly the polled objects that the device has, in their
    order and with their periods, and returns 0 exactly when it has removed none.  The
    code tells which of the two lists to save, with a flaw: when commands and at least
    two attributes are removed it is -2, the code of the attributes alone. *)
Theorem check_dev_poll_ok cmds atts (kc ka : list (string * string)) :
  let c := filter (λ kv : string * string, tolower kv.1 ∈ cmds) kc in
  let a := filter (λ kv : string * string, tolower kv.1 ∈ atts) ka in
  ∃ ret, check_dev_poll cmds atts (pairs kc) (pairs ka) = Ok (ret, pairs c, pairs a) ∧
    (ret = 0 ↔ c = kc ∧ a = ka) ∧
    (ret = -1 ↔ c ≠ kc ∧ a = ka) ∧
    (ret = -3 ↔ c ≠ kc ∧ (length a + 1 = length ka)%nat) ∧
    (ret = -2 ↔ a ≠ ka ∧ (c = kc ∨ (length a + 2 <= length ka)%nat)).
Proof.
  intros c a. exists (attr_ret (length ka - length a) (cmd_ret (length kc - length c))). split.
  { unfold check_dev_poll. by rewrite !check_names_pairs. }
  rewrite cmd_ret_spec, attr_ret_spec by (case_match; auto). unfold c, a. rewrite !filter_same. fold c a.
  pose proof (length_filter (λ kv : string * string, tolower kv.1 ∈ cmds) kc : length c <= length kc)%nat.
  pose proof (length_filter (λ kv : string * string, tolower kv.1 ∈ atts) ka : length a <= length ka)%nat.
  destruct (length ka - length a)%nat as [|[|n]] eqn:Ea; destruct (length kc - length c)%nat as [|m] eqn:Ec; simpl;
    (split; [|split; [|split]]); lia.
Qed.

(** A command and two attributes are removed: the caller saves the attributes only. *)
Example ret_forgets_commands :
  check_dev_poll ["on"] ["x"] ["Off"; "1000"] ["y"; "100"; "x"; "200"; "z"; "300"] = Ok (-2, [], ["x"; "200"]).
Proof. reflexivity. Qed.

(** The removed names, one after the other. *)
Definition without (nm : string) (kvs : list (string * string)) : list (string * string) :=
  filter (λ kv : string * string, kv.1 ≠ nm) kvs.

Lemma pairs_app l1 l2 : pairs (l1 ++ l2) = pairs l1 ++ pairs l2.
Proof. unfold pairs. by rewrite fmap_app, concat_app. Qed.

Lemma clean_one nm (kvs : list (string * string)) :
  NoDup kvs.*1 → nm ∈ kvs.*1 → nm ∉ kvs.*2 →
  ∃ k, list_find (λ x, x = nm) (pairs kvs) = Some (k, nm) ∧
    take k (pairs kvs) ++ drop (k + 2) (pairs kvs) = pairs (without nm kvs).
Proof.
  unfold pairs, without. induction kvs as [|[k v] kvs IH]; csimpl; intros Hd Hk Hv.
  - by apply not_elem_of_nil in Hk.
  - apply NoDup_cons in Hd as [Hn Hd]. apply not_elem_of_cons in Hv as [Hv1 Hv2]. rewrite filter_cons. simpl.
    destruct (decide (k = nm)) as [->|Hne].
    + exists 0%nat. split; [done|]. rewrite decide_False by (intros H; by apply H). simpl. rewrite drop_0. f_equal. f_equal.
      symmetry. apply filter_keeps. intros x Hx <-. destruct Hn. apply list_elem_of_fmap. by exists x.
    + apply elem_of_cons in Hk as [Hk|Hk]; [done|]. destruct (IH Hd Hk Hv2) as (j & Hj & E).
      exists (S (S j)). rewrite Hj. rewrite decide_False by done. split; [done|]. rewrite decide_True by done. simpl.
      by rewrite E.
Qed.

Lemma without_names names (kvs : list (string * string)) :
  foldl (λ l nm, without nm l) kvs names = filter (λ kv : string * string, kv.1 ∉ names) kvs.
Proof.
  revert kvs. induction names as [|nm names IH]; intros kvs; simpl.
  - symmetry. apply filter_keeps. intros. apply not_elem_of_nil.
  - rewrite IH. unfold without. clear IH. induction kvs as [|kv kvs IH]; [done|]. rewrite !filter_cons.
    destruct (decide (kv.1 ≠ nm)) as [Hn|Hn]; [rewrite filter_cons|];
      (destruct (decide (kv.1 ∉ nm :: names)) as [Hi|Hi]; rewrite not_elem_of_cons in Hi).
    + rewrite decide_True by apply Hi. by rewrite IH.
    + rewrite decide_False by (intros H; by apply Hi). done.
    + by destruct Hi.
    + done.
Qed.

Lemma clean_names_ok names (kvs : list (string * string)) :
  NoDup names → NoDup kvs.*1 → Forall (λ nm, nm ∈ kvs.*1 ∧ nm ∉ kvs.*2) names →
  clean_names names (pairs kvs) = (pairs (foldl (λ l nm, without nm l) kvs names), None).
Proof.
  revert kvs. induction names as [|nm names IH]; intros kvs Hnd Hk Hf; [done|]. simpl.
  apply NoDup_cons in Hnd as [Hnm Hnd]. apply Forall_cons in Hf as [[H1 H2] Hf].
  destruct (clean_one nm kvs Hk H1 H2) as (k & -> & ->).
  assert (Hs : without nm kvs `sublist_of` kvs) by apply sublist_filter.
  apply IH; [done| |].
  - eapply sublist_NoDup; [exact Hk|]. by apply fmap_sublist.
  - rewrite Forall_forall in Hf |- *. intros x Hx. destruct (Hf x Hx) as [H3 H4]. split.
    + apply list_elem_of_fmap in H3 as (kv & -> & H3). apply list_elem_of_fmap. exists kv. split; [done|].
      apply list_elem_of_filter. split; [|done]. intros Hkv. by rewrite Hkv in Hx.
    + intros H5. destruct H4. eapply elem_of_sublist; [done|]. by apply fmap_sublist.
Qed.

(** The clean-up of the dynamic attributes (commands) that went removes exactly
    their names and periods from the property, and deletes an empty property; it relies
    on no name being the text of a period, as it looks for the names everywhere. *)
Theorem clean_polled_prop_ok (what dev_name : string) names (kvs : list (string * string)) :
  NoDup names → NoDup kvs.*1 → Forall (λ nm, nm ∈ kvs.*1 ∧ nm ∉ kvs.*2) names →
  let kept := filter (λ kv : string * string, kv.1 ∉ names) kvs in
  clean_polled_prop true what dev_name names (pairs kvs) =
    (pairs kept, inr (Some (if bool_decide (kept = []) then DelProp else PutProp (pairs kept)))).
Proof.
  intros H1 H2 H3 kept. unfold clean_polled_prop. rewrite clean_names_ok, without_names by done. fold kept.
  by destruct kept as [|[k v] l].
Qed.

Lemma clean_polled_prop_ok_witness :
  clean_polled_prop true "attribute" "a/b/1" ["dyn"] ["x"; "1000"; "dyn"; "500"] =
    (["x"; "1000"], inr (Some (PutProp ["x"; "1000"]))).
Proof.
  apply (clean_polled_prop_ok "attribute" "a/b/1" ["dyn"] [("x", "1000"); ("dyn", "500")]).
  - by apply (bool_decide_unpack _).
  - by apply (bool_decide_unpack _).
  - constructor; [|constructor]. split; by apply (bool_decide_unpack _).
Defined.
