(* ===== verification/DServerPoll.v ===== *)
(** * The polling commands of the admin device (src/src/server/dserverpoll.cpp)

  [DServer::add_obj_polling], [upd_obj_polling_period], [rem_obj_polling],
  [check_upd_authorized], [start_polling] and [stop_polling], with the parts of
  [DeviceImpl] they use (device.cpp).  They check their arguments, change the poll list of the
  device, send a command to the polling thread in charge of it (the model of
  PollThread.v executes it), then update the polling properties of the device,
  the pool configuration and the database.

  The code is written in the monad of StateExn.v. *)
From Stdlib Require Import Ascii.
From stdpp Require Import pretty.
From S2P Require Import Prelude StateExn CppString PollRing PollObj PollThread PollTheory PollPool.
Local Open Scope string_scope.
Local Open Scope list_scope.
Local Open Scope Z_scope.

Definition MIN_POLL_PERIOD : Z := 5.
Definition MaxDevPropLength : nat := 255.
Definition LOCAL_POLL_REQUEST : string := "_local".
Definition LOCAL_REQUEST_STR_SIZE : Z := 6.
Definition npos : Z := 2 ^ 64 - 1.

(** ** Texts *)

(** [s >> n] of a stream for an integer of [bits] bits: blanks, a sign, digits;
    [None] is the fail bit. *)
Definition is_digit (a : ascii) : bool := let n := nat_of_ascii a in ((48 <=? n) && (n <=? 57))%nat.
Definition is_blank (a : ascii) : bool := let n := nat_of_ascii a in ((n =? 32) || ((9 <=? n) && (n <=? 13)))%nat.
Fixpoint skip_blanks (s : string) : string :=
  match s with String a s' => if is_blank a then skip_blanks s' else s | "" => "" end.
Fixpoint read_digits (s : string) (acc : Z) : Z :=
  match s with
  | String a s => if is_digit a then read_digits s (acc * 10 + Z.of_nat (nat_of_ascii a - 48)) else acc
  | "" => acc
  end.
Definition read_int (bits : Z) (s : string) : option Z :=
  let s := skip_blanks s in
  let '(neg, s) := match s with
                   | String "-" s => (true, s) | String "+" s => (false, s) | _ => (false, s) end in
  match s with
  | String a _ =>
      if is_digit a then
        let n := read_digits s 0 in let n := if neg then - n else n in
        if (- 2 ^ (bits - 1) <=? n) && (n <? 2 ^ (bits - 1)) then Some n else None
      else None
  | "" => None
  end.

(** The type of the object, with the suffix of a local request cut: [rfind] gives
    [npos] when there is none, and the difference of sizes wraps around. *)
Definition parse_obj_type (s : string) : outcome (string * bool) :=
  let obj_type := tolower s in
  let pos := match rfind LOCAL_POLL_REQUEST obj_type with Some i => Z.of_nat i | None => npos end in
  if pos =? (Z.of_nat (len obj_type) - LOCAL_REQUEST_STR_SIZE) mod 2 ^ 64 then
    if pos <=? Z.of_nat (len obj_type)
    then t ← erase_end obj_type (Z.to_nat pos); Ok (t, true)
    else out_of_range
  else Ok (obj_type, false).

(** Case-insensitive comparison ([TG_strcasecmp]). *)
Definition same_name (a b : string) : bool := bool_decide (tolower a = tolower b).

(** ** State *)

(** An attribute: is it forwarded, and does the end of its polling send an error to
    the subscribers of each event (a client has subscribed, and the event is not
    pushed by the code of the device)? *)
Record AttrInfo := mkAttr {
  at_name : string;
  at_fwd : bool;
  at_periodic : bool;
  at_archive : bool;
  at_change : bool;
  at_alarm : bool;
}.

(** What the polling commands read and write in a device. *)
Record DevPoll := mkDevPoll {
  dp_name : string;
  dp_is_polled : bool;
  polled_cmd : list string;
  polled_attr : list string;
  non_auto_polled_cmd : list string;
  non_auto_polled_attr : list string;
  cmd_min_poll_period : list string;
  attr_min_poll_period : list string;
  min_poll_period : Z;
  cmd_poll_ring_depth : list string;
  attr_poll_ring_depth : list string;
  poll_ring_depth : Z;
  cmd_list : list (string * bool);
  attr_list : list AttrInfo;
}.

Inductive Write :=
  | PutDevProp (dev : nat) (prop : string) (v : list string)
  | DelDevProp (dev : nat) (prop : string)
  | PutPoolConf (v : list string)
  | ErrorEvent (dev : nat) (att : string) (ev : string)
  | SetPollingPeriod (dev : nat) (att : string) (n : Z).

Section DServer.
Context {Any Elt : Type}.

Record SrvSt := mkSrv {
  pool : Pool Any Elt;
  pdevs : gmap nat (Device Any Elt);
  dinfo : gmap nat DevPoll;
  writes : list Write;
  poll_status : bool;
}.

Definition set_pool p s := mkSrv p (pdevs s) (dinfo s) (writes s) (poll_status s).
Definition set_pdevs d s := mkSrv (pool s) d (dinfo s) (writes s) (poll_status s).
Definition set_dinfo d s := mkSrv (pool s) (pdevs s) d (writes s) (poll_status s).
Definition add_write w s := mkSrv (pool s) (pdevs s) (dinfo s) (writes s ++ [w]) (poll_status s).
Definition set_poll_status b s := mkSrv (pool s) (pdevs s) (dinfo s) (writes s) b.

Abbreviation M := (SM SrvSt).

(** ** The rest of the program *)

(** [get_device_by_name] of [Util], [check_lock_owner], whether there is a
    database, and whether the server is shutting down. *)
Record SrvEnv := mkSrvEnv {
  get_device_by_name : string → exn + nat;
  check_lock_owner : nat → string → outcome unit;
  use_db : bool;
  svr_shutting_down : bool;
  bef_9 : bool;
}.

(** [self] is the identifier of the calling thread, [alive] says which polling
    threads answer before the time-out, [t_now] is the date at which they do;
    [new_id] is the identifier of a thread created by the call and [raw] what its
    buffers hold. *)
Context (indet : Z) (senv : SrvEnv) (self : Z) (alive : Z → bool) (t_now new_id : Z) (raw : PollThCmd).

Definition dev_info (i : nat) : M DevPoll := s ← get; lift (deref (dinfo s !! i)).
Definition device (i : nat) : M (Device Any Elt) := s ← get; lift (deref (pdevs s !! i)).
Definition set_device (i : nat) (d : Device Any Elt) : M unit := modify (λ s, set_pdevs (<[i := d]> (pdevs s)) s).
Definition set_info (i : nat) (d : DevPoll) : M unit := modify (λ s, set_dinfo (<[i := d]> (dinfo s)) s).
Definition write (w : Write) : M unit := modify (add_write w).

(** [get_device_by_name], with the error the admin device adds. *)
Definition find_device (nm o : string) : M nat :=
  match get_device_by_name senv nm with
  | inr i => mret i
  | inl (DevFailed errs) =>
      lift (Exc (DevFailed (errs ++ [mkDevError "API_DeviceNotFound" ERR ("Device " +:+ nm +:+ " not found") o])))
  | inl e => lift (Exc e)
  end.

Definition find_attr (nm : string) (l : list AttrInfo) : option AttrInfo :=
  snd <$> list_find (λ a, tolower (at_name a) = tolower nm) l.
Definition get_attr_by_name (i : nat) (nm : string) : M AttrInfo :=
  d ← dev_info i;
  match find_attr nm (attr_list d) with
  | Some a => mret a
  | None => throw "API_AttrNotFound" (nm +:+ " attribute not found") "MultiAttribute::get_attr_by_name"
  end.

(** [DeviceImpl::check_command_exists]. *)
Definition check_command_exists (d : DevPoll) (nm : string) : outcome unit :=
  match list_find (λ c, fst c = nm) (cmd_list d) with
  | Some (_, (_, needs_input)) =>
      if (needs_input : bool) then
        throw_exception "API_IncompatibleCmdArgumentType"
          ("Command " +:+ nm +:+ " cannot be polled because it needs input value") "DeviceImpl::check_command_exists"
      else Ok tt
  | None => throw_exception "API_CommandNotFound" ("Command " +:+ nm +:+ " not found") "DeviceImpl::check_command_exists"
  end.

(** [DServer::check_upd_authorized]: the minimum of the object, the text after its
    name in the property, or the one of the device. *)
Definition min_upd_of (d : DevPoll) (ty : PollObjType) (nm : string) : outcome Z :=
  let v := if bool_decide (ty = POLL_CMD) then cmd_min_poll_period d else attr_min_poll_period d in
  match list_find (λ x, x = nm) v with
  | Some (k, _) =>
      t ← deref (v !! S k);
      match read_int 32 t with
      | Some n => Ok n
      | None => throw_exception "API_BadConfigurationProperty" "System property has wrong syntax"
                  "DServer::check_upd_authorized"
      end
  | None => Ok (min_poll_period d)
  end.
Definition check_upd_authorized (d : DevPoll) (upd : Z) (ty : PollObjType) (nm : string) : outcome unit :=
  min_upd ← min_upd_of d ty nm;
  if negb (min_upd =? 0) && (upd <? min_upd) then
    throw_exception "API_MethodArgument" "Polling period is below the min authorized" "DServer::check_upd_authorized"
  else Ok tt.

(** [DeviceImpl::get_cmd_poll_ring_depth] and [get_attr_poll_ring_depth]. *)
Definition default_depth (d : DevPoll) : Z :=
  if poll_ring_depth d =? 0 then DefaultPollRingDepth else poll_ring_depth d.
Fixpoint prop_value (v : list string) (nm : string) : outcome (option string) :=
  match v with
  | [] => Ok None
  | k :: v' =>
      if bool_decide (k = nm) then match v' with x :: _ => Ok (Some x) | [] => Undef end
      else match v' with _ :: v'' => prop_value v'' nm | [] => Ok None end
  end.
Definition depth_of (v : list string) (nm : string) (other : outcome Z) : outcome Z :=
  x ← prop_value v nm;
  match x with
  | None => other
  | Some t =>
      match read_int 64 t with
      | Some n => Ok n
      | None => throw_exception "API_BadConfigurationProperty" "System property has wrong syntax" "DeviceImpl"
      end
  end.
Definition get_cmd_poll_ring_depth (d : DevPoll) (nm : string) : outcome Z :=
  depth_of (cmd_poll_ring_depth d) nm (Ok (default_depth d)).
Definition get_attr_poll_ring_depth (d : DevPoll) (nm : string) : outcome Z :=
  depth_of (attr_poll_ring_depth d) nm
    (if bool_decide (nm = "state") || bool_decide (nm = "status") then get_cmd_poll_ring_depth d nm
     else Ok (default_depth d)).

(** ** A command to a polling thread *)

Definition thread_at (k : nat) : M (PollingThreadInfo Any Elt) := s ← get; lift (deref (poll_ths (pool s) !! k)).
Definition set_thread (k : nat) (th : PollSt Any Elt) : M unit := modify (λ s,
  set_pool (upd_info (λ t, mkPTI (thread_id t) th (polled_devices t) (nb_polled_objects t) (smallest_upd t)) k (pool s)) s).

(** The thread takes the command of its buffer and executes it. *)
Definition take_cmd (t : Z) (c : PollThCmd) (ds : gmap nat (Device Any Elt)) (th : PollSt Any Elt) : outcome (PollSt Any Elt) :=
  execute_cmd indet (set_local_cmd c (set_shared c (set_now t (set_devs ds th)))).

(** Wait for the previous command, with no limit; then write the command with
    [edit] and wait for its execution, at most [DEFAULT_TIMEOUT].  A local request
    does not wait.  False is the time-out: the command is still in the buffer. *)
Definition send_cmd (k : nat) (edit : PollThCmd → PollThCmd) (local_request : bool) : M bool :=
  t ← thread_at k;
  s ← get;
  if self =? thread_id t then
    let c := edit (shared_cmd (poll_th t)) in
    th ← lift (take_cmd (now (poll_th t)) c (pdevs s) (poll_th t));
    set_thread k th;; mret true
  else
    th ← (if cmd_pending (shared_cmd (poll_th t)) then
            if alive (thread_id t) then lift (take_cmd t_now (shared_cmd (poll_th t)) (pdevs s) (poll_th t))
            else lift Undef
          else mret (poll_th t));
    let c := edit (shared_cmd th) in
    if local_request then set_thread k (set_shared c th);; mret true
    else if alive (thread_id t) then
      th ← lift (take_cmd t_now c (pdevs s) th);
      set_thread k th;; mret true
    else set_thread k (set_shared c th);; mret false.

Definition add_cmd (i : nat) (index delta : Z) (c : PollThCmd) : PollThCmd :=
  mkCmd true (trigger c) POLL_ADD_OBJ (Some i) index (cmd_name c) (cmd_type c) delta.
Definition code_cmd (code : PollCmdCode) (c : PollThCmd) : PollThCmd :=
  mkCmd true (trigger c) code (cmd_dev c) (cmd_index c) (cmd_name c) (cmd_type c) (new_upd c).
Definition upd_cmd (i : nat) (nm : string) (ty : PollObjType) (upd index : Z) (c : PollThCmd) : PollThCmd :=
  mkCmd true (trigger c) POLL_UPD_PERIOD (Some i) index nm ty upd.
Definition rem_cmd (code : PollCmdCode) (i : nat) (nm : string) (ty : PollObjType) (index : option Z) (c : PollThCmd) : PollThCmd :=
  mkCmd true (trigger c) code (Some i) (default (cmd_index c) index) nm ty (new_upd c).

Definition blocked {A} (o : string) : M A := throw "API_CommandTimedOut" "Polling thread blocked !!!" o.

(** ** [add_obj_polling] *)

Definition already_polled (ty : PollObjType) (nm : string) (l : list (PollObj Any Elt)) : bool :=
  existsb (λ o, bool_decide (po_type o = ty) && bool_decide (tolower (po_name o) = nm)) l.

(** The checks, in the order of the code: the type under which the object is
    polled, whether it was given as a command, and whether the request is local. *)
Definition add_checks (i : nat) (s1 s2 : string) (upd : Z) : M (PollObjType * bool * bool) :=
  d ← dev_info i;
  dev ← device i;
  '(obj_type, local_request) ← lift (parse_obj_type s1);
  let obj_name := tolower s2 in
  is_cmd ← (if bool_decide (obj_type = "command") then lift (check_command_exists d obj_name);; mret true
            else if bool_decide (obj_type = "attribute") then _ ← get_attr_by_name i s2; mret false
            else throw "API_NotSupported" ("Object type " +:+ obj_type +:+ " not supported") "DServer::add_obj_polling");
  when_ (is_cmd && bool_decide (obj_name = "init"))
    (throw "API_NotSupported" "It's not possible to poll the Init command!" "DServer::add_obj_polling");;
  let type := if is_cmd && negb ((3 <=? dev_idl_version dev)
                                 && (bool_decide (obj_name = "state") || bool_decide (obj_name = "status")))
              then POLL_CMD else POLL_ATTR in
  when_ (already_polled type obj_name (poll_obj_list dev))
    (throw "API_AlreadyPolled" (obj_name +:+ " already polled") "DServer::add_obj_polling");;
  when_ (negb (upd =? 0) && (upd <? MIN_POLL_PERIOD))
    (throw "API_NotSupported" "Below the min authorized period" "DServer::add_obj_polling");;
  when_ (negb (upd =? 0)) (lift (check_upd_authorized d upd type obj_name));;
  when_ (negb is_cmd)
    (a ← get_attr_by_name i s2;
     when_ (at_fwd a) (throw "API_NotSupportedFeature" "It's not supported to poll a forwarded attribute."
                         "DServer::add_obj_polling"));;
  mret (type, is_cmd, local_request).

(** The thread in charge of the device, created if there is none; -2 when there was
    one, -1 when a thread has been created, else the entry of the configuration. *)
Definition thread_in_charge (s0 : string) : M (nat * Z) :=
  s ← get;
  thread_created ← (if get_polling_thread_id_by_name s0 (pool s) =? 0 then
                      '(r, p) ← lift (create_poll_thread (PollThread_new raw (pdevs s) false) new_id s0 false
                                        (bef_9 senv) (-1) (pool s));
                      modify (set_pool p);; mret r
                    else mret (-2));
  s ← get;
  k ← lift (get_polling_thread_info_by_id (get_polling_thread_id_by_name s0 (pool s)) (pool s));
  mret (k, thread_created).

(** The property with the polled objects: names and periods. *)
Fixpoint set_prop (l : list string) (nm u : string) : outcome (list string) :=
  match l with
  | [] => Ok [nm; u]
  | k :: l =>
      if same_name k nm then match l with _ :: l => Ok (k :: u :: l) | [] => Undef end
      else match l with x :: l => r ← set_prop l nm u; Ok (k :: x :: r) | [] => Ok [k] end
  end.
Definition polled_objs (ty : PollObjType) (d : DevPoll) : list string :=
  if bool_decide (ty = POLL_CMD) then polled_cmd d else polled_attr d.
Definition non_auto (ty : PollObjType) (d : DevPoll) : list string :=
  if bool_decide (ty = POLL_CMD) then non_auto_polled_cmd d else non_auto_polled_attr d.
Definition with_lists (ty : PollObjType) (objs na : list string) (d : DevPoll) : DevPoll :=
  let c := bool_decide (ty = POLL_CMD) in
  mkDevPoll (dp_name d) (dp_is_polled d) (if c then objs else polled_cmd d) (if c then polled_attr d else objs)
    (if c then na else non_auto_polled_cmd d) (if c then non_auto_polled_attr d else na)
    (cmd_min_poll_period d) (attr_min_poll_period d) (min_poll_period d) (cmd_poll_ring_depth d)
    (attr_poll_ring_depth d) (poll_ring_depth d) (cmd_list d) (attr_list d).
Definition with_polled (b : bool) (d : DevPoll) : DevPoll :=
  mkDevPoll (dp_name d) b (polled_cmd d) (polled_attr d) (non_auto_polled_cmd d) (non_auto_polled_attr d)
    (cmd_min_poll_period d) (attr_min_poll_period d) (min_poll_period d) (cmd_poll_ring_depth d)
    (attr_poll_ring_depth d) (poll_ring_depth d) (cmd_list d) (attr_list d).

(** The list of the attributes not polled automatically goes, as the code has it,
    to the property of the commands. *)
Definition add_props (i : nat) (ty : PollObjType) (obj_name : string) (upd : Z) (with_db_upd : bool) : M unit :=
  d ← dev_info i;
  let na := List.filter (λ x, negb (same_name x obj_name)) (non_auto ty d) in
  let found_in_non_auto := negb (length na =? length (non_auto ty d))%nat in
  objs ← (if found_in_non_auto then mret (polled_objs ty d)
          else lift (set_prop (polled_objs ty d) obj_name (pretty upd)));
  set_info i (with_lists ty objs na d);;
  when_ (with_db_upd && use_db senv)
    (write (if found_in_non_auto then PutDevProp i "non_auto_polled_cmd" na
            else PutDevProp i (if bool_decide (ty = POLL_CMD) then "polled_cmd" else "polled_attr") objs)).

(** Long entries of the pool configuration are cut in lines ended by a backslash. *)
Fixpoint cut_lines (nb_lines i : nat) (v_entry : string) : outcome (list string) :=
  match nb_lines with
  | O => Ok []
  | S nb_lines =>
      sub ← substr v_entry (i * MaxDevPropLength) MaxDevPropLength;
      rest ← cut_lines nb_lines (S i) v_entry;
      Ok ((if (nb_lines =? 0)%nat then sub else sub +:+ "\") :: rest)
  end.
Fixpoint cut_conf (ppc : list string) : outcome (list string) :=
  match ppc with
  | [] => Ok []
  | v_entry :: ppc =>
      l ← cut_lines (len v_entry / MaxDevPropLength + 1) 0 v_entry;
      rest ← cut_conf ppc;
      Ok (l ++ rest)
  end.

Definition add_to_conf (s0 : string) (thread_created : Z) (with_db_upd : bool) : M unit :=
  when_ (negb (thread_created =? -2))
    (s ← get;
     let dev_name := tolower s0 in
     let conf := poll_pool_conf (pool s) in
     conf ← (if thread_created =? -1 then mret (conf ++ [dev_name])
             else if 0 <=? thread_created then
               e ← lift (vget conf thread_created);
               lift (vset conf thread_created (e +:+ String comma dev_name))
             else mret conf);
     modify (λ s, set_pool (with_conf conf (pool s)) s);;
     when_ (with_db_upd && use_db senv) (l ← lift (cut_conf conf); write (PutPoolConf l))).

(** [start_polling] of one thread. *)
Definition start_thread (k : nat) : M unit :=
  ok ← send_cmd k (code_cmd POLL_START) false;
  when_ (negb ok) (blocked "DServer::start_polling").

Definition wrong_args {A} (o : string) : M A := throw "API_WrongNumberOfArgs" "Incorrect number of inout arguments" o.

Definition add_obj_polling (svalue : list string) (lvalue : list Z) (with_db_upd : bool) (delta_ms : Z) : M unit :=
  match svalue, lvalue with
  | [s0; s1; s2], [upd] =>
      i ← find_device s0 "DServer::add_obj_polling";
      lift (check_lock_owner senv i "add_obj_polling");;
      '(type, is_cmd, local_request) ← add_checks i s1 s2 upd;
      let obj_name := tolower s2 in
      d ← dev_info i;
      depth ← lift (if (is_cmd : bool) then get_cmd_poll_ring_depth d obj_name else get_attr_poll_ring_depth d obj_name);
      dev ← device i;
      let poll_list := poll_obj_list dev ++
        [PollObj_depth (poll_old_factor dev) type obj_name (milliseconds upd) depth] in
      set_device i (with_poll_list dev poll_list);;
      '(k, thread_created) ← thread_in_charge s0;
      ok ← send_cmd k (add_cmd i (Z.of_nat (length poll_list) - 1) (milliseconds delta_ms)) local_request;
      when_ (negb ok)
        (set_device i dev;;
         when_ (thread_created =? -1)
           (t ← thread_at k; set_thread k (set_shared (code_cmd POLL_EXIT (shared_cmd (poll_th t))) (poll_th t)));;
         blocked "DServer::add_obj_polling");;
      modify (λ s, set_pool (upd_info (λ t, mkPTI (thread_id t) (poll_th t) (polled_devices t)
                                              (nb_polled_objects t + 1) (smallest_upd t)) k (pool s)) s);;
      add_props i type obj_name upd with_db_upd;;
      when_ (thread_created =? -1) (start_thread k);;
      add_to_conf s0 thread_created with_db_upd;;
      d ← dev_info i;
      set_info i (with_polled true d)
  | _, _ => wrong_args "DServer::add_obj_polling"
  end.

(** ** [upd_obj_polling_period] *)

Definition not_polled {A} (o : string) : M A := throw "API_DeviceNotPolled" "Device is not polled" o.
Definition no_thread {A} (o : string) : M A := throw "API_NotSupported" "Can't find a polling thread for device" o.

(** The type of the object, for the two commands that follow: the state and the
    status are attributes whatever the release of the device. *)
Definition upd_type (o s1 obj_name : string) : M (PollObjType * bool) :=
  '(obj_type, local_request) ← lift (parse_obj_type s1);
  if bool_decide (obj_type = "command") then
    mret (if bool_decide (obj_name = "state") || bool_decide (obj_name = "status") then POLL_ATTR else POLL_CMD,
          local_request)
  else if bool_decide (obj_type = "attribute") then mret (POLL_ATTR, local_request)
  else throw "API_NotSupported" ("Object type " +:+ obj_type +:+ " not supported") o.

(** The index of the polled object, from the lookup of the device. *)
Definition polled_obj_index (i : nat) (ty : PollObjType) (nm : string) : M nat :=
  dev ← device i; lift (get_polled_obj_by_type_name dev ty nm).

Definition upd_obj_polling_period (svalue : list string) (lvalue : list Z) (with_db_upd : bool) : M unit :=
  let o := "DServer::upd_obj_polling_period" in
  match svalue, lvalue with
  | [s0; s1; s2], [upd] =>
      i ← find_device s0 o;
      d ← dev_info i;
      when_ (negb (dp_is_polled d)) (not_polled o);;
      lift (check_lock_owner senv i "upd_obj_polling_period");;
      let obj_name := tolower s2 in
      '(type, _) ← upd_type o s1 obj_name;
      ite ← polled_obj_index i type obj_name;
      lift (check_upd_authorized d upd type obj_name);;
      when_ (negb (upd =? 0) && (upd <? MIN_POLL_PERIOD))
        (throw "API_NotSupported" "Below the min authorized period" o);;
      s ← get;
      let poll_th_id := get_polling_thread_id_by_name s0 (pool s) in
      when_ (poll_th_id =? 0) (no_thread o);;
      k ← lift (get_polling_thread_info_by_id poll_th_id (pool s));
      dev ← device i;
      dev' ← lift (on_polled_obj (λ x, Ok (PollObj.update_upd (poll_old_factor dev) (milliseconds upd) x)) ite dev);
      set_device i dev';;
      _ ← send_cmd k (upd_cmd i obj_name type (milliseconds upd) (Z.of_nat ite)) true;
      (** [std::ends] is part of the text *)
      objs ← lift (set_prop (polled_objs type d) obj_name (pretty upd +:+ String Ascii.zero ""));
      set_info i (with_lists type objs (non_auto type d) d);;
      when_ (with_db_upd && use_db senv)
        (write (PutDevProp i (if bool_decide (type = POLL_CMD) then "polled_cmd" else "polled_attr") objs))
  | _, _ => wrong_args o
  end.

(** ** [rem_obj_polling] *)

(** The name and the period that follows it leave the property. *)
Fixpoint rem_prop (l : list string) (nm : string) : outcome (option (list string)) :=
  match l with
  | [] => Ok None
  | k :: l =>
      if same_name k nm then match l with _ :: l => Ok (Some l) | [] => Undef end
      else match l with
           | x :: l => r ← rem_prop l nm; Ok (match r with Some r => Some (k :: x :: r) | None => None end)
           | [] => Ok None
           end
  end.

Definition put_or_del (i : nat) (prop : string) (v : list string) : Write :=
  match v with [] => DelDevProp i prop | _ :: _ => PutDevProp i prop v end.

Definition rem_props (i : nat) (ty : PollObjType) (obj_name : string) (with_db_upd : bool) : M unit :=
  d ← dev_info i;
  r ← lift (rem_prop (polled_objs ty d) obj_name);
  match r with
  | Some objs =>
      set_info i (with_lists ty objs (non_auto ty d) d);;
      when_ (with_db_upd && use_db senv)
        (write (put_or_del i (if bool_decide (ty = POLL_CMD) then "polled_cmd" else "polled_attr") objs))
  | None =>
      if existsb (λ x, same_name x obj_name) (non_auto ty d) then mret tt
      else
        let na := non_auto ty d ++ [obj_name] in
        set_info i (with_lists ty (polled_objs ty d) na d);;
        when_ (with_db_upd && use_db senv)
          (write (put_or_del i (if bool_decide (ty = POLL_CMD) then "non_auto_polled_cmd"
                                else "non_auto_polled_attr") na))
  end.

(** The device leaves its entry of the pool configuration; true when it was alone
    in it and the entry itself leaves. *)
Definition conf_remove (ind : Z) (dev_name : string) (conf : list string) : outcome (list string * bool) :=
  conf_entry ← vget conf ind;
  match find (String comma "") conf_entry 0 with
  | Some _ =>
      let pos := match find dev_name conf_entry 0 with Some pos => Z.of_nat pos | None => npos end in
      let erase_at (p n : Z) := if p <=? Z.of_nat (len conf_entry)
                                then erase conf_entry (Z.to_nat p) (Z.to_nat n) else out_of_range in
      e ← (if negb ((pos + Z.of_nat (len dev_name)) mod 2 ^ 64 =? Z.of_nat (len conf_entry))
           then erase_at pos (Z.of_nat (len dev_name) + 1)
           else erase_at ((pos - 1) mod 2 ^ 64) (Z.of_nat (len conf_entry)));
      c ← vset conf ind e; Ok (c, false)
  | None => Ok (delete (Z.to_nat ind) conf, true)
  end.

(** The errors sent to the clients that have subscribed to an event. *)
Definition error_events (i : nat) (a : AttrInfo) (obj_name : string) : M unit :=
  when_ (at_periodic a) (write (ErrorEvent i obj_name "periodic"));;
  when_ (at_archive a) (write (ErrorEvent i obj_name "archive"));;
  when_ (at_change a) (write (ErrorEvent i obj_name "change"));;
  when_ (at_alarm a) (write (ErrorEvent i obj_name "alarm")).

Definition thread_done (poll_th_id : Z) : M unit :=
  s ← get; p ← lift (remove_polling_thread_info_by_id poll_th_id (pool s)); modify (set_pool p).

(** The last object of a device: the device leaves the pool; true when its thread
    has nothing else to poll.  Another thread than the polling one then ends it. *)
Definition rem_from_pool (s0 : string) (poll_th_id : Z) (with_db_upd : bool) : M bool :=
  s ← get;
  let dev_name := tolower s0 in
  let ind := get_dev_entry_in_pool_conf dev_name (poll_pool_conf (pool s)) in
  when_ (ind =? -1) (throw "API_NotSupported" "Can't find entry for device in polling threads pool configuration !"
                       "DServer::rem_obj_polling");;
  '(conf, kill_thread) ← lift (conf_remove ind dev_name (poll_pool_conf (pool s)));
  modify (λ s, set_pool (remove_dev_from_polling_map dev_name (with_conf conf (pool s))) s);;
  when_ (kill_thread && negb (svr_shutting_down senv) && negb (self =? poll_th_id)) (thread_done poll_th_id);;
  when_ (with_db_upd && use_db senv) (write (PutPoolConf conf));;
  mret kill_thread.

Definition rem_obj_polling (argin : list string) (with_db_upd : bool) : M unit :=
  let o := "DServer::rem_obj_polling" in
  match argin with
  | [s0; s1; s2] =>
      i ← find_device s0 o;
      d ← dev_info i;
      when_ (negb (dp_is_polled d)) (not_polled o);;
      lift (check_lock_owner senv i "rem_obj_polling");;
      let obj_name := tolower s2 in
      '(type, local_request) ← upd_type o s1 obj_name;
      ite ← polled_obj_index i type obj_name;
      dev ← device i;
      obj ← lift (deref (poll_obj_list dev !! ite));
      s ← get;
      let poll_th_id := if svr_shutting_down senv then 0 else get_polling_thread_id_by_name s0 (pool s) in
      when_ (negb (svr_shutting_down senv))
        (when_ (poll_th_id =? 0) (no_thread o);;
         k ← lift (get_polling_thread_info_by_id poll_th_id (pool s));
         let code := if po_upd obj =? 0 then POLL_REM_EXT_TRIG_OBJ else POLL_REM_OBJ in
         let index := if self =? poll_th_id then Some (Z.of_nat ite) else None in
         ok ← send_cmd k (rem_cmd code i obj_name type index) local_request;
         when_ (negb ok) (blocked o));;
      let poll_list := delete ite (poll_obj_list dev) in
      set_device i (with_poll_list dev poll_list);;
      when_ (bool_decide (type = POLL_ATTR))
        (_ ← get_attr_by_name i obj_name; write (SetPollingPeriod i obj_name 0));;
      when_ (bool_decide (poll_list = [])) (set_info i (with_polled false d));;
      rem_props i type obj_name with_db_upd;;
      kill_thread ← (if bool_decide (poll_list = []) then rem_from_pool s0 poll_th_id with_db_upd else mret false : M bool);
      when_ (bool_decide (type = POLL_ATTR)) (a ← get_attr_by_name i s2; error_events i a obj_name);;
      (** the information on the thread is freed, then written to *)
      when_ (kill_thread && negb (svr_shutting_down senv) && (self =? poll_th_id) && local_request)
        (thread_done poll_th_id;; lift Undef)
  | _ => wrong_args o
  end.

(** ** All the threads *)

Fixpoint send_all (o : string) (code : PollCmdCode) (k n : nat) : M unit :=
  match n with
  | O => mret tt
  | S n =>
      ok ← send_cmd k (code_cmd code) false;
      when_ (negb ok) (blocked o);;
      send_all o code (S k) n
  end.
Definition start_polling : M unit :=
  s ← get;
  send_all "DServer::start_polling" POLL_START 0 (length (poll_ths (pool s)));;
  modify (set_poll_status true).
Definition stop_polling : M unit :=
  s ← get;
  send_all "DServer::stop_polling" POLL_STOP 0 (length (poll_ths (pool s)));;
  modify (set_poll_status false).

End DServer.
Arguments SrvSt : clear implicits.
