(* ===== verification/DServerTheory.v ===== *)
(** * Properties of the polling commands of the admin device

  Which requests [add_obj_polling] accepts, that it changes nothing when it refuses
  one, what it does when it accepts, that [rem_obj_polling] undoes it, and that a
  device leaves the pool configuration exactly. *)
From Stdlib Require Import Ascii.
From stdpp Require Import pretty.
From S2P Require Import Prelude StateExn CppString PollRing PollObj PollThread PollTheory PollPool DServerPoll.
Local Open Scope string_scope.
Local Open Scope list_scope.
Local Open Scope Z_scope.

(** ** Leaving the pool configuration *)

Lemma str_take_app_le n s1 s2 : (n <= len s1)%nat → str_take n (s1 +:+ s2) = str_take n s1.
Proof.
  revert n. induction s1 as [|a s1 IH]; intros [|n] H; simpl in H; try lia.
  - by rewrite !str_take_0.
  - by rewrite !str_take_0.
  - change (String a s1 +:+ s2) with (String a (s1 +:+ s2)). simpl. by rewrite IH by lia.
Qed.

Lemma take_name_pos l1 l2 : l1 ≠ [] → l2 ≠ [] → str_take (name_pos l1) (join (l1 ++ l2)) = join l1 +:+ String comma "".
Proof.
  intros H1 H2. destruct l1 as [|x l1]; [done|]. unfold name_pos. rewrite join_app by done.
  assert (E : join (x :: l1) +:+ String comma (join l2) = (join (x :: l1) +:+ String comma "") +:+ join l2)
    by by rewrite app_assoc_str.
  rewrite E. assert (L : (len (join (x :: l1)) + 1 = len (join (x :: l1) +:+ String comma ""))%nat)
    by by rewrite app_len.
  rewrite L. apply str_take_app.
Qed.

Lemma len_join_cons dev l2 : l2 ≠ [] → len (join (dev :: l2)) = (len dev + 1 + len (join l2))%nat.
Proof. intros H. rewrite join_cons, app_len by done. simpl. lia. Qed.

Lemma join_comma l1 dev l2 :
  Forall comma_free (l1 ++ dev :: l2) → l1 ++ l2 ≠ [] →
  ∃ p, find (String comma "") (join (l1 ++ dev :: l2)) 0 = Some p.
Proof.
  intros Hc Hne. unfold find. cbn [Nat.leb]. rewrite str_drop_0.
  assert (∃ x l, l1 ++ dev :: l2 = x :: l ∧ l ≠ []) as (x & l & E & Hl).
  { destruct l1 as [|x l1]; [by exists dev, l2|]. exists x, (l1 ++ dev :: l2). split; [done|]. by destruct l1. }
  rewrite E in *. apply Forall_cons in Hc as [Hx _]. rewrite join_cons, find_comma_app by done. by eexists.
Qed.

(** when the last polled object of a device goes, the device leaves its entry of
    the pool configuration and nothing else changes: the other devices of the entry
    stay, in their order, wherever the device was in the entry, and the entry goes
    when it was alone. *)
Theorem conf_remove_ok (i : nat) (dev : string) (l1 l2 : list string) (devss : list (list string)) :
  devss !! i = Some (l1 ++ dev :: l2) → apart (l1 ++ dev :: l2) → dev ∉ l1 →
  Z.of_nat (len (join (l1 ++ dev :: l2))) < 2 ^ 64 →
  conf_remove (Z.of_nat i) dev (join <$> devss) =
    Ok (join <$> (if bool_decide (l1 ++ l2 = []) then delete i devss else <[i := l1 ++ l2]> devss),
        bool_decide (l1 ++ l2 = [])).
Proof.
  intros Hi Ha Hn Hlen. unfold conf_remove.
  rewrite (vget_nat _ _ (join (l1 ++ dev :: l2))) by by rewrite list_lookup_fmap, Hi.
  rewrite bind_Ok. pose proof (proj1 (apart_all _ Ha)) as Hc.
  assert (apart (dev :: l1 ++ dev :: l2)) as Ha' by (eapply apart_incl; [|exact Ha]; set_solver).
  destruct (apart_head _ _ Ha') as [Hcd Hdne].
  case_bool_decide as Hempty.
  { apply app_eq_nil in Hempty as [-> ->]. simpl app.
    assert (find (String comma "") (join [dev]) 0 = None) as ->.
    { unfold find. cbn [Nat.leb]. rewrite str_drop_0. by rewrite find_comma_free. }
    rewrite Nat2Z.id. f_equal. f_equal. clear. revert i.
    induction devss as [|l devss IH]; intros [|i]; csimpl; [done..|]. by rewrite IH. }
  destruct (join_comma l1 dev l2 Hc Hempty) as [p ->].
  rewrite find_pos by done.
  pose proof (len_join_app l1 (dev :: l2) ltac:(done)) as Hl.
  assert (0 < len dev)%nat as Hd0 by (destruct dev; [done|simpl; lia]).
  destruct l2 as [|y l2].
  - simpl join in Hl. assert (l1 ≠ []) as Hl1 by by rewrite app_nil_r in Hempty.
    assert (0 < name_pos l1)%nat as Hp0 by (destruct l1; [done|unfold name_pos; lia]).
    rewrite Z.mod_small, (proj2 (Z.eqb_eq _ _)) by lia. simpl negb. cbv iota.
    rewrite Z.mod_small by lia. rewrite (proj2 (Z.leb_le _ _)) by lia.
    unfold erase. rewrite (proj2 (Nat.leb_le _ _)) by lia.
    rewrite str_drop_all, app_empty by lia. rewrite join_app by done.
    replace (Z.to_nat (Z.of_nat (name_pos l1) - 1)) with (len (join l1)).
    2: { destruct l1; [done|]. unfold name_pos. lia. }
    rewrite str_take_app, bind_Ok, app_nil_r, vset_Ok.
    2: { apply lookup_lt_Some in Hi. rewrite length_fmap. lia. }
    by rewrite bind_Ok, Nat2Z.id, list_fmap_insert.
  - pose proof (len_join_cons dev (y :: l2) ltac:(done)) as Hl'.
    rewrite Z.mod_small, (proj2 (Z.eqb_neq _ _)) by lia. simpl negb. cbv iota.
    rewrite (proj2 (Z.leb_le _ _)) by lia. unfold erase. rewrite (proj2 (Nat.leb_le _ _)) by lia.
    rewrite Nat2Z.id. replace (name_pos l1 + Z.to_nat (Z.of_nat (len dev) + 1))%nat
      with (name_pos (l1 ++ [dev])).
    2: { destruct l1 as [|x l1]; [unfold name_pos; simpl; lia|]. unfold name_pos. simpl app.
         change (x :: l1 ++ [dev]) with ((x :: l1) ++ [dev]). rewrite join_app, app_len by done.
         change (join [dev]) with dev. cbn [String.length]. cbn [app]. cbv iota. lia. }
    assert (str_drop (name_pos (l1 ++ [dev])) (join (l1 ++ dev :: y :: l2)) = join (y :: l2)) as ->.
    { change (dev :: y :: l2) with ([dev] ++ y :: l2). rewrite app_assoc. by apply str_drop_name_pos. }
    assert (str_take (name_pos l1) (join (l1 ++ dev :: y :: l2)) +:+ join (y :: l2) = join (l1 ++ y :: l2)) as ->.
    { destruct l1 as [|x l1]; [by rewrite str_take_0|]. rewrite take_name_pos by done.
      rewrite (join_app (x :: l1) (y :: l2)) by done. by rewrite app_assoc_str. }
    rewrite bind_Ok, vset_Ok.
    2: { apply lookup_lt_Some in Hi. rewrite length_fmap. lia. }
    by rewrite bind_Ok, Nat2Z.id, list_fmap_insert.
Qed.

Lemma conf_remove_ok_witness :
  conf_remove 1 "d/e/f" ["a/b/1"; "x/y/3,d/e/f,g/h/i"] = Ok (["a/b/1"; "x/y/3,g/h/i"], false).
Proof.
  refine (conf_remove_ok 1 "d/e/f" ["x/y/3"] ["g/h/i"] [["a/b/1"]; ["x/y/3"; "d/e/f"; "g/h/i"]] eq_refl _ _ _).
  - split; [repeat constructor; by apply (bool_decide_unpack _)|].
    intros x y Hx Hy Hne. simpl in Hx, Hy.
    repeat (apply elem_of_cons in Hx as [->|Hx]); try (by apply not_elem_of_nil in Hx);
    repeat (apply elem_of_cons in Hy as [->|Hy]); try (by apply not_elem_of_nil in Hy);
    first [by destruct Hne|reflexivity].
  - apply (bool_decide_unpack _). vm_compute. exact I.
  - reflexivity.
Defined.

(** ** Running the monad *)

Section Monad.
Context {Any Elt : Type}.
Abbreviation MM := (SM (SrvSt Any Elt)).
Implicit Types s : SrvSt Any Elt.

Lemma reads_dev_info i : reads (dev_info (Any := Any) (Elt := Elt) i).
Proof. apply reads_bind; [apply reads_get|]. intros s. apply reads_lift. Qed.
Lemma reads_device i : reads (device (Any := Any) (Elt := Elt) i).
Proof. apply reads_bind; [apply reads_get|]. intros s. apply reads_lift. Qed.
Lemma reads_attr i nm : reads (get_attr_by_name (Any := Any) (Elt := Elt) i nm).
Proof.
  apply reads_bind; [apply reads_dev_info|]. intros d.
  destruct (find_attr nm (attr_list d)); [apply reads_ret|apply reads_throw].
Qed.

Lemma no_throw_dev_info i : no_throw (dev_info (Any := Any) (Elt := Elt) i).
Proof.
  apply no_throw_bind; [by intros s s' e|]. intros s. apply no_throw_lift. intros e.
  by destruct (dinfo s !! i).
Qed.
Lemma run_dev_info_inv i s s' d : dev_info i s = Some (s', inr d) → dinfo s !! i = Some d.
Proof. unfold dev_info, get, lift, mbind, SM_bind. destruct (dinfo s !! i); simpl; naive_solver. Qed.
Lemma run_device_inv i s s' d : device i s = Some (s', inr d) → pdevs s !! i = Some d.
Proof. unfold device, get, lift, mbind, SM_bind. destruct (pdevs s !! i); simpl; naive_solver. Qed.
End Monad.

#[export] Hint Resolve reads_dev_info reads_device reads_attr no_throw_dev_info : srv.

(** Read-only code, by its structure. *)
Ltac reads_tac :=
  repeat first
    [ progress intros
    | apply reads_when | apply reads_ret | apply reads_throw | apply reads_lift | apply reads_get
    | apply reads_dev_info | apply reads_device | apply reads_attr | apply reads_bind
    | match goal with |- reads (match ?x with _ => _ end) => destruct x end
    | match goal with |- reads (if ?x then _ else _) => destruct x end ].

(** ** Which requests are accepted *)

Section Checks.
Context {Any Elt : Type}.
Implicit Types s : SrvSt Any Elt.

Lemma run_dev_info i s d : dinfo s !! i = Some d → dev_info i s = Some (s, inr d).
Proof. intros H. unfold dev_info. erewrite run_bind by done. by rewrite H. Qed.
Lemma run_device i s d : pdevs s !! i = Some d → device i s = Some (s, inr d).
Proof. intros H. unfold device. erewrite run_bind by done. by rewrite H. Qed.

(** The conditions on the request: the object exists, can be polled, is not polled
    yet, and the period is 0 or not below the two minima. *)
Definition period_ok (d : DevPoll) (upd : Z) (ty : PollObjType) (nm : string) : Prop :=
  upd = 0 ∨ MIN_POLL_PERIOD <= upd ∧ ∃ m, min_upd_of d ty nm = Ok m ∧ (m = 0 ∨ m <= upd).

Definition object_ok (d : DevPoll) (obj_type s2 : string) (is_cmd : bool) : Prop :=
  if is_cmd then obj_type = "command" ∧ check_command_exists d (tolower s2) = Ok tt ∧ tolower s2 ≠ "init"
  else obj_type = "attribute" ∧ ∃ a, find_attr s2 (attr_list d) = Some a ∧ at_fwd a = false.

Definition type_of (dev : Device Any Elt) (nm : string) (is_cmd : bool) : PollObjType :=
  if is_cmd && negb ((3 <=? dev_idl_version dev) && (bool_decide (nm = "state") || bool_decide (nm = "status")))
  then POLL_CMD else POLL_ATTR.

Definition accepted (d : DevPoll) (dev : Device Any Elt) (s1 s2 : string) (upd : Z) (ty : PollObjType)
    (is_cmd local_request : bool) : Prop :=
  ∃ obj_type, parse_obj_type s1 = Ok (obj_type, local_request) ∧ object_ok d obj_type s2 is_cmd ∧
    ty = type_of dev (tolower s2) is_cmd ∧ already_polled ty (tolower s2) (poll_obj_list dev) = false ∧
    period_ok d upd ty (tolower s2).

Lemma check_upd_Ok d upd ty nm :
  check_upd_authorized d upd ty nm = Ok tt ↔ ∃ m, min_upd_of d ty nm = Ok m ∧ (m = 0 ∨ m <= upd).
Proof.
  unfold check_upd_authorized. destruct (min_upd_of d ty nm) as [m| |]; simpl; [|naive_solver..].
  split.
  - intros H. exists m. split; [done|]. destruct (negb _ && _) eqn:E; [done|].
    apply andb_false_iff in E as [E|E]; propb; lia.
  - intros (m' & [= <-] & Hm). destruct (negb _ && _) eqn:E; [|done]. propb. lia.
Qed.

Lemma run_get_attr i nm s s' a d :
  dinfo s !! i = Some d →
  get_attr_by_name i nm s = Some (s', inr a) ↔ s' = s ∧ find_attr nm (attr_list d) = Some a.
Proof.
  intros Hd. unfold get_attr_by_name. erewrite run_bind by by apply run_dev_info.
  destruct (find_attr nm (attr_list d)); unfold throw, mret, SM_ret; naive_solver.
Qed.

(** The part of the checks that depends on the kind of object. *)
Definition kind_check (i : nat) (d : DevPoll) (obj_type s2 : string) : SM (SrvSt Any Elt) bool :=
  if bool_decide (obj_type = "command") then lift (check_command_exists d (tolower s2));; mret true
  else if bool_decide (obj_type = "attribute") then _ ← get_attr_by_name i s2; mret false
  else throw "API_NotSupported" ("Object type " +:+ obj_type +:+ " not supported") "DServer::add_obj_polling".

Lemma reads_kind_check i d (obj_type s2 : string) : reads (kind_check i d obj_type s2).
Proof. unfold kind_check. reads_tac. Qed.

Lemma run_kind_check i d (obj_type s2 : string) s is_cmd :
  dinfo s !! i = Some d →
  kind_check i d obj_type s2 s = Some (s, inr is_cmd) ↔
    if is_cmd then obj_type = "command" ∧ check_command_exists d (tolower s2) = Ok tt
    else obj_type = "attribute" ∧ ∃ a, find_attr s2 (attr_list d) = Some a.
Proof.
  intros Hd. unfold kind_check. case_bool_decide as Hc; [|case_bool_decide as Ha].
  - rewrite bind_reads by apply reads_lift. unfold mret, SM_ret.
    setoid_rewrite run_lift. destruct is_cmd; [|naive_solver]. split; [|naive_solver]. by intros ([] & [_ H] & _).
  - rewrite bind_reads by apply reads_attr. unfold mret, SM_ret.
    setoid_rewrite run_get_attr; [|done]. destruct is_cmd; naive_solver.
  - unfold throw. destruct is_cmd; naive_solver.
Qed.

Lemma add_checks_iff i s (s1 s2 : string) upd ty is_cmd local_request d dev :
  dinfo s !! i = Some d → pdevs s !! i = Some dev →
  add_checks i s1 s2 upd s = Some (s, inr (ty, is_cmd, local_request)) ↔
    accepted d dev s1 s2 upd ty is_cmd local_request.
Proof.
  intros Hd Hdev. unfold add_checks, accepted.
  erewrite run_bind by by apply run_dev_info. erewrite run_bind by by apply run_device.
  rewrite bind_reads by apply reads_lift. setoid_rewrite run_lift.
  split.
  - intros ([obj_type lr] & [_ Hp] & H). cbv iota beta zeta in H.
    fold (kind_check i d obj_type s2) in H. apply bind_reads in H as (c & Hk & H); [|apply reads_kind_check].
    apply run_kind_check in Hk; [|done].
    apply bind_reads in H as ([] & Hi & H); [|reads_tac]. apply run_guard in Hi as [Hi _].
    change (if c && _ then POLL_CMD else POLL_ATTR) with (type_of dev (tolower s2) c) in H.
    apply bind_reads in H as ([] & Ha & H); [|reads_tac]. apply run_guard in Ha as [Ha _].
    apply bind_reads in H as ([] & Hm & H); [|reads_tac]. apply run_guard in Hm as [Hm _].
    apply bind_reads in H as ([] & Hu & H); [|reads_tac].
    apply bind_reads in H as ([] & Hf & H); [|reads_tac].
    injection H as <- <- <-. exists obj_type. split; [done|]. split_and!; [|done..|].
    + destruct c; simpl in Hk, Hi, Hf |- *.
      * apply bool_decide_eq_false in Hi. naive_solver.
      * destruct Hk as [-> [a Hat]]. split; [done|]. exists a. split; [done|].
        apply bind_reads in Hf as (a' & Hat' & Hf); [|reads_tac].
        apply (run_get_attr _ _ _ _ _ d) in Hat' as [_ Hat']; [|done].
        apply run_guard in Hf as [Hf _]. naive_solver.
    + destruct (Z.eqb_spec upd 0) as [->|Hne]; [by left|right]. simpl in Hm, Hu.
      apply run_lift in Hu as [_ Hu]. apply check_upd_Ok in Hu. propb. split; [lia|done].
  - intros (obj_type & Hp & Ho & -> & Ha & Hu). exists (obj_type, local_request). split; [done|].
    cbv iota beta zeta. fold (kind_check i d obj_type s2).
    rewrite bind_reads by apply reads_kind_check. exists is_cmd. split.
    { apply run_kind_check; [done|]. destruct is_cmd; naive_solver. }
    change (if is_cmd && _ then POLL_CMD else POLL_ATTR) with (type_of dev (tolower s2) is_cmd).
    rewrite bind_reads by reads_tac. exists tt. split.
    { apply run_guard. split; [|done]. destruct is_cmd; [|done]. simpl. apply bool_decide_eq_false. naive_solver. }
    rewrite bind_reads by reads_tac. exists tt. split; [by apply run_guard|].
    rewrite bind_reads by reads_tac. exists tt. split.
    { apply run_guard. split; [|done]. destruct Hu as [->|[Hu _]]; [done|]. apply andb_false_iff. right. propb. lia. }
    rewrite bind_reads by reads_tac. exists tt. split.
    { destruct Hu as [->|[_ Hu]]; [done|]. destruct (upd =? 0); [done|]. apply run_lift. split; [done|].
      by apply check_upd_Ok. }
    rewrite bind_reads by reads_tac. exists tt. split; [|done].
    destruct is_cmd; [done|]. destruct Ho as (_ & a & Hat & Hf). apply bind_reads; [reads_tac|].
    exists a. split; [by apply (run_get_attr _ _ _ _ _ d)|]. by rewrite Hf.
Qed.

(** [add_obj_polling] accepts exactly the requests it should: a command that
    exists, needs no argument and is not Init, or an attribute that exists and is not
    forwarded; not polled yet under the type it is polled with (from IDL 3 on the
    commands State and Status are polled as attributes); with period 0 (triggered
    polling), or at least 5 ms and at least the minimum set for the object or for the
    device. *)
Theorem add_checks_accepts i s (s1 s2 : string) upd ty is_cmd local_request d dev :
  dinfo s !! i = Some d → pdevs s !! i = Some dev →
  add_checks i s1 s2 upd s = Some (s, inr (ty, is_cmd, local_request)) ↔
    accepted d dev s1 s2 upd ty is_cmd local_request.
Proof. apply add_checks_iff. Qed.

End Checks.

Section Add.
Context {Any Elt : Type}.
Context (indet : Z) (senv : SrvEnv) (self : Z) (alive : Z → bool) (t_now new_id : Z) (raw : PollThCmd).
Implicit Types s : SrvSt Any Elt.

Lemma reads_find_device nm o : reads (S := SrvSt Any Elt) (find_device senv nm o).
Proof. unfold find_device. reads_tac. Qed.

Lemma reads_add_checks i (s1 s2 : string) upd : reads (S := SrvSt Any Elt) (add_checks i s1 s2 upd).
Proof. unfold add_checks. reads_tac. Qed.

(** A polling thread that serves commands: it is not the caller, it answers, and its
    buffer is free. *)
Record serving (k : nat) s (t : PollingThreadInfo Any Elt) : Prop := {
  sv_at : poll_ths (pool s) !! k = Some t;
  sv_other : thread_id t ≠ self;
  sv_alive : alive (thread_id t) = true;
  sv_free : cmd_pending (shared_cmd (poll_th t)) = false;
  sv_ok : thread_ok (poll_th t);
}.

Definition with_thread (k : nat) (th : PollSt Any Elt) s : SrvSt Any Elt :=
  set_pool (upd_info (λ t, mkPTI (thread_id t) th (polled_devices t) (nb_polled_objects t) (smallest_upd t)) k (pool s)) s.

(** The thread when it executes command [c]. *)
Definition ready_thread (c : PollThCmd) s (t : PollingThreadInfo Any Elt) : PollSt Any Elt :=
  set_local_cmd c (set_shared c (set_now t_now (set_devs (pdevs s) (poll_th t)))).

Lemma send_cmd_ok k edit s t :
  serving k s t → let c := edit (shared_cmd (poll_th t)) in
  cmd_ok (ready_thread c s t) →
  ∃ th ty nm upd, send_cmd indet self alive t_now k edit false s = Some (with_thread k th s, inr true) ∧
    cmd_target (ready_thread c s t) ty nm upd ∧ thread_ok th ∧ cmd_pending (shared_cmd th) = false ∧
    bag_step (cmd_dev c) ty nm upd (polled (works (poll_th t))) (polled (ext_trig_works (poll_th t)))
      (cmd_code c) (polled (works th)) (polled (ext_trig_works th)).
Proof.
  intros [H1 H2 H3 H4 H5] c Hc.
  destruct (execute_cmd_ok indet (ready_thread c s t) H5 Hc) as (th & ty & nm & upd & He & Ht & Hok & Hp & Hb).
  exists th, ty, nm, upd. split; [|done]. unfold send_cmd.
  erewrite run_bind; [|unfold thread_at; erewrite run_bind by done; by rewrite H1].
  erewrite run_bind by done. rewrite (proj2 (Z.eqb_neq _ _)) by done. rewrite H4.
  erewrite run_bind by done. rewrite H3. unfold take_cmd. fold c.
  change (set_local_cmd c _) with (ready_thread c s t). rewrite He.
  erewrite run_bind by done. by erewrite run_bind by done.
Qed.

(** A device in the map of the pool, with a thread that serves commands. *)
Record mapped_thread (s0 : string) (k : nat) s (t : PollingThreadInfo Any Elt) : Prop := {
  mt_id : get_polling_thread_id_by_name s0 (pool s) ≠ 0;
  mt_info : get_polling_thread_info_by_id (get_polling_thread_id_by_name s0 (pool s)) (pool s) = Ok k;
  mt_serving : serving k s t;
}.

Lemma mapped_set_pdevs (s0 : string) k x s t : mapped_thread s0 k s t → mapped_thread s0 k (set_pdevs x s) t.
Proof. intros [? ? []]. split; [done..|by split]. Qed.

Lemma mapped_in_charge (s0 : string) k s t :
  mapped_thread s0 k s t → thread_in_charge senv new_id raw s0 s = Some (s, inr (k, -2)).
Proof.
  intros [H1 H2 _]. unfold thread_in_charge. erewrite run_bind by done.
  rewrite (proj2 (Z.eqb_neq _ _)) by done. erewrite run_bind by done. erewrite run_bind by done.
  rewrite H2. by erewrite run_bind by done.
Qed.

(** The thread adds the last object of the list of the device. *)
Lemma add_send (s0 : string) k i (dev : Device Any Elt) l o delta s t :
  mapped_thread s0 k s t → poll_obj_list dev = l ++ [o] → 0 <= po_upd o →
  let s1 := set_pdevs (<[i := dev]> (pdevs s)) s in
  ∃ th, send_cmd indet self alive t_now k (add_cmd i (Z.of_nat (length (l ++ [o])) - 1) delta) false s1
          = Some (with_thread k th s1, inr true) ∧
    thread_ok th ∧ cmd_pending (shared_cmd th) = false ∧
    bag_step (Some i) (po_type o) (po_name o) (po_upd o) (polled (works (poll_th t)))
      (polled (ext_trig_works (poll_th t))) POLL_ADD_OBJ (polled (works th)) (polled (ext_trig_works th)).
Proof.
  intros [_ _ Hsv] Hl Hu s1. assert (Hsv1 : serving k s1 t) by by destruct Hsv.
  set (edit := add_cmd i (Z.of_nat (length (l ++ [o])) - 1) delta).
  assert (Ho : cmd_poll_obj (ready_thread (edit (shared_cmd (poll_th t))) s1 t) = Ok o).
  { unfold cmd_poll_obj, dev_of. simpl. rewrite lookup_insert_eq. simpl. rewrite Hl.
    rewrite length_app, Nat2Z.inj_add. simpl length. replace (Z.of_nat (length l) + Z.of_nat 1 - 1) with (Z.of_nat (length l)) by lia.
    by apply vget_nat, list_lookup_middle. }
  destruct (send_cmd_ok k edit s1 t Hsv1) as (th & ty & nm & upd & He & (o' & Ho' & -> & -> & ->) & Hok & Hp & Hb).
  { by exists o. }
  rewrite Ho in Ho'. injection Ho' as <-. by exists th.
Qed.

(** Without waiting: the command stays in the buffer. *)
Lemma send_local k edit s t :
  serving k s t → ∃ th, send_cmd indet self alive t_now k edit true s = Some (with_thread k th s, inr true).
Proof.
  intros [H1 H2 H3 H4 _]. exists (set_shared (edit (shared_cmd (poll_th t))) (poll_th t)). unfold send_cmd.
  erewrite run_bind; [|unfold thread_at; erewrite run_bind by done; by rewrite H1].
  erewrite run_bind by done. rewrite (proj2 (Z.eqb_neq _ _)) by done. rewrite H4.
  erewrite run_bind by done. by erewrite run_bind by done.
Qed.

Lemma set_prop_no_exc l nm u e : set_prop l nm u ≠ Exc e.
Proof.
  assert (H : ∀ n l, (length l <= n)%nat → set_prop l nm u ≠ Exc e).
  { clear l. intros n. induction n as [|n IH]; intros [|x [|y l]] Hn; simpl in Hn |- *; try lia; try done;
      case_match; try done.
    destruct (set_prop l nm u) eqn:E; simpl; [done| |done]. intros [= ->]. by apply (IH l); [lia|]. }
  by apply (H (length l)).
Qed.

Lemma no_throw_add_props i ty nm upd with_db_upd :
  no_throw (S := SrvSt Any Elt) (add_props senv i ty nm upd with_db_upd).
Proof.
  unfold add_props. apply no_throw_bind; [apply no_throw_dev_info|]. intros d. cbv zeta.
  apply no_throw_bind.
  { case_match; [apply no_throw_ret|]. apply no_throw_lift, set_prop_no_exc. }
  intros objs. apply no_throw_bind; [apply no_throw_modify|]. intros _.
  apply no_throw_when, no_throw_modify.
Qed.

(** when the device has a polling thread that serves commands, a request refused
    by [add_obj_polling] leaves no trace: not in the list of polled objects, not in
    the polling thread, not in the properties, not in the pool. *)
Theorem add_obj_polling_atomic s s' svalue lvalue with_db_upd delta e :
  (∀ s0 s1 s2 : string, svalue = [s0; s1; s2] → ∃ k t, mapped_thread s0 k s t) →
  add_obj_polling indet senv self alive t_now new_id raw svalue lvalue with_db_upd delta s = Some (s', inl e) →
  s' = s.
Proof.
  intros Hm. destruct svalue as [|s0 [|s1 [|s2 [|]]]]; try (by intros [= ->]).
  destruct lvalue as [|upd [|]]; try (by intros [= ->]).
  destruct (Hm s0 s1 s2 eq_refl) as (k & t & Ht). clear Hm. unfold add_obj_polling.
  revert s' e. match goal with |- ∀ s' e, ?m s = _ → _ => change (keeps s m) end.
  apply keeps_reads; [apply reads_find_device|]. intros i _.
  apply keeps_reads; [apply reads_lift|]. intros _ _.
  apply keeps_reads; [apply reads_add_checks|]. intros [[ty is_cmd] lr] Hck.
  apply keeps_reads; [apply reads_dev_info|]. intros d Hd.
  apply keeps_reads; [apply reads_lift|]. intros depth _.
  apply keeps_reads; [apply reads_device|]. intros dev Hdev. cbv zeta.
  apply never_keeps. eapply never_run; [reflexivity|].
  eapply never_run; [by eapply mapped_in_charge, mapped_set_pdevs|]. cbv iota beta.
  apply run_dev_info_inv in Hd. apply run_device_inv in Hdev.
  apply (add_checks_iff _ _ _ _ _ _ _ _ d dev) in Hck; [|done..].
  assert (Hu : 0 <= milliseconds upd).
  { destruct Hck as (? & _ & _ & _ & _ & [->|[Hu _]]); unfold milliseconds, MIN_POLL_PERIOD in *; lia. }
  set (o := PollObj_depth (poll_old_factor dev) ty (tolower s2) (milliseconds upd) depth).
  assert (∃ th, send_cmd indet self alive t_now k (add_cmd i (Z.of_nat (length (poll_obj_list dev ++ [o])) - 1)
            (milliseconds delta)) lr (set_pdevs (<[i := with_poll_list dev (poll_obj_list dev ++ [o])]> (pdevs s)) s)
          = Some (with_thread k th (set_pdevs (<[i := with_poll_list dev (poll_obj_list dev ++ [o])]> (pdevs s)) s), inr true))
    as [th Hth].
  { destruct lr.
    - destruct Ht as [_ _ Hsv]. apply (send_local k _ _ t). by destruct Hsv.
    - destruct (add_send s0 k i (with_poll_list dev (poll_obj_list dev ++ [o])) (poll_obj_list dev) o (milliseconds delta) s t)
        as (th & H & _); [done..|]. by exists th. }
  eapply never_run; [exact Hth|]. apply no_throw_never. unfold add_to_conf. cbn [when_ negb Z.eqb Pos.eqb].
  repeat (apply no_throw_bind; [first [apply no_throw_ret|apply no_throw_modify|apply no_throw_add_props|apply no_throw_dev_info]|intros ?]).
  apply no_throw_modify.
Qed.

(** The properties after the request: the names not polled automatically, and the
    polled names with their periods. *)
Definition non_auto_after (d : DevPoll) (ty : PollObjType) (nm : string) : list string :=
  List.filter (λ x, negb (same_name x nm)) (non_auto ty d).
Definition polled_after (d : DevPoll) (ty : PollObjType) (nm : string) (upd : Z) : outcome (list string) :=
  if bool_decide (length (non_auto_after d ty nm) = length (non_auto ty d))
  then set_prop (polled_objs ty d) nm (pretty upd) else Ok (polled_objs ty d).
Definition ring_depth_of (d : DevPoll) (nm : string) (is_cmd : bool) : outcome Z :=
  if is_cmd then get_cmd_poll_ring_depth d nm else get_attr_poll_ring_depth d nm.

(** The request that the theorems below suppose: it names a device in charge of a
    polling thread, and it is accepted. *)
Record add_request (s0 s1 s2 : string) (upd : Z) (i k : nat) s (t : PollingThreadInfo Any Elt) (d : DevPoll)
    (dev : Device Any Elt) (ty : PollObjType) (is_cmd : bool) (depth : Z) (objs : list string) : Prop := {
  ar_dev : get_device_by_name senv s0 = inr i;
  ar_lock : check_lock_owner senv i "add_obj_polling" = Ok tt;
  ar_info : dinfo s !! i = Some d;
  ar_pdev : pdevs s !! i = Some dev;
  ar_thread : mapped_thread s0 k s t;
  ar_ok : accepted d dev s1 s2 upd ty is_cmd false;
  ar_depth : ring_depth_of d (tolower s2) is_cmd = Ok depth;
  ar_objs : polled_after d ty (tolower s2) upd = Ok objs;
}.

(** What a command to thread [k] leaves: the other threads, the configuration and
    the map are the same, and the thread has executed its command. *)
Record thread_did (k : nat) (t : PollingThreadInfo Any Elt) (more : Z) (d : dev_ptr) (ty : PollObjType)
    (nm : string) (upd : Z) (code : PollCmdCode) s s' (th : PollSt Any Elt) : Prop := {
  td_ths : poll_ths (pool s') = <[k := mkPTI (thread_id t) th (polled_devices t) (nb_polled_objects t + more)
                                        (smallest_upd t)]> (poll_ths (pool s));
  td_conf : poll_pool_conf (pool s') = poll_pool_conf (pool s);
  td_map : dev_poll_th_map (pool s') = dev_poll_th_map (pool s);
  td_ok : thread_ok th;
  td_free : cmd_pending (shared_cmd th) = false;
  td_bag : bag_step d ty nm upd (polled (works (poll_th t))) (polled (ext_trig_works (poll_th t)))
             code (polled (works th)) (polled (ext_trig_works th));
}.

Lemma alter_is_insert {A} (f : A → A) (k : nat) (l : list A) x : l !! k = Some x → alter f k l = <[k := f x]> l.
Proof.
  intros H. apply list_eq. intros j. destruct (decide (k = j)) as [<-|Hn].
  - rewrite list_lookup_alter_eq, H, list_lookup_insert_eq; [done|]. by eapply lookup_lt_Some.
  - by rewrite list_lookup_alter_ne, list_lookup_insert_ne.
Qed.

Lemma run_find_device (s0 o : string) i s :
  get_device_by_name senv s0 = inr i → find_device senv s0 o s = Some (s, inr i).
Proof. intros H. unfold find_device. by rewrite H. Qed.

Lemma run_add_props i ty nm upd with_db_upd s d objs :
  dinfo s !! i = Some d → polled_after d ty nm upd = Ok objs →
  ∃ ws, add_props senv i ty nm upd with_db_upd s =
    Some (mkSrv (pool s) (pdevs s) (<[i := with_lists ty objs (non_auto_after d ty nm) d]> (dinfo s)) ws
            (poll_status s), inr tt).
Proof.
  intros Hd Ho. unfold add_props. erewrite run_bind by by apply run_dev_info. cbv zeta.
  fold (non_auto_after d ty nm). unfold polled_after in Ho.
  assert (∃ b, (length (non_auto_after d ty nm) =? length (non_auto ty d))%nat = b) as [b Hb] by eauto.
  rewrite Hb. rewrite (bool_decide_ext _ (b = true)) in Ho by (rewrite <- Hb; symmetry; apply Nat.eqb_eq).
  destruct b; cbn in Ho |- *.
  - erewrite run_bind by by apply run_ok. erewrite run_bind by done. destruct (with_db_upd && use_db senv); by eexists.
  - injection Ho as <-. erewrite run_bind by done. erewrite run_bind by done.
    destruct (with_db_upd && use_db senv); by eexists.
Qed.

Lemma add_run (s0 s1 s2 : string) upd with_db_upd delta i k s t d dev ty is_cmd depth objs :
  add_request s0 s1 s2 upd i k s t d dev ty is_cmd depth objs →
  let nm := tolower s2 in
  ∃ s' th,
    add_obj_polling indet senv self alive t_now new_id raw [s0; s1; s2] [upd] with_db_upd delta s = Some (s', inr tt) ∧
    pdevs s' = <[i := with_poll_list dev (poll_obj_list dev ++
                       [PollObj_depth (poll_old_factor dev) ty nm (milliseconds upd) depth])]> (pdevs s) ∧
    dinfo s' = <[i := with_polled true (with_lists ty objs (non_auto_after d ty nm) d)]> (dinfo s) ∧
    thread_did k t 1 (Some i) ty nm (milliseconds upd) POLL_ADD_OBJ s s' th.
Proof.
  intros [H1 H2 H3 H4 H5 H6 H7 H8] nm.
  assert (Hu : 0 <= milliseconds upd).
  { destruct H6 as (? & _ & _ & _ & _ & [->|[Hu _]]); unfold milliseconds, MIN_POLL_PERIOD in *; lia. }
  set (o := PollObj_depth (poll_old_factor dev) ty nm (milliseconds upd) depth).
  set (dev' := with_poll_list dev (poll_obj_list dev ++ [o])).
  destruct (add_send s0 k i dev' (poll_obj_list dev) o (milliseconds delta) s t H5) as (th & Hth & Hok & Hp & Hb); [done..|].
  pose proof (proj2 (add_checks_iff i s s1 s2 upd ty is_cmd false d dev H3 H4) H6) as Hck.
  unfold add_obj_polling.
  erewrite run_bind by by apply run_find_device. erewrite run_bind by by apply run_ok.
  erewrite run_bind by exact Hck. cbv iota beta zeta.
  erewrite run_bind by by apply run_dev_info. erewrite run_bind by by apply run_ok.
  erewrite run_bind by by apply run_device. erewrite run_bind by done.
  erewrite run_bind by by eapply mapped_in_charge, mapped_set_pdevs. cbv iota beta.
  erewrite run_bind by exact Hth. erewrite run_bind by done. erewrite run_bind by done.
  unfold add_props, add_to_conf. cbn [when_ negb Z.eqb Pos.eqb].
  destruct (run_add_props i ty nm upd with_db_upd (set_pool (upd_info (λ t, mkPTI (thread_id t) (poll_th t)
    (polled_devices t) (nb_polled_objects t + 1) (smallest_upd t)) k
    (pool (with_thread k th (set_pdevs (<[i := dev']> (pdevs s)) s))))
    (with_thread k th (set_pdevs (<[i := dev']> (pdevs s)) s))) d objs H3 H8) as [ws Hws].
  eexists _, th. split; [|split; [|split]].
  { erewrite run_bind by exact Hws. erewrite run_bind by done. erewrite run_bind by done.
    erewrite run_bind by by apply run_dev_info, lookup_insert_eq. reflexivity. }
  - done.
  - simpl. by rewrite insert_insert_eq.
  - destruct H5 as [_ _ [Hat _ _ _ _]]. split; simpl; try done.
    erewrite alter_is_insert; [|rewrite list_lookup_alter_eq, Hat; done].
    erewrite alter_is_insert by done. by rewrite list_insert_insert_eq.
Qed.

(** The request to stop the polling of an object, when other objects of the device
    stay polled. *)
Record rem_request (s0 s1 s2 : string) (i k : nat) s (t : PollingThreadInfo Any Elt) (d : DevPoll)
    (dev : Device Any Elt) (ty : PollObjType) (ite : nat) (o : PollObj Any Elt) (objs : list string) : Prop := {
  rr_dev : get_device_by_name senv s0 = inr i;
  rr_lock : check_lock_owner senv i "rem_obj_polling" = Ok tt;
  rr_up : svr_shutting_down senv = false;
  rr_info : dinfo s !! i = Some d;
  rr_polled : dp_is_polled d = true;
  rr_pdev : pdevs s !! i = Some dev;
  rr_thread : mapped_thread s0 k s t;
  rr_type : upd_type "DServer::rem_obj_polling" s1 (tolower s2) s = Some (s, inr (ty, false));
  rr_index : get_polled_obj_by_type_name dev ty (tolower s2) = Ok ite;
  rr_obj : poll_obj_list dev !! ite = Some o;
  rr_others : delete ite (poll_obj_list dev) ≠ [];
  rr_attr : ty = POLL_ATTR → is_Some (find_attr (tolower s2) (attr_list d));
  rr_objs : rem_prop (polled_objs ty d) (tolower s2) = Ok (Some objs);
}.

Definition rem_code (o : PollObj Any Elt) : PollCmdCode :=
  if po_upd o =? 0 then POLL_REM_EXT_TRIG_OBJ else POLL_REM_OBJ.

Lemma rem_send (s0 : string) k i (nm : string) ty (o : PollObj Any Elt) s t :
  mapped_thread s0 k s t →
  ∃ th upd, send_cmd indet self alive t_now k (rem_cmd (rem_code o) i nm ty None) false s
          = Some (with_thread k th s, inr true) ∧
    thread_ok th ∧ cmd_pending (shared_cmd th) = false ∧
    bag_step (Some i) ty nm upd (polled (works (poll_th t)))
      (polled (ext_trig_works (poll_th t))) (rem_code o) (polled (works th)) (polled (ext_trig_works th)).
Proof.
  intros [_ _ Hsv]. set (edit := rem_cmd (rem_code o) i nm ty None).
  destruct (send_cmd_ok k edit s t Hsv) as (th & ty' & nm' & upd & He & Ht & Hok & Hp & Hb).
  { unfold cmd_ok, edit. simpl. unfold rem_code. by destruct (po_upd o =? 0). }
  exists th, upd. split; [done|]. split; [done|]. split; [done|].
  assert (ty' = ty ∧ nm' = nm) as [-> ->]; [|done].
  unfold cmd_target, edit in Ht. simpl in Ht. unfold rem_code in Ht. destruct (po_upd o =? 0); naive_solver.
Qed.

(** The messages to the subscribers only write. *)
Lemma run_attr_part i (nm s2 : string) s d :
  dinfo s !! i = Some d → is_Some (find_attr s2 (attr_list d)) →
  ∃ ws, (a ← get_attr_by_name i s2; error_events i a nm) s =
    Some (mkSrv (pool s) (pdevs s) (dinfo s) ws (poll_status s), inr tt).
Proof.
  intros Hd [a Ha].
  erewrite run_bind by (apply (run_get_attr _ _ _ _ a d); done).
  unfold error_events. destruct s as [p ds di w ps].
  destruct (at_periodic a), (at_archive a), (at_change a), (at_alarm a); by eexists.
Qed.

Lemma find_attr_tolower (nm : string) l : find_attr (tolower nm) l = find_attr nm l.
Proof. unfold find_attr. by rewrite tolower_idemp. Qed.

Lemma run_rem_props i ty nm with_db_upd s d objs :
  dinfo s !! i = Some d → rem_prop (polled_objs ty d) nm = Ok (Some objs) →
  ∃ ws, rem_props senv i ty nm with_db_upd s =
    Some (mkSrv (pool s) (pdevs s) (<[i := with_lists ty objs (non_auto ty d) d]> (dinfo s)) ws (poll_status s), inr tt).
Proof.
  intros Hd Ho. unfold rem_props. erewrite run_bind by by apply run_dev_info. rewrite Ho.
  erewrite run_bind by by apply run_ok. cbv iota. erewrite run_bind by done.
  destruct (with_db_upd && use_db senv); by eexists.
Qed.

Lemma run_polled_obj_index i ty nm s dev ite :
  pdevs s !! i = Some dev → get_polled_obj_by_type_name dev ty nm = Ok ite →
  polled_obj_index i ty nm s = Some (s, inr ite).
Proof. intros Hd Hi. unfold polled_obj_index. erewrite run_bind by by apply run_device. by rewrite Hi. Qed.

Lemma find_thread_id id (l : list (PollingThreadInfo Any Elt)) k t :
  find_thread id l = Some k → l !! k = Some t → thread_id t = id.
Proof.
  revert k. induction l as [|x l IH]; intros k H; simpl in H; [done|]. destruct (Z.eqb_spec (thread_id x) id) as [He|_].
  - injection H as <-. simpl. by intros [= <-].
  - destruct (find_thread id l) as [j|]; [|done]. injection H as <-. by apply IH.
Qed.

Lemma mapped_id (s0 : string) k s t : mapped_thread s0 k s t → thread_id t = get_polling_thread_id_by_name s0 (pool s).
Proof.
  intros [_ Hi [Hk _ _ _ _]]. unfold get_polling_thread_info_by_id in Hi.
  destruct (find_thread _ _) as [j|] eqn:E; [|done]. injection Hi as ->. by eapply find_thread_id.
Qed.

(** The writes of a computation that changes nothing else. *)
Definition only_writes (m : SM (SrvSt Any Elt) ()) s : Prop :=
  ∃ ws, m s = Some (mkSrv (pool s) (pdevs s) (dinfo s) ws (poll_status s), inr tt).

Lemma attr_writes i (nm s2 : string) ty s d :
  dinfo s !! i = Some d → (ty = POLL_ATTR → is_Some (find_attr s2 (attr_list d))) →
  only_writes (when_ (bool_decide (ty = POLL_ATTR)) (a ← get_attr_by_name i s2; error_events i a nm)) s ∧
  only_writes (when_ (bool_decide (ty = POLL_ATTR)) (_ ← get_attr_by_name i s2; write (SetPollingPeriod i nm 0))) s.
Proof.
  intros Hd Ha. unfold only_writes. case_bool_decide as Hty; [|destruct s; split; by eexists].
  specialize (Ha Hty). split; [by eapply run_attr_part|]. destruct Ha as [a Ha]. eexists. unfold when_.
  by erewrite run_bind by (apply (run_get_attr _ _ _ _ a d); done).
Qed.

Lemma rem_run (s0 s1 s2 : string) with_db_upd i k s t d dev ty ite o objs :
  rem_request s0 s1 s2 i k s t d dev ty ite o objs →
  ∃ s' th upd,
    rem_obj_polling indet senv self alive t_now [s0; s1; s2] with_db_upd s = Some (s', inr tt) ∧
    pdevs s' = <[i := with_poll_list dev (delete ite (poll_obj_list dev))]> (pdevs s) ∧
    dinfo s' = <[i := with_lists ty objs (non_auto ty d) d]> (dinfo s) ∧
    thread_did k t 0 (Some i) ty (tolower s2) upd (rem_code o) s s' th.
Proof.
  intros [H1 H2 H3 H4 H5 H6 H7 H8 H9 H10 H11 H12 H13].
  destruct (rem_send s0 k i (tolower s2) ty o s t H7) as (th & upd & Hth & Hok & Hp & Hb).
  unfold rem_obj_polling.
  erewrite run_bind by by apply run_find_device. erewrite run_bind by by apply run_dev_info.
  rewrite H5. erewrite run_bind by done. erewrite run_bind by by apply run_ok.
  erewrite run_bind by exact H8. cbv iota beta zeta.
  erewrite run_bind by by eapply run_polled_obj_index. erewrite run_bind by by apply run_device.
  rewrite H10. erewrite run_bind by done. erewrite run_bind by done.
  rewrite H3. cbn [negb when_]. cbv iota.
  pose proof (mapped_id _ _ _ _ H7) as Hid. destruct H7 as [Hne Hinfo [Hat Hself _ _ _]].
  rewrite Hid in Hself. rewrite (proj2 (Z.eqb_neq _ _) (not_eq_sym Hself)), (proj2 (Z.eqb_neq _ _) Hne).
  erewrite run_bind. 2: { erewrite run_bind by done. rewrite Hinfo. erewrite run_bind by done.
    fold (rem_code o). erewrite run_bind by exact Hth. reflexivity. }
  erewrite run_bind by done. rewrite (bool_decide_eq_false_2 _ H11).
  match goal with |- context [set_pdevs ?x ?y] => set (sA := set_pdevs x y) end.
  destruct (attr_writes i (tolower s2) (tolower s2) ty sA d H4 H12) as [_ [w1 Hw1]].
  erewrite run_bind by exact Hw1. erewrite run_bind by done.
  destruct (run_rem_props i ty (tolower s2) with_db_upd (mkSrv (pool sA) (pdevs sA) (dinfo sA) w1 (poll_status sA))
    d objs H4 H13) as [w2 Hw2].
  erewrite run_bind by exact Hw2. erewrite run_bind by done.
  match goal with |- context [when_ _ _ ≫= _] => idtac end.
  match goal with |- context [(when_ (bool_decide (ty = POLL_ATTR)) _ ≫= _) ?x] => set (sB := x) end.
  destruct (attr_writes i (tolower s2) s2 ty sB (with_lists ty objs (non_auto ty d) d)) as [[w3 Hw3] _].
  { simpl. by rewrite lookup_insert_eq. }
  { intros Hty. rewrite <- find_attr_tolower. by apply H12. }
  eexists _, th, upd. split.
  { erewrite run_bind by exact Hw3. rewrite !andb_false_r. reflexivity. }
  split; [done|]. split; [done|]. split; simpl; try done.
  rewrite Z.add_0_r. by erewrite alter_is_insert by done.
Qed.

(** ** The two commands in sequence *)

(** A polling property: names and periods. *)
Definition flat (kvs : list (string * string)) : list string := concat ((λ kv, [kv.1; kv.2]) <$> kvs).

Lemma set_prop_new kvs (nm u : string) :
  Forall (λ kv, same_name kv.1 nm = false) kvs → set_prop (flat kvs) nm u = Ok (flat kvs ++ [nm; u]).
Proof.
  induction 1 as [|[k v] kvs Hk H IH]; [done|]. simpl in Hk. unfold flat. csimpl. rewrite Hk.
  unfold flat in IH. by rewrite IH.
Qed.

Lemma rem_prop_new kvs (nm u : string) :
  Forall (λ kv, same_name kv.1 nm = false) kvs → rem_prop (flat kvs ++ [nm; u]) nm = Ok (Some (flat kvs)).
Proof.
  induction 1 as [|[k v] kvs Hk H IH].
  - simpl. unfold same_name. by rewrite bool_decide_eq_true_2.
  - simpl in Hk. unfold flat in *. csimpl. rewrite Hk. by rewrite IH.
Qed.

Lemma non_auto_same d ty (nm : string) :
  Forall (λ x, same_name x nm = false) (non_auto ty d) → non_auto_after d ty nm = non_auto ty d.
Proof.
  unfold non_auto_after. induction 1 as [|x l Hx H IH]; [done|]. simpl. rewrite Hx. simpl. by rewrite IH.
Qed.

Lemma find_thread_insert id (l : list (PollingThreadInfo Any Elt)) k t t' :
  l !! k = Some t → thread_id t' = thread_id t → find_thread id (<[k := t']> l) = find_thread id l.
Proof.
  revert k. induction l as [|x l IH]; intros [|k] H Hid; simpl in *; [done..| |].
  - injection H as ->. by rewrite Hid.
  - by rewrite IH.
Qed.

Lemma find_polled_obj_last ty (nm : string) (l : list (PollObj Any Elt)) o :
  already_polled ty (tolower nm) l = false → po_type o = ty → po_name o = tolower nm →
  find_polled_obj ty (tolower nm) (l ++ [o]) = Some (length l).
Proof.
  intros Ha Ht Hn. induction l as [|x l IH]; simpl in *.
  - by rewrite !bool_decide_eq_true_2.
  - apply orb_false_iff in Ha as [Hx Ha]. rewrite IH by done.
    destruct (bool_decide (po_type x = ty)) eqn:E1; [|done]. simpl in Hx |- *.
    rewrite bool_decide_eq_false_2; [done|]. intros E. apply bool_decide_eq_false in Hx. destruct Hx.
    by rewrite E, tolower_idemp.
Qed.

(** [upd_type] gives the type under which the object was added, for a release of the
    device from 3 on or an object that is neither the state nor the status. *)
Lemma type_round_trip d (dev : Device Any Elt) (s1 s2 : string) upd ty is_cmd o s :
  accepted d dev s1 s2 upd ty is_cmd false →
  3 <= dev_idl_version dev ∨ tolower s2 ≠ "state" ∧ tolower s2 ≠ "status" →
  upd_type o s1 (tolower s2) s = Some (s, inr (ty, false)).
Proof.
  intros (ot & Hp & Hk & -> & _) Hv. unfold upd_type. rewrite Hp. erewrite run_bind by by apply run_ok.
  cbv iota beta. unfold type_of. destruct is_cmd; destruct Hk as [-> _].
  - rewrite bool_decide_eq_true_2 by done. destruct Hv as [Hv|[Hv1 Hv2]].
    + rewrite (proj2 (Z.leb_le _ _)) by done. simpl. by destruct (_ || _).
    + rewrite (bool_decide_eq_false_2 _ Hv1), (bool_decide_eq_false_2 _ Hv2). by rewrite andb_false_r.
  - done.
Qed.

(** an accepted request of [add_obj_polling] ends normally: the object is the last
    of the poll list of the device, with its period and the depth of its ring; the
    polling thread in charge of the device has added exactly this object to what it
    polls, periodically or on a trigger according to the period, and is free again;
    the properties of the device name the object; the device is marked as polled; the
    pool configuration and the other devices and threads are as before. *)
Theorem add_obj_polling_ok (s0 s1 s2 : string) upd with_db_upd delta i k s t d dev ty is_cmd depth objs :
  add_request s0 s1 s2 upd i k s t d dev ty is_cmd depth objs →
  let nm := tolower s2 in
  ∃ s' th,
    add_obj_polling indet senv self alive t_now new_id raw [s0; s1; s2] [upd] with_db_upd delta s = Some (s', inr tt) ∧
    pdevs s' = <[i := with_poll_list dev (poll_obj_list dev ++
                       [PollObj_depth (poll_old_factor dev) ty nm (milliseconds upd) depth])]> (pdevs s) ∧
    dinfo s' = <[i := with_polled true (with_lists ty objs (non_auto_after d ty nm) d)]> (dinfo s) ∧
    thread_did k t 1 (Some i) ty nm (milliseconds upd) POLL_ADD_OBJ s s' th.
Proof. apply add_run. Qed.

(** stopping the polling of an object of a device that stays polled: the object
    leaves the poll list of the device and the polling property, the polling thread
    removes it from the periodic or the triggered objects, according to its period,
    and nothing else changes. *)
Theorem rem_obj_polling_ok (s0 s1 s2 : string) with_db_upd i k s t d dev ty ite o objs :
  rem_request s0 s1 s2 i k s t d dev ty ite o objs →
  ∃ s' th upd,
    rem_obj_polling indet senv self alive t_now [s0; s1; s2] with_db_upd s = Some (s', inr tt) ∧
    pdevs s' = <[i := with_poll_list dev (delete ite (poll_obj_list dev))]> (pdevs s) ∧
    dinfo s' = <[i := with_lists ty objs (non_auto ty d) d]> (dinfo s) ∧
    thread_did k t 0 (Some i) ty (tolower s2) upd (rem_code o) s s' th.
Proof. apply rem_run. Qed.

(** What the round trip supposes beyond the acceptance of the request. *)
Record fresh_object (s1 s2 : string) (i : nat) (t : PollingThreadInfo Any Elt) (d : DevPoll)
    (dev : Device Any Elt) (ty : PollObjType) (kvs : list (string * string)) : Prop := {
  fo_polled : dp_is_polled d = true;
  fo_others : poll_obj_list dev ≠ [];
  fo_release : 3 <= dev_idl_version dev ∨ tolower s2 ≠ "state" ∧ tolower s2 ≠ "status";
  fo_attr : ty = POLL_ATTR → is_Some (find_attr s2 (attr_list d));
  fo_props : polled_objs ty d = flat kvs;
  fo_not_named : Forall (λ kv, same_name kv.1 (tolower s2) = false) kvs;
  fo_auto : Forall (λ x, same_name x (tolower s2) = false) (non_auto ty d);
  fo_new : ∀ old, (Some i, ty, tolower s2, old) ∉ polled (works (poll_th t)) ∧
                  (Some i, ty, tolower s2, old) ∉ polled (ext_trig_works (poll_th t));
}.

Lemma bag_add_inv d ty nm upd W E W1 E1 :
  bag_step d ty nm upd W E POLL_ADD_OBJ W1 E1 →
  (0 < upd ∧ W1 ≡ₚ (d, ty, nm, upd) :: W ∧ E1 = E) ∨ (upd = 0 ∧ E1 ≡ₚ (d, ty, nm, upd) :: E ∧ W1 = W).
Proof. inversion 1; subst; auto. Qed.
Lemma bag_rem_inv d ty nm upd W E W1 E1 :
  bag_step d ty nm upd W E POLL_REM_OBJ W1 E1 →
  E1 = E ∧ ((∃ old, W ≡ₚ (d, ty, nm, old) :: W1) ∨ (∀ old, (d, ty, nm, old) ∉ W) ∧ W1 = W).
Proof. inversion 1; subst; eauto. Qed.
Lemma bag_rem_ext_inv d ty nm upd W E W1 E1 :
  bag_step d ty nm upd W E POLL_REM_EXT_TRIG_OBJ W1 E1 →
  W1 = W ∧ ((∃ old, E ≡ₚ (d, ty, nm, old) :: E1) ∨ (∀ old, (d, ty, nm, old) ∉ E) ∧ E1 = E).
Proof. inversion 1; subst; eauto. Qed.

(** Adding then removing the same object on the thread. *)
Lemma bag_round_trip d ty (nm : string) upd upd' W E W1 E1 code W2 E2 :
  bag_step d ty nm upd W E POLL_ADD_OBJ W1 E1 →
  code = (if upd =? 0 then POLL_REM_EXT_TRIG_OBJ else POLL_REM_OBJ) →
  bag_step d ty nm upd' W1 E1 code W2 E2 →
  (∀ old, (d, ty, nm, old) ∉ W ∧ (d, ty, nm, old) ∉ E) →
  W2 ≡ₚ W ∧ E2 ≡ₚ E.
Proof.
  assert (Hone : ∀ (l l1 l2 : list entry) old, l1 ≡ₚ (d, ty, nm, upd) :: l → l1 ≡ₚ (d, ty, nm, old) :: l2 →
    (∀ old, (d, ty, nm, old) ∉ l) → l2 ≡ₚ l).
  { intros l l1 l2 old H1 H2 Hn. rewrite H1 in H2. destruct (decide (old = upd)) as [->|Hne].
    - by apply Permutation_cons_inv in H2.
    - assert ((d, ty, nm, old) ∈ (d, ty, nm, upd) :: l) as [[= ->]|H]%elem_of_cons; [|done|by destruct (Hn old)].
      rewrite H2. by left. }
  intros [(Hu & HW & ->)|(-> & HE & ->)]%bag_add_inv -> Hr Hn.
  - rewrite (proj2 (Z.eqb_neq _ _)) in Hr by lia. apply bag_rem_inv in Hr as [-> [[old HR]|[HR ->]]].
    + split; [|done]. eapply Hone; [done..|]. intros x. apply Hn.
    + destruct (HR upd). rewrite HW. by left.
  - apply bag_rem_ext_inv in Hr as [-> [[old HR]|[HR ->]]].
    + split; [done|]. eapply Hone; [done..|]. intros x. apply Hn.
    + destruct (HR 0). rewrite HE. by left.
Qed.

Lemma mapped_after (s0 : string) k more c s s' t d ty nm upd th :
  mapped_thread s0 k s t → thread_did k t more d ty nm upd c s s' th →
  mapped_thread s0 k s' (mkPTI (thread_id t) th (polled_devices t) (nb_polled_objects t + more) (smallest_upd t)).
Proof.
  intros [H1 H2 [H3 H4 H5 H6 H7]] [T1 T2 T3 T4 T5 T6].
  assert (Hn : get_polling_thread_id_by_name s0 (pool s') = get_polling_thread_id_by_name s0 (pool s))
    by (unfold get_polling_thread_id_by_name; by rewrite T3).
  split; rewrite ?Hn; [done| |].
  - unfold get_polling_thread_info_by_id in *. rewrite T1. by erewrite find_thread_insert by done.
  - split; try done. rewrite T1. apply list_lookup_insert_eq. by eapply lookup_lt_Some.
Qed.

(** The request of the removal, after the addition. *)
Lemma rem_after_add (s0 s1 s2 : string) upd i k s s' t d dev ty is_cmd depth objs kvs th :
  add_request s0 s1 s2 upd i k s t d dev ty is_cmd depth objs →
  fresh_object s1 s2 i t d dev ty kvs →
  check_lock_owner senv i "rem_obj_polling" = Ok tt → svr_shutting_down senv = false →
  let nm := tolower s2 in
  let o := PollObj_depth (poll_old_factor dev) ty nm (milliseconds upd) depth in
  pdevs s' = <[i := with_poll_list dev (poll_obj_list dev ++ [o])]> (pdevs s) →
  dinfo s' = <[i := with_polled true (with_lists ty objs (non_auto_after d ty nm) d)]> (dinfo s) →
  thread_did k t 1 (Some i) ty nm (milliseconds upd) POLL_ADD_OBJ s s' th →
  rem_request s0 s1 s2 i k s'
    (mkPTI (thread_id t) th (polled_devices t) (nb_polled_objects t + 1) (smallest_upd t))
    (with_polled true (with_lists ty (flat kvs ++ [nm; pretty upd]) (non_auto ty d) d))
    (with_poll_list dev (poll_obj_list dev ++ [o])) ty (length (poll_obj_list dev)) o (flat kvs).
Proof.
  intros [A1 A2 A3 A4 A5 A6 A7 A8] [F1 F2 F3 F4 F5 F6 F7 F8] Hl Hd nm o Hp Hi Ht.
  rewrite (non_auto_same d ty nm F7) in Hi. unfold polled_after in A8.
  rewrite (non_auto_same d ty _ F7), bool_decide_eq_true_2, F5, set_prop_new in A8 by done.
  injection A8 as <-. split; try done.
  - by rewrite Hi, lookup_insert_eq.
  - by rewrite Hp, lookup_insert_eq.
  - by eapply mapped_after.
  - by eapply type_round_trip.
  - unfold get_polled_obj_by_type_name. simpl. destruct A6 as (_ & _ & _ & _ & Ha & _).
    by rewrite (find_polled_obj_last ty s2 _ o Ha).
  - simpl. by apply list_lookup_middle.
  - simpl. rewrite delete_middle, app_nil_r. done.
  - intros Hty. simpl. rewrite find_attr_tolower. by apply F4.
  - destruct ty; simpl; by apply rem_prop_new.
Qed.

(** C33: [rem_obj_polling] undoes [add_obj_polling]: after both, the poll list of every device,
    the properties and the flag of the device, the pool configuration and the map of the devices
    are what they were, and the polling thread polls the same objects with the same periods,
    whether the object was polled periodically or on a trigger. Only the count of polled objects
    of the thread keeps the trace: no code decrements it. The device polls other objects and
    keeps its thread, so neither request changes the pool; the object is new: it is polled by no
    thread and named in no property list of the device; and the device is of IDL 3 or later, or
    the object is neither State nor Status (see [state_stays_polled]). *)
Theorem add_rem_round_trip (s0 s1 s2 : string) upd with_db_upd delta i k s t d dev ty is_cmd depth objs kvs :
  add_request s0 s1 s2 upd i k s t d dev ty is_cmd depth objs →
  fresh_object s1 s2 i t d dev ty kvs →
  check_lock_owner senv i "rem_obj_polling" = Ok tt → svr_shutting_down senv = false →
  ∃ s' s'' th,
    add_obj_polling indet senv self alive t_now new_id raw [s0; s1; s2] [upd] with_db_upd delta s = Some (s', inr tt) ∧
    rem_obj_polling indet senv self alive t_now [s0; s1; s2] with_db_upd s' = Some (s'', inr tt) ∧
    pdevs s'' = pdevs s ∧ dinfo s'' = dinfo s ∧
    poll_pool_conf (pool s'') = poll_pool_conf (pool s) ∧ dev_poll_th_map (pool s'') = dev_poll_th_map (pool s) ∧
    poll_ths (pool s'') = <[k := mkPTI (thread_id t) th (polled_devices t) (nb_polled_objects t + 1)
                                   (smallest_upd t)]> (poll_ths (pool s)) ∧
    thread_ok th ∧
    polled (works th) ≡ₚ polled (works (poll_th t)) ∧
    polled (ext_trig_works th) ≡ₚ polled (ext_trig_works (poll_th t)).
Proof.
  intros Ha Hf Hl Hd.
  destruct (add_run s0 s1 s2 upd with_db_upd delta i k s t d dev ty is_cmd depth objs Ha)
    as (s' & th & Hr & Hp & Hi & Ht).
  pose proof (rem_after_add s0 s1 s2 upd i k s s' t d dev ty is_cmd depth objs kvs th Ha Hf Hl Hd Hp Hi Ht) as Hq.
  destruct (rem_run s0 s1 s2 with_db_upd i k s' _ _ _ ty _ _ _ Hq) as (s'' & th' & upd' & Hr' & Hp' & Hi' & Ht').
  destruct Ha as [_ _ A3 A4 _ _ _ _], Hf as [F1 _ _ _ F5 _ F7 F8].
  destruct Ht as [T1 T2 T3 _ _ T6], Ht' as [T1' T2' T3' T4' _ T6'].
  exists s', s'', th'. split; [done|]. split; [done|]. split.
  { rewrite Hp', Hp, insert_insert_eq. simpl. rewrite delete_middle, app_nil_r. apply insert_id. rewrite A4.
    by destruct dev. }
  split.
  { rewrite Hi', Hi, insert_insert_eq. apply insert_id. rewrite A3. rewrite <- F5, <- F1. by destruct d, ty. }
  split; [congruence|]. split; [congruence|]. split.
  { rewrite T1', T1, list_insert_insert_eq. simpl. by rewrite Z.add_0_r. }
  split; [done|]. eapply (bag_round_trip (Some i) ty (tolower s2)); [exact T6| |exact T6'|exact F8]. done.
Qed.
End Add.
