(* ===== verification/DServerWitness.v ===== *)
(** * The polling commands on concrete requests

  A server with a device polled by one thread: the properties of DServerTheory.v apply
  to it, and the cases that the code does not handle are run on it. *)
From Stdlib Require Import Ascii.
From stdpp Require Import pretty.
From S2P Require Import Prelude StateExn CppString PollRing PollObj PollThread PollTheory PollPool DServerPoll DServerTheory.
Local Open Scope string_scope.
Local Open Scope list_scope.
Local Open Scope Z_scope.

Definition ex_senv (down : bool) : SrvEnv :=
  mkSrvEnv (λ nm, if bool_decide (tolower nm = "a/b/1") then inr 0%nat else inl (DevFailed []))
    (λ _ _, Ok tt) true down false.

Definition ex_buffer : PollThCmd := mkCmd false false POLL_STOP None 0 "" POLL_CMD 0.
Definition ex_item : WorkItem := mkWork (Some 0%nat) 0 (milliseconds 1000) POLL_ATTR ["x"] 0.
Definition ex_poller : PollSt Z Z :=
  set_works [ex_item] (PollThread_new ex_buffer ∅ false false).
Definition ex_pti (th : PollSt Z Z) : PollingThreadInfo Z Z := mkPTI 5 th ["a/b/1"] 1 (milliseconds 1000).

Definition ex_polled : PollObj Z Z := PollObj_new 4 POLL_ATTR "x" (milliseconds 1000).
Definition ex_pdev (idl : Z) : Device Z Z := mkDevice idl 4 [ex_polled].
Definition ex_attr (nm : string) : AttrInfo := mkAttr nm false false false true false.
Definition ex_info : DevPoll :=
  mkDevPoll "a/b/1" true [] ["x"; "1000"] [] ["w"] [] ["Y"; "200"] 100 [] [] 0 [("state", false)]
    [ex_attr "x"; ex_attr "Y"; ex_attr "w"; ex_attr "State"].
Definition ex_srv_of (idl : Z) (th : PollSt Z Z) : SrvSt Z Z :=
  mkSrv (mkPool ["a/b/1"] [ex_pti th] {["a/b/1" := 5]} 1) {[0%nat := ex_pdev idl]} {[0%nat := ex_info]} [] true.
Definition ex_srv : SrvSt Z Z := ex_srv_of 5 ex_poller.

Definition ex_add (s : SrvSt Z Z) (ty nm : string) (upd : Z) :=
  add_obj_polling 0 (ex_senv false) 1 (λ _, true) 1000 9 ex_buffer ["A/b/1"; ty; nm] [upd] true 0 s.
Definition ex_rem (self : Z) (s : SrvSt Z Z) (ty nm : string) :=
  rem_obj_polling 0 (ex_senv false) self (λ _, true) 1000 ["A/b/1"; ty; nm] true s.

Lemma ex_poller_ok : thread_ok ex_poller.
Proof.
  split; [|unfold by_date; simpl; repeat constructor|constructor].
  constructor; [|constructor]. split; [reflexivity|discriminate].
Qed.

Lemma ex_mapped : mapped_thread 1 (λ _, true) "A/b/1" 0 ex_srv (ex_pti ex_poller).
Proof.
  split; [by vm_compute|reflexivity|]. split; [reflexivity|by vm_compute|reflexivity|reflexivity|].
  exact ex_poller_ok.
Qed.

Lemma ex_accepted : accepted ex_info (ex_pdev 5) "Attribute" "Y" 500 POLL_ATTR false false.
Proof.
  exists "attribute". split; [reflexivity|]. split; [split; [done|]; by exists (ex_attr "Y")|].
  split; [reflexivity|]. split; [reflexivity|]. right. split; [vm_compute; discriminate|].
  exists 100. split; [vm_compute; reflexivity|]. right. vm_compute. discriminate.
Qed.

Lemma ex_request :
  add_request (ex_senv false) 1 (λ _, true) "A/b/1" "Attribute" "Y" 500 0 0 ex_srv (ex_pti ex_poller) ex_info
    (ex_pdev 5) POLL_ATTR false 10 ["x"; "1000"; "y"; "500"].
Proof.
  split; [vm_compute; reflexivity|done|done|done|exact ex_mapped|exact ex_accepted|reflexivity|].
  vm_compute. reflexivity.
Qed.

Lemma ex_fresh : fresh_object "Attribute" "Y" 0 (ex_pti ex_poller) ex_info (ex_pdev 5) POLL_ATTR [("x", "1000")].
Proof.
  split; [done|done|left; vm_compute; discriminate|intros _; by eexists|done|repeat constructor|repeat constructor|].
  intros old. split; apply (bool_decide_unpack _); reflexivity.
Qed.

Lemma add_checks_accepts_witness :
  add_checks 0 "Attribute" "Y" 500 ex_srv = Some (ex_srv, inr (POLL_ATTR, false, false)) ↔
    accepted ex_info (ex_pdev 5) "Attribute" "Y" 500 POLL_ATTR false false.
Proof. apply (add_checks_accepts 0 ex_srv "Attribute" "Y" 500 POLL_ATTR false false ex_info (ex_pdev 5)); reflexivity. Defined.

Lemma add_obj_polling_atomic_witness :
  (∃ s' e, ex_add ex_srv "attribute" "x" 500 = Some (s', inl e)) ∧
  ∀ s' e, ex_add ex_srv "attribute" "x" 500 = Some (s', inl e) → s' = ex_srv.
Proof.
  split; [eexists _, _; vm_compute; reflexivity|]. intros s' e.
  apply (add_obj_polling_atomic 0 (ex_senv false) 1 (λ _, true) 1000 9 ex_buffer ex_srv s'
           ["A/b/1"; "attribute"; "x"] [500] true 0 e).
  intros s0 s1 s2 [= <- <- <-]. exists 0%nat, (ex_pti ex_poller). exact ex_mapped.
Defined.

Lemma add_obj_polling_ok_witness :
  ∃ s' th, ex_add ex_srv "Attribute" "Y" 500 = Some (s', inr tt) ∧
    pdevs s' = <[0%nat := with_poll_list (ex_pdev 5)
                  [ex_polled; PollObj_depth 4 POLL_ATTR "y" (milliseconds 500) 10]]> (pdevs ex_srv) ∧
    dinfo s' = <[0%nat := with_polled true (with_lists POLL_ATTR ["x"; "1000"; "y"; "500"] ["w"] ex_info)]> (dinfo ex_srv) ∧
    thread_did 0 (ex_pti ex_poller) 1 (Some 0%nat) POLL_ATTR "y" (milliseconds 500) POLL_ADD_OBJ ex_srv s' th.
Proof.
  exact (add_obj_polling_ok 0 (ex_senv false) 1 (λ _, true) 1000 9 ex_buffer "A/b/1" "Attribute" "Y" 500 true 0 0 0
    ex_srv (ex_pti ex_poller) ex_info (ex_pdev 5) POLL_ATTR false 10 ["x"; "1000"; "y"; "500"] ex_request).
Defined.

Lemma add_rem_round_trip_witness :
  ∃ s' s'' th, ex_add ex_srv "Attribute" "Y" 500 = Some (s', inr tt) ∧
    ex_rem 1 s' "Attribute" "Y" = Some (s'', inr tt) ∧
    pdevs s'' = pdevs ex_srv ∧ dinfo s'' = dinfo ex_srv ∧
    poll_pool_conf (pool s'') = poll_pool_conf (pool ex_srv) ∧ dev_poll_th_map (pool s'') = dev_poll_th_map (pool ex_srv) ∧
    poll_ths (pool s'') = [mkPTI 5 th ["a/b/1"] 2 (milliseconds 1000)] ∧
    thread_ok th ∧ polled (works th) ≡ₚ [(Some 0%nat, POLL_ATTR, "x", milliseconds 1000)] ∧
    polled (ext_trig_works th) ≡ₚ [].
Proof.
  exact (add_rem_round_trip 0 (ex_senv false) 1 (λ _, true) 1000 9 ex_buffer "A/b/1" "Attribute" "Y" 500 true 0 0 0
    ex_srv (ex_pti ex_poller) ex_info (ex_pdev 5) POLL_ATTR false 10 ["x"; "1000"; "y"; "500"] [("x", "1000")]
    ex_request ex_fresh eq_refl eq_refl).
Defined.

(** A device with a second object, polled on a trigger. *)
Definition ex_triggered : PollObj Z Z := PollObj_new 4 POLL_ATTR "y" 0.
Definition ex_pdev2 : Device Z Z := mkDevice 5 4 [ex_polled; ex_triggered].
Definition ex_srv2 : SrvSt Z Z := set_pdevs {[0%nat := ex_pdev2]} ex_srv.

Lemma ex_rem_request :
  rem_request (ex_senv false) 1 (λ _, true) "A/b/1" "attribute" "X" 0 0 ex_srv2 (ex_pti ex_poller) ex_info ex_pdev2
    POLL_ATTR 0 ex_polled [].
Proof.
  split; try reflexivity; [apply mapped_set_pdevs; exact ex_mapped|discriminate|]. intros _. by eexists.
Qed.

Lemma rem_obj_polling_ok_witness :
  ∃ s' th upd, ex_rem 1 ex_srv2 "attribute" "X" = Some (s', inr tt) ∧
    pdevs s' = <[0%nat := with_poll_list ex_pdev2 [ex_triggered]]> (pdevs ex_srv2) ∧
    dinfo s' = <[0%nat := with_lists POLL_ATTR [] ["w"] ex_info]> (dinfo ex_srv2) ∧
    thread_did 0 (ex_pti ex_poller) 0 (Some 0%nat) POLL_ATTR "x" upd POLL_REM_OBJ ex_srv2 s' th.
Proof.
  exact (rem_obj_polling_ok 0 (ex_senv false) 1 (λ _, true) 1000 "A/b/1" "attribute" "X" true 0 0 ex_srv2
    (ex_pti ex_poller) ex_info ex_pdev2 POLL_ATTR 0 ex_polled [] ex_rem_request).
Defined.

(** ** What the code does not handle *)

(** A type of five characters has no suffix to cut, but the size of the suffix less
    one: the wrapped difference is the [npos] that [rfind] gives. *)
Example short_type_throws : parse_obj_type "state" = Exc (OtherExc "std::out_of_range").
Proof. reflexivity. Qed.

(** The state of a device of release 2 is polled as a command, and is looked for
    among the attributes when its polling has to stop. *)
Example state_stays_polled :
  match ex_add (ex_srv_of 2 ex_poller) "command" "State" 500 with
  | Some (s, inr _) =>
      match ex_rem 1 s "command" "State" with
      | Some (_, inl (DevFailed [e])) => reason e = "API_PollObjNotFound"
      | _ => False
      end
  | _ => False
  end.
Proof. vm_compute. reflexivity. Qed.

(** The list of the attributes that are not polled automatically is saved in the
    property of the commands. *)
Example non_auto_attr_saved_as_cmd :
  match ex_add ex_srv "attribute" "w" 500 with
  | Some (s, inr _) => writes s = [PutDevProp 0 "non_auto_polled_cmd" []]
  | _ => False
  end.
Proof. vm_compute. reflexivity. Qed.

(** After a time-out the object leaves the poll list, but the command stays in the
    buffer of the thread, with the index of the object. *)
Example time_out_leaves_command :
  match add_obj_polling 0 (ex_senv false) 1 (λ _, false) 1000 9 ex_buffer ["a/b/1"; "attribute"; "Y"] [500] true 0 ex_srv with
  | Some (s, inl _) =>
      match poll_ths (pool s) !! 0%nat, pdevs s !! 0%nat with
      | Some t, Some d =>
          cmd_pending (shared_cmd (poll_th t)) = true ∧ cmd_index (shared_cmd (poll_th t)) = 1 ∧
          length (poll_obj_list d) = 1%nat
      | _, _ => False
      end
  | _ => False
  end.
Proof. vm_compute. done. Qed.

(** The polling thread that stops the polling of its last object frees its own
    information, then writes to it. *)
Example freed_thread_info : ex_rem 5 ex_srv "attribute_local" "x" = None.
Proof. vm_compute. reflexivity. Qed.
