(* ===== verification/EventQueue.v ===== *)
(** * The event queue of a client (src/src/client/eventqueue.cpp)

  [EventQueue] keeps the events of one subscription until the client asks for them
  ([insert_event], [get_events]): all of them when it was built without a size, else
  the newest ones, in a circular buffer.  The class has one buffer per kind of event,
  with the same indexes; a subscription fills one of them.  An [Ev] is an event with
  its reception date; a null pointer is [None]. *)
From S2P Require Import Prelude.
Local Open Scope Z_scope.

Inductive EvKind := DataEvent | ConfEvent | ReadyEvent | DevIntrEvent | PipeEvent.
#[export] Instance EvKind_eq : EqDecision EvKind.
Proof. solve_decision. Defined.

Section EventQueue.
Context {Ev : Type} (get_date : Ev → Z).

Record EventQueue := mkQueue {
  buffers : EvKind → list (option Ev);
  max_elt : Z;
  insert_elt : Z;
  nb_elt : Z;
}.

Definition EventQueue_new (max_size : Z) : EventQueue := mkQueue (λ _, []) max_size 0 0.

Definition set_buffer (k : EvKind) (b : list (option Ev)) (q : EventQueue) : EventQueue :=
  mkQueue (λ k', if decide (k' = k) then b else buffers q k') (max_elt q) (insert_elt q) (nb_elt q).

Definition inc_indexes (q : EventQueue) : EventQueue :=
  if max_elt q =? 0 then mkQueue (buffers q) (max_elt q) (insert_elt q + 1) (nb_elt q + 1)
  else
    let i := insert_elt q + 1 in
    let i := if i =? max_elt q then 0 else i in
    let nb := if negb (nb_elt q =? max_elt q) then nb_elt q + 1 else nb_elt q in
    mkQueue (buffers q) (max_elt q) i nb.

(** [insert_event], the same code for the five kinds.  A negative size makes
    [resize] throw. *)
Definition insert_event (k : EvKind) (new_event : Ev) (q : EventQueue) : outcome EventQueue :=
  let b := buffers q k in
  b ← (if max_elt q =? 0 then Ok (b ++ [Some new_event])
       else
         b ← match b with
             | [] => if max_elt q <? 0 then Exc (OtherExc "std::length_error") else Ok (replicate (Z.to_nat (max_elt q)) None)
             | _ => Ok b
             end;
         vset b (insert_elt q) (Some new_event));
  Ok (inc_indexes (set_buffer k b q)).

Definition size (q : EventQueue) : Z := nb_elt q.
Definition is_empty (q : EventQueue) : bool := bool_decide (buffers q DataEvent = []).

(** The date of the element before [insert_elt] in a buffer. *)
Definition date_in (b : list (option Ev)) (q : EventQueue) : outcome Z :=
  e ← vget b (if insert_elt q =? 0 then max_elt q - 1 else insert_elt q - 1);
  e ← deref e; Ok (get_date e).

(** [get_last_event_date]: three kinds only, and the last branch reads another buffer
    than the one it has tested. *)
Definition get_last_event_date (q : EventQueue) : outcome Z :=
  match buffers q DataEvent, buffers q ConfEvent, buffers q ReadyEvent with
  | (_ :: _) as b, _, _ => date_in b q
  | [], (_ :: _) as b, _ => date_in b q
  | [], [], (_ :: _) as b => if insert_elt q =? 0 then date_in b q else date_in (buffers q ConfEvent) q
  | [], [], [] => throw_exception "API_EventQueues"
                    "No new events available! Cannot return any event date" "EventQueue::get_last_event_date"
  end.

(** The reading loop of [get_events], from the newest event to the oldest one. *)
Fixpoint get_loop (n : nat) (max index seq_index : Z) (b out : list (option Ev))
    : outcome (list (option Ev)) :=
  match n with
  | O => Ok out
  | S n =>
      e ← vget b index;
      out ← vset out seq_index e;
      b ← vset b index None;
      get_loop n max ((if index =? 0 then max else index) - 1) (seq_index - 1) b out
  end.

Definition get_events (k : EvKind) (q : EventQueue) : outcome (list (option Ev) * EventQueue) :=
  let index := (if insert_elt q =? 0 then max_elt q else insert_elt q) - 1 in
  out ← get_loop (Z.to_nat (nb_elt q)) (max_elt q) index (nb_elt q - 1) (buffers q k)
          (replicate (Z.to_nat (nb_elt q)) None);
  Ok (out, mkQueue (buffers (set_buffer k [] q)) (max_elt q) 0 0).

(** [get_events] with a callback: the events given to [push_event].  A callback that
    throws does not stop the loop. *)
Definition get_events_cb (q : EventQueue) : outcome (list (option Ev) * EventQueue) :=
  match buffers q DataEvent, buffers q ConfEvent, buffers q DevIntrEvent with
  | _ :: _, _, _ => get_events DataEvent q
  | [], _ :: _, _ => get_events ConfEvent q
  | [], [], _ :: _ => get_events DevIntrEvent q
  | [], [], [] => get_events ReadyEvent q
  end.

(** ** Correctness

  The specification: the queue of kind [k] holds a list, the oldest event first. *)

(** [d] slots before slot [i] in a buffer of [M] slots. *)
Definition back (M i : Z) (d : nat) : Z := if Z.of_nat d <=? i then i - Z.of_nat d else i - Z.of_nat d + M.

(** The events [l] are in the slots that end with slot [i], the newest. *)
Definition holds (M i : Z) (b : list (option Ev)) (l : list Ev) : Prop :=
  ∀ d e, reverse l !! d = Some e → b !! Z.to_nat (back M i d) = Some (Some e).

Definition newest (q : EventQueue) : Z := (if insert_elt q =? 0 then max_elt q else insert_elt q) - 1.

Record queue_ok (k : EvKind) (q : EventQueue) (l : list Ev) : Prop := {
  qo_max : 0 <= max_elt q;
  qo_nb : nb_elt q = Z.of_nat (length l);
  qo_others : ∀ k', k' ≠ k → buffers q k' = [];
  qo_unlimited : max_elt q = 0 → insert_elt q = nb_elt q ∧ buffers q k = Some <$> l;
  qo_bounded : 0 < max_elt q → nb_elt q <= max_elt q ∧ 0 <= insert_elt q < max_elt q ∧
    (buffers q k = [] ∧ l = [] ∨
     Z.of_nat (length (buffers q k)) = max_elt q ∧ l ≠ [] ∧ holds (max_elt q) (newest q) (buffers q k) l) ∧
    (nb_elt q < max_elt q → insert_elt q = nb_elt q);
}.

(** What the specification does with a new event. *)
Definition push (max : Z) (l : list Ev) (e : Ev) : list Ev :=
  if (0 <? max) && (Z.of_nat (length l) =? max) then tail l ++ [e] else l ++ [e].

Lemma back_0 M i : 0 <= i → back M i 0 = i.
Proof. intros H. unfold back. case_if; lia. Qed.

Lemma back_next M i j (d : nat) :
  0 <= i < M → Z.of_nat (S d) < M → j = (if i + 1 =? M then 0 else i + 1) → back M j (S d) = back M i d.
Proof. intros Hi Hd ->. unfold back. repeat case_if; lia. Qed.

Lemma back_other M i (d : nat) : 0 <= i < M → (0 < d)%nat → Z.of_nat d < M → 0 <= back M i d < M ∧ back M i d ≠ i.
Proof. intros Hi H0 Hd. unfold back. case_if; lia. Qed.

Lemma holds_push M i j b l e :
  0 <= i < M → Z.of_nat (length b) = M → Z.of_nat (length l) < M → j = (if i + 1 =? M then 0 else i + 1) →
  holds M i b l → holds M j (<[Z.to_nat j := Some e]> b) (l ++ [e]).
Proof.
  intros Hi Hb Hl Hj Hh d x. assert (0 <= j < M) by (subst; case_if; lia).
  rewrite reverse_app. destruct d as [|d]; simpl.
  - intros [= ->]. rewrite back_0 by lia. apply list_lookup_insert_eq. lia.
  - intros Hx. pose proof (lookup_lt_Some _ _ _ Hx) as Hlt. rewrite length_reverse in Hlt.
    pose proof (back_other M j (S d) ltac:(lia) ltac:(lia) ltac:(lia)).
    rewrite list_lookup_insert_ne by lia. rewrite (back_next M i j d) by (done || lia). by apply Hh.
Qed.

Lemma holds_tail M i b l : holds M i b l → holds M i b (tail l).
Proof.
  intros Hh d e He. apply Hh. destruct l as [|x l]; [done|]. simpl in He. rewrite reverse_cons.
  rewrite lookup_app_l; [done|]. by eapply lookup_lt_Some.
Qed.

Lemma queue_new k max : 0 <= max → queue_ok k (EventQueue_new max) [].
Proof. intros H. split; simpl; [done..| |]; intros; repeat split; try done; try lia. by left. Qed.

Lemma holds_nil M i b : holds M i b [].
Proof. intros d e H. by destruct d. Qed.

Lemma set_buffer_eq k b q : buffers (set_buffer k b q) k = b.
Proof. simpl. by rewrite decide_True. Qed.
Lemma set_buffer_ne k k' b q : k' ≠ k → buffers (set_buffer k b q) k' = buffers q k'.
Proof. intros H. simpl. by rewrite decide_False. Qed.

(** The buffer with its slots, before the insertion. *)
Lemma insert_slots k q l :
  queue_ok k q l → 0 < max_elt q →
  ∃ b, (match buffers q k with
        | [] => if max_elt q <? 0 then Exc (OtherExc "std::length_error") else Ok (replicate (Z.to_nat (max_elt q)) None)
        | _ => Ok (buffers q k)
        end) = Ok b ∧ Z.of_nat (length b) = max_elt q ∧ holds (max_elt q) (newest q) b l.
Proof.
  intros [_ _ _ _ Hb] Hm. destruct (Hb Hm) as (_ & _ & [[-> ->]|(Hlen & Hl & Hh)] & _).
  - rewrite (proj2 (Z.ltb_ge _ _)) by lia. eexists. split; [done|]. rewrite length_replicate.
    split; [lia|]. apply holds_nil.
  - exists (buffers q k). destruct (buffers q k); [simpl in Hlen; lia|done].
Qed.

Lemma insert_event_ok k q l e :
  queue_ok k q l → ∃ q', insert_event k e q = Ok q' ∧ queue_ok k q' (push (max_elt q) l e) ∧ max_elt q' = max_elt q.
Proof.
  intros Hq. pose proof Hq as [Hm Hnb Ho Hu Hb]. unfold insert_event, push.
  destruct (Z.eqb_spec (max_elt q) 0) as [E|E].
  - rewrite E. simpl. eexists. split; [done|]. destruct (Hu E) as [Hi Hbuf].
    unfold inc_indexes. simpl max_elt. rewrite E. simpl. split; [|done].
    split; simpl; rewrite ?length_app; [lia|simpl; lia|intros k' Hk; by rewrite decide_False, Ho| |lia].
    intros _. rewrite decide_True, Hbuf, fmap_app by done. split; [lia|done].
  - rewrite (proj2 (Z.ltb_lt 0 _)) by lia. simpl andb.
    destruct (insert_slots k q l Hq ltac:(lia)) as (b & Hsl & Hlen & Hh). rewrite Hsl. simpl.
    destruct (Hb ltac:(lia)) as (Hle & Hi & _ & Hnf). rewrite vset_Ok by lia. simpl.
    eexists. split; [done|]. unfold inc_indexes. simpl max_elt. rewrite (proj2 (Z.eqb_neq _ _)) by lia. simpl.
    split; [|done]. set (l' := if Z.of_nat (length l) =? max_elt q then tail l else l).
    assert (Hl' : (if Z.of_nat (length l) =? max_elt q then tail l ++ [e] else l ++ [e]) = l' ++ [e]) by (unfold l'; by case_if).
    assert (Hlen' : Z.of_nat (length l') < max_elt q).
    { unfold l'. case_if; [|lia]. destruct l; simpl in *; lia. }
    assert (Hin : queue_ok k q l → holds (max_elt q) (newest q) b l') by (intros _; unfold l'; case_if; [by apply holds_tail|done]).
    rewrite Hl'. split; simpl; [lia| |intros k' Hk; by rewrite decide_False, Ho|lia|intros _].
    + rewrite length_app. simpl. rewrite Hnb. unfold l'. repeat case_if; subst; try lia.
      destruct l; simpl in *; lia.
    + rewrite decide_True by done. rewrite length_insert. split; [repeat case_if; lia|].
      split; [repeat case_if; lia|]. split; [|intros H; revert H; repeat case_if; lia].
      right. split; [done|]. split; [by destruct l'|].
      assert (Hn : 0 <= newest q < max_elt q) by (unfold newest; case_if; lia).
      assert (Hj : insert_elt q = (if newest q + 1 =? max_elt q then 0 else newest q + 1))
        by (unfold newest; destruct (Z.eqb_spec (insert_elt q) 0); case_if; lia).
      replace (newest _) with (insert_elt q)
        by (unfold newest; simpl; destruct (Z.eqb_spec (insert_elt q + 1) (max_elt q)); case_if; lia).
      by apply (holds_push _ (newest q)); [..|by apply Hin].
Qed.

Lemma back_prev M i (d : nat) j :
  0 <= i < M → Z.of_nat (S d) < M → j = (if i =? 0 then M else i) - 1 → back M j d = back M i (S d).
Proof. intros Hi Hd ->. unfold back. repeat case_if; lia. Qed.

Lemma holds_pop M i j b l e :
  0 <= i < M → Z.of_nat (S (length l)) <= M → j = (if i =? 0 then M else i) - 1 →
  holds M i b (l ++ [e]) → holds M j (<[Z.to_nat i := None]> b) l.
Proof.
  intros Hi Hl Hj Hh d x Hx. pose proof (lookup_lt_Some _ _ _ Hx) as Hlt. rewrite length_reverse in Hlt.
  rewrite (back_prev M i d j) by (done || lia).
  pose proof (back_other M i (S d) ltac:(lia) ltac:(lia) ltac:(lia)).
  rewrite list_lookup_insert_ne by lia. apply Hh. by rewrite reverse_app.
Qed.

Lemma get_loop_ok M max l index b out :
  (l ≠ [] → 0 <= index < M) → Z.of_nat (length l) <= M → Z.of_nat (length b) = M →
  max = M ∨ max = 0 ∧ index = Z.of_nat (length l) - 1 → holds M index b l →
  get_loop (length l) max index (Z.of_nat (length l) - 1) b (replicate (length l) None ++ out) =
    Ok ((Some <$> l) ++ out).
Proof.
  revert index b out. induction l as [|e l IH] using rev_ind; intros index b out Hi Hl Hb Hm Hh; [done|].
  rewrite length_app in *. simpl length in *. rewrite Nat.add_1_r in *. specialize (Hi ltac:(by destruct l)).
  assert (He : b !! Z.to_nat index = Some (Some e)).
  { specialize (Hh 0%nat e). rewrite back_0 in Hh by lia. apply Hh. by rewrite reverse_app. }
  cbn [get_loop]. unfold vget at 1. rewrite (proj2 (Z.leb_le _ _)), He by lia. cbn [deref]. rewrite bind_Ok.
  rewrite (vset_Ok (_ ++ _)) by (rewrite length_app, length_replicate; lia). rewrite bind_Ok.
  rewrite vset_Ok by lia. rewrite bind_Ok.
  replace (Z.to_nat (Z.of_nat (S (length l)) - 1)) with (length l) by lia.
  rewrite replicate_S_end, <- (app_assoc (replicate _ _)). cbn [app].
  rewrite list_insert_middle by by rewrite length_replicate.
  replace (Z.of_nat (S (length l)) - 1 - 1) with (Z.of_nat (length l) - 1) by lia.
  rewrite fmap_app, <- (app_assoc (Some <$> l)). apply IH; [| lia|by rewrite length_insert| |].
  - intros Hne. assert (0 < length l)%nat by (destruct l; [done|simpl; lia]).
    destruct Hm as [->|[-> ->]]; repeat case_if; lia.
  - destruct Hm as [->|[-> ->]]; [by left|]. right. split; [done|]. case_if; lia.
  - destruct l as [|x l].
    { intros d y Hy. by destruct d. }
    apply (holds_pop M index _ b (x :: l) e); [done|lia| |done].
    destruct Hm as [->|[-> ->]]; [done|]. simpl length. repeat case_if; lia.
Qed.

(** The two ways of keeping events, seen as a circular buffer. *)
Lemma queue_holds k q l :
  queue_ok k q l → ∃ M, Z.of_nat (length l) <= M ∧ (l ≠ [] → 0 <= newest q < M ∧ Z.of_nat (length (buffers q k)) = M) ∧
    (max_elt q = M ∨ max_elt q = 0 ∧ newest q = Z.of_nat (length l) - 1) ∧ holds M (newest q) (buffers q k) l.
Proof.
  intros [Hm Hnb _ Hu Hb]. destruct (Z.eqb_spec (max_elt q) 0) as [E|E].
  - destruct (Hu E) as [Hi Hbuf]. exists (Z.of_nat (length l)). rewrite Hbuf, length_fmap.
    assert (Hn : newest q = Z.of_nat (length l) - 1) by (unfold newest; case_if; lia).
    rewrite Hn. split; [lia|]. split; [destruct l; [done|simpl; lia]|]. split; [by right|].
    intros d e He. pose proof (lookup_lt_Some _ _ _ He) as Hlt. rewrite length_reverse in Hlt.
    rewrite reverse_lookup in He by done. rewrite list_lookup_fmap.
    replace (Z.to_nat (back _ _ d)) with (length l - S d)%nat by (unfold back; case_if; lia).
    by rewrite He.
  - destruct (Hb ltac:(lia)) as (Hle & Hi & [[Hbuf ->]|(Hlen & Hl & Hh)] & _); exists (max_elt q).
    + split; [simpl; lia|]. split; [done|]. split; [by left|apply holds_nil].
    + split; [lia|]. split; [|by split; [left|]]. intros _. split; [unfold newest; case_if; lia|done].
Qed.

Lemma get_events_ok k q l :
  queue_ok k q l →
  ∃ q', get_events k q = Ok (Some <$> l, q') ∧ (∀ k', queue_ok k' q' []) ∧ max_elt q' = max_elt q.
Proof.
  intros Hq. pose proof Hq as [Hm Hnb Ho _ _]. destruct (queue_holds k q l Hq) as (M & HM & Hi & Hx & Hh).
  unfold get_events. fold (newest q). rewrite Hnb, Nat2Z.id.
  assert (E : get_loop (length l) (max_elt q) (newest q) (Z.of_nat (length l) - 1) (buffers q k)
            (replicate (length l) None) = Ok (Some <$> l)).
  { destruct l as [|x l]; [done|]. destruct (Hi ltac:(done)) as [Hn Hlen].
    rewrite <- (app_nil_r (replicate _ _)), (get_loop_ok M), app_nil_r by done. done. }
  rewrite E. eexists. split; [done|]. split; [|done].
  intros k'. split; simpl; [done|done| | |].
  - intros k'' _. case_decide; [done|]. by apply Ho.
  - intros _. split; [done|]. case_decide; [done|]. by apply Ho.
  - intros Hm'. split; [lia|]. split; [lia|]. split; [|lia]. left. split; [|done].
    case_decide; [done|]. by apply Ho.
Qed.

(** A series of events. *)
Fixpoint insert_all (k : EvKind) (evs : list Ev) (q : EventQueue) : outcome EventQueue :=
  match evs with [] => Ok q | e :: evs => q ← insert_event k e q; insert_all k evs q end.

Lemma insert_all_ok k evs q l :
  queue_ok k q l →
  ∃ q', insert_all k evs q = Ok q' ∧ queue_ok k q' (foldl (push (max_elt q)) l evs) ∧ max_elt q' = max_elt q.
Proof.
  revert q l. induction evs as [|e evs IH]; intros q l Hq; simpl; [by exists q|].
  destruct (insert_event_ok k q l e Hq) as (q1 & -> & H1 & Hm). simpl. rewrite <- Hm in H1 |- *. by apply IH.
Qed.

Lemma push_length max l e : 0 < max → Z.of_nat (length l) <= max → Z.of_nat (length (push max l e)) <= max.
Proof.
  intros Hm Hl. unfold push. rewrite (proj2 (Z.ltb_lt _ _)) by done. simpl. case_if; rewrite length_app; simpl; [|lia].
  destruct l; simpl in *; lia.
Qed.

Lemma push_all max l evs :
  0 <= max → (0 < max → Z.of_nat (length l) <= max) →
  foldl (push max) l evs = if max =? 0 then l ++ evs else drop (length (l ++ evs) - Z.to_nat max) (l ++ evs).
Proof.
  intros Hm. revert l. induction evs as [|e evs IH]; intros l Hl; simpl.
  - rewrite app_nil_r. case_if; [done|]. replace (length l - Z.to_nat max)%nat with 0%nat by lia. by rewrite drop_0.
  - rewrite IH by (intros; apply push_length; auto). unfold push.
    destruct (Z.eqb_spec max 0) as [->|E]; simpl; [by rewrite <- app_assoc|].
    rewrite (proj2 (Z.ltb_lt _ _)) by lia. simpl. case_if; [|by rewrite <- app_assoc].
    destruct l as [|x l]; simpl in *; [lia|]. rewrite <- app_assoc. simpl.
    replace (S (length (l ++ e :: evs)) - Z.to_nat max)%nat with (S (length (l ++ e :: evs) - Z.to_nat max)); [done|].
    rewrite length_app. simpl. lia.
Qed.

(** The date of the newest event, for the kinds that [get_last_event_date] knows. *)
Lemma last_date_ok k q l :
  queue_ok k q l → k = DataEvent ∨ k = ConfEvent →
  match last l with
  | Some e => get_last_event_date q = Ok (get_date e)
  | None => ∃ x, get_last_event_date q = Exc x
  end.
Proof.
  intros Hq Hk. pose proof Hq as [Hm Hnb Ho Hu Hb]. destruct (queue_holds k q l Hq) as (M & HM & Hi & Hx & Hh).
  assert (Hd : ∀ e, last l = Some e → date_in (buffers q k) q = Ok (get_date e)).
  { intros e He. apply last_Some_inv in He as [l' ->]. destruct (Hi ltac:(by destruct l')) as [Hn _].
    unfold date_in. replace (if insert_elt q =? 0 then max_elt q - 1 else insert_elt q - 1) with (newest q)
      by (unfold newest; case_if; lia).
    unfold vget. rewrite (proj2 (Z.leb_le _ _)) by lia. specialize (Hh 0%nat e). rewrite back_0 in Hh by lia.
    rewrite Hh; [done|]. by rewrite reverse_app. }
  destruct (last l) as [e|] eqn:El.
  - specialize (Hd e eq_refl). unfold get_last_event_date.
    assert (Hne : buffers q k ≠ []).
    { intros E. rewrite E in Hd. unfold date_in, vget in Hd. by case_match. }
    destruct Hk as [-> | ->]; rewrite ?(Ho DataEvent) by done; by destruct (buffers q _) eqn:E.
  - apply last_None in El as ->. assert (Hn : buffers q k = []).
    { destruct (Z.eqb_spec (max_elt q) 0) as [E|E]; [by destruct (Hu E)|].
      destruct (Hb ltac:(lia)) as (_ & _ & [[H _]|(_ & H & _)] & _); [exact H|by destruct H]. }
    assert (Hall : ∀ k', buffers q k' = []) by (intros k'; destruct (decide (k' = k)) as [->|]; auto).
    unfold get_last_event_date. rewrite !Hall. by eexists.
Qed.

(** the queue of a subscription gives back, the oldest first, all the events it has
    received when it has no size, else the newest ones up to its size; [size] is their
    number, [get_last_event_date] the date of the newest one (for attribute and
    configuration events), and the queue is empty after [get_events]. *)
Theorem event_queue_keeps_newest k max evs :
  0 <= max →
  let kept := if max =? 0 then evs else drop (length evs - Z.to_nat max) evs in
  ∃ q q', insert_all k evs (EventQueue_new max) = Ok q ∧ size q = Z.of_nat (length kept) ∧
    get_events k q = Ok (Some <$> kept, q') ∧ (∀ k', queue_ok k' q' []) ∧
    (k = DataEvent ∨ k = ConfEvent →
     match last kept with
     | Some e => get_last_event_date q = Ok (get_date e)
     | None => ∃ x, get_last_event_date q = Exc x
     end).
Proof.
  intros Hm kept. destruct (insert_all_ok k evs (EventQueue_new max) [] (queue_new k max Hm)) as (q & Hq & Hok & _).
  simpl max_elt in Hok. rewrite push_all in Hok by (done || simpl; lia). simpl app in Hok. fold kept in Hok.
  destruct (get_events_ok k q kept Hok) as (q' & Hg & He & _). exists q, q'.
  split; [done|]. split; [apply Hok|]. split; [done|]. split; [done|]. intros Hk. by eapply last_date_ok.
Qed.
End EventQueue.
Arguments EventQueue : clear implicits.

Lemma event_queue_keeps_newest_witness :
  let kept := [2; 3] in
  ∃ q q', insert_all DataEvent [1; 2; 3] (EventQueue_new 2) = Ok q ∧ size q = Z.of_nat (length kept) ∧
    get_events DataEvent q = Ok (Some <$> kept, q') ∧ (∀ k', queue_ok k' q' []) ∧
    (DataEvent = DataEvent ∨ DataEvent = ConfEvent →
     match last kept with
     | Some e => get_last_event_date id q = Ok (id e)
     | None => ∃ x, get_last_event_date id q = Exc x
     end).
Proof. apply (event_queue_keeps_newest id DataEvent 2 [1; 2; 3]). lia. Defined.

(** The date of the last data-ready event is read from the configuration events. *)
Example ready_date_undefined :
  match insert_all ReadyEvent [1] (EventQueue_new 0) with
  | Ok q => get_last_event_date id q = Undef
  | _ => False
  end.
Proof. reflexivity. Qed.

(** Pipe events have no date, and a callback does not get them: the data-ready events
    are read in their place. *)
Example pipe_events_lost :
  match insert_all PipeEvent [1] (EventQueue_new 0) with
  | Ok q => get_events_cb q = Undef ∧ ∃ x, get_last_event_date id q = Exc x
  | _ => False
  end.
Proof. split; [reflexivity|by eexists]. Qed.

(** [is_empty] looks at the attribute events only. *)
Example full_queue_is_empty :
  match insert_all ConfEvent [1] (EventQueue_new 0) with Ok q => is_empty q = true ∧ size q = 1 | _ => False end.
Proof. done. Qed.
