(* ===== verification/Locking.v ===== *)
(** * Device locking in the server (src/src/server/device.cpp, dserverlock.cpp)

  A client may lock a device for a number of seconds: the others can then only read
  it and execute the commands its class allows.  [lock], [relock], [unlock],
  [check_lock] and [lock_status] are the methods of [DeviceImpl]; the commands of the
  admin device that call them are below, with [check_lock_owner] (dserver.cpp).  The
  dates are the seconds of the system clock, given to every operation as [now]; the
  calls to the root devices of the forwarded attributes are the parameter
  [root_call]. *)
From S2P Require Import Prelude StateExn CppString.
Local Open Scope string_scope.
Local Open Scope list_scope.
Local Open Scope Z_scope.

(** ** Clients *)

Inductive LockerLanguage := CPP | JAVA | CPP_6 | JAVA_6.
#[export] Instance LockerLanguage_eq : EqDecision LockerLanguage.
Proof. solve_decision. Defined.

Record client_addr := mkClient {
  client_ident : bool;
  client_ip : string;
  client_lang : LockerLanguage;
  client_pid : Z;
  java_main_class : string;
  java_ident : Z * Z;
}.
#[export] Instance client_addr_eq : EqDecision client_addr.
Proof. solve_decision. Defined.

(** [operator==] and [operator!=]. *)
Definition same_client (a b : client_addr) : bool :=
  if negb (eqb (client_ident a) (client_ident b)) then false
  else if negb (bool_decide (client_lang a = client_lang b)) then false
  else if bool_decide (client_lang a = CPP) || bool_decide (client_lang a = CPP_6) then
    if negb (client_pid a =? client_pid b) then false
    else bool_decide (client_ip a = client_ip b)
  else
    if negb (fst (java_ident a) =? fst (java_ident b)) then false
    else snd (java_ident a) =? snd (java_ident b).
Definition other_client (a b : client_addr) : bool :=
  if negb (eqb (client_ident a) (client_ident b)) then true
  else if negb (bool_decide (client_lang a = client_lang b)) then true
  else if bool_decide (client_lang a = CPP) || bool_decide (client_lang a = CPP_6) then
    if negb (client_pid a =? client_pid b) then true
    else negb (bool_decide (client_ip a = client_ip b))
  else
    if negb (fst (java_ident a) =? fst (java_ident b)) then true
    else negb (snd (java_ident a) =? snd (java_ident b)).

(** ** The state of a device *)

Record LockSt := mkLock {
  device_locked : bool;
  locker_client : option client_addr;
  old_locker_client : option client_addr;
  locking_date : Z;
  lock_validity : Z;
  lock_ctr : Z;
  root_calls : list (bool * Z * string);
}.

Definition not_locked : LockSt := mkLock false None None 0 0 0 [].

Section Device.
(** The name of the device, the root device of each of its forwarded attributes, the
    call to one of them (lock or not, validity) and the commands allowed by the class. *)
Context (dev_name : string) (fwd_devs : list string) (root_call : bool → Z → string → outcome unit)
  (allowed_cmds : list string).
Implicit Types s : LockSt.

Definition root_devs : list string :=
  foldl (λ l d, if bool_decide (d ∈ l) then l else l ++ [d]) [] fwd_devs.

Definition add_call (c : bool * Z * string) s : LockSt :=
  mkLock (device_locked s) (locker_client s) (old_locker_client s) (locking_date s) (lock_validity s) (lock_ctr s)
    (root_calls s ++ [c]).
Fixpoint call_roots (validity : Z) (lock_action : bool) (l : list string) : SM LockSt unit :=
  match l with
  | [] => mret tt
  | d :: l =>
      modify (add_call (lock_action, validity, d));;
      lift (root_call lock_action validity d);; call_roots validity lock_action l
  end.
Definition lock_root_devices (validity : Z) (lock_action : bool) : SM LockSt unit :=
  call_roots validity lock_action root_devs.
Definition get_with_fwd_att : bool := negb (bool_decide (fwd_devs = [])).

Definition valid_lock (now : Z) s : bool := now <=? locking_date s + lock_validity s.

Definition locked_by_other {A} (d o : string) : SM LockSt A := throw "API_DeviceLocked" d o.

Definition free (forced : bool) s : LockSt :=
  mkLock false None (if forced then locker_client s else old_locker_client s) (locking_date s) (lock_validity s) 0
    (root_calls s).
Definition basic_unlock (forced : bool) : SM LockSt unit :=
  modify (free forced);; when_ get_with_fwd_att (lock_root_devices 0 false).

Definition take_lock (cl : client_addr) (now validity : Z) s : LockSt :=
  mkLock true (Some (default cl (locker_client s))) (old_locker_client s) now validity (lock_ctr s + 1) (root_calls s).
Definition lock (cl : client_addr) (validity now : Z) : SM LockSt unit :=
  s ← get;
  when_ (device_locked s)
    (if valid_lock now s then
       l ← lift (deref (locker_client s));
       when_ (other_client cl l)
         (locked_by_other ("Device " +:+ dev_name +:+ " is already locked by another client") "DeviceImpl::lock")
     else basic_unlock false);;
  modify (take_lock cl now validity);;
  when_ get_with_fwd_att (lock_root_devices validity true).

Definition set_date (now : Z) s : LockSt :=
  mkLock true (locker_client s) (old_locker_client s) now (lock_validity s) (lock_ctr s) (root_calls s).
Definition not_locked_error {A} : SM LockSt A :=
  throw "API_DeviceNotLocked" (dev_name +:+ ": Device " +:+ dev_name +:+ " is not locked. Can't re-lock it")
    "DeviceImpl::relock".
Definition relock (cl : client_addr) (now : Z) : SM LockSt unit :=
  s ← get;
  if device_locked s then
    if valid_lock now s then
      l ← lift (deref (locker_client s));
      when_ (other_client cl l)
        (locked_by_other (dev_name +:+ ": Device " +:+ dev_name +:+ " is already locked by another client")
           "DeviceImpl::relock");;
      modify (set_date now)
    else not_locked_error
  else not_locked_error.

(** [client] is [get_client_ident]: null out of a request. *)
Definition dec_ctr s : LockSt :=
  mkLock (device_locked s) (locker_client s) (old_locker_client s) (locking_date s) (lock_validity s)
    (if 0 <? lock_ctr s then lock_ctr s - 1 else lock_ctr s) (root_calls s).
Definition unlock (forced : bool) (client : option client_addr) (now : Z) : SM LockSt Z :=
  s ← get;
  when_ (device_locked s && valid_lock now s && negb forced)
    (cl ← lift (deref client);
     l ← lift (deref (locker_client s));
     when_ (other_client cl l)
       (locked_by_other ("Device " +:+ dev_name +:+ " is locked by another client, can't unlock it")
          "DeviceImpl::unlock"));;
  modify dec_ctr;;
  s ← get;
  when_ ((lock_ctr s <=? 0) || forced) (basic_unlock forced);;
  s ← get;
  mret (lock_ctr s).

Definition throw_locked_exception {A} (meth : string) : SM LockSt A :=
  locked_by_other ("Device " +:+ dev_name +:+ " is locked by another client") ("Device_Impl::" +:+ meth).

Definition is_command_allowed (cmd : string) : bool := bool_decide (tolower cmd ∈ allowed_cmds).
Definition refuse (meth : string) (cmd : option string) : SM LockSt unit :=
  match cmd with
  | Some cmd => when_ (negb (is_command_allowed cmd)) (throw_locked_exception meth)
  | None => throw_locked_exception meth
  end.
Definition forget_old s : LockSt :=
  mkLock (device_locked s) (locker_client s) None (locking_date s) (lock_validity s) (lock_ctr s) (root_calls s).

(** [check_lock], at the start of the requests that change the device. *)
Definition check_lock (meth : string) (cmd : option string) (client : option client_addr) (now : Z) : SM LockSt unit :=
  s ← get;
  if device_locked s then
    if valid_lock now s then
      cl ← lift (deref client);
      when_ (negb (client_ident cl)) (refuse meth cmd);;
      l ← lift (deref (locker_client s));
      when_ (other_client cl l) (refuse meth cmd)
    else basic_unlock false
  else
    match old_locker_client s with
    | None => mret tt
    | Some old =>
        cl ← lift (deref client);
        when_ (same_client cl old)
          (throw "API_DeviceUnlocked" ("Device " +:+ dev_name +:+ " has been unlocked by an administrative client!!!")
             ("Device_Impl::" +:+ meth));;
        modify forget_old
    end.

(** A [DevULong64] in two [DevLong]. *)
Definition to_long (x : Z) : Z := let x := x mod 2 ^ 32 in if x <? 2 ^ 31 then x else x - 2 ^ 32.
Definition high_long (x : Z) : Z := to_long (Z.shiftr (Z.land x (0xFFFFFFFF * 2 ^ 32)) 32).
Definition low_long (x : Z) : Z := to_long (Z.land x 0xFFFFFFFF).

(** [lock_status]: the six numbers, the address and the class of the locker. *)
Definition lock_status (now : Z) : SM LockSt (list Z * string * string) :=
  let free_status := ([0; 0; 0; 0; 0; 0], "Not defined", "Not defined") in
  s ← get;
  if device_locked s then
    if valid_lock now s then
      l ← lift (deref (locker_client s));
      mret (if bool_decide (client_lang l = JAVA) then
              ([1; client_pid l; high_long (fst (java_ident l)); low_long (fst (java_ident l));
                high_long (snd (java_ident l)); low_long (snd (java_ident l))], client_ip l, java_main_class l)
            else ([1; client_pid l; 0; 0; 0; 0], client_ip l, "Not defined"))
    else basic_unlock false;; mret free_status
  else mret free_status.

Definition set_locking_param (cl old_cl : option client_addr) (date ctr valid : Z) s : LockSt :=
  mkLock true cl old_cl date valid ctr (root_calls s).
End Device.
