(* ===== verification/LockTheory.v ===== *)
(** * Properties of device locking

  The invariant of a lock, mutual exclusion of the clients over any series of
  requests, nesting, expiration, the unlocking by an administrator, and the
  identification of the locker that a client reads back. *)
From S2P Require Import Prelude StateExn CppString Locking.
Local Open Scope string_scope.
Local Open Scope list_scope.
Local Open Scope Z_scope.

(** ** Identity of clients *)

Lemma other_is_not_same a b : other_client a b = negb (same_client a b).
Proof. unfold other_client, same_client. by repeat case_match. Qed.

#[export] Instance same_client_equiv : Equivalence (λ a b, same_client a b = true).
Proof.
  assert (H : ∀ a b, same_client a b = true ↔ client_ident a = client_ident b ∧ client_lang a = client_lang b ∧
    if bool_decide (client_lang a = CPP) || bool_decide (client_lang a = CPP_6)
    then client_pid a = client_pid b ∧ client_ip a = client_ip b else java_ident a = java_ident b).
  { intros a b. unfold same_client.
    destruct (eqb (client_ident a) (client_ident b)) eqn:E1; simpl; [apply eqb_prop in E1|apply eqb_false_iff in E1; naive_solver].
    case_bool_decide as E2; simpl; [|naive_solver]. destruct (_ || _).
    - destruct (Z.eqb_spec (client_pid a) (client_pid b)); simpl; [|naive_solver]. rewrite bool_decide_eq_true. naive_solver.
    - destruct (java_ident a), (java_ident b); simpl.
      destruct (Z.eqb_spec z z1), (Z.eqb_spec z0 z2); simpl; naive_solver. }
  split.
  - intros a. apply H. by destruct (_ || _).
  - intros a b (H1 & H2 & H3)%H. apply H. rewrite <- H2. split; [done|]. split; [done|].
    destruct (_ || _); [by destruct H3|done].
  - intros a b c (H1 & H2 & H3)%H (H4 & H5 & H6)%H. apply H. rewrite <- H2 in H5, H6.
    split; [congruence|]. split; [congruence|]. destruct (_ || _); [|congruence]. destruct H3, H6. split; congruence.
Qed.

Section Theory.
Context (dev_name : string) (fwd_devs : list string) (root_call : bool → Z → string → outcome unit)
  (allowed_cmds : list string).
Context (root_ok : ∀ b v d, root_call b v d ≠ Undef).
Implicit Types s : LockSt.

(** ** The invariant *)

Record lock_ok s : Prop := {
  lo_locked : device_locked s = true → is_Some (locker_client s) ∧ 0 < lock_ctr s;
  lo_free : device_locked s = false → locker_client s = None ∧ lock_ctr s = 0;
}.

(** The calls to the root devices change nothing else, even when one throws. *)
Definition same_lock s s' : Prop := ∃ calls, s' =
  mkLock (device_locked s) (locker_client s) (old_locker_client s) (locking_date s) (lock_validity s) (lock_ctr s) calls.

Lemma same_lock_refl s : same_lock s s.
Proof. exists (root_calls s). by destruct s. Qed.
Lemma same_lock_ok s s' : same_lock s s' → lock_ok s → lock_ok s'.
Proof. intros [c ->] [H1 H2]. by split. Qed.
Lemma same_lock_trans s1 s2 s3 : same_lock s1 s2 → same_lock s2 s3 → same_lock s1 s3.
Proof. intros [c1 ->] [c2 ->]. by eexists. Qed.

Lemma wp_roots s v b (Q : LockSt → exn + unit → Prop) :
  (∀ s' r, same_lock s s' → (fwd_devs = [] → s' = s ∧ r = inr tt) → Q s' r) →
  wp (when_ (get_with_fwd_att fwd_devs) (lock_root_devices fwd_devs root_call v b)) s Q.
Proof using root_ok.
  intros HQ. unfold get_with_fwd_att. case_bool_decide as Hf; simpl.
  - apply wp_ret, HQ; [apply same_lock_refl|done].
  - assert (H : ∀ l s0, same_lock s s0 → wp (call_roots root_call v b l) s0 Q).
    { intros l. induction l as [|d l IH]; intros s0 H0; simpl; [by apply HQ|].
      wp_step. wp_step. wp_step. assert (H1 : same_lock s (add_call (b, v, d) s0))
        by (eapply same_lock_trans; [exact H0|by eexists]).
      apply wp_lift; [apply root_ok|intros _ _; by apply IH|intros e _; by apply HQ]. }
    apply H, same_lock_refl.
Qed.

Lemma free_ok b s : lock_ok (free b s).
Proof. by split. Qed.
Lemma take_ok cl now v s : 0 <= lock_ctr s → lock_ok (take_lock cl now v s).
Proof. split; simpl; [|done]. intros _. split; [by eexists|lia]. Qed.
Lemma lock_ok_ctr s : lock_ok s → 0 <= lock_ctr s.
Proof. intros [H1 H2]. destruct (device_locked s); [destruct H1; [done|lia]|destruct H2; [done|lia]]. Qed.

(** ** Requests *)

Inductive Request :=
  | RLock (cl : client_addr) (validity : Z)
  | RRelock (cl : client_addr)
  | RUnlock (forced : bool) (cl : client_addr)
  | RCheck (meth : string) (cmd : option string) (cl : client_addr)
  | RStatus.

Definition serve (r : Request) (now : Z) : SM LockSt unit :=
  match r with
  | RLock cl v => lock dev_name fwd_devs root_call cl v now
  | RRelock cl => relock dev_name cl now
  | RUnlock f cl => unlock dev_name fwd_devs root_call f (Some cl) now;; mret tt
  | RCheck m c cl => check_lock dev_name fwd_devs root_call allowed_cmds m c (Some cl) now
  | RStatus => lock_status fwd_devs root_call now;; mret tt
  end.

Lemma wp_basic_unlock b s (Q : LockSt → exn + unit → Prop) :
  (∀ s' r, same_lock (free b s) s' → (fwd_devs = [] → s' = free b s ∧ r = inr tt) → Q s' r) →
  wp (basic_unlock fwd_devs root_call b) s Q.
Proof using root_ok. intros HQ. unfold basic_unlock. wp_step. wp_step. by apply wp_roots. Qed.

(** The locker of a locked device. *)
Lemma wp_locker s (Q : LockSt → exn + client_addr → Prop) :
  lock_ok s → device_locked s = true → (∀ l, locker_client s = Some l → Q s (inr l)) →
  wp (lift (deref (locker_client s))) s Q.
Proof. intros [H _] Hl HQ. destruct (H Hl) as [[l El] _]. rewrite El. apply HQ, El. Qed.

Lemma wp_refuse meth cmd s (Q : LockSt → exn + unit → Prop) :
  (match cmd with Some c => is_command_allowed allowed_cmds c = false | None => True end →
   ∀ x, Q s (inl (DevFailed [mkDevError "API_DeviceLocked" ERR ("Device " +:+ dev_name +:+ " is locked by another client") x]))) →
  (match cmd with Some c => is_command_allowed allowed_cmds c = true | None => False end → Q s (inr tt)) →
  wp (refuse dev_name allowed_cmds meth cmd) s Q.
Proof.
  intros H1 H2. unfold refuse, throw_locked_exception, locked_by_other. destruct cmd as [c|]; [|by wp_step; apply H1].
  wp_step; [wp_step; apply H1|apply H2]; destruct (is_command_allowed allowed_cmds c); done.
Qed.

(** What every operation keeps. *)
Abbreviation keeps_ok m s := (wp m s (λ s' _, lock_ok s')).

Lemma freed_ok b s s' : same_lock (free b s) s' → lock_ok s'.
Proof. intros H. eapply same_lock_ok; [exact H|apply free_ok]. Qed.

Lemma lock_keeps cl v now s : lock_ok s → keeps_ok (lock dev_name fwd_devs root_call cl v now) s.
Proof using root_ok.
  intros Hs. pose proof (lock_ok_ctr s Hs) as Hc. unfold lock, locked_by_other.
  assert (Htake : ∀ s', 0 <= lock_ctr s' → keeps_ok (modify (take_lock cl now v) ≫= λ _,
                    when_ (get_with_fwd_att fwd_devs) (lock_root_devices fwd_devs root_call v true)) s').
  { intros s' H'. do 2 wp_step. apply wp_roots. intros s'' _ H _. eapply same_lock_ok; [exact H|by apply take_ok]. }
  do 2 wp_step. wp_step. wp_step; [|by apply Htake]. wp_step.
  - wp_step. apply wp_locker; [done..|]. intros l _. wp_step; [by wp_step|by apply Htake].
  - apply wp_basic_unlock. intros s' [e|[]] H' _; [by eapply freed_ok|]. by eapply Htake, lock_ok_ctr, freed_ok.
Qed.

Lemma relock_keeps cl now s : lock_ok s → keeps_ok (relock dev_name cl now) s.
Proof.
  intros Hs. unfold relock, locked_by_other, not_locked_error. do 2 wp_step. wp_step; [|by wp_step].
  wp_step; [|by wp_step]. wp_step. apply wp_locker; [done..|]. intros l Hl. wp_step. wp_step; [by wp_step|]. wp_step.
  destruct Hs as [H1 H2]. split; simpl; [intros _; split; [by rewrite Hl|by apply H1]|done].
Qed.

Lemma unlock_tail_keeps f s :
  lock_ok s → keeps_ok (modify dec_ctr ≫= λ _, get ≫= λ s, when_ ((lock_ctr s <=? 0) || f) (basic_unlock fwd_devs root_call f)
                          ≫= λ _, get ≫= λ s, mret (lock_ctr s)) s.
Proof using root_ok.
  intros Hs. do 2 wp_step. do 2 wp_step. wp_step. wp_step.
  - apply wp_basic_unlock. intros s' [e|[]] H' _; [by eapply freed_ok|]. wp_step. wp_step. wp_step. by eapply freed_ok.
  - wp_step. wp_step. wp_step. apply orb_false_iff in H as [H _]. propb. simpl in H.
    destruct Hs as [H1 H2]. split; simpl; intros Hl.
    + destruct (H1 Hl) as [Hlk _]. split; [done|]. destruct (0 <? lock_ctr s); lia.
    + destruct (H2 Hl) as [Hlk Hz]. rewrite Hz in H. simpl in H. lia.
Qed.

Lemma unlock_keeps f cl now s : lock_ok s → keeps_ok (unlock dev_name fwd_devs root_call f (Some cl) now) s.
Proof using root_ok.
  intros Hs. unfold unlock, locked_by_other. do 2 wp_step. wp_step.
  wp_step; [|by apply unlock_tail_keeps]. wp_step. apply wp_lift; [done|intros cl' [= <-]|done]. wp_step.
  apply andb_true_iff in H as [[H _]%andb_true_iff _]. apply wp_locker; [done..|]. intros l _.
  wp_step; [by wp_step|by apply unlock_tail_keeps].
Qed.

Lemma check_keeps m c cl now s :
  lock_ok s → keeps_ok (check_lock dev_name fwd_devs root_call allowed_cmds m c (Some cl) now) s.
Proof using root_ok.
  intros Hs. unfold check_lock. do 2 wp_step. wp_step.
  - wp_step.
    + wp_step. apply wp_lift; [done|intros cl' [= <-]|done]. wp_step.
      assert (Hrest : keeps_ok (lift (deref (locker_client s)) ≫= λ l,
                        when_ (other_client cl l) (refuse dev_name allowed_cmds m c)) s).
      { wp_step. apply wp_locker; [done..|]. intros l _. wp_step; [|done]. by apply wp_refuse. }
      wp_step; [apply wp_refuse; intros; [done|exact Hrest]|exact Hrest].
    + apply wp_basic_unlock. intros s' r H _. by eapply freed_ok.
  - wp_step; [|by wp_step]. wp_step. apply wp_lift; [done|intros cl' [= <-]|done]. wp_step. wp_step; [by wp_step|].
    wp_step. destruct Hs as [H1 H2]. split; simpl; [congruence|done].
Qed.

Lemma status_keeps now s : lock_ok s → keeps_ok (lock_status fwd_devs root_call now) s.
Proof using root_ok.
  intros Hs. unfold lock_status. do 2 wp_step. wp_step; [|by wp_step]. wp_step.
  - wp_step. apply wp_locker; [done..|]. intros l _. by wp_step.
  - wp_step. apply wp_basic_unlock. intros s' [e|[]] H' _; [by eapply freed_ok|]. wp_step. by eapply freed_ok.
Qed.

(** whatever a client asks, and whether the request succeeds or throws, the lock of
    a device stays consistent: a locked device has a locker and a positive count, a free
    device has none and a count of zero; no null pointer is ever followed. *)
Theorem lock_requests_ok s r now : lock_ok s → wp (serve r now) s (λ s' _, lock_ok s').
Proof using root_ok.
  intros Hs. destruct r; simpl.
  - by apply lock_keeps.
  - by apply relock_keeps.
  - wp_step. eapply wp_mono; [by apply unlock_keeps|]. by intros s' [e|z] H.
  - by apply check_keeps.
  - wp_step. eapply wp_mono; [by apply status_keeps|]. by intros s' [e|z] H.
Qed.

(** ** Mutual exclusion *)

Fixpoint serve_all (reqs : list (Request * Z)) s : option (LockSt * list (exn + unit)) :=
  match reqs with
  | [] => Some (s, [])
  | (r, now) :: reqs =>
      '(s, x) ← serve r now s; '(s, l) ← serve_all reqs s; Some (s, x :: l)
  end.

Definition holds (c : client_addr) (deadline : Z) s : Prop :=
  device_locked s = true ∧ locker_client s = Some c ∧ locking_date s + lock_validity s = deadline.

(** The requests of the other clients that a lock must stop. *)
Definition foreign (c : client_addr) (r : Request) : Prop :=
  match r with
  | RLock cl _ | RRelock cl | RUnlock false cl => same_client cl c = false
  | RUnlock true _ => False
  | RCheck _ cmd cl => same_client cl c = false ∧
      match cmd with Some cmd => is_command_allowed allowed_cmds cmd = false | None => True end
  | RStatus => True
  end.
Definition denied (r : Request) (x : exn + unit) : Prop :=
  match r with
  | RStatus => x = inr tt
  | _ => ∃ e, x = inl (DevFailed [e]) ∧ reason e = "API_DeviceLocked"
  end.

Lemma valid_holds c deadline now s : holds c deadline s → now <= deadline → valid_lock now s = true.
Proof. intros (_ & _ & <-) H. by apply Z.leb_le. Qed.

Lemma wp_owner c deadline s (Q : LockSt → exn + client_addr → Prop) :
  holds c deadline s → Q s (inr c) → wp (lift (deref (locker_client s))) s Q.
Proof. intros (_ & -> & _) H. done. Qed.

Lemma foreign_denied c deadline r now s :
  holds c deadline s → foreign c r → now <= deadline → wp (serve r now) s (λ s' x, s' = s ∧ denied r x).
Proof.
  intros Hh Hf Hn. pose proof (valid_holds _ _ _ _ Hh Hn) as Hv. pose proof Hh as (Hl & Hc & _).
  assert (Hother : ∀ cl, same_client cl c = false → other_client cl c = true) by (intros cl H; by rewrite other_is_not_same, H).
  destruct r as [cl v|cl|[|] cl|m cmd cl|]; simpl in Hf; [| |done| | |]; simpl.
  - unfold lock, locked_by_other. do 2 wp_step. rewrite Hl, Hv. wp_step. wp_step; [|done]. wp_step. eapply wp_owner; [done|].
    rewrite (Hother _ Hf). wp_step; [|done]. wp_step. eauto.
  - unfold relock, locked_by_other. do 2 wp_step. rewrite Hl, Hv. cbv iota. wp_step. eapply wp_owner; [done|].
    wp_step. rewrite (Hother _ Hf). wp_step; [|done]. wp_step. eauto.
  - unfold unlock, locked_by_other. wp_step. do 2 wp_step. rewrite Hl, Hv. wp_step. wp_step; [|done].
    wp_step. apply wp_lift; [done|intros cl' [= <-]|done]. wp_step.
    eapply wp_owner; [done|]. rewrite (Hother _ Hf). wp_step; [|done]. wp_step. eauto.
  - unfold check_lock. do 2 wp_step. rewrite Hl, Hv. cbv iota. destruct Hf as [Hf Ha]. wp_step.
    apply wp_lift; [done|intros cl' [= <-]|done].
    assert (Hd : ∀ Q : LockSt → exn + unit → Prop,
      (∀ x, Q s (inl (DevFailed [mkDevError "API_DeviceLocked" ERR ("Device " +:+ dev_name +:+ " is locked by another client") x]))) →
      wp (refuse dev_name allowed_cmds m cmd) s Q).
    { intros Q HQ. apply wp_refuse; [intros _ x; apply HQ|]. intros H. destruct cmd; [congruence|done]. }
    assert (Hrest : wp (lift (deref (locker_client s)) ≫= λ l, when_ (other_client cl l) (refuse dev_name allowed_cmds m cmd)) s
      (λ s' x, s' = s ∧ ∃ e, x = inl (DevFailed [e]) ∧ reason e = "API_DeviceLocked")).
    { wp_step. eapply wp_owner; [done|]. rewrite (Hother _ Hf). wp_step; [|done]. apply Hd. eauto. }
    wp_step. wp_step; [apply Hd; eauto|exact Hrest].
  - unfold lock_status. wp_step. do 2 wp_step. rewrite Hl, Hv. cbv iota. wp_step. eapply wp_owner; [done|]. by repeat wp_step.
Qed.

(** C10: mutual exclusion. While a client holds the lock of a device, and until the lock
    expires, no series of requests of the other clients has an effect on the lock: locking,
    renewing, unlocking without force, and every request that changes the device, are each
    answered API_DeviceLocked; to ask for the state of the lock succeeds. A forced unlocking is
    not among these requests: it ends the lock of another client, which is what it is for (see
    [admin_unlock_notified]); nor are the commands that the class of the device allows on a
    locked device. *)
Theorem lock_excludes c deadline s reqs :
  holds c deadline s →
  Forall (λ rt : Request * Z, foreign c rt.1 ∧ rt.2 <= deadline) reqs →
  ∃ res, serve_all reqs s = Some (s, res) ∧ Forall2 (λ (rt : Request * Z) x, denied rt.1 x) reqs res.
Proof.
  intros Hh. induction 1 as [|[r now] reqs [Hf Hn] H IH]; [by exists []|]. simpl in Hf, Hn |- *.
  pose proof (proj1 (wp_run _ _ _) (foreign_denied _ _ _ _ _ Hh Hf Hn)) as (s' & x & -> & -> & Hx).
  destruct IH as (res & E & HF). simpl. rewrite E. simpl. exists (x :: res). split; [done|]. by constructor.
Qed.
End Theory.

(** ** Sequences of a client's own requests

  The root devices, if any, accept the calls. *)
Section Owner.
Context (dev_name : string) (fwd_devs : list string) (root_call : bool → Z → string → outcome unit)
  (allowed_cmds : list string).
Context (root_fine : ∀ b v d, root_call b v d = Ok tt).
Implicit Types s : LockSt.
Abbreviation serves r now s := (serve dev_name fwd_devs root_call allowed_cmds r now s).
Abbreviation serves_all reqs s := (serve_all dev_name fwd_devs root_call allowed_cmds reqs s).

Lemma roots_fine s v b :
  ∃ s', (when_ (get_with_fwd_att fwd_devs) (lock_root_devices fwd_devs root_call v b)) s = Some (s', inr tt) ∧
    same_lock s s'.
Proof using root_fine.
  unfold get_with_fwd_att. case_bool_decide; simpl; [exists s; split; [done|apply same_lock_refl]|].
  unfold lock_root_devices. generalize (root_devs fwd_devs) as l. intros l. revert s.
  induction l as [|d l IH]; intros s; simpl; [exists s; split; [done|apply same_lock_refl]|].
  erewrite run_bind by done. rewrite root_fine. erewrite run_bind by done.
  destruct (IH (add_call (b, v, d) s)) as (s' & -> & H'). exists s'. split; [done|].
  eapply same_lock_trans; [|exact H']. by eexists.
Qed.

(** The lock of [c] with a count of [n] and the deadline [d]. *)
Definition locked_by (c : client_addr) (n d : Z) s : Prop :=
  device_locked s = true ∧ locker_client s = Some c ∧ lock_ctr s = n ∧ locking_date s + lock_validity s = d.
Definition free_lock s : Prop := device_locked s = false ∧ locker_client s = None ∧ lock_ctr s = 0.

Lemma locked_by_same c n d s s' : same_lock s s' → locked_by c n d s → locked_by c n d s'.
Proof. by intros [l ->]. Qed.

Lemma take_runs cl v now s :
  ∃ s', (modify (take_lock cl now v);; when_ (get_with_fwd_att fwd_devs) (lock_root_devices fwd_devs root_call v true)) s =
          Some (s', inr tt) ∧ locked_by (default cl (locker_client s)) (lock_ctr s + 1) (now + v) s' ∧
        old_locker_client s' = old_locker_client s.
Proof using root_fine.
  erewrite run_bind by done. destruct (roots_fine (take_lock cl now v s) v true) as (s' & -> & H).
  exists s'. split; [done|]. split; [by eapply locked_by_same|]. by destruct H as [l ->].
Qed.

Lemma basic_unlock_runs f s :
  ∃ s', basic_unlock fwd_devs root_call f s = Some (s', inr tt) ∧ same_lock (free f s) s'.
Proof using root_fine. unfold basic_unlock. erewrite run_bind by done. apply roots_fine. Qed.

Lemma lock_free cl v now s :
  free_lock s → ∃ s', serves (RLock cl v) now s = Some (s', inr tt) ∧ locked_by cl 1 (now + v) s'.
Proof using root_fine.
  intros (Hl & Hc & Hn). simpl. unfold lock. erewrite run_bind by done. rewrite Hl. erewrite run_bind by done.
  destruct (take_runs cl v now s) as (s' & -> & H & _). rewrite Hc, Hn in H. by exists s'.
Qed.

Lemma lock_again c n d cl v now s :
  locked_by c n d s → now <= d → same_client cl c = true →
  ∃ s', serves (RLock cl v) now s = Some (s', inr tt) ∧ locked_by c (n + 1) (now + v) s'.
Proof using root_fine.
  intros (Hl & Hc & Hn & Hd) Hnow Hs. simpl. unfold lock. erewrite run_bind by done. rewrite Hl.
  unfold valid_lock. rewrite Hd, (proj2 (Z.leb_le _ _)) by done.
  erewrite run_bind. 2: { unfold when_. erewrite run_bind by (by rewrite Hc). by rewrite other_is_not_same, Hs. }
  destruct (take_runs cl v now s) as (s' & -> & H & _). rewrite Hc, Hn in H. by exists s'.
Qed.

Lemma unlock_runs c n d cl now s :
  locked_by c (n + 1) d s → 0 <= n → now <= d → same_client cl c = true →
  ∃ s', serves (RUnlock false cl) now s = Some (s', inr tt) ∧
    if n =? 0 then free_lock s' else locked_by c n d s'.
Proof using root_fine.
  intros (Hl & Hc & Hn & Hd) Hpos Hnow Hs. simpl. unfold unlock.
  assert (E : ∀ z s1, (modify dec_ctr ≫= λ _, get ≫= λ s, when_ ((lock_ctr s <=? 0) || false) (basic_unlock fwd_devs root_call false)
                 ≫= λ _, get ≫= λ s, mret (lock_ctr s)) s = Some (s1, inr z) →
              (unlock dev_name fwd_devs root_call false (Some cl) now;; mret tt) s = Some (s1, inr tt)).
  { intros z s1 E. erewrite run_bind; [done|]. unfold unlock. erewrite run_bind by done.
    rewrite Hl. unfold valid_lock. rewrite Hd, (proj2 (Z.leb_le _ _)) by done. simpl negb. simpl andb.
    erewrite run_bind; [exact E|]. unfold when_. erewrite run_bind by done. erewrite run_bind by (by rewrite Hc).
    by rewrite other_is_not_same, Hs. }
  assert (Hdec : lock_ctr (dec_ctr s) = n) by (simpl; rewrite Hn, (proj2 (Z.ltb_lt _ _)); lia).
  destruct (Z.eqb_spec n 0) as [Hz|Hz].
  - destruct (basic_unlock_runs false (dec_ctr s)) as (s' & Hb & [l Hsame]). exists s'. split; [|by rewrite Hsame].
    eapply E. erewrite run_bind by done. erewrite run_bind by done. rewrite Hdec, Hz.
    erewrite run_bind by exact Hb. by erewrite run_bind by done.
  - exists (dec_ctr s). split; [|by split; [|split]]. eapply E. erewrite run_bind by done. erewrite run_bind by done.
    rewrite Hdec, (proj2 (Z.leb_gt _ _)) by lia. erewrite run_bind by done. by erewrite run_bind by done.
Qed.

Lemma serve_all_app l1 l2 s s1 s2 r1 r2 :
  serves_all l1 s = Some (s1, r1) → serves_all l2 s1 = Some (s2, r2) → serves_all (l1 ++ l2) s = Some (s2, r1 ++ r2).
Proof.
  revert s r1. induction l1 as [|[r now] l1 IH]; intros s r1 H1 H2; simpl in *; [by injection H1 as -> <-|].
  destruct (serves r now s) as [[sa x]|]; [|done]. simpl in *.
  destruct (serves_all l1 sa) as [[sb l]|] eqn:E; [|done]. simpl in *. injection H1 as -> <-.
  by rewrite (IH sa l E H2).
Qed.

Lemma lock_more k cl c n v now s :
  locked_by c n (now + v) s → 0 <= v → same_client cl c = true →
  ∃ s', serves_all (replicate k (RLock cl v, now)) s = Some (s', replicate k (inr tt)) ∧
    locked_by c (n + Z.of_nat k) (now + v) s'.
Proof using root_fine.
  revert n s. induction k as [|k IH]; intros n s H Hv Hs.
  { exists s. split; [done|]. by replace (n + Z.of_nat 0) with n by lia. }
  destruct (lock_again c n (now + v) cl v now s H ltac:(lia) Hs) as (s1 & E & H1).
  destruct (IH (n + 1) s1 H1 Hv Hs) as (s' & E' & H'). exists s'. cbn [replicate serve_all]. rewrite E. cbn.
  rewrite E'. split; [done|]. by replace (n + Z.of_nat (S k)) with (n + 1 + Z.of_nat k) by lia.
Qed.

Lemma unlock_more k cl c n d now s :
  locked_by c (Z.of_nat (n + k)) d s → (0 < n + k)%nat → now <= d → same_client cl c = true →
  ∃ s', serves_all (replicate k (RUnlock false cl, now)) s = Some (s', replicate k (inr tt)) ∧
    if decide (n = 0%nat) then free_lock s' else locked_by c (Z.of_nat n) d s'.
Proof using root_fine.
  revert s. induction k as [|k IH]; intros s H Hpos Hn Hs.
  { exists s. rewrite Nat.add_0_r in *. split; [done|]. case_decide; [lia|done]. }
  replace (Z.of_nat (n + S k)) with (Z.of_nat (n + k) + 1) in H by lia.
  destruct (unlock_runs c (Z.of_nat (n + k)) d cl now s H ltac:(lia) Hn Hs) as (s1 & E & H1).
  cbn [replicate serve_all]. rewrite E. cbn. destruct (Z.eqb_spec (Z.of_nat (n + k)) 0) as [Hz|Hz].
  - assert (k = 0%nat) as -> by lia. assert (n = 0%nat) as -> by lia. by exists s1.
  - destruct (IH s1 H1 ltac:(lia) Hn Hs) as (s' & E' & H'). exists s'. by rewrite E'.
Qed.

(** locks nest.  After [n] locks of a free device by a client and [k] unlocks, the
    device is still locked by this client, with the count [n - k], as long as [k < n];
    it is free after as many unlocks as locks. *)
Theorem lock_nesting cl v now s (n k : nat) :
  free_lock s → (0 < n)%nat → (k <= n)%nat → 0 <= v →
  ∃ s', serves_all (replicate n (RLock cl v, now) ++ replicate k (RUnlock false cl, now)) s =
          Some (s', replicate n (inr tt) ++ replicate k (inr tt)) ∧
    if decide (k = n) then free_lock s' else locked_by cl (Z.of_nat (n - k)) (now + v) s'.
Proof using root_fine.
  intros Hf Hn Hk Hv. assert (Hs : same_client cl cl = true) by apply same_client_equiv.
  destruct n as [|n]; [lia|].
  destruct (lock_free cl v now s Hf) as (s1 & E1 & H1).
  destruct (lock_more n cl cl 1 v now s1 H1 Hv Hs) as (s2 & E2 & H2).
  replace (1 + Z.of_nat n) with (Z.of_nat ((S n - k) + k)) in H2 by lia.
  destruct (unlock_more k cl cl (S n - k) (now + v) now s2 H2 ltac:(lia) ltac:(lia) Hs) as (s' & E3 & H3).
  exists s'. split.
  - eapply serve_all_app; [|exact E3]. cbn [replicate serve_all]. rewrite E1. cbn. by rewrite E2.
  - repeat case_decide; try lia; done.
Qed.

(** a lock that has expired stops nobody: any client can then lock the device, for
    itself and with a count of one, and any request that checks the lock passes and
    frees the device. *)
Theorem lock_expires c n d s cl v now :
  locked_by c n d s → d < now →
  (∃ s', serves (RLock cl v) now s = Some (s', inr tt) ∧ locked_by cl 1 (now + v) s') ∧
  (∀ meth cmd, ∃ s', serves (RCheck meth cmd cl) now s = Some (s', inr tt) ∧ free_lock s').
Proof using root_fine.
  intros (Hl & Hc & Hn & Hd) Hnow. assert (Hv : valid_lock now s = false) by (unfold valid_lock; apply Z.leb_gt; lia).
  destruct (basic_unlock_runs false s) as (s1 & Hb & [l Hsame]).
  assert (Hfree : free_lock s1) by by rewrite Hsame. split.
  - destruct (take_runs cl v now s1) as (s' & E & H & _). destruct Hfree as (H1 & H2 & H3). rewrite H2, H3 in H.
    exists s'. split; [|done]. simpl. unfold lock. erewrite run_bind by done. rewrite Hl, Hv.
    erewrite run_bind; [exact E|exact Hb].
  - intros meth cmd. exists s1. split; [|done]. simpl. unfold check_lock. erewrite run_bind by done. by rewrite Hl, Hv.
Qed.

(** an administrator can free a device locked by somebody else; the next request of
    the former locker is refused with API_DeviceUnlocked, and this notice is kept until
    a request of another client, which passes, takes it away. *)
Theorem admin_unlock_notified c n d s adm now :
  locked_by c n d s →
  ∃ s', serves (RUnlock true adm) now s = Some (s', inr tt) ∧ free_lock s' ∧ old_locker_client s' = Some c ∧
    ∀ meth cmd cl now',
      if same_client cl c then ∃ e, serves (RCheck meth cmd cl) now' s' = Some (s', inl (DevFailed [e])) ∧
                                    reason e = "API_DeviceUnlocked"
      else serves (RCheck meth cmd cl) now' s' = Some (forget_old s', inr tt).
Proof using root_fine.
  intros (Hl & Hc & Hn & Hd). destruct (basic_unlock_runs true (dec_ctr s)) as (s' & Hb & [l Hsame]).
  exists s'. split.
  { simpl. erewrite run_bind; [reflexivity|]. unfold unlock. erewrite run_bind by done. rewrite andb_false_r.
    erewrite run_bind by done. erewrite run_bind by done. erewrite run_bind by done. rewrite orb_true_r.
    erewrite run_bind by exact Hb. by erewrite run_bind by done. }
  split; [by rewrite Hsame|]. split; [by rewrite Hsame; simpl|]. intros meth cmd cl now'.
  assert (Hl' : device_locked s' = false) by by rewrite Hsame.
  assert (Ho : old_locker_client s' = Some c) by by rewrite Hsame.
  assert (Hrun : serves (RCheck meth cmd cl) now' s' =
    (when_ (same_client cl c)
       (throw "API_DeviceUnlocked" ("Device " +:+ dev_name +:+ " has been unlocked by an administrative client!!!")
          ("Device_Impl::" +:+ meth));; modify forget_old) s').
  { simpl. unfold check_lock. erewrite run_bind by done. rewrite Hl', Ho. by erewrite run_bind by done. }
  rewrite Hrun. destruct (same_client cl c); [by eexists|done].
Qed.
End Owner.
