(* ===== verification/LockCmds.v ===== *)
(** * The locking commands of the admin device and the client's view of a lock

  LockDevice, UnLockDevice, ReLockDevices and DevLockStatus
  (src/src/server/dserverlock.cpp) over the devices of the server, [check_lock_owner]
  (dserver.cpp), and what [DeviceProxy] makes of the status it receives
  (src/src/client/devapi_base.cpp). *)
From Stdlib Require Import Ascii.
From S2P Require Import Prelude StateExn CppString Locking LockTheory.
Local Open Scope string_scope.
Local Open Scope list_scope.
Local Open Scope Z_scope.

Definition DATABASE_CLASS : string := "DataBase".

Section DServer.
(** The devices of the server: [get_device_by_name] of [Util], and the name, the class,
    the root devices and the allowed commands of each; [adm] is the admin device. *)
Context (get_device_by_name : string → exn + nat) (adm : nat)
  (dname cl_name : nat → string) (fwd_devs : nat → list string)
  (root_call : bool → Z → string → outcome unit).
Abbreviation Devs := (gmap nat LockSt).

Definition on_device {A} (i : nat) (m : SM LockSt A) : SM Devs A := λ ds,
  match ds !! i with
  | Some s => match m s with Some (s, r) => Some (<[i := s]> ds, r) | None => None end
  | None => None
  end.
Definition find_dev (nm : string) : SM Devs nat :=
  match get_device_by_name nm with inr i => mret i | inl e => lift (Exc e) end.

Definition no_ident {A} (o : string) : SM Devs A :=
  throw "API_CantGetClientIdent" "Cannot retrieve client identification" o.
Definition too_old {A} (d o : string) : SM Devs A := throw "API_ClientTooOld" d o.

Definition lock_device (nm : string) (validity : Z) (cl : option client_addr) (now : Z) : SM Devs unit :=
  match cl with
  | None => no_ident "DServer::lock_device"
  | Some cl =>
      when_ (negb (client_ident cl)) (too_old "Your client cannot lock devices." "DServer::lock_device");;
      when_ (bool_decide (tolower nm = tolower (dname adm)))
        (throw "API_DeviceUnlockable" "Impossible to lock device server administration device" "DServer::lock_device");;
      i ← find_dev nm;
      when_ (bool_decide (cl_name i = DATABASE_CLASS))
        (throw "API_DeviceUnlockable" "Impossible to lock database device" "DServer::lock_device");;
      on_device i (lock (dname i) (fwd_devs i) root_call cl validity now)
  end.

(** The count returned is the one of the device when there is only one. *)
Fixpoint un_lock_loop (first : bool) (names : list string) (forced : bool) (cl : client_addr) (now ctr : Z) : SM Devs Z :=
  match names with
  | [] => mret ctr
  | nm :: names =>
      ctr ← (if bool_decide (nm = dname adm) then on_device adm (s ← get; mret (lock_ctr s))
             else i ← find_dev nm; on_device i (unlock (dname i) (fwd_devs i) root_call forced (Some cl) now) : SM Devs Z);
      un_lock_loop false names forced cl now (if first then ctr else 0)
  end.
Definition un_lock_device (names : list string) (lval : Z) (cl : option client_addr) (now : Z) : SM Devs Z :=
  match cl with
  | None => no_ident "DServer::un_lock_device"
  | Some cl =>
      when_ (negb (client_ident cl) && (lval =? 0)) (too_old "Your client cannot un-lock devices." "DServer::un_lock_device");;
      un_lock_loop true names (negb (lval =? 0)) cl now 0
  end.

(** [catch(DevFailed &)]: the first error of the stack is kept. *)
Definition catch_failed (m : SM Devs unit) : SM Devs (option DevError) := λ ds,
  match m ds with
  | Some (ds, inr tt) => Some (ds, inr None)
  | Some (ds, inl (DevFailed (e :: _))) => Some (ds, inr (Some e))
  | Some (ds, inl (DevFailed [])) => None
  | Some (ds, inl e) => Some (ds, inl e)
  | None => None
  end.
(** A device that is not found: the error is noted, then the null pointer followed. *)
Fixpoint re_lock_loop (names : list string) (cl : client_addr) (now : Z) : SM Devs (list DevError) :=
  match names with
  | [] => mret []
  | nm :: names =>
      e ← match get_device_by_name nm with
          | inr i => catch_failed (on_device i (relock (dname i) cl now))
          | inl (DevFailed _) => lift Undef
          | inl e => lift (Exc e)
          end;
      l ← re_lock_loop names cl now;
      mret (match e with Some e => e :: l | None => l end)
  end.
Definition re_lock_devices (names : list string) (cl : option client_addr) (now : Z) : SM Devs unit :=
  match cl with
  | None => no_ident "DServer::re_lock_devices"
  | Some cl =>
      when_ (negb (client_ident cl)) (too_old "Your client cannot re_lock devices." "DServer::re_lock_devices");;
      errors ← re_lock_loop names cl now;
      when_ (negb (bool_decide (errors = []))) (lift (Exc (DevFailed errors)))
  end.

Definition dev_lock_status (nm : string) (now : Z) : SM Devs (list Z * string * string) :=
  i ← find_dev nm; on_device i (lock_status (fwd_devs i) root_call now).

(** [DServer::check_lock_owner]. *)
Definition check_lock_owner (i : nat) (cmd_name nm : string) (client : option client_addr) (now : Z) : SM Devs unit :=
  on_device i
    (s ← get;
     when_ (device_locked s && valid_lock now s)
       (cl ← lift (deref client);
        let refused := throw "API_DeviceLocked" ("Device " +:+ nm +:+ " is locked by another client."
                         +:+ " Your request is not allowed while a device is locked.") ("DServer::" +:+ cmd_name) in
        if client_ident cl then l ← lift (deref (locker_client s)); when_ (other_client cl l) refused
        else refused)).
End DServer.

(** ** The client *)

(** [DeviceProxy::get_locker_host]: the host in an address of omniORB. *)
Definition bad_address {A} : outcome A :=
  throw_exception "API_WrongLockingStatus" "Locker IP address returned by server is unvalid" "DeviceProxy::get_locker_host".
Definition find_or (sub s : string) (pos : nat) : outcome nat :=
  match find sub s pos with Some p => Ok p | None => bad_address end.
Definition TG_LOCAL_HOST : string := "localhost".
Definition get_locker_host (f_addr : string) : outcome string :=
  let ipv6 := bool_decide (is_Some (find "[" f_addr 0)) in
  if bool_decide (is_Some (find ":unix:" f_addr 0)) then Ok TG_LOCAL_HOST
  else
    pos ← find_or ":" f_addr 0;
    pos ← find_or ":" f_addr (pos + 1);
    if ipv6 then
      pos ← find_or ":" f_addr (pos + 1 + 3);
      ip_str ← substr f_addr (pos + 1) (len f_addr);
      pos ← find_or "]" ip_str 0;
      substr ip_str 0 pos
    else
      ip_str ← substr f_addr (pos + 1) (len f_addr);
      pos ← find_or ":" ip_str 0;
      substr ip_str 0 pos.

(** [DeviceProxy::get_locker], before the name of the host is looked up, and
    [is_locked_by_me]: [me] is the process identifier, [adrs] the addresses of the host. *)
Record LockerInfo := mkLockerInfo { ll : LockerLanguage; LockerPid : Z; UUID : list Z; locker_class : string; locker_ip : string }.
Definition get_locker (st : list Z * string * string) : outcome (option LockerInfo) :=
  let '(v_l, ip, cls) := st in
  locked ← vget v_l 0;
  if locked =? 0 then Ok None
  else
    pid ← vget v_l 1;
    full_ip ← get_locker_host ip;
    Ok (Some (if negb (pid =? 0) then mkLockerInfo CPP pid [] "Not defined" full_ip
              else mkLockerInfo JAVA 0 (take 4 (drop 2 v_l)) cls full_ip)).
Definition is_locked_by_me (me : Z) (adrs : list string) (st : list Z * string * string) : outcome bool :=
  let '(v_l, ip, _) := st in
  locked ← vget v_l 0;
  if locked =? 0 then Ok false
  else
  pid ← vget v_l 1;
  if negb (me =? pid) then Ok false
  else if negb (forallb (λ x, x =? 0) (take 4 (drop 2 v_l))) then Ok false
  else full_ip ← get_locker_host ip; Ok (bool_decide (full_ip = TG_LOCAL_HOST) || bool_decide (full_ip ∈ adrs)).

(** The identifier of 64 bits from two numbers of 32. *)
Definition from_longs (hi lo : Z) : Z := (hi mod 2 ^ 32) * 2 ^ 32 + lo mod 2 ^ 32.

(** ** Properties *)

(** A host and a port as numbers: the characters that the parser looks for, and those of
    the word unix, do not occur. *)
Definition plain (s : string) : Prop := Forall (λ a, a ∉ [":"; "["; "u"]%char) (chars s).
Definition address (host port : string) : string := "giop:tcp:" +:+ host +:+ ":" +:+ port.

Lemma plain_not a s : plain s → a ∈ [":"; "["; "u"]%char → a ∉ chars s.
Proof. unfold plain. rewrite Forall_forall. intros H Ha Hs. by apply (H a Hs). Qed.

Lemma locker_host (host port : string) : plain host → plain port → get_locker_host (address host port) = Ok host.
Proof.
  intros Hh Hp. unfold get_locker_host, address.
  assert (Habs : ∀ a p, a ∈ chars p → a ∈ ["["; "u"]%char → find p ("giop:tcp:" +:+ host +:+ ":" +:+ port) 0 = None).
  { intros a p Ha Hin. unfold find. cbn [Nat.leb]. rewrite str_drop_0, (find_at_absent a); [done|done|].
    rewrite !chars_app. pose proof (plain_not a host Hh ltac:(set_solver)). pose proof (plain_not a port Hp ltac:(set_solver)).
    simpl chars. set_solver. }
  rewrite (Habs "["%char "["), (Habs "u"%char ":unix:") by (simpl; set_solver).
  rewrite !bool_decide_eq_false_2 by (by intros [? ?]). unfold find_or, find.
  change ("giop:tcp:" +:+ host +:+ ":" +:+ port) with ("giop" +:+ String ":" ("tcp" +:+ String ":" (host +:+ ":" +:+ port))).
  set (f := host +:+ ":" +:+ port). assert (Hlen : forall n, (n <= 9)%nat →
    (n <=? len ("giop" +:+ String ":" ("tcp" +:+ String ":" f)))%nat = true).
  { intros n Hn. apply Nat.leb_le. simpl. lia. }
  rewrite !Hlen by lia. cbn [str_drop Nat.add fmap]. simpl.
assert (Hpre : String.prefix "" f = true) by by destruct f. rewrite Hpre. cbn.
  unfold substr. rewrite Hlen by lia.
  change (str_drop 9 ("giop" +:+ String ":" ("tcp" +:+ String ":" f))) with (str_drop 0 f).
  rewrite str_drop_0, str_take_all by lia. rewrite bind_Ok. subst f. simpl fmap.
  change (":" +:+ port) with (String ":" port).
  rewrite find_char_app by (apply plain_not; [done|set_solver]). cbn. by rewrite str_take_app.
Qed.

Lemma uuid_parts x :
  0 <= x < 2 ^ 64 →
  - 2 ^ 31 <= high_long x < 2 ^ 31 ∧ - 2 ^ 31 <= low_long x < 2 ^ 31 ∧ from_longs (high_long x) (low_long x) = x.
Proof.
  intros Hx. assert (Hlo : Z.land x 0xFFFFFFFF = x mod 2 ^ 32) by (apply (Z.land_ones x 32); lia).
  assert (Hhi : Z.shiftr (Z.land x (0xFFFFFFFF * 2 ^ 32)) 32 = x / 2 ^ 32).
  { rewrite Z.shiftr_land, <- (Z.shiftl_mul_pow2 0xFFFFFFFF 32), Z.shiftr_shiftl_l by lia. simpl (32 - 32).
    rewrite Z.shiftl_0_r, Z.shiftr_div_pow2 by lia. change 0xFFFFFFFF with (Z.ones 32). rewrite Z.land_ones by lia.
    apply Z.mod_small. split; [apply Z.div_pos; lia|]. apply Z.div_lt_upper_bound; lia. }
  unfold high_long, low_long, from_longs. rewrite Hhi, Hlo.
  assert (Hl : ∀ y, 0 <= y < 2 ^ 32 → - 2 ^ 31 <= to_long y < 2 ^ 31 ∧ to_long y mod 2 ^ 32 = y).
  { intros y Hy. unfold to_long. rewrite Z.mod_small by done. case_if; [by rewrite Z.mod_small by lia; split; lia|].
    split; [lia|]. symmetry. apply (Z.mod_unique _ _ (-1)); lia. }
  assert (0 <= x / 2 ^ 32 < 2 ^ 32) by (split; [apply Z.div_pos; lia|apply Z.div_lt_upper_bound; lia]).
  destruct (Hl (x / 2 ^ 32)) as [H1 H2]; [done|]. destruct (Hl (x mod 2 ^ 32)) as [H3 H4]; [by apply Z.mod_pos_bound|].
  split; [done|]. split; [done|]. rewrite H2, H4. pose proof (Z.div_mod x (2 ^ 32)). lia.
Qed.

(** the two halves of a 64-bit identifier fit in [DevLong] numbers and give the
    identifier back. *)
Theorem uuid_halves x :
  0 <= x < 2 ^ 64 →
  - 2 ^ 31 <= high_long x < 2 ^ 31 ∧ - 2 ^ 31 <= low_long x < 2 ^ 31 ∧ from_longs (high_long x) (low_long x) = x.
Proof. apply uuid_parts. Qed.

Lemma uuid_halves_witness :
  - 2 ^ 31 <= high_long (2 ^ 63 + 5) < 2 ^ 31 ∧ - 2 ^ 31 <= low_long (2 ^ 63 + 5) < 2 ^ 31 ∧
  from_longs (high_long (2 ^ 63 + 5)) (low_long (2 ^ 63 + 5)) = 2 ^ 63 + 5.
Proof. apply (uuid_halves (2 ^ 63 + 5)). lia. Defined.

(** a client reads back who holds a lock: the process of a C++ client, or the class
    and the 128-bit identifier of a Java client, and the host it comes from. *)
Theorem locker_read_back (fwd : list string) root_call c n d now s (host port : string) :
  locked_by c n d s → now <= d → client_ip c = address host port → plain host → plain port →
  0 <= fst (java_ident c) < 2 ^ 64 → 0 <= snd (java_ident c) < 2 ^ 64 →
  ∃ st info, lock_status fwd root_call now s = Some (s, inr st) ∧ get_locker st = Ok (Some info) ∧ locker_ip info = host ∧
    (client_pid c ≠ 0 → ll info = CPP ∧ LockerPid info = client_pid c) ∧
    (client_lang c = JAVA → client_pid c = 0 →
     ll info = JAVA ∧ locker_class info = java_main_class c ∧
     ∃ a b a' b', UUID info = [a; b; a'; b'] ∧ (from_longs a b, from_longs a' b') = java_ident c).
Proof.
  intros (Hl & Hc & _ & Hd) Hn Ha Hh Hp H1 H2. unfold lock_status. rewrite (run_bind _ _ s s s) by done.
  rewrite Hl. unfold valid_lock. rewrite Hd, (proj2 (Z.leb_le _ _) Hn), Hc. rewrite (run_bind _ _ s s c) by done.
  assert (Hget : ∀ v_l cls, vget v_l 0 = Ok 1 → vget v_l 1 = Ok (client_pid c) →
    get_locker (v_l, client_ip c, cls) =
      Ok (Some (if negb (client_pid c =? 0) then mkLockerInfo CPP (client_pid c) [] "Not defined" host
                else mkLockerInfo JAVA 0 (firstn 4 (drop 2 v_l)) cls host))).
  { intros v_l cls E0 E1. unfold get_locker. rewrite E0, bind_Ok. simpl. rewrite E1, bind_Ok, Ha, locker_host by done. done. }
  case_bool_decide as Hlang.
  - eexists _, _. split; [reflexivity|]. split; [by apply Hget|]. split; [by destruct (negb _)|]. split.
    + intros Hpid. by rewrite (proj2 (Z.eqb_neq _ _) Hpid).
    + intros _ Hpid. rewrite Hpid. split; [done|]. split; [done|]. do 4 eexists. split; [reflexivity|].
      destruct (java_ident c) as [x y]. simpl in *.
      destruct (uuid_parts x H1) as (_ & _ & ->), (uuid_parts y H2) as (_ & _ & ->). done.
  - eexists _, _. split; [reflexivity|]. split; [by apply Hget|]. split; [by destruct (negb _)|]. split; [|done].
    intros Hpid. by rewrite (proj2 (Z.eqb_neq _ _) Hpid).
Qed.

(** ** ReLockDevices *)

Definition renewable (cl : client_addr) (now : Z) (s : LockSt) : bool :=
  device_locked s && valid_lock now s &&
  match locker_client s with Some l => same_client cl l | None => false end.
Definition renew (cl : client_addr) (now : Z) (s : LockSt) : LockSt :=
  if renewable cl now s then set_date now s else s.

Lemma relock_runs nm cl now s :
  lock_ok s → ∃ e, relock nm cl now s =
    Some (renew cl now s, if renewable cl now s then inr tt else inl (DevFailed [e])).
Proof.
  intros [H1 H2]. unfold relock, renew, renewable, locked_by_other, not_locked_error. rewrite (run_bind _ _ s s s) by done.
  destruct (device_locked s); simpl; [|by eexists]. destruct (valid_lock now s); simpl; [|by eexists].
  destruct (H1 eq_refl) as [[l Hl] _]. rewrite Hl, (run_bind _ _ s s l), other_is_not_same by done.
  destruct (same_client cl l); simpl; [|by eexists]. exists (mkDevError "" ERR "" ""). by rewrite (run_bind _ _ s s tt).
Qed.

Lemma re_lock_loop_ok (get_dev : string → exn + nat) dname names idx cl now (ds : gmap nat LockSt) :
  Forall2 (λ nm i, get_dev nm = inr i) names idx → NoDup idx →
  (∀ i, i ∈ idx → ∃ s, ds !! i = Some s ∧ lock_ok s) →
  ∃ ds' errs, re_lock_loop get_dev dname names cl now ds = Some (ds', inr errs) ∧
    (∀ i, ds' !! i = if decide (i ∈ idx) then renew cl now <$> ds !! i else ds !! i) ∧
    (errs = [] ↔ ∀ i s, i ∈ idx → ds !! i = Some s → renewable cl now s = true).
Proof.
  revert ds idx. induction names as [|nm names IH]; intros ds idx Hn Hnd Hok.
  { apply Forall2_nil_inv_l in Hn as ->. exists ds, []. split; [done|]. split; [|split; [|done]].
    - intros i. rewrite decide_False by apply not_elem_of_nil. done.
    - intros _ i s Hi. by apply not_elem_of_nil in Hi. }
  apply Forall2_cons_inv_l in Hn as (i & idx' & Hi & Hn & ->). apply NoDup_cons in Hnd as [Hni Hnd].
  destruct (Hok i ltac:(by left)) as (s & Hs & Hlk). destruct (relock_runs (dname i) cl now s Hlk) as [e He].
  destruct (IH (<[i := renew cl now s]> ds) idx' Hn Hnd) as (ds' & errs & E & H1 & H2).
  { intros j Hj. rewrite lookup_insert_ne by (intros ->; done). apply Hok. by right. }
  cbn [re_lock_loop]. rewrite Hi.
  assert (Hcatch : catch_failed (on_device i (relock (dname i) cl now)) ds =
    Some (<[i := renew cl now s]> ds, inr (if renewable cl now s then None else Some e))).
  { unfold catch_failed, on_device. rewrite Hs, He. by destruct (renewable cl now s). }
  rewrite (run_bind _ _ _ _ _ Hcatch), (run_bind _ _ _ _ _ E).
  eexists _, _. split; [reflexivity|]. split.
  - intros j. rewrite H1. destruct (decide (j = i)) as [->|Hne].
    + rewrite decide_False, decide_True, lookup_insert_eq, Hs by (done || by left). done.
    + rewrite lookup_insert_ne by done. destruct (decide (j ∈ idx')), (decide (j ∈ i :: idx')) as [H|H]; try done.
      * destruct H. by right.
      * by apply elem_of_cons in H as [?|?].
  - destruct (renewable cl now s) eqn:Er.
    + rewrite H2. split; intros H j sj Hj Hsj.
      * apply elem_of_cons in Hj as [->|Hj]; [congruence|]. apply (H j); [done|]. rewrite lookup_insert_ne; [done|].
        intros ->. done.
      * apply (H j); [by right|]. rewrite lookup_insert_ne in Hsj; [done|]. intros ->. done.
    + split; [done|]. intros H. rewrite (H i s) in Er; [done|by left|done].
Qed.

(** ReLockDevices renews the locks of its list that the client holds, at the current
    date, whatever happens to the other devices of the list: they are left as they are,
    and the command fails exactly when there is one. *)
Theorem re_lock_all (get_dev : string → exn + nat) dname names idx cl now (ds : gmap nat LockSt) :
  client_ident cl = true → Forall2 (λ nm i, get_dev nm = inr i) names idx → NoDup idx →
  (∀ i, i ∈ idx → ∃ s, ds !! i = Some s ∧ lock_ok s) →
  ∃ ds' r, re_lock_devices get_dev dname names (Some cl) now ds = Some (ds', r) ∧
    (∀ i, ds' !! i = if decide (i ∈ idx) then renew cl now <$> ds !! i else ds !! i) ∧
    (r = inr tt ↔ ∀ i s, i ∈ idx → ds !! i = Some s → renewable cl now s = true).
Proof.
  intros Hid Hn Hnd Hok. unfold re_lock_devices. rewrite Hid. rewrite (run_bind _ _ ds ds tt) by done.
  destruct (re_lock_loop_ok get_dev dname names idx cl now ds Hn Hnd Hok) as (ds' & errs & E & H1 & H2).
  rewrite (run_bind _ _ ds ds' errs) by done.
  destruct errs as [|e errs]; simpl; eexists _, _; (split; [reflexivity|]); (split; [done|]).
  - split; [intros _; by apply H2|done].
  - split; [done|]. intros H. by apply H2 in H.
Qed.
