(* ===== verification/LockWitness.v ===== *)
(** * Device locking on concrete requests

  The properties of LockTheory.v and LockCmds.v apply to a device and two clients; the
  cases that the code does not handle are run. *)
From S2P Require Import Prelude StateExn CppString Locking LockTheory LockCmds.
Local Open Scope string_scope.
Local Open Scope list_scope.
Local Open Scope Z_scope.

Definition ex_cl (pid : Z) : client_addr :=
  mkClient true (address "160.103.5.157" "32989") CPP pid "" (0, 0).
Definition ex_java (lang : LockerLanguage) : client_addr :=
  mkClient true (address "160.103.5.157" "32989") lang 0 "atk.Panel" (2 ^ 63 + 5, 7).
Definition ex_root (b : bool) (v : Z) (d : string) : outcome unit := Ok tt.
(** Locked by process 10 at date 100 for 10 seconds. *)
Definition ex_locked : LockSt := mkLock true (Some (ex_cl 10)) None 100 10 1 [].

Lemma lock_requests_ok_witness :
  wp (serve "a/b/1" ["r/o/1"] ex_root [] (RLock (ex_cl 10) 10) 105) ex_locked (λ s' _, lock_ok s').
Proof.
  apply (lock_requests_ok "a/b/1" ["r/o/1"] ex_root []); [discriminate|].
  split; simpl; [intros _; split; [by eexists|lia]|discriminate].
Defined.

Lemma lock_excludes_witness :
  let reqs := [(RLock (ex_cl 11) 10, 101); (RUnlock false (ex_cl 11), 104); (RCheck "write" None (ex_cl 11), 110)] in
  ∃ res, serve_all "a/b/1" [] ex_root [] reqs ex_locked = Some (ex_locked, res) ∧
    Forall2 (λ (rt : Request * Z) x, denied rt.1 x) reqs res.
Proof.
  apply (lock_excludes "a/b/1" [] ex_root [] (ex_cl 10) 110 ex_locked
    [(RLock (ex_cl 11) 10, 101); (RUnlock false (ex_cl 11), 104); (RCheck "write" None (ex_cl 11), 110)]); [done|].
  repeat constructor; simpl; try reflexivity; lia.
Defined.

Lemma lock_nesting_witness :
  ∃ s', serve_all "a/b/1" [] ex_root []
          (replicate 3 (RLock (ex_cl 10) 10, 100) ++ replicate 2 (RUnlock false (ex_cl 10), 100)) not_locked =
          Some (s', replicate 3 (inr tt) ++ replicate 2 (inr tt)) ∧ locked_by (ex_cl 10) 1 110 s'.
Proof.
  apply (lock_nesting "a/b/1" [] ex_root [] (λ _ _ _, eq_refl) (ex_cl 10) 10 100 not_locked 3 2); try lia. done.
Defined.

Lemma lock_expires_witness :
  (∃ s', serve "a/b/1" [] ex_root [] (RLock (ex_cl 11) 20) 111 ex_locked = Some (s', inr tt) ∧ locked_by (ex_cl 11) 1 131 s') ∧
  (∀ meth cmd, ∃ s', serve "a/b/1" [] ex_root [] (RCheck meth cmd (ex_cl 11)) 111 ex_locked = Some (s', inr tt) ∧ free_lock s').
Proof.
  apply (lock_expires "a/b/1" [] ex_root [] (λ _ _ _, eq_refl) (ex_cl 10) 1 110 ex_locked (ex_cl 11) 20 111); [done|lia].
Defined.

Lemma admin_unlock_notified_witness :
  ∃ s', serve "a/b/1" [] ex_root [] (RUnlock true (ex_cl 12)) 105 ex_locked = Some (s', inr tt) ∧ free_lock s' ∧
    old_locker_client s' = Some (ex_cl 10) ∧
    ∀ meth cmd cl now',
      if same_client cl (ex_cl 10) then ∃ e, serve "a/b/1" [] ex_root [] (RCheck meth cmd cl) now' s' = Some (s', inl (DevFailed [e])) ∧
                                    reason e = "API_DeviceUnlocked"
      else serve "a/b/1" [] ex_root [] (RCheck meth cmd cl) now' s' = Some (forget_old s', inr tt).
Proof.
  apply (admin_unlock_notified "a/b/1" [] ex_root [] (λ _ _ _, eq_refl) (ex_cl 10) 1 110 ex_locked (ex_cl 12) 105). done.
Defined.

Lemma ex_plain : plain "160.103.5.157" ∧ plain "32989".
Proof. split; apply (bool_decide_unpack _); vm_compute; exact I. Qed.

Lemma locker_read_back_witness :
  let c := ex_java JAVA in
  let s := mkLock true (Some c) None 100 10 1 [] in
  ∃ st info, lock_status [] ex_root 105 s = Some (s, inr st) ∧ get_locker st = Ok (Some info) ∧
    locker_ip info = "160.103.5.157" ∧
    (client_pid c ≠ 0 → ll info = CPP ∧ LockerPid info = client_pid c) ∧
    (client_lang c = JAVA → client_pid c = 0 →
     ll info = JAVA ∧ locker_class info = java_main_class c ∧
     ∃ a b a' b', UUID info = [a; b; a'; b'] ∧ (from_longs a b, from_longs a' b') = java_ident c).
Proof.
  apply (locker_read_back [] ex_root (ex_java JAVA) 1 110 105 (mkLock true (Some (ex_java JAVA)) None 100 10 1 [])
    "160.103.5.157" "32989"); [done|lia|done|apply ex_plain|apply ex_plain|simpl; lia|simpl; lia].
Defined.

Definition ex_find (nm : string) : exn + nat :=
  if bool_decide (nm = "a/b/1") then inr 1%nat else if bool_decide (nm = "a/b/2") then inr 2%nat
  else inl (DevFailed [mkDevError "API_DeviceNotFound" ERR "" ""]).
Definition ex_devices : gmap nat LockSt := <[1%nat := ex_locked]> {[2%nat := not_locked]}.

Lemma re_lock_all_witness :
  ∃ ds' r, re_lock_devices ex_find (λ _, "dev") ["a/b/2"; "a/b/1"] (Some (ex_cl 10)) 105 ex_devices = Some (ds', r) ∧
    (∀ i, ds' !! i = if decide (i ∈ [2; 1]%nat) then renew (ex_cl 10) 105 <$> ex_devices !! i else ex_devices !! i) ∧
    (r = inr tt ↔ ∀ i s, i ∈ [2; 1]%nat → ex_devices !! i = Some s → renewable (ex_cl 10) 105 s = true).
Proof.
  apply (re_lock_all ex_find (λ _, "dev") ["a/b/2"; "a/b/1"] [2; 1]%nat (ex_cl 10) 105 ex_devices); [done| | |].
  - by repeat constructor.
  - by apply (bool_decide_unpack _).
  - intros i Hi. apply elem_of_cons in Hi as [->|[->|Hi]%elem_of_cons]; [| |by apply not_elem_of_nil in Hi].
    + exists not_locked. split; [done|]. by split.
    + exists ex_locked. split; [done|]. split; simpl; [intros _; split; [by eexists|lia]|discriminate].
Defined.

(** ** What the code does not handle *)

(** One unknown device in the list: its null pointer is used. *)
Example re_lock_unknown_device :
  re_lock_devices ex_find (λ _, "dev") ["gone"; "a/b/1"] (Some (ex_cl 10)) 105 ex_devices = None.
Proof. reflexivity. Qed.

(** The status of a device locked by a Java client with the second form of its
    identification says nothing of it. *)
Example java_6_ident_lost :
  match lock_status [] ex_root 105 (mkLock true (Some (ex_java JAVA_6)) None 100 10 1 []) with
  | Some (_, inr st) => get_locker st = Ok (Some (mkLockerInfo JAVA 0 [0; 0; 0; 0] "Not defined" "160.103.5.157"))
  | _ => False
  end.
Proof. vm_compute. reflexivity. Qed.

(** A second forced unlock, of the device now free, erases the notice to the former
    locker. *)
Example notice_lost :
  match serve_all "a/b/1" [] ex_root [] [(RUnlock true (ex_cl 12), 105); (RUnlock true (ex_cl 12), 106)] ex_locked with
  | Some (s, _) => old_locker_client s = None
  | None => False
  end.
Proof. reflexivity. Qed.

(** An address of version 6 that is not a mapped address of version 4. *)
Example ipv6_host : get_locker_host "giop:tcp:[fe80::1:2]:32989" = Ok ":1:2".
Proof. reflexivity. Qed.
