(* ===== verification/LockThread.v ===== *)
(** * The locking thread of a client (src/src/client/lockthread.cpp)

  A client that has locked devices of a server has a thread that renews the locks
  before they expire: it sleeps for the shortest validity less half a second, then
  sends ReLockDevices.  Dates are nanoseconds; the answer of the server is the
  parameter [re_lock]. *)
From S2P Require Import Prelude StateExn CppString PollObj.
Local Open Scope string_scope.
Local Open Scope list_scope.
Local Open Scope Z_scope.

Inductive LockCmdCode := LOCK_ADD_DEV | LOCK_REM_DEV | LOCK_UNLOCK_ALL_EXIT | LOCK_EXIT.
Inductive LockCmdType := LOCK_TIME_OUT | LOCK_COMMAND.

Record LockThCmd := mkLockCmd {
  cmd_pending : bool;
  cmd_code : LockCmdCode;
  cmd_dev_name : string;
  lock_val : Z;
  suicide : bool;
}.

(** A locked device: its name and its validity. *)
Abbreviation LockedDevice := (string * Z)%type.

(** [requests] are the commands sent to the admin device. *)
Inductive AdmRequest := ReLockDevices (l : list string) | UnLockDevice (l : list string).

Record LockTh := mkLockTh {
  shared_cmd : LockThCmd;
  local_cmd : LockThCmd;
  sleep : option Z;
  locked_devices : list LockedDevice;
  re_lock_cmd_args : list string;
  period : Z;
  next_work : Z;
  requests : list AdmRequest;
}.
Definition set_devices l s := mkLockTh (shared_cmd s) (local_cmd s) (sleep s) l (re_lock_cmd_args s) (period s) (next_work s) (requests s).
Definition set_args l s := mkLockTh (shared_cmd s) (local_cmd s) (sleep s) (locked_devices s) l (period s) (next_work s) (requests s).
Definition set_period p s := mkLockTh (shared_cmd s) (local_cmd s) (sleep s) (locked_devices s) (re_lock_cmd_args s) p (next_work s) (requests s).
Definition set_sleep p s := mkLockTh (shared_cmd s) (local_cmd s) p (locked_devices s) (re_lock_cmd_args s) (period s) (next_work s) (requests s).
Definition set_next n s := mkLockTh (shared_cmd s) (local_cmd s) (sleep s) (locked_devices s) (re_lock_cmd_args s) (period s) n (requests s).
Definition set_local c s := mkLockTh (shared_cmd s) c (sleep s) (locked_devices s) (re_lock_cmd_args s) (period s) (next_work s) (requests s).
Definition set_shared_cmd c s := mkLockTh c (local_cmd s) (sleep s) (locked_devices s) (re_lock_cmd_args s) (period s) (next_work s) (requests s).
Definition add_request r s := mkLockTh (shared_cmd s) (local_cmd s) (sleep s) (locked_devices s) (re_lock_cmd_args s) (period s) (next_work s) (requests s ++ [r]).

Definition MARGIN : Z := microseconds 500000.

(** The constructor and the start of [run], at date [now]. *)
Definition LockThread_new (cmd raw : LockThCmd) (dev : string) (per now : Z) : LockTh :=
  let p := per - MARGIN in
  mkLockTh cmd (mkLockCmd false (cmd_code raw) (cmd_dev_name raw) (lock_val raw) (suicide raw)) (Some p) [(dev, per)] []
    p (now + p) [].

Section LockThread.
(** What ReLockDevices answers, at a turn of the loop: nothing, or the errors. *)
Context (re_lock : list string → list DevError).

Definition find_device (nm : string) (l : list LockedDevice) : option nat :=
  fst <$> list_find (λ d : LockedDevice, fst d = nm) l.

(** [min_element] of the list; the iterator is followed even when it is empty. *)
Definition min_validity (l : list LockedDevice) : outcome Z :=
  match l with
  | [] => Undef
  | (_, v) :: l => Ok (foldl (λ m d, if snd d <? m then snd d else m) v l)
  end.
Definition update_th_period : SM LockTh unit :=
  modify (set_args []);;
  s ← get;
  v ← lift (min_validity (locked_devices s));
  modify (set_period (v - MARGIN)).

Definition unlock_all_devs : SM LockTh unit :=
  s ← get;
  when_ (negb (bool_decide (locked_devices s = []))) (modify (add_request (UnLockDevice (fst <$> locked_devices s)))).

(** [omni_thread::exit]. *)
Definition thread_exit : SM LockTh unit := lift (Exc (OtherExc "omni_thread::exit")).

(** The end of [execute_cmd]: the caller is released. *)
Definition cmd_done : SM LockTh unit :=
  modify (λ s, let c := shared_cmd s in
    set_shared_cmd (mkLockCmd false (cmd_code c) (cmd_dev_name c) (lock_val c)
                      (suicide c || bool_decide (locked_devices s = []))) s).

Definition execute_cmd : SM LockTh unit :=
  s ← get;
  let c := local_cmd s in
  need_exit ← (match cmd_code c with
               | LOCK_ADD_DEV =>
                   when_ (bool_decide (find_device (cmd_dev_name c) (locked_devices s) = None))
                     (modify (set_devices (locked_devices s ++ [(cmd_dev_name c, lock_val c)])));;
                   update_th_period;; mret false
               | LOCK_REM_DEV =>
                   match find_device (cmd_dev_name c) (locked_devices s) with
                   | Some k => modify (set_devices (delete k (locked_devices s)))
                   | None => mret tt
                   end;;
                   s ← get;
                   when_ (negb (bool_decide (locked_devices s = []))) update_th_period;; mret false
               | LOCK_UNLOCK_ALL_EXIT => unlock_all_devs;; mret true
               | LOCK_EXIT => mret true
               end : SM LockTh bool);
  cmd_done;;
  s ← get;
  when_ (need_exit || bool_decide (locked_devices s = [])) thread_exit.

(** An error of ReLockDevices that tells that the lock of a device is lost: its
    description begins with the name of the device. *)
Definition lost_device (e : DevError) : option string :=
  if bool_decide (reason e = "API_DeviceLocked") || bool_decide (reason e = "API_DeviceNotLocked")
     || bool_decide (reason e = "API_DeviceNotExported")
  then match find ":" (desc e) 0 with Some pos => Some (str_take pos (desc e)) | None => None end
  else None.

Definition forget_device (nm : string) : SM LockTh unit :=
  s ← get;
  match list_find (λ d : LockedDevice, tolower nm = tolower (fst d)) (locked_devices s) with
  | Some (k, _) =>
      modify (set_devices (delete k (locked_devices s)));;
      s ← get;
      when_ (bool_decide (locked_devices s = []))
        (modify (λ s, let c := local_cmd s in
                      set_local (mkLockCmd (cmd_pending c) LOCK_EXIT (cmd_dev_name c) (lock_val c) (suicide c)) s);;
         execute_cmd)
  | None => mret tt
  end.
Fixpoint forget_lost (errors : list DevError) : SM LockTh unit :=
  match errors with
  | [] => mret tt
  | e :: errors =>
      match lost_device e with Some nm => forget_device nm | None => mret tt end;;
      forget_lost errors
  end.

Definition one_more_lock : SM LockTh unit :=
  modify (λ s, if bool_decide (re_lock_cmd_args s = []) then set_args (fst <$> locked_devices s) s else s);;
  s ← get;
  modify (add_request (ReLockDevices (re_lock_cmd_args s)));;
  forget_lost (re_lock (re_lock_cmd_args s)).

(** [get_command]: [arrived] is in the shared buffer when the wait ends.  With a sleep of
    zero the buffer is not looked at. *)
Definition get_command (arrived : LockThCmd) (s : LockTh) : LockCmdType * LockTh :=
  match sleep s with
  | Some 0 => (LOCK_TIME_OUT, s)
  | _ =>
      let s := set_shared_cmd arrived s in
      if cmd_pending arrived then (LOCK_COMMAND, set_local arrived s) else (LOCK_TIME_OUT, s)
  end.

Definition compute_sleep_time (cmd : bool) (now : Z) (s : LockTh) : LockTh :=
  if negb cmd then set_next (now + period s) (set_sleep (Some (period s)) s)
  else
    let diff := next_work s - now in
    set_sleep (if diff <? 0 then None else Some diff) s.

(** A turn of the loop; [now] is the date at its end. *)
Definition turn (arrived : LockThCmd) (now : Z) : SM LockTh LockCmdType :=
  s ← get;
  let '(received, s') := get_command arrived s in
  modify (λ _, s');;
  match received with LOCK_COMMAND => execute_cmd | LOCK_TIME_OUT => one_more_lock end;;
  modify (compute_sleep_time (match received with LOCK_COMMAND => true | LOCK_TIME_OUT => false end) now);;
  mret received.
End LockThread.

(** ** The invariant of the thread

  The period is half a second less than the shortest validity, and the arguments of
  ReLockDevices name every locked device. *)
Record thread_ok (s : LockTh) : Prop := mkThreadOk {
  ok_some : locked_devices s ≠ [];
  ok_period : ∀ nm v, (nm, v) ∈ locked_devices s → period s ≤ v - MARGIN;
  ok_args : re_lock_cmd_args s = [] ∨ ∀ nm v, (nm, v) ∈ locked_devices s → nm ∈ re_lock_cmd_args s;
}.

Lemma new_ok cmd raw dev per now : thread_ok (LockThread_new cmd raw dev per now).
Proof.
  split; cbn; [done| |by left]. intros nm v H%list_elem_of_singleton. injection H as -> ->. lia.
Qed.

Lemma min_validity_ok l : l ≠ [] → ∃ m, min_validity l = Ok m ∧ ∀ nm v, (nm, v) ∈ l → m ≤ v.
Proof.
  destruct l as [|[n v] l]; [done|]. intros _. eexists. split; [done|].
  assert (∀ l m, foldl (λ (m : Z) (d : LockedDevice), if snd d <? m then snd d else m) m l ≤ m ∧
            ∀ nm v, (nm, v) ∈ l → foldl (λ (m : Z) (d : LockedDevice), if snd d <? m then snd d else m) m l ≤ v) as H.
  { clear. induction l as [|[n v] l IH]; intros m; cbn; [split; [lia|by intros ? ? ?%elem_of_nil]|].
    destruct (IH (if v <? m then v else m)) as [H1 H2]. split; [case_match; lia|].
    intros nm w [[= -> ->]|Hw]%elem_of_cons; [case_match; lia|by eapply H2]. }
  intros nm w [[= -> ->]|Hw]%elem_of_cons; [apply H|by eapply H].
Qed.

Lemma update_ok s Q :
  locked_devices s ≠ [] → (∀ p, (∀ nm v, (nm, v) ∈ locked_devices s → p ≤ v - MARGIN) →
    Q (set_period p (set_args [] s)) (inr tt)) → wp update_th_period s Q.
Proof.
  intros Hs HQ. destruct (min_validity_ok _ Hs) as (m & Hm & Hle). unfold update_th_period.
  do 5 wp_step. apply wp_lift; cbn; rewrite Hm; [done| |done]. intros _ [= <-]. apply HQ. intros nm v H. specialize (Hle _ _ H). lia.
Qed.

Lemma elem_of_delete {A} k (l : list A) x : x ∈ delete k l → x ∈ l.
Proof. intros H. eapply elem_of_submseteq; [exact H|]. apply sublist_submseteq, sublist_delete. Qed.

Lemma bind_update {B} (f : unit → SM LockTh B) s Q :
  locked_devices s ≠ [] → (∀ p, (∀ nm v, (nm, v) ∈ locked_devices s → p ≤ v - MARGIN) →
    wp (f tt) (set_period p (set_args [] s)) Q) → wp (update_th_period ≫= f) s Q.
Proof. intros Hs H. apply wp_bind, update_ok; [done|]. exact H. Qed.

Section Turns.
Context (re_lock : list string → list DevError).

(** The devices after a command. *)
Definition devices_after (c : LockThCmd) (l : list LockedDevice) : list LockedDevice :=
  match cmd_code c, find_device (cmd_dev_name c) l with
  | LOCK_ADD_DEV, None => l ++ [(cmd_dev_name c, lock_val c)]
  | LOCK_REM_DEV, Some k => delete k l
  | _, _ => l
  end.

(** The end of the thread: the caller is released, and it sees when no device is left. *)
Definition exits (s' : LockTh) (e : exn) : Prop :=
  e = OtherExc "omni_thread::exit" ∧ cmd_pending (shared_cmd s') = false ∧
  (locked_devices s' = [] → suicide (shared_cmd s') = true).

Definition cmd_post (s : LockTh) : LockTh → exn + unit → Prop := λ s' r,
  locked_devices s' = devices_after (local_cmd s) (locked_devices s) ∧
  requests s' = requests s ++ (if cmd_code (local_cmd s) is LOCK_UNLOCK_ALL_EXIT then [UnLockDevice (fst <$> locked_devices s)] else []) ∧
  match r with
  | inr _ => thread_ok s' ∧ next_work s' = next_work s ∧
             (cmd_code (local_cmd s) = LOCK_ADD_DEV ∨ cmd_code (local_cmd s) = LOCK_REM_DEV)
  | inl e => exits s' e
  end.

Lemma cmd_done_ok (need_exit : bool) s Q :
  (∀ s', locked_devices s' = locked_devices s → requests s' = requests s →
     exits s' (OtherExc "omni_thread::exit") → Q s' (inl (OtherExc "omni_thread::exit"))) →
  (∀ c, need_exit = false → locked_devices s ≠ [] → Q (set_shared_cmd c s) (inr tt)) →
  wp (cmd_done;; s ← get; when_ (need_exit || bool_decide (locked_devices s = [])) thread_exit) s Q.
Proof.
  intros H1 H2. unfold cmd_done. do 5 wp_step; cbn in *.
  - apply H1; [done|done|]. split; [done|]. split; [done|]. cbn. intros ->. cbn. by rewrite orb_true_r.
  - apply orb_false_iff in H as [? ?%bool_decide_eq_false]. by apply H2.
Qed.

Lemma update_done s s0 Q :
  locked_devices s ≠ [] → next_work s = next_work s0 →
  (∀ s' r, locked_devices s' = locked_devices s → requests s' = requests s →
     match r with inr _ => thread_ok s' ∧ next_work s' = next_work s0 | inl e => exits s' e end → Q s' r) →
  wp (update_th_period;; mret false) s (λ s1 r, match r with
    | inl e => Q s1 (inl e)
    | inr a => wp (cmd_done;; s ← get; when_ (a || bool_decide (locked_devices s = [])) thread_exit) s1 Q
    end).
Proof.
  intros Hs Hn HQ. apply bind_update; [done|]. intros p Hp. apply (cmd_done_ok false).
  - intros s' H1 H2 H3. by apply HQ.
  - intros c _ _. apply HQ; [done..|]. split; [|done]. split; cbn; [done|done|by left].
Qed.

(** What follows the work of a command in [execute_cmd]. *)
Definition after_work s : LockTh → exn + bool → Prop := λ s1 r, match r with
  | inl e => cmd_post s s1 (inl e)
  | inr a => wp (cmd_done;; s ← get; when_ (a || bool_decide (locked_devices s = [])) thread_exit) s1 (cmd_post s)
  end.

Lemma update_after s s1 l :
  s1 = set_devices l s → l = devices_after (local_cmd s) (locked_devices s) → l ≠ [] →
  cmd_code (local_cmd s) = LOCK_ADD_DEV ∨ cmd_code (local_cmd s) = LOCK_REM_DEV →
  wp (update_th_period;; mret false) s1 (after_work s).
Proof.
  intros -> -> Hl C. apply (update_done _ s); [done|done|]. intros s' r H1 H2 H3. split; [done|].
  destruct C as [C|C]; rewrite C, app_nil_r; (split; [done|]); destruct r as [e|[]]; try done;
    destruct H3; auto.
Qed.

Lemma remove_after s s1 l :
  s1 = set_devices l s → l = devices_after (local_cmd s) (locked_devices s) → cmd_code (local_cmd s) = LOCK_REM_DEV →
  wp (s ← get; when_ (negb (bool_decide (locked_devices s = []))) update_th_period;; mret false) s1 (after_work s).
Proof.
  intros -> Hl C. do 2 wp_step. cbn. case_bool_decide as Hn; [|by eapply update_after; auto].
  apply wp_bind, wp_ret. apply (cmd_done_ok false); cbn; [|done].
  intros s' H1 H2 H3. split; [congruence|]. rewrite C, app_nil_r. done.
Qed.

Lemma exit_after s1 s :
  devices_after (local_cmd s) (locked_devices s) = locked_devices s1 →
  requests s1 = requests s ++ (if cmd_code (local_cmd s) is LOCK_UNLOCK_ALL_EXIT then [UnLockDevice (fst <$> locked_devices s)] else []) →
  wp (mret true) s1 (after_work s).
Proof.
  intros Hl Hr. apply wp_ret. apply (cmd_done_ok true); [|done]. intros s' H1 H2 H3. split; [congruence|].
  split; [congruence|done].
Qed.

Lemma lock_cmd_ok s : thread_ok s → wp execute_cmd s (cmd_post s).
Proof.
  intros Hok. pose proof (ok_some _ Hok) as Hs. unfold execute_cmd. do 2 wp_step. wp_step. fold (after_work s).
  assert (set_devices (locked_devices s) s = s) as Eq by by destruct s.
  destruct (cmd_code (local_cmd s)) eqn:C.
  - do 2 wp_step; [wp_step; apply bool_decide_eq_true in H|apply bool_decide_eq_false in H];
      (eapply update_after; [done || by symmetry|unfold devices_after; rewrite C|by destruct (locked_devices s)|auto]).
    + by rewrite H.
    + by destruct (find_device _ _).
  - wp_step. wp_step; wp_step; (eapply remove_after; [done || by symmetry| |done]); unfold devices_after; rewrite C, ?E; done.
  - unfold unlock_all_devs. wp_step. do 3 wp_step; [wp_step|apply negb_false_iff, bool_decide_eq_true in H; done].
    apply exit_after; unfold devices_after; rewrite C; done.
  - apply exit_after; unfold devices_after; rewrite C; [done|]. by rewrite app_nil_r.
Qed.

(** A renewal only takes devices away: those the server no longer holds locked. *)
Definition renew_post (s s' : LockTh) (r : exn + unit) : Prop :=
  requests s' = requests s ∧ locked_devices s' ⊆ locked_devices s ∧
  match r with
  | inr _ => thread_ok s' ∧ period s' = period s
  | inl e => exits s' e ∧ locked_devices s' = []
  end.

Lemma renew_trans s s1 s' r : renew_post s s1 (inr tt) → renew_post s1 s' r → renew_post s s' r.
Proof.
  intros (H1 & H2 & H3 & H4) (H5 & H6 & H7). split; [congruence|]. split; [set_solver|].
  destruct r; [done|]. split; [apply H7|]. destruct H7. congruence.
Qed.
Lemma renew_refl s : thread_ok s → renew_post s s (inr tt).
Proof. done. Qed.

Lemma forget_device_ok nm s : thread_ok s → wp (forget_device nm) s (renew_post s).
Proof.
  intros Hok. unfold forget_device. do 2 wp_step. wp_step; [|by apply renew_refl].
  destruct p as [k d]. do 4 wp_step. wp_step.
  - apply bool_decide_eq_true in H. cbn in H. wp_step. wp_step. split; cbn; [done|]. rewrite H.
    split; [set_solver|]. split; [|done]. split; [done|]. split; [done|]. cbn. intros _. by rewrite orb_true_r.
  - apply bool_decide_eq_false in H. destruct Hok as [H1 H2 H3]. split; [done|]. split; [by intros x ?%elem_of_delete|].
    split; [|done]. split; [done| |]; cbn in *.
    + intros n v Hn%elem_of_delete. by eapply H2.
    + destruct H3 as [H3|H3]; [by left|right]. intros n v Hn%elem_of_delete. by eapply H3.
Qed.

Lemma forget_lost_ok es s : thread_ok s → wp (forget_lost es) s (renew_post s).
Proof.
  revert s. induction es as [|e es IH]; intros s Hok; [by apply renew_refl|]. cbn [forget_lost]. wp_step.
  apply (wp_mono _ _ (renew_post s)).
  - destruct (lost_device e); [by apply forget_device_ok|by apply renew_refl].
  - intros s1 [e1|[]] H1; [done|]. eapply wp_mono; [apply IH; apply H1|]. intros s' r. by apply renew_trans.
Qed.

Definition renewal_post (s s' : LockTh) (r : exn + unit) : Prop :=
  ∃ l, (∀ nm v, (nm, v) ∈ locked_devices s → nm ∈ l) ∧
  requests s' = requests s ++ [ReLockDevices l] ∧ locked_devices s' ⊆ locked_devices s ∧
  match r with
  | inr _ => thread_ok s' ∧ period s' = period s
  | inl e => exits s' e ∧ locked_devices s' = []
  end.

Lemma one_more_lock_ok s : thread_ok s → wp (one_more_lock re_lock) s (renewal_post s).
Proof.
  intros [H1 H2 H3]. unfold one_more_lock. do 6 wp_step. cbn beta.
  set (s1 := if bool_decide _ then _ else s).
  assert (thread_ok s1 ∧ locked_devices s1 = locked_devices s ∧ requests s1 = requests s ∧ period s1 = period s ∧
          ∀ nm v, (nm, v) ∈ locked_devices s → nm ∈ re_lock_cmd_args s1) as (Hok & Hl & Hr & Hp & Ha).
  { unfold s1. case_bool_decide as E.
    - assert (∀ nm v, (nm, v) ∈ locked_devices s → nm ∈ (fst <$> locked_devices s)) as Ha.
      { intros nm v Hn. apply list_elem_of_fmap. by exists (nm, v). }
      split; [|done]. split; [done|done|by right].
    - destruct H3 as [H3|H3]; [done|]. split; [|done]. split; [done|done|by right]. }
  eapply wp_mono; [apply forget_lost_ok|].
  - destruct Hok as [? ? ?]. by split.
  - intros s' r (G1 & G2 & G3). exists (re_lock_cmd_args s1). cbn in *. rewrite Hl, Hr, Hp in *. done.
Qed.

(** A turn of the loop that starts in a good state ends: *)
Definition turn_post (s : LockTh) (now : Z) (s' : LockTh) (r : exn + LockCmdType) : Prop :=
  match r with
  | inr LOCK_TIME_OUT =>
      thread_ok s' ∧ renewal_post s s' (inr tt) ∧ next_work s' = now + period s' ∧ sleep s' = Some (period s')
  | inr LOCK_COMMAND =>
      thread_ok s' ∧ requests s' = requests s ∧ next_work s' = next_work s ∧
      sleep s' = (if next_work s <? now then None else Some (next_work s - now))
  | inl e => exits s' e
  end.

Lemma get_command_ok arrived s received s' :
  thread_ok s → get_command arrived s = (received, s') →
  thread_ok s' ∧ locked_devices s' = locked_devices s ∧ requests s' = requests s ∧ period s' = period s ∧
  next_work s' = next_work s.
Proof. intros [H1 H2 H3]. unfold get_command. repeat case_match; intros [= <- <-]; done. Qed.

Lemma turn_ok arrived now s : thread_ok s → wp (turn re_lock arrived now) s (turn_post s now).
Proof.
  intros Hok. unfold turn. do 2 wp_step. destruct (get_command arrived s) as [received s1] eqn:G.
  destruct (get_command_ok _ _ _ _ Hok G) as (Hok1 & Hl & Hr & Hp & Hn). do 3 wp_step.
  destruct received.
  - eapply wp_mono; [by apply one_more_lock_ok|]. intros s2 [e|[]] (l & H1 & H2 & H3 & H4); [apply H4|].
    do 3 wp_step. destruct H4 as [[? ? ?] H5]. split; [done|]. split; [|done]. exists l. cbn.
    rewrite <-Hl, <-Hr, <-Hp. done.
  - eapply wp_mono; [by apply lock_cmd_ok|]. intros s2 [e|[]] (H1 & H2 & H3); [done|].
    do 3 wp_step. destruct H3 as ([? ? ?] & H4 & H5). cbn. rewrite H4, Hn. split; [done|]. split.
    + rewrite H2, Hr. destruct H5 as [C|C]; rewrite C; apply app_nil_r.
    + split; [done|]. destruct (Z.ltb_spec (next_work s - now) 0), (Z.ltb_spec (next_work s) now); done || lia.
Qed.

(** The commands done between two renewals, with the date at the end of each. *)
Inductive commands : LockTh → Z → LockTh → Z → Prop :=
  | commands_none s t : commands s t s t
  | commands_one s t c now s1 s2 t2 :
      t ≤ now → turn re_lock c now s = Some (s1, inr LOCK_COMMAND) → commands s1 now s2 t2 → commands s t s2 t2.

(** The date when the thread stops waiting if nothing arrives; without a sleep time it
    does not wait. *)
Definition wakes (s : LockTh) (t : Z) : Z := match sleep s with Some d => t + d | None => t end.

Lemma turn_inv c now s s' r : thread_ok s → turn re_lock c now s = Some (s', r) → turn_post s now s' r.
Proof. intros Hok H. pose proof (turn_ok c now s Hok) as Hw. unfold wp in Hw. by rewrite H in Hw. Qed.

Lemma commands_ok s t s1 t1 :
  commands s t s1 t1 → thread_ok s → t ≤ t1 ∧ thread_ok s1 ∧ requests s1 = requests s ∧ next_work s1 = next_work s ∧
  (s1 = s ∧ t1 = t ∨ wakes s1 t1 = Z.max (next_work s1) t1).
Proof.
  induction 1 as [s t|s t c now s1 s2 t2 Hle Ht Hc IH]; intros Hok; [split_and!; auto; lia|].
  apply turn_inv in Ht as (Hok1 & Hr & Hn & Hs); [|done].
  destruct (IH Hok1) as (H1 & H2 & H3 & H4 & H5). split; [lia|]. split; [done|]. split; [congruence|].
  split; [congruence|]. right. destruct H5 as [[-> ->]|H5]; [|done]. unfold wakes. rewrite Hs, Hn.
  destruct (Z.ltb_spec (next_work s) now); lia.
Qed.

(** C37: between two renewals the commands do not delay the second: after the renewal that ends
    at [t0] the thread wakes, whatever commands it did in between, no later than half a second
    before the earliest lock of the devices it held at [t0] expires ([t0] plus the validity), or
    at the end of the last command when that is later; and what it then sends names every device
    that is still to be locked. A device that is locked after [t0] is not covered: the first
    renewal of a lock shorter than those the thread has comes too late (see
    [short_lock_expires]). *)
Theorem renewed_in_time c c2 s t0 s0 s1 t1 t2 nm v :
  thread_ok s → turn re_lock c t0 s = Some (s0, inr LOCK_TIME_OUT) → commands s0 t0 s1 t1 →
  (nm, v) ∈ locked_devices s0 →
  wakes s1 t1 ≤ Z.max (t0 + v - MARGIN) t1 ∧
  ∃ s2 r, turn re_lock c2 t2 s1 = Some (s2, r) ∧
    (r = inr LOCK_TIME_OUT →
     ∃ l, requests s2 = requests s0 ++ [ReLockDevices l] ∧ ∀ nm v, (nm, v) ∈ locked_devices s1 → nm ∈ l).
Proof.
  intros Hok Ht Hc Hd. apply turn_inv in Ht as (Hok0 & _ & Hn & Hs); [|done].
  destruct (commands_ok _ _ _ _ Hc Hok0) as (Hle & Hok1 & Hr1 & Hn1 & Hw). split.
  - pose proof (ok_period _ Hok0 _ _ Hd) as Hp.
    destruct Hw as [[-> ->]|Hw]; [unfold wakes; rewrite Hs; lia|rewrite Hw, Hn1, Hn; lia].
  - pose proof (turn_ok c2 t2 s1 Hok1) as Hw2. apply wp_run in Hw2 as (s2 & r & H2 & Hpost).
    exists s2, r. split; [done|]. intros ->. destruct Hpost as (_ & (l & Hl & Hq & _) & _). exists l.
    by rewrite <-Hr1.
Qed.

(** the thread ends, and nothing else of a turn throws, by the exit of its command;
    the caller is released, is told when no device is left, and the server has been sent
    the unlocking of every device when that was the command. *)
Theorem lock_thread_turn arrived now s :
  thread_ok s → ∃ s' r, turn re_lock arrived now s = Some (s', r) ∧
  match r with
  | inr _ => thread_ok s'
  | inl e => e = OtherExc "omni_thread::exit" ∧ cmd_pending (shared_cmd s') = false ∧
             (locked_devices s' = [] → suicide (shared_cmd s') = true)
  end.
Proof.
  intros Hok. pose proof (turn_ok arrived now s Hok) as Hw. apply wp_run in Hw as (s' & r & H & Hp).
  exists s', r. split; [done|]. destruct r as [e|[|]]; [done|apply Hp|apply Hp].
Qed.
End Turns.

(** ** Example: a device added with a shorter validity

  The thread of a device locked for 10 s is given, one second later, a device locked for
  two seconds: the command leaves the date of the next renewal at 9.5 s, so the thread
  wakes after the lock of the new device has expired (3 s). *)
Section Example_.
Let sec := microseconds 1000000.
Definition th0 : LockTh :=
  LockThread_new (mkLockCmd false LOCK_EXIT "" 0 false) (mkLockCmd false LOCK_EXIT "" 0 false) "a/b/c" (10 * sec) 0.
Definition state_of (x : option (LockTh * (exn + LockCmdType))) : LockTh := from_option fst th0 x.
Definition add_cmd : LockThCmd := mkLockCmd true LOCK_ADD_DEV "d/e/f" (2 * sec) false.

Example short_lock_expires :
  let s := state_of (turn (λ _, []) add_cmd sec th0) in
  locked_devices s = [("a/b/c", 10 * sec); ("d/e/f", 2 * sec)] ∧ period s = sec + MARGIN ∧
  wakes s sec = 9 * sec + MARGIN ∧ sec + 2 * sec < wakes s sec.
Proof. vm_compute. auto. Qed.
End Example_.

Definition idle : LockThCmd := mkLockCmd false LOCK_EXIT "" 0 false.
Definition long_cmd : LockThCmd := mkLockCmd true LOCK_ADD_DEV "g/h/i" 20000000000 false.
Definition th1 : LockTh := state_of (turn (λ _, []) idle 9600000000 th0).
Definition th2 : LockTh := state_of (turn (λ _, []) long_cmd 11000000000 th1).
Definition th3 : LockTh := state_of (turn (λ _, []) idle 19100000000 th2).

Lemma renewed_in_time_witness :
  wakes th2 11000000000 ≤ 19100000000 ∧
  ∃ s2 l, turn (λ _, []) idle 19100000000 th2 = Some (s2, inr LOCK_TIME_OUT) ∧
    requests s2 = requests th1 ++ [ReLockDevices l] ∧ "g/h/i" ∈ l.
Proof.
  destruct (renewed_in_time (λ _, []) idle idle th0 9600000000 th1 th2 11000000000 19100000000 "a/b/c" 10000000000)
    as [H1 (s2 & r & H2 & H3)].
  - apply new_ok.
  - vm_compute; reflexivity.
  - apply (commands_one _ th1 _ long_cmd 11000000000 th2 th2); [lia|vm_compute; reflexivity|apply commands_none].
  - assert (locked_devices th1 = [("a/b/c", 10000000000)]) as -> by (vm_compute; reflexivity). by left.
  - split; [exact H1|]. assert (turn (λ _, []) idle 19100000000 th2 = Some (th3, inr LOCK_TIME_OUT)) as H4 by (vm_compute; reflexivity).
    rewrite H4 in H2. injection H2 as <- <-.
    destruct (H3 eq_refl) as (l & H5 & H6). exists th3, l. split; [exact H4|]. split; [exact H5|].
    apply (H6 _ 20000000000).
    assert (locked_devices th2 = [("a/b/c", 10000000000); ("g/h/i", 20000000000)]) as -> by (vm_compute; reflexivity).
    right. left.
Defined.

Lemma lock_thread_turn_witness : thread_ok th0 ∧ ∃ s' r, turn (λ _, []) add_cmd 1000000000 th0 = Some (s', r).
Proof.
  split; [apply new_ok|].
  destruct (lock_thread_turn (λ _, []) add_cmd 1000000000 th0 (new_ok _ _ _ _ _)) as (s' & r & H & _).
  by exists s', r.
Defined.
