(* ===== verification/Number.v ===== *)
(** * Numbers of the Tango data types

  The integers are kept in the bounds of their type, with the promotion to [int] of
  the narrow types, the wrap-around of the unsigned ones and undefined behaviour for the
  overflow of the signed ones; the floating-point numbers are those of the
  specification of IEEE 754 of the Standard Library ([spec_float]).
  [numeric_limits] is the C++ one: its [min] of a floating-point type is the smallest
  positive normal number. *)
From Stdlib Require Import SpecFloat.
From S2P Require Import Prelude PollRing AttrHistory.
Local Open Scope Z_scope.

#[export] Instance CmdArgType_eq_dec : EqDecision CmdArgType.
Proof. solve_decision. Defined.

Inductive Num := I (z : Z) | F (f : spec_float).

(** The signedness and the width of an integer type, the precision and the greatest
    exponent of a floating-point one. *)
Definition int_type (t : CmdArgType) : option (bool * Z) :=
  match t with
  | DEV_SHORT | DEV_ENUM => Some (true, 16)
  | DEV_LONG => Some (true, 32)
  | DEV_LONG64 => Some (true, 64)
  | DEV_UCHAR => Some (false, 8)
  | DEV_USHORT => Some (false, 16)
  | DEV_ULONG => Some (false, 32)
  | DEV_ULONG64 => Some (false, 64)
  | _ => None
  end.
Definition flt_type (t : CmdArgType) : option (Z * Z) :=
  match t with DEV_FLOAT => Some (24, 128) | DEV_DOUBLE => Some (53, 1024) | _ => None end.

Definition int_min (st : bool * Z) : Z := if fst st then - 2 ^ (snd st - 1) else 0.
Definition int_max (st : bool * Z) : Z := if fst st then 2 ^ (snd st - 1) - 1 else 2 ^ snd st - 1.

(** The values of a type. *)
Definition has_type (t : CmdArgType) (n : Num) : bool :=
  match n, int_type t, flt_type t with
  | I z, Some st, _ => (int_min st <=? z) && (z <=? int_max st)
  | F f, None, Some (prec, emax) => valid_binary prec emax f
  | _, _, _ => false
  end.

(** ** Comparisons *)

Definition num_le (a b : Num) : bool :=
  match a, b with I x, I y => x <=? y | F x, F y => SFleb x y | _, _ => false end.
Definition num_lt (a b : Num) : bool :=
  match a, b with I x, I y => x <? y | F x, F y => SFltb x y | _, _ => false end.
Abbreviation num_ge a b := (num_le b a).
Abbreviation num_gt a b := (num_lt b a).
Definition isnan (a : Num) : bool := match a with F S754_nan => true | _ => false end.
Definition isfinite (a : Num) : bool :=
  match a with F S754_nan | F (S754_infinity _) => false | _ => true end.

(** ** Arithmetic *)

(** The type of the sum or of the difference of two numbers of a type. *)
Definition promoted (st : bool * Z) : bool * Z := if snd st <? 32 then (true, 32) else st.

Definition int_result (st : bool * Z) (z : Z) : outcome Num :=
  let st := promoted st in
  if fst st then if (int_min st <=? z) && (z <=? int_max st) then Ok (I z) else Undef
  else Ok (I (z mod 2 ^ snd st)).

Definition num_add (t : CmdArgType) (a b : Num) : outcome Num :=
  match a, b, int_type t, flt_type t with
  | I x, I y, Some st, _ => int_result st (x + y)
  | F x, F y, None, Some (prec, emax) => Ok (F (SFadd prec emax x y))
  | _, _, _, _ => Undef
  end.
Definition num_sub (t : CmdArgType) (a b : Num) : outcome Num :=
  match a, b, int_type t, flt_type t with
  | I x, I y, Some st, _ => int_result st (x - y)
  | F x, F y, None, Some (prec, emax) => Ok (F (SFsub prec emax x y))
  | _, _, _, _ => Undef
  end.

(** [std::is_signed_v], [std::numeric_limits<T>::max()] and [min()]. *)
Definition is_signed (t : CmdArgType) : bool :=
  match int_type t with Some st => fst st | None => true end.
Definition zero (t : CmdArgType) : Num :=
  match int_type t with Some _ => I 0 | None => F (S754_zero false) end.
Definition limit_max (t : CmdArgType) : Num :=
  match int_type t, flt_type t with
  | Some st, _ => I (int_max st)
  | None, Some (prec, emax) => F (S754_finite false (Z.to_pos (2 ^ prec - 1)) (emax - prec))
  | _, _ => I 0
  end.
Definition limit_min (t : CmdArgType) : Num :=
  match int_type t, flt_type t with
  | Some st, _ => I (int_min st)
  | None, Some (prec, emax) => F (S754_finite false (Z.to_pos (2 ^ (prec - 1))) (emin prec emax))
  | _, _ => I 0
  end.

Example double_max : match limit_max DEV_DOUBLE with F f => valid_binary 53 1024 f | _ => false end = true.
Proof. reflexivity. Qed.
Example double_min : match limit_min DEV_DOUBLE with F f => valid_binary 53 1024 f | _ => false end = true.
Proof. reflexivity. Qed.

(** The number of a small integer, in a type. *)
Definition of_Z (t : CmdArgType) (z : Z) : Num :=
  match flt_type t with
  | Some (prec, emax) => F (binary_normalize prec emax z 0 false)
  | None => I z
  end.

(** ** Lemmas *)

Lemma has_type_int t st z : int_type t = Some st → has_type t (I z) = true ↔ int_min st <= z <= int_max st.
Proof. intros H. unfold has_type. rewrite H. rewrite andb_true_iff, !Z.leb_le. done. Qed.

Lemma int_width t st : int_type t = Some st → snd st = 8 ∨ snd st = 16 ∨ snd st = 32 ∨ snd st = 64.
Proof. destruct t; simpl; intros [= <-]; simpl; auto. Qed.

(** ** The integers as double-precision numbers

  The code converts integers to [double] to compare them with thresholds.  Below 2^53
  the conversion is exact: the comparisons are those of the integers ([dbl_le]). *)
Local Open Scope Z_scope.

Definition dbl (z : Z) : Num := of_Z DEV_DOUBLE z.
#[global] Arguments dbl _ : simpl never.

(** The digits of a positive number, and the number with 53 of them. *)
Lemma digits_size m : digits2_pos m = Pos.size m.
Proof. induction m; simpl; congruence. Qed.
Lemma digits_bounds m : 2 ^ (Zpos (digits2_pos m) - 1) <= Zpos m < 2 ^ Zpos (digits2_pos m).
Proof.
  rewrite digits_size. pose proof (Pos.size_gt m). pose proof (Pos.size_le m). split; [|lia].
  assert (2 ^ Zpos (Pos.size m) <= 2 * Zpos m) as H1 by lia.
  replace (Zpos (Pos.size m)) with (Z.succ (Zpos (Pos.size m) - 1)) in H1 by lia.
  rewrite Z.pow_succ_r in H1 by lia. lia.
Qed.
Lemma digits_le m d : Zpos m < 2 ^ d → 0 <= d → Zpos (digits2_pos m) <= d.
Proof.
  intros H Hd. destruct (digits_bounds m) as [H1 _]. destruct (Z.le_gt_cases (Zpos (digits2_pos m)) d) as [|Hgt]; [done|].
  assert (2 ^ d <= 2 ^ (Zpos (digits2_pos m) - 1)) by (apply Z.pow_le_mono_r; lia). lia.
Qed.
Lemma digits_shift m k : digits2_pos (Pos.iter xO m k) = (digits2_pos m + k)%positive.
Proof. induction k using Pos.peano_ind; [simpl; lia|]. rewrite Pos.iter_succ. simpl. rewrite IHk. lia. Qed.
Lemma shift_value m k : Zpos (Pos.iter xO m k) = Zpos m * 2 ^ Zpos k.
Proof.
  induction k using Pos.peano_ind; [simpl; lia|]. rewrite Pos.iter_succ, Pos2Z.inj_succ, Z.pow_succ_r by lia.
  rewrite Pos2Z.inj_xO, IHk. lia.
Qed.

(** Nothing is rounded: the mantissa is shifted to 53 digits. *)
Lemma round_exact s m : Zpos m < 2 ^ 53 →
  ∃ mz, binary_round 53 1024 s m 0 = S754_finite s mz (Zpos (digits2_pos m) - 53) ∧
    Zpos mz = Zpos m * 2 ^ (53 - Zpos (digits2_pos m)).
Proof.
  intros Hm. pose proof (digits_le m 53 Hm ltac:(lia)) as Hd. set (d := Zpos (digits2_pos m)) in *.
  assert (∃ mz, shl_align m 0 (fexp 53 1024 (d + 0)) = (mz, d - 53) ∧
    Zpos mz = Zpos m * 2 ^ (53 - d) ∧ Zpos (digits2_pos mz) = 53) as (mz & E & Hv & Hz).
  { unfold shl_align, fexp, emin. rewrite (Z.max_l _ (3 - 1024 - 53)), Z.sub_0_r, Z.add_0_r by lia.
    destruct (d - 53) eqn:Ed; [|lia|].
    - exists m. replace d with 53 by lia. split; [done|]. unfold d in *. split; lia.
    - exists (Pos.iter xO m p). rewrite shift_value, digits_shift. replace (53 - d) with (Zpos p) by lia.
      split; [done|]. unfold d in *. split; [done|lia]. }
  exists mz. split; [|done]. unfold binary_round. fold d. rewrite E. cbv beta iota.
  assert (∀ l, shr_fexp 53 1024 (Zpos mz) (d - 53) l = (shr_record_of_loc (Zpos mz) l, d - 53)) as Hshr.
  { intros l. unfold shr_fexp, fexp, emin. change (Zdigits2 (Zpos mz)) with (Zpos (digits2_pos mz)). rewrite Hz.
    rewrite (Z.max_l _ (3 - 1024 - 53)) by lia. replace (53 + (d - 53) - 53 - (d - 53)) with 0 by lia. done. }
  unfold binary_round_aux. rewrite Hshr. cbn -[shr_fexp Z.leb Z.sub]. rewrite Hshr. cbn -[Z.leb Z.sub].
  by rewrite (proj2 (Z.leb_le _ _)) by lia.
Qed.

Lemma compare_shifted m1 m2 z1 z2 : Zpos m1 < 2 ^ 53 → Zpos m2 < 2 ^ 53 →
  Zpos z1 = Zpos m1 * 2 ^ (53 - Zpos (digits2_pos m1)) → Zpos z2 = Zpos m2 * 2 ^ (53 - Zpos (digits2_pos m2)) →
  match Zpos (digits2_pos m1) - 53 ?= Zpos (digits2_pos m2) - 53 with Eq => Pos.compare_cont Eq z1 z2 | c => c end = (Zpos m1 ?= Zpos m2).
Proof.
  intros H1 H2 E1 E2. pose proof (digits_bounds m1) as B1. pose proof (digits_bounds m2) as B2.
  pose proof (digits_le m1 53 H1 ltac:(lia)) as L1.
  generalize dependent (Zpos (digits2_pos m1)). generalize dependent (Zpos (digits2_pos m2)). intros d2 E2 B2 d1 E1 B1 L1.
  destruct (Z.compare_spec (d1 - 53) (d2 - 53)) as [E|E|E].
  - change (Pos.compare_cont Eq z1 z2) with (Zpos z1 ?= Zpos z2). rewrite E1, E2. replace d2 with d1 by lia.
    pose proof (Z.pow_pos_nonneg 2 (53 - d1) ltac:(lia) ltac:(lia)).
    symmetry. rewrite (Z.mul_comm (Zpos m1)), (Z.mul_comm (Zpos m2)). apply Zmult_compare_compat_l. lia.
  - symmetry. apply Z.compare_lt_iff. assert (2 ^ d1 <= 2 ^ (d2 - 1)) by (apply Z.pow_le_mono_r; lia). lia.
  - symmetry. apply Z.compare_gt_iff. assert (2 ^ d2 <= 2 ^ (d1 - 1)) by (apply Z.pow_le_mono_r; lia). lia.
Qed.

Lemma compare_dbl a b : Z.abs a < 2 ^ 53 → Z.abs b < 2 ^ 53 →
  SFcompare (binary_normalize 53 1024 a 0 false) (binary_normalize 53 1024 b 0 false) = Some (a ?= b).
Proof.
  intros Ha Hb.
  destruct a as [|m1|m1], b as [|m2|m2]; cbn -[binary_round] in *;
    try destruct (round_exact false m1 Ha) as (z1 & -> & E1); try destruct (round_exact true m1 Ha) as (z1 & -> & E1);
    try destruct (round_exact false m2 Hb) as (z2 & -> & E2); try destruct (round_exact true m2 Hb) as (z2 & -> & E2);
    cbn -[Z.sub Z.compare Pos.compare_cont]; try done.
  - f_equal. transitivity (Zpos m1 ?= Zpos m2); [|done].
    rewrite <-(compare_shifted m1 m2 z1 z2 Ha Hb E1 E2). by destruct (_ ?= _).
  - f_equal. transitivity (CompOpp (Zpos m1 ?= Zpos m2)); [|done].
    rewrite <-(compare_shifted m1 m2 z1 z2 Ha Hb E1 E2). by destruct (_ ?= _).
Qed.

Lemma dbl_le a b : Z.abs a < 2 ^ 53 → Z.abs b < 2 ^ 53 → num_le (dbl a) (dbl b) = (a <=? b).
Proof. intros Ha Hb. unfold num_le, dbl, of_Z, SFleb, Z.leb. cbn [flt_type]. rewrite compare_dbl by done. by destruct (_ ?= _). Qed.
Lemma dbl_lt a b : Z.abs a < 2 ^ 53 → Z.abs b < 2 ^ 53 → num_lt (dbl a) (dbl b) = (a <? b).
Proof. intros Ha Hb. unfold num_lt, dbl, of_Z, SFltb, Z.ltb. cbn [flt_type]. rewrite compare_dbl by done. by destruct (_ ?= _). Qed.
Lemma dbl_eq a b : Z.abs a < 2 ^ 53 → Z.abs b < 2 ^ 53 → SFeqb (binary_normalize 53 1024 a 0 false) (binary_normalize 53 1024 b 0 false) = (a =? b).
Proof. intros Ha Hb. unfold SFeqb. rewrite compare_dbl, Z.eqb_compare by done. by destruct (_ ?= _). Qed.
