(* ===== verification/Attribute.v ===== *)
(** * Attributes: their value, their alarms and their limits

  [Attribute] (src/src/server/attribute.cpp, attribute.h): the value read, with its
  quality and the alarms it raises, and the alarm configuration with the methods that
  set it (attribute_utils.cpp).  A value is a sequence of numbers or of encoded data;
  the members of [Attr_CheckVal], a union read with the type of the attribute, are
  one number.  The monitor of the configuration and the log messages are not
  modelled. *)
From Stdlib Require Import SpecFloat.
From stdpp Require Import pretty.
From S2P Require Import Prelude StateExn CppString PollRing AttrHistory Number.
Local Open Scope string_scope.
Local Open Scope list_scope.
Local Open Scope Z_scope.

(** ** Data *)

Inductive AttrDataFormat := SCALAR | SPECTRUM | IMAGE | FMT_UNKNOWN.
#[export] Instance AttrDataFormat_eq : EqDecision AttrDataFormat.
Proof. solve_decision. Defined.

Inductive alarm_flags := min_level | max_level | rds | min_warn | max_warn.
#[export] Instance alarm_flags_eq : EqDecision alarm_flags.
Proof. solve_decision. Defined.

(** A [std::bitset] of the flags. *)
Record bits := mkBits { b_min_level : bool; b_max_level : bool; b_rds : bool; b_min_warn : bool; b_max_warn : bool }.
#[export] Instance bits_eq : EqDecision bits.
Proof. solve_decision. Defined.
Definition no_bits : bits := mkBits false false false false false.
Definition test (f : alarm_flags) (b : bits) : bool :=
  match f with
  | min_level => b_min_level b | max_level => b_max_level b | rds => b_rds b
  | min_warn => b_min_warn b | max_warn => b_max_warn b
  end.
Definition put (f : alarm_flags) (v : bool) (b : bits) : bits :=
  match f with
  | min_level => mkBits v (b_max_level b) (b_rds b) (b_min_warn b) (b_max_warn b)
  | max_level => mkBits (b_min_level b) v (b_rds b) (b_min_warn b) (b_max_warn b)
  | rds => mkBits (b_min_level b) (b_max_level b) v (b_min_warn b) (b_max_warn b)
  | min_warn => mkBits (b_min_level b) (b_max_level b) (b_rds b) v (b_max_warn b)
  | max_warn => mkBits (b_min_level b) (b_max_level b) (b_rds b) (b_min_warn b) v
  end.
Definition any (b : bits) : bool := b_min_level b || b_max_level b || b_rds b || b_min_warn b || b_max_warn b.

(** What [AttrValue] holds: a sequence of numbers, of encoded data (a format and bytes),
    or of data without an order. *)
Inductive Storage :=
  | Seq (l : list Num)
  | Encoded (l : list (string * list Num))
  | OtherSeq (n : nat).

(** The four limits: min_alarm, max_alarm, min_warning and max_warning. *)
Record quad (A : Type) := mkQuad { q_min_alarm : A; q_max_alarm : A; q_min_warning : A; q_max_warning : A }.
Arguments mkQuad {A}. Arguments q_min_alarm {A}. Arguments q_max_alarm {A}.
Arguments q_min_warning {A}. Arguments q_max_warning {A}.
Inductive limit := MinAlarm | MaxAlarm | MinWarning | MaxWarning.
#[export] Instance limit_eq : EqDecision limit.
Proof. solve_decision. Defined.
Definition qget {A} (k : limit) (q : quad A) : A :=
  match k with
  | MinAlarm => q_min_alarm q | MaxAlarm => q_max_alarm q
  | MinWarning => q_min_warning q | MaxWarning => q_max_warning q
  end.
Definition qset {A} (k : limit) (x : A) (q : quad A) : quad A :=
  match k with
  | MinAlarm => mkQuad x (q_max_alarm q) (q_min_warning q) (q_max_warning q)
  | MaxAlarm => mkQuad (q_min_alarm q) x (q_min_warning q) (q_max_warning q)
  | MinWarning => mkQuad (q_min_alarm q) (q_max_alarm q) x (q_max_warning q)
  | MaxWarning => mkQuad (q_min_alarm q) (q_max_alarm q) (q_min_warning q) x
  end.

(** The part of a [WAttribute] that the read-different-from-set alarm uses. *)
Record WritePart := mkWrite {
  write_date : TimeVal;
  last_written : Storage;
  delta_t : Z;
  delta_val : Num;
}.

(** What is fixed when the attribute is created. *)
Record AttrInfo := mkInfo {
  name : string;
  label : string;
  data_type : CmdArgType;
  data_format : AttrDataFormat;
  max_x : Z;
  max_y : Z;
  enum_labels : list string;
  is_fwd_att : bool;
  poll_period : Z;
}.

(** Requests to the database, with the text of the property that is written. *)
Inductive DbRequest := PutProp (prop : string) (text : option string) | DeleteProp (prop : string).

Record Attribute := mkAttribute {
  info : AttrInfo;
  quality : AttrQuality;
  alarm : bits;
  attribute_value : option Storage;
  dims : Z * Z;
  data_size : Z;
  wpart : option WritePart;
  alarm_conf : bits;
  limits : quad Num;
  limit_strs : quad string;
  check_startup_exceptions : bool;
  startup_exceptions : list string;
  conf_events : Z;
  run_att_conf_loop : bool;
  db_requests : list DbRequest;
  date : bool;
  att_mem_exception : bool;
}.
Implicit Types a : Attribute.

Definition set_quality_field q a := mkAttribute (info a) q (alarm a) (attribute_value a) (dims a) (data_size a) (wpart a) (alarm_conf a) (limits a) (limit_strs a) (check_startup_exceptions a) (startup_exceptions a) (conf_events a) (run_att_conf_loop a) (db_requests a) (date a) (att_mem_exception a).
Definition set_alarm b a := mkAttribute (info a) (quality a) b (attribute_value a) (dims a) (data_size a) (wpart a) (alarm_conf a) (limits a) (limit_strs a) (check_startup_exceptions a) (startup_exceptions a) (conf_events a) (run_att_conf_loop a) (db_requests a) (date a) (att_mem_exception a).
Definition set_storage v a := mkAttribute (info a) (quality a) (alarm a) v (dims a) (data_size a) (wpart a) (alarm_conf a) (limits a) (limit_strs a) (check_startup_exceptions a) (startup_exceptions a) (conf_events a) (run_att_conf_loop a) (db_requests a) (date a) (att_mem_exception a).
Definition set_dims d n a := mkAttribute (info a) (quality a) (alarm a) (attribute_value a) d n (wpart a) (alarm_conf a) (limits a) (limit_strs a) (check_startup_exceptions a) (startup_exceptions a) (conf_events a) (run_att_conf_loop a) (db_requests a) (date a) (att_mem_exception a).
Definition set_conf c l s a := mkAttribute (info a) (quality a) (alarm a) (attribute_value a) (dims a) (data_size a) (wpart a) c l s (check_startup_exceptions a) (startup_exceptions a) (conf_events a) (run_att_conf_loop a) (db_requests a) (date a) (att_mem_exception a).
Definition set_startup b l r a := mkAttribute (info a) (quality a) (alarm a) (attribute_value a) (dims a) (data_size a) (wpart a) (alarm_conf a) (limits a) (limit_strs a) b l (conf_events a) r (db_requests a) (date a) (att_mem_exception a).
Definition push_conf_event a := mkAttribute (info a) (quality a) (alarm a) (attribute_value a) (dims a) (data_size a) (wpart a) (alarm_conf a) (limits a) (limit_strs a) (check_startup_exceptions a) (startup_exceptions a) (conf_events a + 1) (run_att_conf_loop a) (db_requests a) (date a) (att_mem_exception a).
Definition add_db r a := mkAttribute (info a) (quality a) (alarm a) (attribute_value a) (dims a) (data_size a) (wpart a) (alarm_conf a) (limits a) (limit_strs a) (check_startup_exceptions a) (startup_exceptions a) (conf_events a) (run_att_conf_loop a) (db_requests a ++ [r]) (date a) (att_mem_exception a).

Definition wanted_date (flag : bool) a := mkAttribute (info a) (quality a) (alarm a) (attribute_value a) (dims a) (data_size a) (wpart a) (alarm_conf a) (limits a) (limit_strs a) (check_startup_exceptions a) (startup_exceptions a) (conf_events a) (run_att_conf_loop a) (db_requests a) flag (att_mem_exception a).

Definition raise (f : alarm_flags) (q : AttrQuality) a : Attribute :=
  set_alarm (put f true (alarm a)) (set_quality_field q a).
Definition seq_of a : option (list Num) := match attribute_value a with Some (Seq l) => Some l | _ => None end.

(** ** The value *)

Definition compute_data_size (f : AttrDataFormat) (x y : Z) : Z :=
  match f with SCALAR => 1 | SPECTRUM => x | IMAGE => x * y | FMT_UNKNOWN => 0 end.

Definition reset_value a : Attribute := set_storage None a.
Definition value_is_set a : bool := bool_decide (is_Some (attribute_value a)).
Definition delete_seq a : Attribute := set_dims (dims a) 0 (set_storage None a).
Definition delete_seq_and_reset_alarm a : Attribute :=
  set_alarm no_bits (set_quality_field ATTR_VALID (delete_seq a)).
(** [set_quality], without an event. *)
Definition set_quality (q : AttrQuality) a : Attribute := set_quality_field q a.

Definition opt_prop_error {A} (d o : string) : SM Attribute A := throw "API_AttrOptProp" d o.

(** The value of an array, of which [data_size] elements are taken; a null pointer is
    only an error when there is something to take. *)
Definition take_data {A} (n : Z) (p_data : option (list A)) (nm : string) : SM Attribute (list A) :=
  match p_data with
  | None => if n =? 0 then mret [] else opt_prop_error ("Data pointer for attribute " +:+ nm +:+ " is NULL!") "Attribute::set_value"
  | Some l => if n <=? Z.of_nat (length l) then mret (take (Z.to_nat n) l) else lift Undef
  end.

(** The test of the size, the size (of 32 bits) and the default quality; then the check
    of the pointer: [set_value] up to the storage of the data.  The date of the value is
    not modelled. *)
Definition new_value {A} (p_data : option (list A)) (x y : Z) : SM Attribute (list A) :=
  a ← get;
  when_ ((max_x (info a) <? x) || (max_y (info a) <? y))
    (opt_prop_error ("Data size for attribute " +:+ name (info a) +:+ " exceeds given limit") "Attribute::set_value");;
  let n := compute_data_size (data_format (info a)) x y mod 2 ^ 32 in
  modify (λ a, set_quality_field ATTR_VALID (set_dims (x, y) n a));;
  take_data n p_data (name (info a)).

Definition wrong_type (t : CmdArgType) : SM Attribute unit :=
  a ← get; opt_prop_error ("Invalid incoming data type for attribute " +:+ name (info a)) "Attribute::set_value".

(** [set_value] for the numbers. *)
Definition set_value (t : CmdArgType) (p_data : option (list Num)) (x y : Z) : SM Attribute unit :=
  a ← get;
  when_ (negb (bool_decide (data_type (info a) = t))) (wrong_type t);;
  l ← new_value p_data x y;
  modify (λ a, set_alarm no_bits (set_storage (Some (Seq l)) a)).

(** The same for [DevShort], which is also the type of the enumerations. *)
Fixpoint check_enum_values (nb_labels : nat) (l : list Num) : SM Attribute unit :=
  match l with
  | [] => mret tt
  | x :: l =>
      a ← get;
      when_ (num_lt x (I 0) || num_gt x (I (Z.of_nat nb_labels - 1)))
        (opt_prop_error ("Wrong value for attribute " +:+ name (info a)) "Attribute::set_value");;
      check_enum_values nb_labels l
  end.
Definition set_value_short (p_data : option (list Num)) (x y : Z) : SM Attribute unit :=
  a ← get;
  when_ (negb (bool_decide (data_type (info a) = DEV_SHORT)) && negb (bool_decide (data_type (info a) = DEV_ENUM)))
    (wrong_type DEV_SHORT);;
  l ← new_value p_data x y;
  when_ (bool_decide (data_type (info a) = DEV_ENUM))
    (when_ (bool_decide (enum_labels (info a) = []))
       (opt_prop_error ("Attribute " +:+ name (info a) +:+ " data type is enum but no enum labels are defined!") "Attribute::set_value");;
     check_enum_values (length (enum_labels (info a))) l);;
  modify (λ a, set_alarm no_bits (set_storage (Some (Seq l)) a)).

Definition set_value_encoded (p_data : option (list (string * list Num))) (x y : Z) : SM Attribute unit :=
  a ← get;
  when_ (negb (bool_decide (data_type (info a) = DEV_ENCODED))) (wrong_type DEV_ENCODED);;
  l ← new_value p_data x y;
  modify (λ a, set_alarm no_bits (set_storage (Some (Encoded l)) a)).

(** ** Alarms *)

(** A loop over [n] elements from index [i] that stops at the first one that
    satisfies [p]. *)
Fixpoint any_elt {A} (p : A → bool) (l : list A) (n : nat) (i : Z) : outcome bool :=
  match n with
  | O => Ok false
  | S n => x ← vget l i; if p x then Ok true else any_elt p l n (i + 1)
  end.

(** The same over the storage of the value, which is only read when there are elements. *)
Definition storage_any (p : Num → bool) (storage : option (list Num)) (n : nat) : outcome bool :=
  match n with O => Ok false | S _ => l ← deref storage; any_elt p l n 0 end.

(** The two halves of [general_check_alarm]: the elements [p] raise the flag [f]. *)
Definition check_side (f : alarm_flags) (q : AttrQuality) (p : Num → bool) (n : nat) (storage : option (list Num)) : SM Attribute bool :=
  a ← get;
  if test f (alarm_conf a) then
    found ← lift (storage_any p storage n);
    when_ found (modify (raise f q));; mret found
  else mret false.

Definition general_check_alarm (q : AttrQuality) (min max : alarm_flags) (min_value max_value : Num)
    (n : nat) (storage : option (list Num)) : SM Attribute bool :=
  low ← check_side min q (λ x, num_le x min_value) n storage;
  high ← check_side max q (λ x, num_ge x max_value) n storage;
  mret (low || high).

(** The flags of [general_check_alarm] for a quality, and those of
    [general_check_devencoded_alarm], which are the same for both. *)
Definition level_flags (q : AttrQuality) : option (alarm_flags * alarm_flags) :=
  match q with ATTR_ALARM => Some (min_level, max_level) | ATTR_WARNING => Some (min_warn, max_warn) | _ => None end.
Definition encoded_flags (q : AttrQuality) : option (alarm_flags * alarm_flags) :=
  match q with ATTR_ALARM | ATTR_WARNING => Some (min_level, max_level) | _ => None end.
Definition unknown_alarm {A} : SM Attribute A := throw "API_InternalError" "Unknown alarm_type" "Attribute::general_check_alarm".

Definition check_numbers (q : AttrQuality) (min_value max_value : Num) : SM Attribute bool :=
  a ← get;
  match level_flags q with
  | Some (min, max) => general_check_alarm q min max min_value max_value (Z.to_nat (data_size a)) (seq_of a)
  | None => unknown_alarm
  end.

(** The first encoded data of the value, a pointer followed without a test. *)
Definition check_encoded (q : AttrQuality) (min_value max_value : Num) : SM Attribute bool :=
  a ← get;
  match encoded_flags q with
  | Some (min, max) =>
      bytes ← lift (match attribute_value a with Some (Encoded l) => (x ← vget l 0; Ok (snd x)) | _ => Undef end);
      general_check_alarm q min max min_value max_value (length bytes) (Some bytes)
  | None => unknown_alarm
  end.

(** The types with alarms. *)
Definition is_numeric (t : CmdArgType) : bool :=
  match t with
  | DEV_SHORT | DEV_LONG | DEV_LONG64 | DEV_DOUBLE | DEV_FLOAT | DEV_USHORT | DEV_UCHAR | DEV_ULONG64 | DEV_ULONG => true
  | _ => false
  end.

Definition check_thresholds (q : AttrQuality) (min_value max_value : Num) : SM Attribute bool :=
  a ← get;
  if is_numeric (data_type (info a)) then check_numbers q min_value max_value
  else if bool_decide (data_type (info a) = DEV_ENCODED) then check_encoded q min_value max_value
  else mret false.
Definition check_level_alarm : SM Attribute bool :=
  a ← get; check_thresholds ATTR_ALARM (q_min_alarm (limits a)) (q_max_alarm (limits a)).
Definition check_warn_alarm : SM Attribute bool :=
  a ← get; check_thresholds ATTR_WARNING (q_min_warning (limits a)) (q_max_warning (limits a)).

(** ** Read different from set (src/src/server/w_attribute.cpp) *)

(** One pair of elements: the value written and the value read. *)
Definition pair_out_of_range (t : CmdArgType) (delta last_val curr_val : Num) : outcome bool :=
  let far := (d ← (if num_gt last_val curr_val then num_sub t last_val curr_val else num_sub t curr_val last_val);
              Ok (num_ge d delta)) in
  let beyond (sign : bool) bound (p : Num → bool) : outcome bool :=
    if sign then s ← num_add t bound last_val; Ok (p s) else Ok false in
  if negb (eqb (isnan last_val) (isnan curr_val)) then Ok true
  else if is_signed t then
    over ← beyond (num_lt last_val (zero t)) (limit_max t) (λ s, num_gt curr_val s);
    if (over : bool) then Ok true
    else
      under ← beyond (num_ge last_val (zero t)) (limit_min t) (λ s, num_le curr_val s);
      if (under : bool) then Ok true else far
  else far.

Fixpoint pairs_out_of_range (t : CmdArgType) (delta : Num) (array_val val_seq : list Num) (n : nat) (i : Z) : outcome bool :=
  match n with
  | O => Ok false
  | S n =>
      last_val ← vget array_val i;
      curr_val ← vget val_seq i;
      out_of_range ← pair_out_of_range t delta last_val curr_val;
      if (out_of_range : bool) then Ok true else pairs_out_of_range t delta array_val val_seq n (i + 1)
  end.

Definition check_rds_out_of_range (t : CmdArgType) (array_val val_seq : list Num) : SM Attribute bool :=
  a ← get;
  w ← lift (deref (wpart a));
  let nb_read := if bool_decide (data_format (info a) = SCALAR) then 1%nat else length val_seq in
  out_of_range ← lift (pairs_out_of_range t (delta_val w) array_val val_seq (Nat.min nb_read (length array_val)) 0);
  when_ out_of_range (modify (raise rds ATTR_ALARM));; mret out_of_range.

(** Bytes are compared as [int]. *)
Fixpoint bytes_out_of_range (delta : Num) (written read : list Num) (n : nat) (i : Z) : outcome bool :=
  match n with
  | O => Ok false
  | S n =>
      x ← vget written i; y ← vget read i;
      far ← (match x, y with I x, I y => Ok (num_ge (I (Z.abs (x - y))) delta) | _, _ => Undef end : outcome bool);
      if (far : bool) then Ok true else bytes_out_of_range delta written read n (i + 1)
  end.
Definition check_rds_encoded (written read : string * list Num) : SM Attribute bool :=
  a ← get;
  w ← lift (deref (wpart a));
  out_of_range ← (if negb (bool_decide (fst written = fst read)) then mret true
                  else lift (bytes_out_of_range (delta_val w) (snd written) (snd read)
                               (Nat.min (length (snd written)) (length (snd read))) 0) : SM Attribute bool);
  when_ out_of_range (modify (raise rds ATTR_ALARM));; mret out_of_range.

(** [WAttribute::check_rds_alarm], at the system date [now] in nanoseconds; an
    [Attribute] that is not writable answers false. *)
Definition check_rds_alarm (now : Z) : SM Attribute bool :=
  a ← get;
  match wpart a with
  | None => mret false
  | Some w =>
      if tv_sec (write_date w) =? 0 then mret false
      else if now - make_system_time (write_date w) <? delta_t w * 1000000 then mret false
      else if is_numeric (data_type (info a)) then
        read ← lift (deref (seq_of a));
        match last_written w with
        | Seq written => check_rds_out_of_range (data_type (info a)) written read
        | _ => lift Undef
        end
      else if bool_decide (data_type (info a) = DEV_ENCODED) then
        match attribute_value a, last_written w with
        | Some (Encoded (read :: _)), Encoded (written :: _) => check_rds_encoded written read
        | _, _ => lift Undef
        end
      else mret false
  end.

(** ** [check_alarm] *)

Definition check_alarm (now : Z) : SM Attribute bool :=
  a ← get;
  let returned := bool_decide (quality a = ATTR_ALARM) || bool_decide (quality a = ATTR_WARNING) in
  let bs := alarm_conf a in
  when_ (negb (any bs)) (throw "API_AttrNoAlarm" ("No alarm defined for attribute " +:+ name (info a)) "Attribute::check_alarm");;
  if negb (is_fwd_att (info a)) && negb (bool_decide (quality a = ATTR_VALID)) then mret returned
  else
    level ← (if test min_level bs || test max_level bs then check_level_alarm else mret false : SM Attribute bool);
    let returned := returned || level in
    warn ← (if negb returned && (test min_warn bs || test max_warn bs) then check_warn_alarm else mret false : SM Attribute bool);
    let returned := returned || warn in
    rds_alarm ← (if test rds bs then check_rds_alarm now else mret false : SM Attribute bool);
    mret (returned || rds_alarm).

(** ** Setting a limit *)

Definition limit_name (k : limit) : string :=
  match k with
  | MinAlarm => "min_alarm" | MaxAlarm => "max_alarm" | MinWarning => "min_warning" | MaxWarning => "max_warning"
  end.
Definition limit_flag (k : limit) : alarm_flags :=
  match k with MinAlarm => min_level | MaxAlarm => max_level | MinWarning => min_warn | MaxWarning => max_warn end.
Definition opposite (k : limit) : limit :=
  match k with MinAlarm => MaxAlarm | MaxAlarm => MinAlarm | MinWarning => MaxWarning | MaxWarning => MinWarning end.
(** The test against the other limit: the new one is on the wrong side. *)
Definition incoherent (k : limit) (x other : Num) : bool :=
  match k with MinAlarm | MinWarning => num_ge x other | MaxAlarm | MaxWarning => num_le x other end.

(** What a limit is written as in the database. *)
Definition AlrmValueNotSpec : string := "Not specified".
Definition NotANumber : string := "NaN".

(** The integer part of a floating-point number. *)
Definition truncate (f : spec_float) : option Z :=
  match f with
  | S754_zero _ => Some 0
  | S754_finite s m e =>
      let v := if 0 <=? e then Zpos m * 2 ^ e else Zpos m / 2 ^ (- e) in
      Some (if s then - v else v)
  | _ => None
  end.

Section Limits.
(** The server: its state, the database (the answer to a request, once it is
    reachable), and the values of the properties defined by the user and by the class;
    [show_float] is what an output stream writes, [read_double] and [read_float] what
    an input stream reads when the whole text is a number. *)
Context (d_name : string) (svr_starting dev_restarting use_db : bool) (db : DbRequest → outcome unit)
  (user_defaults class_defaults : list (string * string))
  (show_float : CmdArgType → spec_float → string) (read_double read_float : string → option spec_float).

Definition starting : bool := svr_starting || dev_restarting.
Definition show (t : CmdArgType) (x : Num) : string :=
  match x with I z => pretty z | F f => show_float t f end.

Definition db_request (r : DbRequest) : SM Attribute unit := lift (db r);; modify (add_db r).

(** [detail::prop_in_list]. *)
Definition prop_in_list (nm : string) (l : list (string * string)) : option string :=
  snd ∘ snd <$> list_find (λ p : string * string, fst p = nm) l.

(** The errors, and the method that throws them. *)
Definition nl : string := String (Ascii.ascii_of_nat 10) "".
Definition setter (prop : string) : string := "Attribute::set_" +:+ prop +:+ "()".
Definition throw_err_data_type {A} (prop : string) : SM Attribute A :=
  a ← get;
  throw "API_AttrOptProp" ("Device " +:+ d_name +:+ "-> Attribute : " +:+ name (info a)
    +:+ nl +:+ "The property " +:+ prop +:+ " is not settable for the attribute data type") (setter prop).
Definition throw_err_format {A} (prop : string) : SM Attribute A :=
  a ← get;
  throw "API_AttrOptProp" ("Device " +:+ d_name +:+ "-> Attribute : " +:+ name (info a)
    +:+ nl +:+ "The property " +:+ prop +:+ " is defined in an unsupported format") (setter prop).
Definition throw_incoherent_val_err {A} (min_prop max_prop prop : string) : SM Attribute A :=
  a ← get;
  throw "API_IncoherentValues" ("Device " +:+ d_name +:+ "-> Attribute : " +:+ name (info a)
    +:+ nl +:+ "Value of " +:+ min_prop +:+ " is greater than or equal to " +:+ max_prop) (setter prop).

(** [detail::delete_startup_exception]: [erase] of the map of exceptions. *)
Definition delete_startup_exception (prop : string) : SM Attribute unit :=
  a ← get;
  when_ (check_startup_exceptions a)
    (let l := filter (λ p, p ≠ prop) (startup_exceptions a) in
     let dev_restart := if bool_decide (d_name = "None") then false else dev_restarting in
     modify (set_startup (if bool_decide (l = []) then false else check_startup_exceptions a) l
               (run_att_conf_loop a || (negb svr_starting && negb dev_restart)))).

(** [detail::upd_att_prop_db]: there is no case for [DEV_ENCODED]. *)
Definition upd_att_prop_db (prop : string) (x : Num) : SM Attribute unit :=
  a ← get;
  db_request (PutProp prop (if bool_decide (data_type (info a) = DEV_ENCODED) then None else Some (show (data_type (info a)) x))).

(** [m], and the change [undo] if it throws a [DevFailed]. *)
Definition or_restore (m : SM Attribute unit) (undo : Attribute → Attribute) : SM Attribute unit := λ a,
  match m a with
  | Some (a', inl (DevFailed l)) => Some (undo a', inl (DevFailed l))
  | r => r
  end.

Definition set_limit_value (k : limit) (x : Num) a : Attribute := set_conf (alarm_conf a) (qset k x (limits a)) (limit_strs a) a.
Definition set_limit_str_value (k : limit) (s : string) a : Attribute := set_conf (alarm_conf a) (limits a) (qset k s (limit_strs a)) a.
Definition set_limit_flag (k : limit) a : Attribute := set_conf (put (limit_flag k) true (alarm_conf a)) (limits a) (limit_strs a) a.

Definition no_limit_type (t : CmdArgType) : bool :=
  bool_decide (t = DEV_STRING) || bool_decide (t = DEV_BOOLEAN) || bool_decide (t = DEV_STATE).

(** The methods with a number of type [t]. *)
Definition set_limit (k : limit) (t : CmdArgType) (x : Num) : SM Attribute unit :=
  a ← get;
  let prop := limit_name k in
  let ty := data_type (info a) in
  when_ (no_limit_type ty || bool_decide (ty = DEV_ENUM)) (throw_err_data_type prop);;
  when_ (negb (bool_decide (ty = DEV_ENCODED) && bool_decide (t = DEV_UCHAR)) && negb (bool_decide (ty = t)))
    (throw "API_IncompatibleAttrDataType" ("Attribute (" +:+ name (info a) +:+ ") data type does not match the type provided")
       "Attribute::set_limit");;
  when_ (test (limit_flag (opposite k)) (alarm_conf a) && incoherent k x (qget (opposite k) (limits a)))
    (match k with
     | MinAlarm | MaxAlarm => throw_incoherent_val_err "min_alarm" "max_alarm" prop
     | MinWarning | MaxWarning => throw_incoherent_val_err "min_warning" "max_warning" prop
     end);;
  let text := show t x in
  modify (set_limit_value k x);;
  when_ use_db
    (if bool_decide (prop_in_list prop user_defaults = Some text) then db_request (DeleteProp prop)
     else or_restore (upd_att_prop_db prop x) (set_limit_value k (qget k (limits a))));;
  modify (set_limit_flag k);;
  modify (set_limit_str_value k text);;
  when_ (negb starting) (modify push_conf_event);;
  delete_startup_exception prop.

Definition set_min_alarm := set_limit MinAlarm.
Definition set_max_alarm := set_limit MaxAlarm.
Definition set_min_warning := set_limit MinWarning.
Definition set_max_warning := set_limit MaxWarning.

(** [detail::avns_in_db] and [avns_in_att]: the property is given the text "Not
    specified"; the flag that is reset is a local variable of the callers. *)
Definition avns_in_db (prop : string) : SM Attribute unit := when_ use_db (db_request (PutProp prop (Some AlrmValueNotSpec))).
Definition avns_in_att (k : limit) : SM Attribute unit :=
  modify (set_limit_str_value k AlrmValueNotSpec);; when_ (negb starting) (modify push_conf_event).

(** Which text a text given by the user stands for; [None] is no limit. *)
Definition ci_eq (s1 s2 : string) : bool := bool_decide (tolower s1 = tolower s2).
Definition resolve_text (k : limit) (text : string) : option string :=
  match prop_in_list (limit_name k) class_defaults, prop_in_list (limit_name k) user_defaults with
  | Some class_def, user_def =>
      if ci_eq text AlrmValueNotSpec then None
      else if ci_eq text NotANumber || ci_eq text class_def then Some class_def
      else if bool_decide (text = "") then user_def
      else Some text
  | None, Some user_def =>
      if ci_eq text AlrmValueNotSpec then None
      else if ci_eq text NotANumber || ci_eq text user_def || bool_decide (text = "") then Some user_def
      else Some text
  | None, None =>
      if ci_eq text AlrmValueNotSpec || ci_eq text NotANumber || bool_decide (text = "") then None else Some text
  end.

(** The cast of a [double] to an integer type: out of its bounds it is undefined. *)
Definition cast (t : CmdArgType) (f : spec_float) : outcome Num :=
  match truncate f with Some z => if has_type t (I z) then Ok (I z) else Undef | None => Undef end.
Definition parse_limit (t : CmdArgType) (text : string) : option (outcome (CmdArgType * Num)) :=
  match t with
  | DEV_FLOAT => (λ f, Ok (DEV_FLOAT, F f)) <$> read_float text
  | DEV_DOUBLE => (λ f, Ok (DEV_DOUBLE, F f)) <$> read_double text
  | DEV_SHORT | DEV_LONG | DEV_LONG64 => (λ f, x ← cast t f; Ok (t, x)) <$> read_double text
  | DEV_USHORT | DEV_UCHAR | DEV_ULONG | DEV_ULONG64 | DEV_ENCODED =>
      let t := if bool_decide (t = DEV_ENCODED) then DEV_UCHAR else t in
      (λ f, x ← cast t (if SFltb f (S754_zero false) then SFopp f else f); Ok (t, x)) <$> read_double text
  | _ => Some Undef
  end.

(** The methods with a text. *)
Definition set_limit_text (k : limit) (text : string) : SM Attribute unit :=
  a ← get;
  let prop := limit_name k in
  let ty := data_type (info a) in
  when_ (no_limit_type ty) (throw_err_data_type prop);;
  match resolve_text k text with
  | None => avns_in_db prop;; avns_in_att k
  | Some text =>
      if bool_decide (ty = DEV_ENUM) then throw_err_data_type prop
      else
        match parse_limit ty text with
        | None => throw_err_format prop
        | Some v => '(t, x) ← lift v; set_limit k t x
        end
  end.
Definition set_min_alarm_text := set_limit_text MinAlarm.
Definition set_max_alarm_text := set_limit_text MaxAlarm.
Definition set_min_warning_text := set_limit_text MinWarning.
Definition set_max_warning_text := set_limit_text MaxWarning.
End Limits.

(** The methods that read a limit. *)
Definition get_limit (k : limit) (t : CmdArgType) : SM Attribute Num :=
  a ← get;
  let ty := data_type (info a) in
  when_ (negb (bool_decide (ty = DEV_ENCODED) && bool_decide (t = DEV_UCHAR)) && negb (bool_decide (ty = t)))
    (throw "API_IncompatibleAttrDataType" ("Attribute (" +:+ name (info a) +:+ ") data type does not match the type provided")
       "Attribute::get_limit");;
  when_ (no_limit_type ty || bool_decide (ty = DEV_ENUM))
    (throw "API_AttrOptProp" (limit_name k +:+ " has no meaning for the data type of " +:+ name (info a)) "Attribute::get_limit");;
  when_ (negb (test (limit_flag k) (alarm_conf a)))
    (throw "API_AttrNotAllowed" (limit_name k +:+ " not defined for this attribute") "Attribute::get_limit");;
  mret (qget k (limits a)).
Definition get_min_alarm := get_limit MinAlarm.
Definition get_max_alarm := get_limit MaxAlarm.
Definition get_min_warning := get_limit MinWarning.
Definition get_max_warning := get_limit MaxWarning.
