(* ===== verification/AttrTheory.v ===== *)
(** * Properties of the alarms and of the limits of an attribute *)
From Stdlib Require Import SpecFloat.
From S2P Require Import Prelude StateExn PollRing AttrHistory CppString Number Attribute.
Local Open Scope string_scope.
Local Open Scope list_scope.
Local Open Scope Z_scope.
Implicit Types a : Attribute.

(** ** Loops *)

Lemma any_elt_from {A} (p : A → bool) (l : list A) n i :
  (i + n <= length l)%nat → any_elt p l n (Z.of_nat i) = Ok (existsb p (take n (drop i l))).
Proof.
  revert i. induction n as [|n IH]; intros i H; [by rewrite take_0|]. simpl.
  destruct (lookup_lt_is_Some_2 l i ltac:(lia)) as [x Hx]. rewrite (vget_nat _ _ _ Hx), bind_Ok.
  rewrite (drop_S _ _ _ Hx). simpl. destruct (p x); [done|]. replace (Z.of_nat i + 1) with (Z.of_nat (S i)) by lia.
  apply IH. lia.
Qed.
Lemma any_elt_all {A} (p : A → bool) (l : list A) : any_elt p l (length l) 0 = Ok (existsb p l).
Proof. change 0 with (Z.of_nat 0). rewrite any_elt_from by lia. by rewrite drop_0, firstn_all. Qed.

(** ** Read different from set *)

Definition width_ok (st : bool * Z) : Prop := snd st = 8 ∨ snd st = 16 ∨ snd st = 32 ∨ snd st = 64.

Lemma int_result_ok st z :
  width_ok st → (if fst st then int_min st else 0) <= z <= int_max st → int_result st z = Ok (I z).
Proof.
  unfold int_result, promoted, int_min, int_max, width_ok. destruct st as [sg w]. cbn [fst snd]. intros Hw Hz.
  assert (2 ^ (w - 1) <= 2 ^ 31 ∧ 2 ^ w <= 2 ^ 32 ∨ 32 <= w) as Hp.
  { destruct Hw as [-> | [-> | [-> | ->]]]; [left; lia|left; lia|right; lia|right; lia]. }
  destruct (Z.ltb_spec w 32); [|destruct sg; cbn [fst snd]].
  - destruct Hp as [Hp|]; [|lia]. simpl. change (-2147483648) with (- 2 ^ 31) in *. rewrite (proj2 (andb_true_iff _ _)); [done|].
    assert (2 * 2 ^ 31 = 2 ^ 32) by done. assert (2 ^ w < 2 ^ 31) by (destruct Hw as [-> | [-> | [-> | ->]]]; lia).
    rewrite !Z.leb_le. destruct sg; lia.
  - rewrite (proj2 (andb_true_iff _ _)); [done|]. rewrite !Z.leb_le. lia.
  - rewrite Z.mod_small; [done|]. lia.
Qed.

Lemma rds_pair t st (d x y : Z) :
  int_type t = Some st → has_type t (I d) = true → has_type t (I x) = true → has_type t (I y) = true →
  pair_out_of_range t (I d) (I x) (I y) = Ok (d <=? Z.abs (x - y)).
Proof.
  intros Ht Hd Hx Hy. rewrite (has_type_int t st) in Hd, Hx, Hy by done.
  assert (width_ok st) as Hw by apply (int_width t _ Ht).
  unfold pair_out_of_range, num_add, num_sub, is_signed, zero, limit_max, limit_min.
  rewrite Ht. cbn [isnan eqb negb num_le num_lt].
  assert ((d' ← (if y <? x then int_result st (x - y) else int_result st (y - x)); Ok (num_ge d' (I d))) =
    Ok (d <=? Z.abs (x - y)) ∨ fst st = true ∧ int_max st < Z.abs (x - y)) as Hfar.
  { assert ((if fst st then int_min st else 0) <= Z.abs (x - y) <= int_max st ∨ fst st = true ∧ int_max st < Z.abs (x - y)) as [H|H].
    { unfold int_min, int_max in *. destruct (fst st); lia. }
    2: { by right. }
    left. destruct (Z.ltb_spec y x); rewrite int_result_ok by (done || lia); rewrite bind_Ok; f_equal; simpl; f_equal; lia. }
  cbn [num_le] in Hfar. destruct (fst st) eqn:Hs; [|by destruct Hfar as [->|[? _]]].
  assert (int_max st = - int_min st - 1 ∧ 0 <= int_max st) as [Hm H0].
  { unfold int_min, int_max. rewrite Hs. assert (0 < 2 ^ (snd st - 1)) by (destruct Hw as [-> | [-> | [-> | ->]]]; done).
    generalize dependent (2 ^ (snd st - 1)). lia. }
  destruct (Z.ltb_spec x 0) as [Hx0|Hx0].
  - rewrite (int_result_ok st (int_max st + x)) by (rewrite ?Hs; done || lia). rewrite bind_Ok; cbn [num_lt num_le]. rewrite bind_Ok. destruct (Z.ltb_spec (int_max st + x) y); [f_equal; symmetry; apply Z.leb_le; lia|].
    rewrite (proj2 (Z.leb_gt 0 x)) by lia. rewrite bind_Ok. destruct Hfar as [->|[_ ?]]; [done|lia].
  - rewrite bind_Ok, (proj2 (Z.leb_le 0 x)) by lia.
    rewrite (int_result_ok st (int_min st + x)) by (rewrite ?Hs; done || lia). rewrite bind_Ok.
    destruct (Z.leb_spec y (int_min st + x)); rewrite bind_Ok; [f_equal; symmetry; apply Z.leb_le; lia|].
    destruct Hfar as [->|[_ ?]]; [done|lia].
Qed.

(** The lower bound of the test for the signed types is [numeric_limits::min()], which for
    the floating-point types is a positive number: a value read equal to the (positive)
    value written is out of range, whatever the threshold. *)
Example rds_double_equal :
  pair_out_of_range DEV_DOUBLE (of_Z DEV_DOUBLE 1000) (of_Z DEV_DOUBLE 10) (of_Z DEV_DOUBLE 10) = Ok true ∧
  pair_out_of_range DEV_DOUBLE (of_Z DEV_DOUBLE 1000) (of_Z DEV_DOUBLE 10) (of_Z DEV_DOUBLE 11) = Ok false ∧
  pair_out_of_range DEV_FLOAT (of_Z DEV_FLOAT 1000) (of_Z DEV_FLOAT 0) (of_Z DEV_FLOAT 0) = Ok true.
Proof. split_and!; vm_compute; reflexivity. Qed.

(** For every type a pair of values has an answer. *)
Lemma pair_total t d x y :
  is_numeric t = true → has_type t d = true → has_type t x = true → has_type t y = true →
  ∃ b, pair_out_of_range t d x y = Ok b.
Proof.
  intros Hn Hd Hx Hy. destruct (int_type t) as [st|] eqn:Ht.
  - destruct d as [d|], x as [x|], y as [y|]; unfold has_type in *; rewrite ?Ht in *; try done.
    eexists. eapply rds_pair; [done|..]; unfold has_type; rewrite Ht; done.
  - unfold has_type in *. rewrite Ht in *. destruct (flt_type t) as [[prec emax]|] eqn:Hf; [|by destruct t].
    destruct d as [d|d], x as [x|x], y as [y|y]; try done.
    unfold pair_out_of_range, num_add, num_sub, is_signed, zero, limit_max, limit_min. rewrite Ht, Hf.
    repeat (rewrite bind_Ok || match goal with |- context [if ?b then _ else _] => destruct b end); eauto.
Qed.

(** The loop over the pairs. *)
Lemma pairs_from t d (far : Num → Num → bool) (l1 l2 : list Num) n i :
  (∀ x y, x ∈ l1 → y ∈ l2 → pair_out_of_range t d x y = Ok (far x y)) →
  (i + n <= length l1)%nat → (i + n <= length l2)%nat →
  pairs_out_of_range t d l1 l2 n (Z.of_nat i) =
    Ok (existsb (λ p, far (fst p) (snd p)) (zip (take n (drop i l1)) (take n (drop i l2)))).
Proof.
  intros Hfar. revert i. induction n as [|n IH]; intros i H1 H2; [by rewrite take_0|]. simpl.
  destruct (lookup_lt_is_Some_2 l1 i ltac:(lia)) as [x Hx]. destruct (lookup_lt_is_Some_2 l2 i ltac:(lia)) as [y Hy].
  rewrite (vget_nat _ _ _ Hx), (vget_nat _ _ _ Hy), !bind_Ok.
  rewrite Hfar by (by eapply list_elem_of_lookup_2). rewrite bind_Ok, (drop_S _ _ _ Hx), (drop_S _ _ _ Hy). simpl.
  destruct (far x y); [done|]. replace (Z.of_nat i + 1) with (Z.of_nat (S i)) by lia. apply IH; lia.
Qed.

(** for the integer types, whatever their width, the comparison of the values written
    and of the values read never overflows, and it answers exactly whether two values of
    the same index, in the part both sequences have, differ by the threshold or more. *)
Theorem rds_integers t st d (written read : list Z) (n : nat) :
  int_type t = Some st → has_type t (I d) = true →
  Forall (λ z, has_type t (I z) = true) written → Forall (λ z, has_type t (I z) = true) read →
  (n <= length written)%nat → (n <= length read)%nat →
  pairs_out_of_range t (I d) (I <$> written) (I <$> read) n 0 =
    Ok (existsb (λ p, d <=? Z.abs (fst p - snd p)) (zip (take n written) (take n read))).
Proof.
  intros Ht Hd Hw Hr H1 H2. change 0 with (Z.of_nat 0).
  rewrite (pairs_from t (I d) (λ x y, match x, y with I x, I y => d <=? Z.abs (x - y) | _, _ => false end)).
  - f_equal. rewrite !drop_0, <-!fmap_take. generalize (take n written) (take n read). clear.
    induction l as [|x l1 IH]; intros [|y l2]; try done. simpl. by rewrite IH.
  - intros x y (x' & -> & Hx)%list_elem_of_fmap (y' & -> & Hy)%list_elem_of_fmap.
    rewrite Forall_forall in Hw, Hr. by eapply rds_pair; eauto.
  - by rewrite length_fmap.
  - by rewrite length_fmap.
Qed.

Lemma rds_integers_witness :
  pairs_out_of_range DEV_LONG (I 10) (I <$> [5; - 2147483648]) (I <$> [0; 2147483647]) 2 0 = Ok true.
Proof. refine (rds_integers DEV_LONG (true, 32) 10 [5; - 2147483648] [0; 2147483647] 2 _ _ _ _ _ _); repeat constructor. Defined.

(** ** [check_alarm] *)

(** The value of an attribute with a numeric type, just read: its elements [l]. *)
Record readable (l : list Num) a : Prop := {
  r_type : is_numeric (data_type (info a)) = true;
  r_value : attribute_value a = Some (Seq l);
  r_size : data_size a = Z.of_nat (length l);
  r_scalar : data_format (info a) = SCALAR → l ≠ [];
  r_typed : Forall (λ x, has_type (data_type (info a)) x = true) l;
  r_write : ∀ w, wpart a = Some w → ∃ written, last_written w = Seq written ∧
    Forall (λ x, has_type (data_type (info a)) x = true) written ∧ has_type (data_type (info a)) (delta_val w) = true;
}.

Definition hits (f : alarm_flags) (p : Num → bool) (l : list Num) a : bool := test f (alarm_conf a) && existsb p l.
Definition too_low l a := hits min_level (λ x, num_le x (q_min_alarm (limits a))) l a.
Definition too_high l a := hits max_level (λ x, num_ge x (q_max_alarm (limits a))) l a.
Definition warn_low l a := hits min_warn (λ x, num_le x (q_min_warning (limits a))) l a.
Definition warn_high l a := hits max_warn (λ x, num_ge x (q_max_warning (limits a))) l a.

(** The read value is far from the written one, and the time to follow is over. *)
Definition pair_far (t : CmdArgType) (d x y : Num) : bool :=
  match pair_out_of_range t d x y with Ok b => b | _ => false end.
Definition rds_due (now : Z) (w : WritePart) : bool :=
  negb (tv_sec (write_date w) =? 0) && (delta_t w * 1000000 <=? now - make_system_time (write_date w)).
Definition read_far (now : Z) (l : list Num) a : bool :=
  test rds (alarm_conf a) &&
  match wpart a with
  | Some w =>
      rds_due now w &&
      match last_written w with
      | Seq written =>
          let n := Nat.min (if bool_decide (data_format (info a) = SCALAR) then 1 else length l) (length written) in
          existsb (λ p, pair_far (data_type (info a)) (delta_val w) (fst p) (snd p)) (zip (take n written) (take n l))
      | _ => false
      end
  | None => false
  end.

Lemma storage_any_all p l : storage_any p (Some l) (length l) = Ok (existsb p l).
Proof. rewrite <-any_elt_all. by destruct l. Qed.

Lemma check_side_run f q p l a :
  check_side f q p (length l) (Some l) a =
    Some (if hits f p l a then raise f q a else a, inr (hits f p l a)).
Proof.
  unfold check_side, hits. rewrite (run_bind _ _ _ _ _ eq_refl). destruct (test f (alarm_conf a)); [|done].
  rewrite (run_bind _ _ _ _ _ (run_ok _ _ _ (storage_any_all p l))). simpl. by destruct (existsb p l).
Qed.

Lemma general_check_run q f g lo hi l a :
  general_check_alarm q f g lo hi (length l) (Some l) a =
    let low := hits f (λ x, num_le x lo) l a in let high := hits g (λ x, num_ge x hi) l a in
    let a := if low then raise f q a else a in
    Some (if high then raise g q a else a, inr (low || high)).
Proof.
  unfold general_check_alarm. rewrite (run_bind _ _ _ _ _ (check_side_run f q _ l a)).
  rewrite (run_bind _ _ _ _ _ (check_side_run g q _ l _)).
  assert (∀ (b : bool) p, hits g p l (if b then raise f q a else a) = hits g p l a) as -> by by intros [].
  done.
Qed.

Lemma rds_run now l a :
  readable l a → test rds (alarm_conf a) = true →
  check_rds_alarm now a = Some (if read_far now l a then raise rds ATTR_ALARM a else a, inr (read_far now l a)).
Proof.
  intros [Ht Hv Hs Hsc Hty Hw] Hrds. unfold check_rds_alarm, read_far, rds_due. rewrite Hrds.
  rewrite (run_bind _ _ _ _ _ eq_refl). destruct (wpart a) as [w|] eqn:Ew; [|done].
  destruct (Hw w eq_refl) as (written & Hwr & Htw & Hd). rewrite Hwr, Ht.
  destruct (tv_sec (write_date w) =? 0); [done|].
  destruct (Z.ltb_spec (now - make_system_time (write_date w)) (delta_t w * 1000000)) as [Hlt|Hge].
  { rewrite (proj2 (Z.leb_gt (delta_t w * 1000000) _)) by lia. done. }
  rewrite (proj2 (Z.leb_le (delta_t w * 1000000) _)) by lia. cbn [andb negb].
  rewrite (run_bind _ _ a a l) by (unfold seq_of; by rewrite Hv).
  unfold check_rds_out_of_range. rewrite (run_bind _ _ _ _ _ eq_refl), (run_bind _ _ a a w) by by rewrite Ew.
  set (n := Nat.min _ _).
  rewrite (run_bind _ _ a a (existsb (λ p, pair_far (data_type (info a)) (delta_val w) (fst p) (snd p)) (zip (take n written) (take n l)))).
  { simpl. by destruct (existsb _ _). }
  apply run_ok. change 0 with (Z.of_nat 0). rewrite (pairs_from _ _ (pair_far (data_type (info a)) (delta_val w))).
  - by rewrite !drop_0.
  - intros x y Hx Hy. rewrite Forall_forall in Htw, Hty. unfold pair_far.
    destruct (pair_total (data_type (info a)) (delta_val w) x y) as [b ->]; auto.
  - unfold n. lia.
  - unfold n. case_bool_decide as Hf; [|lia]. assert (l ≠ []) by auto. assert (0 < length l)%nat by (by destruct l; simpl; [|lia]). lia.
Qed.

Lemma thresholds_run f g q lo hi l a :
  readable l a → level_flags q = Some (f, g) →
  check_thresholds q lo hi a = general_check_alarm q f g lo hi (length l) (Some l) a.
Proof.
  intros [Ht Hv Hs _ _ _] Hf. unfold check_thresholds. rewrite (run_bind _ _ _ _ _ eq_refl), Ht.
  unfold check_numbers. rewrite (run_bind _ _ _ _ _ eq_refl), Hf, Hs, Nat2Z.id. unfold seq_of. by rewrite Hv.
Qed.

Lemma readable_raise l f q a : readable l a → readable l (raise f q a).
Proof. by intros [? ? ? ? ? ?]. Qed.

(** One of the two checks against the levels, when one of its limits is set. *)
Definition raised (f g : alarm_flags) (q : AttrQuality) (low high : bool) a : Attribute :=
  let a := if low then raise f q a else a in if high then raise g q a else a.
Lemma check_if f g q lo hi l a (b : bool) :
  readable l a → level_flags q = Some (f, g) →
  let low := b && hits f (λ x, num_le x lo) l a in let high := b && hits g (λ x, num_ge x hi) l a in
  (if b && (test f (alarm_conf a) || test g (alarm_conf a)) then check_thresholds q lo hi else mret false) a =
    Some (raised f g q low high a, inr (low || high)).
Proof.
  intros Hr Hf. simpl. destruct b; [|done]. cbn [andb].
  destruct (test f (alarm_conf a) || test g (alarm_conf a)) eqn:E.
  - by rewrite (thresholds_run f g q lo hi l a Hr Hf), general_check_run.
  - apply orb_false_iff in E as [E1 E2]. unfold hits, raised. by rewrite E1, E2.
Qed.

Lemma level_part l a :
  readable l a →
  (if test min_level (alarm_conf a) || test max_level (alarm_conf a) then check_level_alarm else mret false) a =
    Some (raised min_level max_level ATTR_ALARM (too_low l a) (too_high l a) a, inr (too_low l a || too_high l a)).
Proof.
  intros Hr. pose proof (check_if min_level max_level ATTR_ALARM (q_min_alarm (limits a)) (q_max_alarm (limits a)) l a true Hr eq_refl) as H.
  cbn [andb] in H. unfold too_low, too_high. rewrite <-H. by destruct (_ || _).
Qed.
Lemma warn_part (b : bool) l a :
  readable l a →
  (if b && (test min_warn (alarm_conf a) || test max_warn (alarm_conf a)) then check_warn_alarm else mret false) a =
    Some (raised min_warn max_warn ATTR_WARNING (b && warn_low l a) (b && warn_high l a) a,
          inr (b && warn_low l a || b && warn_high l a)).
Proof.
  intros Hr. pose proof (check_if min_warn max_warn ATTR_WARNING (q_min_warning (limits a)) (q_max_warning (limits a)) l a b Hr eq_refl) as H.
  cbn zeta in H. unfold warn_low, warn_high. rewrite <-H. by destruct (b && _).
Qed.
Lemma rds_part now l a :
  readable l a →
  (if test rds (alarm_conf a) then check_rds_alarm now else mret false) a =
    Some (if read_far now l a then raise rds ATTR_ALARM a else a, inr (read_far now l a)).
Proof.
  intros Hr. destruct (test rds (alarm_conf a)) eqn:E; [by apply rds_run|]. unfold read_far. by rewrite E.
Qed.

(** Raising flags changes only the flags and the quality. *)
Lemma raised_readable f g q b c l a : readable l a → readable l (raised f g q b c a).
Proof. intros H. unfold raised. destruct b, c; repeat apply readable_raise; done. Qed.
Lemma raised_conf f g q b c a : alarm_conf (raised f g q b c a) = alarm_conf a.
Proof. by destruct b, c. Qed.
Lemma raised_warn_low f g q b c l a : warn_low l (raised f g q b c a) = warn_low l a.
Proof. by destruct b, c. Qed.
Lemma raised_warn_high f g q b c l a : warn_high l (raised f g q b c a) = warn_high l a.
Proof. by destruct b, c. Qed.
Lemma raised_far f g q b c now l a : read_far now l (raised f g q b c a) = read_far now l a.
Proof. by destruct b, c. Qed.

(** [check_alarm] of a value read with the quality VALID, as the flags it raises. *)
Definition checked (now : Z) (l : list Num) a : Attribute :=
  let low := too_low l a in let high := too_high l a in
  let wlow := negb (low || high) && warn_low l a in let whigh := negb (low || high) && warn_high l a in
  let a := raised min_warn max_warn ATTR_WARNING wlow whigh (raised min_level max_level ATTR_ALARM low high a) in
  if read_far now l a then raise rds ATTR_ALARM a else a.
Definition in_alarm (now : Z) (l : list Num) a : bool :=
  too_low l a || too_high l a || negb (too_low l a || too_high l a) && warn_low l a ||
  negb (too_low l a || too_high l a) && warn_high l a || read_far now l a.

Lemma check_alarm_run now l a :
  readable l a → quality a = ATTR_VALID → any (alarm_conf a) = true →
  check_alarm now a = Some (checked now l a, inr (in_alarm now l a)).
Proof.
  intros Hr Hq Hc. unfold check_alarm. rewrite (run_bind _ _ _ _ _ eq_refl), Hc, Hq.
  rewrite (run_bind _ _ a a tt) by done. rewrite andb_false_r. cbn [bool_decide decide_rel orb].
  rewrite (run_bind _ _ _ _ _ (level_part l a Hr)). unfold checked, in_alarm.
  set (low := too_low l a). set (high := too_high l a).
  pose proof (warn_part (negb (low || high)) l _ (raised_readable min_level max_level ATTR_ALARM low high l a Hr)) as Hw.
  rewrite raised_conf, raised_warn_low, raised_warn_high in Hw. rewrite (run_bind _ _ _ _ _ Hw).
  set (wlow := negb (low || high) && warn_low l a) in *. set (whigh := negb (low || high) && warn_high l a) in *.
  pose proof (rds_part now l _ (raised_readable min_warn max_warn ATTR_WARNING wlow whigh l _
    (raised_readable min_level max_level ATTR_ALARM low high l a Hr))) as Hd.
  rewrite !raised_conf, !raised_far in Hd. rewrite (run_bind _ _ _ _ _ Hd), !raised_far.
  cbn [mret SM_ret]. do 2 f_equal. rewrite <-!orb_assoc. done.
Qed.

Lemma check_alarm_value now l a :
  readable l a → quality a = ATTR_VALID → alarm a = no_bits → any (alarm_conf a) = true →
  let low := too_low l a in let high := too_high l a in
  let wlow := negb (low || high) && warn_low l a in let whigh := negb (low || high) && warn_high l a in
  let far := read_far now l a in
  let q := if low || high || far then ATTR_ALARM else if wlow || whigh then ATTR_WARNING else ATTR_VALID in
  check_alarm now a =
    Some (set_alarm (mkBits low high far wlow whigh) (set_quality_field q a), inr (negb (bool_decide (q = ATTR_VALID)))).
Proof.
  intros Hr Hq Ha Hc low high wlow whigh far q. rewrite (check_alarm_run now l a Hr Hq Hc).
  unfold checked, in_alarm. rewrite !raised_far. fold low high far. fold wlow whigh.
  unfold raised, raise, q. clear -Ha Hq. destruct a. simpl in *. subst. unfold wlow, whigh.
  generalize (warn_low l) (warn_high l) low high far. clear. intros f g b1 b2 b3.
  destruct b1, b2, b3; cbn; try done; destruct (f _), (g _); done.
Qed.
(** The specification of the last alarm, for the types of integers: it is time to compare, and an
    element that was written and the one that is read at its place, or the two scalars, differ
    by the threshold or more. *)
Definition int_of (x : Num) : Z := match x with I z => z | F _ => 0 end.
Definition apart (d : Num) (p : Num * Num) : Prop := int_of d <= Z.abs (int_of (fst p) - int_of (snd p)).
#[export] Instance apart_dec d p : Decision (apart d p).
Proof. unfold apart. apply _. Defined.
Definition compared {A} a (l : list A) : list A := if decide (data_format (info a) = SCALAR) then take 1 l else l.
Definition differs (now : Z) (l : list Num) a : Prop :=
  test rds (alarm_conf a) = true ∧ ∃ w written, wpart a = Some w ∧ last_written w = Seq written ∧
    tv_sec (write_date w) ≠ 0 ∧ make_system_time (write_date w) + delta_t w * 1000000 <= now ∧
    Exists (apart (delta_val w)) (zip (compared a written) (compared a l)).

Lemma zip_min {A B} (l1 : list A) (l2 : list B) : zip (take (Nat.min (length l2) (length l1)) l1) (take (Nat.min (length l2) (length l1)) l2) = zip l1 l2.
Proof.
  revert l2. induction l1 as [|x l1 IH]; intros [|y l2]; try done. simpl. by rewrite IH.
Qed.
Lemma zip_scalar {A B} (l1 : list A) (l2 : list B) : let n := Nat.min 1 (length l1) in
  zip (take n l1) (take n l2) = zip (take 1 l1) (take 1 l2).
Proof. by destruct l1, l2. Qed.
Lemma read_far_differs now l a st :
  readable l a → (test rds (alarm_conf a) = true → int_type (data_type (info a)) = Some st) → read_far now l a = true ↔ differs now l a.
Proof.
  intros [_ _ _ _ Hl Hw] Hint. unfold read_far, differs, rds_due. destruct (test rds _); [|split; [done|by intros [? _]]].
  specialize (Hint eq_refl). cbn [andb]. destruct (wpart a) as [w|]; [|split; [done|by intros (_ & w & ? & ? & _)]].
  destruct (Hw w eq_refl) as (written & Ew & Htw & Hd). rewrite Ew.
  assert (∀ l1 l2, Forall (λ x, has_type (data_type (info a)) x = true) l1 → Forall (λ x, has_type (data_type (info a)) x = true) l2 →
    existsb (λ p, pair_far (data_type (info a)) (delta_val w) p.1 p.2) (zip l1 l2) = true ↔ Exists (apart (delta_val w)) (zip l1 l2)) as Hex.
  { assert (∀ x, has_type (data_type (info a)) x = true → ∃ z, x = I z) as Hi.
    { intros [z|z] Hz; [by exists z|]. unfold has_type in Hz. by rewrite Hint in Hz. }
    destruct (Hi _ Hd) as [d Ed]. intros l1 l2 H1 H2. rewrite Exists_exists, existsb_exists.
    assert (∀ x y, x ∈ l1 → y ∈ l2 → pair_far (data_type (info a)) (delta_val w) x y = true ↔ apart (delta_val w) (x, y)) as Hp.
    { intros x y Hx Hy. rewrite Forall_forall in H1, H2. specialize (H1 _ Hx). specialize (H2 _ Hy).
      destruct (Hi _ H1) as [x' ->], (Hi _ H2) as [y' ->]. unfold pair_far. rewrite Ed in *.
      rewrite (rds_pair _ st) by done. unfold apart. simpl. apply Z.leb_le. }
    split; intros ([x y] & Hin & H); exists (x, y); rewrite ?list_elem_of_In in *; (split; [done|]);
      apply list_elem_of_In in Hin || idtac; pose proof (elem_of_zip_l _ _ _ _ Hin); pose proof (elem_of_zip_r _ _ _ _ Hin); by apply Hp. }
  assert (∀ n (l1 : list Num), Forall (λ x, has_type (data_type (info a)) x = true) l1 → Forall (λ x, has_type (data_type (info a)) x = true) (take n l1)) as Htake.
  { intros n l1 H. by apply Forall_take. }
  assert (zip (take (Nat.min (if bool_decide (data_format (info a) = SCALAR) then 1 else length l) (length written)) written)
    (take (Nat.min (if bool_decide (data_format (info a) = SCALAR) then 1 else length l) (length written)) l) = zip (compared a written) (compared a l)) as ->.
  { unfold compared. destruct (decide (data_format (info a) = SCALAR)) as [E|E].
    - rewrite bool_decide_eq_true_2 by done. apply zip_scalar.
    - rewrite bool_decide_eq_false_2 by done. apply zip_min. }
  rewrite !andb_true_iff, negb_true_iff, Z.eqb_neq, Z.leb_le, Hex by (unfold compared; case_decide; auto). split.
  - intros [[H1 H2] H3]. split; [done|]. exists w, written. split; [done|]. split; [done|]. split; [done|]. split; [lia|done].
  - intros (_ & w' & wr' & [= <-] & Ew' & H1 & H2 & H3). rewrite Ew in Ew'. injection Ew' as <-. split; [|done]. split; [done|lia].
Qed.

(** C29: what [check_alarm] finds in a value that has just been read with the quality
    VALID, of an attribute whose type is a number; when the attribute has a
    read-different-from-set alarm, the type is one of integers (see [rds_double_equal] for the
    others).  Each flag is raised exactly when its limit is set and an element of the value
    is on or beyond it (the warnings only when no alarm was found), the read-different-from-set
    flag exactly when the time to follow the set value is over and an element differs from the
    one written at its place by the threshold or more, without an overflow; the quality is
    ALARM for an alarm or a difference, WARNING for a warning only; the answer tells whether the
    quality is not VALID any more; nothing else changes. *)
Theorem check_alarm_spec now l a :
  readable l a → (test rds (alarm_conf a) = true → is_Some (int_type (data_type (info a)))) →
  quality a = ATTR_VALID → alarm a = no_bits → any (alarm_conf a) = true →
  ∃ low high far wlow whigh : bool,
    (low = true ↔ test min_level (alarm_conf a) = true ∧ Exists (λ x, num_le x (q_min_alarm (limits a)) = true) l) ∧
    (high = true ↔ test max_level (alarm_conf a) = true ∧ Exists (λ x, num_ge x (q_max_alarm (limits a)) = true) l) ∧
    (wlow = true ↔ low = false ∧ high = false ∧ test min_warn (alarm_conf a) = true ∧ Exists (λ x, num_le x (q_min_warning (limits a)) = true) l) ∧
    (whigh = true ↔ low = false ∧ high = false ∧ test max_warn (alarm_conf a) = true ∧ Exists (λ x, num_ge x (q_max_warning (limits a)) = true) l) ∧
    (far = true ↔ differs now l a) ∧
    let q := if low || high || far then ATTR_ALARM else if wlow || whigh then ATTR_WARNING else ATTR_VALID in
    check_alarm now a =
      Some (set_alarm (mkBits low high far wlow whigh) (set_quality_field q a), inr (negb (bool_decide (q = ATTR_VALID)))).
Proof.
  intros Hr Hint Hq Ha Hc. exists (too_low l a), (too_high l a), (read_far now l a),
    (negb (too_low l a || too_high l a) && warn_low l a), (negb (too_low l a || too_high l a) && warn_high l a).
  assert (∀ f p, hits f p l a = true ↔ test f (alarm_conf a) = true ∧ Exists (λ x, p x = true) l) as Hh.
  { intros f p. unfold hits. rewrite andb_true_iff, Exists_exists, existsb_exists. by setoid_rewrite list_elem_of_In. }
  split; [apply Hh|]. split; [apply Hh|].
  split; [rewrite andb_true_iff, negb_true_iff, orb_false_iff; unfold warn_low; rewrite Hh; tauto|].
  split; [rewrite andb_true_iff, negb_true_iff, orb_false_iff; unfold warn_high; rewrite Hh; tauto|].
  split; [|by apply check_alarm_value].
  destruct (test rds (alarm_conf a)) eqn:E.
  - destruct (Hint eq_refl) as [st Hst]. by apply (read_far_differs now l a st).
  - apply (read_far_differs now l a (true, 16)); [done|]. by rewrite E.
Qed.

(** ** The limits *)

(** When both limits of a pair are set, the low one is below the high one (or they are
    not comparable: a NaN). *)
Definition limits_ok a : Prop :=
  (test min_level (alarm_conf a) = true → test max_level (alarm_conf a) = true →
     num_ge (q_min_alarm (limits a)) (q_max_alarm (limits a)) = false) ∧
  (test min_warn (alarm_conf a) = true → test max_warn (alarm_conf a) = true →
     num_ge (q_min_warning (limits a)) (q_max_warning (limits a)) = false).

Section Limits.
Context (d_name : string) (svr_starting dev_restarting use_db : bool) (db : DbRequest → outcome unit)
  (user_defaults class_defaults : list (string * string))
  (show_float : CmdArgType → spec_float → string) (read_double read_float : string → option spec_float).
Hypothesis db_answers : ∀ r, db r ≠ Undef.
Let set_lim := set_limit d_name svr_starting dev_restarting use_db db user_defaults show_float.
Let set_text := set_limit_text d_name svr_starting dev_restarting use_db db user_defaults class_defaults show_float read_double read_float.

(** The new limit is on the right side of the other one. *)
Definition fits (k : limit) (x : Num) a : Prop :=
  test (limit_flag (opposite k)) (alarm_conf a) && incoherent k x (qget (opposite k) (limits a)) = false.

(** [a'] has the flags and the limits of [a], but for the limit [k], which may be [x], set
    or not yet. *)
Definition moved (k : limit) (x : Num) a a' : Prop :=
  (limits a' = qset k x (limits a) ∨ limits a' = limits a) ∧
  (alarm_conf a' = alarm_conf a ∨ alarm_conf a' = put (limit_flag k) true (alarm_conf a) ∧ limits a' = qset k x (limits a)).

Lemma moved_ok k x a a' : limits_ok a → fits k x a → moved k x a a' → limits_ok a'.
Proof.
  unfold limits_ok, fits, moved. intros [H1 H2] Hf [Hl Hc]. destruct a, a'; simpl in *. destruct alarm_conf, limits. simpl in *.
  destruct Hc as [->|[-> ->]]; [destruct Hl as [->| ->]|]; destruct k; simpl in *; (split; [try done|try done]);
    intros ? ?; simplify_eq; simpl in *; try (by apply H1); try (by apply H2); done.
Qed.

(** What a limit does not touch. *)
Definition same_value a a' : Prop :=
  info a' = info a ∧ quality a' = quality a ∧ alarm a' = alarm a ∧ attribute_value a' = attribute_value a ∧
  data_size a' = data_size a ∧ wpart a' = wpart a.

(** A limit given with the type [t] is for the attribute. *)
Definition accepts (t : CmdArgType) a : Prop :=
  no_limit_type (data_type (info a)) || bool_decide (data_type (info a) = DEV_ENUM) = false ∧
  negb (bool_decide (data_type (info a) = DEV_ENCODED) && bool_decide (t = DEV_UCHAR)) && negb (bool_decide (data_type (info a) = t)) = false.

(** The outcomes of [set_limit]: the limit is set; or an error, with the attribute as it
    was; or an error of the database that [set_limit] does not undo. *)
Definition set_limit_post (k : limit) (t : CmdArgType) (x : Num) a a' (r : exn + unit) : Prop :=
  same_value a a' ∧
  match r with
  | inr _ =>
      accepts t a ∧ fits k x a ∧ limits a' = qset k x (limits a) ∧ alarm_conf a' = put (limit_flag k) true (alarm_conf a) ∧
      limit_strs a' = qset k (show show_float t x) (limit_strs a)
  | inl e =>
      a' = a ∨ fits k x a ∧ a' = set_limit_value k x a ∧ use_db = true ∧
      (db (DeleteProp (limit_name k)) = Exc e ∧ prop_in_list (limit_name k) user_defaults = Some (show show_float t x) ∨
       ∀ l, e ≠ DevFailed l)
  end.

Lemma restore_limit k x a : set_limit_value k (qget k (limits a)) (set_limit_value k x a) = a.
Proof. destruct a as [? ? ? ? ? ? ? ? l ? ? ? ? ? ? ? ?]. by destruct k, l. Qed.

Lemma db_ok r a Q :
  (∀ e, db r = Exc e → Q a (inl e)) → Q (add_db r a) (inr tt) → wp (db_request db r) a Q.
Proof using db_answers.
  intros H1 H2. unfold db_request. wp_step. apply wp_lift; [apply db_answers|intros [] _; exact H2|done].
Qed.

Lemma startup_ok prop a Q :
  (∀ b l r, Q (set_startup b l r a) (inr tt)) → Q a (inr tt) → wp (delete_startup_exception d_name svr_starting dev_restarting prop) a Q.
Proof. intros H1 H2. unfold delete_startup_exception. do 3 wp_step; [apply H1|apply H2]. Qed.

Lemma post_refused k t x a e : set_limit_post k t x a a (inl e).
Proof. split; [done|]. by left. Qed.

Lemma wp_restore (m : SM Attribute unit) undo a (Q : Attribute → exn + unit → Prop) :
  wp m a (λ a' r, match r with inl (DevFailed l) => Q (undo a') (inl (DevFailed l)) | _ => Q a' r end) →
  wp (or_restore m undo) a Q.
Proof. unfold wp, or_restore. by destruct (m a) as [[a' [[l|n]|[]]]|]. Qed.

(** The end of [set_limit], once the database is up to date. *)
Lemma set_limit_end k t x a a1 :
  accepts t a → fits k x a → same_value a a1 → limits a1 = qset k x (limits a) → alarm_conf a1 = alarm_conf a → limit_strs a1 = limit_strs a →
  wp (modify (set_limit_flag k);; modify (set_limit_str_value k (show show_float t x));;
      when_ (negb (starting svr_starting dev_restarting)) (modify push_conf_event);;
      delete_startup_exception d_name svr_starting dev_restarting (limit_name k)) a1 (set_limit_post k t x a).
Proof.
  intros Ht Hf Hs Hl Hc Hstr. do 5 wp_step. wp_step; [wp_step|]; apply startup_ok; intros; (split; [done|]); cbn; by rewrite Hc, Hl, Hstr.
Qed.

Lemma set_limit_ok k t x a : wp (set_lim k t x) a (set_limit_post k t x a).
Proof using db_answers.
  unfold set_lim, set_limit. do 2 wp_step. wp_step. wp_step.
  { unfold throw_err_data_type. do 3 wp_step. apply post_refused. }
  do 2 wp_step. { wp_step. apply post_refused. }
  do 2 wp_step. { destruct k; unfold throw_incoherent_val_err; do 3 wp_step; apply post_refused. }
  do 2 wp_step. do 2 wp_step; [wp_step|by apply set_limit_end].
  - apply bool_decide_eq_true in E. apply db_ok; [|by apply set_limit_end].
    intros e He. split; [done|]. right. split_and!; try done. by left.
  - apply wp_restore. unfold upd_att_prop_db. do 2 wp_step. apply db_ok; [|by apply set_limit_end].
    intros [l|n] He; [rewrite restore_limit; apply post_refused|].
    split; [done|]. right. split_and!; try done. by right.
Qed.

Lemma limits_after k t x a a' r : limits_ok a → set_limit_post k t x a a' r → limits_ok a'.
Proof.
  intros Hok [_ H]. destruct r as [e|[]].
  - destruct H as [->|(Hf & -> & _)]; [done|]. eapply moved_ok; [done|done|]. split; by left.
  - destruct H as (_ & Hf & Hl & Hc & _). eapply moved_ok; [done|done|]. split; [by left|by right].
Qed.

Lemma set_limit_run k t x a a' r : set_lim k t x a = Some (a', r) → set_limit_post k t x a a' r.
Proof using db_answers.
  intros H. pose proof (set_limit_ok k t x a) as Hw. unfold wp in Hw. by rewrite H in Hw.
Qed.

(** The text stands for no number that its type cannot hold (the cast would be
    undefined). *)
Definition castable (k : limit) (text : string) a : Prop :=
  ∀ text', resolve_text user_defaults class_defaults k text = Some text' →
    data_type (info a) ≠ DEV_ENUM → parse_limit read_double read_float (data_type (info a)) text' ≠ Some Undef.

Lemma set_text_ok k text a : castable k text a → limits_ok a → wp (set_text k text) a (λ a' _, limits_ok a').
Proof using db_answers.
  intros Hcast Hok. unfold set_text, set_limit_text. do 2 wp_step. wp_step. wp_step.
  { unfold throw_err_data_type. do 3 wp_step. done. }
  destruct (resolve_text _ _ _ _) as [text'|] eqn:Er.
  - specialize (Hcast text' Er). wp_step; [unfold throw_err_data_type; do 3 wp_step; done|].
    apply bool_decide_eq_false in E. wp_step; [|unfold throw_err_format; do 3 wp_step; done].
    wp_step. apply wp_lift; [naive_solver| |done]. intros [t x] _.
    eapply wp_mono; [apply set_limit_ok|]. intros a' r. by apply limits_after.
  - wp_step. apply (wp_mono _ _ (λ a' _, limits_ok a')).
    { unfold avns_in_db. wp_step; [|done]. apply db_ok; done. }
    intros a' [e|[]] H1; [done|]. unfold avns_in_att. do 3 wp_step; [wp_step|]; done.
Qed.

(** C32: whatever the requests to set the limits, with a number or with a text, accepted
    or refused, and whatever the database answers, a minimum that is set stays below
    the maximum of the same kind that is set; and every request has an outcome, a text
    provided that it is not a number that the type of the attribute cannot hold. *)
Theorem limits_coherent k t x text a :
  limits_ok a → castable k text a →
  (∃ a' r, set_lim k t x a = Some (a', r) ∧ limits_ok a') ∧
  (∃ a' r, set_text k text a = Some (a', r) ∧ limits_ok a').
Proof using db_answers.
  intros Hok Hcast. split.
  - pose proof (set_limit_ok k t x a) as (a' & r & H & Hp)%wp_run. exists a', r. split; [done|]. by eapply limits_after.
  - pose proof (set_text_ok k text a Hcast Hok) as (a' & r & H & Hp)%wp_run. by exists a', r.
Qed.

(** [get_limit] depends on the type, on the flag and on the value of the limit. *)
Lemma get_limit_same k t a a' :
  info a' = info a → test (limit_flag k) (alarm_conf a') = test (limit_flag k) (alarm_conf a) →
  qget k (limits a') = qget k (limits a) → snd <$> get_limit k t a' = snd <$> get_limit k t a.
Proof.
  intros Hi Hf Hl. unfold get_limit, mbind, SM_bind, get. rewrite Hi, Hf, Hl.
  do 3 (destruct (_ : bool) in |- *; [done|]; cbn). done.
Qed.
Lemma get_limit_run k t a :
  accepts t a → test (limit_flag k) (alarm_conf a) = true → get_limit k t a = Some (a, inr (qget k (limits a))).
Proof.
  intros [H1 H2] Hf. unfold get_limit, mbind, SM_bind, get. rewrite H2. cbn. rewrite H1. cbn. by rewrite Hf.
Qed.
Lemma qget_qset {A} k (x : A) q : qget k (qset k x q) = x.
Proof. by destruct k. Qed.
Lemma qget_other {A} k k' (x : A) q : k' ≠ k → qget k' (qset k x q) = qget k' q.
Proof. by destruct k, k'. Qed.
Lemma test_put f v b : test f (put f v b) = v.
Proof. by destruct f. Qed.
Lemma test_other f g v b : g ≠ f → test g (put f v b) = test g b.
Proof. by destruct f, g. Qed.

(** a limit that has been set is read back as the number given, the other limits are
    as they were, and so are the value and the alarms of the attribute; when the request is
    refused with a [DevFailed] nothing has changed, but for one case: the text of the
    number is the user's default and the database fails to forget the property. *)
Theorem limit_read_back k t x a :
  ∃ a' r, set_lim k t x a = Some (a', r) ∧ same_value a a' ∧
  match r with
  | inr _ => get_limit k t a' = Some (a', inr x) ∧ ∀ k' t', k' ≠ k → snd <$> get_limit k' t' a' = snd <$> get_limit k' t' a
  | inl (DevFailed l) =>
      a' = a ∨ db (DeleteProp (limit_name k)) = Exc (DevFailed l) ∧
               prop_in_list (limit_name k) user_defaults = Some (show show_float t x)
  | inl _ => True
  end.
Proof using db_answers.
  pose proof (set_limit_ok k t x a) as (a' & r & H & Hs & Hr)%wp_run. exists a', r. split; [done|]. split; [done|].
  destruct r as [[l|n]|[]]; [|done|].
  - destruct Hr as [->|(_ & _ & _ & [H1|H1])]; [by left|by right|]. by destruct (H1 l).
  - destruct Hr as ([Ht1 Ht2] & _ & Hl & Hc & _). destruct Hs as (Hi & _).
    split; [|intros k' t' Hk].
    + rewrite get_limit_run; [by rewrite Hl, qget_qset| |by rewrite Hc, test_put]. split; by rewrite Hi.
    + apply get_limit_same; [done| |by rewrite Hl, qget_other]. rewrite Hc. apply test_other. by destruct k, k'.
Qed.
End Limits.

(** ** Instances of the properties of attributes, and behaviours worth knowing *)
Local Open Scope string_scope.
Local Open Scope list_scope.
Local Open Scope Z_scope.

Definition ex_info (t : CmdArgType) (f : AttrDataFormat) : AttrInfo := mkInfo "current" "Current" t f 10 0 [] false 0.
Definition ex_limits : quad Num := mkQuad (I (-10)) (I 10) (I (-5)) (I 5).
Definition all_levels : bits := mkBits true true false true true.
(** An attribute of type [t] that has just read [v]. *)
Definition ex_attr (t : CmdArgType) (f : AttrDataFormat) (v : Storage) (n : Z) (w : option WritePart) (conf : bits) : Attribute :=
  mkAttribute (ex_info t f) ATTR_VALID no_bits (Some v) (n, 0) n w conf ex_limits
    (mkQuad "-10" "10" "-5" "5") false [] 0 false [] true false.
Definition ex_short (x : Z) : Attribute := ex_attr DEV_SHORT SCALAR (Seq [I x]) 1 None all_levels.

Lemma ex_readable x : has_type DEV_SHORT (I x) = true → readable [I x] (ex_short x).
Proof. intros H. split; try done. by constructor. Qed.

(** The value 7 is read while 2 was written, and a difference of 3 is too much. *)
Definition ex_written : Attribute :=
  ex_attr DEV_SHORT SCALAR (Seq [I 7]) 1 (Some (mkWrite (mkTimeVal 1 0 0) (Seq [I 2]) 0 (I 3))) (mkBits true true true true true).
Lemma ex_written_readable : readable [I 7] ex_written.
Proof. split; try done; [by constructor|]. intros w [= <-]. exists [I 2]. split; [done|]. split; [by constructor|done]. Qed.
Lemma ex_written_differs : differs 2000000000 [I 7] ex_written.
Proof. split; [done|]. do 2 eexists. split; [done|]. split; [done|]. split; [done|]. split; [done|]. apply Exists_exists. exists (I 2, I 7). split; [left|done]. Qed.
Lemma check_alarm_spec_witness :
  ∃ low high wlow whigh : bool, check_alarm 2000000000 ex_written =
    Some (set_alarm (mkBits low high true wlow whigh) (set_quality_field ATTR_ALARM ex_written), inr true).
Proof.
  destruct (check_alarm_spec 2000000000 [I 7] ex_written ex_written_readable) as (low & high & far & wlow & whigh & _ & _ & _ & _ & Hfar & H);
    [by eexists|reflexivity|reflexivity|reflexivity|].
  exists low, high, wlow, whigh. rewrite (proj2 Hfar ex_written_differs), orb_true_r in H. exact H.
Defined.

Definition ex_db (r : DbRequest) : outcome unit := Ok tt.
Definition ex_show (t : CmdArgType) (f : spec_float) : string := "".
(** An input stream that reads two texts. *)
Definition ex_read (s : string) : option spec_float :=
  if bool_decide (s = "7") then Some (binary_normalize 53 1024 7 0 false)
  else if bool_decide (s = "9007199254740993") then Some (binary_normalize 53 1024 9007199254740993 0 false)
  else None.

Lemma ex_db_answers r : ex_db r ≠ Undef.
Proof. done. Qed.

Lemma limits_coherent_witness :
  ∃ a' r, set_limit_text "a/b/c" false false true ex_db [] [] ex_show ex_read ex_read MaxAlarm "7" (ex_short 0) = Some (a', r) ∧ limits_ok a'.
Proof.
  refine (proj2 (limits_coherent "a/b/c" false false true ex_db [] [] ex_show ex_read ex_read ex_db_answers
    MaxAlarm DEV_SHORT (I 7) "7" (ex_short 0) _ _)).
  - split; reflexivity.
  - intros text [= <-] _. vm_compute. discriminate.
Defined.

Lemma limit_read_back_witness :
  ∃ a' r, set_limit "a/b/c" false false true ex_db [] ex_show MaxAlarm DEV_SHORT (I 7) (ex_short 0) = Some (a', r) ∧
    same_value (ex_short 0) a'.
Proof.
  destruct (limit_read_back "a/b/c" false false true ex_db [] ex_show ex_db_answers MaxAlarm DEV_SHORT (I 7) (ex_short 0))
    as (a' & r & H1 & H2 & _).
  by exists a', r.
Defined.

(** ** Behaviours of the code *)

(** The state after a method that returns. *)
Definition after {A} (m : SM Attribute A) (a : Attribute) : Attribute := match m a with Some (a, inr _) => a | _ => a end.
Definition answer {A} (m : SM Attribute A) (a : Attribute) : option A := match m a with Some (_, inr x) => Some x | _ => None end.
Definition set_text (k : limit) (text : string) : SM Attribute unit :=
  set_limit_text "a/b/c" false false true ex_db [] [] ex_show ex_read ex_read k text.

(** Taking a limit away with the text "Not specified" changes the text of the property, in
    memory and in the database, but not the flag: the attribute still raises the alarm. *)
Example limit_not_removed :
  let a := after (set_text MaxAlarm AlrmValueNotSpec) (ex_short 12) in
  q_max_alarm (limit_strs a) = AlrmValueNotSpec ∧ db_requests a = [PutProp "max_alarm" (Some AlrmValueNotSpec)] ∧
  answer (check_alarm 0) a = Some true ∧ b_max_level (alarm (after (check_alarm 0) a)) = true.
Proof. vm_compute. auto. Qed.

(** A limit of 64 bits given as a text goes through a [double]. *)
Example long64_limit_rounded :
  q_max_alarm (limits (after (set_text MaxAlarm "9007199254740993") (ex_attr DEV_LONG64 SCALAR (Seq [I 0]) 1 None no_bits)))
    = I 9007199254740992.
Proof. vm_compute. reflexivity. Qed.

(** The warnings of an encoded attribute are tested with the flags of the alarms: with
    only warnings there is none, and with alarms a warning raises the flag of an alarm. *)
Definition ex_encoded (conf : bits) : Attribute := ex_attr DEV_ENCODED SCALAR (Encoded [("raw", [I 7])]) 1 None conf.
Example encoded_warning_missed :
  answer (check_alarm 0) (ex_encoded (mkBits false false false true true)) = Some false ∧
  quality (after (check_alarm 0) (ex_encoded (mkBits true true false true true))) = ATTR_WARNING ∧
  alarm (after (check_alarm 0) (ex_encoded (mkBits true true false true true))) = mkBits false true false false false.
Proof. vm_compute. auto. Qed.

(** The limit of an encoded attribute is written in the database without a value. *)
Example encoded_limit_not_saved :
  db_requests (after (set_limit "a/b/c" false false true ex_db [] ex_show MaxAlarm DEV_UCHAR (I 7)) (ex_encoded no_bits))
    = [PutProp "max_alarm" None].
Proof. vm_compute. reflexivity. Qed.

(** Without a value an encoded attribute that is checked follows a null pointer. *)
Example encoded_without_value : check_alarm 0 (delete_seq (ex_encoded all_levels)) = None.
Proof. vm_compute. reflexivity. Qed.

(** A [double] read equal to its set value is in alarm. *)
Definition ten : Num := of_Z DEV_DOUBLE 10.
Example double_follows_set_in_alarm :
  let w := mkWrite (mkTimeVal 1 0 0) (Seq [ten]) 1000 (of_Z DEV_DOUBLE 5) in
  let a := ex_attr DEV_DOUBLE SCALAR (Seq [ten]) 1 (Some w) (mkBits false false true false false) in
  answer (check_alarm 3000000000) a = Some true ∧ quality (after (check_alarm 3000000000) a) = ATTR_ALARM.
Proof. vm_compute. auto. Qed.
