(* ===== verification/DevState.v ===== *)
(** * The state of a device (src/src/server/device.cpp, multiattribute.cpp)

  [DeviceImpl::dev_state] computes the state of a device: a device that is ON, or in
  ALARM, reads its attributes with alarms, checks them, and is in ALARM when one of its
  attributes has the quality ALARM or WARNING, or when its user said so.  The code of
  the user that reads an attribute is the parameter [read_attr]; [now] is the date of
  the system clock. *)
From S2P Require Import Prelude StateExn CppString PollRing AttrHistory Number Attribute.
Local Open Scope string_scope.
Local Open Scope list_scope.
Local Open Scope Z_scope.

Inductive DevState :=
  | ON | OFF | CLOSE | OPEN | INSERT | EXTRACT | MOVING | STANDBY | FAULT | INIT | RUNNING | ALARM | DISABLE | UNKNOWN.
#[export] Instance DevState_eq : EqDecision DevState.
Proof. solve_decision. Defined.

Record DevSt := mkDev {
  device_state : DevState;
  device_prev_state : DevState;
  alarm_state_user : Z;
  alarm_state_kernel : Z;
  attr_list : list Attribute;
  alarm_attr_list : list nat;
  dev_run_att_conf_loop : bool;
  force_alarm_state : bool;
  att_wrong_db_conf : list string;
  att_mem_failed : list string;
  fwd_att_wrong_conf : list string;
  state_from_read : bool;
  alrmd_not_read : list nat;
  polled_attr : list string;
  non_auto_polled_attr : list string;
}.
Implicit Types s : DevSt.
Definition set_attrs l s := mkDev (device_state s) (device_prev_state s) (alarm_state_user s) (alarm_state_kernel s) l (alarm_attr_list s) (dev_run_att_conf_loop s) (force_alarm_state s) (att_wrong_db_conf s) (att_mem_failed s) (fwd_att_wrong_conf s) (state_from_read s) (alrmd_not_read s) (polled_attr s) (non_auto_polled_attr s).
Definition set_states st prev user kernel s := mkDev st prev user kernel (attr_list s) (alarm_attr_list s) (dev_run_att_conf_loop s) (force_alarm_state s) (att_wrong_db_conf s) (att_mem_failed s) (fwd_att_wrong_conf s) (state_from_read s) (alrmd_not_read s) (polled_attr s) (non_auto_polled_attr s).
Definition set_wrong run force wrong mem s := mkDev (device_state s) (device_prev_state s) (alarm_state_user s) (alarm_state_kernel s) (attr_list s) (alarm_attr_list s) run force wrong mem (fwd_att_wrong_conf s) (state_from_read s) (alrmd_not_read s) (polled_attr s) (non_auto_polled_attr s).
Definition set_not_read l s := mkDev (device_state s) (device_prev_state s) (alarm_state_user s) (alarm_state_kernel s) (attr_list s) (alarm_attr_list s) (dev_run_att_conf_loop s) (force_alarm_state s) (att_wrong_db_conf s) (att_mem_failed s) (fwd_att_wrong_conf s) (state_from_read s) l (polled_attr s) (non_auto_polled_attr s).

(** [set_state], called by the code of the user. *)
Definition set_state (st : DevState) (now : Z) s : DevSt :=
  set_states st (device_state s) (if bool_decide (st = ALARM) then now else 0) (alarm_state_kernel s) s.
Definition to_state (st : DevState) s : DevSt := set_states st (device_prev_state s) (alarm_state_user s) (alarm_state_kernel s) s.
Definition kernel_alarm (now : Z) s : DevSt := set_states ALARM (device_prev_state s) (alarm_state_user s) now s.

(** ** The attributes of the device *)

(** [get_attr_by_ind], and a method of an attribute. *)
Definition on_attr {A} (i : nat) (m : SM Attribute A) : SM DevSt A := λ s,
  match attr_list s !! i with
  | Some a => match m a with Some (a, r) => Some (set_attrs (<[i := a]> (attr_list s)) s, r) | None => None end
  | None => None
  end.

(** [Attribute::is_polled]: by the list of the names and periods, then by the period of
    the attribute unless its name is among those not polled automatically. *)
Fixpoint in_polled (nm : string) (l : list string) : outcome (option bool) :=
  match l with
  | [] => Ok None
  | x :: l =>
      if bool_decide (nm = tolower x)
      then match l with upd :: _ => Ok (Some (negb (bool_decide (upd = "0")))) | [] => Undef end
      else match l with _ :: l => in_polled nm l | [] => Ok None end
  end.
Definition is_polled (polled non_auto : list string) (a : Attribute) : outcome bool :=
  found ← in_polled (tolower (name (info a))) polled;
  Ok (match found with
      | Some b => b
      | None => (0 <? poll_period (info a)) && negb (bool_decide (tolower (name (info a)) ∈ tolower <$> non_auto))
      end).
Definition attr_polled (i : nat) : SM DevSt bool :=
  s ← get;
  a ← lift (deref (attr_list s !! i));
  lift (is_polled (polled_attr s) (non_auto_polled_attr s) a).

(** [MultiAttribute::check_alarm]; [now_ns] is the date in nanoseconds. *)
Definition check_one_alarm (now_ns : Z) (i : nat) : SM DevSt bool :=
  s ← get;
  a ← lift (deref (attr_list s !! i));
  let qua := quality a in
  tmp_ret ← (if negb (bool_decide (qua = ATTR_INVALID))
             then polled ← attr_polled i; if negb polled then on_attr i (check_alarm now_ns) else mret false
             else mret false : SM DevSt bool);
  mret (bool_decide (qua = ATTR_ALARM) || tmp_ret).
Fixpoint check_alarms (now_ns : Z) (l : list nat) : SM DevSt bool :=
  match l with
  | [] => mret false
  | i :: l => x ← check_one_alarm now_ns i; y ← check_alarms now_ns l; mret (x || y)
  end.

Definition alarmed (q : AttrQuality) : bool := bool_decide (q = ATTR_ALARM) || bool_decide (q = ATTR_WARNING).
Definition is_att_quality_alarmed s : bool := existsb (λ a, alarmed (quality a)) (attr_list s).

(** [DeviceImpl::att_conf_loop]. *)
Definition wrong_conf_names (l : list Attribute) : list string :=
  (λ a, name (info a)) <$> filter (λ a, check_startup_exceptions a = true) l.
Definition mem_failed_names (l : list Attribute) : list string :=
  (λ a, name (info a)) <$> filter (λ a, check_startup_exceptions a = false ∧ att_mem_exception a = true) l.
Definition att_conf_loop s : DevSt :=
  let wrong := wrong_conf_names (attr_list s) in
  let mem := mem_failed_names (attr_list s) in
  let force := existsb (λ a, check_startup_exceptions a || att_mem_exception a) (attr_list s) in
  set_wrong false (force || negb (bool_decide (fwd_att_wrong_conf s = []))) wrong mem s.

(** [Device_3Impl::alarmed_not_read]: the attributes with alarms that the current request
    has not read. *)
Definition alarmed_not_read (wanted_attr : list nat) s : DevSt :=
  set_not_read (filter (λ i, i ∉ wanted_attr) (alarm_attr_list s)) s.

(** ** [dev_state] *)

Section DevState.
(** The version of the interface of the device, and the code of the user: whether an
    attribute may be read in the current state, the reading of the hardware and of
    an attribute. *)
Context (vers : Z) (is_allowed : nat → outcome bool) (read_attr_hardware : list nat → outcome unit) (read_attr : nat → SM Attribute unit).

(** The attributes of a list that are not polled. *)
Fixpoint not_polled (l : list nat) : SM DevSt (list nat) :=
  match l with
  | [] => mret []
  | i :: l => polled ← attr_polled i; l ← not_polled l; mret (if (polled : bool) then l else i :: l)
  end.

(** The error handler of the reading of an attribute. *)
Definition read_failed : SM Attribute unit :=
  a ← get;
  when_ (negb (value_is_set a)) (modify (set_quality ATTR_INVALID));;
  when_ (negb (date a))
    (modify (λ a, if bool_decide (quality a = ATTR_INVALID) then a else delete_seq a);; modify (wanted_date true)).

(** The reading of one attribute; [false] when it is not allowed. *)
Definition try_read (i : nat) : SM Attribute unit :=
  modify (wanted_date false);;
  modify reset_value;;
  if vers <? 3 then read_attr i
  else
    b ← lift (is_allowed i);
    if negb b then modify (wanted_date true)
    else
      read_attr i;;
      a ← get;
      when_ (negb (bool_decide (quality a = ATTR_INVALID)) && negb (value_is_set a))
        (throw "API_AttrValueNotSet" ("Read value for attribute " +:+ name (info a) +:+ " has not been updatedHint: Did the server follow Tango V5 attribute reading framework ?") "DeviceImpl::dev_state").
Definition read_one (i : nat) : SM Attribute unit := λ a,
  match try_read i a with
  | Some (a, inl (DevFailed _)) => read_failed a
  | r => r
  end.
Fixpoint for_attrs (m : nat → SM Attribute unit) (l : list nat) : SM DevSt unit :=
  match l with [] => mret tt | i :: l => on_attr i (m i);; for_attrs m l end.

(** The end: the value read for the state is not kept. *)
Definition free_value : SM Attribute unit :=
  a ← get;
  when_ (negb (date a))
    (modify (λ a, if bool_decide (quality a = ATTR_INVALID) then a else delete_seq a);; modify (wanted_date true)).

(** A state raised by the library, and not by the user, goes back to ON. *)
Definition back_to_on s : DevSt := if alarm_state_user s <? alarm_state_kernel s then to_state ON s else s.

Definition wanted_attrs : SM DevSt (list nat) :=
  s ← get;
  if 3 <=? vers then not_polled (if state_from_read s then alrmd_not_read s else alarm_attr_list s)
  else mret (alarm_attr_list s).

(** The reading and the check of the attributes with alarms; whether there is one. *)
Definition check_attrs (now now_ns : Z) (wanted : list nat) : SM DevSt bool :=
  s ← get;
  when_ (negb (state_from_read s)) (lift (read_attr_hardware wanted));;
  for_attrs read_one wanted;;
  s ← get;
  set_alrm ← check_alarms now_ns (alarm_attr_list s);
  modify (λ s, if (set_alrm : bool) then if bool_decide (device_state s = ALARM) then s else kernel_alarm now s else back_to_on s);;
  for_attrs (λ _, free_value) wanted;;
  mret set_alrm.

Definition dev_state (now now_ns : Z) : SM DevSt DevState :=
  s ← get;
  when_ (dev_run_att_conf_loop s) (modify att_conf_loop);;
  s ← get;
  if negb (bool_decide (device_state s = FAULT)) && force_alarm_state s then mret ALARM
  else
    when_ (bool_decide (device_state s = ON) || bool_decide (device_state s = ALARM))
      (wanted ← wanted_attrs;
       set_alrm ← (if negb (bool_decide (wanted = [])) then check_attrs now now_ns wanted
                   else modify back_to_on;; mret false : SM DevSt bool);
       s ← get;
       when_ (negb set_alrm && negb (bool_decide (device_state s = ALARM)))
         (modify (λ s, if is_att_quality_alarmed s
                       then if bool_decide (device_state s = ALARM) then s else kernel_alarm now s
                       else to_state ON s)));;
    s ← get; mret (device_state s).
End DevState.
