(* ===== verification/DevStateTheory.v ===== *)
(** * Properties of the state of a device *)
From Stdlib Require Import SpecFloat.
From S2P Require Import Prelude StateExn CppString PollRing AttrHistory Number Attribute AttrTheory DevState.
Local Open Scope string_scope.
Local Open Scope list_scope.
Local Open Scope Z_scope.
Implicit Types s : DevSt.

(** ** Attributes that can be checked *)

(** [check_alarm] returns, and a positive answer comes with a quality that tells it. *)
Definition checkable (now_ns : Z) (a : Attribute) : Prop :=
  quality a ≠ ATTR_INVALID →
  ∃ a' b, check_alarm now_ns a = Some (a', inr b) ∧ (b = true ∨ quality a = ATTR_ALARM → alarmed (quality a') = true).

(** A value just read, without an exception, can be checked; so can an attribute whose
    quality was set by the code of the user. *)
Lemma raised_alarmed f g q low high a : alarmed q = true → low || high = true → alarmed (quality (raised f g q low high a)) = true.
Proof. intros Hq H. unfold raised. destruct low, high; try exact Hq; discriminate H. Qed.
Lemma readable_checkable now_ns l a :
  readable l a → quality a = ATTR_VALID → any (alarm_conf a) = true → checkable now_ns a.
Proof.
  intros Hr Hq Hc _. exists (checked now_ns l a), (in_alarm now_ns l a).
  split; [by apply check_alarm_run|]. rewrite Hq. intros [H|[=]]. revert H. unfold in_alarm, checked. rewrite !raised_far.
  destruct (read_far now_ns l a); [done|]. rewrite orb_false_r.
  destruct (too_low l a || too_high l a) eqn:E.
  - intros _. by apply (raised_alarmed min_level max_level).
  - cbn [negb andb orb]. by apply raised_alarmed.
Qed.
Lemma not_valid_checkable now_ns a :
  quality a ≠ ATTR_VALID → is_fwd_att (info a) = false → any (alarm_conf a) = true → checkable now_ns a.
Proof.
  intros Hq Hf Hc _. unfold check_alarm. rewrite (run_bind _ _ a a a eq_refl), Hc, Hf.
  rewrite (run_bind _ _ a a tt) by done. rewrite bool_decide_eq_false_2 by done. cbn.
  eexists a, _. split; [done|]. unfold alarmed. intros [H| ->]; [done|done].
Qed.

(** An attribute without a value whose alarms only compare numbers: nothing is compared, as the
    size left by [delete_seq] is zero. *)
Definition idle (a : Attribute) : Prop := data_size a = 0 ∧ is_numeric (data_type (info a)) = true ∧ test rds (alarm_conf a) = false.
Lemma idle_thresholds q lo hi a : alarmed q = true → idle a → check_thresholds q lo hi a = Some (a, inr false).
Proof.
  intros Hq (Hs & Hn & _). unfold check_thresholds, check_numbers. rewrite (run_bind _ _ a a a eq_refl), Hn, (run_bind _ _ a a a eq_refl), Hs.
  destruct q; try done; cbn [level_flags]; unfold general_check_alarm, check_side;
    rewrite (run_bind _ _ a a false); cycle 1;
    rewrite ?(run_bind _ _ a a a eq_refl); try (by case_match); rewrite (run_bind _ _ a a false); try done;
    rewrite ?(run_bind _ _ a a a eq_refl); by case_match.
Qed.
Lemma idle_checkable now_ns a : idle a → is_fwd_att (info a) = false → any (alarm_conf a) = true → checkable now_ns a.
Proof.
  intros Hi Hf Hc Hq. destruct (decide (quality a = ATTR_VALID)) as [Hv|Hv]; [|by apply not_valid_checkable].
  exists a, false. rewrite Hv. split; [|by intros [[=]|[=]]].
  unfold check_alarm. rewrite (run_bind _ _ a a a eq_refl), Hc, Hf, Hv. rewrite (run_bind _ _ a a tt eq_refl). cbv zeta. cbn [negb andb orb].
  rewrite (bool_decide_eq_true_2 (ATTR_VALID = ATTR_VALID)) by done. cbn [negb].
  rewrite (run_bind _ _ a a false) by (destruct (test min_level _ || _); [by apply idle_thresholds|done]).
  cbn [orb negb andb]. rewrite (bool_decide_eq_false_2 (ATTR_VALID = ATTR_ALARM)), (bool_decide_eq_false_2 (ATTR_VALID = ATTR_WARNING)) by done. cbn [orb negb andb].
  rewrite (run_bind _ _ a a false) by (destruct (test min_warn _ || _); [by apply idle_thresholds|done]).
  by rewrite (proj2 (proj2 Hi)).
Qed.

(** ** The loops over the attributes *)

Definition attrs_only s s' : Prop := s' = set_attrs (attr_list s') s.
Lemma attrs_refl s : attrs_only s s.
Proof. by destruct s. Qed.
Lemma attrs_trans s1 s2 s3 : attrs_only s1 s2 → attrs_only s2 s3 → attrs_only s1 s3.
Proof. unfold attrs_only. intros -> ->. done. Qed.

Lemma on_attr_ok {A} i (m : SM Attribute A) a s (Q : DevSt → exn + A → Prop) :
  attr_list s !! i = Some a → wp m a (λ a' r, Q (set_attrs (<[i := a']> (attr_list s)) s) r) → wp (on_attr i m) s Q.
Proof. intros Ha Hw. unfold wp, on_attr in *. rewrite Ha. by destruct (m a) as [[a' r]|]. Qed.

Lemma in_polled_even nm l : Nat.even (length l) = true → ∃ r, in_polled nm l = Ok r.
Proof.
  revert l. fix IH 1. intros [|x [|upd l]] H; [by eexists|done|]. simpl. case_bool_decide; [by eexists|]. by apply IH.
Qed.
(** What the device answers about the polling of an attribute. *)
Definition polled_is s (b : bool) a : Prop := is_polled (polled_attr s) (non_auto_polled_attr s) a = Ok b.
Lemma polled_known s a : Nat.even (length (polled_attr s)) = true → ∃ b, polled_is s b a.
Proof.
  intros He. unfold polled_is, is_polled. destruct (in_polled_even (tolower (name (info a))) _ He) as [r ->]. by eexists.
Qed.
Lemma attr_polled_ok i a b s (Q : DevSt → exn + bool → Prop) :
  attr_list s !! i = Some a → polled_is s b a → Q s (inr b) → wp (attr_polled i) s Q.
Proof.
  intros Ha Hb HQ. unfold wp, attr_polled. rewrite (run_bind _ _ s s s eq_refl).
  rewrite (run_bind _ _ s s a) by (by rewrite Ha). by rewrite Hb.
Qed.

(** The attributes with the indexes of a list have a property. *)
Definition all_attrs (R : nat → Attribute → Prop) (l : list nat) s : Prop :=
  ∀ i, i ∈ l → ∃ a, attr_list s !! i = Some a ∧ R i a.
Definition same_but (l : list nat) s s' : Prop := ∀ j, j ∉ l → attr_list s' !! j = attr_list s !! j.

Lemma insert_here i a s (R : Attribute → Prop) :
  is_Some (attr_list s !! i) → R a → ∃ b, attr_list (set_attrs (<[i := a]> (attr_list s)) s) !! i = Some b ∧ R b.
Proof. intros [b Hb] Ha. exists a. split; [|done]. apply list_lookup_insert_eq. by eapply lookup_lt_Some. Qed.
Lemma insert_same i a s : same_but [i] s (set_attrs (<[i := a]> (attr_list s)) s).
Proof. intros j Hj. simpl. apply list_lookup_insert_ne. set_solver. Qed.

Lemma for_attrs_ok (Pre Post : nat → Attribute → Prop) (m : nat → SM Attribute unit) l s :
  (∀ i a, i ∈ l → Pre i a → wp (m i) a (λ a' r, r = inr tt ∧ Pre i a' ∧ Post i a')) → all_attrs Pre l s →
  wp (for_attrs m l) s (λ s' r, r = inr tt ∧ attrs_only s s' ∧ all_attrs Post l s' ∧ same_but l s s').
Proof.
  revert s. induction l as [|i l IH]; intros s Hm Hs.
  { split_and!; [done|apply attrs_refl|set_solver|done]. }
  cbn [for_attrs]. wp_step. destruct (Hs i) as (a & Ha & HP); [set_solver|].
  eapply on_attr_ok; [done|]. eapply wp_mono; [apply Hm; [set_solver|done]|]. intros a' r (-> & HP' & HQ). cbv beta iota.
  pose proof (insert_same i a' s) as Hframe.
  eapply wp_mono; [apply IH|].
  - intros j b Hj. apply Hm. set_solver.
  - intros j Hj. destruct (decide (j = i)) as [->|Hne]; [by apply insert_here|].
    rewrite (Hframe j) by set_solver. apply Hs. set_solver.
  - intros s' r (-> & H1 & H2 & H3). split_and!; [done|by eapply attrs_trans; [|exact H1]| |].
    + intros j Hj. destruct (decide (j ∈ l)) as [Hl|Hl]; [by apply H2|].
      assert (j = i) as -> by (apply elem_of_cons in Hj; naive_solver). rewrite (H3 i Hl). by apply insert_here.
    + intros j [H4 H5]%not_elem_of_cons. rewrite (H3 j H5). apply Hframe. by rewrite list_elem_of_singleton.
Qed.

Lemma alarmed_at i a s : attr_list s !! i = Some a → alarmed (quality a) = true → is_att_quality_alarmed s = true.
Proof.
  intros Ha Hq. unfold is_att_quality_alarmed. apply existsb_exists. exists a. split; [|done].
  apply list_elem_of_In. by eapply list_elem_of_lookup_2.
Qed.

(** ** The check of the alarms *)

Lemma check_one_ok now_ns i a s :
  attr_list s !! i = Some a → (∃ b, polled_is s b a) → polled_is s true a ∨ checkable now_ns a →
  wp (check_one_alarm now_ns i) s (λ s' r, ∃ b, r = inr b ∧ attrs_only s s' ∧ same_but [i] s s' ∧
    ∃ a', attr_list s' !! i = Some a' ∧ (b = true → alarmed (quality a') = true)).
Proof.
  intros Ha [p Hp] Hc. unfold check_one_alarm. wp_step. wp_step. wp_step.
  rewrite Ha. apply wp_lift; [done| |done]. intros _ [= <-]. wp_step.
  assert (attrs_only s s ∧ same_but [i] s s) as Hs by (split; [apply attrs_refl|done]).
  assert (∃ a', attr_list s !! i = Some a' ∧ (bool_decide (quality a = ATTR_ALARM) || false = true → alarmed (quality a') = true)) as Hq.
  { exists a. split; [done|]. rewrite orb_false_r. intros H%bool_decide_eq_true. unfold alarmed. by rewrite H. }
  destruct (decide (quality a = ATTR_INVALID)) as [Hi|Hi].
  { rewrite bool_decide_eq_true_2 by done. cbn [negb]. wp_step. wp_step. eexists. split; [done|]. by split_and!; try apply Hs. }
  rewrite bool_decide_eq_false_2 by done. cbn [negb]. wp_step. eapply attr_polled_ok; [done..|].
  destruct p; cbn [negb]; [wp_step; wp_step; eexists; split; [done|]; by split_and!; try apply Hs|].
  destruct Hc as [Hc|Hc]; [unfold polled_is in *; congruence|]. destruct (Hc Hi) as (a' & b & Hrun & Hb).
  eapply on_attr_ok; [done|]. unfold wp. rewrite Hrun. eexists. split; [done|]. split_and!; [done|apply insert_same|].
  apply (insert_here i a' s (λ a', _ → alarmed (quality a') = true)); [by eexists|]. intros H. apply Hb.
  apply orb_true_iff in H as [H%bool_decide_eq_true|H]; auto.
Qed.

Lemma check_alarms_ok now_ns l s :
  NoDup l → Nat.even (length (polled_attr s)) = true → all_attrs (λ _ a, polled_is s true a ∨ checkable now_ns a) l s →
  wp (check_alarms now_ns l) s (λ s' r, ∃ b, r = inr b ∧ attrs_only s s' ∧ same_but l s s' ∧ all_attrs (λ _ _, True) l s' ∧
    (b = true → is_att_quality_alarmed s' = true)).
Proof.
  revert s. induction l as [|i l IH]; intros s Hn He Hs.
  { eexists. split_and!; [done|apply attrs_refl|done|set_solver|done]. }
  apply NoDup_cons in Hn as [Hi Hn]. cbn [check_alarms]. wp_step. destruct (Hs i) as (a & Ha & HR); [by left|].
  eapply wp_mono; [apply (check_one_ok _ _ a); [done|by apply polled_known|done]|].
  intros s1 r (b & -> & Ho & Hf & a' & Ha' & Hb). cbv beta iota. wp_step.
  assert (∀ j, j ∉ i :: l → attr_list s1 !! j = attr_list s !! j) as Hout.
  { intros j [H1 H2]%not_elem_of_cons. apply Hf. by rewrite list_elem_of_singleton. }
  eapply wp_mono; [apply IH; [done| |]|].
  - by rewrite Ho.
  - intros j Hj. rewrite (Hf j) by (by intros ->%list_elem_of_singleton). destruct (Hs j) as (c & Hc & HR'); [by right|].
    exists c. split; [done|]. unfold polled_is in *. by rewrite Ho.
  - intros s2 r (b' & -> & Ho' & Hf' & He' & Hb'). cbv beta iota. wp_step. rewrite <-(Hf' i Hi) in Ha'.
    eexists. split_and!; [done|by eapply attrs_trans| | |].
    + intros j Hj. rewrite Hf', Hout; [done..|]. set_solver.
    + intros j [->|Hj]%elem_of_cons; [by exists a'|by apply He'].
    + intros [H|H]%orb_true_iff; [|auto]. apply (alarmed_at i a'); auto.
Qed.

(** ** The state of a device *)

(** An attribute of the list of those with alarms. *)
Definition configured a : Prop := is_fwd_att (info a) = false ∧ any (alarm_conf a) = true.
Definition same_conf a a' : Prop := info a' = info a ∧ alarm_conf a' = alarm_conf a ∧ limits a' = limits a ∧ wpart a' = wpart a.

(** What the code of the user that reads the attribute [a0] promises: it only throws errors of
    the library, a valid value that it sets fits the attribute, and it has not set one
    when it throws. *)
Definition user_reads (m : SM Attribute unit) a0 : Prop := ∀ a, same_conf a0 a → value_is_set a = false →
  wp m a (λ a' r, same_conf a a' ∧
    match r with
    | inr _ => value_is_set a' = true → quality a' = ATTR_VALID → ∃ l, readable l a'
    | inl (DevFailed _) => value_is_set a' = true → quality a' ≠ ATTR_VALID
    | inl _ => False
    end).

Lemma read_failed_ok now_ns a :
  configured a → (value_is_set a = true → quality a ≠ ATTR_VALID) →
  wp read_failed a (λ a' r, r = inr tt ∧ same_conf a a' ∧ checkable now_ns a').
Proof.
  intros [Hf Hc] Hq. unfold read_failed. do 3 wp_step. destruct (value_is_set a) eqn:E; cbn [negb when_]; wp_step; wp_step.
  - do 2 wp_step. wp_step. split; [done|]. case_bool_decide; (split; [done|]); [by intros ?|].
    by apply not_valid_checkable; auto.
  - split; [done|]. split; [done|]. by apply not_valid_checkable; auto.
  - do 2 wp_step. wp_step. split; [done|]. rewrite bool_decide_eq_true_2 by done. split; [done|]. by intros ?.
  - split; [done|]. split; [done|]. by intros ?.
Qed.

Lemma run_throw {S A B} (m : SM S A) (f : A → SM S B) x x' e : m x = Some (x', inl e) → (m ≫= f) x = Some (x', inl e).
Proof. unfold mbind, SM_bind. by intros ->. Qed.
Lemma same_conf_configured a a' : same_conf a a' → configured a → configured a'.
Proof. unfold configured. by intros (-> & -> & _). Qed.
Lemma same_conf_trans a b c : same_conf a b → same_conf b c → same_conf a c.
Proof. unfold same_conf. intuition congruence. Qed.

(** What [is_allowed] answers for an attribute: that it may be read, that it may not, which is
    harmless when the attribute is idle, or an exception of the library. *)
Definition answers (o : outcome bool) a : Prop :=
  match o with Ok true | Exc (DevFailed _) => True | Ok false => idle a | _ => False end.
Lemma read_one_ok vers is_allowed read_attr now_ns i a0 a :
  3 <= vers → answers (is_allowed i) a → user_reads (read_attr i) a0 → configured a → same_conf a0 a →
  wp (read_one vers is_allowed read_attr i) a (λ a' r, r = inr tt ∧ same_conf a a' ∧ checkable now_ns a' ∧ (idle a → is_allowed i = Ok false → idle a')).
Proof.
  intros Hv Hi Hu Hc H0. unfold read_one, try_read, wp. rewrite !(run_bind _ _ _ _ _ eq_refl).
  replace (vers <? 3) with false by lia. set (a1 := reset_value (wanted_date false a)).
  assert (is_allowed i ≠ Ok false → wp (read_one vers is_allowed read_attr i) a (λ a' r, r = inr tt ∧ same_conf a a' ∧ checkable now_ns a') →
    wp (read_one vers is_allowed read_attr i) a (λ a' r, r = inr tt ∧ same_conf a a' ∧ checkable now_ns a' ∧ (idle a → is_allowed i = Ok false → idle a'))) as Hmore.
  { intros Hne H. eapply wp_mono; [exact H|]. by intros a' r (? & ? & ?). }
  unfold read_one, try_read, wp in Hmore. rewrite !(run_bind _ _ _ _ _ eq_refl) in Hmore. replace (vers <? 3) with false in Hmore by lia.
  fold a1 in Hmore.
  assert (∀ a', same_conf a a' → (value_is_set a' = true → quality a' ≠ ATTR_VALID) →
    wp read_failed a' (λ a' r, r = inr tt ∧ same_conf a a' ∧ checkable now_ns a')) as Hf.
  { intros a' Hs Hq. eapply wp_mono; [apply (read_failed_ok now_ns); [by eapply same_conf_configured|done]|].
    cbv beta. intros b r (-> & Hb & Hk). split; [done|]. split; [by eapply same_conf_trans|done]. }
  destruct (is_allowed i) as [[]|[l|]|]; try done.
  2: { split; [done|]. split; [done|]. split; [|by intros (? & ? & ?)]. destruct Hc as [? ?]. by apply idle_checkable. }
  2: { apply Hmore; [done|]. by apply Hf. }
  apply Hmore; [done|]. clear Hmore. rewrite (run_bind _ _ a1 a1 true eq_refl). cbn [negb]. unfold a1.
  pose proof (Hu (reset_value (wanted_date false a)) H0 eq_refl) as H. unfold wp in H.
  destruct (read_attr i _) as [[a' [[l|]|[]]]|] eqn:E; [|by destruct H| |done]; destruct H as [Hs H].
  - rewrite (run_throw _ _ _ _ _ E). by apply Hf.
  - rewrite (run_bind _ _ _ _ _ E), (run_bind _ _ a' a' a' eq_refl).
    destruct (decide (quality a' = ATTR_INVALID)) as [Hi'|Hi'].
    { rewrite bool_decide_eq_true_2 by done. cbn. split; [done|]. split; [done|]. by intros ?. }
    rewrite bool_decide_eq_false_2 by done. destruct (value_is_set a') eqn:Hset; cbn; [|by apply Hf; [|congruence]].
    split; [done|]. split; [done|]. destruct (same_conf_configured _ _ Hs Hc) as [H1 H2].
    destruct (decide (quality a' = ATTR_VALID)) as [Hq|Hq]; [|by apply not_valid_checkable].
    destruct (H eq_refl Hq) as [vs Hr]. by eapply readable_checkable.
Qed.

(** The attributes that are read. *)
Lemma not_polled_ok l s (Q : DevSt → exn + list nat → Prop) :
  Nat.even (length (polled_attr s)) = true → all_attrs (λ _ _, True) l s →
  (∀ l', l' ⊆ l → (∀ i a, i ∈ l → i ∉ l' → attr_list s !! i = Some a → polled_is s true a) → Q s (inr l')) →
  wp (not_polled l) s Q.
Proof.
  intros He. revert Q. induction l as [|i l IH]; intros Q Hs HQ; [by apply HQ; set_solver|].
  cbn [not_polled]. destruct (Hs i) as (a & Ha & _); [set_solver|]. destruct (polled_known s a He) as [b Hb].
  wp_step. eapply attr_polled_ok; [done..|]. wp_step. apply IH.
  - intros j Hj. apply Hs. by right.
  - intros l' Hl Hp. wp_step. apply HQ; [destruct b; set_solver +Hl|].
    intros j a' [->|Hj]%elem_of_cons Hn Hja; [|apply (Hp j); [done|destruct b; set_solver +Hn|done]].
    destruct b; [by simplify_eq|]. by destruct Hn; left.
Qed.

Lemma quality_frame l s s' :
  attrs_only s s' → same_but l s s' → all_attrs (λ i a, ∃ b, attr_list s !! i = Some b ∧ quality a = quality b) l s' →
  is_att_quality_alarmed s' = is_att_quality_alarmed s.
Proof.
  intros _ Hf Hl. unfold is_att_quality_alarmed.
  assert (quality <$> attr_list s' = quality <$> attr_list s) as H.
  { apply list_eq. intros i. rewrite !list_lookup_fmap. destruct (decide (i ∈ l)) as [Hi|Hi]; [|by rewrite Hf].
    destruct (Hl i Hi) as (a & -> & b & -> & Hq). simpl. by rewrite Hq. }
  assert (∀ l, existsb (λ a, alarmed (quality a)) l = existsb alarmed (quality <$> l)) as He.
  { clear. induction l as [|a l IH]; [done|]. simpl. by rewrite IH. }
  by rewrite !He, H.
Qed.

Lemma free_values_ok l s :
  all_attrs (λ _ _, True) l s →
  wp (for_attrs (λ _, free_value) l) s (λ s' r, r = inr tt ∧ attrs_only s s' ∧ is_att_quality_alarmed s' = is_att_quality_alarmed s).
Proof.
  intros Hl. set (P := λ i a, ∃ b, attr_list s !! i = Some b ∧ quality a = quality b).
  eapply wp_mono; [apply (for_attrs_ok P P)|].
  - intros i a _ (b & Hb & Hq). unfold free_value. do 2 wp_step. wp_step; [|by split_and!; try done; exists b].
    do 2 wp_step. wp_step. split; [done|]. case_bool_decide; by split; exists b.
  - intros i Hi. destruct (Hl i Hi) as (a & Ha & _). exists a. split; [done|]. by exists a.
  - intros s' r (-> & H1 & H2 & H3). split_and!; [done|done|]. by eapply quality_frame.
Qed.

Section State.
Context (vers : Z) (is_allowed : nat → outcome bool) (read_attr_hardware : list nat → outcome unit) (read_attr : nat → SM Attribute unit).

(** A request for the state of a device: its attributes with alarms exist, the ones that
    the request has read can be checked, and the code of the user reads the others. *)
Record request now_ns s : Prop := {
  q_vers : 3 <= vers;
  q_polled : Nat.even (length (polled_attr s)) = true;
  q_alarms : NoDup (alarm_attr_list s);
  q_not_read : alrmd_not_read s ⊆ alarm_attr_list s;
  q_attrs : all_attrs (λ i a, configured a ∧
    (state_from_read s = true → i ∉ alrmd_not_read s → polled_is s true a ∨ checkable now_ns a)) (alarm_attr_list s) s;
  q_hardware : ∀ l, read_attr_hardware l = Ok tt;
  q_user : ∀ i a, i ∈ alarm_attr_list s → attr_list s !! i = Some a → answers (is_allowed i) a ∧ user_reads (read_attr i) a;
}.

Lemma wanted_attrs_ok now_ns s (Q : DevSt → exn + list nat → Prop) :
  request now_ns s →
  (∀ l, l ⊆ alarm_attr_list s →
    all_attrs (λ i a, configured a ∧ (i ∉ l → polled_is s true a ∨ checkable now_ns a)) (alarm_attr_list s) s → Q s (inr l)) →
  wp (wanted_attrs vers) s Q.
Proof.
  intros [Hv He _ Hn Ha _ _] HQ. unfold wanted_attrs. do 2 wp_step. replace (3 <=? vers) with true by lia.
  apply not_polled_ok; [done| |].
  - intros i Hi. destruct (Ha i) as (a & H & _); [|by exists a]. destruct (state_from_read s); [by apply Hn|done].
  - intros l Hl Hp. apply HQ; [destruct (state_from_read s); set_solver|].
    intros i Hi. destruct (Ha i Hi) as (a & H & Hc & Hr). exists a. split; [done|]. split; [done|]. intros Hnl.
    destruct (state_from_read s) eqn:E; [|left; by eapply Hp].
    destruct (decide (i ∈ alrmd_not_read s)); [left; by eapply Hp|by apply Hr].
Qed.

Definition user_alarm s : Prop := device_state s = ALARM ∧ alarm_state_kernel s <= alarm_state_user s.
Definition alarm_or_on s s' (b : bool) : Prop :=
  (device_state s' = ON ∨ device_state s' = ALARM) ∧
  (b = true → device_state s' = ALARM ∧ is_att_quality_alarmed s' = true) ∧
  (b = false → device_state s' = ALARM ↔ user_alarm s).

Lemma back_to_on_spec s :
  device_state s = ON ∨ device_state s = ALARM → alarm_or_on s (back_to_on s) false.
Proof.
  intros Hs. unfold alarm_or_on, back_to_on, user_alarm. destruct (_ <? _) eqn:E; simpl.
  - split_and!; [by left|done|]. intros _. split; [done|lia].
  - split_and!; [done|done|]. intros _. split; [|by intros [? _]]. intros ?. split; [done|lia].
Qed.

Lemma raise_state now b s s2 :
  attrs_only s s2 → device_state s = ON ∨ device_state s = ALARM → (b = true → is_att_quality_alarmed s2 = true) →
  let s3 := if b then if bool_decide (device_state s2 = ALARM) then s2 else kernel_alarm now s2 else back_to_on s2 in
  alarm_or_on s s3 b ∧ attr_list s3 = attr_list s2.
Proof.
  intros Ho Hs Hb. destruct b; simpl.
  - specialize (Hb eq_refl). case_bool_decide as H; split; try done.
    + split_and!; [by right|done|done].
    + split_and!; [by right|done|done].
  - split; [|unfold back_to_on; by destruct (_ <? _)].
    assert (user_alarm s ↔ user_alarm s2) as H by (by rewrite Ho).
    destruct (back_to_on_spec s2) as (H1 & _ & H3); [by rewrite Ho|]. split_and!; [done|done|].
    intros _. rewrite (H3 eq_refl). by rewrite H.
Qed.

Lemma check_attrs_ok now now_ns wanted s :
  request now_ns s → device_state s = ON ∨ device_state s = ALARM → wanted ⊆ alarm_attr_list s →
  all_attrs (λ i a, configured a ∧ (i ∉ wanted → polled_is s true a ∨ checkable now_ns a)) (alarm_attr_list s) s →
  wp (check_attrs vers is_allowed read_attr_hardware read_attr now now_ns wanted) s
    (λ s' r, ∃ b, r = inr b ∧ alarm_or_on s s' b).
Proof.
  intros [Hv He Hnd _ _ Hh Hu] Hst Hw Ha. unfold check_attrs. do 3 wp_step.
  eapply (wp_mono _ _ (λ s' r, s' = s ∧ r = inr tt)).
  { wp_step; [|done]. by rewrite Hh. }
  intros s0 r [-> ->]. cbv beta iota. wp_step.
  eapply wp_mono; [apply (for_attrs_ok (λ i a, answers (is_allowed i) a ∧ ∃ a0, attr_list s !! i = Some a0 ∧ configured a0 ∧ same_conf a0 a)
    (λ _ a, checkable now_ns a))|].
  { intros i a Hi (Hans & a0 & H0 & Hc & Hsame). destruct (Hu i a0) as [_ H2]; [by apply Hw|done|].
    eapply wp_mono; [eapply (read_one_ok _ _ _ now_ns); [done|done|done|by eapply same_conf_configured|done]|].
    intros a' r (-> & H3 & H4 & H5). split; [done|]. split; [|done]. split.
    - unfold answers in *. destruct (is_allowed i) as [[]|[]|]; try done. by apply H5.
    - exists a0. split; [done|]. split; [done|]. by eapply same_conf_trans. }
  { intros i Hi. destruct (Ha i) as (a & H & Hc & _); [by apply Hw|]. exists a. split; [done|].
    split; [apply (Hu i a); [by apply Hw|done]|]. by exists a. }
  intros s1 r (-> & Ho & Hp & Hf). cbv beta iota. do 3 wp_step.
  eapply wp_mono; [apply check_alarms_ok; [by rewrite Ho|by rewrite Ho|]|].
  { replace (alarm_attr_list s1) with (alarm_attr_list s) by (by rewrite Ho). intros i Hi. destruct (decide (i ∈ wanted)) as [Hin|Hin].
    - destruct (Hp i Hin) as (a & H1 & H2). eauto.
    - destruct (Ha i Hi) as (a & H1 & _ & H2). exists a. rewrite (Hf i Hin). split; [done|]. unfold polled_is in *. rewrite Ho. by apply H2. }
  intros s2 r (b & -> & Ho2 & _ & He2 & Hb). cbv beta iota. do 2 wp_step.
  assert (attrs_only s s2) as Ho' by (by eapply attrs_trans).
  set (s3 := if b then _ else _).
  destruct (raise_state now b s s2 Ho' Hst Hb) as [H3 Hl3]. change (alarm_or_on s s3 b) in H3. change (attr_list s3 = attr_list s2) in Hl3.
  wp_step.
  eapply wp_mono; [apply free_values_ok|].
  { intros i Hi. rewrite Hl3. apply He2. rewrite Ho. by apply Hw. }
  intros s4 r (-> & Ho4 & Hq4). cbv beta iota. wp_step. exists b. split; [done|].
  unfold alarm_or_on in *. rewrite Hq4, Ho4. done.
Qed.

Definition conf_checked s : DevSt := if dev_run_att_conf_loop s then att_conf_loop s else s.
Lemma request_conf now_ns s : request now_ns s → request now_ns (conf_checked s).
Proof. intros [? ? ? ? ? ? ?]. unfold conf_checked. by destruct (dev_run_att_conf_loop s). Qed.

(** C21: the state of a device of version 3 or more that is ON or in ALARM is computed without an
    error, and is ON or ALARM: ALARM exactly when the configuration or the memorized values of
    its attributes force it (after the loop over the configuration, if it was asked for), or
    when an attribute has the quality ALARM or WARNING after the reading, or when the user of
    the device put it in ALARM after the library did.  This is for attributes with alarms that
    exist, are local and of which [is_allowed] answers, throws an error of the library, or
    refuses an attribute that is idle (see [not_allowed_alarm]); for a [read_attr_hardware]
    that returns; and for code of the user that throws errors of the library only and sets
    values that fit the attribute. *)
Theorem dev_state_alarm now now_ns s :
  request now_ns s → device_state s = ON ∨ device_state s = ALARM →
  wp (dev_state vers is_allowed read_attr_hardware read_attr now now_ns) s (λ s' r, ∃ st,
    r = inr st ∧ (st = ON ∨ st = ALARM) ∧
    (st = ALARM ↔ force_alarm_state (conf_checked s) = true ∨ is_att_quality_alarmed s' = true ∨ user_alarm s) ∧
    (force_alarm_state (conf_checked s) = false → st = device_state s')).
Proof.
  intros Hr Hs. unfold dev_state. do 3 wp_step.
  eapply (wp_mono _ _ (λ s' r, s' = conf_checked s ∧ r = inr tt)).
  { unfold conf_checked. by destruct (dev_run_att_conf_loop s). }
  intros s1 r [-> ->]. cbv beta iota. do 2 wp_step. destruct (force_alarm_state (conf_checked s)) eqn:Hforce.
  { assert (device_state (conf_checked s) = device_state s) as -> by (unfold conf_checked; by destruct (dev_run_att_conf_loop s)).
    assert (negb (bool_decide (device_state s = FAULT)) = true) as -> by (by destruct Hs as [-> | ->]).
    cbn [andb]. wp_step. exists ALARM. split; [done|]. split; [by right|]. split; [|done]. split; [by left|done]. }
  rewrite andb_false_r.
  eapply (wp_mono _ _ (λ s' r, r = inr (device_state s') ∧ (device_state s' = ON ∨ device_state s' = ALARM) ∧
    (device_state s' = ALARM ↔ is_att_quality_alarmed s' = true ∨ user_alarm s))).
  2: { intros s' r (-> & H1 & H2). exists (device_state s'). split; [done|]. split; [done|]. split; [|done]. rewrite H2. naive_solver. }
  pose proof (request_conf _ _ Hr) as Hr'.
  assert (device_state (conf_checked s) = device_state s ∧ user_alarm (conf_checked s) = user_alarm s) as [Hst Hua].
  { unfold conf_checked. by destruct (dev_run_att_conf_loop s). }
  rewrite <-Hst in Hs. rewrite <-Hua. clear Hr Hforce Hst Hua. revert Hr' Hs. generalize (conf_checked s). clear s. intros s Hr Hs.
  wp_step. wp_step.
  2: { exfalso. by destruct Hs as [Hs|Hs]; rewrite Hs in *. }
  wp_step. eapply (wanted_attrs_ok now_ns); [done|]. intros wanted Hw Ha. cbv beta iota. wp_step.
  eapply (wp_mono _ _ (λ s' r, ∃ b, r = inr b ∧ alarm_or_on s s' b)).
  { destruct (decide (wanted = [])) as [Hwe|Hwe]; [|rewrite bool_decide_eq_false_2 by done; by apply check_attrs_ok].
    rewrite bool_decide_eq_true_2 by done. cbn [negb]. do 3 wp_step. exists false. split; [done|]. by apply back_to_on_spec. }
  intros s1 r (b & -> & H1 & H2 & H3). cbv beta iota. do 2 wp_step. apply wp_when; intros Hk.
  - apply andb_true_iff in Hk as [Hb%negb_true_iff Hna%negb_true_iff]. subst b. apply bool_decide_eq_false in Hna.
    do 2 wp_step. wp_step. rewrite H3 in Hna by done. destruct (is_att_quality_alarmed s1) eqn:E.
    + rewrite bool_decide_eq_false_2 by (by rewrite H3). split_and!; [done|by right|]. by split; [left|].
    + split_and!; [done|by left|]. split; [done|]. intros [Hx|Hx]; [|done].
      change (is_att_quality_alarmed s1 = true) in Hx. congruence.
  - do 2 wp_step. split_and!; [done|done|]. destruct b.
    + destruct (H2 eq_refl) as [-> ?]. split; [by left|done].
    + apply negb_false_iff, bool_decide_eq_true in Hk. split; [|done]. intros _. right. by apply H3.
Qed.
End State.

(** ** An instance, and a behaviour worth knowing *)

(** A device with one attribute that reads [x]. *)
Definition ex_device (st : DevState) (a : Attribute) : DevSt :=
  mkDev st st 0 0 [a] [0%nat] true false [] [] [] false [] [] [].
Definition ex_reading (x : Z) (i : nat) : SM Attribute unit := set_value DEV_SHORT (Some [I x]) 1 0.

Lemma ex_reading_rules i y : user_reads (ex_reading 20 i) (ex_short y).
Proof.
  intros [? ? ? ? ? ? ? ? ? ? ? ? ? ? ? ? ?] (H1 & H2 & H3 & H4) _. cbn in *. subst. unfold wp.
  match goal with |- match ?m with _ => _ end => let v := eval vm_compute in m in change m with v end.
  split; [done|]. intros _ _. exists [I 20]. split; try done. by repeat constructor.
Qed.
Lemma ex_state_request y : request 3 (λ _, Ok true) (λ _, Ok tt) (ex_reading 20) 0 (ex_device ON (ex_short y)).
Proof.
  split; try done; [apply NoDup_singleton|set_solver|..].
  - intros i ->%list_elem_of_singleton. by exists (ex_short y).
  - intros i a ->%list_elem_of_singleton [= <-]. split; [done|]. apply ex_reading_rules.
Qed.

(** A value over the limit puts the device in ALARM. *)
Definition ex_state (allowed : bool) : DevSt → option (DevSt * (exn + DevState)) :=
  dev_state 3 (λ _, Ok allowed) (λ _, Ok tt) (ex_reading 20) 5 0.
Definition answered (x : option (DevSt * (exn + DevState))) : option DevState :=
  match x with Some (_, inr st) => Some st | _ => None end.
Lemma ex_answer : answered (ex_state true (ex_device ON (ex_short 0))) = Some ALARM.
Proof. vm_compute. reflexivity. Qed.
Lemma answered_alarm (m : DevSt → option (DevSt * (exn + DevState))) s (P : DevSt → Prop) (Q : DevSt → exn + DevState → Prop) :
  answered (m s) = Some ALARM → wp m s Q → (∀ s' r, Q s' r → r = inr ALARM → P s') → ∃ s', m s = Some (s', inr ALARM) ∧ P s'.
Proof. unfold answered, wp. destruct (m s) as [[s' [e|x]]|]; naive_solver. Qed.

Lemma dev_state_alarm_witness :
  ∃ s', ex_state true (ex_device ON (ex_short 0)) = Some (s', inr ALARM) ∧ is_att_quality_alarmed s' = true.
Proof.
  refine (answered_alarm (ex_state true) _ _ _ ex_answer (dev_state_alarm 3 (λ _, Ok true) (λ _, Ok tt) (ex_reading 20) 5 0
    (ex_device ON (ex_short 0)) (ex_state_request 0) (or_introl eq_refl)) _).
  intros s' r (st & -> & _ & H & _) [= Hs]. destruct (proj1 H Hs) as [?|[?|[? _]]]; done.
Defined.

(** The value of an attribute that the current state forbids to read is taken away before
    the test: an encoded attribute with alarms is then checked without a value, and a
    null pointer is followed. *)
Example not_allowed_alarm :
  ex_state false (ex_device ON (ex_attr DEV_ENCODED SCALAR (Encoded [("raw", [I 7])]) 1 None all_levels)) = None.
Proof. vm_compute. reflexivity. Qed.
