(* ===== verification/WAttribute.v ===== *)
(** * Writable attributes (src/src/server/w_attribute.cpp, w_attribute.h)

  The value a client writes, up to the code of the user: the checks on its type, its
  size and its limits, the set value kept by the attribute ([write_val], and [old_val]
  for the way back), and the value last written ([written]), which the alarm on a value
  read different from the set one uses.  The members of each type ([short_val],
  [long_val] ...) are one member of the type of the attribute; only [str_val], which the
  code frees by hand, is told apart.  A text of an error that names C++ types is cut. *)
From stdpp Require Import pretty.
From S2P Require Import Prelude StateExn CppString PollRing AttrHistory Number Attribute DevState.
Local Open Scope string_scope.
Local Open Scope list_scope.
Local Open Scope Z_scope.

(** ** Data *)

Inductive AttrWriteType := READ | READ_WITH_WRITE | WRITE | READ_WRITE | WT_UNKNOWN.
#[export] Instance AttrWriteType_eq : EqDecision AttrWriteType.
Proof. solve_decision. Defined.

Inductive WElt :=
  | EltNum (x : Num)
  | EltBool (b : bool)
  | EltString (s : string)
  | EltState (s : DevState)
  | EltEncoded (format : string) (data : list Num).

(** A [CORBA::Any] or an [AttrValUnion]: the type of the elements of the sequence. *)
Record WValue := mkWValue { v_type : CmdArgType; v_seq : list WElt }.

Record WAttribute := mkWAttribute {
  base : Attribute;
  writable : AttrWriteType;
  min_value : Num;
  max_value : Num;
  check_min_value : bool;
  check_max_value : bool;
  w_dim : Z * Z;
  write_val : WElt;
  old_val : WElt;
  write_value_ptr : list WElt;
  written : list WElt;
  user_set_write_value : bool;
  last_write_date : TimeVal;
  w_delta_t : Z;
  w_delta_val : Num;
  memorized : bool;
  mem_value : string;
  mem_write_failed : bool;
  str_val_freed : bool;
}.
Implicit Types w : WAttribute.

Definition set_base b w := mkWAttribute b (writable w) (min_value w) (max_value w) (check_min_value w) (check_max_value w) (w_dim w) (write_val w) (old_val w) (write_value_ptr w) (written w) (user_set_write_value w) (last_write_date w) (w_delta_t w) (w_delta_val w) (memorized w) (mem_value w) (mem_write_failed w) (str_val_freed w).
Definition set_vals d x old ptr w := mkWAttribute (base w) (writable w) (min_value w) (max_value w) (check_min_value w) (check_max_value w) d x old ptr (written w) (user_set_write_value w) (last_write_date w) (w_delta_t w) (w_delta_val w) (memorized w) (mem_value w) (mem_write_failed w) (str_val_freed w).
Definition set_written l w := mkWAttribute (base w) (writable w) (min_value w) (max_value w) (check_min_value w) (check_max_value w) (w_dim w) (write_val w) (old_val w) (write_value_ptr w) l (user_set_write_value w) (last_write_date w) (w_delta_t w) (w_delta_val w) (memorized w) (mem_value w) (mem_write_failed w) (str_val_freed w).
Definition set_user_set_write_value b w := mkWAttribute (base w) (writable w) (min_value w) (max_value w) (check_min_value w) (check_max_value w) (w_dim w) (write_val w) (old_val w) (write_value_ptr w) (written w) b (last_write_date w) (w_delta_t w) (w_delta_val w) (memorized w) (mem_value w) (mem_write_failed w) (str_val_freed w).
Definition set_written_date now w := mkWAttribute (base w) (writable w) (min_value w) (max_value w) (check_min_value w) (check_max_value w) (w_dim w) (write_val w) (old_val w) (write_value_ptr w) (written w) (user_set_write_value w) now (w_delta_t w) (w_delta_val w) (memorized w) (mem_value w) (mem_write_failed w) (str_val_freed w).
Definition set_mem m failed w := mkWAttribute (base w) (writable w) (min_value w) (max_value w) (check_min_value w) (check_max_value w) (w_dim w) (write_val w) (old_val w) (write_value_ptr w) (written w) (user_set_write_value w) (last_write_date w) (w_delta_t w) (w_delta_val w) (memorized w) m failed (str_val_freed w).
Definition free_str w := mkWAttribute (base w) (writable w) (min_value w) (max_value w) (check_min_value w) (check_max_value w) (w_dim w) (write_val w) (old_val w) (write_value_ptr w) (written w) (user_set_write_value w) (last_write_date w) (w_delta_t w) (w_delta_val w) (memorized w) (mem_value w) (mem_write_failed w) true.

Definition set_mem_value (m : string) w : WAttribute := set_mem m (mem_write_failed w) w.
Definition set_mem_exception_flag (b : bool) (a : Attribute) : Attribute :=
  mkAttribute (info a) (quality a) (alarm a) (attribute_value a) (dims a) (data_size a) (wpart a) (alarm_conf a) (limits a) (limit_strs a) (check_startup_exceptions a) (startup_exceptions a) (conf_events a) (run_att_conf_loop a) (db_requests a) (date a) b.
Definition clear_mem_exception w : WAttribute := set_mem (mem_value w) false (set_base (set_mem_exception_flag false (base w)) w).
Definition reset_read_value w : WAttribute := set_base (reset_value (base w)) w.

(** ** The checks *)

Definition state_code (s : DevState) : Z :=
  match s with
  | ON => 0 | OFF => 1 | CLOSE => 2 | OPEN => 3 | INSERT => 4 | EXTRACT => 5 | MOVING => 6
  | STANDBY => 7 | FAULT => 8 | INIT => 9 | RUNNING => 10 | ALARM => 11 | DISABLE => 12 | UNKNOWN => 13
  end.
(** What is compared with the limits. *)
Definition elt_num (x : WElt) : option Num :=
  match x with EltNum n => Some n | EltState s => Some (I (state_code s)) | _ => None end.

Definition u64 (z : Z) : Z := z mod 2 ^ 64.
Definition check_length (nb_data x y : Z) : SM WAttribute unit :=
  when_ (((y =? 0) && negb (nb_data =? x)) || (negb (y =? 0) && negb (nb_data =? u64 (x * y))))
    (throw "API_AttrIncorrectDataNumber" "Incorrect data number" "check_length").

Definition outside {A} (msg : string) : SM WAttribute A :=
  w ← get;
  throw "API_WAttrOutsideLimit" ("Set value for attribute " +:+ name (info (base w)) +:+ msg) "check_data_limits".
Definition at_least (i : Z) : string := "at least element " +:+ pretty i.

(** The test of a number: the not-a-numbers, the minimum and the maximum. *)
Definition check_elt (check_for_nan : bool) (i : Z) (x : Num) : SM WAttribute unit :=
  w ← get;
  when_ (check_for_nan && negb (isfinite x)) (outside (" is a NaN or INF value (" +:+ at_least i +:+ ")"));;
  when_ (check_min_value w && num_lt x (min_value w)) (outside (" is below the minimum authorized (" +:+ at_least i +:+ ")"));;
  when_ (check_max_value w && num_gt x (max_value w)) (outside (" is above the maximum authorized (" +:+ at_least i +:+ ")")).
Fixpoint check_elts (check_for_nan : bool) (seq : list Num) (i : Z) : SM WAttribute unit :=
  match seq with
  | [] => mret tt
  | x :: seq => check_elt check_for_nan i x;; check_elts check_for_nan seq (i + 1)
  end.
(** [check_enum]: only the short integers of an enumerated attribute. *)
Fixpoint check_enum (max_val : Z) (seq : list Num) (i : Z) : SM WAttribute unit :=
  match seq with
  | [] => mret tt
  | x :: seq =>
      when_ (num_lt x (I 0) || num_ge x (I max_val))
        (outside (" is negative or above the maximun authorized (" +:+ pretty max_val +:+ ") for " +:+ at_least i));;
      check_enum max_val seq (i + 1)
  end.

(** The bytes of the element [i] of a sequence of encoded data. *)
Fixpoint check_bytes (bytes : list Num) (i : Z) : SM WAttribute unit :=
  match bytes with [] => mret tt | x :: bytes => check_elt false i x;; check_bytes bytes i end.
Fixpoint check_encoded_elts (seq : list WElt) (i : Z) : SM WAttribute unit :=
  match seq with
  | [] => mret tt
  | EltEncoded _ bytes :: seq => check_bytes bytes i;; check_encoded_elts seq (i + 1)
  | _ :: seq => lift Undef
  end.

Section WithUtil.
(** [Util::is_wattr_nan_allowed]. *)
Context (wattr_nan_allowed : bool).

Definition check_for_nan (t : CmdArgType) : bool :=
  (bool_decide (t = DEV_DOUBLE) || bool_decide (t = DEV_FLOAT)) && negb wattr_nan_allowed.

Definition check_data_limits (seq : list WElt) : SM WAttribute unit :=
  w ← get;
  let t := data_type (info (base w)) in
  if bool_decide (t = DEV_BOOLEAN) || bool_decide (t = DEV_STRING) then mret tt
  else if bool_decide (t = DEV_ENCODED) then
    when_ (check_min_value w || check_max_value w) (check_encoded_elts seq 0)
  else
    nums ← lift (deref (mapM elt_num seq));
    when_ (check_for_nan t || check_min_value w || check_max_value w) (check_elts (check_for_nan t) nums 0);;
    when_ (bool_decide (t = DEV_ENUM)) (check_enum (Z.of_nat (length (enum_labels (info (base w))))) nums 0).

(** [_update_value] and [update_internal_sequence]: the set value of a scalar is the first
    element of the sequence, read without a test. *)
Definition update_internal_sequence (seq : list WElt) (x y : Z) : SM WAttribute unit :=
  check_length (Z.of_nat (length seq)) x y;;
  check_data_limits seq;;
  w ← get;
  if bool_decide (data_format (info (base w)) = SCALAR) then
    new ← lift (deref (seq !! 0%nat));
    modify (set_vals (1, 0) new (write_val w) seq)
  else modify (set_vals (x, y) (write_val w) (old_val w) seq).

(** The type of the sequences written: the enumerations are short integers. *)
Definition elt_type (t : CmdArgType) : CmdArgType := if bool_decide (t = DEV_ENUM) then DEV_SHORT else t.

(** [WAttribute::check_written_value]: the one for a [CORBA::Any]; the sizes are
    [unsigned long]. *)
Definition check_written_value (v : WValue) (x y : Z) : SM WAttribute unit :=
  w ← get;
  when_ (negb (bool_decide (v_type v = elt_type (data_type (info (base w))))))
    (throw "API_IncompatibleAttrDataType" "Incompatible attribute type" "WAttribute::check_written_value()");;
  update_internal_sequence (v_seq v) (u64 x) (u64 y).
(** The one for an [AttrValUnion]. *)
Definition check_written_value_union := check_written_value.

(** [WAttribute::rollback]. *)
Definition rollback : SM WAttribute unit :=
  w ← get;
  let t := data_type (info (base w)) in
  if bool_decide (t = DEV_UCHAR) then
    if str_val_freed w then lift Undef else modify free_str
  else if bool_decide (t = DEV_ENCODED) then
    throw "API_NotSupportedFeature" "This is a not supported call in case of DevEncoded attribute" "WAttribute::rollback"
  else modify (set_vals (w_dim w) (old_val w) (old_val w) (write_value_ptr w)).

Section Copied.
(** Data of another type than [t] read as data of this type: the accessor of a member the
    union does not hold, or the extraction of an [Any] into a pointer that is then used.
    This code is generated from the IDL. *)
Context (other_member : WValue → CmdArgType → outcome (list WElt)).

(** [WAttribute::copy_data]: the type of the data is not checked here. *)
Definition copy_data (v : WValue) : SM WAttribute unit :=
  w ← get;
  let t := data_type (info (base w)) in
  if bool_decide (t = DEV_ENCODED) then mret tt
  else if bool_decide (v_type v = elt_type t) then modify (set_written (v_seq v))
  else l ← lift (other_member v (elt_type t)); modify (set_written l).
Definition copy_data_union := copy_data.

Definition get_write_value_length w : Z :=
  match data_format (info (base w)) with
  | SCALAR => 1
  | SPECTRUM => fst (w_dim w)
  | IMAGE => fst (w_dim w) * snd (w_dim w)
  | FMT_UNKNOWN => 0
  end.

(** [WAttribute::set_write_value], called by the code of the user: from a pointer, from a
    value, from a vector, and from strings. *)
Definition set_write_value_any (v : WValue) (x y : Z) : SM WAttribute unit :=
  check_written_value v x y;; copy_data v;; modify (set_user_set_write_value true).
Definition set_write_value (t : CmdArgType) (val : list WElt) (x y : Z) : SM WAttribute unit :=
  let nb_data := if y =? 0 then x else u64 (x * y) in
  if nb_data <=? Z.of_nat (length val) then set_write_value_any (mkWValue t (take (Z.to_nat nb_data) val)) x y
  else lift Undef.
Definition set_write_value_scalar (t : CmdArgType) (val : WElt) : SM WAttribute unit := set_write_value t [val] 1 0.
Definition set_write_value_vector (t : CmdArgType) (val : list WElt) (x y : Z) : SM WAttribute unit :=
  if bool_decide (t = DEV_BOOLEAN) then set_write_value_any (mkWValue t val) x y else set_write_value t val x y.
Definition set_write_value_strings (val : list string) (x y : Z) : SM WAttribute unit :=
  set_write_value_any (mkWValue DEV_STRING (EltString <$> val)) x y.
Definition set_write_value_string (val : string) : SM WAttribute unit := set_write_value_strings [val] 1 0.
Definition set_write_value_encoded : SM WAttribute unit :=
  throw "API_NotSupportedFeature" "This is a not supported call in case of DevEncoded attribute" "WAttribute::set_write_value".
End Copied.
End WithUtil.

(** The attribute that [Attribute::check_alarm] sees: the last written value and its date. *)
Definition written_storage w : Storage :=
  match data_type (info (base w)), write_val w with
  | DEV_ENCODED, EltEncoded f l => Encoded [(f, l)]
  | _, _ => match mapM (λ x, match x with EltNum n => Some n | _ => None end) (written w) with
            | Some l => Seq l
            | None => OtherSeq (length (written w))
            end
  end.
Definition as_attribute w : Attribute :=
  let a := base w in
  mkAttribute (info a) (quality a) (alarm a) (attribute_value a) (dims a) (data_size a)
    (Some (mkWrite (last_write_date w) (written_storage w) (w_delta_t w) (w_delta_val w)))
    (alarm_conf a) (limits a) (limit_strs a) (check_startup_exceptions a) (startup_exceptions a)
    (conf_events a) (run_att_conf_loop a) (db_requests a) (date a) (att_mem_exception a).
