(* ===== verification/WAttrTheory.v ===== *)
(** * Properties of written values: the checks, and the way back *)
From S2P Require Import Prelude StateExn CppString PollRing AttrHistory Number Attribute DevState WAttribute.
Local Open Scope string_scope.
Local Open Scope list_scope.
Local Open Scope Z_scope.
Implicit Types w : WAttribute.

(** ** Tests that do not change the attribute *)

(** [m] is a test: it returns when [ok] is true and throws one error otherwise, and it
    leaves the attribute as it is. *)
Definition verdict (m : SM WAttribute unit) w (ok : bool) : Prop :=
  if ok then m w = Some (w, inr tt) else ∃ e, m w = Some (w, inl (DevFailed [e])).

Lemma verdict_ret w : verdict (mret tt) w true.
Proof. done. Qed.
Lemma verdict_bind (m1 : SM WAttribute unit) (m2 : SM WAttribute unit) w b1 b2 :
  verdict m1 w b1 → (b1 = true → verdict m2 w b2) → verdict (m1;; m2) w (b1 && b2).
Proof.
  unfold verdict. destruct b1; simpl.
  - intros H1 H2. rewrite (run_bind _ _ _ _ _ H1). by apply H2.
  - intros [e He] _. exists e. unfold mbind, SM_bind. by rewrite He.
Qed.
Lemma verdict_get (m : WAttribute → SM WAttribute unit) w b : verdict (m w) w b → verdict (s ← get; m s) w b.
Proof. done. Qed.
Lemma verdict_test b msg w : verdict (when_ b (outside msg)) w (negb b).
Proof. destruct b; [by eexists|done]. Qed.
Lemma verdict_throw b r d o w : verdict (when_ b (throw r d o)) w (negb b).
Proof. destruct b; [by eexists|done]. Qed.
Lemma verdict_when (c : bool) (m : SM WAttribute unit) w b :
  (c = true → verdict m w b) → verdict (when_ c m) w (implb c b).
Proof. destruct c; simpl; [auto|done]. Qed.
Lemma verdict_lift {A} (x : outcome A) (a : A) (m : A → SM WAttribute unit) w b :
  x = Ok a → verdict (m a) w b → verdict (y ← lift x; m y) w b.
Proof. intros ->. done. Qed.

(** ** The limits *)

(** A number that the attribute accepts. *)
Definition in_limits (nan : bool) w (x : Num) : bool :=
  (negb nan || isfinite x) && negb (check_min_value w && num_lt x (min_value w)) && negb (check_max_value w && num_gt x (max_value w)).
Definition enum_value w (x : Num) : bool :=
  negb (num_lt x (I 0) || num_ge x (I (Z.of_nat (length (enum_labels (info (base w))))))).
Definition elt_accepted (b : bool) w (x : WElt) : bool :=
  let t := data_type (info (base w)) in
  match x with
  | EltBool _ | EltString _ => true
  | EltEncoded _ l => forallb (in_limits false w) l
  | EltNum n => in_limits (check_for_nan b t) w n && (negb (bool_decide (t = DEV_ENUM)) || enum_value w n)
  | EltState s => in_limits (check_for_nan b t) w (I (state_code s)) && (negb (bool_decide (t = DEV_ENUM)) || enum_value w (I (state_code s)))
  end.

(** The elements of a sequence of an attribute of a type. *)
Definition elt_of (t : CmdArgType) (x : WElt) : bool :=
  match t, x with
  | DEV_BOOLEAN, EltBool _ | DEV_STRING, EltString _ | DEV_STATE, EltState _ | DEV_ENCODED, EltEncoded _ _ => true
  | (DEV_BOOLEAN | DEV_STRING | DEV_STATE | DEV_ENCODED), _ => false
  | _, EltNum _ => true
  | _, _ => false
  end.

Lemma verdict_elt nan i x w : verdict (check_elt nan i x) w (in_limits nan w x).
Proof.
  unfold in_limits. rewrite <-andb_assoc. apply verdict_get. apply verdict_bind.
  - replace (negb nan || isfinite x) with (negb (nan && negb (isfinite x))) by (by destruct nan, (isfinite x)). apply verdict_test.
  - intros _. apply verdict_bind; [apply verdict_test|]. intros _. apply verdict_test.
Qed.
Lemma verdict_elts nan l i w : verdict (check_elts nan l i) w (forallb (in_limits nan w) l).
Proof. revert i. induction l as [|x l IH]; intros i; [done|]. apply verdict_bind; [apply verdict_elt|]. intros _. apply IH. Qed.
Lemma verdict_bytes l i w : verdict (check_bytes l i) w (forallb (in_limits false w) l).
Proof. induction l as [|x l IH]; [done|]. apply verdict_bind; [apply verdict_elt|]. intros _. apply IH. Qed.
Lemma verdict_enum l i w :
  verdict (check_enum (Z.of_nat (length (enum_labels (info (base w))))) l i) w (forallb (enum_value w) l).
Proof. revert i. induction l as [|x l IH]; intros i; [done|]. apply verdict_bind; [apply verdict_test|]. intros _. apply IH. Qed.
Lemma verdict_encoded l i w :
  forallb (elt_of DEV_ENCODED) l = true → verdict (check_encoded_elts l i) w (forallb (elt_accepted false w) l).
Proof.
  revert i. induction l as [|x l IH]; intros i; [done|]. simpl. intros [Hx Hl]%andb_true_iff. destruct x; try done.
  apply verdict_bind; [apply verdict_bytes|]. intros _. by apply IH.
Qed.

(** Without a limit everything is in the limits. *)
Lemma no_limits nan w x : nan || check_min_value w || check_max_value w = false → in_limits nan w x = true.
Proof. unfold in_limits. destruct nan, (check_min_value w), (check_max_value w); done. Qed.
Lemma forallb_all {A} (f : A → bool) l : (∀ x, f x = true) → forallb f l = true.
Proof. intros H. apply forallb_forall. auto. Qed.
Lemma implb_forallb {A} (c : bool) (f : A → bool) l : (c = false → ∀ x, f x = true) → implb c (forallb f l) = forallb f l.
Proof. destruct c; [done|]. intros H. simpl. symmetry. apply forallb_all. auto. Qed.
Lemma forallb_and {A} (f g : A → bool) l : forallb f l && forallb g l = forallb (λ x, f x && g x) l.
Proof. induction l as [|x l IH]; [done|]. simpl. rewrite <-IH. by destruct (f x), (g x), (forallb f l), (forallb g l). Qed.

(** The numbers of a sequence of an attribute whose type is compared. *)
Lemma elt_nums t l :
  t ≠ DEV_BOOLEAN → t ≠ DEV_STRING → t ≠ DEV_ENCODED → forallb (elt_of t) l = true →
  ∃ nums, mapM elt_num l = Some nums ∧
    ∀ b w, data_type (info (base w)) = t → forallb (elt_accepted b w) l =
      forallb (λ x, in_limits (check_for_nan b t) w x && (negb (bool_decide (t = DEV_ENUM)) || enum_value w x)) nums.
Proof.
  intros H1 H2 H3. induction l as [|x l IH]; [by exists []|]. simpl. intros [Hx Hl]%andb_true_iff.
  destruct (IH Hl) as (nums & Hm & He). destruct (elt_num x) as [n|] eqn:E; [|by destruct t, x].
  exists (n :: nums). split; [by rewrite Hm|]. intros b w Hw. simpl. rewrite He by done. f_equal.
  unfold elt_accepted. rewrite Hw. destruct x; try done; by injection E as <-.
Qed.

(** The check of the limits accepts exactly the sequences of accepted elements. *)
Lemma free_elts t seq b w :
  t = DEV_BOOLEAN ∨ t = DEV_STRING → forallb (elt_of t) seq = true → forallb (elt_accepted b w) seq = true.
Proof. intros Ht. rewrite !forallb_forall. intros H x Hx. specialize (H x Hx). destruct Ht as [-> | ->], x; done. Qed.
Lemma encoded_elts seq b b' w : forallb (elt_of DEV_ENCODED) seq = true → forallb (elt_accepted b w) seq = forallb (elt_accepted b' w) seq.
Proof.
  induction seq as [|x seq IH]; [done|]. simpl. intros [Hx Hs]%andb_true_iff. rewrite IH by done. by destruct x.
Qed.

Lemma verdict_limits b seq w :
  forallb (elt_of (data_type (info (base w)))) seq = true →
  verdict (check_data_limits b seq) w (forallb (elt_accepted b w) seq).
Proof.
  intros Hs. unfold check_data_limits. apply verdict_get. remember (data_type (info (base w))) as t eqn:Et.
  destruct (decide (t = DEV_BOOLEAN ∨ t = DEV_STRING)) as [Ht|Ht].
  { replace (bool_decide (t = DEV_BOOLEAN) || bool_decide (t = DEV_STRING)) with true by (by destruct Ht as [-> | ->]).
    by rewrite (free_elts t). }
  replace (bool_decide (t = DEV_BOOLEAN) || bool_decide (t = DEV_STRING)) with false by (by destruct t; naive_solver).
  destruct (decide (t = DEV_ENCODED)) as [->|He].
  - rewrite bool_decide_eq_true_2 by done. rewrite (encoded_elts seq b false) by done.
    rewrite <-(implb_forallb (check_min_value w || check_max_value w)).
    + apply verdict_when. intros _. by apply verdict_encoded.
    + intros Hn x. destruct x; try done; unfold elt_accepted; rewrite <-?Et; simpl.
      * by rewrite no_limits by (by destruct (check_min_value w)).
      * by rewrite no_limits by (by destruct (check_min_value w)).
      * apply forallb_all. intros n. apply no_limits. by destruct (check_min_value w).
  - rewrite bool_decide_eq_false_2 by done. destruct (elt_nums t seq) as (nums & Hn & Hf); [naive_solver|naive_solver|done|done|].
    rewrite Hf by done. eapply verdict_lift; [by rewrite Hn|]. rewrite <-forallb_and. apply verdict_bind.
    + rewrite <-(implb_forallb (check_for_nan b t || check_min_value w || check_max_value w)).
      * apply verdict_when. intros _. apply verdict_elts.
      * intros H x. by apply no_limits.
    + intros _. rewrite <-(implb_forallb (bool_decide (t = DEV_ENUM))).
      * apply verdict_when. intros H. rewrite H. simpl.
        replace (forallb (λ x, enum_value w x) nums) with (forallb (enum_value w) nums) by done. apply verdict_enum.
      * intros -> x. done.
Qed.

(** ** The check of a written value *)

(** The size that a request announces. *)
Definition right_size (nb x y : Z) : bool := if y =? 0 then nb =? x else nb =? u64 (x * y).
Definition accepted (b : bool) w (v : WValue) (x y : Z) : bool :=
  bool_decide (v_type v = elt_type (data_type (info (base w)))) &&
  right_size (Z.of_nat (length (v_seq v))) (u64 x) (u64 y) && forallb (elt_accepted b w) (v_seq v).
(** The attribute with the value checked: a scalar has a new set value. *)
Definition stored w (v : WValue) (x y : Z) : WAttribute :=
  if bool_decide (data_format (info (base w)) = SCALAR)
  then match v_seq v with new :: _ => set_vals (1, 0) new (write_val w) (v_seq v) w | [] => w end
  else set_vals (u64 x, u64 y) (write_val w) (old_val w) (v_seq v) w.
(** A value that the transport of the request can hold: its elements have its type; a
    scalar is not written with nothing. *)
Definition well_formed w (v : WValue) : Prop :=
  (v_type v = elt_type (data_type (info (base w))) → forallb (elt_of (data_type (info (base w)))) (v_seq v) = true) ∧
  (data_format (info (base w)) = SCALAR → v_seq v ≠ []).

Lemma verdict_length nb x y w : verdict (check_length nb x y) w (right_size nb x y).
Proof.
  unfold check_length, right_size. replace (if y =? 0 then _ else _) with
    (negb ((y =? 0) && negb (nb =? x) || negb (y =? 0) && negb (nb =? u64 (x * y)))).
  - apply verdict_throw.
  - by destruct (y =? 0), (nb =? x), (nb =? u64 (x * y)).
Qed.
(** A test followed by an action. *)
Lemma verdict_then (m : SM WAttribute unit) (f : SM WAttribute unit) w w' b :
  verdict m w b → (b = true → f w = Some (w', inr tt)) →
  if b then (m;; f) w = Some (w', inr tt) else ∃ e, (m;; f) w = Some (w, inl (DevFailed [e])).
Proof.
  unfold verdict. destruct b.
  - intros H1 H2. rewrite (run_bind _ _ _ _ _ H1). auto.
  - intros [e He] _. exists e. unfold mbind, SM_bind. by rewrite He.
Qed.

Lemma check_written_run b v x y w :
  well_formed w v →
  if accepted b w v x y then check_written_value b v x y w = Some (stored w v x y, inr tt)
  else ∃ e, check_written_value b v x y w = Some (w, inl (DevFailed [e])).
Proof.
  intros [Ht Hs]. unfold check_written_value, accepted. rewrite (run_bind _ _ w w w eq_refl).
  rewrite <-andb_assoc. destruct (decide (v_type v = elt_type (data_type (info (base w))))) as [He|He].
  2: { rewrite !bool_decide_eq_false_2 by done. by eexists. }
  rewrite !bool_decide_eq_true_2 by done. cbn [negb when_ andb]. rewrite (run_bind _ _ w w tt eq_refl).
  unfold update_internal_sequence.
  pose proof (verdict_then (check_length (Z.of_nat (length (v_seq v))) (u64 x) (u64 y);; check_data_limits b (v_seq v))
    (w ← get; if bool_decide (data_format (info (base w)) = SCALAR) then
       new ← lift (deref (v_seq v !! 0%nat)); modify (set_vals (1, 0) new (write_val w) (v_seq v))
     else modify (set_vals (u64 x, u64 y) (write_val w) (old_val w) (v_seq v))) w (stored w v x y)
    (right_size (Z.of_nat (length (v_seq v))) (u64 x) (u64 y) && forallb (elt_accepted b w) (v_seq v))) as H.
  assert (∀ (m1 m2 m3 : SM WAttribute unit), ((m1;; m2);; m3) w = (m1;; m2;; m3) w) as Hassoc.
  { intros m1 m2 m3. unfold mbind, SM_bind. by destruct (m1 w) as [[? [?|[]]]|]. }
  rewrite Hassoc in H. apply H.
  - apply verdict_bind; [apply verdict_length|]. intros _. by apply verdict_limits, Ht.
  - intros _. rewrite (run_bind _ _ w w w eq_refl). unfold stored. case_bool_decide; [|done].
    destruct (v_seq v) as [|new l]; [by destruct Hs|done].
Qed.

(** C30: a value that a client writes is accepted exactly when it has the type of the
    attribute and the announced size, and all its elements are in the limits that are set,
    finite (when the server asks for it), and a label for an enumeration.  Then it is the
    set value of a scalar, and the one before is kept; otherwise the attribute has not
    changed and one error is thrown. *)
Theorem written_value_checked b v x y w :
  well_formed w v →
  if accepted b w v x y then check_written_value b v x y w = Some (stored w v x y, inr tt)
  else ∃ e, check_written_value b v x y w = Some (w, inl (DevFailed [e])).
Proof. apply check_written_run. Qed.
