(* ===== verification/WriteAttrs.v ===== *)
(** * Writing attributes (src/src/server/device_3.cpp, multiattribute.cpp)

  [Device_3Impl::write_attributes_34], the request of a client that writes several
  attributes: the attributes are looked up, the values are checked, the code of the user
  writes each of them and then the hardware, the written values are kept, and those of
  the memorized attributes go to the database.  An attribute that fails is an entry of
  the list of errors; an error list that is not empty is the [MultiDevFailed] sent to the
  client.  The code of the user and the database are parameters; the sub-device
  diagnostics and the telemetry are not modelled. *)
From stdpp Require Import pretty.
From S2P Require Import Prelude StateExn CppString PollRing AttrHistory Number Attribute DevState WAttribute.
Local Open Scope string_scope.
Local Open Scope list_scope.
Local Open Scope Z_scope.

(** ** Data *)

(** An element of [AttributeValueList] or of [AttributeValueList_4]. *)
Record AttrValue := mkAttrValue { av_name : string; av_dim_x : Z; av_dim_y : Z; av_value : WValue }.
Record AttIdx := mkAttIdx { idx_in_names : nat; idx_in_multi_attr : nat }.
Record NamedDevError := mkNamed { ne_name : string; ne_index : nat; ne_errs : DevErrorList }.

(** How a method of the user ends: it returns, or throws a [DevFailed], a
    [MultiDevFailed] (named errors) or something else. *)
Inductive user_result :=
  | Done
  | Failed (errors : DevErrorList)
  | MultiFailed (errors : list (string * DevErrorList))
  | Other (name : string).

(** What the device asks of the code of the user and of the database, in order: the call
    to [write] finds a set value in the attribute. *)
Inductive DevCall :=
  | HookCall
  | WriteCall (i : nat) (val : WElt) (ptr : list WElt)
  | HardwareCall (l : list nat)
  | MemPut (l : list (string * option WElt)).

Record WDev := mkWDev {
  w_attrs : list WAttribute;
  w_state : DevState;
  w_conf_loop : bool;
  calls : list DevCall;
}.
Implicit Types s : WDev.
Definition set_w_attrs l s := mkWDev l (w_state s) (w_conf_loop s) (calls s).
Definition set_conf_loop b s := mkWDev (w_attrs s) (w_state s) b (calls s).
Definition call (c : DevCall) s := mkWDev (w_attrs s) (w_state s) (w_conf_loop s) (calls s ++ [c]).

Definition DevStateName (x : DevState) : string :=
  match x with
  | ON => "ON" | OFF => "OFF" | CLOSE => "CLOSE" | OPEN => "OPEN" | INSERT => "INSERT" | EXTRACT => "EXTRACT"
  | MOVING => "MOVING" | STANDBY => "STANDBY" | FAULT => "FAULT" | INIT => "INIT" | RUNNING => "RUNNING"
  | ALARM => "ALARM" | DISABLE => "DISABLE" | UNKNOWN => "UNKNOWN"
  end.

(** [get_w_attr_by_ind] and a method of the attribute. *)
Definition on_w {A} (i : nat) (m : SM WAttribute A) : SM WDev A := λ s,
  match w_attrs s !! i with
  | Some w => match m w with Some (w, r) => Some (set_w_attrs (<[i := w]> (w_attrs s)) s, r) | None => None end
  | None => None
  end.

(** A block whose [DevFailed] is caught: the errors, if any. *)
Definition attempt {S A} (m : SM S A) : SM S (DevErrorList + A) := λ st,
  match m st with
  | Some (s, inr a) => Some (s, inr (inr a))
  | Some (s, inl (DevFailed l)) => Some (s, inr (inl l))
  | Some (s, inl e) => Some (s, inl e)
  | None => None
  end.

Definition same_attr_name (nm : string) w : Prop := tolower (name (info (base w))) = tolower nm.
#[export] Instance same_attr_name_dec nm w : Decision (same_attr_name nm w).
Proof. unfold same_attr_name. apply _. Defined.
Definition get_attr_ind_by_name (nm : string) : SM WDev nat :=
  s ← get;
  match list_find (same_attr_name nm) (w_attrs s) with
  | Some (i, _) => mret i
  | None => throw "API_AttrNotFound" (nm +:+ " attribute not found") "MultiAttribute::get_attr_ind_by_name"
  end.

Definition MemNotUsed : string := "Not used yet".

(** The error of [Attribute::throw_startup_exception], whose text lists the wrong
    properties. *)
Definition throw_startup_exception {A} (a : Attribute) (origin : string) : SM WDev A :=
  throw "API_AttrConfig" (nl +:+ "-> Attribute : " +:+ name (info a)) origin.

(** ** The steps of [write_attributes_34] *)

(** The index of an attribute, which must be writable and large enough. *)
Definition check_writable (v : AttrValue) : SM WDev nat :=
  i ← get_attr_ind_by_name (av_name v);
  s ← get;
  w ← lift (deref (w_attrs s !! i));
  let a := base w in
  when_ (bool_decide (writable w = READ) || bool_decide (writable w = READ_WITH_WRITE))
    (throw "API_AttrNotWritable" ("Attribute " +:+ name (info a) +:+ " is not writable") "Device_3Impl::write_attributes_34");;
  when_ (negb (bool_decide (data_format (info a) = SCALAR)) && ((max_x (info a) <? av_dim_x v) || (max_y (info a) <? av_dim_y v)))
    (throw "API_WAttrOutsideLimit"
       ((if max_x (info a) <? av_dim_x v then "X " else "Y ") +:+ "dimesion is greater than the max defined for attribute " +:+ name (info a))
       "Device_3Impl::write_attributes_34");;
  when_ (check_startup_exceptions a) (throw_startup_exception a "DeviceImpl::write_attributes()");;
  mret i.
Fixpoint find_attrs (values : list AttrValue) (i : nat) : SM WDev (list AttIdx * list NamedDevError) :=
  match values with
  | [] => mret ([], [])
  | v :: values =>
      r ← attempt (check_writable v);
      '(updated, errs) ← find_attrs values (S i);
      mret (match r with
            | inr j => (mkAttIdx i j :: updated, errs)
            | inl l => (updated, mkNamed (av_name v) i l :: errs)
            end)
  end.

Section Request.
(** The version of the interface, the options of the server, the code of the user
    ([is_allowed], [write] and [write_attr_hardware], and the hook called before), the
    database, the date, and the code generated from the IDL that [copy_data] uses. *)
Context (vers : Z) (wattr_nan_allowed use_db : bool) (hook : outcome unit)
  (is_allowed : nat → outcome bool) (write : nat → WAttribute → option (WAttribute * user_result))
  (write_attr_hardware : list nat → user_result) (put_props : list (string * option WElt) → outcome unit) (now : TimeVal)
  (other_member : WValue → CmdArgType → outcome (list WElt)) (values : list AttrValue).

Definition the_value (a : AttIdx) : outcome AttrValue := deref (values !! idx_in_names a).
Definition check_value (a : AttIdx) : SM WDev unit :=
  v ← lift (the_value a);
  on_w (idx_in_multi_attr a) (check_written_value wattr_nan_allowed (av_value v) (av_dim_x v) (av_dim_y v)).

(** The loop over the iterator [ctr] that checks the values: a refused attribute is
    erased, and the loop is left when the iterator is at an end of the vector. *)
Fixpoint check_values (fuel : nat) (ctr : nat) (updated : list AttIdx) : SM WDev (list AttIdx * list NamedDevError) :=
  match fuel with
  | O => lift Undef
  | S fuel =>
      match updated !! ctr with
      | None => mret (updated, [])
      | Some a =>
          r ← attempt (check_value a);
          match r with
          | inr _ => check_values fuel (S ctr) updated
          | inl l =>
              v ← lift (the_value a);
              let e := mkNamed (av_name v) (idx_in_names a) l in
              let updated := delete ctr updated in
              if (length updated <=? ctr)%nat || (ctr =? 0)%nat then mret (updated, [e])
              else
                '(updated, errs) ← check_values fuel ctr updated;
                mret (updated, e :: errs)
          end
      end
  end.

(** The error handlers of the writing: a scalar goes back to its old set value. *)
Definition undo (i : nat) : SM WDev unit :=
  s ← get;
  w ← lift (deref (w_attrs s !! i));
  when_ (bool_decide (data_format (info (base w)) = SCALAR)) (on_w i rollback).

(** One attribute: what it is refused for, if it is. *)
Definition write_one (i : nat) : SM WDev (option DevErrorList) :=
  on_w i (modify (λ w, set_user_set_write_value false (reset_read_value w)));;
  s ← get;
  w ← lift (deref (w_attrs s !! i));
  match is_allowed i with
  | Ok false =>
      undo i;;
      mret (Some [mkDevError "API_AttrNotAllowed" ERR
                    ("It is currently not allowed to write attribute " +:+ name (info (base w)) +:+
                     ". The device state is " +:+ DevStateName (w_state s)) "Device_3Impl::write_attributes_34"])
  | Exc (DevFailed l) => undo i;; mret (Some l)
  | Exc (OtherExc n) => lift (Exc (OtherExc n))
  | Undef => lift Undef
  | Ok true =>
      modify (call (WriteCall i (write_val w) (write_value_ptr w)));;
      match write i w with
      | None => lift Undef
      | Some (w, r) =>
          modify (λ s, set_w_attrs (<[i := w]> (w_attrs s)) s);;
          match r with
          | Done =>
              when_ (mem_write_failed w) (on_w i (modify clear_mem_exception);; modify (set_conf_loop true));;
              mret None
          | Failed l => undo i;; mret (Some l)
          | MultiFailed l => undo i;; e ← lift (deref (l !! 0%nat)); mret (Some (snd e))
          | Other n => lift (Exc (OtherExc n))
          end
      end
  end.
Fixpoint write_each (updated : list AttIdx) : SM WDev (list AttIdx * list NamedDevError) :=
  match updated with
  | [] => mret ([], [])
  | a :: updated =>
      r ← write_one (idx_in_multi_attr a);
      v ← lift (the_value a);
      '(updated, errs) ← write_each updated;
      mret (match r with
            | None => (a :: updated, errs)
            | Some l => (updated, mkNamed (av_name v) (idx_in_names a) l :: errs)
            end)
  end.

(** The writing of the hardware.  A [MultiDevFailed] names the attributes that failed: the
    end of the vector is erased when a name is not one of the request. *)
Definition attr_has_name (nm : string) s (a : AttIdx) : bool :=
  match w_attrs s !! idx_in_multi_attr a with
  | Some w => bool_decide (same_attr_name nm w)
  | None => false
  end.
Fixpoint named_failures (l : list (string * DevErrorList)) (updated : list AttIdx) : SM WDev (list AttIdx * list NamedDevError) :=
  match l with
  | [] => mret (updated, [])
  | (nm, errors) :: l =>
      s ← get;
      match list_find (λ a, attr_has_name nm s a = true) updated with
      | None => lift Undef
      | Some (k, a) =>
          undo (idx_in_multi_attr a);;
          '(updated, errs) ← named_failures l (delete k updated);
          mret (updated, mkNamed nm (idx_in_names a) errors :: errs)
      end
  end.
Fixpoint all_failed (errors : DevErrorList) (updated : list AttIdx) (l : list AttIdx) : SM WDev (list NamedDevError) :=
  match l with
  | [] => mret []
  | a :: l =>
      undo (idx_in_multi_attr a);;
      s ← get;
      w ← lift (deref (w_attrs s !! idx_in_multi_attr a));
      b ← lift (deref (snd <$> list_find (λ b, idx_in_multi_attr b = idx_in_multi_attr a) updated));
      errs ← all_failed errors updated l;
      mret (mkNamed (name (info (base w))) (idx_in_names b) errors :: errs)
  end.
Definition write_hardware (updated : list AttIdx) : SM WDev (list AttIdx * list NamedDevError) :=
  if 4 <=? vers then
    modify (call (HardwareCall (idx_in_multi_attr <$> updated)));;
    match write_attr_hardware (idx_in_multi_attr <$> updated) with
    | Done => mret (updated, [])
    | MultiFailed l => named_failures l updated
    | Failed l => errs ← all_failed l updated updated; mret ([], errs)
    | Other n => lift (Exc (OtherExc n))
    end
  else mret (updated, []).

(** The written value is kept; the attribute is to be saved when it is memorized. *)
Definition keep_value (v : WValue) : SM WAttribute bool :=
  w ← get;
  when_ (negb (user_set_write_value w)) (copy_data other_member v);;
  when_ (memorized w && bool_decide (mem_value w = MemNotUsed)) (modify (set_mem_value "Set"));;
  when_ (test rds (alarm_conf (base w))) (modify (set_written_date now));;
  mret (memorized w).
Fixpoint keep_values (updated : list AttIdx) : SM WDev (list AttIdx) :=
  match updated with
  | [] => mret []
  | a :: updated =>
      v ← lift (the_value a);
      mem ← on_w (idx_in_multi_attr a) (keep_value (av_value v));
      l ← keep_values updated;
      mret (if (mem : bool) then a :: l else l)
  end.

(** [write_attributes_in_db]: the first element of the written value; there is no case for
    the encoded attributes. *)
Definition mem_prop (w : WAttribute) : outcome (string * option WElt) :=
  if bool_decide (data_type (info (base w)) = DEV_ENCODED) then Ok (name (info (base w)), None)
  else x ← deref (written w !! 0%nat); Ok (name (info (base w)), Some x).
Definition write_attributes_in_db (att_in_db : list AttIdx) : SM WDev unit :=
  s ← get;
  l ← lift (mapM (λ a, w ← deref (w_attrs s !! idx_in_multi_attr a); mem_prop w) att_in_db);
  modify (call (MemPut l));;
  lift (put_props l).
Fixpoint named_values (l : list AttIdx) (errors : DevErrorList) : outcome (list NamedDevError) :=
  match l with
  | [] => Ok []
  | a :: l => v ← the_value a; errs ← named_values l errors; Ok (mkNamed (av_name v) (idx_in_names a) errors :: errs)
  end.
Definition save_values (att_in_db : list AttIdx) : SM WDev (list NamedDevError) :=
  if use_db && negb (bool_decide (att_in_db = [])) then
    r ← attempt (write_attributes_in_db att_in_db);
    match r with inr _ => mret [] | inl l => lift (named_values att_in_db l) end
  else mret [].

Definition write_attributes_34 : SM WDev (list NamedDevError) :=
  s ← get;
  when_ (bool_decide (w_attrs s = [])) (throw "API_AttrNotFound" "The device does not have any attribute" "Device_3Impl::write_attributes_34");;
  '(updated, errs1) ← find_attrs values 0;
  when_ (negb (length errs1 =? length values)%nat) (modify (call HookCall);; lift hook);;
  '(updated, errs2) ← check_values (S (length updated)) 0 updated;
  '(updated, errs3, errs4) ←
    (if negb (length (errs1 ++ errs2) =? length values)%nat then
       '(updated, errs3) ← write_each updated;
       '(updated, errs4) ← write_hardware updated;
       mret (updated, errs3, errs4)
     else mret (updated, [], []) : SM WDev (list AttIdx * list NamedDevError * list NamedDevError));
  att_in_db ← keep_values updated;
  errs5 ← save_values att_in_db;
  mret (errs1 ++ errs2 ++ errs3 ++ errs4 ++ errs5).
End Request.
