(* ===== verification/WriteTheory.v ===== *)
(** * Properties of the request that writes attributes *)
From S2P Require Import Prelude StateExn PollRing AttrHistory CppString Number Attribute DevState WAttribute WAttrTheory WriteAttrs.
Local Open Scope string_scope.
Local Open Scope list_scope.
Local Open Scope Z_scope.
Implicit Types s : WDev.
Implicit Types w : WAttribute.

(** ** One attribute of the device *)

(** The states that differ by the attributes of a list, the calls and the flag of the
    configuration. *)
Definition frame (l : list nat) s s' : Prop := (∀ j, j ∉ l → w_attrs s' !! j = w_attrs s !! j) ∧ w_state s' = w_state s.
Lemma frame_refl l s : frame l s s.
Proof. done. Qed.
Lemma frame_trans l s1 s2 s3 : frame l s1 s2 → frame l s2 s3 → frame l s1 s3.
Proof. intros [H1 H2] [H3 H4]. split; [|congruence]. intros j Hj. rewrite H3, H1; done. Qed.
Lemma frame_weaken l l' s s' : l ⊆ l' → frame l s s' → frame l' s s'.
Proof. intros Hl [H1 H2]. split; [|done]. intros j Hj. apply H1. set_solver. Qed.
Lemma frame_insert i w s : frame [i] s (set_w_attrs (<[i := w]> (w_attrs s)) s).
Proof. split; [|done]. intros j Hj. simpl. apply list_lookup_insert_ne. set_solver. Qed.
Lemma attr_insert i w w0 s : w_attrs s !! i = Some w0 → w_attrs (set_w_attrs (<[i := w]> (w_attrs s)) s) !! i = Some w.
Proof. intros H. simpl. apply list_lookup_insert_eq. by eapply lookup_lt_Some. Qed.

Lemma on_w_run {A} i (m : SM WAttribute A) s w w' r :
  w_attrs s !! i = Some w → m w = Some (w', r) → on_w i m s = Some (set_w_attrs (<[i := w']> (w_attrs s)) s, r).
Proof. intros H1 H2. unfold on_w. by rewrite H1, H2. Qed.
Lemma on_w_ok {A} i (m : SM WAttribute A) s w w' r (Q : WDev → exn + A → Prop) :
  w_attrs s !! i = Some w → m w = Some (w', r) → Q (set_w_attrs (<[i := w']> (w_attrs s)) s) r → wp (on_w i m) s Q.
Proof. intros H1 H2 HQ. unfold wp. by rewrite (on_w_run i m s w w' r). Qed.
(** A step that replaces the attribute [i] by [w]. *)
Definition put_attr (i : nat) w s : WDev := set_w_attrs (<[i := w]> (w_attrs s)) s.
Lemma put_put i w w' s : put_attr i w (put_attr i w' s) = put_attr i w s.
Proof. unfold put_attr, set_w_attrs. simpl. by rewrite list_insert_insert_eq. Qed.
Lemma set_w_same i w s : w_attrs s !! i = Some w → set_w_attrs (<[i := w]> (w_attrs s)) s = s.
Proof. intros H. unfold set_w_attrs. rewrite list_insert_id by done. by destruct s. Qed.

(** The attributes of the elements of a list are known. *)
Definition attrs_are s (l : list AttIdx) (f : AttIdx → WAttribute) : Prop := ∀ a, a ∈ l → w_attrs s !! idx_in_multi_attr a = Some (f a).
Definition idxs (l : list AttIdx) : list nat := idx_in_multi_attr <$> l.

Lemma fmap_unique {A B} (f : A → B) (l : list A) a b : NoDup (f <$> l) → a ∈ l → b ∈ l → f a = f b → a = b.
Proof.
  induction l as [|c l IH]; intros Hn Ha Hbl Hb; [by apply elem_of_nil in Ha|].
  rewrite fmap_cons in Hn. apply NoDup_cons in Hn as [Hc Hn]. apply elem_of_cons in Ha as [->|Ha], Hbl as [->|Hbl]; [done|..].
  - destruct Hc. rewrite Hb. by apply list_elem_of_fmap_2.
  - destruct Hc. rewrite <-Hb. by apply list_elem_of_fmap_2.
  - by apply IH.
Qed.
Lemma attrs_frame s s' l l' f : attrs_are s l f → frame l' s s' → (∀ a, a ∈ l → idx_in_multi_attr a ∉ l') → attrs_are s' l f.
Proof. intros H [Hf _] Hd a Ha. rewrite Hf by (by apply Hd). by apply H. Qed.
Lemma idxs_notin a l : a ∈ l → ∀ i, i ∉ idxs l → idx_in_multi_attr a ≠ i.
Proof. intros Ha i Hi Heq. apply Hi. rewrite <-Heq. unfold idxs. by apply list_elem_of_fmap_2. Qed.

Section Check.
Context (wattr_nan_allowed : bool) (values : list AttrValue) (V : AttIdx → AttrValue).

Let check_vals := check_values wattr_nan_allowed values.

(** ** The check of the values *)

Definition passes (W : AttIdx → WAttribute) (a : AttIdx) : bool :=
  accepted wattr_nan_allowed (W a) (av_value (V a)) (av_dim_x (V a)) (av_dim_y (V a)).
Definition with_value (W : AttIdx → WAttribute) (a : AttIdx) : WAttribute :=
  stored (W a) (av_value (V a)) (av_dim_x (V a)) (av_dim_y (V a)).
Definition known (a : AttIdx) : Prop := values !! idx_in_names a = Some (V a).

Lemma check_value_run W a s :
  known a → w_attrs s !! idx_in_multi_attr a = Some (W a) → well_formed (W a) (av_value (V a)) →
  if passes W a
  then attempt (check_value wattr_nan_allowed values a) s =
         Some (set_w_attrs (<[idx_in_multi_attr a := with_value W a]> (w_attrs s)) s, inr (inr tt))
  else ∃ e, attempt (check_value wattr_nan_allowed values a) s = Some (s, inr (inl [e])).
Proof.
  intros Hv Ha Hw. unfold attempt, check_value, the_value. rewrite Hv. rewrite (run_bind _ _ s s (V a)) by done.
  pose proof (check_written_run wattr_nan_allowed (av_value (V a)) (av_dim_x (V a)) (av_dim_y (V a)) (W a) Hw) as H.
  fold (passes W a) in H. destruct (passes W a).
  - by rewrite (on_w_run _ _ s (W a) _ _ Ha H).
  - destruct H as [e He]. exists e. rewrite (on_w_run _ _ s (W a) _ _ Ha He). by rewrite set_w_same.
Qed.

(** The bug of the loop apart, every value of the request is checked. *)
Definition not_first_refused (W : AttIdx → WAttribute) (l : list AttIdx) : Prop :=
  match l with a :: _ :: _ => passes W a = true | _ => True end.

Lemma check_values_ok W pre suf fuel s :
  (length suf < fuel)%nat → NoDup (idxs suf) → Forall known suf → attrs_are s suf W →
  Forall (λ a, well_formed (W a) (av_value (V a))) suf → pre ≠ [] ∨ not_first_refused W suf →
  wp (check_vals fuel (length pre) (pre ++ suf)) s (λ s' r, ∃ errs,
    r = inr (pre ++ filter (λ a, passes W a = true) suf, errs) ∧
    ne_index <$> errs = idx_in_names <$> filter (λ a, passes W a = false) suf ∧
    attrs_are s' (filter (λ a, passes W a = true) suf) (with_value W) ∧
    attrs_are s' (filter (λ a, passes W a = false) suf) W ∧ frame (idxs suf) s s' ∧ calls s' = calls s).
Proof.
  revert pre suf s. induction fuel as [|fuel IH]; intros pre suf s Hf Hn Hk Ha Hw Hp; [lia|].
  unfold check_vals in *. cbn [check_values]. destruct suf as [|a suf].
  { rewrite app_nil_r, (proj2 (lookup_ge_None pre (length pre))) by done. exists []. rewrite filter_nil, app_nil_r.
    by split_and!; try done; intros b Hb%elem_of_nil. }
  rewrite list_lookup_middle by done. apply NoDup_cons in Hn as [Hi Hn]. apply Forall_cons in Hk as [Hv Hk].
  apply Forall_cons in Hw as [Hwa Hw]. assert (w_attrs s !! idx_in_multi_attr a = Some (W a)) as Haa by (apply Ha; by left).
  pose proof (check_value_run W a s Hv Haa Hwa) as H. cbn [length] in Hf.
  assert (∀ s1, frame [idx_in_multi_attr a] s s1 → attrs_are s1 suf W) as Hrest.
  { intros s1 H1. eapply attrs_frame; [|exact H1|]; [intros b Hb; apply Ha; by right|].
    intros b Hb. rewrite list_elem_of_singleton. by eapply idxs_notin. }
  apply wp_bind. destruct (passes W a) eqn:E.
  - unfold wp at 1. rewrite H. cbv beta iota. set (s1 := set_w_attrs _ s).
    pose proof (frame_insert (idx_in_multi_attr a) (with_value W a) s) as Hf1.
    replace (pre ++ a :: suf) with ((pre ++ [a]) ++ suf) by (by rewrite <-app_assoc).
    replace (S (length pre)) with (length (pre ++ [a])) by (rewrite length_app; simpl; lia).
    eapply wp_mono; [apply IH; [lia|done|done|by apply Hrest|done|left; by destruct pre]|].
    intros s' r (errs & -> & H1 & H2 & H3 & H4 & H5). exists errs. rewrite !filter_cons, E.
    rewrite decide_True, decide_False by done. split_and!; try done.
    + by rewrite <-app_assoc.
    + intros b [->|Hb]%elem_of_cons; [|by apply H2]. rewrite (proj1 H4) by done. by eapply attr_insert.
    + eapply frame_trans; [eapply frame_weaken; [|exact Hf1]|eapply frame_weaken; [|exact H4]]; unfold idxs; set_solver +.
  - destruct H as [e He]. unfold wp at 1. rewrite He. cbv beta iota.
    apply wp_bind. unfold the_value. rewrite Hv. apply wp_lift; [done| |done]. intros _ [= <-].
    replace (delete (length pre) (pre ++ a :: suf)) with (pre ++ suf) by (by rewrite delete_middle).
    assert ((length (pre ++ suf) <=? length pre)%nat || (length pre =? 0)%nat = true ↔ suf = []) as Hstop.
    { rewrite orb_true_iff, Nat.leb_le, Nat.eqb_eq, length_app. destruct suf as [|b suf]; simpl; [split; [done|lia]|].
      split; [|done]. intros [?|Hz]; [lia|]. destruct Hp as [Hp|Hp]; [by destruct pre|]. simpl in Hp. congruence. }
    rewrite !filter_cons, E, decide_False, decide_True by done.
    destruct (_ || _) eqn:Es.
    + assert (suf = []) as -> by (by apply Hstop). eexists. split; [done|]. split_and!; try done.
      * by intros b Hb%elem_of_nil.
    + apply wp_bind. eapply wp_mono; [apply IH; [lia|done|done|by apply Hrest|done|]|].
      * left. intros ->. simpl in Es. by rewrite orb_true_r in Es.
      * intros s' r (errs & -> & H1 & H2 & H3 & H4 & H5). cbv beta iota. eexists. split; [done|]. split_and!; try done.
        -- by rewrite !fmap_cons, H1.
        -- intros b [->|Hb]%elem_of_cons; [|by apply H3]. by rewrite (proj1 H4).
        -- eapply frame_weaken; [|exact H4]. unfold idxs. set_solver +.
Qed.
End Check.

(** ** The writing *)

Definition prepared w : WAttribute := set_user_set_write_value false (reset_read_value w).
Definition after_write w : WAttribute := if mem_write_failed w then clear_mem_exception w else w.
(** A scalar goes back to its old set value, unless it is made of bytes. *)
Definition undone w : WAttribute :=
  if bool_decide (data_format (info (base w)) = SCALAR) then set_vals (w_dim w) (old_val w) (old_val w) (write_value_ptr w) w else w.
Definition plain w : Prop :=
  data_format (info (base w)) = SCALAR → data_type (info (base w)) ≠ DEV_UCHAR ∧ data_type (info (base w)) ≠ DEV_ENCODED.

Lemma undo_run i w s :
  w_attrs s !! i = Some w → plain w → undo i s = Some (set_w_attrs (<[i := undone w]> (w_attrs s)) s, inr tt).
Proof.
  intros Hw Hp. unfold undo. rewrite (run_bind _ _ s s s eq_refl), (run_bind _ _ s s w) by (by rewrite Hw).
  unfold undone. case_bool_decide as Hs; cbn [when_].
  - destruct (Hp Hs) as [H1 H2]. apply (on_w_run _ _ _ w); [done|]. unfold rollback. rewrite (run_bind _ _ w w w eq_refl).
    by rewrite !bool_decide_eq_false_2.
  - by rewrite set_w_same.
Qed.
Lemma undo_ok i w s (Q : WDev → exn + unit → Prop) :
  w_attrs s !! i = Some w → plain w → Q (set_w_attrs (<[i := undone w]> (w_attrs s)) s) (inr tt) → wp (undo i) s Q.
Proof. intros H1 H2 HQ. unfold wp. by rewrite (undo_run i w s). Qed.

Section Writing.
Context (is_allowed : nat → outcome bool) (write : nat → WAttribute → option (WAttribute * user_result)).

(** The user that writes the element [a] ends with [R a], and leaves the attribute; what it
    throws is of the library, also when it is asked whether the writing is allowed. *)
Context (R : AttIdx → user_result).
Definition user_writes (a : AttIdx) w : Prop :=
  write (idx_in_multi_attr a) (prepared w) = Some (prepared w, R a) ∧
  match R a with MultiFailed [] | Other _ => False | _ => True end ∧
  match is_allowed (idx_in_multi_attr a) with Ok _ | Exc (DevFailed _) => True | _ => False end.
Definition allows (i : nat) : bool := match is_allowed i with Ok true => true | _ => false end.
Definition writes (a : AttIdx) : bool := allows (idx_in_multi_attr a) && match R a with Done => true | _ => false end.
Definition write_call (W : AttIdx → WAttribute) (a : AttIdx) : DevCall :=
  WriteCall (idx_in_multi_attr a) (write_val (W a)) (write_value_ptr (W a)).

Lemma write_one_ok a w s :
  w_attrs s !! idx_in_multi_attr a = Some w → plain w → user_writes a w →
  wp (write_one is_allowed write (idx_in_multi_attr a)) s (λ s' r, ∃ o, r = inr o ∧
    (if writes a then o = None ∧ w_attrs s' !! idx_in_multi_attr a = Some (after_write (prepared w))
     else is_Some o ∧ w_attrs s' !! idx_in_multi_attr a = Some (undone (prepared w))) ∧
    frame [idx_in_multi_attr a] s s' ∧
    calls s' = calls s ++ (if allows (idx_in_multi_attr a) then [write_call (λ _, w) a] else [])).
Proof.
  intros Hw Hp (Hu & Hr & Hal). unfold write_one, writes, allows. set (i := idx_in_multi_attr a) in *.
  wp_step. eapply on_w_ok; [done|done|]. cbv beta iota.
  set (s1 := set_w_attrs _ s). assert (w_attrs s1 !! i = Some (prepared w)) as H1 by (by eapply attr_insert).
  assert (frame [i] s s1) as F1 by apply frame_insert.
  assert (∀ s2, w_attrs s2 = w_attrs s1 → w_state s2 = w_state s1 → ∀ o (l : DevErrorList), calls s2 = calls s ++ o → 
    wp (undo i;; mret (Some l)) s2 (λ s' r, ∃ o', r = inr o' ∧
      (is_Some o' ∧ w_attrs s' !! i = Some (undone (prepared w))) ∧ frame [i] s s' ∧ calls s' = calls s ++ o)) as Hundo.
  { intros s2 E2 E3 o l Hc. wp_step. apply (undo_ok i (prepared w)); [by rewrite E2|done|]. cbv beta iota. wp_step.
    eexists. split; [done|]. split; [split; [done|]|]; [by apply (attr_insert _ _ (prepared w)); rewrite E2|].
    split; [|done]. eapply frame_trans; [exact F1|]. eapply frame_trans; [|apply frame_insert]. split; [by rewrite E2|done]. }
  do 3 wp_step. rewrite H1. apply wp_lift; [done| |done]. intros _ [= <-]. destruct (is_allowed i) as [[]|[l|]|]; cbn [andb]; try done.
  2,3: apply Hundo; [done..|]; by rewrite app_nil_r.
  do 2 wp_step. rewrite Hu. wp_step. wp_step. cbv beta. rewrite list_insert_id by done.
  set (s2 := set_w_attrs _ _). assert (w_attrs s2 = w_attrs s1) as E2 by done. assert (w_state s2 = w_state s1) as E3 by done.
  assert (calls s2 = calls s ++ [write_call (λ _, w) a]) as E4 by done. clearbody s2.
  destruct (R a) as [|l|l|]; [|by apply Hundo| |done].
  - wp_step. unfold after_write. apply wp_when; intros Hm; cbv beta iota.
    + wp_step. eapply on_w_ok; [by rewrite E2|done|]. cbv beta iota. wp_step. wp_step. eexists. split; [done|]. rewrite Hm.
      split; [split; [done|]|]; [by apply (attr_insert _ _ (prepared w)); rewrite E2|]. split; [|done].
      eapply frame_trans; [exact F1|]. split; [|done]. intros j Hj. simpl. rewrite list_lookup_insert_ne by set_solver. by rewrite E2.
    + wp_step. eexists. split; [done|]. rewrite Hm. split; [split; [done|]|]; [by rewrite E2|]. split; [|done].
      eapply frame_trans; [exact F1|]. split; [by rewrite E2|done].
  - destruct l as [|e l]; [done|].
    exact (Hundo s2 E2 E3 _ (snd e) E4).
Qed.

Context (values : list AttrValue) (V : AttIdx → AttrValue).

Definition calls_for (W : AttIdx → WAttribute) (l : list AttIdx) : list DevCall :=
  write_call W <$> filter (λ a, allows (idx_in_multi_attr a) = true) l.

Lemma attrs_rest W (a : AttIdx) l s s1 :
  attrs_are s (a :: l) W → idx_in_multi_attr a ∉ idxs l → frame [idx_in_multi_attr a] s s1 → attrs_are s1 l W.
Proof.
  intros Ha Hi H1. eapply attrs_frame; [|exact H1|]; [intros b Hb; apply Ha; by right|].
  intros b Hb. rewrite list_elem_of_singleton. by eapply idxs_notin.
Qed.
Lemma frame_cons (a : AttIdx) l s1 s2 s3 :
  frame [idx_in_multi_attr a] s1 s2 → frame (idxs l) s2 s3 → frame (idxs (a :: l)) s1 s3.
Proof.
  intros H1 H2. eapply frame_trans; [eapply frame_weaken; [|exact H1]|eapply frame_weaken; [|exact H2]]; unfold idxs; set_solver +.
Qed.
Lemma attrs_cons f (a : AttIdx) l l' s s' :
  w_attrs s !! idx_in_multi_attr a = Some (f a) → idx_in_multi_attr a ∉ idxs l → frame (idxs l) s s' →
  attrs_are s' l' f → attrs_are s' (a :: l') f.
Proof. intros Ha Hi [Hf _] Hl b [->|Hb]%elem_of_cons; [|by apply Hl]. by rewrite Hf. Qed.

Lemma write_each_ok W l s :
  NoDup (idxs l) → Forall (known values V) l → attrs_are s l W → Forall (λ a, plain (W a) ∧ user_writes a (W a)) l →
  wp (write_each is_allowed write values l) s (λ s' r, ∃ errs,
    r = inr (filter (λ a, writes a = true) l, errs) ∧
    ne_index <$> errs = idx_in_names <$> filter (λ a, writes a = false) l ∧
    attrs_are s' (filter (λ a, writes a = true) l) (λ a, after_write (prepared (W a))) ∧
    attrs_are s' (filter (λ a, writes a = false) l) (λ a, undone (prepared (W a))) ∧
    frame (idxs l) s s' ∧ calls s' = calls s ++ calls_for W l).
Proof.
  revert s. induction l as [|a l IH]; intros s Hn Hk Ha Hp.
  { exists []. unfold calls_for. rewrite !filter_nil. simpl. rewrite app_nil_r. by split_and!; try done; intros b Hb%elem_of_nil. }
  apply NoDup_cons in Hn as [Hi Hn]. apply Forall_cons in Hk as [Hv Hk]. apply Forall_cons in Hp as [[Hpa Hua] Hp].
  cbn [write_each]. wp_step. eapply wp_mono; [apply (write_one_ok a (W a)); [apply Ha; by left|done|done]|].
  intros s1 r (o & -> & Ho & F1 & C1). cbv beta iota. wp_step. unfold the_value. rewrite Hv.
  apply wp_lift; [done| |done]. intros _ [= <-]. wp_step.
  eapply wp_mono; [apply IH; [done|done|by eapply attrs_rest|done]|].
  intros s2 r (errs & -> & H1 & H2 & H3 & F2 & C2). cbv beta iota. rewrite !filter_cons. unfold calls_for. rewrite filter_cons.
  assert (calls s2 = calls s ++ (write_call W <$> if decide (allows (idx_in_multi_attr a) = true)
    then a :: filter (λ a, allows (idx_in_multi_attr a) = true) l else filter (λ a, allows (idx_in_multi_attr a) = true) l)) as C.
  { rewrite C2, C1, <-app_assoc. f_equal. unfold calls_for. by destruct (allows _). }
  destruct (writes a) eqn:E.
  - destruct Ho as [-> Ho]. exists errs. rewrite decide_True, decide_False by done. split_and!; try done.
    + eapply (attrs_cons _ a l _ s1); [exact Ho|exact Hi|exact F2|exact H2].
    + by eapply frame_cons.
  - destruct Ho as [[e ->] Ho]. eexists. rewrite decide_False, decide_True by done. split; [done|]. split_and!; try done.
    + by rewrite !fmap_cons, H1.
    + eapply (attrs_cons _ a l _ s1); [exact Ho|exact Hi|exact F2|exact H3].
    + by eapply frame_cons.
Qed.
End Writing.

(** ** The hardware *)

Section Hardware.
Context (vers : Z) (write_attr_hardware : list nat → user_result).

Definition hw_fails (l : list AttIdx) : bool :=
  (4 <=? vers) && match write_attr_hardware (idxs l) with Failed _ => true | _ => false end.
Definition hw_answers (l : list AttIdx) : Prop :=
  match write_attr_hardware (idxs l) with Done | Failed _ => True | _ => False end.
Definition hw_call (l : list AttIdx) : list DevCall := if 4 <=? vers then [HardwareCall (idxs l)] else [].

Lemma find_index (a : AttIdx) (updated : list AttIdx) :
  NoDup (idxs updated) → a ∈ updated → snd <$> list_find (λ b, idx_in_multi_attr b = idx_in_multi_attr a) updated = Some a.
Proof.
  induction updated as [|b l IH]; intros Hn Ha; [by apply elem_of_nil in Ha|]. apply NoDup_cons in Hn as [Hi Hn].
  apply elem_of_cons in Ha as [->|Ha]; simpl; [by rewrite decide_True|].
  rewrite decide_False by (intros Heq; by eapply idxs_notin). rewrite <-(IH Hn Ha). by destruct (list_find _ l) as [[]|].
Qed.

Lemma all_failed_ok errors W updated l s :
  NoDup (idxs updated) → l ⊆ updated → NoDup (idxs l) → attrs_are s l W → Forall (λ a, plain (W a)) l →
  wp (all_failed errors updated l) s (λ s' r, ∃ errs, r = inr errs ∧ ne_index <$> errs = idx_in_names <$> l ∧
    attrs_are s' l (λ a, undone (W a)) ∧ frame (idxs l) s s' ∧ calls s' = calls s).
Proof.
  intros Hu. revert s. induction l as [|a l IH]; intros s Hl Hn Ha Hp.
  { exists []. by split_and!; try done; intros b Hb%elem_of_nil. }
  apply NoDup_cons in Hn as [Hi Hn]. apply Forall_cons in Hp as [Hpa Hp]. cbn [all_failed].
  assert (w_attrs s !! idx_in_multi_attr a = Some (W a)) as Haa by (apply Ha; by left).
  wp_step. apply (undo_ok _ (W a)); [done|done|]. cbv beta iota. set (s1 := set_w_attrs _ s).
  assert (w_attrs s1 !! idx_in_multi_attr a = Some (undone (W a))) as H1 by (by eapply attr_insert).
  pose proof (frame_insert (idx_in_multi_attr a) (undone (W a)) s) as F1.
  do 3 wp_step. rewrite H1. apply wp_lift; [done| |done]. intros _ [= <-].
  wp_step. rewrite find_index by (try done; apply Hl; by left). apply wp_lift; [done| |done]. intros _ [= <-].
  wp_step. eapply wp_mono; [apply IH; [set_solver|done|by eapply attrs_rest|done]|].
  intros s2 r (errs & -> & E1 & E2 & F2 & C2). cbv beta iota. wp_step. eexists. split; [done|]. split_and!.
  - by rewrite !fmap_cons, E1.
  - eapply (attrs_cons _ a l _ s1); [exact H1|exact Hi|exact F2|exact E2].
  - by eapply frame_cons.
  - by rewrite C2.
Qed.

Lemma write_hardware_ok W l s :
  NoDup (idxs l) → attrs_are s l W → Forall (λ a, plain (W a)) l → (4 <= vers → hw_answers l) →
  wp (write_hardware vers write_attr_hardware l) s (λ s' r, ∃ kept errs, r = inr (kept, errs) ∧
    (if hw_fails l then kept = [] ∧ ne_index <$> errs = idx_in_names <$> l ∧ attrs_are s' l (λ a, undone (W a))
     else kept = l ∧ errs = [] ∧ attrs_are s' l W) ∧
    frame (idxs l) s s' ∧ calls s' = calls s ++ hw_call l).
Proof.
  intros Hn Ha Hp Hans. unfold write_hardware, hw_fails, hw_call, hw_answers in *. destruct (Z.leb_spec 4 vers); cbn [andb].
  2: { exists l, []. by rewrite app_nil_r. }
  specialize (Hans ltac:(lia)). wp_step. wp_step. unfold idxs in Hans.
  destruct (write_attr_hardware (idx_in_multi_attr <$> l)) as [|errors| |] eqn:E; try done; unfold idxs; rewrite E.
  - exists l, []. by split_and!.
  - wp_step. eapply wp_mono; [by apply (all_failed_ok errors W l l (call _ s))|].
    intros s' r (errs & -> & H1 & H2 & H3 & H4). cbv beta iota. wp_step. exists [], errs. by split_and!.
Qed.
End Hardware.

(** ** The written values *)

Section Keep.
Context (use_db : bool) (put_props : list (string * option WElt) → outcome unit) (now : TimeVal)
  (other_member : WValue → CmdArgType → outcome (list WElt)) (values : list AttrValue) (V : AttIdx → AttrValue).

Definition kept_value w (v : WValue) : WAttribute :=
  let w := if user_set_write_value w || bool_decide (data_type (info (base w)) = DEV_ENCODED) then w else set_written (v_seq v) w in
  let w := if memorized w && bool_decide (mem_value w = MemNotUsed) then set_mem_value "Set" w else w in
  if test rds (alarm_conf (base w)) then set_written_date now w else w.

Lemma keep_value_run w v :
  v_type v = elt_type (data_type (info (base w))) → keep_value now other_member v w = Some (kept_value w v, inr (memorized w)).
Proof.
  intros Ht. unfold keep_value, kept_value, copy_data, when_. unfold mbind, SM_bind, get, modify, mret, SM_ret.
  destruct (user_set_write_value w); cbn [negb orb]; [|rewrite (bool_decide_eq_true_2 _ Ht); destruct (bool_decide (_ = DEV_ENCODED))].
  - destruct (memorized w && bool_decide (mem_value w = MemNotUsed)); cbn; destruct (b_rds (alarm_conf (base w))); try reflexivity.
  - destruct (memorized w && bool_decide (mem_value w = MemNotUsed)); cbn; by destruct (b_rds (alarm_conf (base w))).
  - cbn. destruct (memorized w && bool_decide (mem_value w = MemNotUsed)); cbn; by destruct (b_rds (alarm_conf (base w))).
Qed.

Lemma keep_values_ok W l s :
  NoDup (idxs l) → Forall (known values V) l → attrs_are s l W →
  Forall (λ a, v_type (av_value (V a)) = elt_type (data_type (info (base (W a))))) l →
  wp (keep_values now other_member values l) s (λ s' r, r = inr (filter (λ a, memorized (W a) = true) l) ∧
    attrs_are s' l (λ a, kept_value (W a) (av_value (V a))) ∧ frame (idxs l) s s' ∧ calls s' = calls s).
Proof.
  revert s. induction l as [|a l IH]; intros s Hn Hk Ha Ht.
  { by split_and!; try done; intros b Hb%elem_of_nil. }
  apply NoDup_cons in Hn as [Hi Hn]. apply Forall_cons in Hk as [Hv Hk]. apply Forall_cons in Ht as [Hta Ht]. cbn [keep_values].
  wp_step. unfold the_value. rewrite Hv. apply wp_lift; [done| |done]. intros _ [= <-]. wp_step.
  assert (w_attrs s !! idx_in_multi_attr a = Some (W a)) as Haa by (apply Ha; by left).
  eapply on_w_ok; [done|by apply keep_value_run|]. cbv beta iota. set (s1 := set_w_attrs _ s).
  pose proof (frame_insert (idx_in_multi_attr a) (kept_value (W a) (av_value (V a))) s) as F1.
  assert (w_attrs s1 !! idx_in_multi_attr a = Some (kept_value (W a) (av_value (V a)))) as H1 by (by eapply attr_insert).
  wp_step. eapply wp_mono; [apply IH; [done|done|by eapply attrs_rest|done]|].
  intros s2 r (-> & E2 & F2 & C2). cbv beta iota. rewrite filter_cons. split_and!.
  - by destruct (memorized (W a)).
  - eapply (attrs_cons _ a l _ s1); [exact H1|exact Hi|exact F2|exact E2].
  - by eapply frame_cons.
  - by rewrite C2.
Qed.

Lemma save_values_ok W l s :
  (∀ p, put_props p = Ok tt) → attrs_are s l W → Forall (λ a, written (W a) ≠ []) l →
  wp (save_values use_db put_props values l) s (λ s' r, r = inr [] ∧ w_attrs s' = w_attrs s ∧ w_state s' = w_state s ∧
    ∃ c, calls s' = calls s ++ c).
Proof.
  intros Hput Ha Hw. unfold save_values.
  destruct (use_db && _); [|by split_and!; try done; exists []; rewrite app_nil_r].
  wp_step. unfold wp at 1, attempt, write_attributes_in_db. rewrite (run_bind _ _ s s s eq_refl).
  assert (∃ p, mapM (λ a, w ← deref (w_attrs s !! idx_in_multi_attr a); mem_prop w) l = Ok p) as [p Hp].
  { clear Hput. induction l as [|a l IH]; [by eexists|]. apply Forall_cons in Hw as [Hwa Hw].
    destruct IH as [p Hp]; [by intros b Hb; apply Ha; right|done|]. set (f := λ a : AttIdx, deref (w_attrs s !! idx_in_multi_attr a) ≫= λ w, mem_prop w) in *.
    assert (∃ x, f a = Ok x) as [x Hx].
    { unfold f. rewrite (Ha a) by left. simpl. unfold mem_prop. case_bool_decide; [by eexists|].
      destruct (written (W a)) as [|x ws]; [done|by eexists]. }
    exists (x :: p). change (mapM f (a :: l)) with (y ← f a; k ← mapM f l; mret (y :: k)). by rewrite Hx, bind_Ok, Hp. }
  rewrite (run_bind _ _ s s p) by (by rewrite Hp). rewrite (run_bind _ _ s (call (MemPut p) s) tt eq_refl). rewrite Hput.
  cbn [lift]. cbv beta iota. wp_step. split_and!; try done. by eexists.
Qed.
End Keep.

(** ** The attributes of the request *)

(** The attribute that a value is for, if it can be written. *)
Definition target s (v : AttrValue) : option nat :=
  match check_writable v s with Some (_, inr i) => Some i | _ => None end.

Lemma check_writable_run v s :
  if target s v is Some i then check_writable v s = Some (s, inr i) ∧ is_Some (w_attrs s !! i)
  else ∃ l, check_writable v s = Some (s, inl (DevFailed l)).
Proof.
  assert (∃ r, check_writable v s = Some (s, r) ∧ match r with inr i => is_Some (w_attrs s !! i) | inl (DevFailed _) => True | inl _ => False end)
    as (r & Hr & Ho).
  { unfold check_writable, get_attr_ind_by_name. unfold mbind, SM_bind, get.
    destruct (list_find _ (w_attrs s)) as [[i w]|] eqn:E; [|by eexists]. apply list_find_Some in E as (Hi & _).
    cbn. rewrite Hi. cbn. do 3 (destruct (_ : bool); cbn; [by eexists|]). eexists. split; [done|]. by eexists. }
  unfold target. rewrite Hr. destruct r as [[l|]|i]; [by eexists|done|done].
Qed.

Fixpoint found s (values : list AttrValue) (k : nat) : list AttIdx :=
  match values with
  | [] => []
  | v :: values => match target s v with Some i => mkAttIdx k i :: found s values (S k) | None => found s values (S k) end
  end.
Fixpoint refused s (values : list AttrValue) (k : nat) : list nat :=
  match values with
  | [] => []
  | v :: values => match target s v with Some i => refused s values (S k) | None => k :: refused s values (S k) end
  end.
Lemma found_spec s values k a :
  a ∈ found s values k ↔ (k <= idx_in_names a)%nat ∧ ∃ v, values !! (idx_in_names a - k)%nat = Some v ∧ target s v = Some (idx_in_multi_attr a).
Proof.
  revert k. induction values as [|v values IH]; intros k; cbn [found].
  { rewrite elem_of_nil. split; [done|]. by intros (_ & v & [=] & _). }
  assert (a ∈ found s values (S k) ↔ (S k <= idx_in_names a)%nat ∧ ∃ v', (v :: values) !! (idx_in_names a - k)%nat = Some v' ∧ target s v' = Some (idx_in_multi_attr a)) as IH'.
  { rewrite IH. split; intros [H (v' & H1 & H2)]; (split; [done|]); exists v'; (split; [|done]).
    - by replace (idx_in_names a - k)%nat with (S (idx_in_names a - S k)) by lia.
    - by replace (idx_in_names a - k)%nat with (S (idx_in_names a - S k)) in H1 by lia. }
  destruct (decide (idx_in_names a = k)) as [He|He].
  - rewrite He, Nat.sub_diag. split.
    + intros H. split; [done|]. exists v. split; [done|]. destruct (target s v) as [i|]; [apply elem_of_cons in H as [->|H]|]; [done|..];
        apply IH' in H; lia.
    + intros (_ & v' & [= <-] & ->). destruct a as [n j]. simpl in *. subst n. by left.
  - transitivity (a ∈ found s values (S k)).
    + destruct (target s v); [|done]. rewrite elem_of_cons. split; [|by right]. intros [->|?]; [done|done].
    + rewrite IH'. split; intros [H1 H2]; (split; [lia|done]).
Qed.
Lemma refused_spec s values k j :
  j ∈ refused s values k ↔ (k <= j)%nat ∧ ∃ v, values !! (j - k)%nat = Some v ∧ target s v = None.
Proof.
  revert k. induction values as [|v values IH]; intros k; cbn [refused].
  { rewrite elem_of_nil. split; [done|]. by intros (_ & v & [=] & _). }
  assert (j ∈ refused s values (S k) ↔ (S k <= j)%nat ∧ ∃ v', (v :: values) !! (j - k)%nat = Some v' ∧ target s v' = None) as IH'.
  { rewrite IH. split; intros [H (v' & H1 & H2)]; (split; [done|]); exists v'; (split; [|done]).
    - by replace (j - k)%nat with (S (j - S k)) by lia.
    - by replace (j - k)%nat with (S (j - S k)) in H1 by lia. }
  destruct (decide (j = k)) as [He|He].
  - subst j. rewrite Nat.sub_diag. destruct (target s v) eqn:E.
    + rewrite IH'. split; [lia|]. intros (_ & v' & [= <-] & ?). congruence.
    + split; [|by left]. intros _. split; [done|]. by exists v.
  - transitivity (j ∈ refused s values (S k)).
    + destruct (target s v); [done|]. rewrite elem_of_cons. split; [|by right]. by intros [->|?].
    + rewrite IH'. split; intros [H1 H2]; (split; [lia|done]).
Qed.

Lemma find_attrs_ok values k s (Q : WDev → exn + (list AttIdx * list NamedDevError) → Prop) :
  (∀ errs, ne_index <$> errs = refused s values k → Q s (inr (found s values k, errs))) → wp (find_attrs values k) s Q.
Proof.
  revert k Q. induction values as [|v values IH]; intros k Q HQ; [by apply HQ|]. cbn [find_attrs]. wp_step.
  pose proof (check_writable_run v s) as H. cbn [found refused] in HQ. destruct (target s v) as [i|].
  - destruct H as [H _]. unfold wp at 1, attempt. rewrite H. wp_step. apply IH. intros errs He. cbv beta iota. wp_step. by apply HQ.
  - destruct H as [l H]. unfold wp at 1, attempt. rewrite H. wp_step. apply IH. intros errs He. cbv beta iota. wp_step. apply HQ.
    by rewrite fmap_cons, He.
Qed.

(** ** The request *)

Section Request.
Context (vers : Z) (wattr_nan_allowed use_db : bool) (hook : outcome unit)
  (is_allowed : nat → outcome bool) (write : nat → WAttribute → option (WAttribute * user_result))
  (write_attr_hardware : list nat → user_result) (put_props : list (string * option WElt) → outcome unit) (now : TimeVal)
  (other_member : WValue → CmdArgType → outcome (list WElt)) (values : list AttrValue).
(** The values, the attributes and the answers of the user for the elements of the request. *)
Context (V : AttIdx → AttrValue) (W : AttIdx → WAttribute) (R : AttIdx → user_result).

Let ok_value := passes wattr_nan_allowed V W.
Let new_attr := with_value V W.

(** The attributes that are written, and whether the hardware takes them. *)
Definition written_attrs (l : list AttIdx) : list AttIdx :=
  filter (λ a, writes is_allowed R a = true) (filter (λ a, passes wattr_nan_allowed V W a = true) l).
Definition hardware_fails (l : list AttIdx) : bool := hw_fails vers write_attr_hardware (written_attrs l).
Definition succeeds (l : list AttIdx) (a : AttIdx) : bool :=
  passes wattr_nan_allowed V W a && writes is_allowed R a && negb (hardware_fails l).

(** An element of the request that can be handled: the user leaves the attribute as it is,
    which is not made of bytes (see [uchar_not_rolled_back]). *)
Record element s (a : AttIdx) : Prop := {
  e_known : known values V a;
  e_attr : w_attrs s !! idx_in_multi_attr a = Some (W a);
  e_value : well_formed (W a) (av_value (V a));
  e_plain : plain (W a) ∧ data_type (info (base (W a))) ≠ DEV_ENCODED;
  e_memorized : memorized (W a) = true → data_format (info (base (W a))) = SCALAR;
  e_user : user_writes is_allowed write R a (with_value V W a);
}.
Record write_request s : Prop := {
  r_attrs : w_attrs s ≠ [];
  r_hook : hook = Ok tt;
  r_distinct : NoDup (idxs (found s values 0));
  r_elements : Forall (element s) (found s values 0);
  r_first : not_first_refused wattr_nan_allowed V W (found s values 0);
  r_hardware : 4 <= vers → ∀ l, hw_answers write_attr_hardware l;
  r_database : ∀ p, put_props p = Ok tt;
}.

(** The attribute after the request, element by element. *)
Definition final_attr (l : list AttIdx) (a : AttIdx) : WAttribute :=
  if passes wattr_nan_allowed V W a then
    if writes is_allowed R a then
      let w := after_write (prepared (with_value V W a)) in
      if hardware_fails l then undone w else kept_value now w (av_value (V a))
    else undone (prepared (with_value V W a))
  else W a.

Lemma known_elements s l : Forall (element s) l → Forall (known values V) l.
Proof. intros H. eapply Forall_impl; [exact H|]. by intros a []. Qed.
Lemma elements_sub s l P `{∀ a, Decision (P a)} : Forall (element s) l → Forall (element s) (filter P l).
Proof. rewrite !Forall_forall. intros H1 a [_ Ha]%list_elem_of_filter. auto. Qed.
Lemma idxs_sub l P `{∀ a, Decision (P a)} : NoDup (idxs l) → NoDup (idxs (filter P l)).
Proof.
  unfold idxs. induction l as [|a l IH]; intros Hn; [done|]. rewrite fmap_cons in Hn. apply NoDup_cons in Hn as [Hi Hn].
  rewrite filter_cons. destruct (decide (P a)); [|by apply IH]. rewrite fmap_cons. apply NoDup_cons. split; [|by apply IH].
  intros (b & Heq & [_ Hb]%list_elem_of_filter)%list_elem_of_fmap. apply Hi. rewrite Heq. by apply list_elem_of_fmap_2.
Qed.

Lemma stored_same s a : element s a →
  let w := with_value V W a in
  base w = base (W a) ∧ memorized w = memorized (W a) ∧ written w = written (W a) ∧ plain w ∧
  (data_format (info (base (W a))) = SCALAR → old_val w = write_val (W a) ∧ v_seq (av_value (V a)) !! 0%nat = Some (write_val w)) ∧
  (data_format (info (base (W a))) ≠ SCALAR → write_val w = write_val (W a)) ∧ write_value_ptr w = v_seq (av_value (V a)).
Proof.
  intros [_ _ [_ Hs] [Hp _] _ _]. unfold with_value, stored. case_bool_decide as Hf.
  - specialize (Hs Hf). destruct (v_seq (av_value (V a))) as [|x l]; [done|]. by split_and!.
  - by split_and!.
Qed.

Lemma attrs_filter s l f P `{∀ a, Decision (P a)} : attrs_are s l f → attrs_are s (filter P l) f.
Proof. intros Ha a [_ Hl]%list_elem_of_filter. by apply Ha. Qed.
Lemma not_frame a l s s' : frame (idxs l) s s' → idx_in_multi_attr a ∉ idxs l → w_attrs s' !! idx_in_multi_attr a = w_attrs s !! idx_in_multi_attr a.
Proof. intros [H _] Ha. by apply H. Qed.

(** The elements of a list that do not satisfy [P] are not among the indexes of those that
    do. *)
Lemma other_idx l a P `{∀ a, Decision (P a)} : NoDup (idxs l) → a ∈ l → ¬ P a → idx_in_multi_attr a ∉ idxs (filter P l).
Proof.
  unfold idxs. intros Hn Ha HP (b & Hb & [HPb Hbl]%list_elem_of_filter)%list_elem_of_fmap.
  assert (a = b) as ->; [|done]. by eapply fmap_unique.
Qed.

(** The checks and the writing of the elements that were found. *)
Definition pass_list (l : list AttIdx) := filter (λ a, passes wattr_nan_allowed V W a = true) l.
Definition fail_list (l : list AttIdx) := filter (λ a, passes wattr_nan_allowed V W a = false) l.

Lemma written_elements s l : Forall (element s) l →
  Forall (λ a, plain (with_value V W a) ∧ user_writes is_allowed write R a (with_value V W a)) (pass_list l).
Proof.
  intros H. pose proof (elements_sub s l (λ a, passes wattr_nan_allowed V W a = true) H) as H'.
  eapply Forall_impl; [exact H'|]. intros a He. destruct (stored_same s a He) as (_ & _ & _ & Hp & _).
  split; [done|]. apply He.
Qed.

(** The attribute of an element once it is written, before its value is kept. *)
Definition done_attr (a : AttIdx) : WAttribute := after_write (prepared (with_value V W a)).
Definition refused_list (l : list AttIdx) := filter (λ a, writes is_allowed R a = false) (pass_list l).

Lemma done_plain s l : Forall (element s) l → Forall (λ a, plain (done_attr a)) (written_attrs l).
Proof.
  intros H%written_elements. apply Forall_forall. intros a [_ Ha]%list_elem_of_filter.
  rewrite Forall_forall in H. destruct (H a Ha) as [Hp _]. unfold done_attr, after_write, prepared. by destruct (mem_write_failed _).
Qed.

(** After the writing and the hardware. *)
Definition step_errors (l : list AttIdx) (errs3 errs4 : list NamedDevError) : Prop :=
  ne_index <$> errs3 = idx_in_names <$> refused_list l ∧
  ne_index <$> errs4 = if hardware_fails l then idx_in_names <$> written_attrs l else [].
Lemma write_steps_ok s s2 l :
  Forall (element s) l → NoDup (idxs l) → (4 <= vers → ∀ l, hw_answers write_attr_hardware l) →
  attrs_are s2 (pass_list l) (with_value V W) →
  wp ('(updated, errs3) ← write_each is_allowed write values (pass_list l);
      '(updated, errs4) ← write_hardware vers write_attr_hardware updated;
      mret (updated, errs3, errs4)) s2 (λ s' r, ∃ errs3 errs4,
    r = inr (if hardware_fails l then [] else written_attrs l, errs3, errs4) ∧ step_errors l errs3 errs4 ∧
    attrs_are s' (written_attrs l) (λ a, if hardware_fails l then undone (done_attr a) else done_attr a) ∧
    attrs_are s' (refused_list l) (λ a, undone (prepared (with_value V W a))) ∧
    frame (idxs (pass_list l)) s2 s' ∧ ∃ c, calls s' = calls s2 ++ calls_for is_allowed (with_value V W) (pass_list l) ++ c).
Proof.
  intros Hel Hn Hh Ha. assert (NoDup (idxs (pass_list l))) as Hnp by (by apply idxs_sub).
  wp_step. eapply wp_mono; [apply (write_each_ok is_allowed write R values V (with_value V W)); [done| |done|by eapply written_elements]|].
  { eapply known_elements. by apply elements_sub. }
  intros s3 r (errs3 & -> & E3 & A3 & B3 & F3 & C3). cbv beta iota. fold (written_attrs l) (pass_list l) in *.
  wp_step. eapply wp_mono; [apply (write_hardware_ok vers write_attr_hardware done_attr (written_attrs l))|].
  { by apply idxs_sub. }
  { exact A3. }
  { by eapply done_plain. }
  { intros ?. by apply Hh. }
  intros s4 r (kept & errs4 & -> & H4 & F4 & C4). cbv beta iota. wp_step. exists errs3, errs4. unfold step_errors, hardware_fails.
  assert (idxs (written_attrs l) ⊆ idxs (pass_list l)) as Hsub.
  { intros i (a & -> & [_ Hi]%list_elem_of_filter)%list_elem_of_fmap. by apply list_elem_of_fmap_2. }
  assert (frame (idxs (pass_list l)) s2 s4) as F by (eapply frame_trans; [exact F3|by eapply frame_weaken]).
  assert (attrs_are s4 (refused_list l) (λ a, undone (prepared (with_value V W a)))) as B4.
  { eapply attrs_frame; [exact B3|exact F4|]. intros a [Hw Hi]%list_elem_of_filter. apply other_idx; [done|done|congruence]. }
  assert (∃ c, calls s4 = calls s2 ++ calls_for is_allowed (with_value V W) (pass_list l) ++ c) as Hc.
  { eexists. by rewrite C4, C3, <-app_assoc. }
  destruct (hw_fails _ _ _).
  - destruct H4 as (-> & H4 & A4). by split_and!.
  - destruct H4 as (-> & -> & A4). by split_and!.
Qed.

Lemma found_length s vs k : (length (found s vs k) + length (refused s vs k) = length vs)%nat.
Proof.
  revert k. induction vs as [|v vs IH]; intros k; [done|]. cbn [found refused length]. specialize (IH (S k)).
  destruct (target s v); cbn [length]; lia.
Qed.
Lemma pass_length l : (length (pass_list l) + length (fail_list l) = length l)%nat.
Proof.
  unfold pass_list, fail_list. induction l as [|a l IH]; [done|]. rewrite !filter_cons.
  destruct (passes wattr_nan_allowed V W a); cbn [decide]; simpl; lia.
Qed.

(** The written phase, also when every element was refused before. *)
Lemma written_phase_ok s s2 l n :
  Forall (element s) l → NoDup (idxs l) → (4 <= vers → ∀ l, hw_answers write_attr_hardware l) →
  attrs_are s2 (pass_list l) (with_value V W) → (n = length values → pass_list l = []) →
  wp (if negb (n =? length values)%nat then
        '(updated, errs3) ← write_each is_allowed write values (pass_list l);
        '(updated, errs4) ← write_hardware vers write_attr_hardware updated;
        mret (updated, errs3, errs4)
      else mret (pass_list l, [], [])) s2 (λ s' r, ∃ errs3 errs4,
    r = inr (if hardware_fails l then [] else written_attrs l, errs3, errs4) ∧ step_errors l errs3 errs4 ∧
    attrs_are s' (written_attrs l) (λ a, if hardware_fails l then undone (done_attr a) else done_attr a) ∧
    attrs_are s' (refused_list l) (λ a, undone (prepared (with_value V W a))) ∧
    frame (idxs (pass_list l)) s2 s' ∧ ∃ c, calls s' = calls s2 ++ calls_for is_allowed (with_value V W) (pass_list l) ++ c).
Proof.
  intros Hel Hn Hh Ha Hlen. destruct (Nat.eqb_spec n (length values)) as [Heq|Heq]; cbn [negb]; [|by eapply write_steps_ok].
  specialize (Hlen Heq). assert (written_attrs l = []) as Hw by (unfold written_attrs; fold (pass_list l); by rewrite Hlen).
  wp_step. exists [], []. unfold step_errors, refused_list, calls_for. rewrite Hw, Hlen. split; [by destruct (hardware_fails l)|].
  split_and!; try done.
  - by destruct (hardware_fails l).
  - by intros a Hx%elem_of_nil.
  - by intros a Hx%elem_of_nil.
  - exists []. by rewrite app_nil_r.
Qed.

Lemma kept_written w v :
  user_set_write_value w = false → data_type (info (base w)) ≠ DEV_ENCODED → written (kept_value now w v) = v_seq v.
Proof.
  intros Hu Ht. unfold kept_value. rewrite Hu, bool_decide_eq_false_2 by done. cbn [orb].
  destruct (_ && _); cbn; by destruct (b_rds (alarm_conf (base w))).
Qed.
Lemma done_attr_facts s a : element s a → passes wattr_nan_allowed V W a = true →
  user_set_write_value (done_attr a) = false ∧ data_type (info (base (done_attr a))) ≠ DEV_ENCODED ∧
  memorized (done_attr a) = memorized (W a) ∧ v_type (av_value (V a)) = elt_type (data_type (info (base (done_attr a)))) ∧
  (data_format (info (base (W a))) = SCALAR → v_seq (av_value (V a)) !! 0%nat = Some (write_val (done_attr a))) ∧
  write_val (undone (done_attr a)) = write_val (W a) ∧ written (undone (done_attr a)) = written (W a).
Proof.
  intros He Hp. pose proof (stored_same s a He) as (Hb & Hm & Hw & _ & Hs & Hns & _). destruct He as [_ _ _ [_ Ht] _ _].
  unfold passes, accepted in Hp. rewrite !andb_true_iff, bool_decide_eq_true in Hp. destruct Hp as [[Hty _] _].
  unfold done_attr, after_write, prepared, undone. rewrite <-Hb in Hty, Ht, Hs, Hns.
  destruct (decide (data_format (info (base (with_value V W a))) = SCALAR)) as [Hf|Hf].
  - destruct (Hs Hf) as [H1 H2]. destruct (mem_write_failed _); cbn; rewrite bool_decide_eq_true_2 by done; rewrite <-Hb; by split_and!.
  - specialize (Hns Hf). destruct (mem_write_failed _); cbn; rewrite bool_decide_eq_false_2 by done; rewrite <-Hb; by split_and!.
Qed.

(** The errors of a request, by the indexes of its values. *)
Definition unique_names (l : list AttIdx) : Prop := ∀ a b, a ∈ l → b ∈ l → idx_in_names a = idx_in_names b → a = b.
Lemma found_unique s vs k : unique_names (found s vs k).
Proof.
  intros a b (_ & v & H1 & H2)%found_spec (_ & v' & H3 & H4)%found_spec Heq. rewrite Heq in H1. destruct a, b; simpl in *. congruence.
Qed.
Lemma in_names l P `{∀ a, Decision (P a)} a l' :
  unique_names l → a ∈ l → l' ⊆ l → idx_in_names a ∈ idx_in_names <$> filter P l' ↔ P a ∧ a ∈ l'.
Proof.
  intros Hu Ha Hsub. rewrite list_elem_of_fmap. split.
  - intros (b & Hb & [HP Hbl]%list_elem_of_filter). assert (a = b) as ->; [|done]. apply Hu; auto.
  - intros HP. exists a. split; [done|]. by apply list_elem_of_filter.
Qed.
Lemma errors_of l a errs2 errs3 errs4 :
  unique_names l → a ∈ l → ne_index <$> errs2 = idx_in_names <$> fail_list l → step_errors l errs3 errs4 →
  idx_in_names a ∈ ne_index <$> (errs2 ++ errs3 ++ errs4) ↔ succeeds l a = false.
Proof.
  intros Hn Ha E2 [E3 E4]. rewrite !fmap_app, !elem_of_app, E2, E3, E4.
  assert (pass_list l ⊆ l) as Hsub by (intros b [_ Hb]%list_elem_of_filter; done).
  unfold fail_list, refused_list. rewrite (in_names l), (in_names l) by done.
  assert (a ∈ pass_list l ↔ passes wattr_nan_allowed V W a = true) as ->.
  { unfold pass_list. rewrite list_elem_of_filter. naive_solver. }
  assert (idx_in_names a ∈ (if hardware_fails l then idx_in_names <$> written_attrs l else []) ↔
    hardware_fails l = true ∧ writes is_allowed R a = true ∧ passes wattr_nan_allowed V W a = true) as ->.
  { destruct (hardware_fails l); [|split; [by intros ?%elem_of_nil|by intros [? _]]]. unfold written_attrs. rewrite (in_names l) by done.
    rewrite list_elem_of_filter. naive_solver. }
  unfold succeeds. destruct (passes _ _ _ a), (writes _ _ a), (hardware_fails l); simpl; naive_solver.
Qed.

Lemma kept_val w v : write_val (kept_value now w v) = write_val w.
Proof.
  unfold kept_value. by repeat case_match.
Qed.
Lemma done_val a : write_val (done_attr a) = write_val (with_value V W a).
Proof. unfold done_attr, after_write. by destruct (mem_write_failed _). Qed.
Lemma undone_facts s a : element s a →
  write_val (undone (prepared (with_value V W a))) = write_val (W a) ∧ written (undone (prepared (with_value V W a))) = written (W a).
Proof.
  intros He. pose proof (stored_same s a He) as (Hb & _ & Hw & _ & Hs & Hns & _). unfold undone, prepared. rewrite <-Hb in Hs, Hns.
  cbn. case_bool_decide as Hf; cbn; [destruct (Hs Hf) as [-> _]|rewrite (Hns Hf)]; done.
Qed.

(** The final attribute of an element, and what it tells. *)
Lemma final_facts s l a : element s a →
  if succeeds l a
  then written (final_attr l a) = v_seq (av_value (V a)) ∧ write_val (final_attr l a) = write_val (with_value V W a) ∧
    (data_format (info (base (W a))) = SCALAR → v_seq (av_value (V a)) !! 0%nat = Some (write_val (final_attr l a)))
  else write_val (final_attr l a) = write_val (W a) ∧ written (final_attr l a) = written (W a).
Proof.
  intros He. unfold succeeds, final_attr. fold (done_attr a).
  destruct (passes wattr_nan_allowed V W a) eqn:Hp; [|done]. destruct (writes is_allowed R a); [|by eapply undone_facts].
  pose proof (done_attr_facts s a He Hp) as (H1 & H2 & _ & _ & H3 & H4 & H5). cbn [andb].
  destruct (hardware_fails l); cbn [negb]; [done|]. rewrite kept_written by done. rewrite kept_val, done_val.
  split_and!; try done. intros Hf. rewrite H3 by done. by rewrite done_val.
Qed.

Lemma keep_phase_ok s s3 l :
  Forall (element s) l → NoDup (idxs l) →
  attrs_are s3 (written_attrs l) (λ a, if hardware_fails l then undone (done_attr a) else done_attr a) →
  wp (keep_values now other_member values (if hardware_fails l then [] else written_attrs l)) s3 (λ s4 r, ∃ m f,
    r = inr m ∧ calls s4 = calls s3 ∧ attrs_are s4 m f ∧ Forall (λ a, written (f a) ≠ []) m ∧
    if hardware_fails l then w_attrs s4 = w_attrs s3
    else attrs_are s4 (written_attrs l) (λ a, kept_value now (done_attr a) (av_value (V a))) ∧ frame (idxs (written_attrs l)) s3 s4).
Proof.
  intros Hel Hn A3. destruct (hardware_fails l).
  { cbn [keep_values]. wp_step. exists [], W. split_and!; try done. by intros a Ha%elem_of_nil. }
  assert (∀ a, a ∈ written_attrs l → element s a ∧ passes wattr_nan_allowed V W a = true) as Hwa.
  { intros a [_ [Hp Ha]%list_elem_of_filter]%list_elem_of_filter. rewrite Forall_forall in Hel. auto. }
  eapply wp_mono; [apply (keep_values_ok now other_member values V done_attr)|].
  { by apply idxs_sub, idxs_sub. }
  { apply Forall_forall. intros a Ha. by destruct (Hwa a Ha) as [[] _]. }
  { exact A3. }
  { apply Forall_forall. intros a Ha. destruct (Hwa a Ha) as [He Hp]. by destruct (done_attr_facts s a He Hp) as (_ & _ & _ & H & _). }
  intros s4 r (-> & A4 & F4 & C4). eexists _, (λ a, kept_value now (done_attr a) (av_value (V a))). split_and!; try done.
  - by apply attrs_filter.
  - apply Forall_forall. intros a [Hm Ha]%list_elem_of_filter. destruct (Hwa a Ha) as [He Hp].
    destruct (done_attr_facts s a He Hp) as (H1 & H2 & H3 & _). rewrite kept_written by done. rewrite H3 in Hm.
    destruct He as [_ _ [_ Hs] _ Hmem _]. auto.
Qed.

(** The attributes after the last phase. *)
Lemma final_attrs s1 s2 s3 s4 l :
  NoDup (idxs l) → attrs_are s2 (fail_list l) W → frame (idxs (pass_list l)) s2 s3 →
  attrs_are s3 (refused_list l) (λ a, undone (prepared (with_value V W a))) →
  attrs_are s3 (written_attrs l) (λ a, if hardware_fails l then undone (done_attr a) else done_attr a) →
  (if hardware_fails l then w_attrs s4 = w_attrs s3
   else attrs_are s4 (written_attrs l) (λ a, kept_value now (done_attr a) (av_value (V a))) ∧ frame (idxs (written_attrs l)) s3 s4) →
  w_attrs s1 = w_attrs s4 → attrs_are s1 l (final_attr l).
Proof.
  intros Hn B2 F3 B3 A3 H4 H1 a Ha. rewrite H1. clear H1 s1. unfold final_attr. fold (done_attr a).
  assert (idxs (written_attrs l) ⊆ idxs (pass_list l)) as Hsub.
  { intros i (b & -> & [_ Hi]%list_elem_of_filter)%list_elem_of_fmap. by apply list_elem_of_fmap_2. }
  assert (idx_in_multi_attr a ∉ idxs (written_attrs l) → w_attrs s4 !! idx_in_multi_attr a = w_attrs s3 !! idx_in_multi_attr a) as Hout.
  { intros Hi. destruct (hardware_fails l); [by rewrite H4|]. destruct H4 as [_ [H4 _]]. by apply H4. }
  destruct (passes wattr_nan_allowed V W a) eqn:Hp.
  2: { assert (idx_in_multi_attr a ∉ idxs (pass_list l)) as Hi by (apply other_idx; [done|done|congruence]).
       rewrite Hout by (intros Hx; by apply Hi, Hsub). rewrite (proj1 F3) by done. apply B2. by apply list_elem_of_filter. }
  assert (a ∈ pass_list l) as Hpl by (by apply list_elem_of_filter).
  destruct (writes is_allowed R a) eqn:Hw.
  2: { rewrite Hout by (apply other_idx; [by apply idxs_sub|done|congruence]). apply B3. by apply list_elem_of_filter. }
  assert (a ∈ written_attrs l) as Hwl by (by apply list_elem_of_filter).
  destruct (hardware_fails l); [rewrite H4; by apply A3|]. by apply H4.
Qed.

End Request.

(** ** Instances of the properties of written values, and behaviours worth knowing *)
Local Open Scope string_scope.
Local Open Scope list_scope.
Local Open Scope Z_scope.

(** A writable scalar of type [t], with the maximum 10, whose set value is [x]. *)
Definition ex_wbase (nm : string) (t : CmdArgType) : Attribute :=
  mkAttribute (mkInfo nm nm t SCALAR 1 0 [] false 0) ATTR_VALID no_bits None (1, 0) 0 None no_bits
    (mkQuad (I 0) (I 0) (I 0) (I 0)) (mkQuad "" "" "" "") false [] 0 false [] true false.
Definition ex_wattr (nm : string) (t : CmdArgType) (x : WElt) : WAttribute :=
  mkWAttribute (ex_wbase nm t) READ_WRITE (I 0) (I 10) false true (1, 0) x x [] [x] false (mkTimeVal 0 0 0) 0 (I 0) false MemNotUsed false false.
Definition ex_short_attr (nm : string) (x : Z) : WAttribute := ex_wattr nm DEV_SHORT (EltNum (I x)).
Definition ex_put (nm : string) (x : Z) : AttrValue := mkAttrValue nm 1 0 (mkWValue DEV_SHORT [EltNum (I x)]).
Definition ex_wdev (l : list WAttribute) : WDev := mkWDev l ON false [].
Definition ex_write (i : nat) (w : WAttribute) : option (WAttribute * user_result) := Some (w, Done).
(** The use of the member a union does not hold has no defined result. *)
Definition no_member (v : WValue) (t : CmdArgType) : outcome (list WElt) := Undef.
Definition ex_request_with (other : WValue → CmdArgType → outcome (list WElt)) (allowed : bool) (hw : user_result) (values : list AttrValue) :
    SM WDev (list NamedDevError) :=
  write_attributes_34 5 false false (Ok tt) (λ _, Ok allowed) ex_write (λ _, hw) (λ _, Ok tt) (mkTimeVal 0 0 0) other values.
Abbreviation ex_request := (ex_request_with no_member).
(** What is kept of a run: the indexes of the errors, the set and the last written values,
    and the calls. *)
Definition outcome_of (r : option (WDev * (exn + list NamedDevError))) : option (list nat * list (WElt * list WElt) * list DevCall) :=
  match r with
  | Some (s, inr errs) => Some (ne_index <$> errs, (λ w, (write_val w, written w)) <$> w_attrs s, calls s)
  | _ => None
  end.

Definition ex_two : WDev := ex_wdev [ex_short_attr "current" 1; ex_short_attr "speed" 2].
Definition ex_values : list AttrValue := [ex_put "Current" 7; ex_put "speed" 50].
Definition ex_V (a : AttIdx) : AttrValue := nth (idx_in_names a) ex_values (ex_put "" 0).
Definition ex_W (a : AttIdx) : WAttribute := nth (idx_in_multi_attr a) (w_attrs ex_two) (ex_short_attr "" 0).

Lemma ex_write_request :
  write_request 5 false (Ok tt) (λ _, Ok true) ex_write (λ _, Done) (λ _, Ok tt) ex_values ex_V ex_W (λ _, Done) ex_two.
Proof.
  split; try done.
  - change (NoDup [0%nat; 1%nat]). apply NoDup_cons. split; [by intros H%list_elem_of_singleton|apply NoDup_singleton].
  - apply Forall_forall. intros a Ha. change (found ex_two ex_values 0) with [mkAttIdx 0 0; mkAttIdx 1 1] in Ha.
    apply elem_of_cons in Ha as [->|Ha]; [|apply list_elem_of_singleton in Ha as ->]; by repeat split.
Qed.

Lemma written_value_checked_witness :
  check_written_value false (mkWValue DEV_SHORT [EltNum (I 7)]) 1 0 (ex_short_attr "current" 1) =
    Some (stored (ex_short_attr "current" 1) (mkWValue DEV_SHORT [EltNum (I 7)]) 1 0, inr tt).
Proof.
  apply (written_value_checked false (mkWValue DEV_SHORT [EltNum (I 7)]) 1 0 (ex_short_attr "current" 1)).
  split; [reflexivity|discriminate].
Defined.

(** ** Behaviours of the code *)

(** When the first value of a request is refused, the loop that checks the values stops:
    the others are neither checked nor set, but their attributes are written, with their old
    set value, and the new value is kept as the one last written. *)
Example first_refused_unchecked :
  outcome_of (ex_request true Done [ex_put "current" 50; ex_put "speed" 5] ex_two) =
    Some ([0%nat], [(EltNum (I 1), [EltNum (I 1)]); (EltNum (I 2), [EltNum (I 5)])],
          [HookCall; WriteCall 1 (EltNum (I 2)) []; HardwareCall [1%nat]]).
Proof. vm_compute. reflexivity. Qed.
(** A value over the limit gets through in the same way. *)
Example first_refused_limit :
  outcome_of (ex_request true Done [ex_put "current" 50; ex_put "speed" 500] ex_two) =
    Some ([0%nat], [(EltNum (I 1), [EltNum (I 1)]); (EltNum (I 2), [EltNum (I 500)])],
          [HookCall; WriteCall 1 (EltNum (I 2)) []; HardwareCall [1%nat]]).
Proof. vm_compute. reflexivity. Qed.

(** Also a value of another type, which is then copied as if it had the type of the attribute:
    the accessor of a member that a union does not hold has no defined result. *)
Definition ex_other_type : list AttrValue := [ex_put "current" 50; mkAttrValue "speed" 1 0 (mkWValue DEV_STRING [EltString "fast"])].
Example first_refused_type : ex_request true Done ex_other_type ex_two = None.
Proof. vm_compute. reflexivity. Qed.

(** A byte does not go back to its old set value: a string of the attribute is freed
    instead, and the second time the program frees it again. *)
Definition ex_byte_put (x : Z) : AttrValue := mkAttrValue "byte" 1 0 (mkWValue DEV_UCHAR [EltNum (I x)]).
Definition ex_byte : WDev := ex_wdev [ex_wattr "byte" DEV_UCHAR (EltNum (I 1))].
Definition state_after (r : option (WDev * (exn + list NamedDevError))) : WDev := match r with Some (s, _) => s | None => ex_wdev [] end.
Example uchar_not_rolled_back :
  let r := ex_request false Done [ex_byte_put 7] ex_byte in
  outcome_of r = Some ([0%nat], [(EltNum (I 7), [EltNum (I 1)])], [HookCall; HardwareCall []]) ∧
  ex_request false Done [ex_byte_put 8] (state_after r) = None.
Proof. vm_compute. auto. Qed.

(** An encoded attribute that is not allowed ends the whole request with another error,
    thrown by the handler, and what was written before it is not kept. *)
Definition ex_enc : WElt := EltEncoded "raw" [I 1].
Example encoded_rollback_throws :
  let d := ex_wdev [ex_wattr "enc" DEV_ENCODED ex_enc] in
  match ex_request false Done [mkAttrValue "enc" 1 0 (mkWValue DEV_ENCODED [ex_enc])] d with
  | Some (_, inl (DevFailed [e])) => reason e = "API_NotSupportedFeature"
  | _ => False
  end.
Proof. vm_compute. reflexivity. Qed.

(** A [MultiDevFailed] of [write_attr_hardware] that names an attribute that is not in the
    request makes the code erase the end of a vector. *)
Example unknown_failed_name : ex_request true (MultiFailed [("other", [])]) [ex_put "speed" 5] ex_two = None.
Proof. vm_compute. reflexivity. Qed.

(** A scalar written with an empty sequence is read out of bounds. *)
Example scalar_without_value :
  ex_request true Done [mkAttrValue "speed" 0 0 (mkWValue DEV_SHORT [])] ex_two = None.
Proof. vm_compute. reflexivity. Qed.
