(* ===== verification/WriteTypes.v ===== *)
(** * The types of the values of the writable attributes

  A value of an attribute (its set value, the one before it, and the value last written)
  is made of elements of the type of the attribute.  A request that writes attributes
  keeps this, whatever its values, its errors and its exceptions: the code copies data
  without a test of its type, after checks that a request may skip. *)
From S2P Require Import Prelude StateExn CppString PollRing AttrHistory Number Attribute DevState WAttribute WriteAttrs WriteTheory.
Local Open Scope string_scope.
Local Open Scope list_scope.
Local Open Scope Z_scope.

(** ** Steps that keep a predicate

  From [st], [m] leads to a state with [P] when it ends, by a value or by an exception. *)

Section Keeps.
Context {S : Type} (P : S → Prop).
Definition to_good {A} (st : S) (m : SM S A) : Prop := ∀ st' r, m st = Some (st', r) → P st'.
Definition good_step {A} (m : SM S A) : Prop := ∀ st, P st → to_good st m.

Lemma good_bind {A B} st (m : SM S A) (f : A → SM S B) :
  to_good st m → (∀ st' a, m st = Some (st', inr a) → P st' → to_good st' (f a)) → to_good st (m ≫= f).
Proof.
  intros Hm Hf st' r. unfold mbind, SM_bind. destruct (m st) as [[s1 [e|a]]|] eqn:E; [| |done].
  - intros [= <- <-]. by eapply Hm.
  - intros H. eapply Hf; [done| |exact H]. by eapply Hm.
Qed.
Lemma good_step_bind {A B} (m : SM S A) (f : A → SM S B) : good_step m → (∀ a, good_step (f a)) → good_step (m ≫= f).
Proof. intros Hm Hf st Hst. apply good_bind; [by apply Hm|]. intros st' a _ H. by apply (Hf a). Qed.
Lemma good_get {B} (f : S → SM S B) : (∀ st, P st → to_good st (f st)) → good_step (get ≫= f).
Proof. intros H st Hst. apply good_bind; [by intros ? ? [= <- <-]|]. intros st' a [= <- <-]. by apply H. Qed.
Lemma good_reads {A} (m : SM S A) : reads m → good_step m.
Proof. intros Hm st Hst st' r H. by rewrite (Hm _ _ _ H). Qed.
Lemma good_after {A B} st (m : SM S A) (f : A → SM S B) :
  reads m → P st → (∀ a, m st = Some (st, inr a) → to_good st (f a)) → to_good st (m ≫= f).
Proof.
  intros Hm Hst Hf. apply good_bind; [by apply good_reads|]. intros st' a E _. pose proof (Hm _ _ _ E) as ->. by apply Hf.
Qed.
Lemma good_modify (f : S → S) : (∀ st, P st → P (f st)) → good_step (modify f).
Proof. intros Hf st Hst st' r [= <- _]. by apply Hf. Qed.
Lemma good_when b (m : SM S unit) : good_step m → good_step (when_ b m).
Proof. intros H. destruct b; [done|]. apply good_reads, reads_ret. Qed.
Lemma good_attempt {A} (m : SM S A) : good_step m → good_step (attempt m).
Proof.
  intros Hm st Hst st' r. unfold attempt. destruct (m st) as [[s1 [[l|n]|a]]|] eqn:E; [..|done]; intros [= <- _]; by eapply Hm.
Qed.
End Keeps.
Create HintDb good.
#[export] Hint Resolve reads_ret reads_get reads_throw reads_lift good_attempt : good.
#[export] Hint Extern 5 (good_step _ _) => apply good_reads : good.
(** The steps that keep [P] by their shape. *)
Ltac good :=
  repeat match goal with
  | |- good_step _ (_ ≫= _) => apply good_step_bind; [|intros]
  | |- good_step _ (when_ _ _) => apply good_when
  | |- good_step _ (if ?b then _ else _) => destruct b eqn:?
  | |- good_step _ (match ?x with _ => _ end) => destruct x eqn:?
  | |- good_step _ _ => solve [eauto 3 with good]
  end.

(** ** The elements of a type *)

Definition elt_typed (t : CmdArgType) (e : WElt) : Prop :=
  match e with
  | EltNum n => is_numeric t && has_type t n = true
  | EltBool _ => t = DEV_BOOLEAN
  | EltString _ => t = DEV_STRING
  | EltState _ => t = DEV_STATE
  | EltEncoded _ l => t = DEV_ENCODED ∧ Forall (λ n, has_type DEV_UCHAR n = true) l
  end.
(** The type of the elements of an attribute. *)
Definition att_elt_type (w : WAttribute) : CmdArgType := elt_type (data_type (info (base w))).
Record att_typed (w : WAttribute) : Prop := {
  ty_set : elt_typed (att_elt_type w) (write_val w);
  ty_old : elt_typed (att_elt_type w) (old_val w);
  ty_ptr : Forall (elt_typed (att_elt_type w)) (write_value_ptr w);
  ty_written : Forall (elt_typed (att_elt_type w)) (written w);
}.
(** The elements of a union are of its type. *)
Definition value_typed (v : WValue) : Prop := Forall (elt_typed (v_type v)) (v_seq v).
Definition dev_typed (s : WDev) : Prop := Forall att_typed (w_attrs s).

(** ** The methods of an attribute *)

Lemma typed_same w w' :
  att_elt_type w' = att_elt_type w → write_val w' = write_val w → old_val w' = old_val w → write_value_ptr w' = write_value_ptr w →
  written w' = written w → att_typed w → att_typed w'.
Proof. intros Ht H1 H2 H3 H4 []. split; by rewrite Ht, ?H1, ?H2, ?H3, ?H4. Qed.
(** The checks leave the attribute as it is. *)
Ltac reads :=
  repeat match goal with
  | |- reads (_ ≫= _) => apply reads_bind; [|intros]
  | |- reads (when_ _ _) => apply reads_when
  | |- reads (if ?b then _ else _) => destruct b
  | |- reads (match ?x with _ => _ end) => destruct x
  | |- reads _ => solve [eauto 2 with good]
  end.
Lemma check_limits_reads nan seq : reads (check_data_limits nan seq).
Proof.
  assert (∀ A m, reads (outside (A := A) m)) as Ho by (intros; unfold outside; reads).
  assert (∀ b i x, reads (check_elt b i x)) as He by (intros; unfold check_elt; reads).
  assert (∀ b l i, reads (check_elts b l i)) as Hl.
  { intros b l. induction l as [|x' l IH]; intros i; cbn [check_elts]; reads. }
  assert (∀ m l i, reads (check_enum m l i)) as Hn.
  { intros m l. induction l as [|x' l IH]; intros i; cbn [check_enum]; reads. }
  assert (∀ l i, reads (check_bytes l i)) as Hb.
  { intros l. induction l as [|x' l IH]; intros i; cbn [check_bytes]; reads. }
  assert (∀ l i, reads (check_encoded_elts l i)) as Hc.
  { intros l. induction l as [|[] l IH]; intros i; cbn [check_encoded_elts]; reads. }
  unfold check_data_limits. reads.
Qed.
Lemma check_length_reads n x y : reads (check_length n x y).
Proof. unfold check_length. reads. Qed.

(** The set value comes from data of the type of the attribute. *)
Lemma set_vals_typed d x old ptr w :
  att_typed w → elt_typed (att_elt_type w) x → elt_typed (att_elt_type w) old → Forall (elt_typed (att_elt_type w)) ptr →
  att_typed (set_vals d x old ptr w).
Proof. intros []. by split. Qed.
Lemma update_typed nan seq x y w :
  att_typed w → Forall (elt_typed (att_elt_type w)) seq → to_good att_typed w (update_internal_sequence nan seq x y).
Proof.
  intros Hw Hs. unfold update_internal_sequence.
  apply good_after; [apply check_length_reads|done|]. intros [] _. apply good_after; [apply check_limits_reads|done|]. intros [] _.
  apply good_after; [apply reads_get|done|]. intros w' [= <-]. destruct (bool_decide _).
  - apply good_after; [apply reads_lift|done|]. intros new [_ Hnew]%run_lift. intros w' r [= <- _].
    destruct (seq !! 0%nat) as [e|] eqn:E; [|done]. injection Hnew as ->. apply set_vals_typed; [done| |apply Hw|done].
    by apply (proj1 (Forall_lookup _ _) Hs 0%nat).
  - intros w' r [= <- _]. apply set_vals_typed; [done|apply Hw|apply Hw|done].
Qed.
Lemma written_typed nan v x y : value_typed v → good_step att_typed (check_written_value nan v x y).
Proof.
  intros Hv w Hw. unfold check_written_value. apply good_after; [apply reads_get|done|]. intros w' [= <-].
  apply good_after; [reads|done|]. intros [] [Ht _]%run_guard. apply negb_false_iff, bool_decide_eq_true in Ht.
  apply update_typed; [done|]. unfold att_elt_type. rewrite <-Ht. exact Hv.
Qed.
Lemma same_typed (f : WAttribute → WAttribute) :
  (∀ w, att_elt_type (f w) = att_elt_type w ∧ write_val (f w) = write_val w ∧ old_val (f w) = old_val w ∧
    write_value_ptr (f w) = write_value_ptr w ∧ written (f w) = written w) → good_step att_typed (modify f).
Proof. intros Hf. apply good_modify. intros w. destruct (Hf w) as (? & ? & ? & ? & ?). by apply typed_same. Qed.
Lemma rollback_typed : good_step att_typed rollback.
Proof.
  intros w Hw. unfold rollback. apply good_after; [apply reads_get|done|]. intros w' [= <-].
  destruct (bool_decide _); [destruct (str_val_freed w); [done|]|].
  - by apply same_typed.
  - destruct (bool_decide _); [by intros w' r [= <- _]|]. intros w' r [= <- _]. apply set_vals_typed; [done|apply Hw..].
Qed.
(** The type of what C++ reads of a member is the one of this member. *)
Definition member_typed (other_member : WValue → CmdArgType → outcome (list WElt)) : Prop :=
  ∀ v t l, other_member v t = Ok l → Forall (elt_typed t) l.
Lemma written_kept w l : att_typed w → Forall (elt_typed (att_elt_type w)) l → att_typed (set_written l w).
Proof. intros [] Hl. by split. Qed.
Lemma copy_typed other v : member_typed other → value_typed v → good_step att_typed (copy_data other v).
Proof.
  intros Ho Hv w Hw. unfold copy_data. apply good_after; [apply reads_get|done|]. intros w' [= <-].
  destruct (bool_decide _); [by intros w' r [= <- _]|]. case_bool_decide as Ht.
  - intros w' r [= <- _]. apply written_kept; [done|]. unfold att_elt_type. rewrite <-Ht. exact Hv.
  - apply good_after; [apply reads_lift|done|]. intros l Hl w' r [= <- _]. apply written_kept; [done|].
    apply (Ho v). unfold lift in Hl. by destruct (other v _); simplify_eq.
Qed.
Lemma keep_typed now other v : member_typed other → value_typed v → good_step att_typed (keep_value now other v).
Proof. intros Ho Hv. unfold keep_value. pose proof (copy_typed other v Ho Hv). good; by apply same_typed. Qed.
(** The methods the code of the user calls. *)
Lemma set_write_value_typed nan other v x y : member_typed other → value_typed v → good_step att_typed (set_write_value_any nan other v x y).
Proof.
  intros Ho Hv. unfold set_write_value_any. pose proof (written_typed nan v x y Hv). pose proof (copy_typed other v Ho Hv). good.
  by apply same_typed.
Qed.

(** ** The request *)

Lemma on_w_good {A} i (m : SM WAttribute A) : good_step att_typed m → good_step dev_typed (on_w i m).
Proof.
  intros Hm s Hs s' r. unfold on_w. destruct (w_attrs s !! i) as [w|] eqn:E; [|done].
  destruct (m w) as [[w' r']|] eqn:Em; [|done]. intros [= <- _]. unfold dev_typed. apply Forall_insert; [done|].
  eapply Hm; [|exact Em]. by apply (proj1 (Forall_lookup _ _) Hs i).
Qed.
Lemma no_change (f : WDev → WDev) : (∀ s, w_attrs (f s) = w_attrs s) → good_step dev_typed (modify f).
Proof. intros Hf. apply good_modify. unfold dev_typed. intros s. by rewrite Hf. Qed.

Section Request.
Context (vers : Z) (nan use_db : bool) (hook : outcome unit)
  (is_allowed : nat → outcome bool) (write : nat → WAttribute → option (WAttribute * user_result))
  (write_attr_hardware : list nat → user_result) (put_props : list (string * option WElt) → outcome unit) (now : TimeVal)
  (other_member : WValue → CmdArgType → outcome (list WElt)) (values : list AttrValue).
(** The values of the request are unions, and the code of the user changes an attribute
    through its methods. *)
Context (values_typed : Forall (λ v, value_typed (av_value v)) values)
  (write_typed : ∀ i w w' r, att_typed w → write i w = Some (w', r) → att_typed w') (other_typed : member_typed other_member).

#[local] Set Default Proof Using "All".
Lemma the_value_typed a v (s s' : WDev) : lift (the_value values a) s = Some (s', inr v) → value_typed (av_value v).
Proof.
  intros [_ Hv]%run_lift. unfold the_value in Hv. destruct (values !! idx_in_names a) as [v'|] eqn:E; [|done].
  injection Hv as ->. by apply (proj1 (Forall_lookup _ _) values_typed _ _ E).
Qed.
Lemma with_value {B} a (f : AttrValue → SM WDev B) :
  (∀ v, value_typed (av_value v) → good_step dev_typed (f v)) → good_step dev_typed (v ← lift (the_value values a); f v).
Proof.
  intros Hf s Hs. apply good_after; [apply reads_lift|done|]. intros v Hv. apply Hf; [|done]. by eapply the_value_typed.
Qed.
Lemma undo_typed i : good_step dev_typed (undo i).
Proof. unfold undo. pose proof (on_w_good i _ rollback_typed). good. Qed.
Hint Resolve undo_typed : good.
Lemma find_typed : ∀ l k, good_step dev_typed (find_attrs l k).
Proof.
  assert (∀ v, good_step dev_typed (check_writable v)) as Hc.
  { intros v. unfold check_writable, get_attr_ind_by_name, throw_startup_exception. good. }
  intros l. induction l as [|v l IH]; intros k; cbn [find_attrs]; good.
Qed.
Lemma check_values_typed : ∀ fuel k l, good_step dev_typed (check_values nan values fuel k l).
Proof.
  assert (∀ a, good_step dev_typed (check_value nan values a)) as Hc.
  { intros a. unfold check_value. apply with_value. intros v Hv. by apply on_w_good, written_typed. }
  intros fuel. induction fuel as [|fuel IH]; intros k l; cbn [check_values]; good.
Qed.
Lemma write_one_typed i : good_step dev_typed (write_one is_allowed write i).
Proof.
  unfold write_one. apply good_step_bind; [apply on_w_good; by apply same_typed|]. intros _.
  intros s Hs. apply good_after; [apply reads_get|done|]. intros s' [= <-].
  apply good_after; [apply reads_lift|done|]. intros w [_ Hw]%run_lift.
  assert (att_typed w) as Hty.
  { destruct (w_attrs s !! i) as [w'|] eqn:E; [|done]. injection Hw as ->. by apply (proj1 (Forall_lookup _ _) Hs i). }
  match goal with |- to_good _ _ ?m => assert (good_step dev_typed m) as H; [|by apply H] end. clear Hw Hs.
  destruct (is_allowed i) as [[]|[]|]; [|good..]. apply good_step_bind; [by apply no_change|]. intros _.
  destruct (write i w) as [[w' r]|] eqn:Ew; [|good]. assert (att_typed w') as Hw' by (by eapply write_typed).
  apply good_step_bind; [apply good_modify; intros s1 Hs; by apply Forall_insert|]. intros _. destruct r; good.
  - by apply on_w_good, same_typed.
  - by apply no_change.
Qed.
Hint Resolve find_typed check_values_typed write_one_typed : good.
Lemma write_each_typed l : good_step dev_typed (write_each is_allowed write values l).
Proof. induction l as [|a l IH]; cbn [write_each]; good. Qed.
Lemma write_hardware_typed l : good_step dev_typed (write_hardware vers write_attr_hardware l).
Proof.
  assert (∀ l u, good_step dev_typed (named_failures l u)) as Hn.
  { intros l'. induction l' as [|[nm e] l' IH]; intros u; cbn [named_failures]; good. }
  assert (∀ e u l, good_step dev_typed (all_failed e u l)) as Ha.
  { intros e u l'. induction l' as [|a l' IH]; cbn [all_failed]; good. }
  unfold write_hardware. destruct (4 <=? vers); [|good]. apply good_step_bind; [by apply no_change|]. intros _. destruct (write_attr_hardware _); good.
Qed.
Lemma keep_values_typed l : good_step dev_typed (keep_values now other_member values l).
Proof.
  induction l as [|a l IH]; cbn [keep_values]; [good|]. apply with_value. intros v Hv.
  apply good_step_bind; [by apply on_w_good, keep_typed|]. intros b. good.
Qed.
Lemma save_typed l : good_step dev_typed (save_values use_db put_props values l).
Proof.
  unfold save_values. assert (good_step dev_typed (write_attributes_in_db put_props l)) as Hw.
  { unfold write_attributes_in_db. good. by apply no_change. }
  good.
Qed.
Hint Resolve write_each_typed write_hardware_typed keep_values_typed save_typed : good.

End Request.

(** The request whose first value is refused, so that the second one, a text for an
    attribute of type [short], is kept without a check; the accessor gives an empty list. *)
Definition ex_unchecked : option (WDev * (exn + list NamedDevError)) := ex_request_with (λ _ _, Ok []) true Done ex_other_type ex_two.
Lemma ex_two_typed : dev_typed ex_two.
Proof. repeat constructor. Qed.
