(* ===== verification/ReadAttrs.v ===== *)
(** * Reading attributes (src/src/server/device_3.cpp)

  [Device_3Impl::read_attributes_no_except], the request of a client that reads several
  attributes of a device: the attributes are looked up, the hardware is read, the code of
  the user reads each attribute, the attributes that are only written answer their set
  value, and the answers are built.  An attribute that fails has its errors in its answer.
  The mutex of an attribute is taken before it is read, and is released when it fails or
  given to its answer, which is sent later.  The code of the user is a parameter; the
  sub-device diagnostics and the telemetry are not modelled. *)
From S2P Require Import Prelude StateExn CppString PollRing AttrHistory Number Attribute DevState WAttribute WriteAttrs.
Local Open Scope string_scope.
Local Open Scope list_scope.
Local Open Scope Z_scope.

(** ** Data *)

Inductive AttrSerialModel := ATTR_NO_SYNC | ATTR_BY_KERNEL | ATTR_BY_USER.
#[export] Instance AttrSerialModel_eq : EqDecision AttrSerialModel.
Proof. solve_decision. Defined.

(** The mutex that the serial model of an attribute uses: it may be held by the request,
    or by the answer of an index. *)
Inductive AttrMutex := MutexFree | MutexLocked | MutexGiven (index : nat).
#[export] Instance AttrMutex_eq : EqDecision AttrMutex.
Proof. solve_decision. Defined.

(** An attribute of the device: the members that only a request that reads uses. *)
Record RAttr := mkRAttr {
  watt : WAttribute;
  assoc_ind : nat;
  attr_serial_model : AttrSerialModel;
  attr_mutex : AttrMutex;
  att_when : TimeVal;
  old_quality : AttrQuality;
  old_alarm : bits;
  mem_exception : DevErrorList;
}.
Implicit Types x : RAttr.
Definition set_watt w x := mkRAttr w (assoc_ind x) (attr_serial_model x) (attr_mutex x) (att_when x) (old_quality x) (old_alarm x) (mem_exception x).
Definition set_mutex m x := mkRAttr (watt x) (assoc_ind x) (attr_serial_model x) m (att_when x) (old_quality x) (old_alarm x) (mem_exception x).
Definition set_when t x := mkRAttr (watt x) (assoc_ind x) (attr_serial_model x) (attr_mutex x) t (old_quality x) (old_alarm x) (mem_exception x).
Definition save_alarm_quality x :=
  mkRAttr (watt x) (assoc_ind x) (attr_serial_model x) (attr_mutex x) (att_when x) (quality (base (watt x))) (alarm (base (watt x))) (mem_exception x).

Definition att_of x : Attribute := base (watt x).
(** What an attribute has written is a part of the [WAttribute]. *)
Definition set_wpart o (a : Attribute) : Attribute :=
  mkAttribute (info a) (quality a) (alarm a) (attribute_value a) (dims a) (data_size a) o (alarm_conf a) (limits a) (limit_strs a) (check_startup_exceptions a) (startup_exceptions a) (conf_events a) (run_att_conf_loop a) (db_requests a) (date a) (att_mem_exception a).
Definition set_att a x : RAttr := set_watt (set_base (set_wpart (wpart (att_of x)) a) (watt x)) x.
Definition att_name x : string := name (info (att_of x)).
(** The class of the object: a [WAttribute] (or a [FwdAttribute], which is one too). *)
Definition is_WAttribute x : bool :=
  bool_decide (writable (watt x) = WRITE) || bool_decide (writable (watt x) = READ_WRITE) || is_fwd_att (info (att_of x)).
(** The attribute as its alarms see it, with the value last written if it has one. *)
Definition alarm_att x : Attribute := if is_WAttribute x then as_attribute (watt x) else att_of x.

(** What an answer holds: what is read, followed by what was last written; or what the
    polling has stored. *)
Inductive NetData :=
  | NoData
  | AttData (read : Storage) (set : list WElt)
  | PolledData (u : AttrValUnion WElt)
  | StateData (st : DevState)
  | StatusData (text : string).

(** An element of [AttributeValueList_3], [_4] or [_5]: the first has neither a format nor a
    type, the second no type. *)
Inductive Idl := Data3 | Data4 | Data5.
#[export] Instance Idl_eq : EqDecision Idl.
Proof. solve_decision. Defined.
Record NetValue := mkNet {
  net_name : string;
  net_errs : DevErrorList;
  net_quality : AttrQuality;
  net_time : TimeVal;
  net_r_dim : Z * Z;
  net_w_dim : Z * Z;
  net_data : NetData;
  net_format : AttrDataFormat;
  net_type : CmdArgType;
}.
Implicit Types v : NetValue.
Definition set_net_data d v := mkNet (net_name v) (net_errs v) (net_quality v) (net_time v) (net_r_dim v) (net_w_dim v) d (net_format v) (net_type v).
Definition set_net_format f v := mkNet (net_name v) (net_errs v) (net_quality v) (net_time v) (net_r_dim v) (net_w_dim v) (net_data v) f (net_type v).
Definition set_net_type t v := mkNet (net_name v) (net_errs v) (net_quality v) (net_time v) (net_r_dim v) (net_w_dim v) (net_data v) (net_format v) t.
(** The members every version has. *)
Definition set_net_head nm q t r w v := mkNet nm (net_errs v) q t r w (net_data v) (net_format v) (net_type v).
Definition set_net_errs l v := mkNet (net_name v) l (net_quality v) (net_time v) (net_r_dim v) (net_w_dim v) (net_data v) (net_format v) (net_type v).
Definition with_format (idl : Idl) (f : AttrDataFormat) (t : CmdArgType) v : NetValue :=
  match idl with
  | Data3 => v
  | Data4 => set_net_format f v
  | Data5 => set_net_type t (set_net_format f v)
  end.

(** [clear_att_dim], for each version. *)
Definition clear_att_dim (idl : Idl) v : NetValue :=
  with_format idl FMT_UNKNOWN DEV_VOID (set_net_head (net_name v) (net_quality v) (net_time v) (0, 0) (0, 0) v).
(** [error_from_devfailed] and [error_from_errorlist], and [one_error]. *)
Definition error_from_devfailed (idl : Idl) (l : DevErrorList) (nm : string) v : NetValue :=
  clear_att_dim idl (set_net_errs l (set_net_head nm ATTR_INVALID (net_time v) (net_r_dim v) (net_w_dim v) v)).
Definition one_error (idl : Idl) (reas ori mess nm : string) v : NetValue :=
  error_from_devfailed idl [mkDevError reas ERR mess ori] nm v.

(** [init_out_data]; [w_dim] is that of the associated attribute when there is one. *)
Definition init_out_data x (w_dim : option (Z * Z)) v : NetValue :=
  set_net_head (att_name x) (quality (att_of x)) (att_when x) (dims (att_of x))
    (match w_dim with
     | Some d => d
     | None => if bool_decide (writable (watt x) = WRITE) then dims (att_of x) else (0, 0)
     end) v.
Definition init_out_data_quality x (qual : AttrQuality) v : NetValue :=
  set_net_head (att_name x) qual (att_when x) (0, 0) (0, 0) v.

(** [state2attr] and [status2attr]. *)
Definition base_state2attr (nm : string) (now : TimeVal) v : NetValue := set_net_head nm ATTR_VALID now (1, 0) (0, 0) v.
Definition state2attr (idl : Idl) (now : TimeVal) (st : DevState) v : NetValue :=
  with_format idl SCALAR DEV_STATE (set_net_data (StateData st) (base_state2attr "State" now v)).
Definition status2attr (idl : Idl) (now : TimeVal) (text : string) v : NetValue :=
  with_format idl SCALAR DEV_STRING (set_net_data (StatusData text) (base_state2attr "Status" now v)).

(** What the request asks of the code of the user, in order. *)
Inductive ReadCall := RHook | RHardware (l : list nat) | RRead (i : nat).

(** The device and the answers.  The attributes of [r_core] are those of [r_atts]. *)
Record RDev := mkRDev { r_atts : list RAttr; r_core : DevSt; back : list NetValue; r_calls : list ReadCall }.
Implicit Types s : RDev.
Definition set_r_atts l s := mkRDev l (r_core s) (back s) (r_calls s).
Definition set_r_core c s := mkRDev (r_atts s) c (back s) (r_calls s).
Definition set_back l s := mkRDev (r_atts s) (r_core s) l (r_calls s).
Definition rcall c s := mkRDev (r_atts s) (r_core s) (back s) (r_calls s ++ [c]).

(** ** Access to the attributes and to the answers *)

(** [get_attr_by_ind] and a method of the attribute. *)
Definition attr_at (j : nat) : SM RDev RAttr := s ← get; lift (deref (r_atts s !! j)).
Definition on_r {A} (j : nat) (m : SM RAttr A) : SM RDev A := λ s,
  match r_atts s !! j with
  | Some x => match m x with Some (x, r) => Some (set_r_atts (<[j := x]> (r_atts s)) s, r) | None => None end
  | None => None
  end.
Definition on_att {A} (m : SM Attribute A) : SM RAttr A := λ x,
  match m (alarm_att x) with Some (a, r) => Some (set_att a x, r) | None => None end.
(** A method of the device, on the state of [DevState]. *)
Definition with_core {A} (m : SM DevSt A) : SM RDev A := λ s,
  match m (set_attrs (alarm_att <$> r_atts s) (r_core s)) with
  | Some (c, r) => Some (set_r_core c (set_r_atts (zip_with set_att (attr_list c) (r_atts s)) s), r)
  | None => None
  end.
Definition put_back (i : nat) (f : NetValue → NetValue) : SM RDev unit :=
  s ← get; v ← lift (deref (back s !! i)); modify (set_back (<[i := f v]> (back s))).
Fixpoint for_list {S A} (m : A → SM S unit) (l : list A) : SM S unit :=
  match l with [] => mret tt | y :: l => m y;; for_list m l end.
(** A block of which every exception is caught. *)
Definition catch_all {S A} (m : SM S A) : SM S (exn + A) := λ st,
  match m st with Some (st, r) => Some (st, inr r) | None => None end.

Definition is_att_name (nm : string) x : Prop := tolower (att_name x) = tolower nm.
#[export] Instance is_att_name_dec nm x : Decision (is_att_name nm x).
Proof. unfold is_att_name. apply _. Defined.
Definition att_index (nm : string) : SM RDev nat :=
  s ← get;
  match list_find (is_att_name nm) (r_atts s) with
  | Some (j, _) => mret j
  | None => throw "API_AttrNotFound" (nm +:+ " attribute not found") "MultiAttribute::get_attr_ind_by_name"
  end.

(** ** The mutex of an attribute *)

(** Taking a mutex the request already holds never ends; releasing one it does not hold
    has no meaning. *)
Definition lock_mutex : SM RAttr unit :=
  x ← get; if bool_decide (attr_mutex x = MutexFree) then modify (set_mutex MutexLocked) else lift Undef.
Definition unlock_mutex : SM RAttr unit :=
  x ← get; if bool_decide (attr_mutex x = MutexLocked) then modify (set_mutex MutexFree) else lift Undef.
(** [GIVE_ATT_MUTEX] and the like: the answer [index] releases the mutex. *)
Definition give_mutex (index : nat) : SM RAttr unit :=
  x ← get; if bool_decide (attr_mutex x = MutexLocked) then modify (set_mutex (MutexGiven index)) else lift Undef.
Definition has_mutex (idl : Idl) : bool := negb (bool_decide (idl = Data3)).

(** ** The set value of an attribute *)

(** [Attribute::set_value] for the data without an order. *)
Definition set_value_other (p_data : option (list WElt)) (x y : Z) : SM Attribute unit :=
  l ← new_value p_data x y;
  modify (λ a, set_alarm no_bits (set_storage (Some (OtherSeq (length l))) a)).
Definition num_elt (e : WElt) : option Num := match e with EltNum n => Some n | _ => None end.
Definition enc_elt (e : WElt) : option (string * list Num) := match e with EltEncoded f d => Some (f, d) | _ => None end.
(** The call of [set_value] for the type of the attribute. *)
Definition set_value_elts (l : list WElt) (x y : Z) : SM Attribute unit :=
  a ← get;
  let t := data_type (info a) in
  if bool_decide (t = DEV_SHORT) || bool_decide (t = DEV_ENUM) then
    nums ← lift (deref (mapM num_elt l)); set_value_short (Some nums) x y
  else if is_numeric t then nums ← lift (deref (mapM num_elt l)); set_value t (Some nums) x y
  else if bool_decide (t = DEV_ENCODED) then encs ← lift (deref (mapM enc_elt l)); set_value_encoded (Some encs) x y
  else set_value_other (Some l) x y.
(** [WAttribute::set_rvalue]; the one of [Attribute] does nothing. *)
Definition set_rvalue (now : TimeVal) : SM RAttr unit :=
  x ← get;
  when_ (is_WAttribute x)
    (let w := watt x in
     let a := att_of x in
     (if bool_decide (data_format (info a) = SCALAR) || bool_decide (data_type (info a) = DEV_ENCODED)
      then on_att (set_value_elts [write_val w] 1 0)
      else on_att (set_value_elts (written w) (fst (w_dim w)) (snd (w_dim w))));;
     when_ (date a) (modify (set_when now))).

(** ** The answer of an attribute *)

(** What the attribute has written last, and its size. *)
Definition last_written_elts (w : WAttribute) : list WElt :=
  if bool_decide (data_type (info (base w)) = DEV_ENCODED) then [write_val w] else written w.
Definition is_rw (t : AttrWriteType) : bool := bool_decide (t = READ_WRITE) || bool_decide (t = READ_WITH_WRITE).
(** [add_write_value] and [data_into_net_object]: of the encoded data of an attribute only
    the first is sent.  The sequence of the attribute is freed. *)
Definition sequence_sent (set : list WElt) (storage : Storage) : outcome NetData :=
  match storage with
  | Encoded l => x ← deref (l !! 0%nat); Ok (AttData (Encoded [x]) set)
  | _ => Ok (AttData storage set)
  end.
Definition not_encoded_error : DevErrorList :=
  [mkDevError "API_NotSupportedFeature" ERR "The DevEncoded data type is available only for device implementing IDL 4 and above" "DeviceImpl::data_into_net_object"].

(** ** The steps of [read_attributes_no_except] *)

(** An attribute to read: its place in the request, and its index, which the state and the
    status do not have. *)
Record ReadIdx := mkRIdx { r_idx_in_names : nat; r_idx : option nat }.

(** What the code of the user leaves when it reads an attribute: the attribute, the date it
    gives to the value, whether it has taken its mutex, and how it ends. *)
Record UserRead := mkUserRead { ur_att : Attribute; ur_when : option TimeVal; ur_locked : bool; ur_end : exn + unit }.

Definition mem_failed_error (x : RAttr) : DevErrorList :=
  mem_exception x ++
  [mkDevError "API_MemAttFailedDuringInit" ERR
     ("Attribute " +:+ att_name x +:+ " is a memorized attribute. It failed during the write call of the device startup sequence")
     "Device_3Impl::read_attributes_no_except"].
(** The errors of an exception that reading an attribute throws. *)
Definition errors_of (e : exn) : DevErrorList :=
  match e with
  | DevFailed l => l
  | OtherExc _ =>
      [mkDevError "API_CorbaSysException" ERR "Unforseen exception when trying to read attribute. It was even not a Tango DevFailed exception"
         "Device_3Impl::read_attributes_no_except"]
  end.

(** [Device_3Impl::add_alarmed]. *)
Fixpoint add_alarmed (alarmed_list att_list : list nat) : list nat :=
  match alarmed_list with
  | [] => att_list
  | i :: l => add_alarmed l (if bool_decide (i ∈ att_list) then att_list else att_list ++ [i])
  end.

Section Request.
(** The version of the client, the dates, and the code of the user: the hook called before,
    [is_allowed], [read_attr_hardware] and [read], the state and the status of the device
    ([kernel_state] is [DeviceImpl::dev_state], [user_state] what may replace it, and the
    same for the status). *)
Context (idl : Idl) (now : TimeVal) (now_ns : Z)
  (hook : SM DevSt unit) (is_allowed : nat → outcome bool) (read_attr_hardware : list nat → outcome unit)
  (read : nat → Attribute → option UserRead)
  (kernel_state user_state : SM DevSt DevState) (kernel_status user_status : SM DevSt string)
  (polled : list (string * Z)).
(** The names of the request, and, for a second try, the place of each in the answers. *)
Context (names : list string) (second_try : option (list nat)).

Definition back_index (i : nat) : outcome nat := match second_try with None => Ok i | Some idx => deref (idx !! i) end.
Definition put_error (i : nat) (l : DevErrorList) (nm : string) : SM RDev unit :=
  index ← lift (back_index i); put_back index (error_from_devfailed idl l nm).
Definition name_of (i : nat) : SM RDev string := lift (deref (names !! i)).

(** The last place of a name in the request. *)
Definition last_index (nm : string) : option nat :=
  fst <$> last (filter (λ p, tolower (snd p) = nm) (imap pair names)).
Definition state_idx : option nat := last_index "state".
Definition status_idx : option nat := last_index "status".

(** The look-up of a name: the attribute is to be read, to answer its set value, or both. *)
Definition prepare (j : nat) : SM RDev unit :=
  on_r j (modify (λ x, save_alarm_quality (set_when (mkTimeVal 0 (tv_usec (att_when x)) (tv_nsec (att_when x))) x))).
Definition look_up (i : nat) (nm : string) : SM RDev (list ReadIdx * list ReadIdx) :=
  j ← att_index nm;
  x ← attr_at j;
  when_ (check_startup_exceptions (att_of x))
    (throw "API_AttrConfig" (nl +:+ "-> Attribute : " +:+ att_name x) "Device_3Impl::read_attributes_no_except()");;
  let r := [mkRIdx i (Some j)] in
  if is_rw (writable (watt x)) then prepare j;; mret (r, r)
  else if bool_decide (writable (watt x) = WRITE) && negb (is_fwd_att (info (att_of x))) then mret ([], r)
  else prepare j;; mret (r, []).
Definition find_one (p : nat * string) : SM RDev (list ReadIdx * list ReadIdx) :=
  let '(i, nm) := p in
  if bool_decide (tolower nm = "state") || bool_decide (tolower nm = "status") then mret ([mkRIdx i None], [])
  else
    r ← attempt (look_up i nm);
    match r with
    | inr p => mret p
    | inl l => put_error i l nm;; mret ([], [])
    end.
Fixpoint find_all (l : list (nat * string)) : SM RDev (list ReadIdx * list ReadIdx) :=
  match l with
  | [] => mret ([], [])
  | p :: l => '(r, w) ← find_one p; '(rs, ws) ← find_all l; mret (r ++ rs, w ++ ws)
  end.

(** The reading of the hardware, with the attributes that the state looks at. *)
Definition read_hardware (wanted : list ReadIdx) : SM RDev unit :=
  s ← get;
  let l := omap r_idx wanted in
  let st := device_state (r_core s) in
  let l := if bool_decide (is_Some state_idx) && (bool_decide (st = ON) || bool_decide (st = ALARM))
           then add_alarmed (alarm_attr_list (r_core s)) l else l in
  when_ (negb (bool_decide (wanted = [])) && negb (bool_decide (l = [])))
    (modify (rcall (RHardware l));; lift (read_attr_hardware l)).

(** The reading of an attribute: the code of the user reads it, unless the attribute could
    not be given its memorized value, then its alarms are checked. *)
Definition by_kernel (x : RAttr) : bool := bool_decide (attr_serial_model x = ATTR_BY_KERNEL) && has_mutex idl.
Definition user_read (j : nat) : SM RAttr unit := λ x,
  match read j (att_of x) with
  | None => None
  | Some r =>
      let x := set_att (ur_att r) x in
      let x := match ur_when r with Some t => set_when t x | None => x end in
      let x := if bool_decide (attr_serial_model x = ATTR_BY_USER) && ur_locked r then set_mutex MutexLocked x else x in
      Some (x, ur_end r)
  end.
Definition check_read_alarm : SM RAttr unit :=
  x ← get;
  when_ (any (alarm_conf (att_of x)) && negb (bool_decide (quality (att_of x) = ATTR_INVALID)))
    (on_att (check_alarm now_ns);; mret tt).
Definition read_body (j : nat) : SM RAttr unit :=
  x ← get;
  when_ (by_kernel x) lock_mutex;;
  modify (λ x, set_watt (reset_read_value (watt x)) x);;
  (if att_mem_exception (att_of x) then lift (Exc (DevFailed (mem_failed_error x))) else user_read j);;
  check_read_alarm.
(** The handlers: only an attribute that is not allowed keeps [is_allowed_failed] true. *)
Definition read_error (j : nat) x (i : nat) (l : DevErrorList) (nm : string) : SM RDev unit :=
  on_r j (when_ (by_kernel x) unlock_mutex);; put_error i l nm.
(** One attribute.  An exception of [is_allowed] is handled as one of [read]: the mutex is
    released although it was not taken (see [is_allowed_unlocks]). *)
Definition read_one_att (r : ReadIdx) : SM RDev unit :=
  match r_idx r with
  | None => mret tt
  | Some j =>
      nm ← name_of (r_idx_in_names r);
      x ← attr_at j;
      match is_allowed j with
      | Ok false =>
          put_error (r_idx_in_names r)
            [mkDevError "API_AttrNotAllowed" ERR ("It is currently not allowed to read attribute " +:+ att_name x) "Device_3Impl::read_attributes_no_except"] nm
      | Ok true =>
          when_ (negb (att_mem_exception (att_of x))) (modify (rcall (RRead j)));;
          res ← catch_all (on_r j (read_body j));
          match res with
          | inr _ => mret tt
          | inl e => read_error j x (r_idx_in_names r) (errors_of e) nm
          end
      | Exc e => read_error j x (r_idx_in_names r) (errors_of e) nm
      | Undef => lift Undef
      end
  end.

(** The attributes that are only written answer their set value. *)
Definition uses_mutex (x : RAttr) : bool := negb (bool_decide (attr_serial_model x = ATTR_NO_SYNC)) && has_mutex idl.
Definition set_body : SM RAttr unit :=
  x ← get;
  if att_mem_exception (att_of x) then lift (Exc (DevFailed (mem_failed_error x)))
  else when_ (bool_decide (writable (watt x) = READ_WITH_WRITE) || bool_decide (writable (watt x) = WRITE)) (set_rvalue now).
Definition set_one_att (r : ReadIdx) : SM RDev unit :=
  match r_idx r with
  | None => mret tt
  | Some j =>
      nm ← name_of (r_idx_in_names r);
      x ← attr_at j;
      res ← attempt (on_r j set_body);
      match res with
      | inr _ => mret tt
      | inl l =>
          on_r j (when_ (uses_mutex x && bool_decide (writable (watt x) = READ_WITH_WRITE)) unlock_mutex);;
          put_error (r_idx_in_names r) l nm
      end
  end.

(** The state and the status: their errors are put at their place in the request, and not
    in the answers. *)
Definition set_from_read (b : bool) (c : DevSt) : DevSt :=
  mkDev (device_state c) (device_prev_state c) (alarm_state_user c) (alarm_state_kernel c) (attr_list c) (alarm_attr_list c) (dev_run_att_conf_loop c) (force_alarm_state c) (att_wrong_db_conf c) (att_mem_failed c) (fwd_att_wrong_conf c) b (alrmd_not_read c) (polled_attr c) (non_auto_polled_attr c).
Definition on_core (f : DevSt → DevSt) : SM RDev unit := modify (λ s, set_r_core (f (r_core s)) s).
Definition unless_forced {A} (forced usual : SM DevSt A) : SM RDev A :=
  s ← get; with_core (if force_alarm_state (r_core s) then forced else usual).
Definition read_state (wanted : list ReadIdx) : SM RDev DevState :=
  match state_idx with
  | None => mret UNKNOWN
  | Some i =>
      on_core (λ c, set_from_read true (alarmed_not_read (omap r_idx wanted) c));;
      res ← attempt (unless_forced kernel_state user_state);
      on_core (set_from_read false);;
      match res with
      | inr st => mret st
      | inl l => nm ← name_of i; put_back i (error_from_devfailed idl l nm);; mret UNKNOWN
      end
  end.
Definition read_status : SM RDev string :=
  match status_idx with
  | None => mret ""
  | Some i =>
      res ← attempt (unless_forced kernel_status user_status);
      match res with
      | inr text => mret text
      | inl l => nm ← name_of i; put_back i (error_from_devfailed idl l nm);; mret ""
      end
  end.

(** The answer of an attribute that has no value: the polling may be one the server fills. *)
Definition only_by_cache (nm : string) : bool :=
  match list_find (λ p, fst p = tolower nm) polled with Some (_, (_, upd)) => upd =? 0 | None => false end.
Definition not_set_text (nm : string) (x : RAttr) : string :=
  if only_by_cache nm then "Attribute " +:+ att_name x +:+ " value is available only by CACHE." +:+ nl +:+ "Attribute values are set by external polling buffer filling"
  else "Read value for attribute " +:+ att_name x +:+ " has not been updated".
Definition release_mutex (x : RAttr) : SM RAttr unit :=
  when_ (uses_mutex x && negb (bool_decide (writable (watt x) = WRITE))) unlock_mutex.
Definition stamp : SM RAttr unit := x ← get; when_ ((tv_sec (att_when x) =? 0) && date (att_of x)) (modify (set_when now)).

(** The answer of an attribute that has a value. *)
Definition build_value (j index : nat) : SM RDev unit :=
  x ← attr_at j;
  set ← (if is_rw (writable (watt x)) then
           y ← attr_at (assoc_ind x); mret (Some (last_written_elts (watt y), w_dim (watt y)))
         else mret None : SM RDev (option (list WElt * (Z * Z))));
  storage ← lift (deref (attribute_value (att_of x)));
  (if bool_decide (data_type (info (att_of x)) = DEV_ENCODED) && bool_decide (idl = Data3)
   then put_back index (error_from_devfailed idl not_encoded_error (att_name x))
   else
     d ← lift (sequence_sent (from_option fst [] set) storage);
     put_back index (set_net_data d);;
     on_r j (modify (λ x, set_att (delete_seq (att_of x)) x)));;
  on_r j (stamp;;
          when_ (uses_mutex x && (is_fwd_att (info (att_of x)) || negb (bool_decide (writable (watt x) = WRITE)))) (give_mutex index));;
  x ← attr_at j;
  put_back index (λ v, with_format idl (data_format (info (att_of x))) (data_type (info (att_of x))) (init_out_data x (snd <$> set) v)).
Definition build_att (i index : nat) (nm : string) : SM RDev unit :=
  j ← att_index nm;
  x ← attr_at j;
  let qual := quality (att_of x) in
  if bool_decide (qual = ATTR_INVALID) then
    on_r j (stamp;; release_mutex x);;
    x ← attr_at j;
    put_back index (λ v, with_format idl (data_format (info (att_of x))) (data_type (info (att_of x))) (init_out_data_quality x qual v))
  else if negb (value_is_set (att_of x)) then
    on_r j (release_mutex x);;
    put_back index (one_error idl "API_AttrValueNotSet" "Device_3Impl::read_attributes_no_except" (not_set_text nm x) (att_name x))
  else build_value j index.
Definition build_one (d_state : DevState) (d_status : string) (p : nat * string) : SM RDev unit :=
  let '(i, nm) := p in
  index ← lift (back_index i);
  s ← get;
  v ← lift (deref (back s !! index));
  let ok := bool_decide (net_errs v = []) in
  if bool_decide (state_idx = Some i) then when_ ok (put_back index (state2attr idl now d_state))
  else if bool_decide (status_idx = Some i) then when_ ok (put_back index (status2attr idl now d_status))
  else when_ ok (build_att i index nm).

Definition read_attributes_no_except : SM RDev unit :=
  let l := imap pair names in
  '(wanted, wanted_w) ← find_all l;
  modify (rcall RHook);; with_core hook;;
  read_hardware wanted;;
  for_list read_one_att wanted;;
  for_list set_one_att wanted_w;;
  d_state ← read_state wanted;
  d_status ← read_status;
  for_list (build_one d_state d_status) l.
End Request.
