(* ===== verification/ReadTheory.v ===== *)
(** * Properties of the request that reads attributes

  The loops of [read_attributes_no_except] go through the names of the request; each name
  touches its attribute and its answer only ([for_list_local]), so that the answer of a
  name is what reading this name alone gives ([alone]). *)
From S2P Require Import Prelude StateExn CppString PollRing AttrHistory Number Attribute DevState WAttribute WriteAttrs ReadAttrs.
Local Open Scope string_scope.
Local Open Scope list_scope.
Local Open Scope Z_scope.
Implicit Types s : RDev.
Implicit Types x : RAttr.
Implicit Types v : NetValue.

(** ** What the code keeps *)

Definition preserves {S B} (f : S → B) {A} (m : SM S A) : Prop := ∀ st st' r, m st = Some (st', r) → f st' = f st.

Section Preserves.
Context {S B : Type} (f : S → B).
Lemma pres_ret {A} (a : A) : preserves f (mret a).
Proof. by intros st st' r [= -> _]. Qed.
Lemma pres_reads {A} (m : SM S A) : reads m → preserves f m.
Proof. intros H st st' r Hm. by rewrite (H _ _ _ Hm). Qed.
Lemma pres_get : preserves f get.
Proof. apply pres_reads, reads_get. Qed.
Lemma pres_lift {A} (o : outcome A) : preserves f (lift o).
Proof. apply pres_reads, reads_lift. Qed.
Lemma pres_throw {A} r d o : preserves f (throw (A := A) r d o).
Proof. apply pres_reads, reads_throw. Qed.
Lemma pres_modify g : (∀ st, f (g st) = f st) → preserves f (modify g).
Proof. intros H st st' r [= <- _]. apply H. Qed.
Lemma pres_bind {A C} (m : SM S A) (k : A → SM S C) : preserves f m → (∀ a, preserves f (k a)) → preserves f (m ≫= k).
Proof.
  intros Hm Hk st st' r. unfold mbind, SM_bind. destruct (m st) as [[st1 [e|a]]|] eqn:E; [| |done].
  - intros [= <- _]. by eapply Hm.
  - intros H. rewrite (Hk a _ _ _ H). by eapply Hm.
Qed.
Lemma pres_when b (m : SM S unit) : preserves f m → preserves f (when_ b m).
Proof. destruct b; [done|]. intros _. apply pres_ret. Qed.
End Preserves.

Create HintDb pres.
#[export] Hint Resolve pres_ret pres_get pres_lift pres_throw pres_when : pres.
(** Through the structure of the code. *)
Ltac pres :=
  repeat (lazymatch goal with
  | |- preserves _ (_ ≫= _) => apply pres_bind; [|intros ?]
  | |- preserves _ (modify _) => apply pres_modify; intros ?
  | |- preserves _ (when_ _ _) => apply pres_when
  | |- preserves _ (if ?b then _ else _) => destruct b
  | |- preserves _ (match ?y with _ => _ end) => destruct y
  | |- preserves _ _ => solve [auto with pres]
  end); try done.

(** What no method of an attribute changes here. *)
Definition kept (a : Attribute) : AttrInfo * bool * bool := (info a, check_startup_exceptions a, att_mem_exception a).
Lemma check_alarm_kept now_ns : preserves kept (check_alarm now_ns).
Proof.
  assert (∀ f q p n o, preserves kept (check_side f q p n o)) as Hside by (intros; unfold check_side; pres).
  assert (∀ q min max lo hi n o, preserves kept (general_check_alarm q min max lo hi n o)) as Hgen.
  { intros. unfold general_check_alarm. pres. }
  assert (∀ q lo hi, preserves kept (check_thresholds q lo hi)) as Hth.
  { intros. unfold check_thresholds, check_numbers, check_encoded, unknown_alarm. pres. }
  unfold check_alarm, check_level_alarm, check_warn_alarm, check_rds_alarm, check_rds_out_of_range, check_rds_encoded.
  pres.
Qed.
Lemma set_value_elts_kept l n m : preserves kept (set_value_elts l n m).
Proof.
  assert (∀ k l', preserves kept (check_enum_values k l')) as Henum.
  { intros k l'. induction l' as [|e l' IH]; cbn [check_enum_values]; unfold opt_prop_error; pres. }
  assert (∀ A (p : option (list A)) a b, preserves kept (new_value p a b)) as Hnew.
  { intros. unfold new_value, take_data, opt_prop_error. pres. }
  unfold set_value_elts, set_value_short, set_value, set_value_encoded, set_value_other, wrong_type, opt_prop_error.
  pres.
Qed.

(** What no step of a request changes in an attribute. *)
Definition frozen x := (kept (att_of x), writable (watt x), write_val (watt x), written (watt x), w_dim (watt x), (assoc_ind x, attr_serial_model x)).
Lemma frozen_set_att a x : kept a = kept (att_of x) → frozen (set_att a x) = frozen x.
Proof. unfold frozen, kept. simpl. by intros [= -> -> ->]. Qed.
Lemma frozen_info x y : frozen x = frozen y → info (att_of x) = info (att_of y).
Proof. by intros [= H]. Qed.
Lemma kept_alarm x : kept (alarm_att x) = kept (att_of x).
Proof. unfold alarm_att. by destruct (is_WAttribute x). Qed.
Lemma pres_on_att {A} (m : SM Attribute A) : preserves kept m → preserves frozen (on_att m).
Proof.
  intros Hm x x' r. unfold on_att. destruct (m _) as [[a r']|] eqn:E; [|done]. intros [= <- _].
  apply frozen_set_att. rewrite (Hm _ _ _ E). apply kept_alarm.
Qed.
Lemma set_att_alarm x : set_att (alarm_att x) x = x.
Proof. unfold set_att, alarm_att. destruct x as [[[] ] ]; simpl. by destruct (is_WAttribute _). Qed.
Lemma set_rvalue_frozen now : preserves frozen (set_rvalue now).
Proof. unfold set_rvalue. pres; try (apply pres_on_att, set_value_elts_kept). Qed.
Lemma lock_frozen : preserves frozen lock_mutex.
Proof. unfold lock_mutex. pres. Qed.
Lemma unlock_frozen : preserves frozen unlock_mutex.
Proof. unfold unlock_mutex. pres. Qed.
Lemma give_frozen i : preserves frozen (give_mutex i).
Proof. unfold give_mutex. pres. Qed.
Lemma release_frozen b : preserves frozen (when_ b unlock_mutex).
Proof. apply pres_when, unlock_frozen. Qed.
#[export] Hint Resolve set_rvalue_frozen lock_frozen unlock_frozen give_frozen : pres.

(** ** Loops whose turns are local *)

(** The attribute an element of a list touches, if it is known, and its answer. *)
Definition at_ (j : option nat) s : option RAttr := j ≫= λ j, r_atts s !! j.
Definition put_at (j : option nat) (x : option RAttr) (l : list RAttr) : list RAttr :=
  match j, x with Some j, Some x => <[j := x]> l | _, _ => l end.
Definition frz s := frozen <$> r_atts s.

Section Local.
Context {A : Type} (J : A → option nat) (P : A → nat).
Implicit Types F : A → option RAttr → NetValue → option (option RAttr * NetValue).

(** A turn changes its attribute and its answer as [F] says. *)
Definition turned (fz : list _) (a : A) (x' : option RAttr) v' s s' : Prop :=
  r_atts s' = put_at (J a) x' (r_atts s) ∧ back s' = <[P a := v']> (back s) ∧
  r_core s' = r_core s ∧ frz s' = fz ∧ (is_Some x' ↔ is_Some (at_ (J a) s)).
Definition local_to (fz : list _) F (m : A → SM RDev unit) (a : A) : Prop :=
  ∀ s v (x' : option RAttr) v', frz s = fz → back s !! P a = Some v → F a (at_ (J a) s) v = Some (x', v') →
  ∃ s', m a s = Some (s', inr tt) ∧ turned fz a x' v' s s'.

Definition cell a s : option RAttr * option NetValue := (at_ (J a) s, back s !! P a).
(** What a loop over [l] does: the cells of [l] by [F], the others not at all. *)
Definition loop_result F (l : list A) s s' : Prop :=
  (∀ a v, a ∈ l → back s !! P a = Some v → ∃ (x' : option RAttr) v', F a (at_ (J a) s) v = Some (x', v') ∧ at_ (J a) s' = x' ∧ back s' !! P a = Some v') ∧
  (∀ j, j ∉ omap J l → r_atts s' !! j = r_atts s !! j) ∧ (∀ p, p ∉ P <$> l → back s' !! p = back s !! p) ∧ frz s' = frz s.

Lemma omap_elem (l : list A) a j : a ∈ l → J a = Some j → j ∈ omap J l.
Proof. intros Ha Hj. apply list_elem_of_omap. by exists a. Qed.

Lemma for_list_local F m l s :
  NoDup (omap J l) → NoDup (P <$> l) → (∀ a, a ∈ l → local_to (frz s) F m a) →
  (∀ a, a ∈ l → ∃ v, back s !! P a = Some v ∧ is_Some (F a (at_ (J a) s) v)) →
  ∃ s', for_list m l s = Some (s', inr tt) ∧ loop_result F l s s' ∧ r_core s' = r_core s.
Proof.
  revert s. induction l as [|a l IH]; intros s Hj Hp Hm Hd.
  { exists s. split; [done|]. split; [|done]. split; [by intros a v H%elem_of_nil|done]. }
  apply NoDup_cons in Hp as [Hpa Hp]. destruct (Hd a) as (v & Hv & [[x' v'] HF]); [by left|].
  destruct (Hm a (list_elem_of_here _ _) s v x' v') as (s1 & Hr & Ha & Hb & Hc & Hz & Hs); [done..|].
  assert (∀ b, b ∈ l → P b ≠ P a) as Hpb.
  { intros b Hb' E. apply Hpa. rewrite <-E. by apply list_elem_of_fmap_2. }
  assert (NoDup (omap J l) ∧ ∀ b j, b ∈ l → J b = Some j → J a ≠ Some j) as [Hj' Hjb].
  { simpl in Hj. destruct (J a) as [ja|] eqn:E; [|by split]. apply NoDup_cons in Hj as [Hja Hj]. split; [done|].
    intros b j Hb' Hbj [= ->]. apply Hja. by eapply omap_elem. }
  assert (∀ j, J a ≠ Some j → r_atts s1 !! j = r_atts s !! j) as Hother.
  { intros j Hne. rewrite Ha. unfold put_at. destruct (J a) as [ja|]; [|done]. destruct x'; [|done]. apply list_lookup_insert_ne. congruence. }
  assert (∀ b, b ∈ l → at_ (J b) s1 = at_ (J b) s ∧ back s1 !! P b = back s !! P b) as Hsame.
  { intros b Hb'. split; [|rewrite Hb; apply list_lookup_insert_ne; apply not_eq_sym; by apply Hpb].
    destruct (J b) as [j|] eqn:E; [|done]. simpl. by apply Hother, (Hjb b). }
  destruct (IH s1) as (s' & Hr' & (H1 & H2 & H3 & H5) & H4); [done|done|..].
  { intros b Hb'. rewrite Hz. apply Hm. by right. }
  { intros b Hb'. destruct (Hsame b Hb') as [-> ->]. apply Hd. by right. }
  exists s'. split; [cbn [for_list]; rewrite (run_bind _ _ _ _ _ Hr); done|]. split; [|congruence]. unfold loop_result. split_and!.
  - intros b w [->|Hb']%elem_of_cons Hw.
    + rewrite Hw in Hv. injection Hv as ->. exists x', v'. split; [done|]. split.
      * destruct (J a) as [ja|] eqn:E; simpl in *; [|destruct x'; [|done]; by destruct (proj1 Hs)].
        rewrite H2, Ha; [|intros Hin%list_elem_of_omap; destruct Hin as (b & Hb' & Hbj); by destruct (Hjb b ja)].
        destruct (r_atts s !! ja) as [x0|] eqn:E0; [|destruct x'; [by destruct (proj1 Hs) |done]].
        destruct x'; [simpl; apply list_lookup_insert_eq; by eapply lookup_lt_Some|by destruct (proj2 Hs)].
      * rewrite H3, Hb by done. apply list_lookup_insert_eq. by eapply lookup_lt_Some.
    + destruct (Hsame b Hb') as [<- E]. apply H1; [done|]. by rewrite E.
  - intros j Hj0. rewrite H2, Hother; [done|..]; intros H; apply Hj0; simpl.
    + rewrite H. by left.
    + destruct (J a); [by right|done].
  - intros p Hp0. rewrite fmap_cons in Hp0. apply not_elem_of_cons in Hp0 as [? ?]. rewrite H3, Hb by done. by rewrite list_lookup_insert_ne.
  - congruence.
Qed.

(** Two loops over the same list are the loop of their composition. *)
Definition then_ F G : A → option RAttr → NetValue → option (option RAttr * NetValue) := λ a (x : option RAttr) v, '(x, v) ← F a x v; G a x v.
Lemma loop_then F G l s s1 s2 : loop_result F l s s1 → loop_result G l s1 s2 → loop_result (then_ F G) l s s2.
Proof.
  intros (H1 & H2 & H3 & H4) (G1 & G2 & G3 & G4). unfold loop_result. split_and!.
  - intros a v Ha Hv. destruct (H1 a v Ha Hv) as (x1 & v1 & HF & Hx & Hb). destruct (G1 a v1 Ha Hb) as (x2 & v2 & HG & Hx2 & Hb2).
    exists x2, v2. split; [|done]. unfold then_. rewrite HF. simpl. by rewrite <-Hx.
  - intros j Hj. by rewrite G2, H2.
  - intros p Hp. by rewrite G3, H3.
  - congruence.
Qed.
(** What a loop leaves to a next one that has a meaning after it. *)
Lemma loop_defined F G l s s1 :
  loop_result F l s s1 → (∀ a, a ∈ l → ∃ v, back s !! P a = Some v ∧ is_Some (then_ F G a (at_ (J a) s) v)) →
  ∀ a, a ∈ l → ∃ v, back s1 !! P a = Some v ∧ is_Some (G a (at_ (J a) s1) v).
Proof.
  intros (H1 & _) Hd a Ha. destruct (Hd a Ha) as (v & Hv & Hs). destruct (H1 a v Ha Hv) as (x1 & v1 & HF & Hx & Hb).
  exists v1. split; [done|]. unfold then_ in Hs. rewrite HF in Hs. simpl in Hs. by rewrite Hx.
Qed.
End Local.

(** ** One turn on the attribute [j] and the answer [p] *)

Definition turn s (j p : nat) x v (cs : list ReadCall) : RDev :=
  mkRDev (<[j := x]> (r_atts s)) (r_core s) (<[p := v]> (back s)) (r_calls s ++ cs).
Lemma turn_start s j p x v : r_atts s !! j = Some x → back s !! p = Some v → s = turn s j p x v [].
Proof. intros Hx Hv. unfold turn. rewrite !list_insert_id, app_nil_r by done. by destruct s. Qed.

Section Turn.
Context (s : RDev) (j p : nat) (x0 : RAttr) (v0 : NetValue).
Lemma turn_att (x : RAttr) v cs : r_atts s !! j = Some x0 → r_atts (turn s j p x v cs) !! j = Some x.
Proof. intros H. simpl. apply list_lookup_insert_eq. by eapply lookup_lt_Some. Qed.
Lemma turn_at x v cs : r_atts s !! j = Some x0 → attr_at j (turn s j p x v cs) = Some (turn s j p x v cs, inr x).
Proof. intros H. unfold attr_at. rewrite (run_bind _ _ _ _ _ eq_refl), turn_att by done. done. Qed.
Lemma turn_on {A} (m : SM RAttr A) x v cs x' r :
  r_atts s !! j = Some x0 → m x = Some (x', r) → on_r j m (turn s j p x v cs) = Some (turn s j p x' v cs, r).
Proof. intros H Hm. unfold on_r. rewrite turn_att, Hm by done. unfold turn, set_r_atts. simpl. by rewrite list_insert_insert_eq. Qed.
Lemma turn_put f x v cs : back s !! p = Some v0 → put_back p f (turn s j p x v cs) = Some (turn s j p x (f v) cs, inr tt).
Proof.
  intros H. unfold put_back. rewrite (run_bind _ _ _ _ _ eq_refl).
  assert (back (turn s j p x v cs) !! p = Some v) as Hl by (simpl; apply list_lookup_insert_eq; by eapply lookup_lt_Some).
  rewrite (run_bind _ _ (turn s j p x v cs) (turn s j p x v cs) v) by (by rewrite Hl).
  unfold modify, set_back, turn. simpl. by rewrite list_insert_insert_eq.
Qed.
Lemma turn_call c x v cs : modify (E := exn) (rcall c) (turn s j p x v cs) = Some (turn s j p x v (cs ++ [c]), inr tt).
Proof. unfold modify, rcall, turn. simpl. by rewrite <-app_assoc. Qed.
Lemma turn_frz x v cs : r_atts s !! j = Some x0 → frozen x = frozen x0 → frz (turn s j p x v cs) = frz s.
Proof.
  intros H Hf. unfold frz. simpl. rewrite list_fmap_insert, Hf. apply list_insert_id. by rewrite list_lookup_fmap, H.
Qed.
End Turn.

Lemma turned_turn {A} (J : A → option nat) (P : A → nat) a j x x' v' cs s :
  J a = Some j → r_atts s !! j = Some x → frozen x' = frozen x →
  turned J P (frz s) a (Some x') v' s (turn s j (P a) x' v' cs).
Proof.
  intros Hj Hx Hf. unfold turned. rewrite Hj. split_and!; [done..|by eapply turn_frz|].
  simpl. rewrite Hx. split; by eexists.
Qed.
Lemma turned_same {A} (J : A → option nat) (P : A → nat) a (x : option RAttr) v s :
  at_ (J a) s = x → back s !! P a = Some v → turned J P (frz s) a x v s s.
Proof.
  intros Hx Hv. unfold turned. rewrite Hx, list_insert_id by done. split_and!; try done. unfold at_, put_at in *.
  destruct (J a) as [j|]; simpl in *; [|by subst]. destruct x as [x|]; [|done]. by rewrite list_insert_id.
Qed.
Lemma turned_back {A} (J : A → option nat) (P : A → nat) a f v s :
  J a = None → back s !! P a = Some v →
  ∃ s', put_back (P a) f s = Some (s', inr tt) ∧ turned J P (frz s) a None (f v) s s'.
Proof.
  intros Hj Hv. eexists. split.
  - unfold put_back. rewrite (run_bind _ _ _ _ _ eq_refl), (run_bind _ _ s s v) by (by rewrite Hv). done.
  - unfold turned. rewrite Hj. simpl. split_and!; try done; by intros [].
Qed.

Lemma turned_cell {A} (J : A → option nat) (P : A → nat) fz a (x' : option RAttr) v v' s s' :
  turned J P fz a x' v' s s' → back s !! P a = Some v → at_ (J a) s' = x' ∧ back s' !! P a = Some v' ∧ frz s' = fz.
Proof.
  intros (H1 & H2 & _ & H3 & H4) Hv. split; [|split; [|done]].
  - unfold at_ in *. destruct (J a) as [j|]; simpl in *; [|destruct x'; [by destruct (proj1 H4 ltac:(by eexists))|done]].
    rewrite H1. destruct x' as [x|].
    + destruct (proj1 H4) as [y Hy]; [by eexists|]. apply list_lookup_insert_eq. by eapply lookup_lt_Some.
    + destruct (r_atts s !! j); [|done]. destruct (proj2 H4) as [? ?]; [by eexists|done].
  - rewrite H2. apply list_lookup_insert_eq. by eapply lookup_lt_Some.
Qed.

(** The index of a name in a list of attributes only depends on what is frozen. *)
Definition index_in (l : list RAttr) (nm : string) : option nat := fst <$> list_find (is_att_name nm) l.
Lemma index_frozen l l' nm : frozen <$> l = frozen <$> l' → index_in l nm = index_in l' nm.
Proof.
  unfold index_in. revert l'. induction l as [|x l IH]; intros [|y l'] H; try done.
  rewrite !fmap_cons in H. injection H as Hk _ _ _ _ _ _ _ _ H. simpl.
  assert (is_att_name nm x ↔ is_att_name nm y) as Hiff by (unfold is_att_name, att_name; by rewrite Hk).
  destruct (decide (is_att_name nm x)) as [Hn|Hn]; [by rewrite decide_True by tauto|].
  rewrite decide_False by tauto. specialize (IH l' H).
  by destruct (list_find _ l) as [[]|], (list_find _ l') as [[]|]; try done; injection IH as ->.
Qed.
Lemma index_lookup l nm j : index_in l nm = Some j → ∃ x, l !! j = Some x ∧ is_att_name nm x.
Proof.
  unfold index_in. destruct (list_find _ l) as [[k x]|] eqn:E; [|done]. intros [= ->].
  apply list_find_Some in E as (? & ? & _). eauto.
Qed.
Lemma att_index_run nm s : att_index nm s =
  match index_in (r_atts s) nm with
  | Some j => Some (s, inr j)
  | None => Some (s, inl (DevFailed [mkDevError "API_AttrNotFound" ERR (nm +:+ " attribute not found") "MultiAttribute::get_attr_ind_by_name"]))
  end.
Proof. unfold att_index, index_in. rewrite (run_bind _ _ _ _ _ eq_refl). by destruct (list_find _ _) as [[]|]. Qed.
Lemma frozen_lookup s l k x : frz s = frozen <$> l → r_atts s !! k = Some x → ∃ y, l !! k = Some y ∧ frozen y = frozen x.
Proof.
  intros H Hx. assert ((frozen <$> l) !! k = Some (frozen x)) as Hy by (rewrite <-H; unfold frz; by rewrite list_lookup_fmap, Hx).
  rewrite list_lookup_fmap in Hy. destruct (l !! k) as [y|]; [|done]. apply (inj Some) in Hy. eauto.
Qed.
Lemma frozen_lookup_back s l k y : frz s = frozen <$> l → l !! k = Some y → ∃ x, r_atts s !! k = Some x ∧ frozen x = frozen y.
Proof.
  intros H Hy. assert (frz s !! k = Some (frozen y)) as Hx by (rewrite H; by rewrite list_lookup_fmap, Hy).
  unfold frz in Hx. rewrite list_lookup_fmap in Hx. destruct (r_atts s !! k) as [x|]; [|done]. apply (inj Some) in Hx. eauto.
Qed.

(** ** A name alone

  The four steps of a request for one name, on its attribute (if there is one) and its
  answer.  [None] is code without a meaning. *)
Section Alone.
Context (idl : Idl) (now : TimeVal) (now_ns : Z) (is_allowed : nat → outcome bool)
  (read : nat → Attribute → option UserRead) (polled : list (string * Z)) (atts0 : list RAttr).

Definition run_unit {S} (m : SM S unit) (st : S) : option S := match m st with Some (st, inr _) => Some st | _ => None end.
Definition with_errors (nm : string) (o : option DevErrorList) v : NetValue :=
  match o with Some l => error_from_devfailed idl l nm v | None => v end.

Definition not_found_error (nm : string) : DevErrorList :=
  [mkDevError "API_AttrNotFound" ERR (nm +:+ " attribute not found") "MultiAttribute::get_attr_ind_by_name"].
Definition startup_error x : DevErrorList :=
  [mkDevError "API_AttrConfig" ERR (nl +:+ "-> Attribute : " +:+ att_name x) "Device_3Impl::read_attributes_no_except()"].
Definition not_allowed_error x : DevErrorList :=
  [mkDevError "API_AttrNotAllowed" ERR ("It is currently not allowed to read attribute " +:+ att_name x) "Device_3Impl::read_attributes_no_except"].

(** Whether an attribute is read, and whether it answers its set value. *)
Definition only_set x : bool := bool_decide (writable (watt x) = WRITE) && negb (is_fwd_att (info (att_of x))).
Definition to_read x : bool := negb (check_startup_exceptions (att_of x)) && negb (only_set x).
Definition to_set x : bool := negb (check_startup_exceptions (att_of x)) && (is_rw (writable (watt x)) || only_set x).
Definition prepared_read x : RAttr := save_alarm_quality (set_when (mkTimeVal 0 (tv_usec (att_when x)) (tv_nsec (att_when x))) x).

Definition find_step (nm : string) (x : option RAttr) v : option (option RAttr * NetValue) :=
  match x with
  | None => Some (None, with_errors nm (Some (not_found_error nm)) v)
  | Some x =>
      if check_startup_exceptions (att_of x) then Some (Some x, with_errors nm (Some (startup_error x)) v)
      else Some (Some (if to_read x then prepared_read x else x), v)
  end.
Definition read_step (j : nat) x : option (RAttr * option DevErrorList) :=
  let failed x' e := x' ← run_unit (when_ (by_kernel idl x) unlock_mutex) x'; Some (x', Some (errors_of e)) in
  match is_allowed j with
  | Ok false => Some (x, Some (not_allowed_error x))
  | Ok true =>
      match read_body idl now_ns read j x with
      | Some (x', inr _) => Some (x', None)
      | Some (x', inl e) => failed x' e
      | None => None
      end
  | Exc e => failed x e
  | Undef => None
  end.
Definition set_step x : option (RAttr * option DevErrorList) :=
  match set_body now x with
  | Some (x', inr _) => Some (x', None)
  | Some (x', inl (DevFailed l)) =>
      x' ← run_unit (when_ (uses_mutex idl x && bool_decide (writable (watt x) = READ_WITH_WRITE)) unlock_mutex) x'; Some (x', Some l)
  | _ => None
  end.
Definition if_att (b : RAttr → bool) (f : RAttr → option (RAttr * option DevErrorList)) (nm : string) (x : option RAttr) v :
    option (option RAttr * NetValue) :=
  match x with
  | Some x => if b x then '(x', o) ← f x; Some (Some x', with_errors nm o v) else Some (Some x, v)
  | None => Some (None, v)
  end.

(** The answer [p] of an attribute. *)
Definition set_part x : option (option (list WElt * (Z * Z))) :=
  if is_rw (writable (watt x)) then y ← atts0 !! assoc_ind x; Some (Some (last_written_elts (watt y), w_dim (watt y)))
  else Some None.
Definition value_part (set : list WElt) x v : option (RAttr * NetValue) :=
  storage ← attribute_value (att_of x);
  if bool_decide (data_type (info (att_of x)) = DEV_ENCODED) && bool_decide (idl = Data3)
  then Some (x, error_from_devfailed idl not_encoded_error (att_name x) v)
  else match sequence_sent set storage with
       | Ok d => Some (set_att (delete_seq (att_of x)) x, set_net_data d v)
       | _ => None
       end.
Definition described x v : NetValue := with_format idl (data_format (info (att_of x))) (data_type (info (att_of x))) v.
Definition build_step (p : nat) (nm : string) x v : option (RAttr * NetValue) :=
  if bool_decide (quality (att_of x) = ATTR_INVALID) then
    x' ← run_unit (stamp now;; release_mutex idl x) x;
    Some (x', described x' (init_out_data_quality x' (quality (att_of x)) v))
  else if negb (value_is_set (att_of x)) then
    x' ← run_unit (release_mutex idl x) x;
    Some (x', one_error idl "API_AttrValueNotSet" "Device_3Impl::read_attributes_no_except" (not_set_text polled nm x) (att_name x) v)
  else
    set ← set_part x;
    '(x1, v1) ← value_part (from_option fst [] set) x v;
    x2 ← run_unit (stamp now;; when_ (uses_mutex idl x && (is_fwd_att (info (att_of x)) || negb (bool_decide (writable (watt x) = WRITE)))) (give_mutex p)) x1;
    Some (x2, described x2 (init_out_data x2 (snd <$> set) v1)).
Definition build_turn (p : nat) (nm : string) (x : option RAttr) v : option (option RAttr * NetValue) :=
  if bool_decide (net_errs v = []) then x ← x; '(x', v') ← build_step p nm x v; Some (Some x', v') else Some (x, v).

Definition alone (j : option nat) (p : nat) (nm : string) (x : option RAttr) v : option (option RAttr * NetValue) :=
  '(x, v) ← find_step nm x v;
  '(x, v) ← if_att to_read (λ x, j ← j; read_step j x) nm x v;
  '(x, v) ← if_att to_set set_step nm x v;
  build_turn p nm x v.
End Alone.

(** ** A step that has no meaning does not return *)

Definition stuck {S A} (m : SM S A) (st : S) : Prop := ∀ st' a, m st ≠ Some (st', inr a).
Lemma stuck_first {S A B} (m : SM S A) (f : A → SM S B) st : stuck m st → stuck (m ≫= f) st.
Proof. intros H st' b (st1 & a & Hm & _)%bind_inr. by apply (H st1 a). Qed.
Lemma stuck_then {S A B} (m : SM S A) (f : A → SM S B) st st1 a : m st = Some (st1, inr a) → stuck (f a) st1 → stuck (m ≫= f) st.
Proof. intros Hm H. intros st' b. rewrite (run_bind _ _ _ _ _ Hm). apply H. Qed.
Lemma stuck_on {A} j (m : SM RAttr A) s x : r_atts s !! j = Some x → stuck m x → stuck (on_r j m) s.
Proof. intros Hx H s' a. unfold on_r. rewrite Hx. destruct (m x) as [[x' r]|] eqn:E; [|done]. intros [= _ ->]. by apply (H x' a). Qed.
Lemma stuck_unit {S} (m : SM S unit) st : run_unit m st = None → stuck m st.
Proof. unfold run_unit. intros H st' a E. by rewrite E in H. Qed.
Lemma attr_at_run j x s : r_atts s !! j = Some x → attr_at j s = Some (s, inr x).
Proof. intros H. unfold attr_at. by rewrite (run_bind _ _ _ _ _ eq_refl), H. Qed.

(** ** The steps of a request are the steps of its names *)

Section Loops.
Context (idl : Idl) (now : TimeVal) (now_ns : Z) (is_allowed : nat → outcome bool)
  (read : nat → Attribute → option UserRead) (polled : list (string * Z)) (names : list string) (second_try : option (list nat)).
Context (s0 : RDev).

Let atts0 := r_atts s0.
Let fz := frz s0.
Definition place (i : nat) : nat := match second_try with None => i | Some idx => default 0%nat (idx !! i) end.
Let J (a : nat * string) : option nat := index_in atts0 (snd a).
Let P (a : nat * string) : nat := place (fst a).

(** The answers of the request have a place, and none of its names is the state or the status. *)
Record plain_request : Prop := {
  pr_place : ∀ i nm, names !! i = Some nm → back_index second_try i = Ok (place i);
  pr_names : Forall (λ nm, tolower nm ≠ "state" ∧ tolower nm ≠ "status") names;
}.
(** The code of the user keeps the definition of an attribute. *)
Definition user_keeps : Prop := ∀ j a r, read j a = Some r → kept (ur_att r) = kept a.

Lemma pair_at i nm : (i, nm) ∈ imap pair names → names !! i = Some nm.
Proof. intros [k Hk]%list_elem_of_lookup. rewrite list_lookup_imap in Hk. by destruct (names !! k) eqn:E; simplify_eq/=. Qed.

Lemma frozen_to_read x y : frozen x = frozen y → to_read x = to_read y.
Proof. unfold to_read, only_set. intros [= -> -> _ -> _ _ _ _ _]. done. Qed.
Lemma frozen_to_set x y : frozen x = frozen y → to_set x = to_set y.
Proof. unfold to_set, only_set. intros [= -> -> _ -> _ _ _ _ _]. done. Qed.

Lemma index_now s nm : frz s = fz → index_in (r_atts s) nm = index_in atts0 nm.
Proof. intros H. by apply index_frozen. Qed.
(** The attribute of a name. *)
Lemma att_now s a j : frz s = fz → J a = Some j → ∃ x y, r_atts s !! j = Some x ∧ atts0 !! j = Some y ∧ frozen x = frozen y ∧ at_ (J a) s = Some x.
Proof.
  intros Hf Hj. destruct (index_lookup _ _ _ Hj) as (y & Hy & _).
  destruct (frozen_lookup_back s atts0 j y Hf Hy) as (x & Hx & Hxy). exists x, y. by rewrite Hj.
Qed.

Definition reads_of (a : nat * string) : list ReadIdx :=
  match at_ (J a) s0 with Some x => if to_read x then [mkRIdx (fst a) (J a)] else [] | None => [] end.
Definition sets_of (a : nat * string) : list ReadIdx :=
  match at_ (J a) s0 with Some x => if to_set x then [mkRIdx (fst a) (J a)] else [] | None => [] end.

Lemma put_error_run i l nm s j v x cs :
  plain_request → names !! i = Some nm → r_atts s !! j = Some x → back s !! place i = Some v →
  ∀ x' v', put_error idl second_try i l nm (turn s j (place i) x' v' cs) =
    Some (turn s j (place i) x' (error_from_devfailed idl l nm v') cs, inr tt).
Proof.
  intros Hr Hi Hx Hv x' v'. unfold put_error. rewrite (run_bind _ _ (turn s j (place i) x' v' cs) (turn s j (place i) x' v' cs) (place i)).
  - by eapply turn_put.
  - by rewrite (pr_place Hr i nm Hi).
Qed.

(** What [look_up] gives for an attribute. *)
Lemma look_up_run i nm s j x p v :
  index_in (r_atts s) nm = Some j → r_atts s !! j = Some x → back s !! p = Some v →
  look_up i nm s =
    if check_startup_exceptions (att_of x) then Some (s, inl (DevFailed (startup_error x)))
    else Some (turn s j p (if to_read x then prepared_read x else x) v [],
               inr (if to_read x then [mkRIdx i (Some j)] else [], if to_set x then [mkRIdx i (Some j)] else [])).
Proof.
  intros Hj Hx Hv. set (t := turn s j p x v []).
  assert (t = s) as Hts by (symmetry; by apply turn_start). rewrite <-Hts at 1.
  unfold look_up. rewrite (run_bind _ _ t t j) by (by rewrite att_index_run, Hts, Hj).
  unfold t at 1. rewrite (run_bind _ _ _ _ _ (turn_at s j p x x v [] Hx)). fold t.
  unfold to_read, to_set, only_set. destruct (check_startup_exceptions (att_of x)); cbn [negb andb when_].
  { cbn. by rewrite Hts. }
  rewrite (run_bind _ _ t t tt eq_refl).
  assert (prepare j t = Some (turn s j p (prepared_read x) v [], inr tt)) as Hprep by (by eapply turn_on).
  destruct (is_rw (writable (watt x))) eqn:Erw; cbn [orb].
  - assert (bool_decide (writable (watt x) = WRITE) = false) as ->.
    { apply bool_decide_eq_false_2. intros E. by rewrite E in Erw. }
    cbn [andb negb]. by rewrite (run_bind _ _ _ _ _ Hprep).
  - destruct (_ && _); cbn [negb]; [done|]. by rewrite (run_bind _ _ _ _ _ Hprep).
Qed.

Lemma find_turn a s v (x' : option RAttr) v' :
  plain_request → a ∈ imap pair names → frz s = fz → back s !! P a = Some v →
  find_step idl (snd a) (at_ (J a) s) v = Some (x', v') →
  ∃ s', find_one idl second_try a s = Some (s', inr (reads_of a, sets_of a)) ∧ turned J P fz a x' v' s s'.
Proof.
  destruct a as [i nm]. intros Hr Hi%pair_at Hf Hv HF. unfold find_one.
  destruct (proj1 (Forall_lookup _ _) (pr_names Hr) i nm Hi) as [H1 H2].
  rewrite (bool_decide_eq_false_2 _ H1), (bool_decide_eq_false_2 _ H2). cbn [orb].
  unfold reads_of, sets_of. destruct (J (i, nm)) as [j|] eqn:Ej.
  - destruct (att_now s (i, nm) j Hf Ej) as (x & y & Hx & Hy & Hxy & _).
    assert (index_in (r_atts s) nm = Some j) as Hj by (by rewrite index_now).
    assert (at_ (Some j) s0 = Some y) as -> by done. rewrite <-(frozen_to_read _ _ Hxy), <-(frozen_to_set _ _ Hxy).
    assert (at_ (Some j) s = Some x) as Hat by done. rewrite Hat in HF. simpl in HF.
    unfold mbind at 1, SM_bind at 1, attempt. rewrite (look_up_run i nm s j x (place i) v Hj Hx Hv). simpl.
    assert (to_read x = false ∧ to_set x = false ∨ check_startup_exceptions (att_of x) = false) as Hs.
    { unfold to_read, to_set. destruct (check_startup_exceptions _); [by left|by right]. }
    destruct (check_startup_exceptions (att_of x)).
    + destruct Hs as [[-> ->]|]; [|done]. injection HF as <- <-. eexists. split.
      * erewrite run_bind; [|rewrite (turn_start s j (place i) x v Hx Hv) at 1; by eapply put_error_run]. done.
      * rewrite <-Hf. by apply (turned_turn J P (i, nm) j x).
    + injection HF as <- <-. eexists. split; [done|]. rewrite <-Hf. apply (turned_turn J P (i, nm) j x); [done|done|]. by destruct (to_read x).
  - assert (index_in (r_atts s) nm = None) as Hj by (by rewrite index_now).
    simpl in HF. injection HF as <- <-. unfold mbind at 1, SM_bind at 1, attempt, look_up, mbind at 1, SM_bind at 1.
    rewrite att_index_run, Hj. simpl.
    destruct (turned_back J P (i, nm) (error_from_devfailed idl (not_found_error nm) nm) v s Ej Hv) as (s' & Hs' & Ht).
    exists s'. split; [|by rewrite <-Hf]. unfold put_error, mbind, SM_bind. simpl. rewrite (pr_place Hr i nm Hi).
    cbn [lift]. unfold P, not_found_error in Hs'. cbn [fst] in Hs'. by rewrite Hs'.
Qed.

(** The first step for all the names. *)
Lemma find_all_loop l s s' :
  plain_request → l ⊆ imap pair names → frz s = fz → (∀ a, a ∈ l → is_Some (back s !! P a)) →
  for_list (λ a, find_one idl second_try a;; mret tt) l s = Some (s', inr tt) →
  find_all idl second_try l s = Some (s', inr (concat (reads_of <$> l), concat (sets_of <$> l))).
Proof.
  intros Hr. revert s. induction l as [|a l IH]; intros s Hl Hf Hd H; [by injection H as <-|].
  destruct (Hd a) as [v Hv]; [by left|].
  assert (∃ (x' : option RAttr) v', find_step idl (snd a) (at_ (J a) s) v = Some (x', v')) as (x' & v' & HF).
  { unfold find_step. destruct (at_ (J a) s) as [x|]; [|eauto]. destruct (check_startup_exceptions _); eauto. }
  destruct (find_turn a s v x' v') as (s1 & Hs1 & Ht); [done|apply Hl; by left|done..|].
  cbn [for_list find_all] in *. rewrite (run_bind _ _ _ _ _ Hs1).
  rewrite (run_bind _ _ s s1 tt) in H by (by rewrite (run_bind _ _ _ _ _ Hs1)).
  rewrite (run_bind _ _ s1 s' (concat (reads_of <$> l), concat (sets_of <$> l))); [done|].
  destruct Ht as (_ & Hb & _ & Hz & _). apply IH; [intros b Hb'; apply Hl; by right|done| |done].
  intros b Hb'. rewrite Hb. destruct (decide (P b = P a)) as [->|Hne].
  - rewrite list_lookup_insert_eq; [done|]. by eapply lookup_lt_Some.
  - rewrite list_lookup_insert_ne by done. apply Hd. by right.
Qed.
Lemma for_list_concat {S A B} (m : B → SM S unit) (g : A → list B) l (st : S) :
  for_list m (concat (g <$> l)) st = for_list (λ a, for_list m (g a)) l st.
Proof.
  assert (∀ l1 l2 (st : S), for_list m (l1 ++ l2) st = (for_list m l1;; for_list m l2) st) as Happ.
  { intros l1 l2. induction l1 as [|b l1 IH]; intros st1; [done|]. cbn [for_list app]. unfold mbind, SM_bind in *.
    destruct (m b st1) as [[st2 [e|u]]|]; [done| |done]. apply IH. }
  revert st. induction l as [|a l IH]; intros st; [done|]. cbn [for_list concat fmap list_fmap]. rewrite Happ.
  unfold mbind, SM_bind. destruct (for_list m (g a) st) as [[st1 [e|u]]|]; [done| |done]. apply IH.
Qed.

(** The second and the third step: the reading and the set value. *)
Lemma read_body_frozen j : user_keeps → preserves frozen (read_body idl now_ns read j).
Proof.
  intros Hu. unfold read_body, check_read_alarm. pres; [|by apply pres_on_att, check_alarm_kept].
  intros x x' r. unfold user_read. destruct (read j (att_of x)) as [u|] eqn:E; [|done]. intros [= <- _].
  pose proof (Hu _ _ _ E) as Hk. destruct (ur_when u), (_ && _); by apply frozen_set_att.
Qed.
Lemma set_body_frozen : preserves frozen (set_body now).
Proof. unfold set_body. pres. Qed.

Definition read_turn_of (a : nat * string) : option RAttr → NetValue → option (option RAttr * NetValue) :=
  if_att idl to_read (λ x, j ← J a; read_step idl now_ns is_allowed read j x) (snd a).
Definition set_turn_of (a : nat * string) : option RAttr → NetValue → option (option RAttr * NetValue) :=
  if_att idl to_set (set_step idl now) (snd a).
Definition build_turn_of (a : nat * string) : option RAttr → NetValue → option (option RAttr * NetValue) :=
  build_turn idl now polled atts0 (P a) (snd a).

(** A turn over an attribute that a list of at most one index selects. *)
Lemma if_att_turn (sel : RAttr → bool) f (m : ReadIdx → SM RDev unit) (g : nat * string → list ReadIdx) a s v (x' : option RAttr) v' :
  (∀ a, g a = match at_ (J a) s0 with Some x => if sel x then [mkRIdx (fst a) (J a)] else [] | None => [] end) →
  (∀ x y, frozen x = frozen y → sel x = sel y) →
  (∀ j x x' o, J a = Some j → r_atts s !! j = Some x → f x = Some (x', o) → frozen x' = frozen x ∧
    ∃ cs, m (mkRIdx (fst a) (Some j)) s = Some (turn s j (P a) x' (with_errors idl (snd a) o v) cs, inr tt)) →
  frz s = fz → back s !! P a = Some v → if_att idl sel f (snd a) (at_ (J a) s) v = Some (x', v') →
  ∃ s', for_list m (g a) s = Some (s', inr tt) ∧ turned J P fz a x' v' s s'.
Proof.
  intros Hg Hsel Hm Hf Hv HF. rewrite Hg. destruct (J a) as [j|] eqn:Ej.
  - destruct (att_now s a j Hf Ej) as (x & y & Hx & Hy & Hxy & _). assert (at_ (Some j) s0 = Some y) as -> by done.
    rewrite <-(Hsel _ _ Hxy). assert (at_ (Some j) s = Some x) as E by done. rewrite E in HF. simpl in HF.
    destruct (sel x).
    + destruct (f x) as [[x1 o]|] eqn:Efx; [|done]. injection HF as <- <-.
      destruct (Hm j x x1 o eq_refl Hx Efx) as (Hfr & cs & Hr). eexists. split.
      * cbn [for_list]. rewrite (run_bind _ _ _ _ _ Hr). done.
      * rewrite <-Hf. by apply (turned_turn J P a j x).
    + injection HF as <- <-. exists s. split; [done|]. rewrite <-Hf. apply turned_same; [by rewrite Ej|done].
  - simpl in HF. injection HF as <- <-. exists s. split; [done|]. rewrite <-Hf. apply turned_same; [by rewrite Ej|done].
Qed.

Lemma name_of_run i nm s : names !! i = Some nm → name_of names i s = Some (s, inr nm).
Proof. intros H. unfold name_of. by rewrite H. Qed.

Lemma read_turn_local a : plain_request → user_keeps → a ∈ imap pair names →
  local_to J P fz read_turn_of (λ a, for_list (read_one_att idl now_ns is_allowed read names second_try) (reads_of a)) a.
Proof.
  intros Hr Hu Ha s v x' v' Hf Hv HF. pose proof (pair_at (fst a) (snd a)) as Hi. rewrite <-surjective_pairing in Hi. specialize (Hi Ha).
  eapply if_att_turn; [done|by apply frozen_to_read| |done..|exact HF]. clear HF x' v'.
  intros j x x' o Hj Hx Hstep. rewrite Hj in Hstep. cbn in Hstep. unfold read_step in Hstep.
  unfold read_one_att. cbn [r_idx r_idx_in_names].
  rewrite (run_bind _ _ _ _ _ (name_of_run _ _ s Hi)).
  pose proof (turn_start s j (P a) x v Hx Hv) as Hs.
  rewrite (run_bind _ _ s s x) by (rewrite Hs at 1; rewrite (turn_at s j (P a) x x v [] Hx); by rewrite <-Hs).
  assert (∀ x1 cs e s1, s1 = turn s j (P a) x1 v cs → frozen x1 = frozen x →
    (x' ← run_unit (when_ (by_kernel idl x) unlock_mutex) x1; Some (x', Some (errors_of e))) = Some (x', o) →
    frozen x' = frozen x ∧ ∃ cs, read_error idl second_try j x (fst a) (errors_of e) (snd a) s1 =
      Some (turn s j (P a) x' (with_errors idl (snd a) o v) cs, inr tt)) as Hfail.
  { intros x1 cs e s1 -> Hfr H. unfold run_unit in H. destruct (when_ (by_kernel idl x) unlock_mutex x1) as [[x2 [e2|[]]]|] eqn:E2; try done.
    simpl in H. injection H as <- <-. split.
    - rewrite <-Hfr. by eapply release_frozen.
    - exists cs. unfold read_error. rewrite (run_bind _ _ _ _ _ (turn_on s j (P a) x _ x1 v cs x2 _ Hx E2)). by eapply put_error_run. }
  destruct (is_allowed j) as [[]|e|]; [| |by apply (Hfail x [] e)|done].
  2: { injection Hstep as <- <-. split; [done|]. exists []. rewrite Hs at 1. by eapply put_error_run. }
  destruct (read_body idl now_ns read j x) as [[x1 r]|] eqn:E; [|done].
  pose proof (read_body_frozen j Hu _ _ _ E) as Hfr.
  set (cs := if negb (att_mem_exception (att_of x)) then [RRead j] else []).
  assert (when_ (E := exn) (negb (att_mem_exception (att_of x))) (modify (rcall (RRead j))) s = Some (turn s j (P a) x v cs, inr tt)) as Hc.
  { rewrite Hs at 1. unfold cs. destruct (negb _); [|done]. apply turn_call. }
  rewrite (run_bind _ _ _ _ _ Hc). unfold catch_all. unfold mbind at 1, SM_bind at 1.
  rewrite (turn_on s j (P a) x _ x v cs x1 r Hx E). destruct r as [e|u].
  - by apply (Hfail x1 cs e).
  - injection Hstep as <- <-. split; [done|]. by exists cs.
Qed.
Lemma set_turn_local a : plain_request → a ∈ imap pair names →
  local_to J P fz set_turn_of (λ a, for_list (set_one_att idl now names second_try) (sets_of a)) a.
Proof.
  intros Hr Ha s v x' v' Hf Hv HF. pose proof (pair_at (fst a) (snd a)) as Hi. rewrite <-surjective_pairing in Hi. specialize (Hi Ha).
  eapply if_att_turn; [done|by apply frozen_to_set| |done..|exact HF]. clear HF x' v'.
  intros j x x' o Hj Hx Hstep. unfold set_step in Hstep. unfold set_one_att. cbn [r_idx r_idx_in_names].
  rewrite (run_bind _ _ _ _ _ (name_of_run _ _ s Hi)).
  pose proof (turn_start s j (P a) x v Hx Hv) as Hs.
  rewrite (run_bind _ _ s s x) by (rewrite Hs at 1; rewrite (turn_at s j (P a) x x v [] Hx); by rewrite <-Hs).
  destruct (set_body now x) as [[x1 r]|] eqn:E; [|done]. pose proof (set_body_frozen _ _ _ E) as Hfr.
  assert (on_r j (set_body now) s = Some (turn s j (P a) x1 v [], r)) as Ho by (rewrite Hs at 1; by eapply turn_on).
  unfold attempt. unfold mbind at 1, SM_bind at 1. rewrite Ho.
  destruct r as [[l|n]|u]; [|done|].
  - unfold run_unit in Hstep. destruct (when_ _ unlock_mutex x1) as [[x2 [e2|[]]]|] eqn:E2; try done.
    simpl in Hstep. injection Hstep as <- <-. split.
    + rewrite <-Hfr. by eapply release_frozen.
    + exists []. rewrite (run_bind _ _ _ _ _ (turn_on s j (P a) x _ x1 v [] x2 _ Hx E2)). by eapply put_error_run.
  - injection Hstep as <- <-. split; [done|]. by exists [].
Qed.

Lemma no_last_index nm : (∀ i n, names !! i = Some n → tolower n ≠ nm) → last_index names nm = None.
Proof.
  intros H. unfold last_index. destruct (filter _ (imap pair names)) as [|p l] eqn:E; [done|].
  assert (p ∈ filter (λ p, tolower p.2 = nm) (imap pair names)) as Hp by (rewrite E; by left).
  apply list_elem_of_filter in Hp as [Hn Hp]. destruct p as [i n]. apply pair_at in Hp. by destruct (H i n).
Qed.
Lemma no_state : plain_request → state_idx names = None ∧ status_idx names = None.
Proof.
  intros Hr. split; apply no_last_index; intros i n Hi; by destruct (proj1 (Forall_lookup _ _) (pr_names Hr) i n Hi).
Qed.

Lemma set_part_run s x set :
  frz s = fz → set_part atts0 x = Some set →
  (if is_rw (writable (watt x)) then
     y ← attr_at (assoc_ind x); mret (Some (last_written_elts (watt y), w_dim (watt y)))
   else mret None : SM RDev (option (list WElt * (Z * Z)))) s = Some (s, inr set).
Proof.
  intros Hf. unfold set_part. destruct (is_rw _); [|by intros [= <-]].
  destruct (atts0 !! assoc_ind x) as [y|] eqn:Ey; [|done]. intros [= <-].
  destruct (frozen_lookup_back s atts0 _ y Hf Ey) as (z & Hz & Hzy).
  unfold attr_at. rewrite (run_bind _ _ s s z) by (rewrite (run_bind _ _ _ _ _ eq_refl); by rewrite Hz).
  unfold frozen, kept, att_of, last_written_elts in *. by injection Hzy as -> _ _ _ -> -> -> _ _.
Qed.

Lemma value_part_frozen set x v x1 v1 : value_part idl set x v = Some (x1, v1) → frozen x1 = frozen x.
Proof.
  unfold value_part. destruct (attribute_value _); [|done]. simpl. destruct (_ && _); [by intros [= <- _]|].
  destruct (sequence_sent set _); [|done..]. by intros [= <- _].
Qed.
Lemma stamp_frozen : preserves frozen (stamp now).
Proof. unfold stamp. pres. Qed.
Lemma run_unit_frozen (m : SM RAttr unit) x x' : preserves frozen m → run_unit m x = Some x' → frozen x' = frozen x.
Proof. intros Hm. unfold run_unit. destruct (m x) as [[x1 [e|u]]|] eqn:E; try done. intros [= <-]. by eapply Hm. Qed.
Lemma run_unit_run {S} (m : SM S unit) st st' : run_unit m st = Some st' → m st = Some (st', inr tt).
Proof. unfold run_unit. destruct (m st) as [[st1 [e|[]]]|]; try done. by intros [= ->]. Qed.

Section BuildOne.
Context (s : RDev) (a : nat * string) (j : nat) (x : RAttr) (v : NetValue).
Let p := P a.
Let T x v := turn s j p x v [].
(** A method of the attribute, then the answer. *)
Lemma then_described (m : SM RAttr unit) x0 v0 x' (f : RAttr → NetValue → NetValue) :
  r_atts s !! j = Some x → back s !! p = Some v → run_unit m x0 = Some x' →
  (on_r j m;; x ← attr_at j; put_back p (f x)) (T x0 v0) = Some (T x' (f x' v0), inr tt).
Proof.
  intros Hx Hv Hm%run_unit_run. rewrite (run_bind _ _ _ _ _ (turn_on s j p x m x0 v0 [] x' _ Hx Hm)).
  rewrite (run_bind _ _ _ _ _ (turn_at s j p x x' v0 [] Hx)). by eapply turn_put.
Qed.

(** The value is put in the answer, and leaves the attribute. *)
Lemma value_part_run set storage x1 v1 :
  r_atts s !! j = Some x → back s !! p = Some v → attribute_value (att_of x) = Some storage → value_part idl set x v = Some (x1, v1) →
  (if bool_decide (data_type (info (att_of x)) = DEV_ENCODED) && bool_decide (idl = Data3)
   then put_back p (error_from_devfailed idl not_encoded_error (att_name x))
   else
     d ← lift (sequence_sent set storage);
     put_back p (set_net_data d);;
     on_r j (modify (λ x, set_att (delete_seq (att_of x)) x))) (T x v) = Some (T x1 v1, inr tt).
Proof.
  intros Hx Hv Hs Ev. unfold value_part in Ev. rewrite Hs in Ev. cbn [mbind option_bind] in Ev. destruct (_ && _).
  - injection Ev as <- <-. by eapply turn_put.
  - destruct (sequence_sent _ storage) as [d| |]; [|done..]. injection Ev as <- <-.
    rewrite (run_bind _ _ (T x v) (T x v) d eq_refl). rewrite (run_bind _ _ _ _ _ (turn_put s j p v _ x v [] Hv)).
    by eapply turn_on.
Qed.
Lemma build_value_run x' v' :
  r_atts s !! j = Some x → back s !! p = Some v → frz s = fz → 
  bool_decide (quality (att_of x) = ATTR_INVALID) = false → value_is_set (att_of x) = true →
  build_step idl now polled atts0 p (snd a) x v = Some (x', v') →
  build_value idl now j p (T x v) = Some (T x' v', inr tt) ∧ frozen x' = frozen x.
Proof.
  intros Hx Hv Hf Hq Hset. unfold build_step. rewrite Hq, Hset. cbn [negb].
  destruct (set_part atts0 x) as [set|] eqn:Es; [|done]. cbn [mbind option_bind].
  destruct (value_part idl _ x v) as [[x1 v1]|] eqn:Ev; [|done]. cbn [mbind option_bind].
  destruct (run_unit _ x1) as [x2|] eqn:Er; [|done]. cbn [mbind option_bind]. intros [= <- <-].
  assert (s = T x v) as Hs by (by apply turn_start). split.
  2: { rewrite (run_unit_frozen _ _ _ (pres_bind _ _ _ stamp_frozen (λ _, pres_when _ _ _ (give_frozen p))) Er). by eapply value_part_frozen. }
  unfold build_value. rewrite (run_bind _ _ _ _ _ (turn_at s j p x x v [] Hx)).
  change (turn s j p x v []) with (T x v).
  rewrite (run_bind _ _ (T x v) (T x v) set) by (rewrite <-Hs; by apply set_part_run).
  destruct (attribute_value (att_of x)) as [storage|] eqn:Est; [|unfold value_part in Ev; by rewrite Est in Ev].
  rewrite (run_bind _ _ (T x v) (T x v) storage eq_refl), (run_bind _ _ _ _ _ (value_part_run _ storage x1 v1 Hx Hv Est Ev)). by apply (then_described _ x1 v1 x2 (λ x v, described idl x (init_out_data x (snd <$> set) v))).
Qed.
End BuildOne.

Lemma build_turn_local a ds text : plain_request → a ∈ imap pair names →
  local_to J P fz build_turn_of (build_one idl now polled names second_try ds text) a.
Proof.
  intros Hr Ha s v x' v' Hf Hv HF. destruct a as [i nm]. pose proof (pair_at i nm Ha) as Hi.
  unfold build_one. rewrite (run_bind _ _ s s (place i)) by (by rewrite (pr_place Hr i nm Hi)).
  rewrite (run_bind _ _ s s s eq_refl), (run_bind _ _ s s v) by (by change (place i) with (P (i, nm)); rewrite Hv).
  destruct (no_state Hr) as [-> ->].
  rewrite !(bool_decide_eq_false_2 (None = Some i)) by done.
  unfold build_turn_of, build_turn in HF. destruct (bool_decide (net_errs v = [])); cbn [when_].
  2: { injection HF as <- <-. exists s. split; [done|]. rewrite <-Hf. by apply turned_same. }
  destruct (J (i, nm)) as [j|] eqn:Ej; [|done].
  destruct (att_now s (i, nm) j Hf Ej) as (x & y & Hx & _ & _ & _).
  assert (at_ (Some j) s = Some x) as E by done. rewrite E in HF. cbn [mbind option_bind] in HF.
  destruct (build_step _ _ _ _ _ _ x v) as [[x1 v1]|] eqn:Eb; [|done]. cbn [mbind option_bind] in HF. injection HF as <- <-.
  pose proof (turn_start s j (P (i, nm)) x v Hx Hv) as Hs.
  assert (build_att idl now polled i (P (i, nm)) nm s = Some (turn s j (P (i, nm)) x1 v1 [], inr tt) ∧ frozen x1 = frozen x) as [Hb Hfr].
  2: { eexists. split; [exact Hb|]. rewrite <-Hf. by apply (turned_turn J P (i, nm) j x). }
  unfold build_att. rewrite (run_bind _ _ s s j) by (rewrite att_index_run, index_now by done; change (index_in atts0 nm) with (J (i, nm)); by rewrite Ej).
  rewrite Hs at 1. rewrite (run_bind _ _ _ _ _ (turn_at s j (P (i, nm)) x x v [] Hx)).
  destruct (bool_decide (quality (att_of x) = ATTR_INVALID)) eqn:Eq.
  - unfold build_step in Eb. rewrite Eq in Eb. destruct (run_unit _ x) as [x2|] eqn:Er; [|done].
    cbn [mbind option_bind] in Eb. injection Eb as <- <-. split.
    + by apply (then_described s (i, nm) j x v _ x v x2 (λ x' v, described idl x' (init_out_data_quality x' (quality (att_of x)) v))).
    + eapply run_unit_frozen; [|exact Er]. apply pres_bind; [apply stamp_frozen|intros _; apply release_frozen].
  - destruct (negb (value_is_set (att_of x))) eqn:Eset.
    + unfold build_step in Eb. rewrite Eq, Eset in Eb. destruct (run_unit _ x) as [x2|] eqn:Er; [|done].
      cbn [mbind option_bind] in Eb. injection Eb as <- <-. split.
      * apply run_unit_run in Er. rewrite (run_bind _ _ _ _ _ (turn_on s j (P (i, nm)) x _ x v [] x2 _ Hx Er)). by eapply turn_put.
      * eapply run_unit_frozen; [|exact Er]. apply release_frozen.
    + apply (build_value_run s (i, nm) j x v); try done. by apply negb_false_iff.
Qed.

(** A step of a name without a meaning alone does not return. *)
Lemma set_part_stuck s x : frz s = fz → set_part atts0 x = None →
  stuck (if is_rw (writable (watt x)) then
     y ← attr_at (assoc_ind x); mret (Some (last_written_elts (watt y), w_dim (watt y)))
   else mret None : SM RDev (option (list WElt * (Z * Z)))) s.
Proof.
  intros Hf. unfold set_part. destruct (is_rw _); [|done]. destruct (atts0 !! assoc_ind x) eqn:E; [done|]. intros _.
  apply stuck_first. unfold attr_at. eapply stuck_then; [done|]. destruct (r_atts s !! assoc_ind x) as [y|] eqn:Ey; [|by intros s' z].
  destruct (frozen_lookup s atts0 _ y Hf Ey) as (z & Hz & _). congruence.
Qed.
Lemma build_value_stuck s i nm j x v : frz s = fz → r_atts s !! j = Some x → back s !! P (i, nm) = Some v →
  bool_decide (quality (att_of x) = ATTR_INVALID) = false → value_is_set (att_of x) = true →
  build_step idl now polled atts0 (P (i, nm)) nm x v = None → stuck (build_value idl now j (P (i, nm))) s.
Proof.
  intros Hf Hx Hv Hq Hset. unfold build_step. rewrite Hq, Hset. cbn [negb]. unfold build_value. intros HF.
  eapply stuck_then; [by apply attr_at_run|].
  destruct (set_part atts0 x) as [set|] eqn:Es; [|by apply stuck_first, set_part_stuck].
  eapply stuck_then; [by apply set_part_run|]. cbn [mbind option_bind] in HF.
  destruct (attribute_value (att_of x)) as [storage|] eqn:Est; [|by apply stuck_first; intros s' z].
  eapply stuck_then; [done|]. destruct (value_part idl _ x v) as [[x1 v1]|] eqn:Ev; cbn [mbind option_bind] in HF.
  - eapply stuck_then with (st1 := turn s j (P (i, nm)) x1 v1 []) (a := tt).
    { rewrite (turn_start s j (P (i, nm)) x v Hx Hv) at 1. exact (value_part_run s (i, nm) j x v _ storage x1 v1 Hx Hv Est Ev). }
        apply stuck_first, (stuck_on _ _ _ x1); [by eapply turn_att|]. apply stuck_unit. by destruct (run_unit _ x1).
  - apply stuck_first. unfold value_part in Ev. rewrite Est in Ev. cbn [mbind option_bind] in Ev. destruct (_ && _); [done|].
    apply stuck_first. destruct (sequence_sent _ storage); [done|by intros s' z..].
Qed.
Lemma build_turn_stuck ds text a s v : plain_request → a ∈ imap pair names → frz s = fz → back s !! P a = Some v →
  build_turn_of a (at_ (J a) s) v = None → stuck (build_one idl now polled names second_try ds text a) s.
Proof.
  intros Hr Ha Hf Hv HF. destruct a as [i nm]. pose proof (pair_at i nm Ha) as Hi. unfold build_one.
  eapply stuck_then; [apply run_ok; by apply (pr_place Hr i nm)|]. eapply stuck_then; [done|].
  eapply stuck_then; [apply run_ok; change (place i) with (P (i, nm)); by rewrite Hv|].
  destruct (no_state Hr) as [-> ->]. rewrite !(bool_decide_eq_false_2 (None = Some i)) by done.
  unfold build_turn_of, build_turn in HF. destruct (bool_decide (net_errs v = [])); [|done]. cbn [when_]. unfold build_att.
  destruct (J (i, nm)) as [j|] eqn:Ej.
  2: { apply stuck_first. intros s' k. rewrite att_index_run, index_now by done. change (index_in atts0 nm) with (J (i, nm)). by rewrite Ej. }
  destruct (att_now s (i, nm) j Hf Ej) as (x & y & Hx & _ & _ & _).
  assert (at_ (Some j) s = Some x) as E by done. rewrite E in HF. cbn [mbind option_bind] in HF.
  eapply stuck_then; [rewrite att_index_run, index_now by done; change (index_in atts0 nm) with (J (i, nm)); by rewrite Ej|].
  eapply stuck_then; [by apply attr_at_run|].
  destruct (build_step _ _ _ _ _ _ x v) as [[x1 v1]|] eqn:Eb; [done|]. pose proof Eb as Eb'. unfold build_step in Eb'.
  destruct (bool_decide (quality (att_of x) = ATTR_INVALID)) eqn:Eq.
  { apply stuck_first, (stuck_on _ _ _ x); [done|]. apply stuck_unit. by destruct (run_unit _ x). }
  destruct (negb (value_is_set (att_of x))) eqn:Eset.
  { apply stuck_first, (stuck_on _ _ _ x); [done|]. apply stuck_unit. by destruct (run_unit _ x). }
  apply (build_value_stuck s i nm j x v); [done..|by apply negb_false_iff|done].
Qed.
Lemma if_att_stuck (sel : RAttr → bool) f (m : ReadIdx → SM RDev unit) (g : nat * string → list ReadIdx) a s v :
  (∀ a, g a = match at_ (J a) s0 with Some x => if sel x then [mkRIdx (fst a) (J a)] else [] | None => [] end) →
  (∀ x y, frozen x = frozen y → sel x = sel y) →
  (∀ j x, J a = Some j → r_atts s !! j = Some x → f x = None → stuck (m (mkRIdx (fst a) (Some j))) s) →
  frz s = fz → if_att idl sel f (snd a) (at_ (J a) s) v = None → stuck (for_list m (g a)) s.
Proof.
  intros Hg Hsel Hm Hf HF. rewrite Hg. destruct (J a) as [j|] eqn:Ej; [|done].
  destruct (att_now s a j Hf Ej) as (x & y & Hx & Hy & Hxy & _). assert (at_ (Some j) s0 = Some y) as -> by done.
  rewrite <-(Hsel _ _ Hxy). assert (at_ (Some j) s = Some x) as E by done. rewrite E in HF. simpl in HF.
  destruct (sel x); [|done]. destruct (f x) as [[x1 o]|] eqn:Efx; [done|]. cbn [for_list]. apply stuck_first. by apply (Hm j x).
Qed.
Lemma read_turn_stuck a s v : plain_request → a ∈ imap pair names → frz s = fz → read_turn_of a (at_ (J a) s) v = None →
  stuck (for_list (read_one_att idl now_ns is_allowed read names second_try) (reads_of a)) s.
Proof.
  intros Hr Ha Hf HF. pose proof (pair_at (fst a) (snd a)) as Hi. rewrite <-surjective_pairing in Hi. specialize (Hi Ha).
  eapply if_att_stuck; [done|by apply frozen_to_read| |done|exact HF]. clear HF.
  intros j x Hj Hx Hstep. rewrite Hj in Hstep. cbn [mbind option_bind] in Hstep. unfold read_step in Hstep.
  unfold read_one_att. cbn [r_idx r_idx_in_names]. eapply stuck_then; [by apply name_of_run|]. eapply stuck_then; [by apply attr_at_run|].
  assert (∀ x1 e s1, r_atts s1 !! j = Some x1 →
    (x' ← run_unit (when_ (by_kernel idl x) unlock_mutex) x1; Some (x', Some (errors_of e))) = None →
    stuck (read_error idl second_try j x (fst a) (errors_of e) (snd a)) s1) as Hfail.
  { intros x1 e s1 Hx1 H. unfold read_error. apply stuck_first, (stuck_on _ _ _ x1); [done|]. apply stuck_unit. by destruct (run_unit _ x1). }
  destruct (is_allowed j) as [[]|e|]; [|done|by apply (Hfail x)|by intros s' r].
  eapply stuck_then with (st1 := if negb (att_mem_exception (att_of x)) then rcall (RRead j) s else s) (a := tt); [by destruct (negb _)|].
  set (s1 := if negb _ then _ else _). assert (r_atts s1 !! j = Some x) as Hx1 by (unfold s1; by destruct (negb _)).
  unfold catch_all, stuck, mbind, SM_bind, on_r. rewrite Hx1. destruct (read_body idl now_ns read j x) as [[x1 [e|u]]|] eqn:E; [|done|done].
  apply (Hfail x1 e); [|done]. simpl. apply list_lookup_insert_eq. by eapply lookup_lt_Some.
Qed.
Lemma set_turn_stuck a s v : plain_request → a ∈ imap pair names → frz s = fz → set_turn_of a (at_ (J a) s) v = None →
  stuck (for_list (set_one_att idl now names second_try) (sets_of a)) s.
Proof.
  intros Hr Ha Hf HF. pose proof (pair_at (fst a) (snd a)) as Hi. rewrite <-surjective_pairing in Hi. specialize (Hi Ha).
  eapply if_att_stuck; [done|by apply frozen_to_set| |done|exact HF]. clear HF.
  intros j x Hj Hx Hstep. unfold set_step in Hstep.
  unfold set_one_att. cbn [r_idx r_idx_in_names]. eapply stuck_then; [by apply name_of_run|]. eapply stuck_then; [by apply attr_at_run|].
  unfold attempt, stuck. unfold mbind at 1, SM_bind at 1, on_r at 1. rewrite Hx.
  destruct (set_body now x) as [[x1 [[l|n]|u]]|] eqn:E; [|done..]. cbv beta iota.
  apply stuck_first, (stuck_on _ _ _ x1); [simpl; apply list_lookup_insert_eq; by eapply lookup_lt_Some|].
  apply stuck_unit. by destruct (run_unit _ x1).
Qed.

(** ** The whole request *)

Context (hook : SM DevSt unit) (read_attr_hardware : list nat → outcome unit)
  (kernel_state user_state : SM DevSt DevState) (kernel_status user_status : SM DevSt string).

Definition alone_of (a : nat * string) : option RAttr → NetValue → option (option RAttr * NetValue) :=
  alone idl now now_ns is_allowed read polled atts0 (J a) (P a) (snd a).
Definition find_turn_of (a : nat * string) : option RAttr → NetValue → option (option RAttr * NetValue) := find_step idl (snd a).

(** A request whose names are different, whose places are different, and whose hook and
    hardware answer. *)
Record ready : Prop := {
  rd_plain : plain_request;
  rd_keeps : user_keeps;
  rd_names : NoDup (tolower <$> names);
  rd_places : NoDup (P <$> imap pair names);
  rd_hook : ∃ c, hook (set_attrs (alarm_att <$> r_atts s0) (r_core s0)) = Some (c, inr tt) ∧ attr_list c = alarm_att <$> r_atts s0;
  rd_hardware : ∀ l, read_attr_hardware l = Ok tt;
}.
(** The code of the user, called for each name alone, has a meaning. *)
Record read_request : Prop := {
  rr_ready : ready;
  rr_alone : ∀ a, a ∈ imap pair names → ∃ v, back s0 !! P a = Some v ∧ is_Some (alone_of a (at_ (J a) s0) v);
}.

(** The same, for the other names of the request than that at the place [i]. *)
Record ready_but (i : nat) : Prop := {
  rb_ready : ready;
  rb_others : ∀ a, a ∈ imap pair names → fst a ≠ i → ∃ v, back s0 !! P a = Some v ∧ is_Some (alone_of a (at_ (J a) s0) v);
}.
Lemma ready_request i nm v : ready_but i → names !! i = Some nm → back s0 !! P (i, nm) = Some v →
  is_Some (alone_of (i, nm) (at_ (J (i, nm)) s0) v) → read_request.
Proof.
  intros [Hr Ho] Hi Hv Hd. split; [done|]. intros [k n] Ha. destruct (decide (k = i)) as [->|Hk]; [|by apply Ho].
  apply pair_at in Ha. rewrite Hi in Ha. injection Ha as <-. by exists v.
Qed.

Lemma names_indexes : NoDup (tolower <$> names) → NoDup (omap J (imap pair names)).
Proof.
  assert (∀ k l, NoDup (tolower <$> l) → NoDup (omap J (imap (λ i nm, (k + i, nm)%nat) l))) as H.
  2: { intros Hn. specialize (H 0%nat names Hn). simpl in H. by rewrite (imap_ext _ pair) in H. }
  intros k l. revert k. induction l as [|nm l IH]; intros k Hn; [constructor|].
  rewrite fmap_cons in Hn. apply NoDup_cons in Hn as [Hnm Hn]. rewrite imap_cons. simpl.
  assert (NoDup (omap J (imap ((λ i nm, (k + i, nm)%nat) ∘ S) l))) as Hl.
  { rewrite (imap_ext _ (λ i nm, (S k + i, nm)%nat)); [by apply IH|]. intros i n _. simpl. f_equal. lia. }
  destruct (J _) as [j|] eqn:Ej; [|done]. apply NoDup_cons. split; [|done].
  intros ([i n] & Hi & Hj)%list_elem_of_omap. apply Hnm.
  apply list_elem_of_lookup in Hi as [m Hm]. rewrite list_lookup_imap in Hm. destruct (l !! m) as [n'|] eqn:Em; [|done].
  simpl in Hm. injection Hm as <- <-. unfold J in Ej, Hj. simpl in Ej, Hj.
  apply index_lookup in Ej as (x & Hx & Hn1), Hj as (y & Hy & Hn2). rewrite Hx in Hy. injection Hy as <-.
  unfold is_att_name in *. rewrite <-Hn1, Hn2. apply list_elem_of_fmap_2. by eapply list_elem_of_lookup_2.
Qed.

Lemma alone_then a : alone_of a = then_ find_turn_of (then_ read_turn_of (then_ set_turn_of build_turn_of)) a.
Proof. done. Qed.

(** The hook changes the state of the device, not its attributes. *)
Lemma find_alarm_att s1 : loop_result J P find_turn_of (imap pair names) s0 s1 → (∀ a, a ∈ imap pair names → is_Some (back s0 !! P a)) →
  alarm_att <$> r_atts s1 = alarm_att <$> r_atts s0.
Proof.
  intros (H1 & H2 & _ & Hz) Hd. apply list_eq. intros k. rewrite !list_lookup_fmap.
  destruct (decide (k ∈ omap J (imap pair names))) as [(a & Ha & Hk)%list_elem_of_omap|Hk]; [|by rewrite H2].
  destruct (Hd a Ha) as [v Hv]. destruct (H1 a v Ha Hv) as (x' & v' & HF & Hx & _). rewrite Hk in HF, Hx. cbn [at_ mbind option_bind] in HF, Hx.
  unfold at_ in HF, Hx. simpl in HF, Hx. rewrite Hx. unfold find_turn_of, find_step in HF.
  destruct (r_atts s0 !! k) as [x|]; [|by injection HF as <- _].
  destruct (check_startup_exceptions _); injection HF as <- _; [done|]. simpl. by destruct (to_read x).
Qed.
Lemma hook_run s1 c : hook (set_attrs (alarm_att <$> r_atts s0) (r_core s0)) = Some (c, inr tt) → attr_list c = alarm_att <$> r_atts s0 →
  r_core s1 = r_core s0 → alarm_att <$> r_atts s1 = alarm_att <$> r_atts s0 →
  with_core hook s1 = Some (set_r_core c s1, inr tt).
Proof.
  intros Hh Hc Hcore Ha. unfold with_core. rewrite Ha, Hcore, Hh, Hc, <-Ha.
  assert (∀ l, zip_with set_att (alarm_att <$> l) l = l) as Hz.
  { intros l. induction l as [|x l IH]; [done|]. rewrite fmap_cons. cbn [zip_with]. by rewrite set_att_alarm, IH. }
  rewrite Hz. by destruct s1.
Qed.
Lemma hardware_run wanted s : plain_request → (∀ l, read_attr_hardware l = Ok tt) →
  ∃ cs, read_hardware read_attr_hardware names wanted s = Some (mkRDev (r_atts s) (r_core s) (back s) (r_calls s ++ cs), inr tt).
Proof.
  intros Hr Hh. unfold read_hardware. rewrite (run_bind _ _ s s s eq_refl). destruct (no_state Hr) as [-> _].
  rewrite (bool_decide_eq_false_2 (is_Some (@None nat))) by (by intros [? ?]). cbn [andb]. destruct (_ && _); cbn [when_].
  - eexists. rewrite (run_bind _ _ s (rcall (RHardware (omap r_idx wanted)) s) tt eq_refl), Hh. done.
  - exists []. rewrite app_nil_r. by destruct s.
Qed.

(** A request after its look-ups, its hook and its hardware. *)
Let request : SM RDev unit := read_attributes_no_except idl now now_ns hook is_allowed read_attr_hardware read kernel_state user_state kernel_status user_status
  polled names second_try.
Let read_loop : SM RDev unit := for_list (λ a, for_list (read_one_att idl now_ns is_allowed read names second_try) (reads_of a)) (imap pair names).
Let set_loop : SM RDev unit := for_list (λ a, for_list (set_one_att idl now names second_try) (sets_of a)) (imap pair names).
Let build_loop : SM RDev unit := for_list (build_one idl now polled names second_try UNKNOWN "") (imap pair names).
Lemma request_start : ready → (∀ a, a ∈ imap pair names → is_Some (back s0 !! P a)) →
  ∃ s1 s2, loop_result J P find_turn_of (imap pair names) s0 s1 ∧ r_atts s2 = r_atts s1 ∧ back s2 = back s1 ∧
    request s0 = (read_loop;; set_loop;; build_loop) s2.
Proof.
  intros [Hr Hu Hn Hp (c & Hh & Hc) Hw] Hb. set (l := imap pair names) in *. pose proof (names_indexes Hn) as Hj. fold l in Hj.
  destruct (for_list_local J P find_turn_of (λ a, find_one idl second_try a;; mret tt) l s0 Hj Hp) as (s1 & Hs1 & R1 & C1).
  { intros a Ha s v x' v' Hf Hv HF. destruct (find_turn a s v x' v' Hr Ha Hf Hv HF) as (s' & Hs' & Ht).
    exists s'. split; [|done]. by rewrite (run_bind _ _ _ _ _ Hs'). }
  { intros a Ha. destruct (Hb a Ha) as [v Hv]. exists v. split; [done|]. unfold find_turn_of, find_step.
    destruct (at_ (J a) s0) as [x|]; [|done]. by destruct (check_startup_exceptions _). }
  apply (find_all_loop l s0 s1 Hr (reflexivity l) eq_refl Hb) in Hs1.
  pose proof (find_alarm_att s1 R1 Hb) as Hal. set (s1h := set_r_core c (rcall RHook s1)).
  destruct (hardware_run (concat (reads_of <$> l)) s1h Hr Hw) as (cs & Hhw). set (s2 := mkRDev _ _ _ _) in Hhw.
  exists s1, s2. split; [exact R1|]. split; [done|]. split; [done|].
  unfold request, read_attributes_no_except. fold l. rewrite (run_bind _ _ _ _ _ Hs1), (run_bind _ _ s1 (rcall RHook s1) tt eq_refl).
  assert (with_core hook (rcall RHook s1) = Some (s1h, inr tt)) as Hhook by (by apply hook_run).
  rewrite (run_bind _ _ _ _ _ Hhook), (run_bind _ _ _ _ _ Hhw).
  unfold read_state, read_status, read_loop, set_loop, build_loop. destruct (no_state Hr) as [-> ->]. unfold mbind, SM_bind. rewrite for_list_concat.
  destruct (for_list _ l s2) as [[s3 [e|u]]|]; [done| |done]. by rewrite for_list_concat.
Qed.

(** A request is the loop of what each name does alone. *)
Lemma request_loop : read_request → ∃ s', request s0 = Some (s', inr tt) ∧ loop_result J P alone_of (imap pair names) s0 s'.
Proof.
  intros [Hrd Hd]. pose proof Hrd as [Hr Hu Hn Hp _ _]. set (l := imap pair names) in *. pose proof (names_indexes Hn) as Hj. fold l in Hj.
  destruct (request_start Hrd) as (s1 & s2 & R1 & Ea & Eb & Hrun); [intros a Ha; destruct (Hd a Ha) as (v & -> & _); by eexists|].
  fold l in R1. assert (∀ a, a ∈ l → ∃ v, back s1 !! P a = Some v ∧ is_Some (then_ read_turn_of (then_ set_turn_of build_turn_of) a (at_ (J a) s1) v)) as D1.
  { eapply loop_defined; [exact R1|]. exact Hd. }
  assert (frz s1 = fz) as Hz1 by (apply R1). assert (frz s2 = frz s1) as Hz2 by (unfold frz; by rewrite Ea).
  assert (∀ k, at_ k s2 = at_ k s1) as Eat by (intros [k|]; [|done]; unfold at_; simpl; by rewrite Ea).
  destruct (for_list_local J P read_turn_of (λ a, for_list (read_one_att idl now_ns is_allowed read names second_try) (reads_of a)) l s2 Hj Hp) as (s3 & Hs3 & R3 & _).
  { intros a Ha. rewrite Hz2, Hz1. by apply read_turn_local. }
  { intros a Ha. destruct (D1 a Ha) as (v & Hv & H). exists v. split; [by rewrite Eb|]. unfold then_ in H. rewrite Eat.
    by destruct (read_turn_of a _ v). }
  assert (loop_result J P read_turn_of l s1 s3) as R3'.
  { destruct R3 as (A & B & C & D). rewrite Ea in B. rewrite Eb in C. split; [|split; [done|split; [done|by rewrite D]]].
    intros a v Ha Hv. rewrite <-Eat. apply A; [done|by rewrite Eb]. }
  assert (frz s3 = fz) as Hz3 by (transitivity (frz s1); [apply R3'|done]).
  pose proof (loop_defined J P _ _ l s1 s3 R3' D1) as D3.
  destruct (for_list_local J P set_turn_of (λ a, for_list (set_one_att idl now names second_try) (sets_of a)) l s3 Hj Hp) as (s4 & Hs4 & R4 & _).
  { intros a Ha. rewrite Hz3. by apply set_turn_local. }
  { intros a Ha. destruct (D3 a Ha) as (v & Hv & H). exists v. split; [done|]. unfold then_ in H. by destruct (set_turn_of a _ v). }
  assert (frz s4 = fz) as Hz4 by (transitivity (frz s3); [apply R4|done]).
  pose proof (loop_defined J P _ _ l s3 s4 R4 D3) as D4.
  destruct (for_list_local J P build_turn_of (build_one idl now polled names second_try UNKNOWN "") l s4 Hj Hp) as (s5 & Hs5 & R5 & _); [|exact D4|].
  { intros a Ha. rewrite Hz4. by apply build_turn_local. }
  exists s5. split.
  - rewrite Hrun, (run_bind _ _ _ _ _ Hs3), (run_bind _ _ _ _ _ Hs4). exact Hs5.
  - eapply loop_then; [exact R1|]. eapply loop_then; [exact R3'|]. by eapply loop_then.
Qed.

(** A request for one name that returns: the name alone has a meaning. *)
Lemma request_needs a v s' : ready → imap pair names = [a] → back s0 !! P a = Some v → request s0 = Some (s', inr tt) →
  is_Some (alone_of a (at_ (J a) s0) v).
Proof.
  intros Hrd Hl Hv Hreq. pose proof Hrd as [Hr Hu Hn Hp _ _]. assert (a ∈ imap pair names) as Ha by (rewrite Hl; by left).
  destruct (request_start Hrd) as (s1 & s2 & R1 & Ea & Eb & Hrun); [intros b; rewrite Hl; intros ->%list_elem_of_singleton; by eexists|].
  destruct R1 as (F1 & _ & _ & Hz1). destruct (F1 a v Ha Hv) as (x1 & v1 & E1 & H1 & Hv1).
  assert (at_ (J a) s2 = x1) as Hx2 by (rewrite <-H1; destruct (J a); [|done]; unfold at_; simpl; by rewrite Ea).
  assert (back s2 !! P a = Some v1) as Hv2 by (by rewrite Eb). assert (frz s2 = fz) as Hz2 by (transitivity (frz s1); [unfold frz; by rewrite Ea|done]).
  rewrite Hrun in Hreq. unfold read_loop, set_loop, build_loop in Hreq. rewrite Hl in Hreq. cbn [for_list] in Hreq.
  rewrite alone_then. unfold then_. rewrite E1. cbn [mbind option_bind].
  destruct (read_turn_of a x1 v1) as [[x3 v3]|] eqn:E3.
  2: { exfalso. rewrite <-Hx2 in E3. eapply (stuck_first _ _ s2); [|exact Hreq]. eapply stuck_first, read_turn_stuck; done. }
  rewrite <-Hx2 in E3. destruct (read_turn_local a Hr Hu Ha s2 v1 x3 v3 Hz2 Hv2 E3) as (s3 & Hs3 & T3).
  destruct (turned_cell _ _ _ _ _ v1 _ _ _ T3 Hv2) as (Hx3 & Hv3 & Hz3). rewrite (run_bind _ _ _ s3 tt) in Hreq by (by rewrite (run_bind _ _ _ _ _ Hs3)).
  cbn [mbind option_bind]. destruct (set_turn_of a x3 v3) as [[x4 v4]|] eqn:E4.
  2: { exfalso. rewrite <-Hx3 in E4. eapply (stuck_first _ _ s3); [|exact Hreq]. eapply stuck_first, set_turn_stuck; done. }
  rewrite <-Hx3 in E4. destruct (set_turn_local a Hr Ha s3 v3 x4 v4 Hz3 Hv3 E4) as (s4 & Hs4 & T4).
  destruct (turned_cell _ _ _ _ _ v3 _ _ _ T4 Hv3) as (Hx4 & Hv4 & Hz4). rewrite (run_bind _ _ _ s4 tt) in Hreq by (by rewrite (run_bind _ _ _ _ _ Hs4)).
  cbn [mbind option_bind]. destruct (build_turn_of a x4 v4) as [[x5 v5]|] eqn:E5; [by eexists|].
  exfalso. rewrite <-Hx4 in E5. eapply (stuck_first _ _ s4); [|exact Hreq]. by eapply build_turn_stuck.
Qed.
End Loops.
