(* ===== verification/ReadProps.v ===== *)
(** * What a client gets from a request that reads attributes

  The answers of a request are those of its names alone, and the mutexes of the attributes
  are released or owned by the answers. *)
From S2P Require Import Prelude StateExn CppString PollRing AttrHistory Number Attribute AttrTheory DevState WAttribute WriteAttrs ReadAttrs ReadTheory.
Local Open Scope string_scope.
Local Open Scope list_scope.
Local Open Scope Z_scope.
Implicit Types s : RDev.
Implicit Types x : RAttr.
Implicit Types v : NetValue.

(** ** Code that does not throw *)

Definition no_exc {A} (o : outcome A) : Prop := ∀ e, o ≠ Exc e.
Lemma no_exc_bind {A B} (o : outcome A) (f : A → outcome B) : no_exc o → (∀ a, no_exc (f a)) → no_exc (o ≫= f).
Proof. intros Ho Hf e. destruct o; simpl; [apply Hf| |done]. by specialize (Ho e0). Qed.
Lemma no_exc_deref {A} (p : option A) : no_exc (deref p).
Proof. intros e. by destruct p. Qed.
Lemma no_exc_vget {A} (l : list A) i : no_exc (vget l i).
Proof. intros e. unfold vget. destruct (0 <=? i); [apply no_exc_deref|done]. Qed.
Lemma no_exc_ok {A} (a : A) : no_exc (Ok a).
Proof. by intros e. Qed.
Lemma no_exc_undef {A} : no_exc (Undef (A := A)).
Proof. by intros e. Qed.
Lemma no_throw_exc {S A} (o : outcome A) : no_exc o → no_throw (S := S) (lift o).
Proof. apply no_throw_lift. Qed.
Create HintDb nothrow.
#[export] Hint Resolve no_exc_deref no_exc_vget no_exc_ok no_exc_undef no_throw_ret no_throw_modify : nothrow.
Ltac nothrow :=
  repeat (lazymatch goal with
  | |- no_exc (_ ≫= _) => apply no_exc_bind; [|intros ?]
  | |- no_exc (if ?b then _ else _) => destruct b
  | |- no_exc (match ?y with _ => _ end) => destruct y
  | |- no_throw (_ ≫= _) => apply no_throw_bind; [|intros ?]
  | |- no_throw (when_ _ _) => apply no_throw_when
  | |- no_throw (lift _) => apply no_throw_exc
  | |- no_throw get => by intros ? ? ?
  | |- no_throw (if ?b then _ else _) => destruct b
  | |- no_throw (match ?y with _ => _ end) => destruct y
  | |- no_throw _ => solve [auto with nothrow]
  | |- _ => solve [auto with nothrow]
  end).

Lemma any_elt_no_exc {A} (p : A → bool) l n i : no_exc (any_elt p l n i).
Proof. revert i. induction n as [|n IH]; intros i; cbn [any_elt]; nothrow. Qed.
Lemma int_result_no_exc st z : no_exc (int_result st z).
Proof. unfold int_result. nothrow. Qed.
Lemma num_add_no_exc t a b : no_exc (num_add t a b).
Proof. unfold num_add. nothrow; apply int_result_no_exc. Qed.
Lemma num_sub_no_exc t a b : no_exc (num_sub t a b).
Proof. unfold num_sub. nothrow; apply int_result_no_exc. Qed.
#[export] Hint Resolve any_elt_no_exc num_add_no_exc num_sub_no_exc : nothrow.
Lemma pair_no_exc t d a b : no_exc (pair_out_of_range t d a b).
Proof. unfold pair_out_of_range. nothrow. Qed.
#[export] Hint Resolve pair_no_exc : nothrow.
Lemma pairs_no_exc t d l1 l2 n i : no_exc (pairs_out_of_range t d l1 l2 n i).
Proof. revert i. induction n as [|n IH]; intros i; cbn [pairs_out_of_range]; nothrow. Qed.
Lemma bytes_no_exc d l1 l2 n i : no_exc (bytes_out_of_range d l1 l2 n i).
Proof. revert i. induction n as [|n IH]; intros i; cbn [bytes_out_of_range]; nothrow. Qed.
#[export] Hint Resolve pairs_no_exc bytes_no_exc : nothrow.

Lemma check_alarm_never now_ns a : any (alarm_conf a) = true → never a (check_alarm now_ns).
Proof.
  intros Ha. assert (∀ f q p n o, no_throw (check_side f q p n o)) as Hside.
  { intros. unfold check_side, storage_any. nothrow. }
  assert (∀ q min max lo hi n o, no_throw (general_check_alarm q min max lo hi n o)) as Hgen.
  { intros. unfold general_check_alarm. nothrow. }
  assert (∀ q lo hi, q = ATTR_ALARM ∨ q = ATTR_WARNING → no_throw (check_thresholds q lo hi)) as Hth.
  { intros q lo hi Hq. unfold check_thresholds, check_numbers, check_encoded.
    destruct Hq as [-> | ->]; cbn [level_flags encoded_flags]; nothrow. }
  assert (no_throw (check_level_alarm)) as Hlevel by (unfold check_level_alarm; nothrow; auto).
  assert (no_throw (check_warn_alarm)) as Hwarn by (unfold check_warn_alarm; nothrow; auto).
  assert (no_throw (check_rds_alarm now_ns)) as Hrds by (unfold check_rds_alarm, check_rds_out_of_range, check_rds_encoded; nothrow).
  unfold check_alarm. eapply never_run; [reflexivity|]. rewrite Ha. eapply never_run; [reflexivity|].
  apply no_throw_never. cbv zeta. nothrow.
Qed.

(** ** The place of an answer only matters to the mutex *)

Section Place.
Context (idl : Idl) (now : TimeVal) (now_ns : Z) (is_allowed : nat → outcome bool)
  (read : nat → Attribute → option UserRead) (polled : list (string * Z)) (atts0 : list RAttr).

Definition stamped x : RAttr := if (tv_sec (att_when x) =? 0) && date (att_of x) then set_when now x else x.
Lemma stamped_mutex x : attr_mutex (stamped x) = attr_mutex x.
Proof. unfold stamped. by destruct (_ && _). Qed.
Lemma stamped_frozen x : frozen (stamped x) = frozen x.
Proof. unfold stamped. by destruct (_ && _). Qed.
Lemma stamped_att x : att_of (stamped x) = att_of x.
Proof. unfold stamped. by destruct (_ && _). Qed.
Lemma stamp_run x : stamp now x = Some (stamped x, inr tt).
Proof. unfold stamp, stamped. rewrite (run_bind _ _ _ _ _ eq_refl). by destruct (_ && _). Qed.
Lemma stamp_give p b x x2 :
  run_unit (stamp now;; when_ b (give_mutex p)) x = Some x2 →
  if b then attr_mutex x = MutexLocked ∧ x2 = set_mutex (MutexGiven p) (stamped x) else x2 = stamped x.
Proof.
  unfold run_unit. rewrite (run_bind _ _ _ _ _ (stamp_run x)). destruct b; cbn [when_]; [|by intros [= <-]].
  unfold give_mutex. rewrite (run_bind _ _ _ _ _ eq_refl). case_bool_decide as E; [|done]. intros [= <-]. split; [|done].
  unfold stamped in E. by destruct (_ && _).
Qed.
Lemma give_stamp p b x :
  (b = true → attr_mutex x = MutexLocked) →
  run_unit (stamp now;; when_ b (give_mutex p)) x = Some (if b then set_mutex (MutexGiven p) (stamped x) else stamped x).
Proof.
  intros Hb. unfold run_unit. rewrite (run_bind _ _ _ _ _ (stamp_run x)). destruct b; cbn [when_]; [|done].
  unfold give_mutex. rewrite (run_bind _ _ _ _ _ eq_refl), bool_decide_eq_true_2; [done|].
  unfold stamped. destruct (_ && _); by apply Hb.
Qed.

Lemma build_step_place p p' nm x v x1 v1 :
  build_step idl now polled atts0 p nm x v = Some (x1, v1) → ∃ x2, build_step idl now polled atts0 p' nm x v = Some (x2, v1).
Proof.
  unfold build_step. destruct (bool_decide _); [eauto|]. destruct (negb (value_is_set _)); [eauto|].
  destruct (set_part atts0 x) as [set|]; [|done]. cbn [mbind option_bind].
  destruct (value_part idl _ x v) as [[y w]|]; [|done]. cbn [mbind option_bind].
  destruct (run_unit _ y) as [y2|] eqn:E; [|done]. cbn [mbind option_bind]. apply stamp_give in E. intros [= <- <-].
  rewrite give_stamp by (intros Hb; rewrite Hb in E; by destruct E). destruct (_ && _).
  - destruct E as [_ ->]. eexists. done.
  - subst y2. eexists. done.
Qed.
Lemma alone_place j p p' nm (x : option RAttr) v (x1 : option RAttr) v1 :
  alone idl now now_ns is_allowed read polled atts0 j p nm x v = Some (x1, v1) →
  ∃ x2 : option RAttr, alone idl now now_ns is_allowed read polled atts0 j p' nm x v = Some (x2, v1).
Proof.
  unfold alone. destruct (find_step idl nm x v) as [[xa va]|]; [|done]. cbn [mbind option_bind].
  destruct (if_att idl to_read _ nm xa va) as [[xb vb]|]; [|done]. cbn [mbind option_bind].
  destruct (if_att idl to_set _ nm xb vb) as [[xc vc]|]; [|done]. cbn [mbind option_bind].
  unfold build_turn. destruct (bool_decide _); [|eauto]. destruct xc as [xc|]; [|done]. cbn [mbind option_bind].
  destruct (build_step idl now polled atts0 p nm xc vc) as [[xd vd]|] eqn:E; [|done]. cbn [mbind option_bind].
  intros [= <- <-]. apply (build_step_place p p') in E as [xe ->]. eexists. done.
Qed.
End Place.

(** ** A request and each of its names alone *)

Section Together.
Context (idl : Idl) (now : TimeVal) (now_ns : Z) (hook : SM DevSt unit) (is_allowed : nat → outcome bool)
  (read_attr_hardware : list nat → outcome unit) (read : nat → Attribute → option UserRead)
  (kernel_state user_state : SM DevSt DevState) (kernel_status user_status : SM DevSt string) (polled : list (string * Z)).

Let request names second_try := read_attributes_no_except idl now now_ns hook is_allowed read_attr_hardware read
  kernel_state user_state kernel_status user_status polled names second_try.
Let good names second_try s := read_request idl now now_ns is_allowed read polled names second_try s hook read_attr_hardware.

Let is_ready names second_try s := ready read names second_try s hook read_attr_hardware.

Lemma ready_alone names second_try s i nm v :
  is_ready names second_try s → names !! i = Some nm → is_ready [nm] None (set_back [v] s).
Proof.
  intros [[Hp Hn] Hk Hd Hpl Hh Hw] Hi. split; [split| |..].
  - intros k n. destruct k as [|k]; [by intros [= <-]|by destruct k].
  - apply Forall_singleton. by eapply (proj1 (Forall_lookup _ _) Hn).
  - done.
  - apply NoDup_singleton.
  - apply NoDup_singleton.
  - done.
  - done.
Qed.
Lemma good_alone names second_try s i nm v :
  good names second_try s → names !! i = Some nm → back s !! place second_try i = Some v → good [nm] None (set_back [v] s).
Proof.
  intros [Hr Ha] Hi Hv. split; [by eapply ready_alone|].
  intros a Ha'. apply list_elem_of_singleton in Ha' as ->. exists v. split; [done|].
  destruct (Ha (i, nm)) as (v' & Hv' & [[x1 v1] He]).
  { apply list_elem_of_lookup. exists i. by rewrite list_lookup_imap, Hi. }
  cbn [fst] in Hv'. rewrite Hv in Hv'. injection Hv' as <-.
  destruct (alone_place _ _ _ _ _ _ _ _ _ 0%nat _ _ _ _ _ He) as [x2 He']. by eexists.
Qed.

(** A request for this name alone, from the same device, returns. *)
Definition returns_alone s nm v : Prop := ∃ s1, request [nm] None (set_back [v] s) = Some (s1, inr tt).
Lemma alone_returns names second_try s i nm v :
  is_ready names second_try s → names !! i = Some nm → returns_alone s nm v →
  is_Some (alone_of idl now now_ns is_allowed read polled second_try s (i, nm) (at_ (index_in (r_atts s) nm) s) v).
Proof.
  intros Hr Hi [s1 Hs1]. pose proof (ready_alone _ _ _ _ _ v Hr Hi) as Hr1.
  destruct (request_needs _ _ _ _ _ _ _ _ _ _ _ _ _ _ _ _ _ _ Hr1 (reflexivity [(0%nat, nm)]) (reflexivity (Some v)) Hs1) as [[x1 v1] He].
  destruct (alone_place _ _ _ _ _ _ _ _ _ (place second_try i) _ _ _ _ _ He) as [x2 He']. by eexists.
Qed.
Definition each_alone (names : list string) second_try s : Prop :=
  ∀ i nm, names !! i = Some nm → ∃ v, back s !! place second_try i = Some v ∧ returns_alone s nm v.
Lemma ready_but_returns names second_try s i : is_ready names second_try s →
  (∀ k nm, names !! k = Some nm → k ≠ i → ∃ v, back s !! place second_try k = Some v ∧ returns_alone s nm v) →
  ready_but idl now now_ns is_allowed read polled names second_try s hook read_attr_hardware i.
Proof.
  intros Hr Ha. split; [done|]. intros [k nm] Hk%pair_at Hki. destruct (Ha k nm Hk Hki) as (v & Hv & Hs). exists v. split; [exact Hv|].
  by eapply alone_returns.
Qed.
Lemma good_returns names second_try s : is_ready names second_try s → each_alone names second_try s → good names second_try s.
Proof.
  intros Hr Ha. split; [done|]. intros [i nm] Hi%pair_at. destruct (Ha i nm Hi) as (v & Hv & Hs). exists v. split; [exact Hv|].
  by eapply alone_returns.
Qed.

(** C12: a request for several attributes returns when the requests for each of its names alone
    return, and the answer of a name is the one of the request for this name alone: no
    attribute, whether it fails, is not allowed or has no value, changes the answer of another
    one. The names are different, whatever their case, and none is State or Status; the hook and
    [read_attr_hardware] succeed, and the code of the user keeps the definitions of the
    attributes. (A name that is there twice can wait for its own mutex for ever, see
    [name_twice_blocks].) *)
Theorem read_together names second_try s :
  is_ready names second_try s → each_alone names second_try s →
  ∃ s', request names second_try s = Some (s', inr tt) ∧
    ∀ i nm v s1, names !! i = Some nm → back s !! place second_try i = Some v → request [nm] None (set_back [v] s) = Some (s1, inr tt) →
      back s' !! place second_try i = back s1 !! 0%nat.
Proof.
  intros Hr Ha. pose proof (good_returns _ _ _ Hr Ha) as Hg.
  destruct (request_loop _ _ _ _ _ _ _ _ s hook read_attr_hardware kernel_state user_state kernel_status user_status Hg) as (s' & Hs' & R & _).
  exists s'. split; [exact Hs'|]. intros i nm v s1 Hi Hv Hs1. pose proof (good_alone _ _ _ _ _ _ Hg Hi Hv) as Hg1.
  destruct (request_loop _ _ _ _ _ _ _ _ _ hook read_attr_hardware kernel_state user_state kernel_status user_status Hg1) as (s2 & Hs2 & R1 & _).
  assert (s2 = s1) as -> by (unfold request in Hs1; congruence).
  assert ((i, nm) ∈ imap pair names) as Hin by (apply list_elem_of_lookup; exists i; by rewrite list_lookup_imap, Hi).
  destruct (R (i, nm) v Hin Hv) as (x1 & v1 & He & _ & Hb).
  destruct (R1 (0%nat, nm) v) as (x2 & v2 & He1 & _ & Hb1); [by left|done|]. cbn [fst] in Hb, Hb1.
  change (place None 0) with 0%nat in Hb1. rewrite Hb, Hb1. f_equal.
  destruct (alone_place _ _ _ _ _ _ _ _ _ 0%nat _ _ _ _ _ He) as [x3 He']. unfold alone_of in He1. simpl in He1.
  change (r_atts (set_back [v] s)) with (r_atts s) in He1. change (place None 0) with 0%nat in He1.
  change (at_ (index_in (r_atts s) nm) (set_back [v] s)) with (at_ (index_in (r_atts s) nm) s) in He1.
  cbn [snd] in He'. rewrite He' in He1. by injection He1.
Qed.
End Together.

(** ** The mutexes *)

Section Mutexes.
Context (idl : Idl) (now : TimeVal) (now_ns : Z) (is_allowed : nat → outcome bool)
  (read : nat → Attribute → option UserRead) (polled : list (string * Z)) (atts0 : list RAttr).

(** The code of the user that manages the mutex of an attribute leaves it locked when it
    returns and unlocked when it throws; it does not say that a memorized value failed. *)
Definition user_locks : Prop := ∀ j a r, read j a = Some r →
  kept (ur_att r) = kept a ∧ ur_locked r = match ur_end r with inr _ => true | inl _ => false end.
(** The mutex of a forwarded attribute that is only written would not be released. *)
Definition releasable x : Prop := is_fwd_att (info (att_of x)) = true → writable (watt x) ≠ WRITE.

Definition uses x : bool := uses_mutex idl x.
(** Before the last step: the mutex is held by an attribute that was read without an error. *)
Definition held x v : Prop :=
  attr_mutex x = MutexFree ∨ attr_mutex x = MutexLocked ∧ net_errs v = [] ∧ uses x = true ∧ to_read x = true.
Lemma frozen_uses x y : frozen x = frozen y → uses x = uses y.
Proof. unfold uses, uses_mutex. by intros [= _ _ _ _ _ _ _ _ ->]. Qed.
Lemma frozen_by_kernel x y : frozen x = frozen y → by_kernel idl x = by_kernel idl y.
Proof. unfold by_kernel. by intros [= _ _ _ _ _ _ _ _ ->]. Qed.

Lemma on_att_mutex {A} (m : SM Attribute A) : preserves attr_mutex (on_att m).
Proof. intros x x' r. unfold on_att. destruct (m _) as [[a r']|]; [|done]. by intros [= <- _]. Qed.
Lemma set_body_mutex : preserves attr_mutex (set_body now).
Proof. unfold set_body, set_rvalue. pres; apply on_att_mutex. Qed.
Lemma check_read_alarm_run x x' r : check_read_alarm now_ns x = Some (x', r) → attr_mutex x' = attr_mutex x ∧ r = inr tt.
Proof.
  unfold check_read_alarm. rewrite (run_bind _ _ _ _ _ eq_refl). destruct (_ && _) eqn:E; [|by intros [= <- <-]]. cbn [when_].
  apply andb_true_iff in E as [Ha _]. unfold mbind, SM_bind, on_att. destruct (check_alarm _ _) as [[a [e|b]]|] eqn:Ec; [| |done].
  - exfalso. eapply check_alarm_never; [|exact Ec]. unfold alarm_att. by destruct (is_WAttribute x).
  - by intros [= <- <-].
Qed.

Lemma unlock_run x x' : run_unit unlock_mutex x = Some x' → attr_mutex x = MutexLocked ∧ attr_mutex x' = MutexFree.
Proof.
  unfold run_unit, unlock_mutex. rewrite (run_bind _ _ _ _ _ eq_refl). case_bool_decide; [|done]. by intros [= <-].
Qed.
Lemma release_run b x x' : run_unit (when_ b unlock_mutex) x = Some x' →
  if b then attr_mutex x = MutexLocked ∧ attr_mutex x' = MutexFree else x' = x.
Proof. destruct b; [apply unlock_run|]. unfold run_unit. by intros [= <-]. Qed.

(** The reading leaves the mutex of its attribute locked exactly when it succeeds. *)
Lemma read_step_mutex j x x1 o :
  user_locks → idl ≠ Data3 → attr_mutex x = MutexFree → read_step idl now_ns is_allowed read j x = Some (x1, o) →
  frozen x1 = frozen x ∧
  attr_mutex x1 = match o with None => if uses x then MutexLocked else MutexFree | Some _ => MutexFree end ∧
  (att_mem_exception (att_of x) = true → o ≠ None).
Proof.
  intros Hu Hidl Hx. unfold read_step. destruct (is_allowed j) as [[]|e|]; [|by intros [= <- <-]| |done].
  2: { destruct (run_unit _ x) as [x2|] eqn:Eu; [|done]. simpl. intros [= <- <-]. apply release_run in Eu.
       destruct (by_kernel idl x); [destruct Eu; congruence|by subst x2]. }
  assert (user_keeps read) as Hk by (intros k a r Hr; by apply (Hu k a r Hr)).
  destruct (read_body idl now_ns read j x) as [[x2 r]|] eqn:E; [|done]. pose proof (read_body_frozen idl now_ns read j Hk _ _ _ E) as Hf.
  assert (attr_mutex x2 = match r with
                          | inr _ => if uses x then MutexLocked else MutexFree
                          | inl _ => if by_kernel idl x then MutexLocked else MutexFree end ∧
          (att_mem_exception (att_of x) = true → ∃ e, r = inl e)) as [Hm Hmem].
  { revert E. unfold read_body. rewrite (run_bind _ _ _ _ _ eq_refl).
    set (xl := if by_kernel idl x then set_mutex MutexLocked x else x).
    assert (when_ (by_kernel idl x) lock_mutex x = Some (xl, inr tt)) as Hl.
    { unfold xl. destruct (by_kernel idl x); [|done]. cbn [when_]. unfold lock_mutex. rewrite (run_bind _ _ _ _ _ eq_refl). by rewrite bool_decide_eq_true_2. }
    rewrite (run_bind _ _ _ _ _ Hl). rewrite (run_bind _ _ xl (set_watt (reset_read_value (watt xl)) xl) tt eq_refl).
    set (xr := set_watt _ xl). assert (attr_mutex xr = if by_kernel idl x then MutexLocked else MutexFree) as Hxr.
    { unfold xr, xl. by destruct (by_kernel idl x). }
    assert (attr_serial_model xr = attr_serial_model x) as Hsm by (unfold xr, xl; by destruct (by_kernel idl x)).
    clearbody xr. clear Hl. destruct (att_mem_exception (att_of x)).
    { intros [= <- <-]. split; [done|]. intros _. by eexists. }
    unfold mbind, SM_bind. destruct (user_read read j xr) as [[xu e]|] eqn:Eu; [|done].
    unfold user_read in Eu. destruct (read j (att_of xr)) as [u|] eqn:Er; [|done]. injection Eu as Exu Ee.
    destruct (Hu j _ u Er) as [_ Hlock].
    assert (attr_mutex xu = match ur_end u with
                            | inr _ => if uses x then MutexLocked else MutexFree
                            | inl _ => if by_kernel idl x then MutexLocked else MutexFree end) as Hxu.
    { rewrite <-Exu. unfold uses, uses_mutex, by_kernel, has_mutex in *. rewrite (bool_decide_eq_false_2 (idl = Data3)) in * by done.
      rewrite Hlock. destruct (ur_when u); simpl; rewrite Hsm; destruct (attr_serial_model x), (ur_end u); simpl in *; done. }
    destruct e as [e|[]]; subst; rewrite Ee in *.
    - intros [= <- <-]. split; [done|done].
    - intros Hc. apply check_read_alarm_run in Hc as [Hc ->]. split; [by rewrite Hc|done]. }
  destruct r as [e|u].
  - destruct (run_unit _ x2) as [x3|] eqn:Eu; [|done]. simpl. intros [= <- <-].
    pose proof (run_unit_frozen _ _ _ (release_frozen _) Eu) as Hf3. apply release_run in Eu.
    split; [congruence|]. split; [|done]. destruct (by_kernel idl x); [by destruct Eu|by subst].
  - intros [= <- <-]. split; [done|]. split; [done|]. intros Hme. by destruct (Hmem Hme).
Qed.

Lemma set_step_mutex nm x x1 o v :
  idl ≠ Data3 → to_set x = true → held x v → (att_mem_exception (att_of x) = true → attr_mutex x = MutexFree) →
  set_step idl now x = Some (x1, o) → held x1 (with_errors idl nm o v) ∧ frozen x1 = frozen x.
Proof.
  intros Hidl Hset Hh Hmem. unfold set_step. destruct (set_body now x) as [[x2 r]|] eqn:E; [|done].
  pose proof (set_body_mutex _ _ _ E) as Hm. pose proof (set_body_frozen now _ _ _ E) as Hf.
  destruct r as [[l|n]|u]; [|done|].
  - destruct (run_unit _ x2) as [x3|] eqn:Eu; [|done]. simpl. intros [= <- <-].
    pose proof (run_unit_frozen _ _ _ (release_frozen _) Eu) as Hf3. split; [|congruence]. left. apply release_run in Eu.
    destruct (uses_mutex idl x && bool_decide (writable (watt x) = READ_WITH_WRITE)) eqn:Eb; [by destruct Eu|subst x3]. rewrite Hm.
    destruct Hh as [Hh|(_ & _ & Hus & Hrd)]; [done|]. unfold uses in Hus. rewrite Hus in Eb. cbn [andb] in Eb.
    unfold to_read, to_set in Hrd, Hset. apply andb_true_iff in Hrd as [Hs Ho], Hset as [_ Hset]. apply negb_true_iff in Ho.
    rewrite Ho, orb_false_r in Hset. unfold is_rw in Hset. rewrite Eb, orb_false_r in Hset.
    revert E. unfold set_body. rewrite (run_bind _ _ _ _ _ eq_refl). destruct (att_mem_exception (att_of x)); [intros _; by apply Hmem|].
    rewrite Eb. apply bool_decide_eq_true in Hset as ->. done.
  - intros [= <- <-]. split; [|done]. destruct Hh as [Hh|(H1 & H2 & H3 & H4)]; [left; congruence|]. right.
    rewrite Hm, (frozen_uses _ _ Hf), (frozen_to_read _ _ Hf). done.
Qed.

Definition given x v : bool :=
  uses x && negb (bool_decide (writable (watt x) = WRITE)) && bool_decide (net_errs v = []) && negb (bool_decide (net_quality v = ATTR_INVALID)).
Lemma frozen_writable x y : frozen x = frozen y → writable (watt x) = writable (watt y) ∧ is_fwd_att (info (att_of x)) = is_fwd_att (info (att_of y)).
Proof. by intros [= -> _ _ -> _ _ _ _ _]. Qed.
Lemma held_free x v : held x v → uses x && negb (bool_decide (writable (watt x) = WRITE)) = false → releasable x → attr_mutex x = MutexFree.
Proof.
  intros [Hh|(_ & _ & Hus & Hrd)] Hb Hr; [done|]. rewrite Hus in Hb. cbn [andb] in Hb. apply negb_false_iff in Hb.
  unfold to_read, only_set in Hrd. rewrite Hb in Hrd. apply andb_true_iff in Hrd as [_ Hrd]. apply bool_decide_eq_true in Hb.
  destruct (is_fwd_att (info (att_of x))) eqn:Ef; [by destruct (Hr Ef)|done].
Qed.
Lemma net_errs_format f t v : net_errs (with_format idl f t v) = net_errs v.
Proof. by destruct idl. Qed.
Lemma net_quality_format f t v : net_quality (with_format idl f t v) = net_quality v.
Proof. by destruct idl. Qed.
Lemma release_mutex_run x x' v : held x v → releasable x → run_unit (release_mutex idl x) x = Some x' → attr_mutex x' = MutexFree.
Proof.
  intros Hh Hr Eu. apply release_run in Eu. destruct (_ && _) eqn:Eb; [by destruct Eu|subst x']. by apply (held_free x v).
Qed.

Lemma build_step_mutex p nm x v x1 v1 :
  idl ≠ Data3 → held x v → releasable x → net_errs v = [] → build_step idl now polled atts0 p nm x v = Some (x1, v1) →
  attr_mutex x1 = if given x1 v1 then MutexGiven p else MutexFree.
Proof.
  intros Hidl Hh Hr He. unfold build_step. destruct (bool_decide (quality (att_of x) = ATTR_INVALID)) eqn:Eq.
  { destruct (run_unit _ x) as [x2|] eqn:Eu; [|done]. cbn [mbind option_bind]. intros [= <- <-].
    unfold given, described. rewrite net_quality_format. cbn [init_out_data_quality set_net_head net_quality]. rewrite Eq, !andb_false_r.
    unfold run_unit in Eu. rewrite (run_bind _ _ _ _ _ (stamp_run now x)) in Eu.
    change (run_unit (release_mutex idl x) (stamped now x) = Some x2) in Eu.
    assert (uses_mutex idl (stamped now x) = uses_mutex idl x ∧ writable (watt (stamped now x)) = writable (watt x) ∧ held (stamped now x) v ∧ releasable (stamped now x)) as (E1 & E2 & Hh' & Hr').
    { unfold stamped. by destruct (_ && _). }
    assert (release_mutex idl x = release_mutex idl (stamped now x)) as Erel by (unfold release_mutex; by rewrite E1, E2).
    rewrite Erel in Eu. by eapply release_mutex_run. }
  destruct (negb (value_is_set (att_of x))) eqn:Es.
  { destruct (run_unit _ x) as [x2|] eqn:Eu; [|done]. cbn [mbind option_bind]. intros [= <- <-]. apply (release_mutex_run _ _ v) in Eu; [|done..].
    unfold given, one_error, error_from_devfailed, clear_att_dim. rewrite net_errs_format. simpl. by rewrite andb_false_r. }
  destruct (set_part atts0 x) as [set|]; [|done]. cbn [mbind option_bind].
  destruct (value_part idl _ x v) as [[y w]|] eqn:Ev; [|done]. cbn [mbind option_bind].
  assert (attr_mutex y = attr_mutex x ∧ frozen y = frozen x ∧ net_errs w = [] ∧ quality (att_of y) = quality (att_of x)) as (Ey1 & Ey2 & Ey3 & Ey4).
  { pose proof (value_part_frozen _ _ _ _ _ _ Ev) as Hfy. unfold value_part in Ev. destruct (attribute_value (att_of x)); [|done]. cbn [mbind option_bind] in Ev.
    rewrite (bool_decide_eq_false_2 (idl = Data3)), andb_false_r in Ev by done.
    destruct (sequence_sent _ _) as [d| |]; [|done..]. by injection Ev as <- <-. }
  destruct (run_unit _ y) as [y2|] eqn:Eu; [|done]. cbn [mbind option_bind]. intros [= <- <-]. apply stamp_give in Eu.
  assert (given y2 (described idl y2 (init_out_data y2 (snd <$> set) w)) = uses x && negb (bool_decide (writable (watt x) = WRITE))) as ->.
  { unfold given, described. rewrite net_errs_format, net_quality_format. cbn [init_out_data set_net_head net_errs net_quality].
    assert (frozen y2 = frozen x ∧ quality (att_of y2) = quality (att_of x)) as [Hf2 Hq2].
    { rewrite <-Ey2, <-Ey4. rewrite <-(stamped_frozen now y), <-(stamped_att now y).
      destruct (_ && (_ || _)) in Eu; [destruct Eu as [_ ->]|subst y2]; done. }
    rewrite (frozen_uses _ _ Hf2), (proj1 (frozen_writable _ _ Hf2)), Hq2, Eq, Ey3. by rewrite !andb_true_r. }
  destruct (uses_mutex idl x && (is_fwd_att _ || _)) eqn:Eg.
  - destruct Eu as [HL ->]. rewrite Ey1 in HL. destruct (uses x && negb (bool_decide (writable (watt x) = WRITE))) eqn:Eb; [done|].
    rewrite (held_free x v Hh Eb Hr) in HL. done.
  - subst y2. rewrite stamped_mutex, Ey1.
    unfold uses. destruct (uses_mutex idl x) eqn:Eus; cbn [andb] in *.
    + apply orb_false_iff in Eg as [_ Eg]. rewrite Eg. apply (held_free x v Hh); [|done]. rewrite Eg. apply andb_false_r.
    + apply (held_free x v Hh); [|done]. unfold uses. by rewrite Eus.
Qed.

Lemma alone_mutex j p nm x v x1 v1 :
  user_locks → idl ≠ Data3 → attr_mutex x = MutexFree → releasable x → net_errs v = [] →
  alone idl now now_ns is_allowed read polled atts0 j p nm (Some x) v = Some (Some x1, v1) →
  attr_mutex x1 = if given x1 v1 then MutexGiven p else MutexFree.
Proof.
  intros Hu Hidl Hx Hr Hv. unfold alone, find_step.
  destruct (check_startup_exceptions (att_of x)) eqn:Es; cbn [mbind option_bind].
  { unfold if_att, to_read, to_set. rewrite Es. cbn [negb andb mbind option_bind]. rewrite ?Es. cbn [negb andb mbind option_bind]. unfold build_turn.
    assert (net_errs (with_errors idl nm (Some (startup_error x)) v) = startup_error x) as Hn.
    { unfold with_errors, error_from_devfailed, clear_att_dim. by rewrite net_errs_format. }
    rewrite Hn, bool_decide_eq_false_2 by done. set (w := with_errors _ _ _ _) in *. clearbody w. intros [= <- <-]. unfold given. rewrite Hn.
    by rewrite (bool_decide_eq_false_2 (startup_error x = [])), andb_false_r. }
  set (xa := if to_read x then prepared_read x else x).
  assert (frozen xa = frozen x ∧ attr_mutex xa = MutexFree) as [Hfa Hma] by (unfold xa; by destruct (to_read x)).
  clearbody xa. cbn [if_att].
  destruct (if to_read xa then _ else _) as [[xb vb]|] eqn:Eb; [|done]. cbn [mbind option_bind].
  assert (∃ xb', xb = Some xb' ∧ frozen xb' = frozen x ∧ held xb' vb ∧ (att_mem_exception (att_of xb') = true → attr_mutex xb' = MutexFree)) as (xb' & -> & Hfb & Hhb & Hmb).
  { destruct (to_read xa) eqn:Er.
    - destruct j as [j|]; [|done]. cbn [mbind option_bind] in Eb.
      destruct (read_step _ _ _ _ j xa) as [[y o]|] eqn:Ey; [|done]. injection Eb as <- <-.
      destruct (read_step_mutex j xa y o Hu Hidl Hma Ey) as (Hfy & Hmy & Hmem). exists y. split; [done|]. split; [congruence|].
      assert (att_mem_exception (att_of y) = att_mem_exception (att_of xa)) as Hme by (by injection Hfy as _ _ -> _ _ _ _ _ _). split.
      + destruct o as [l|]; [by left|]. cbn [with_errors]. destruct (uses xa) eqn:Eu; [|by left]. right.
        rewrite (frozen_uses _ _ Hfy), (frozen_to_read _ _ Hfy), Eu, Er. done.
      + rewrite Hme. intros H. specialize (Hmem H). by destruct o.
    - injection Eb as <- <-. exists xa. split; [done|]. split; [done|]. split; [by left|done]. }
  cbn [if_att]. destruct (if to_set xb' then _ else _) as [[xc vc]|] eqn:Ec; [|done]. cbn [mbind option_bind].
  assert (∃ xc', xc = Some xc' ∧ frozen xc' = frozen x ∧ held xc' vc) as (xc' & -> & Hfc & Hhc).
  { destruct (to_set xb') eqn:Et.
    - destruct (set_step idl now xb') as [[y o]|] eqn:Ey; [|done]. injection Ec as <- <-.
      destruct (set_step_mutex nm xb' y o vb Hidl Et Hhb Hmb Ey) as [Hh Hf]. exists y. split; [done|]. split; [congruence|done].
    - injection Ec as <- <-. by exists xb'. }
  assert (releasable xc') as Hrc.
  { unfold releasable. destruct (frozen_writable _ _ Hfc) as [-> ->]. exact Hr. }
  unfold build_turn. case_bool_decide as He.
  - cbn [mbind option_bind]. destruct (build_step _ _ _ _ p nm xc' vc) as [[y w]|] eqn:Ey; [|done]. cbn [mbind option_bind]. intros [= <- <-].
    by eapply build_step_mutex.
  - intros [= <- <-]. unfold given. rewrite (bool_decide_eq_false_2 _ He), andb_false_r. cbn [andb].
    by destruct Hhc as [Hh|(_ & Hn & _)].
Qed.
End Mutexes.

Section Released.
Context (idl : Idl) (now : TimeVal) (now_ns : Z) (hook : SM DevSt unit) (is_allowed : nat → outcome bool)
  (read_attr_hardware : list nat → outcome unit) (read : nat → Attribute → option UserRead)
  (kernel_state user_state : SM DevSt DevState) (kernel_status user_status : SM DevSt string) (polled : list (string * Z)).

(** C24: the mutexes of the attributes are balanced. When no mutex is held at the start of a
    request of a client of IDL 4 or later, the mutex of an attribute of the request is at its
    end either owned by the answer of the attribute, exactly when the answer has a value that
    was read, or free: a failing reading, a value that is not there, an error of the set value,
    all release it. The request is as in [read_together]: different names, no State and no
    Status, and the requests for each name alone return, so [is_allowed] does not throw for an
    attribute whose mutex the kernel manages (see [is_allowed_unlocks]). The code of the user
    that manages a mutex leaves it locked when it returns and unlocked when it throws, and the
    attribute is not forwarded and only written: its mutex is not released (finding of
    device_3.cpp:1409). *)
Theorem mutexes_released names second_try s i nm j x :
  ready read names second_try s hook read_attr_hardware →
  each_alone idl now now_ns hook is_allowed read_attr_hardware read kernel_state user_state kernel_status user_status polled names second_try s →
  user_locks read → idl ≠ Data3 → names !! i = Some nm → index_in (r_atts s) nm = Some j → r_atts s !! j = Some x →
  attr_mutex x = MutexFree → releasable x → net_errs <$> back s !! place second_try i = Some [] →
  ∃ s' x' v', read_attributes_no_except idl now now_ns hook is_allowed read_attr_hardware read kernel_state user_state kernel_status user_status
      polled names second_try s = Some (s', inr tt) ∧ r_atts s' !! j = Some x' ∧ back s' !! place second_try i = Some v' ∧
    attr_mutex x' = if given idl x' v' then MutexGiven (place second_try i) else MutexFree.
Proof.
  intros Hrd Hal Hu Hidl Hi Hj Hx Hm Hr Hv.
  pose proof (good_returns _ _ _ _ _ _ _ _ _ _ _ _ _ _ _ Hrd Hal) as Hg.
  destruct (request_loop _ _ _ _ _ _ _ _ s hook read_attr_hardware kernel_state user_state kernel_status user_status Hg) as (s' & Hs' & R & _ & _ & Hz).
  destruct (back s !! place second_try i) as [v|] eqn:Ev; [|done]. simpl in Hv. injection Hv as Hv.
  destruct (R (i, nm) v) as (x1 & v1 & He & Hx1 & Hb); [apply list_elem_of_lookup; exists i; by rewrite list_lookup_imap, Hi|done|].
  unfold alone_of in He. cbn [fst snd] in *. rewrite Hj in *. cbn [at_ mbind option_bind] in *. unfold at_ in He, Hx1. simpl in He, Hx1. rewrite Hx in He.
  destruct (frozen_lookup_back s' (r_atts s) j x Hz Hx) as (x' & Hx' & _). rewrite Hx' in Hx1. subst x1.
  exists s', x', v1. split; [exact Hs'|]. split; [done|]. split; [done|]. by eapply alone_mutex.
Qed.
End Released.

(** ** What a client reads is what the user gave *)

Section EndToEnd.
Context (idl : Idl) (now : TimeVal) (now_ns : Z) (is_allowed : nat → outcome bool)
  (read : nat → Attribute → option UserRead) (polled : list (string * Z)) (atts0 : list RAttr).

(** The attribute [x], which has a value of its own, is read: the user sets the numbers [l],
    with the quality VALID and the date [t], and leaves the attribute [a] as its alarms see it. *)
Record user_gives (j : nat) x (u : UserRead) (t : TimeVal) (l : list Num) (a : Attribute) : Prop := {
  ug_read : read j (reset_value (att_of x)) = Some u;
  ug_end : ur_end u = inr tt;
  ug_kept : kept (ur_att u) = kept (att_of x);
  ug_when : ur_when u = Some t ∧ tv_sec t ≠ 0;
  ug_seen : a = alarm_att (set_att (ur_att u) x);
  ug_value : readable l a;
  ug_quality : quality a = ATTR_VALID;
  ug_alarm : alarm a = no_bits;
}.
Record plain_read (j : nat) x : Prop := {
  pr_allowed : is_allowed j = Ok true;
  pr_conf : check_startup_exceptions (att_of x) = false;
  pr_mem : att_mem_exception (att_of x) = false;
  pr_local : is_fwd_att (info (att_of x)) = false;
  pr_read : writable (watt x) = READ ∨ writable (watt x) = READ_WRITE ∨ writable (watt x) = READ_WITH_WRITE;
}.
(** The quality the alarms give. *)
Definition checked_quality (l : list Num) (a : Attribute) : AttrQuality :=
  if any (alarm_conf a) then
    if too_low l a || too_high l a || read_far now_ns l a then ATTR_ALARM
    else if negb (too_low l a || too_high l a) && warn_low l a || negb (too_low l a || too_high l a) && warn_high l a then ATTR_WARNING
    else ATTR_VALID
  else ATTR_VALID.
Definition value_answer x (u : UserRead) (t : TimeVal) (l : list Num) (a : Attribute) (set : option (list WElt * (Z * Z))) v : NetValue :=
  with_format idl (data_format (info (att_of x))) (data_type (info (att_of x)))
    (set_net_head (att_name x) (checked_quality l a) t (dims (ur_att u)) (from_option snd (0, 0) set)
       (set_net_data (AttData (Seq l) (from_option fst [] set)) v)).

Lemma alarm_att_fields x : info (alarm_att x) = info (att_of x) ∧ quality (alarm_att x) = quality (att_of x) ∧ attribute_value (alarm_att x) = attribute_value (att_of x) ∧
  alarm_conf (alarm_att x) = alarm_conf (att_of x) ∧ dims (alarm_att x) = dims (att_of x).
Proof. unfold alarm_att, as_attribute, att_of. by destruct (is_WAttribute x). Qed.
(** What is read of an attribute after the members of the request have changed. *)
Definition same_att x y : Prop := watt x = watt y.
Lemma alarm_att_same x y : watt x = watt y → alarm_att x = alarm_att y.
Proof. unfold alarm_att, is_WAttribute, att_of. by intros ->. Qed.

Lemma read_body_gives j x u t l a x1 r :
  user_gives j x u t l a → att_mem_exception (att_of x) = false → read_body idl now_ns read j x = Some (x1, r) →
  r = inr tt ∧ att_when x1 = t ∧ frozen x1 = frozen x ∧ quality (att_of x1) = checked_quality l a ∧
  attribute_value (att_of x1) = Some (Seq l) ∧ dims (att_of x1) = dims (ur_att u).
Proof.
  intros [Hr He Hk [Hw _] Ha Hl Hq Hn] Hm. unfold read_body. rewrite (run_bind _ _ _ _ _ eq_refl).
  destruct (when_ (by_kernel idl x) lock_mutex x) as [[xl rl]|] eqn:El; [|unfold mbind, SM_bind; by rewrite El].
  assert (rl = inr tt ∧ watt xl = watt x ∧ frozen xl = frozen x) as (-> & Hwl & Hfl).
  { revert El. destruct (by_kernel idl x); cbn [when_]; [|by intros [= <- <-]]. unfold lock_mutex. rewrite (run_bind _ _ _ _ _ eq_refl).
    destruct (bool_decide _); [by intros [= <- <-]|done]. }
  rewrite (run_bind _ _ _ _ _ El), (run_bind _ _ xl (set_watt (reset_read_value (watt xl)) xl) tt eq_refl), Hm.
  set (xr := set_watt _ xl). assert (att_of xr = reset_value (att_of x)) as Hxr by (unfold xr, att_of; by rewrite Hwl).
  assert (frozen xr = frozen x) as Hfr by (by rewrite <-Hfl).
  assert (watt xr = reset_read_value (watt x)) as Hwr by (unfold xr; by rewrite Hwl). clearbody xr.
  unfold mbind, SM_bind. unfold user_read. rewrite Hxr, Hr, Hw, He.
  set (xu := set_when t (set_att (ur_att u) xr)). set (xm := if _ && _ then set_mutex MutexLocked xu else xu).
  assert (watt xm = watt (set_att (ur_att u) x) ∧ att_when xm = t ∧ frozen xm = frozen x) as (Hwm & Htm & Hfm).
  { assert (frozen xu = frozen x) as <- by (rewrite <-Hfr; apply frozen_set_att; by rewrite Hxr, Hk).
    unfold xm, xu. destruct (_ && _); unfold set_att; simpl; unfold att_of; by rewrite Hwr. }
  clearbody xm. clear xu. pose proof (alarm_att_same _ _ Hwm) as Hal. rewrite <-Ha in Hal.
  destruct (alarm_att_fields xm) as (_ & Eq & Ev & Ec & Ed). rewrite Hal in Eq, Ev, Ec, Ed.
  assert (dims (att_of xm) = dims (ur_att u)) as Hd by (unfold att_of; by rewrite Hwm).
  unfold check_read_alarm. rewrite (run_bind _ _ _ _ _ eq_refl). rewrite <-Ec, <-Eq, Hq. unfold checked_quality.
  change (negb (bool_decide (ATTR_VALID = ATTR_INVALID))) with true. destruct (any (alarm_conf a)) eqn:Eany; cbn [andb when_].
  - assert (on_att (check_alarm now_ns) xm = match check_alarm now_ns a with Some (a, r) => Some (set_att a xm, r) | None => None end) as Hon by (unfold on_att; by rewrite Hal).
    unfold mbind, SM_bind. rewrite Hon, (check_alarm_value now_ns l a Hl Hq Hn Eany). cbv zeta. intros [= <- <-]. split; [done|]. split; [done|]. split; [|split; [done|]].
    + rewrite <-Hfm. apply frozen_set_att. unfold kept. simpl. rewrite <-Hal. apply (kept_alarm xm).
    + simpl. rewrite (r_value _ _ Hl), Ed, Hd. done.
  - intros [= <- <-]. rewrite <-Eq, <-Ev. by rewrite (r_value _ _ Hl).
Qed.

Lemma set_step_none x : att_mem_exception (att_of x) = false → is_fwd_att (info (att_of x)) = false →
  writable (watt x) = READ_WRITE ∨ writable (watt x) = READ_WITH_WRITE → set_step idl now x = Some (x, None).
Proof.
  intros Hm Hf Hw. unfold set_step, set_body. rewrite (run_bind _ _ _ _ _ eq_refl), Hm.
  unfold set_rvalue, is_WAttribute. destruct Hw as [E|E]; rewrite E; [done|].
  rewrite (bool_decide_eq_true_2 (READ_WITH_WRITE = READ_WITH_WRITE)) by done. cbn [orb when_].
  rewrite (run_bind _ _ _ _ _ eq_refl), E, Hf. done.
Qed.

(** The mutex is free, and a user that manages it has taken it when the reading returns. *)
Definition mutex_ready x (u : UserRead) : Prop := uses_mutex idl x = true →
  attr_mutex x = MutexFree ∧ (attr_serial_model x = ATTR_BY_USER → ur_locked u = true).
Lemma on_alarm_run xm l a : alarm_att xm = a → readable l a → quality a = ATTR_VALID → alarm a = no_bits →
  ∃ x1, check_read_alarm now_ns xm = Some (x1, inr tt) ∧ attr_mutex x1 = attr_mutex xm.
Proof.
  intros Hal Hl Hq Hn. destruct (alarm_att_fields xm) as (_ & Eq & _ & Ec & _). rewrite Hal in Eq, Ec.
  unfold check_read_alarm. rewrite (run_bind _ _ _ _ _ eq_refl), <-Ec, <-Eq, Hq.
  change (negb (bool_decide (ATTR_VALID = ATTR_INVALID))) with true. destruct (any (alarm_conf a)) eqn:Eany; cbn [andb when_]; [|by eexists].
  assert (on_att (check_alarm now_ns) xm = match check_alarm now_ns a with Some (a, r) => Some (set_att a xm, r) | None => None end) as Hon by (unfold on_att; by rewrite Hal).
  unfold mbind, SM_bind. rewrite Hon, (check_alarm_value now_ns l a Hl Hq Hn Eany). cbv zeta. by eexists.
Qed.
(** The reading of such an attribute returns, with the mutex that the answer needs. *)
Lemma read_body_returns j x u t l a :
  user_gives j x u t l a → att_mem_exception (att_of x) = false → mutex_ready x u →
  ∃ x1, read_body idl now_ns read j x = Some (x1, inr tt) ∧ (uses_mutex idl x = true → attr_mutex x1 = MutexLocked).
Proof.
  intros [Hr He Hk [Hw _] Ha Hl Hq Hn] Hm Hmx. unfold read_body. rewrite (run_bind _ _ _ _ _ eq_refl).
  set (xl := if by_kernel idl x then set_mutex MutexLocked x else x).
  assert (by_kernel idl x = true → uses_mutex idl x = true) as Hbu.
  { unfold by_kernel, uses_mutex. intros [Hk1%bool_decide_eq_true Hk2]%andb_true_iff. by rewrite Hk1, Hk2. }
  assert (when_ (by_kernel idl x) lock_mutex x = Some (xl, inr tt)) as El.
  { unfold xl. destruct (by_kernel idl x); [|done]. cbn [when_]. unfold lock_mutex. rewrite (run_bind _ _ _ _ _ eq_refl).
    by rewrite bool_decide_eq_true_2 by (by apply Hmx, Hbu). }
  rewrite (run_bind _ _ _ _ _ El), (run_bind _ _ xl (set_watt (reset_read_value (watt xl)) xl) tt eq_refl), Hm.
  set (xr := set_watt _ xl).
  assert (att_of xr = reset_value (att_of x) ∧ watt xr = reset_read_value (watt x) ∧ attr_mutex xr = attr_mutex xl ∧ attr_serial_model xr = attr_serial_model x)
    as (Hxr & Hwr & Hmr & Hsr) by (unfold xr, xl, att_of; by destruct (by_kernel idl x)).
  clearbody xr. unfold mbind, SM_bind, user_read. rewrite Hxr, Hr, Hw, He.
  set (xu := set_when t (set_att (ur_att u) xr)). assert (attr_serial_model xu = attr_serial_model x) as -> by exact Hsr.
  set (xm := if _ && _ then set_mutex MutexLocked xu else xu).
  assert (watt xm = watt (set_att (ur_att u) x)) as Hwm.
  { unfold xm, xu. destruct (_ && _); unfold set_att; simpl; unfold att_of; by rewrite Hwr. }
  assert (uses_mutex idl x = true → attr_mutex xm = MutexLocked) as Hlock.
  { intros Huse. destruct (Hmx Huse) as [_ Hu]. unfold xm, xu. revert Huse Hu. unfold uses_mutex. destruct (attr_serial_model x) eqn:Es; [done| |].
    - intros [_ Hh]%andb_true_iff _. change (attr_mutex xr = MutexLocked). rewrite Hmr. unfold xl, by_kernel. by rewrite Es, Hh.
    - intros _ Hu. by rewrite (Hu eq_refl). }
  clearbody xm. destruct (on_alarm_run xm l a) as (x1 & Hc & Hmu); [by rewrite (alarm_att_same _ _ Hwm)|done..|].
  rewrite Hc. exists x1. split; [done|]. intros Huse. rewrite Hmu. by apply Hlock.
Qed.

(** A name alone, whose attribute the user gives a value. *)
Lemma alone_gives j p nm x v u t l a (x1 : option RAttr) v1 :
  plain_read j x → user_gives j x u t l a → net_errs v = [] →
  alone idl now now_ns is_allowed read polled atts0 (Some j) p nm (Some x) v = Some (x1, v1) →
  ∃ set, set_part atts0 x = Some set ∧ v1 = value_answer x u t l a set v.
Proof.
  intros [Hal Hc Hm Hfw Hw] Hu Hv. unfold alone, find_step. rewrite Hc. cbn [mbind option_bind].
  assert (only_set x = false) as Ho.
  { unfold only_set. destruct Hw as [-> |[-> | ->]]; done. }
  assert (to_read x = true) as Hrd by (unfold to_read; by rewrite Hc, Ho). rewrite Hrd.
  set (xp := prepared_read x). assert (watt xp = watt x ∧ frozen xp = frozen x) as [Hwp Hfp] by done.
  assert (user_gives j xp u t l a) as Hu' by (by destruct Hu). clearbody xp.
  cbn [if_att]. rewrite (frozen_to_read _ _ Hfp), Hrd. cbn [mbind option_bind].
  unfold read_step. rewrite Hal. destruct (read_body _ _ _ j xp) as [[x2 r]|] eqn:Er; [|done].
  apply (read_body_gives j xp u t l a) in Er as (-> & Ht & Hf2 & Hq & Hval & Hd); [|done|unfold att_of in *; by rewrite Hwp].
  cbn [mbind option_bind with_errors if_att].
  assert (frozen x2 = frozen x) as Hf by congruence.
  assert (att_mem_exception (att_of x2) = false ∧ is_fwd_att (info (att_of x2)) = false ∧ writable (watt x2) = writable (watt x)) as (Hm2 & Hfw2 & Hw2).
  { injection Hf as -> _ -> -> _ _ _ _ _. done. }
  assert ((if to_set x2 then '(x', o) ← set_step idl now x2; Some (Some x', with_errors idl nm o v) else Some (Some x2, v)) = Some (Some x2, v)) as ->.
  { destruct (to_set x2) eqn:Eset; [|done]. rewrite set_step_none; [done|done|done|]. rewrite Hw2. destruct Hw as [E|Hw]; [|done].
    unfold to_set, only_set in Eset. rewrite Hw2, E in Eset. cbn in Eset. by rewrite andb_false_r in Eset. }
  cbn [mbind option_bind]. unfold build_turn. rewrite Hv. change (bool_decide ([] = [])) with true. cbv iota. cbn [mbind option_bind].
  unfold build_step. rewrite Hq.
  rewrite (bool_decide_eq_false_2 (checked_quality l a = ATTR_INVALID)) by (unfold checked_quality; by repeat case_match).
  unfold value_is_set. rewrite Hval, (bool_decide_eq_true_2 (is_Some _)) by done. cbn [negb].
  assert (set_part atts0 x2 = set_part atts0 x) as -> by (unfold set_part; by injection Hf as _ _ _ -> _ _ _ -> _).
  destruct (set_part atts0 x) as [set|] eqn:Es; [|done]. cbn [mbind option_bind]. intros H. exists set. split; [done|]. revert H.
  assert (info (att_of x2) = info (att_of x)) as Hinfo by (by injection Hf).
  assert (data_type (info (att_of x)) ≠ DEV_ENCODED) as Hty.
  { pose proof (r_type _ _ (ug_value _ _ _ _ _ _ Hu)) as H. rewrite (ug_seen _ _ _ _ _ _ Hu), (proj1 (alarm_att_fields _)) in H.
    pose proof (ug_kept _ _ _ _ _ _ Hu) as Hk. injection Hk as Hk _ _. simpl in H. rewrite Hk in H. intros E. by rewrite E in H. }
  unfold value_part. rewrite Hval, Hinfo. cbn [mbind option_bind]. rewrite (bool_decide_eq_false_2 _ Hty). cbn [andb sequence_sent mbind option_bind].
  destruct (run_unit _ _) as [x3|] eqn:Eg; [|done]. cbn [mbind option_bind]. intros [= _ <-]. apply stamp_give in Eg.
  set (y := set_att (delete_seq (att_of x2)) x2) in *.
  assert (stamped now y = y) as Hst.
  { unfold stamped, y. simpl. rewrite Ht. by rewrite (proj2 (Z.eqb_neq _ _) (proj2 (ug_when _ _ _ _ _ _ Hu))). }
  rewrite Hst in Eg. assert (watt x3 = watt y ∧ att_when x3 = att_when y) as [H1 H2] by (destruct (_ && _); [by destruct Eg as [_ ->]|by subst]).
  unfold described, value_answer, init_out_data, att_name, att_of. rewrite H1, H2. unfold y. simpl. fold (att_of x2). rewrite Hinfo, Hq, Ht, Hd.
  do 2 f_equal. destruct set as [[w d]|]; [done|]. rewrite Hw2. by destruct Hw as [-> |[-> | ->]].
Qed.

(** Such a name alone has a meaning: neither the alarms nor the mutex stop it. *)
Lemma alone_defined j p nm x v u t l a :
  plain_read j x → user_gives j x u t l a → mutex_ready x u → is_Some (set_part atts0 x) → net_errs v = [] →
  is_Some (alone idl now now_ns is_allowed read polled atts0 (Some j) p nm (Some x) v).
Proof.
  intros [Hal Hc Hm Hfw Hw] Hu Hmx [set Hset] Hv. unfold alone, find_step. rewrite Hc. cbn [mbind option_bind].
  assert (only_set x = false) as Ho by (unfold only_set; by destruct Hw as [-> |[-> | ->]]).
  assert (to_read x = true) as Hrd by (unfold to_read; by rewrite Hc, Ho). rewrite Hrd.
  set (xp := prepared_read x). assert (watt xp = watt x ∧ frozen xp = frozen x) as [Hwp Hfp] by done.
  assert (user_gives j xp u t l a) as Hu' by (by destruct Hu). assert (mutex_ready xp u) as Hmx' by exact Hmx. clearbody xp.
  cbn [if_att]. rewrite (frozen_to_read _ _ Hfp), Hrd. cbn [mbind option_bind].
  assert (att_mem_exception (att_of xp) = false) as Hmp by (unfold att_of in *; by rewrite Hwp).
  destruct (read_body_returns j xp u t l a Hu' Hmp Hmx') as (x2 & Er & Hlock). unfold read_step. rewrite Hal, Er.
  apply (read_body_gives j xp u t l a) in Er as (_ & Ht & Hf2 & Hq & Hval & Hd); [|done|done].
  cbn [mbind option_bind with_errors if_att]. assert (frozen x2 = frozen x) as Hf by congruence.
  assert (att_mem_exception (att_of x2) = false ∧ is_fwd_att (info (att_of x2)) = false ∧ writable (watt x2) = writable (watt x)) as (Hm2 & Hfw2 & Hw2).
  { injection Hf as -> _ -> -> _ _ _ _ _. done. }
  assert ((if to_set x2 then '(x', o) ← set_step idl now x2; Some (Some x', with_errors idl nm o v) else Some (Some x2, v)) = Some (Some x2, v)) as ->.
  { destruct (to_set x2) eqn:Eset; [|done]. rewrite set_step_none; [done|done|done|]. rewrite Hw2. destruct Hw as [E|Hw]; [|done].
    unfold to_set, only_set in Eset. rewrite Hw2, E in Eset. cbn in Eset. by rewrite andb_false_r in Eset. }
  cbn [mbind option_bind]. unfold build_turn. rewrite Hv. change (bool_decide ([] = [])) with true. cbv iota. cbn [mbind option_bind].
  unfold build_step. rewrite Hq.
  rewrite (bool_decide_eq_false_2 (checked_quality l a = ATTR_INVALID)) by (unfold checked_quality; by repeat case_match).
  unfold value_is_set. rewrite Hval, (bool_decide_eq_true_2 (is_Some _)) by done. cbn [negb].
  assert (set_part atts0 x2 = Some set) as -> by (rewrite <-Hset; unfold set_part; by injection Hf as _ _ _ -> _ _ _ -> _).
  cbn [mbind option_bind]. unfold value_part. rewrite Hval. cbn [mbind option_bind].
  assert (uses_mutex idl x2 = uses_mutex idl xp) as Huse by (unfold uses_mutex; injection Hf as _ _ _ _ _ _ _ _ ->; by injection Hfp as _ _ _ _ _ _ _ _ ->).
  destruct (_ && bool_decide (idl = Data3)); cbn [mbind option_bind sequence_sent]; (rewrite give_stamp; [by eexists|]);
    intros [Hb _]%andb_true_iff; rewrite Huse in Hb; by apply Hlock.
Qed.
End EndToEnd.

Section Gives.
Context (idl : Idl) (now : TimeVal) (now_ns : Z) (hook : SM DevSt unit) (is_allowed : nat → outcome bool)
  (read_attr_hardware : list nat → outcome unit) (read : nat → Attribute → option UserRead)
  (kernel_state user_state : SM DevSt DevState) (kernel_status user_status : SM DevSt string) (polled : list (string * Z)).

(** The answer of an attribute whose value the code of the user sets. *)
Lemma request_gives names second_try s i nm j x v u t l a :
  read_request idl now now_ns is_allowed read polled names second_try s hook read_attr_hardware →
  names !! i = Some nm → index_in (r_atts s) nm = Some j → r_atts s !! j = Some x → back s !! place second_try i = Some v → net_errs v = [] →
  plain_read is_allowed j x → user_gives read j x u t l a →
  ∃ s' set, read_attributes_no_except idl now now_ns hook is_allowed read_attr_hardware read kernel_state user_state kernel_status user_status
      polled names second_try s = Some (s', inr tt) ∧ set_part (r_atts s) x = Some set ∧
    back s' !! place second_try i = Some (value_answer idl now_ns x u t l a set v).
Proof.
  intros Hg Hi Hj Hx Hv He Hp Hu.
  destruct (request_loop _ _ _ _ _ _ _ _ s hook read_attr_hardware kernel_state user_state kernel_status user_status Hg) as (s' & Hs' & R & _).
  destruct (R (i, nm) v) as (x1 & v1 & Ha & _ & Hb); [apply list_elem_of_lookup; exists i; by rewrite list_lookup_imap, Hi|done|].
  unfold alone_of in Ha. cbn [fst snd] in *. rewrite Hj in *. unfold at_ in Ha. simpl in Ha. rewrite Hx in Ha.
  destruct (alone_gives _ _ _ _ _ _ _ j _ nm x v u t l a x1 v1 Hp Hu He Ha) as (set & Hset & ->).
  by exists s', set.
Qed.

(** from the code of the user to the client.  When the code of the user sets the numbers
    [l] with the quality VALID and a date, the answer of the attribute has no error and holds
    [l], followed by the elements its associated attribute was last written with, the sizes of
    both, this date, and the quality that the alarms of the attribute give. *)
Theorem read_value_sent names second_try s i nm j x v u t l a :
  ready read names second_try s hook read_attr_hardware →
  each_alone idl now now_ns hook is_allowed read_attr_hardware read kernel_state user_state kernel_status user_status polled names second_try s →
  names !! i = Some nm → index_in (r_atts s) nm = Some j → r_atts s !! j = Some x → back s !! place second_try i = Some v → net_errs v = [] →
  plain_read is_allowed j x → user_gives read j x u t l a →
  ∃ s' set, read_attributes_no_except idl now now_ns hook is_allowed read_attr_hardware read kernel_state user_state kernel_status user_status
      polled names second_try s = Some (s', inr tt) ∧ set_part (r_atts s) x = Some set ∧
    back s' !! place second_try i = Some (value_answer idl now_ns x u t l a set v).
Proof.
  intros Hrd Hal. pose proof (good_returns _ _ _ _ _ _ _ _ _ _ _ _ _ _ _ Hrd Hal) as Hg.
  intros Hi Hj Hx Hv He Hp Hu. by apply (request_gives names second_try s i nm j).
Qed.
End Gives.
