(* ===== verification/ReadCache.v ===== *)
(** * Reading attributes from the polling (src/src/server/device_3.cpp, device_4.cpp, device_5.cpp)

  [Device_3Impl::read_attributes_from_cache], which answers with the last values the
  polling has stored, and [read_attributes_3], [_4] and [_5], the requests of the clients:
  the source of the values is the device, the polling, or the polling and then the device
  for what the polling does not have.  A polled value is a record of [PollRing]; its name,
  format and type, which are those of the attribute, are not part of it.  The black box,
  the monitors and the source kept for the forwarded attributes are not modelled here. *)
From stdpp Require Import sorting.
From S2P Require Import Prelude StateExn PollRing AttrHistory PollObj CppString Number Attribute DevState WAttribute WriteAttrs ReadAttrs.
Local Open Scope string_scope.
Local Open Scope list_scope.
Local Open Scope Z_scope.
Implicit Types s : RDev.
Implicit Types v : NetValue.

Definition ori : string := "Device_3Impl::read_attributes_from_cache".
(** [TG_strcasecmp(a, b) == 0]. *)
Definition same_nm (a b : string) : bool := bool_decide (tolower a = tolower b).

Section Cache.
Context {Any : Type}.
(** The version of the client and of the device, the date of the clock of the polling, and
    the poll list of the device. *)
Context (idl : Idl) (vers clock : Z) (poll_list : list (PollObj Any WElt)) (names : list string).

(** ** The polled value of an attribute *)

(** The member of the ring the device stores into, and the one read for the client. *)
Definition device_value (r : PollRing Any WElt) : outcome (AttributeValue WElt) :=
  if 5 <=? vers then get_last_attr_value_5 r
  else if vers =? 4 then get_last_attr_value_4 r
  else get_last_attr_value_3 r.
Definition client_value (r : PollRing Any WElt) : outcome (AttributeValue WElt) :=
  match idl with
  | Data5 => get_last_attr_value_5 r
  | Data4 => if 5 <=? vers then get_last_attr_value_5 r else get_last_attr_value_4 r
  | Data3 => device_value r
  end.
Definition pair_of (d : AttributeDim) : Z * Z := (dim_x d, dim_y d).
(** [init_polled_out_data]. *)
Definition init_polled_out_data (a : Attribute) (av : AttributeValue WElt) v : NetValue :=
  set_net_head (name (info a)) (PollRing.av_quality av) (PollRing.av_time av) (pair_of (PollRing.av_r_dim av)) (pair_of (PollRing.av_w_dim av)) v.
(** [polled_data_into_net_object]: a state is only copied from a union that holds one. *)
Definition polled_encoded_error (nm : string) : DevErrorList :=
  [mkDevError "API_NotSupportedFeature" ERR
     ("Data type for attribute " +:+ nm +:+ " is DEV_ENCODED. It's not possible to retrieve this data type through the interface you are using (IDL V3)")
     "DeviceImpl::polled_data_into_net_object"].
Definition polled_data_into_net_object (nm : string) (a : Attribute) (av : AttributeValue WElt) v : NetValue :=
  if bool_decide (data_type (info a) = DEV_ENCODED) && bool_decide (idl = Data3)
  then error_from_devfailed idl (polled_encoded_error nm) nm v
  else if bool_decide (data_type (info a) = DEV_STATE) &&
          negb (bool_decide (union_d (PollRing.av_value av) = DEVICE_STATE) || bool_decide (union_d (PollRing.av_value av) = ATT_STATE)) then v
  else set_net_data (PolledData (PollRing.av_value av)) v.
Definition polled_answer (nm : string) (a : Attribute) (r : PollRing Any WElt) v : outcome NetValue :=
  x ← device_value r;
  y ← client_value r;
  let v := if bool_decide (PollRing.av_quality x = ATTR_INVALID) then v else polled_data_into_net_object nm a y v in
  Ok (with_format idl (data_format (info a)) (data_type (info a)) (init_polled_out_data a y v)).

(** ** [read_attributes_from_cache] *)

Definition cache_error (reas mess nm : string) : NetValue → NetValue := one_error idl reas ori mess nm.
Definition no_data (nm : string) : NetValue → NetValue := cache_error "API_NoDataYet" ("No data available in cache for attribute " +:+ nm) nm.
Definition too_old (o : PollObj Any WElt) : SM RDev bool :=
  if po_upd o =? 0 then mret false
  else last ← lift (get_last_insert_date (po_ring o)); mret (get_authorized_delta o <? clock - last).

(** The names the device does not poll (under any type of object). *)
Definition check_name (p : nat * string) : SM RDev (list nat) :=
  let '(i, nm) := p in
  r ← attempt (att_index nm);
  match r with
  | inr _ => mret (if existsb (λ o, same_nm (po_name o) nm) poll_list then [] else [i])
  | inl l => put_back i (error_from_devfailed idl l nm);; mret []
  end.
Fixpoint check_names (l : list (nat * string)) : SM RDev (list nat) :=
  match l with [] => mret [] | p :: l => a ← check_name p; b ← check_names l; mret (a ++ b) end.

(** A name that is not polled and has no polling period; whether it is one. *)
Definition not_polled_one (i : nat) : SM RDev bool :=
  nm ← lift (deref (names !! i));
  j ← att_index nm;
  x ← attr_at j;
  if poll_period (info (att_of x)) =? 0 then
    put_back i (cache_error "API_AttrNotPolled" ("Attribute " +:+ att_name x +:+ " not polled") (att_name x));; mret true
  else mret false.
Fixpoint count_not_polled (l : list nat) : SM RDev nat :=
  match l with
  | [] => mret 0%nat
  | i :: l => b ← not_polled_one i; n ← count_not_polled l; mret (if (b : bool) then S n else n)
  end.

(** A name whose answer has no error so far. *)
Definition is_polled_attr (nm : string) (o : PollObj Any WElt) : bool := bool_decide (po_type o = POLL_ATTR) && same_nm (po_name o) nm.
Definition cache_one (p : nat * string) : SM RDev unit :=
  let '(i, nm) := p in
  s ← get;
  v ← lift (deref (back s !! i));
  if negb (bool_decide (net_errs v = [])) then mret tt
  else
    match List.find (is_polled_attr nm) poll_list with
    | None => put_back i (λ v, (if bool_decide (idl = Data3) then id else set_net_format FMT_UNKNOWN) (no_data nm v))
    | Some o =>
        if is_empty (po_ring o) then put_back i (no_data nm)
        else
          old ← too_old o;
          if (old : bool) then
            put_back i (cache_error "API_NotUpdatedAnyMore" ("Data in cache for attribute " +:+ nm +:+ " not updated any more") nm)
          else
            j ← att_index nm;
            x ← attr_at j;
            r ← attempt (lift (polled_answer nm (att_of x) (po_ring o) v));
            match r with
            | inr v => put_back i (λ _, v)
            | inl l => put_back i (error_from_devfailed idl l nm)
            end
    end.

Definition read_attributes_from_cache : SM RDev unit :=
  let l := imap pair names in
  non_polled ← check_names l;
  not_polled_attr ← (if negb (bool_decide (non_polled = [])) then count_not_polled non_polled else mret 0%nat : SM RDev nat);
  if negb (bool_decide (non_polled = [])) && (not_polled_attr =? length names)%nat then mret tt
  else for_list cache_one l.
End Cache.

(** ** The requests of the clients *)

Inductive DevSource := DEV | CACHE | CACHE_DEV.
Definition AllAttr : string := "All attributes".

Section Request.
Context {Any : Type}.
Context (idl : Idl) (vers clock : Z) (now : TimeVal) (now_ns : Z)
  (hook : SM DevSt unit) (is_allowed : nat → outcome bool) (read_attr_hardware : list nat → outcome unit)
  (read : nat → Attribute → option UserRead)
  (kernel_state user_state : SM DevSt DevState) (kernel_status user_status : SM DevSt string)
  (poll_list : list (PollObj Any WElt)).
(** Whether the device has forwarded attributes; the new elements of a list of answers. *)
Context (with_fwd_att : bool) (blank : NetValue).

Definition polled_attrs : list (string * Z) := omap (λ o, if bool_decide (po_type o = POLL_ATTR) then Some (po_name o, po_upd o) else None) poll_list.
Definition from_device (names : list string) (second_try : option (list nat)) : SM RDev unit :=
  read_attributes_no_except idl now now_ns hook is_allowed read_attr_hardware read kernel_state user_state kernel_status user_status
    polled_attrs names second_try.
Definition from_cache (names : list string) : SM RDev unit := read_attributes_from_cache idl vers clock poll_list names.

Definition real_names (names : list string) : SM RDev (list string) :=
  s ← get; mret (if bool_decide (names = [AllAttr]) then att_name <$> r_atts s else names).

(** The names of the local and of the forwarded attributes: each sequence keeps its last
    name only; the indexes of the forwarded ones. *)
Fixpoint split_fwd (l : list (nat * string)) : SM RDev (list string * list string * list nat) :=
  match l with
  | [] => mret ([], [], [])
  | (i, nm) :: l =>
      j ← att_index nm;
      x ← attr_at j;
      '(local, fwd, idx) ← split_fwd l;
      mret (if is_fwd_att (info (att_of x)) then (local, if bool_decide (fwd = []) then [nm] else fwd, i :: idx)
            else (if bool_decide (local = []) then [nm] else local, fwd, idx))
  end.
Definition read_cache (names : list string) : SM RDev unit :=
  '(local, fwd, idx) ← (if with_fwd_att && negb (bool_decide (idl = Data3)) then split_fwd (imap pair names) else mret ([], [], []));
  if bool_decide (idx = []) then from_cache names
  else from_cache local;; from_device fwd (Some idx).

(** The errors for which the device is asked. *)
Definition unavailable (l : DevErrorList) : bool :=
  match last l with
  | Some e =>
      bool_decide (reason e ∈ ["API_AttrNotPolled"; "API_NoDataYet"; "API_NotUpdatedAnyMore"]) ||
      bool_decide (origin e = "DServer::add_obj_polling")
  | None => false
  end.
Fixpoint for_device (l : list (nat * string)) : SM RDev (list (nat * string)) :=
  match l with
  | [] => mret []
  | (i, nm) :: l =>
      s ← get;
      v ← lift (deref (back s !! i));
      if unavailable (net_errs v) then
        put_back i (set_net_errs []);; l ← for_device l; mret ((i, nm) :: l)
      else for_device l
  end.
Definition read_cache_device (names : list string) : SM RDev unit :=
  from_cache names;;
  l ← for_device (imap pair names);
  when_ (negb (bool_decide (l = []))) (from_device (snd <$> l) (Some (fst <$> l))).

Definition read_attributes (names : list string) (source : DevSource) : SM RDev (list NetValue) :=
  names ← real_names names;
  modify (set_back (replicate (length names) blank));;
  (match source with
   | DEV => from_device names None
   | CACHE => read_cache names
   | CACHE_DEV => read_cache_device names
   end);;
  s ← get; mret (back s).
End Request.
Definition read_attributes_3 {Any} := @read_attributes Any Data3.
Definition read_attributes_4 {Any} := @read_attributes Any Data4.
Definition read_attributes_5 {Any} := @read_attributes Any Data5.

(** ** The names of a request (src/src/client/devapi_base.cpp)

  [DeviceProxy::same_att_name], which refuses a request that has several times the same
  attribute.  A client that goes through it sends the server names that are different, as
  the properties of the requests assume. *)
Local Open Scope string_scope.
Local Open Scope list_scope.

(** The number of groups of equal neighbours ([unique]), and one of each pair of equal
    neighbours. *)
Fixpoint unique_len (l : list string) : nat :=
  match l with
  | [] => 0
  | a :: r => match r with [] => 1 | b :: _ => (if bool_decide (a = b) then 0 else 1) + unique_len r end
  end.
Fixpoint doubles (l : list string) : list string :=
  match l with
  | [] => []
  | a :: r => match r with [] => [] | b :: _ => (if bool_decide (a = b) then [a] else []) ++ doubles r end
  end.
(** [ctr] doubles are already in the text; the last of [n] has no separator. *)
Fixpoint doubles_text (n ctr : nat) (l : list string) : string :=
  match l with
  | [] => ""
  | a :: r => a +:+ (if (S ctr <? n)%nat then ", " else "") +:+ doubles_text n (S ctr) r
  end.
Definition same_att_name (attr_list : list string) (met_name : string) : outcome unit :=
  if (1 <? length attr_list)%nat then
    let same_att := merge_sort (≤)%string (tolower <$> attr_list) in
    let duplicate_att := (length attr_list - unique_len same_att)%nat in
    if (duplicate_att =? 0)%nat then Ok tt
    else throw_exception "API_AttributeFailed"
           ("Several times the same attribute in required attributes list: " +:+ doubles_text duplicate_att 0 (doubles same_att)) met_name
  else Ok tt.

(** ** The accepted requests *)

Lemma unique_doubles l : (unique_len l + length (doubles l) = length l)%nat.
Proof.
  induction l as [|a [|b r] IH]; [done|done|]. cbn [unique_len doubles] in *.
  rewrite length_app. case_bool_decide; simpl in *; lia.
Qed.
Lemma sorted_doubles l : StronglySorted (≤)%string l → doubles l = [] ↔ NoDup l.
Proof.
  induction l as [|a [|b r] IH]; intros Hs.
  - split; [constructor|done].
  - split; [intros _; apply NoDup_singleton|done].
  - apply StronglySorted_cons in Hs as [Ha Hs]. specialize (IH Hs). rewrite NoDup_cons, <-IH.
    cbn [doubles]. case_bool_decide as Hab.
    + split; [done|]. intros [Hn _]. destruct Hn. subst. by left.
    + cbn [app]. split; [|by intros [_ H]]. intros Hd. split; [|done]. intros [->|Hin]%elem_of_cons; [done|].
      apply StronglySorted_cons in Hs as [Hb _]. apply Forall_cons in Ha as [Hab' _].
      rewrite Forall_forall in Hb. apply Hab. apply (anti_symm (≤)%string); [done|]. by apply Hb.
Qed.

(** the names a client may ask for.  The check accepts a list of names exactly when they
    are different, letter case apart, which is what the server needs: with the mutexes of the
    attributes, a name that is twice in a request blocks it. *)
Theorem same_att_name_spec attr_list met_name :
  same_att_name attr_list met_name = Ok tt ↔ NoDup (tolower <$> attr_list).
Proof.
  unfold same_att_name. destruct (Nat.ltb_spec 1 (length attr_list)) as [Hl|Hl].
  2: { split; [intros _|done]. destruct attr_list as [|a [|b r]]; [constructor|apply NoDup_singleton|simpl in Hl; lia]. }
  set (l := merge_sort _ _). assert (l ≡ₚ tolower <$> attr_list) as Hp by apply merge_sort_Permutation.
  assert (StronglySorted (≤)%string l) as Hs by (apply (StronglySorted_merge_sort _)).
  rewrite <-Hp, <-(sorted_doubles l Hs). pose proof (unique_doubles l) as Hu.
  assert (length l = length attr_list) as Hlen by (by rewrite Hp, length_fmap).
  destruct (Nat.eqb_spec (length attr_list - unique_len l) 0) as [E|E].
  - split; [intros _|done]. apply length_zero_iff_nil. lia.
  - split; [done|]. intros H. rewrite H in Hu. simpl in Hu. lia.
Qed.
Example refused_names :
  same_att_name ["speed"; "Current"; "SPEED"; "power"; "current"] "m" =
    throw_exception "API_AttributeFailed" "Several times the same attribute in required attributes list: current, speed" "m".
Proof. vm_compute. reflexivity. Qed.
