(* ===== verification/ReadCacheTheory.v ===== *)
(** * Properties of the requests that read attributes from the polling

  The answer of the polling for a name only depends on the poll list and on the attribute
  of this name ([cached]); the request that asks the polling and then the device answers
  with the value of the polling when there is one, and with the value of the device when
  there is none. *)
From S2P Require Import Prelude StateExn CppString PollRing PollObj PollCycle AttrHistory Number Attribute DevState WAttribute WriteAttrs.
From S2P Require Import ReadAttrs ReadTheory ReadProps ReadCache.
Local Open Scope string_scope.
Local Open Scope list_scope.
Local Open Scope Z_scope.
Implicit Types s : RDev.
Implicit Types v : NetValue.

Lemma filter_all {A} (Q : A → Prop) `{∀ a, Decision (Q a)} (l : list A) : length (filter Q l) = length l → ∀ a, a ∈ l → Q a.
Proof.
  induction l as [|b l IH]; intros Hl a Ha; [by apply elem_of_nil in Ha|]. rewrite filter_cons in Hl.
  destruct (decide (Q b)) as [Hb|Hb]; simpl in Hl.
  - apply elem_of_cons in Ha as [->|Ha]; [done|]. apply IH; [lia|done].
  - pose proof (length_filter Q l). lia.
Qed.

Section Cached.
Context {Any : Type}.
Context (idl : Idl) (vers clock : Z) (poll_list : list (PollObj Any WElt)) (atts0 : list RAttr).

(** ** The answer of the polling for a name alone *)

Definition att_for (nm : string) : option RAttr := index_in atts0 nm ≫= λ j, atts0 !! j.
Definition found_step (nm : string) v : NetValue :=
  match index_in atts0 nm with Some _ => v | None => error_from_devfailed idl (not_found_error nm) nm v end.
(** The name of an attribute that has neither a polled object nor a polling period. *)
Definition never_polled (nm : string) : bool :=
  match att_for nm with
  | Some x => negb (existsb (λ o, same_nm (po_name o) nm) poll_list) && (poll_period (info (att_of x)) =? 0)
  | None => false
  end.
Definition not_polled_answer (nm : string) v : NetValue :=
  match att_for nm with
  | Some x => cache_error idl "API_AttrNotPolled" ("Attribute " +:+ att_name x +:+ " not polled") (att_name x) v
  | None => v
  end.
Definition polled_step (nm : string) v : option NetValue :=
  match List.find (is_polled_attr nm) poll_list with
  | None => Some ((if bool_decide (idl = Data3) then id else set_net_format FMT_UNKNOWN) (no_data idl nm v))
  | Some o =>
      if is_empty (po_ring o) then Some (no_data idl nm v)
      else
        match (if po_upd o =? 0 then Ok false else last ← get_last_insert_date (po_ring o); Ok (get_authorized_delta o <? clock - last)) with
        | Ok true => Some (cache_error idl "API_NotUpdatedAnyMore" ("Data in cache for attribute " +:+ nm +:+ " not updated any more") nm v)
        | Ok false =>
            x ← att_for nm;
            match polled_answer idl vers nm (att_of x) (po_ring o) v with
            | Ok v => Some v
            | Exc (DevFailed l) => Some (error_from_devfailed idl l nm v)
            | _ => None
            end
        | _ => None
        end
  end.
Definition unless_error (f : NetValue → option NetValue) v : option NetValue := if bool_decide (net_errs v = []) then f v else Some v.
Definition cached (nm : string) v : option NetValue :=
  let v := found_step nm v in
  let v := if never_polled nm then not_polled_answer nm v else v in
  unless_error (polled_step nm) v.

(** ** The request is the loop of the names *)

Context (names : list string).
Let l := imap pair names.
Let P (a : nat * string) : nat := fst a.
Definition np (a : nat * string) : list nat :=
  match index_in atts0 (snd a) with
  | Some _ => if existsb (λ o, same_nm (po_name o) (snd a)) poll_list then [] else [fst a]
  | None => []
  end.

Lemma in_l i nm : names !! i = Some nm ↔ (i, nm) ∈ l.
Proof.
  split; [|apply pair_at]. intros H. apply list_elem_of_lookup. exists i. unfold l. by rewrite list_lookup_imap, H.
Qed.
Lemma names_places : NoDup (P <$> l).
Proof.
  assert (P <$> l = seq 0 (length names)) as ->; [|apply NoDup_seq].
  apply list_eq. intros i. unfold l, P. rewrite list_lookup_fmap, list_lookup_imap.
  destruct (names !! i) as [nm|] eqn:E; simpl.
  - symmetry. apply lookup_seq. split; [lia|]. by eapply lookup_lt_Some.
  - symmetry. apply lookup_ge_None. rewrite length_seq. by apply lookup_ge_None.
Qed.

(** A turn that only changes an answer. *)
Definition only_back s p v' : RDev := set_back (<[p := v']> (back s)) s.
Lemma back_put_run s p f v : back s !! p = Some v → put_back p f s = Some (only_back s p (f v), inr tt).
Proof. intros Hv. unfold put_back. rewrite (run_bind _ _ _ _ _ eq_refl), (run_bind _ _ s s v) by (by rewrite Hv). done. Qed.
(** The attributes of the device are those of the start. *)
Definition same_atts s : Prop := r_atts s = atts0.

Lemma found_local a s v : same_atts s → a ∈ l → back s !! P a = Some v →
  ∃ s', check_name idl poll_list a s = Some (s', inr (np a)) ∧ s' = only_back s (P a) (found_step (snd a) v).
Proof.
  destruct a as [i nm]. intros Hs Ha Hv. unfold check_name, np, found_step. cbn [fst snd].
  unfold mbind at 1, SM_bind at 1, attempt. rewrite att_index_run, Hs. destruct (index_in atts0 nm) as [j|] eqn:Ej.
  - exists s. split; [done|]. unfold only_back, P. cbn [fst]. rewrite list_insert_id by done. by destruct s.
  - eexists. split; [|done]. rewrite (run_bind _ _ _ _ _ (back_put_run s i _ v Hv)). done.
Qed.
Lemma att_at_run s nm j : same_atts s → index_in atts0 nm = Some j →
  ∃ x, att_for nm = Some x ∧ att_index nm s = Some (s, inr j) ∧ attr_at j s = Some (s, inr x).
Proof.
  intros Hs Hj. destruct (index_lookup _ _ _ Hj) as (x & Hx & _). exists x. unfold att_for. rewrite Hj. simpl. split; [done|].
  rewrite att_index_run, Hs, Hj. split; [done|]. unfold attr_at. rewrite (run_bind _ _ _ _ _ eq_refl), Hs, Hx. done.
Qed.
Lemma not_polled_local a s v : same_atts s → a ∈ l → back s !! P a = Some v →
  count_not_polled idl names (np a) s =
    Some (only_back s (P a) (if never_polled (snd a) then not_polled_answer (snd a) v else v), inr (if never_polled (snd a) then 1%nat else 0%nat)).
Proof.
  destruct a as [i nm]. intros Hs Ha Hv. unfold np, never_polled, not_polled_answer. cbn [fst snd].
  assert (only_back s (P (i, nm)) v = s) as Hsame.
  { unfold only_back. rewrite list_insert_id by done. by destruct s. }
  destruct (index_in atts0 nm) as [j|] eqn:Ej.
  2: { unfold att_for. rewrite Ej. cbn [mbind option_bind]. by rewrite Hsame. }
  destruct (att_at_run s nm j Hs Ej) as (x & Hx & H1 & H2). rewrite Hx.
  destruct (existsb _ poll_list); cbn [negb andb].
  { by rewrite Hsame. }
  cbn [count_not_polled]. unfold not_polled_one. apply in_l in Ha.
  assert (∀ (k : bool → SM RDev nat), (((nm ← lift (deref (names !! i)); j ← att_index nm; x ← attr_at j;
      if poll_period (info (att_of x)) =? 0
      then put_back i (cache_error idl "API_AttrNotPolled" ("Attribute " +:+ att_name x +:+ " not polled") (att_name x));; mret true
      else mret false) : SM RDev bool) ≫= k) s =
    k (poll_period (info (att_of x)) =? 0) (if poll_period (info (att_of x)) =? 0 then only_back s i (cache_error idl "API_AttrNotPolled" ("Attribute " +:+ att_name x +:+ " not polled") (att_name x) v) else s)) as Hk.
  { intros k. unfold mbind, SM_bind. rewrite Ha. cbn [deref lift]. rewrite H1, H2. destruct (_ =? 0); [|done]. by rewrite (back_put_run s i _ v Hv). }
  rewrite Hk. destruct (_ =? 0); [done|]. by rewrite Hsame.
Qed.

Definition has_cells (l' : list (nat * string)) s : Prop := ∀ a, a ∈ l' → is_Some (back s !! P a).
Lemma has_cells_only l' s p v : has_cells l' s → has_cells l' (only_back s p v).
Proof.
  intros H a Ha. simpl. destruct (H a Ha) as [w Hw]. destruct (decide (p = P a)) as [->|Hne].
  - rewrite list_lookup_insert_eq; [done|]. by eapply lookup_lt_Some.
  - by rewrite list_lookup_insert_ne.
Qed.

Lemma check_names_loop l' s : same_atts s → l' ⊆ l → has_cells l' s →
  ∃ s', for_list (λ a, check_name idl poll_list a;; mret tt) l' s = Some (s', inr tt) ∧
    check_names idl poll_list l' s = Some (s', inr (concat (np <$> l'))).
Proof.
  revert s. induction l' as [|a l' IH]; intros s Hs Hl Hc; [by exists s|].
  destruct (Hc a) as [v Hv]; [by left|].
  destruct (found_local a s v Hs) as (s1 & H1 & ->); [apply Hl; by left|done|].
  destruct (IH (only_back s (P a) (found_step (snd a) v))) as (s' & H2 & H3); [done|intros b Hb; apply Hl; by right| |].
  { apply has_cells_only. intros b Hb. apply Hc. by right. }
  exists s'. cbn [for_list check_names fmap list_fmap concat]. split.
  - rewrite (run_bind _ _ s (only_back s (P a) (found_step (snd a) v)) tt); [done|]. by rewrite (run_bind _ _ _ _ _ H1).
  - rewrite (run_bind _ _ _ _ _ H1), (run_bind _ _ _ _ _ H3). done.
Qed.
Lemma count_app l1 l2 s s1 s2 n m :
  count_not_polled idl names l1 s = Some (s1, inr n) → count_not_polled idl names l2 s1 = Some (s2, inr m) →
  count_not_polled idl names (l1 ++ l2) s = Some (s2, inr (n + m)%nat).
Proof.
  revert s n. induction l1 as [|i l1 IH]; intros s n H1 H2; [by injection H1 as <- <-|].
  cbn [count_not_polled app] in *. apply bind_inr in H1 as (s3 & b & Hb & H1). apply bind_inr in H1 as (s4 & k & Hk & H1).
  rewrite (run_bind _ _ _ _ _ Hb). injection H1 as -> <-. rewrite (run_bind _ _ _ _ _ (IH _ _ Hk H2)). by destruct b.
Qed.
Lemma count_loop l' s : same_atts s → l' ⊆ l → has_cells l' s →
  ∃ s', for_list (λ a, count_not_polled idl names (np a);; mret tt) l' s = Some (s', inr tt) ∧
    count_not_polled idl names (concat (np <$> l')) s = Some (s', inr (length (filter (λ a, never_polled (snd a) = true) l'))).
Proof.
  revert s. induction l' as [|a l' IH]; intros s Hs Hl Hc; [by exists s|].
  destruct (Hc a) as [v Hv]; [by left|].
  pose proof (not_polled_local a s v Hs (Hl a (list_elem_of_here _ _)) Hv) as H1. set (s1 := only_back _ _ _) in H1.
  destruct (IH s1) as (s' & H2 & H3); [done|intros b Hb; apply Hl; by right| |].
  { apply has_cells_only. intros b Hb. apply Hc. by right. }
  exists s'. cbn [for_list fmap list_fmap concat]. split.
  - rewrite (run_bind _ _ s s1 tt); [done|]. by rewrite (run_bind _ _ _ _ _ H1).
  - rewrite (count_app _ _ _ _ _ _ _ H1 H3). rewrite filter_cons. destruct (never_polled (snd a)).
    + by rewrite decide_True.
    + by rewrite decide_False.
Qed.

Lemma polled_local a s v v' : same_atts s → a ∈ l → back s !! P a = Some v → unless_error (polled_step (snd a)) v = Some v' →
  cache_one idl vers clock poll_list a s = Some (only_back s (P a) v', inr tt).
Proof.
  destruct a as [i nm]. intros Hs Ha Hv Hf. cbn [snd] in *. unfold cache_one.
  rewrite (run_bind _ _ s s s eq_refl), (run_bind _ _ s s v) by (change i with (P (i, nm)); by rewrite Hv).
  unfold unless_error in Hf. destruct (bool_decide (net_errs v = [])); cbn [negb].
  2: { injection Hf as <-. unfold only_back. rewrite list_insert_id by done. by destruct s. }
  unfold polled_step in Hf. destruct (List.find _ poll_list) as [o|]; [|injection Hf as <-; exact (back_put_run s (P (i, nm)) (λ v, (if bool_decide (idl = Data3) then id else set_net_format FMT_UNKNOWN) (no_data idl nm v)) v Hv)].
  destruct (is_empty (po_ring o)); [injection Hf as <-; by apply back_put_run|].
  set (old := if po_upd o =? 0 then Ok false else _) in Hf.
  assert (too_old clock o s = lift old s) as Hold.
  { unfold too_old, old. destruct (_ =? 0); [done|]. by destruct (get_last_insert_date (po_ring o)). }
  destruct old as [[]| |]; [| |done..].
  { injection Hf as <-. rewrite (run_bind _ _ s s true) by (by rewrite Hold). by apply back_put_run. }
  rewrite (run_bind _ _ s s false) by (by rewrite Hold). destruct (att_for nm) as [x|] eqn:Hx; [|done]. cbn [mbind option_bind] in Hf.
  destruct (index_in atts0 nm) as [j|] eqn:Ej; [|unfold att_for in Hx; by rewrite Ej in Hx].
  destruct (att_at_run s nm j Hs Ej) as (y & Hy & H1 & H2). rewrite Hx in Hy. injection Hy as <-.
  rewrite (run_bind _ _ _ _ _ H1), (run_bind _ _ _ _ _ H2). unfold mbind at 1, SM_bind at 1, attempt, lift.
  destruct (polled_answer idl vers nm (att_of x) (po_ring o) v) as [w|[e|n]|]; [| |done..]; injection Hf as <-.
  - exact (back_put_run s (P (i, nm)) (λ _, w) v Hv).
  - exact (back_put_run s (P (i, nm)) _ v Hv).
Qed.

(** A loop whose turns change one answer each. *)
Lemma for_list_back f (m : nat * string → SM RDev unit) l' s :
  (∀ a s v v', a ∈ l' → same_atts s → back s !! P a = Some v → f (snd a) v = Some v' → m a s = Some (only_back s (P a) v', inr tt)) →
  same_atts s → NoDup (P <$> l') → (∀ a, a ∈ l' → ∃ v, back s !! P a = Some v ∧ is_Some (f (snd a) v)) →
  ∃ s', for_list m l' s = Some (s', inr tt) ∧ s' = set_back (back s') s ∧
    (∀ a v, a ∈ l' → back s !! P a = Some v → ∃ v', f (snd a) v = Some v' ∧ back s' !! P a = Some v') ∧
    (∀ p, p ∉ P <$> l' → back s' !! p = back s !! p).
Proof.
  revert s. induction l' as [|a l' IH]; intros s Hm Hs Hn Hd.
  { exists s. split; [done|]. split; [by destruct s|]. split; [by intros a v H%elem_of_nil|done]. }
  rewrite fmap_cons in Hn. apply NoDup_cons in Hn as [Ha Hn]. destruct (Hd a) as (v & Hv & [v' Hf]); [by left|].
  assert (∀ b, b ∈ l' → P b ≠ P a) as Hne by (intros b Hb E; apply Ha; rewrite <-E; by apply list_elem_of_fmap_2).
  set (s1 := only_back s (P a) v').
  assert (∀ b, b ∈ l' → back s1 !! P b = back s !! P b) as Hb1.
  { intros b Hb. simpl. apply list_lookup_insert_ne, not_eq_sym. by apply Hne. }
  destruct (IH s1) as (s' & H1 & H2 & H3 & H4); [intros b; intros; eapply (Hm b); [by right|done..]|done|done|..].
  { intros b Hb. rewrite Hb1 by done. apply Hd. by right. }
  exists s'. split; [|split; [|split]].
  - cbn [for_list]. rewrite (run_bind _ _ s s1 tt); [done|]. apply (Hm a _ v); [by left|done..].
  - rewrite H2 at 1. done.
  - intros b w [->|Hb]%elem_of_cons Hw.
    + rewrite Hv in Hw. injection Hw as <-. exists v'. split; [done|]. rewrite H4 by done. simpl.
      apply list_lookup_insert_eq. by eapply lookup_lt_Some.
    + apply H3; [done|]. by rewrite Hb1.
  - intros p Hp. rewrite fmap_cons in Hp. apply not_elem_of_cons in Hp as [Hpa Hp]. rewrite H4 by done. simpl. by apply list_lookup_insert_ne.
Qed.

(** The answers of the whole request; the attributes and the device are as they were. *)
Definition all_cached s s' : Prop :=
  s' = set_back (back s') s ∧
  (∀ i nm v, names !! i = Some nm → back s !! i = Some v → ∃ v', cached nm v = Some v' ∧ back s' !! i = Some v') ∧
  (∀ p, names !! p = None → back s' !! p = back s !! p).

Lemma cached_parts nm v : cached nm v =
  unless_error (polled_step nm) (if never_polled nm then not_polled_answer nm (found_step nm v) else found_step nm v).
Proof. done. Qed.
Lemma not_polled_errs nm v : never_polled nm = true → net_errs (not_polled_answer nm v) ≠ [].
Proof.
  unfold never_polled, not_polled_answer. destruct (att_for nm); [|done]. intros _. unfold cache_error, one_error, error_from_devfailed, clear_att_dim.
  by rewrite net_errs_format.
Qed.

Lemma cache_loop s : same_atts s →
  (∀ i nm, names !! i = Some nm → ∃ v, back s !! i = Some v ∧ is_Some (cached nm v)) →
  ∃ s', read_attributes_from_cache idl vers clock poll_list names s = Some (s', inr tt) ∧ all_cached s s'.
Proof.
  intros Hs Hd. assert (∀ a, a ∈ l → ∃ v, back s !! P a = Some v ∧ is_Some (cached (snd a) v)) as Hd'.
  { intros [i nm] Ha. by apply (Hd i nm), in_l. }
  destruct (for_list_back (λ nm v, Some (found_step nm v)) (λ a, check_name idl poll_list a;; mret tt) l s) as (s1 & R1 & E1 & C1 & O1).
  { intros a t v v' Ha Ht Hv [= <-]. destruct (found_local a t v Ht Ha Hv) as (t' & H & ->). by rewrite (run_bind _ _ _ _ _ H). }
  { done. } { apply names_places. } { intros a Ha. destruct (Hd' a Ha) as (v & Hv & _). eauto. }
  destruct (check_names_loop l s Hs) as (s1' & R1' & Hchk); [done|intros a Ha; destruct (Hd' a Ha) as (v & -> & _); by eexists|].
  rewrite R1 in R1'. injection R1' as <-.
  assert (same_atts s1) as Hs1 by (rewrite E1; exact Hs).
  destruct (for_list_back (λ nm v, Some (if never_polled nm then not_polled_answer nm v else v))
              (λ a, count_not_polled idl names (np a);; mret tt) l s1) as (s2 & R2 & E2 & C2 & O2).
  { intros a t v v' Ha Ht Hv [= <-]. by rewrite (run_bind _ _ _ _ _ (not_polled_local a t v Ht Ha Hv)). }
  { done. } { apply names_places. } { intros a Ha. destruct (Hd' a Ha) as (v & Hv & _). destruct (C1 a v Ha Hv) as (v1 & _ & Hv1). eauto. }
  destruct (count_loop l s1 Hs1) as (s2' & R2' & Hcnt); [done| |].
  { intros a Ha. destruct (Hd' a Ha) as (v & Hv & _). destruct (C1 a v Ha Hv) as (v1 & _ & Hv1). by eexists. }
  rewrite R2 in R2'. injection R2' as <-.
  assert (same_atts s2) as Hs2 by (rewrite E2; exact Hs1).
  assert (∀ a, a ∈ l → ∃ v v2, back s !! P a = Some v ∧ back s2 !! P a = Some v2 ∧ cached (snd a) v = unless_error (polled_step (snd a)) v2 ∧
    (never_polled (snd a) = true → net_errs v2 ≠ [])) as Hcell.
  { intros a Ha. destruct (Hd' a Ha) as (v & Hv & _). destruct (C1 a v Ha Hv) as (v1 & [= <-] & Hv1). destruct (C2 a _ Ha Hv1) as (v2 & [= <-] & Hv2).
    eexists _, _. split; [done|]. split; [done|]. split; [apply cached_parts|]. intros H. rewrite H. by apply not_polled_errs. }
  destruct (for_list_back (λ nm, unless_error (polled_step nm)) (cache_one idl vers clock poll_list) l s2) as (s3 & R3 & E3 & C3 & O3).
  { intros a t v v' Ha Ht Hv Hf. by apply (polled_local a t v v'). }
  { done. } { apply names_places. }
  { intros a Ha. destruct (Hcell a Ha) as (v & v2 & Hv & Hv2 & Hc & _). destruct (Hd' a Ha) as (w & Hw & Hdef). rewrite Hv in Hw. injection Hw as <-.
    exists v2. split; [done|]. by rewrite <-Hc. }
  assert (all_cached s s3) as Hall.
  { split; [rewrite E3, E2, E1 at 1; done|]. split.
    - intros i nm v Hi Hv. apply in_l in Hi. destruct (Hcell (i, nm) Hi) as (w & v2 & Hw & Hv2 & Hc & _).
      unfold P in *. cbn [fst snd] in *. rewrite Hv in Hw. injection Hw as <-. destruct (C3 (i, nm) v2 Hi Hv2) as (v3 & Hv3 & Hb). exists v3. by rewrite Hc.
    - intros p Hp. assert (p ∉ P <$> l) as Hn.
      { intros ([i nm] & -> & Hin)%list_elem_of_fmap. apply in_l in Hin. simpl in Hp. congruence. }
      by rewrite O3, O2, O1. }
  unfold read_attributes_from_cache. fold l. rewrite (run_bind _ _ _ _ _ Hchk).
  set (non_polled := concat (np <$> l)) in *.
  assert ((if negb (bool_decide (non_polled = [])) then count_not_polled idl names non_polled else mret 0%nat) s1 =
    Some (s2, inr (length (filter (λ a, never_polled (snd a) = true) l)))) as Hcount.
  { case_bool_decide as E; cbn [negb]; [|done]. rewrite E in Hcnt. cbn [count_not_polled] in Hcnt. exact Hcnt. }
  rewrite (run_bind _ _ _ _ _ Hcount). destruct (_ && _) eqn:Eall; [|by exists s3].
  exists s2. split; [done|]. assert (s3 = s2) as <-; [|done].
  apply andb_true_iff in Eall as [_ Eall]. apply Nat.eqb_eq in Eall.
  assert (length names = length l) as Hlen by (unfold l; by rewrite length_imap). rewrite Hlen in Eall.
  assert (∀ a, a ∈ l → never_polled (snd a) = true) as Hnever.
  { intros a Ha. by apply (filter_all (λ a, never_polled (snd a) = true) l). }
  rewrite E3. transitivity (set_back (back s2) s2); [f_equal|by destruct s2]. apply list_eq. intros p.
  destruct (decide (p ∈ P <$> l)) as [(a & -> & Ha)%list_elem_of_fmap|Hp]; [|by rewrite O3].
  destruct (Hcell a Ha) as (v & v2 & _ & Hv2 & _ & He). destruct (C3 a v2 Ha Hv2) as (v3 & Hv3 & Hb). rewrite Hb, Hv2. f_equal.
  unfold unless_error in Hv3. rewrite bool_decide_eq_false_2 in Hv3 by (by apply He, Hnever). by injection Hv3.
Qed.
End Cached.

(** ** An answer that has been cleared is as good as a new one *)

Section Sim.
Context (idl : Idl).
(** What a step may keep of an answer without errors. *)
Definition sim v w : Prop :=
  net_time v = net_time w ∧ net_data v = net_data w ∧ (idl = Data3 → net_format v = net_format w) ∧ (idl ≠ Data5 → net_type v = net_type w).
Lemma head_sim nm q t r d f ty l v w : sim v w →
  with_format idl f ty (set_net_errs l (set_net_head nm q t r d v)) = with_format idl f ty (set_net_errs l (set_net_head nm q t r d w)).
Proof.
  intros (_ & Hd & Hf & Ht). destruct v, w. unfold set_net_errs, set_net_head, with_format, set_net_format, set_net_type. simpl in *. subst.
  destruct idl; [rewrite Hf, Ht by done|rewrite Ht by done|]; done.
Qed.
Lemma error_sim l nm v w : sim v w → error_from_devfailed idl l nm v = error_from_devfailed idl l nm w.
Proof.
  intros H. pose proof H as (Ht & _). unfold error_from_devfailed, clear_att_dim. simpl. rewrite Ht.
  pose proof (head_sim nm ATTR_INVALID (net_time w) (0, 0) (0, 0) FMT_UNKNOWN DEV_VOID l v w H) as Hh. by destruct v, w, idl.
Qed.
Lemma described_sim nm q t r d f ty v w : net_errs v = net_errs w → sim v w →
  with_format idl f ty (set_net_head nm q t r d v) = with_format idl f ty (set_net_head nm q t r d w).
Proof. intros He H. pose proof (head_sim nm q t r d f ty (net_errs w) v w H) as Hh. destruct v, w, idl; simpl in *; subst; done. Qed.
Lemma sim_data d v w : sim v w → sim (set_net_data d v) (set_net_data d w).
Proof. intros (H1 & _ & H2 & H3). by split_and!. Qed.

Context (now : TimeVal) (now_ns : Z) (is_allowed : nat → outcome bool)
  (read : nat → Attribute → option UserRead) (polled : list (string * Z)) (atts0 : list RAttr).
Lemma build_sim p nm x v w : net_errs v = [] → net_errs w = [] → sim v w →
  build_step idl now polled atts0 p nm x v = build_step idl now polled atts0 p nm x w.
Proof.
  intros Hv Hw H. unfold build_step. destruct (bool_decide _).
  { destruct (run_unit _ x) as [x'|]; [|done]. cbn [mbind option_bind]. do 2 f_equal. apply described_sim; [congruence|done]. }
  destruct (negb _).
  { destruct (run_unit _ x) as [x'|]; [|done]. cbn [mbind option_bind]. do 2 f_equal. by apply error_sim. }
  destruct (set_part atts0 x) as [set|]; [|done]. cbn [mbind option_bind]. unfold value_part.
  destruct (attribute_value (att_of x)) as [st|]; [|done]. cbn [mbind option_bind].
  destruct (bool_decide (data_type (info (att_of x)) = DEV_ENCODED) && bool_decide (idl = Data3)).
  - by rewrite (error_sim _ _ v w H).
  - destruct (sequence_sent _ st) as [d| |]; [|done..]. cbn [mbind option_bind]. destruct (run_unit _ _) as [x2|]; [|done]. cbn [mbind option_bind].
    do 2 f_equal. apply described_sim; [simpl; congruence|by apply sim_data].
Qed.
Lemma alone_sim j p nm x v w : net_errs v = [] → net_errs w = [] → sim v w →
  alone idl now now_ns is_allowed read polled atts0 j p nm x v = alone idl now now_ns is_allowed read polled atts0 j p nm x w.
Proof.
  intros Hv Hw H. unfold alone.
  assert (∀ o, with_errors idl nm o v = with_errors idl nm o w ∨ o = None) as He.
  { intros [l|]; [left; by apply error_sim|by right]. }
  assert (∀ b f x, if_att idl b f nm x v = if_att idl b f nm x w ∨ ∃ x', if_att idl b f nm x v = Some (x', v) ∧ if_att idl b f nm x w = Some (x', w)) as Hif.
  { intros b f [y|]; [|right; by eexists]. unfold if_att. destruct (b y); [|right; by eexists].
    destruct (f y) as [[y' o]|]; [|by left]. cbn [mbind option_bind]. destruct (He o) as [-> | ->]; [by left|right; by eexists]. }
  assert (find_step idl nm x v = find_step idl nm x w ∨ ∃ x', find_step idl nm x v = Some (x', v) ∧ find_step idl nm x w = Some (x', w)) as [-> |(x1 & -> & ->)].
  { unfold find_step. destruct x as [x|].
    - destruct (check_startup_exceptions _); [left|right; by eexists]. destruct (He (Some (startup_error x))) as [-> |]; done.
    - left. destruct (He (Some (not_found_error nm))) as [-> |]; done. }
  { done. }
  cbn [mbind option_bind]. destruct (Hif to_read (λ x, j ← j; read_step idl now_ns is_allowed read j x) x1) as [-> |(x2 & -> & ->)]; [done|].
  cbn [mbind option_bind]. destruct (Hif to_set (set_step idl now) x2) as [-> |(x3 & -> & ->)]; [done|].
  cbn [mbind option_bind]. unfold build_turn. rewrite Hv, Hw. change (bool_decide ([] = [])) with true. cbv iota.
  destruct x3 as [x3|]; [|done]. cbn [mbind option_bind]. by rewrite (build_sim p nm x3 v w Hv Hw H).
Qed.
End Sim.

Lemma cleared_sim idl l nm v : sim idl (set_net_errs [] (error_from_devfailed idl l nm v)) v.
Proof. unfold sim. by destruct v, idl. Qed.

Lemma NoDup_fmap_filter {A B} (f : A → B) (Q : A → Prop) `{∀ a, Decision (Q a)} (l : list A) : NoDup (f <$> l) → NoDup (f <$> filter Q l).
Proof.
  induction l as [|a l IH]; [done|]. rewrite fmap_cons. intros [Ha Hn]%NoDup_cons. rewrite filter_cons.
  destruct (decide (Q a)); [|by apply IH]. rewrite fmap_cons. apply NoDup_cons. split; [|by apply IH].
  intros (b & Hb & [_ Hin]%list_elem_of_filter)%list_elem_of_fmap. apply Ha. rewrite Hb. by apply list_elem_of_fmap_2.
Qed.

(** The names for which the device is asked, and their cleared answers. *)
Lemma for_device_run (q : nat * string → bool) l s :
  NoDup (fst <$> l) → (∀ a, a ∈ l → ∃ v, back s !! fst a = Some v ∧ unavailable (net_errs v) = q a) →
  ∃ s', for_device l s = Some (s', inr (filter (λ a, q a = true) l)) ∧ s' = set_back (back s') s ∧
    (∀ a v, a ∈ l → back s !! fst a = Some v → back s' !! fst a = Some (if q a then set_net_errs [] v else v)) ∧
    (∀ p, p ∉ fst <$> l → back s' !! p = back s !! p).
Proof.
  revert s. induction l as [|[i nm] l IH]; intros s Hn Hq.
  { exists s. split; [done|]. split; [by destruct s|]. split; [by intros a v H%elem_of_nil|done]. }
  rewrite fmap_cons in Hn. apply NoDup_cons in Hn as [Hi Hn]. destruct (Hq (i, nm)) as (v & Hv & Hqv); [by left|]. cbn [fst] in *.
  set (s1 := if q (i, nm) then only_back s i (set_net_errs [] v) else s).
  assert (∀ p, p ≠ i → back s1 !! p = back s !! p) as Hs1.
  { intros p Hp. unfold s1. destruct (q _); [|done]. by apply list_lookup_insert_ne. }
  assert (∀ b, b ∈ l → fst b ≠ i) as Hne by (intros b Hb <-; apply Hi; by apply list_elem_of_fmap_2).
  destruct (IH s1) as (s' & R & E & C & O); [done| |].
  { intros b Hb. rewrite Hs1 by (by apply Hne). apply Hq. by right. }
  exists s'. split; [|split; [|split]].
  - cbn [for_device]. rewrite (run_bind _ _ s s s eq_refl), (run_bind _ _ s s v) by (by rewrite Hv). rewrite Hqv, filter_cons.
    unfold s1 in R. destruct (q (i, nm)); [|rewrite decide_False by done; done]. rewrite decide_True by done.
    rewrite (run_bind _ _ _ _ _ (back_put_run s i _ v Hv)), (run_bind _ _ _ _ _ R). done.
  - rewrite E at 1. unfold s1. by destruct (q _).
  - intros a w [->|Ha]%elem_of_cons Hw.
    + cbn [fst] in *. rewrite Hv in Hw. injection Hw as <-. rewrite O by done. unfold s1. destruct (q _); [|done].
      simpl. apply list_lookup_insert_eq. by eapply lookup_lt_Some.
    + apply C; [done|]. by rewrite Hs1 by (by apply Hne).
  - intros p Hp. rewrite fmap_cons in Hp. apply not_elem_of_cons in Hp as [Hp1 Hp]. rewrite O by done. by apply Hs1.
Qed.

Section Sources.
Context {Any : Type}.
Context (idl : Idl) (vers clock : Z) (now : TimeVal) (now_ns : Z)
  (hook : SM DevSt unit) (is_allowed : nat → outcome bool) (read_attr_hardware : list nat → outcome unit)
  (read : nat → Attribute → option UserRead)
  (kernel_state user_state : SM DevSt DevState) (kernel_status user_status : SM DevSt string)
  (poll_list : list (PollObj Any WElt)) (blank : NetValue).

Lemma unavailable_cleared atts0 nm v :
  net_errs blank = [] → cached idl vers clock poll_list atts0 nm blank = Some v → unavailable (net_errs v) = true →
  sim idl (set_net_errs [] v) blank.
Proof.
  intros Hb. rewrite cached_parts.
  assert (∀ l nm v, net_errs (error_from_devfailed idl l nm v) = l) as Herr.
  { intros. unfold error_from_devfailed, clear_att_dim. by rewrite net_errs_format. }
  unfold found_step, never_polled, not_polled_answer, att_for. destruct (index_in atts0 nm) as [j|].
  2: { cbn [mbind option_bind]. unfold unless_error. rewrite Herr, bool_decide_eq_false_2 by done. intros [= <-]. rewrite Herr. done. }
  cbn [mbind option_bind]. assert (∀ l nm' (d : NetValue), d = error_from_devfailed idl l nm' blank → sim idl (set_net_errs [] d) blank) as Hsim.
  { intros l nm' d ->. apply cleared_sim. }
  assert (∀ (o : option NetValue), polled_step idl vers clock poll_list atts0 nm blank = o → o = Some v → unavailable (net_errs v) = true → sim idl (set_net_errs [] v) blank) as Hpol.
  { intros o <-. unfold polled_step. destruct (List.find _ poll_list) as [ob|].
    2: { intros [= <-] _. unfold sim. by destruct blank, idl. }
    destruct (is_empty _); [intros [= <-] _; by eapply Hsim|].
    destruct (if po_upd ob =? 0 then _ else _) as [[]| |]; [intros [= <-] _; by eapply Hsim| |done..].
    destruct (att_for atts0 nm) as [x|]; [|done]. cbn [mbind option_bind].
    destruct (polled_answer _ _ _ _ _ _) as [w|[l|n]|] eqn:Ep; [|intros [= <-] _; by eapply Hsim|done..]. intros [= <-].
    unfold polled_answer in Ep. destruct (device_value vers (po_ring ob)) as [y| |]; [|done..]. simpl in Ep.
    destruct (client_value idl vers (po_ring ob)) as [z| |]; [|done..]. simpl in Ep. injection Ep as <-.
    rewrite net_errs_format. simpl. destruct (bool_decide _); [by rewrite Hb|]. unfold polled_data_into_net_object.
    destruct (_ && _); [rewrite Herr; done|]. destruct (_ && _); simpl; by rewrite Hb. }
  destruct (atts0 !! j) as [x|].
  - destruct (negb _ && _).
    + unfold unless_error, cache_error, one_error. rewrite Herr, bool_decide_eq_false_2 by done. intros [= <-] _. by eapply Hsim.
    + unfold unless_error. rewrite Hb. change (bool_decide ([] = [])) with true. intros H. by eapply Hpol.
  - unfold unless_error. rewrite Hb. change (bool_decide ([] = [])) with true. intros H. by eapply Hpol.
Qed.

Let dev_request names second_try := from_device idl now now_ns hook is_allowed read_attr_hardware read kernel_state user_state kernel_status user_status poll_list names second_try.
Let good names second_try s := read_request idl now now_ns is_allowed read (polled_attrs poll_list) names second_try s hook read_attr_hardware.
Definition request names source := read_attributes idl vers clock now now_ns hook is_allowed read_attr_hardware read
  kernel_state user_state kernel_status user_status poll_list false blank names source.
Definition fresh (names : list string) s : RDev := set_back (replicate (length names) blank) s.

Lemma fresh_at names s i nm : names !! i = Some nm → back (fresh names s) !! i = Some blank.
Proof. intros Hi. simpl. apply lookup_replicate. split; [done|]. by eapply lookup_lt_Some. Qed.
Lemma request_run names source s s' m :
  names ≠ [AllAttr] →
  (match source with
   | DEV => dev_request names None
   | CACHE => from_cache idl vers clock poll_list names
   | CACHE_DEV => read_cache_device idl vers clock now now_ns hook is_allowed read_attr_hardware read kernel_state user_state kernel_status user_status poll_list names
   end) = m → m (fresh names s) = Some (s', inr tt) → request names source s = Some (s', inr (back s')).
Proof.
  intros Hn <- Hm. unfold request, read_attributes, real_names. rewrite (run_bind _ _ s s names).
  2: { rewrite (run_bind _ _ _ _ _ eq_refl). by rewrite bool_decide_eq_false_2. }
  rewrite (run_bind _ _ s (fresh names s) tt eq_refl).
  rewrite (run_bind _ _ (fresh names s) s' tt); [done|]. destruct source; [done| |done].
  unfold read_cache. cbn [andb]. rewrite (run_bind _ _ _ _ _ eq_refl). exact Hm.
Qed.

(** The request for the rest of the names, at their places, is a good one. *)
Lemma good_rest names s s2 (q : nat * string → bool) :
  net_errs blank = [] → good names None (fresh names s) → s2 = set_back (back s2) s →
  (∀ a, a ∈ imap pair names → q a = true → ∃ v, back s2 !! fst a = Some v ∧ net_errs v = [] ∧ sim idl v blank) →
  let l := filter (λ a, q a = true) (imap pair names) in good (snd <$> l) (Some (fst <$> l)) s2.
Proof.
  intros Hb [[[_ Hpn] Hk Hn _ Hh Hw] Ha] Hs2 Hq l.
  assert (∀ k i nm, l !! k = Some (i, nm) → (i, nm) ∈ imap pair names ∧ q (i, nm) = true) as Hl.
  { intros k i nm H%list_elem_of_lookup_2. unfold l in H. by apply list_elem_of_filter in H as [H1 H2]. }
  assert (snd <$> imap pair names = names) as Hsnd.
  { apply list_eq. intros i. rewrite list_lookup_fmap, list_lookup_imap. by destruct (names !! i). }
  assert (∀ k nm, (snd <$> l) !! k = Some nm → ∃ i, l !! k = Some (i, nm)) as Hk'.
  { intros k nm. rewrite list_lookup_fmap. destruct (l !! k) as [[i n]|]; [|done]. intros [= <-]. by exists i. }
  assert (∀ k i nm, l !! k = Some (i, nm) → place (Some (fst <$> l)) k = i) as Hplace.
  { intros k i nm H. unfold place. by rewrite list_lookup_fmap, H. }
  split; [split|].
  - split.
    + intros k nm Hnm. destruct (Hk' k nm Hnm) as [i Hi]. unfold back_index. rewrite list_lookup_fmap, Hi. simpl. f_equal. symmetry. by eapply Hplace.
    + apply Forall_lookup. intros k nm Hnm. destruct (Hk' k nm Hnm) as [i Hi]. destruct (Hl k i nm Hi) as [Hin _]. apply pair_at in Hin.
      by apply (proj1 (Forall_lookup _ _) Hpn i nm).
  - done.
  - rewrite <-list_fmap_compose. apply NoDup_fmap_filter. by rewrite list_fmap_compose, Hsnd.
  - assert ((λ a : nat * string, place (Some (fst <$> l)) (fst a)) <$> imap pair (snd <$> l) = fst <$> l) as ->; [|apply NoDup_fmap_filter, names_places].
    apply list_eq. intros k. rewrite !list_lookup_fmap, list_lookup_imap, list_lookup_fmap. destruct (l !! k) as [[i nm]|] eqn:E; [|done].
    simpl. f_equal. by eapply Hplace.
  - rewrite Hs2. exact Hh.
  - done.
  - intros [k nm] Hin%pair_at. destruct (Hk' k nm Hin) as [i Hi]. destruct (Hl k i nm Hi) as [Hin' Hqi].
    destruct (Hq _ Hin' Hqi) as (v & Hv & He & Hsim). exists v. cbn [fst]. rewrite (Hplace k i nm Hi). split; [done|].
    destruct (Ha (i, nm) Hin') as (w & Hw' & Hal). cbn [fst] in Hw'. change (place None i) with i in Hw'.
    rewrite (fresh_at names s i nm) in Hw' by (by apply pair_at). injection Hw' as <-.
    unfold alone_of in *. cbn [fst snd] in *. rewrite (Hplace k i nm Hi). change (place None i) with i in Hal.
    assert (r_atts s2 = r_atts (fresh names s)) as -> by (by rewrite Hs2).
    assert (∀ j, at_ j s2 = at_ j (fresh names s)) as -> by (intros [j|]; [|done]; unfold at_; simpl; by rewrite Hs2).
    by rewrite (alone_sim idl now now_ns is_allowed read _ _ _ _ _ _ v blank).
Qed.

(** C13: the source CACHE_DEV, on a device without forwarded attributes. The answer of a name is
    the one of the source CACHE, unless this one is an error that says the polling has no value
    to give, and then it is the one of the source DEV; the values of the polling and of the
    device of a same request do not mix. The names are those of a request as in [read_together]:
    different, neither State nor Status, whose errors the second request puts at the place of
    others (see [state_error_misplaced]), and each read by the device when it is alone; the name
    that stands for all the attributes is not given alone; and the reading of the cache is
    defined for each of them. *)
Theorem cache_then_device names s :
  names ≠ [AllAttr] → net_errs blank = [] → ready read names None (fresh names s) hook read_attr_hardware →
  each_alone idl now now_ns hook is_allowed read_attr_hardware read kernel_state user_state kernel_status user_status (polled_attrs poll_list)
    names None (fresh names s) →
  (∀ nm, nm ∈ names → is_Some (cached idl vers clock poll_list (r_atts s) nm blank)) →
  ∃ sc bc sd bd s' b, request names CACHE s = Some (sc, inr bc) ∧ request names DEV s = Some (sd, inr bd) ∧ request names CACHE_DEV s = Some (s', inr b) ∧
    ∀ i nm, names !! i = Some nm → ∃ vc vd, bc !! i = Some vc ∧ bd !! i = Some vd ∧
      b !! i = Some (if unavailable (net_errs vc) then vd else vc).
Proof.
  intros Hna Hb Hrd Heach Hc. pose proof (good_returns _ _ _ _ _ _ _ _ _ _ _ _ _ _ _ Hrd Heach) as Hg. set (s0 := fresh names s). set (l := imap pair names).
  destruct (cache_loop idl vers clock poll_list (r_atts s) names s0) as (s1 & R1 & E1 & C1 & _); [done| |].
  { intros i nm Hi. exists blank. split; [by eapply fresh_at|]. apply Hc. by eapply list_elem_of_lookup_2. }
  destruct (request_loop _ _ _ _ _ _ _ _ s0 hook read_attr_hardware kernel_state user_state kernel_status user_status Hg) as (sd & Rd & Cd & _).
  assert (∀ i nm, names !! i = Some nm → ∃ vc vd, cached idl vers clock poll_list (r_atts s) nm blank = Some vc ∧ back s1 !! i = Some vc ∧
    back sd !! i = Some vd ∧ ∃ x', alone idl now now_ns is_allowed read (polled_attrs poll_list) (r_atts s) (index_in (r_atts s) nm) i nm (at_ (index_in (r_atts s) nm) s) blank = Some (x', vd)) as Hcell.
  { intros i nm Hi. pose proof (fresh_at names s i nm Hi) as Hf. destruct (C1 i nm blank Hi Hf) as (vc & H1 & H2).
    destruct (Cd (i, nm) blank) as (x' & vd & H3 & _ & H4); [by apply in_l|done|]. exists vc, vd. do 3 (split; [done|]). by exists x'. }
  set (q := λ a : nat * string, match back s1 !! fst a with Some v => unavailable (net_errs v) | None => false end).
  destruct (for_device_run q l s1) as (s2 & R2 & E2 & C2 & O2); [apply names_places| |].
  { intros [i nm] Hin. apply pair_at in Hin. destruct (Hcell i nm Hin) as (vc & _ & _ & Hv & _). exists vc. unfold q. cbn [fst]. by rewrite Hv. }
  set (l' := filter (λ a, q a = true) l) in *.
  assert (s2 = set_back (back s2) s) as Es2 by (rewrite E2, E1; done).
  assert (∀ i nm, names !! i = Some nm → ∃ vc, back s1 !! i = Some vc ∧ q (i, nm) = unavailable (net_errs vc) ∧
    back s2 !! i = Some (if unavailable (net_errs vc) then set_net_errs [] vc else vc) ∧ (unavailable (net_errs vc) = true → sim idl (set_net_errs [] vc) blank)) as Hafter.
  { intros i nm Hi. destruct (Hcell i nm Hi) as (vc & _ & Hcv & Hv & _). exists vc. split; [done|].
    assert (q (i, nm) = unavailable (net_errs vc)) as Hqi by (unfold q; cbn [fst]; by rewrite Hv). split; [done|].
    pose proof (C2 (i, nm) vc (proj1 (in_l names i nm) Hi) Hv) as H. rewrite Hqi in H. split; [exact H|]. by apply (unavailable_cleared (r_atts s) nm). }
  assert (good (snd <$> l') (Some (fst <$> l')) s2) as Hg2.
  { apply (good_rest names s s2 q); [done|done|done|]. intros [i nm] Hin%pair_at Hqi. destruct (Hafter i nm Hin) as (vc & _ & Hq & Hv & Hsim).
    cbn [fst]. rewrite Hqi in Hq. rewrite <-Hq in Hv, Hsim. eexists. split; [exact Hv|]. split; [done|]. by apply Hsim. }
  destruct (request_loop _ _ _ _ _ _ _ _ s2 hook read_attr_hardware kernel_state user_state kernel_status user_status Hg2) as (s3 & R3 & C3 & _ & O3 & _).
  set (s' := if bool_decide (l' = []) then s2 else s3).
  exists s1, (back s1), sd, (back sd), s', (back s'). split; [by eapply request_run|]. split; [by eapply request_run|]. split.
  { eapply request_run; [done|reflexivity|]. unfold read_cache_device. rewrite (run_bind _ _ s0 s1 tt R1). fold l. rewrite (run_bind _ _ _ _ _ R2).
    unfold s'. case_bool_decide; [done|]. cbn [negb when_]. exact R3. }
  intros i nm Hi. destruct (Hcell i nm Hi) as (vc & vd & _ & Hvc & Hvd & x' & Hal). exists vc, vd. split; [done|]. split; [done|].
  destruct (Hafter i nm Hi) as (vc' & Hvc' & Hq & Hv & Hsim). rewrite Hvc in Hvc'. injection Hvc' as <-.
  assert (∀ k n, l' !! k = Some (i, n) → n = nm ∧ q (i, nm) = true) as Huniq.
  { intros k n H%list_elem_of_lookup_2. apply list_elem_of_filter in H as [H1 H2]. apply pair_at in H2. rewrite Hi in H2. by injection H2 as <-. }
  destruct (unavailable (net_errs vc)) eqn:Eu.
  - assert ((i, nm) ∈ l') as Hin by (apply list_elem_of_filter; split; [done|by apply in_l]).
    unfold s'. rewrite bool_decide_eq_false_2 by (intros E; rewrite E in Hin; by apply elem_of_nil in Hin).
    apply list_elem_of_lookup in Hin as [k Hk]. assert ((snd <$> l') !! k = Some nm) as Hnk by (by rewrite list_lookup_fmap, Hk).
    assert (place (Some (fst <$> l')) k = i) as Hpk by (unfold place; by rewrite list_lookup_fmap, Hk).
    destruct (C3 (k, nm) (set_net_errs [] vc)) as (x3 & v3 & Hal3 & _ & Hb3); [by apply in_l|cbn [fst]; by rewrite Hpk|].
    cbn [fst] in Hb3. rewrite Hpk in Hb3. rewrite Hb3. f_equal. unfold alone_of in Hal3. cbn [fst snd] in Hal3. rewrite Hpk in Hal3.
    rewrite (alone_sim idl now now_ns is_allowed read _ _ _ _ _ _ _ blank) in Hal3; [|done|done|by apply Hsim].
    rewrite Es2 in Hal3. cbn [r_atts set_back] in Hal3. change (at_ (index_in (r_atts s) nm) (set_back (back s2) s)) with (at_ (index_in (r_atts s) nm) s) in Hal3.
    rewrite Hal in Hal3. by injection Hal3.
  - unfold s'. case_bool_decide as El; [done|]. rewrite O3; [done|].
    intros ([k n] & Hpk & Hin%pair_at)%list_elem_of_fmap. cbn [fst] in Hpk. rewrite list_lookup_fmap in Hin.
    destruct (l' !! k) as [[i' n']|] eqn:Ek; [|done]. assert (place (Some (fst <$> l')) k = i') as Hpk' by (unfold place; by rewrite list_lookup_fmap, Ek).
    rewrite Hpk' in Hpk. subst i'. destruct (Huniq k n' Ek) as [_ Hq']. congruence.
Qed.
End Sources.

(** ** The polling and its clients *)

Section Served.
Context {Any : Type}.
Context (idl : Idl) (vers clock : Z) (poll_list : list (PollObj Any WElt)).

(** The answer made of the result of a poll of a device of IDL 5. *)
Definition served (nm : string) (a : Attribute) (x : sum DevErrorList (AttributeValue WElt)) v : NetValue :=
  match x with
  | inl l => error_from_devfailed idl l nm v
  | inr av =>
      with_format idl (data_format (info a)) (data_type (info a))
        (init_polled_out_data a av (if bool_decide (PollRing.av_quality av = ATTR_INVALID) then v else polled_data_into_net_object idl nm a av v))
  end.
Definition poll_of (x : sum DevErrorList (AttributeValue WElt)) : sum DevErrorList (PollData Any WElt) :=
  match x with inl l => inl l | inr av => inr (AttrData_5 [av]) end.

Lemma newest_of (x : sum DevErrorList (PollData Any WElt)) t o0 o : records x t o0 o → ring_wf (po_ring o0) →
  ∃ e, holds x t e ∧ is_empty (po_ring o) = false ∧ last_elt (po_ring o) = Ok e.
Proof.
  intros (_ & _ & _ & _ & Hwf & e & Hh & Hc) Hwf0. exists e. split; [done|].
  assert (0 < max_elt (po_ring o0)) as Hmax by (by destruct Hwf0).
  destruct (Z.to_nat (max_elt (po_ring o0))) as [|n] eqn:En; [lia|]. cbn [take] in Hc. split.
  - unfold is_empty. apply Z.eqb_neq. pose proof (contents_length (po_ring o)) as Hl. rewrite Hc in Hl. simpl in Hl. lia.
  - by eapply last_elt_head.
Qed.

(** C27: from the polling to the client.  The last poll of an attribute stored, at the date [t],
    the errors or the value [x].  Until its record is too old (an object polled from outside
    never is), a client that reads the attribute from the polling receives exactly these
    errors, or this value with its quality, its date and its sizes. *)
Theorem polled_result_served names s i nm o0 o x t j a v :
  index_in (r_atts s) nm = Some j → r_atts s !! j = Some a →
  List.find (is_polled_attr nm) poll_list = Some o → records (poll_of x) t o0 o → ring_wf (po_ring o0) → 5 <= vers →
  po_upd o = 0 ∨ clock - t <= get_authorized_delta o →
  (∀ k n, names !! k = Some n → ∃ v, back s !! k = Some v ∧ is_Some (cached idl vers clock poll_list (r_atts s) n v)) →
  names !! i = Some nm → back s !! i = Some v → net_errs v = [] →
  ∃ s', read_attributes_from_cache idl vers clock poll_list names s = Some (s', inr tt) ∧
    back s' !! i = Some (served nm (att_of a) x v).
Proof.
  intros Hj Ha Hf Hrec Hwf Hvers Hold Hd Hi Hv He.
  destruct (cache_loop idl vers clock poll_list (r_atts s) names s eq_refl Hd) as (s' & R & _ & C & _). exists s'. split; [done|].
  destruct (C i nm v Hi Hv) as (v' & Hc & ->). f_equal. revert Hc. rewrite cached_parts.
  destruct (newest_of _ _ _ _ Hrec Hwf) as (e & [Ht Hh] & Hne & Hlast).
  unfold found_step, never_polled, att_for. rewrite Hj. cbn [mbind option_bind]. rewrite Ha.
  assert (existsb (λ o, same_nm (po_name o) nm) poll_list = true) as ->.
  { apply existsb_exists. apply find_some in Hf as [Hin Hp]. exists o. split; [done|]. unfold is_polled_attr in Hp. by apply andb_true_iff in Hp as [_ Hp]. }
  cbn [negb andb]. unfold unless_error. rewrite He. change (bool_decide ([] = [])) with true. cbv iota.
  unfold polled_step. rewrite Hf, Hne. unfold get_last_insert_date. rewrite Hlast. cbn [fmap outcome_fmap mbind outcome_bind]. rewrite Ht.
  assert ((if po_upd o =? 0 then Ok false else Ok (get_authorized_delta o <? clock - t)) = Ok false) as ->.
  { destruct (Z.eqb_spec (po_upd o) 0); [done|]. destruct Hold as [|Hold]; [done|]. f_equal. apply Z.ltb_ge. lia. }
  unfold att_for. rewrite Hj. cbn [mbind option_bind]. rewrite Ha.
  unfold polled_answer, device_value, client_value, device_value. rewrite (proj2 (Z.leb_le _ _) Hvers).
  unfold get_last_attr_value_5, get_last_value. rewrite Hlast. cbn [mbind outcome_bind].
  destruct x as [l|av]; cbn [poll_of] in Hh.
  - rewrite Hh. cbn [mbind outcome_bind option_bind]. by intros [= <-].
  - destruct Hh as [H1 H2]. rewrite H1, H2. unfold served. destruct idl; cbn; intros H; injection H as <-; done.
Qed.
End Served.
