(* ===== verification/ReadWitness.v ===== *)
(** * Instances of the properties of the requests that read, and behaviours worth knowing *)
From S2P Require Import Prelude StateExn CppString PollRing PollObj PollCycle AttrHistory Number Attribute AttrTheory DevState WAttribute WriteAttrs WriteTheory.
From S2P Require Import ReadAttrs ReadTheory ReadProps ReadCache ReadCacheTheory.
Local Open Scope string_scope.
Local Open Scope list_scope.
Local Open Scope Z_scope.

(** ** A device with two attributes *)

Definition ex_time : TimeVal := mkTimeVal 100 0 0.
Definition ex_rattr (w : WAttribute) (ind : nat) (m : AttrSerialModel) : RAttr :=
  mkRAttr w ind m MutexFree (mkTimeVal 0 0 0) ATTR_VALID no_bits [].
Definition ex_core (l : list RAttr) : DevSt :=
  mkDev ON ON 0 0 (alarm_att <$> l) [] false false [] [] [] false [] [] [].
Definition ex_blank : NetValue := mkNet "" [] ATTR_VALID (mkTimeVal 0 0 0) (0, 0) (0, 0) NoData FMT_UNKNOWN DEV_VOID.
Definition ex_dev (l : list RAttr) (n : nat) : RDev := mkRDev l (ex_core l) (replicate n ex_blank) [].
Definition ex_pair : list RAttr :=
  [ex_rattr (ex_short_attr "current" 1) 0 ATTR_BY_KERNEL; ex_rattr (ex_short_attr "speed" 2) 1 ATTR_BY_KERNEL].
Definition ex_fail : exn := DevFailed [mkDevError "Broken" ERR "no value" "user"].
(** The code of the user gives 7 to the first attribute, and fails for the others. *)
Definition ex_user (j : nat) (a : Attribute) : option UserRead :=
  Some (match j with
        | O => mkUserRead (set_quality_field ATTR_VALID (set_storage (Some (Seq [I 7])) (set_dims (1, 0) 1 a))) (Some ex_time) true (inr tt)
        | _ => mkUserRead a None false (inl ex_fail)
        end).
Definition ex_ok : SM DevSt unit := mret tt.
Definition ex_read_request (idl : Idl) (user : nat → Attribute → option UserRead) (st : SM DevSt DevState)
    (names : list string) (second_try : option (list nat)) : SM RDev unit :=
  read_attributes_no_except idl (mkTimeVal 200 0 0) 0 ex_ok (λ _, Ok true) (λ _, Ok tt) user st st (mret "ok") (mret "ok") [] names second_try.
Definition ex_names : list string := ["Current"; "speed"].

Lemma ex_user_keeps : user_keeps ex_user.
Proof. by intros [|j] a r [= <-]. Qed.
Definition ex_start : RDev := ex_dev ex_pair 2.
Lemma ex_read_ready : ready ex_user ex_names None ex_start ex_ok (λ _, Ok tt).
Proof.
  split; [split| |..].
  - done.
  - repeat constructor; vm_compute; congruence.
  - apply ex_user_keeps.
  - apply (bool_decide_unpack _). vm_compute. done.
  - apply (bool_decide_unpack _). vm_compute. done.
  - by eexists.
  - done.
Qed.
Definition ex_each (polled : list (string * Z)) (names : list string) : Prop :=
  each_alone Data5 (mkTimeVal 200 0 0) 0 ex_ok (λ _, Ok true) (λ _, Ok tt) ex_user (mret ON) (mret ON) (mret "ok") (mret "ok") polled names None ex_start.
Lemma ex_each_alone : ex_each [] ex_names.
Proof.
  intros [|[|k]] nm; [intros [= <-]|intros [= <-]|done]; exists ex_blank; (split; [done|]); eexists; vm_compute; reflexivity.
Qed.

(** The first name does not see that the second one fails. *)
Lemma read_together_witness :
  ∃ s' s1, ex_read_request Data5 ex_user (mret ON) ex_names None ex_start = Some (s', inr tt) ∧
    ex_read_request Data5 ex_user (mret ON) ["Current"] None (set_back [ex_blank] ex_start) = Some (s1, inr tt) ∧
    back s' !! 0%nat = back s1 !! 0%nat.
Proof.
  unfold ex_read_request. destruct (read_together Data5 (mkTimeVal 200 0 0) 0 ex_ok (λ _, Ok true) (λ _, Ok tt) ex_user (mret ON) (mret ON) (mret "ok") (mret "ok") []
    ex_names None ex_start) as (s' & Hs' & H); [apply ex_read_ready|apply ex_each_alone|].
  destruct (ex_each_alone 0%nat "Current" eq_refl) as (v & [= <-] & s1 & Hs1).
  exists s', s1. split; [exact Hs'|]. split; [exact Hs1|]. by apply (H 0%nat "Current" ex_blank).
Defined.

Lemma mutexes_released_witness :
  ∃ s' x' v', ex_read_request Data5 ex_user (mret ON) ex_names None ex_start = Some (s', inr tt) ∧
    r_atts s' !! 1%nat = Some x' ∧ back s' !! 1%nat = Some v' ∧
    attr_mutex x' = if given Data5 x' v' then MutexGiven 1 else MutexFree.
Proof.
  unfold ex_read_request. apply (mutexes_released Data5 (mkTimeVal 200 0 0) 0 ex_ok (λ _, Ok true) (λ _, Ok tt) ex_user (mret ON) (mret ON) (mret "ok") (mret "ok") []
    ex_names None ex_start 1 "speed" 1 (ex_rattr (ex_short_attr "speed" 2) 1 ATTR_BY_KERNEL)).
  - apply ex_read_ready.
  - apply ex_each_alone.
  - intros [|j] a r [= <-]; done.
  - done.
  - reflexivity.
  - reflexivity.
  - reflexivity.
  - reflexivity.
  - discriminate.
  - reflexivity.
Defined.

Definition ex_first : RAttr := ex_rattr (ex_short_attr "current" 1) 0 ATTR_BY_KERNEL.
Definition ex_result : UserRead := default (mkUserRead (att_of ex_first) None false (inr tt)) (ex_user 0 (reset_value (att_of ex_first))).
Definition ex_seen : Attribute := as_attribute (watt (set_att (ur_att ex_result) ex_first)).
Lemma ex_gives : user_gives ex_user 0 ex_first ex_result
  ex_time [I 7] ex_seen.
Proof.
  split; try done. split; try done.
  - by repeat constructor.
  - intros w [= <-]. exists [I 1]. split; [reflexivity|]. split; [by repeat constructor|reflexivity].
Qed.
Lemma read_value_sent_witness :
  ∃ s' set, ex_read_request Data5 ex_user (mret ON) ex_names None ex_start = Some (s', inr tt) ∧ set_part ex_pair ex_first = Some set ∧
    back s' !! 0%nat = Some (value_answer Data5 0 ex_first ex_result
      ex_time [I 7] ex_seen set ex_blank).
Proof.
  unfold ex_read_request. apply (read_value_sent Data5 (mkTimeVal 200 0 0) 0 ex_ok (λ _, Ok true) (λ _, Ok tt) ex_user (mret ON) (mret ON) (mret "ok") (mret "ok") []
    ex_names None ex_start 0 "Current" 0 ex_first ex_blank).
  - apply ex_read_ready.
  - apply ex_each_alone.
  - reflexivity.
  - reflexivity.
  - reflexivity.
  - reflexivity.
  - reflexivity.
  - split; try done. right. by left.
  - apply ex_gives.
Defined.

(** ** The polling and the device *)

Definition ex_polled_value (x : sum DevErrorList Z) : sum DevErrorList (AttributeValue WElt) :=
  match x with
  | inl l => inl l
  | inr n => inr (mkAV (mkUnion ATT_SHORT [EltNum (I n)]) ATTR_VALID (mkTimeVal 90 0 0) (mkDim 1 0) (mkDim 0 0) [])
  end.
Definition ex_empty_obj : PollObj Z WElt := PollObj_depth 4 POLL_ATTR "current" 1000 3.
Definition ex_polled (x : sum DevErrorList Z) (t : Z) : PollObj Z WElt :=
  match insert_poll (poll_of (ex_polled_value x)) t 1 ex_empty_obj with Ok o => o | _ => ex_empty_obj end.
Lemma ex_records x t : records (poll_of (ex_polled_value x)) t ex_empty_obj (ex_polled x t).
Proof.
  destruct (insert_poll_records (poll_of (ex_polled_value x)) t 1 ex_empty_obj) as (o' & Ho & Hr); [by apply ring_wf_new|].
  unfold ex_polled. by rewrite Ho.
Qed.
(** The first attribute is polled, the second one is not. *)
Definition ex_request_from (clock : Z) (source : DevSource) : SM RDev (list NetValue) :=
  request Data5 5 clock (mkTimeVal 200 0 0) 0 ex_ok (λ _, Ok true) (λ _, Ok tt) ex_user (mret ON) (mret ON) (mret "ok") (mret "ok")
    [ex_polled (inr 5) 1000] ex_blank ex_names source.

Lemma polled_result_served_witness :
  ∃ s', read_attributes_from_cache Data5 5 1500 [ex_polled (inr 5) 1000] ex_names ex_start = Some (s', inr tt) ∧
    back s' !! 0%nat = Some (served Data5 "Current" (att_of ex_first) (ex_polled_value (inr 5)) ex_blank).
Proof.
  apply (polled_result_served Data5 5 1500 [ex_polled (inr 5) 1000] ex_names ex_start 0 "Current" ex_empty_obj (ex_polled (inr 5) 1000)
    (ex_polled_value (inr 5)) 1000 0 ex_first ex_blank); try reflexivity; try done.
  - apply ex_records.
  - right. vm_compute. done.
  - intros [|[|k]] n; [intros [= <-]|intros [= <-]|done]; exists ex_blank; (split; [done|]); apply (bool_decide_unpack _); vm_compute; done.
Defined.

Lemma cache_then_device_witness :
  ∃ sc bc sd bd s' b, ex_request_from 1500 CACHE ex_start = Some (sc, inr bc) ∧ ex_request_from 1500 DEV ex_start = Some (sd, inr bd) ∧
    ex_request_from 1500 CACHE_DEV ex_start = Some (s', inr b) ∧
    ∀ i nm, ex_names !! i = Some nm → ∃ vc vd, bc !! i = Some vc ∧ bd !! i = Some vd ∧
      b !! i = Some (if unavailable (net_errs vc) then vd else vc).
Proof.
  unfold ex_request_from.
  apply (cache_then_device (Any := Z) Data5 5 1500 (mkTimeVal 200 0 0) 0 ex_ok (λ _, Ok true) (λ _, Ok tt) ex_user (mret ON) (mret ON) (mret "ok") (mret "ok")
    [ex_polled (inr 5) 1000] ex_blank ex_names ex_start).
  - done.
  - done.
  - destruct ex_read_ready as [H1 H2 H3 H4 H5 H6]. by split.
  - intros [|[|k]] nm; [intros [= <-]|intros [= <-]|done]; exists ex_blank; (split; [done|]); eexists; vm_compute; reflexivity.
  - intros nm Ha. apply elem_of_cons in Ha as [->|Ha]; [|apply list_elem_of_singleton in Ha as ->]; apply (bool_decide_unpack _); vm_compute; done.
Defined.

(** What a client sees of an answer: the reasons of its errors, its data and its quality. *)
Definition seen (v : NetValue) : list string * NetData * AttrQuality := (reason <$> net_errs v, net_data v, net_quality v).
Definition seen_in (r : option (RDev * (exn + list NetValue))) : option (list (list string * NetData * AttrQuality)) :=
  match r with Some (_, inr l) => Some (seen <$> l) | _ => None end.
Definition ex_polled_data : NetData := PolledData (mkUnion ATT_SHORT [EltNum (I 5)]).
Definition ex_read_data : NetData := AttData (Seq [I 7]) [EltNum (I 1)].
(** The first answer is the polled value and the second one the error of the device; when
    the polled value is too old, both are of the device. *)
Example fresh_and_old :
  seen_in (ex_request_from 1500 CACHE_DEV ex_start) = Some [([], ex_polled_data, ATTR_VALID); (["Broken"], NoData, ATTR_INVALID)] ∧
  seen_in (ex_request_from 9000 CACHE_DEV ex_start) = Some [([], ex_read_data, ATTR_VALID); (["Broken"], NoData, ATTR_INVALID)] ∧
  seen_in (ex_request_from 9000 CACHE ex_start) =
    Some [(["API_NotUpdatedAnyMore"], NoData, ATTR_INVALID); (["API_AttrNotPolled"], NoData, ATTR_INVALID)].
Proof. vm_compute. auto. Qed.

(** ** Behaviours of the code *)

Definition ex_with (w : WAttribute) (m : AttrSerialModel) : list RAttr := [ex_rattr w 0 m].
Definition ex_state_att : RAttr := ex_rattr (ex_short_attr "State" 0) 1 ATTR_NO_SYNC.
Definition ex_state_dev : RDev := ex_dev [ex_first; ex_state_att] 2.
(** The names of a second try are a part of those of the request, and the error of the state
    is put at its place among them: the value that the polling gave for another attribute is
    replaced by this error, and the state is answered as if it had been read. *)
Example state_error_misplaced :
  seen_in (read_attributes Data5 5 1500 (mkTimeVal 200 0 0) 0 ex_ok (λ _, Ok true) (λ _, Ok tt) ex_user
    (lift (Exc ex_fail)) (lift (Exc ex_fail)) (mret "ok") (mret "ok") [ex_polled (inr 5) 1000] false ex_blank ["current"; "state"] CACHE_DEV ex_state_dev) =
  Some [(["Broken"], ex_polled_data, ATTR_INVALID); ([], StateData UNKNOWN, ATTR_VALID)].
Proof. vm_compute. reflexivity. Qed.

(** An exception of [is_allowed] releases the mutex of the attribute, which is only taken later:
    the program unlocks a mutex that it does not hold.  When no mutex is used it is an error of
    the attribute like the others. *)
Definition ex_forbidden (m : AttrSerialModel) : option (RDev * (exn + unit)) :=
  read_attributes_no_except Data5 (mkTimeVal 200 0 0) 0 ex_ok (λ _, Exc ex_fail) (λ _, Ok tt) ex_user (mret ON) (mret ON) (mret "ok") (mret "ok") []
    ["current"] None (ex_dev [ex_rattr (ex_short_attr "current" 1) 0 m] 1).
Example is_allowed_unlocks :
  ex_forbidden ATTR_BY_KERNEL = None ∧
  match ex_forbidden ATTR_NO_SYNC with Some (s, inr _) => seen <$> back s | _ => [] end = [(["Broken"], NoData, ATTR_INVALID)].
Proof. vm_compute. auto. Qed.

(** The same name twice in a request waits for ever for the mutex of its attribute. *)
Example name_twice_blocks : ex_read_request Data5 ex_user (mret ON) ["current"; "CURRENT"] None ex_start = None.
Proof. vm_compute. reflexivity. Qed.

(** Of the forwarded attributes of a request, and of the others, the source CACHE keeps the
    last name only: the first of two attributes that are not forwarded has no answer, and
    the answer of the second one is in its place. *)
Definition ex_fwd (nm : string) (m : AttrSerialModel) (wr : AttrWriteType) (i : nat) : RAttr :=
  let w := ex_short_attr nm 1 in
  ex_rattr (mkWAttribute (mkAttribute (mkInfo nm nm DEV_SHORT SCALAR 1 0 [] true 0) ATTR_VALID no_bits None (1, 0) 0 None no_bits
    (mkQuad (I 0) (I 0) (I 0) (I 0)) (mkQuad "" "" "" "") false [] 0 false [] true false) wr (I 0) (I 10) false true (1, 0)
    (write_val w) (old_val w) [] (written w) false (mkTimeVal 0 0 0) 0 (I 0) false MemNotUsed false false) i m.
Definition ex_three : RDev := ex_dev (ex_pair ++ [ex_fwd "far" ATTR_NO_SYNC READ 2]) 3.
Example forwarded_from_cache :
  seen_in (read_attributes Data5 5 1500 (mkTimeVal 200 0 0) 0 ex_ok (λ _, Ok true) (λ _, Ok tt) ex_user
    (mret ON) (mret ON) (mret "ok") (mret "ok") [ex_polled (inr 5) 1000] true ex_blank ["speed"; "current"; "far"] CACHE ex_three) =
  Some [([], ex_polled_data, ATTR_VALID); ([], NoData, ATTR_VALID); (["Broken"], NoData, ATTR_INVALID)].
Proof. vm_compute. reflexivity. Qed.

(** The mutex of the attribute of a request for one name, after it. *)
Definition mutex_after (r : option (RDev * (exn + unit))) : option AttrMutex :=
  match r with Some (s, inr _) => attr_mutex <$> r_atts s !! 0%nat | _ => None end.
(** A forwarded attribute that is only written: its mutex is not released when its value is
    not set. *)
Definition ex_sets_nothing (j : nat) (a : Attribute) : option UserRead := Some (mkUserRead a None true (inr tt)).
Example forwarded_write_locked :
  mutex_after (ex_read_request Data5 ex_sets_nothing (mret ON) ["far"] None (ex_dev [ex_fwd "far" ATTR_BY_KERNEL WRITE 0] 1)) = Some MutexLocked ∧
  mutex_after (ex_read_request Data5 ex_sets_nothing (mret ON) ["far"] None (ex_dev [ex_fwd "far" ATTR_BY_KERNEL READ 0] 1)) = Some MutexFree.
Proof. vm_compute. auto. Qed.
(** The mutex that the code of the user has locked is not released for a client of IDL 3. *)
Example by_user_idl_3 :
  mutex_after (ex_read_request Data3 ex_user (mret ON) ["current"] None (ex_dev [ex_rattr (ex_short_attr "current" 1) 0 ATTR_BY_USER] 1)) = Some MutexLocked ∧
  mutex_after (ex_read_request Data5 ex_user (mret ON) ["current"] None (ex_dev [ex_rattr (ex_short_attr "current" 1) 0 ATTR_BY_USER] 1)) = Some (MutexGiven 0).
Proof. vm_compute. auto. Qed.

(** A client of IDL 3 that reads an encoded attribute has an error with a valid quality. *)
Definition ex_encoded (j : nat) (a : Attribute) : option UserRead :=
  Some (mkUserRead (set_storage (Some (Encoded [("raw", [I 7])])) (set_dims (1, 0) 1 a)) (Some ex_time) true (inr tt)).
Definition ex_enc_dev : RDev := ex_dev [ex_rattr (ex_wattr "enc" DEV_ENCODED (EltEncoded "raw" [I 1])) 0 ATTR_NO_SYNC] 1.
Example encoded_idl_3 :
  match ex_read_request Data3 ex_encoded (mret ON) ["enc"] None ex_enc_dev with
  | Some (s, inr _) => seen <$> back s
  | _ => []
  end = [(["API_NotSupportedFeature"], NoData, ATTR_VALID)].
Proof. vm_compute. reflexivity. Qed.

(** The size of a written value may be greater than the value itself, after a write that
    failed: reading an attribute that is only written then reads past its end. *)
Definition ex_spectrum : WAttribute :=
  mkWAttribute (mkAttribute (mkInfo "wave" "wave" DEV_SHORT SPECTRUM 8 0 [] false 0) ATTR_VALID no_bits None (1, 0) 0 None no_bits
    (mkQuad (I 0) (I 0) (I 0) (I 0)) (mkQuad "" "" "" "") false [] 0 false [] true false) WRITE (I 0) (I 10) false true (1, 0)
    (EltNum (I 1)) (EltNum (I 1)) [] [EltNum (I 1)] false (mkTimeVal 0 0 0) 0 (I 0) false MemNotUsed false false.
Definition ex_wave : AttrValue := mkAttrValue "wave" 2 0 (mkWValue DEV_SHORT [EltNum (I 5); EltNum (I 6)]).
Definition undefined_read (w : WAttribute) : bool :=
  match ex_read_request Data5 ex_user (mret ON) ["wave"] None (ex_dev [ex_rattr w 0 ATTR_NO_SYNC] 1) with None => true | _ => false end.
Example failed_write_then_read :
  undefined_read ex_spectrum = false ∧
  match ex_request false Done [ex_wave] (ex_wdev [ex_spectrum]) with
  | Some (s, inr errs) => (ne_index <$> errs, (λ w, (w_dim w, written w, undefined_read w)) <$> w_attrs s)
  | _ => ([], [])
  end = ([0%nat], [((2, 0), [EltNum (I 1)], true)]).
Proof. vm_compute. auto. Qed.
