(* ===== verification/EventDetect.v ===== *)
(** * The detection of the events of an attribute (src/src/server/eventsupplier.cpp)

  After a reading, [EventSupplier] decides which events its clients get: a change event
  when the value moved by a given amount, absolute or in percent, from the last one sent;
  an archive event likewise, and periodically; an alarm event when the quality goes to
  or from an alarm; a periodic event.  The last value sent is kept by the attribute
  ([LastAttrValue], attribute.cpp, attribute.h).  The sending ([push_event], ZMQ or the
  notification service) is a parameter.  The monitor of the configuration is not
  modelled; of the structures sent, the quality and the value are. *)
From Stdlib Require Import SpecFloat.
From S2P Require Import Prelude StateExn PollRing AttrHistory Number Attribute DevState WAttribute.
Local Open Scope string_scope.
Local Open Scope list_scope.
Local Open Scope Z_scope.

(** ** Data *)

Inductive EventType :=
  | CHANGE_EVENT | PERIODIC_EVENT | ARCHIVE_EVENT | USER_EVENT | ATTR_CONF_EVENT | DATA_READY_EVENT
  | INTERFACE_CHANGE_EVENT | PIPE_EVENT | ALARM_EVENT.
Definition ev_index (e : EventType) : nat :=
  match e with
  | CHANGE_EVENT => 0 | PERIODIC_EVENT => 2 | ARCHIVE_EVENT => 3 | USER_EVENT => 4 | ATTR_CONF_EVENT => 5
  | DATA_READY_EVENT => 6 | INTERFACE_CHANGE_EVENT => 7 | PIPE_EVENT => 8 | ALARM_EVENT => 9
  end%nat.
Definition EventNames : list string :=
  ["change"; "_unused_event"; "periodic"; "archive"; "user_event"; "attr_conf"; "data_ready"; "intr_change"; "pipe"; "alarm"].
Definition EventName (e : EventType) : string := EventNames !!! ev_index e.
Definition EVENT_RESUBSCRIBE_PERIOD : Z := 600.
Definition add_idl_prefix (event_name : string) : string := "idl5_" +:+ event_name.

(** The value of an [AttrValUnion] or of the [Any] of the older structures: the state of
    the device, or a sequence. *)
Inductive EvValue :=
  | DevStateAtt (s : DevState)
  | EvSeq (t : CmdArgType) (l : list WElt).
Record EvAttValue := mkEvAttValue { ev_quality : AttrQuality; ev_value : EvValue }.

(** [EventSupplier::SuppliedEventData]: one pointer for each version of the structure. *)
Record SuppliedEventData := mkSupplied {
  attr_val : option EvAttValue;
  attr_val_3 : option EvAttValue;
  attr_val_4 : option EvAttValue;
  attr_val_5 : option EvAttValue;
}.

Record LastAttrValue := mkLast {
  inited : bool;
  last_quality : AttrQuality;
  last_any : option EvValue;
  err : bool;
  last_except : DevErrorList;
  value_4 : option EvValue;
}.

(** An event given to [push_event]. *)
Record EventPush := mkPush {
  p_name : string;
  p_data : list (string * Num);
  p_data_lg : list (string * Z);
  p_version : Z;
  p_value : option EvAttValue;
  p_except : option DevErrorList;
  p_inc_ctr : bool;
}.

(** The dates of the last subscriptions, in seconds. *)
Record Subscriptions := mkSubs {
  event_change3 : Z; event_change4 : Z; event_change5 : Z;
  event_alarm6 : Z;
  event_periodic3 : Z; event_periodic4 : Z; event_periodic5 : Z;
  event_archive3 : Z; event_archive4 : Z; event_archive5 : Z;
}.

(** What an attribute keeps for its events; [pushed] is what was sent. *)
Record EvAttr := mkEvAttr {
  ev_data_type : CmdArgType;
  rel_change : Num * Num;
  abs_change : Num * Num;
  archive_rel_change : Num * Num;
  archive_abs_change : Num * Num;
  event_period : Z;
  archive_period : Z;
  subs : Subscriptions;
  prev_change_event : LastAttrValue;
  prev_alarm_event : LastAttrValue;
  prev_archive_event : LastAttrValue;
  periodic_counter : Z;
  archive_periodic_counter : Z;
  last_periodic : Z;
  archive_last_periodic : Z;
  archive_last_event : Z;
  client_lib : list (list Z);
  pushed : list EventPush;
}.
Implicit Types a : EvAttr.

Definition set_prevs (c al ar : LastAttrValue) a := mkEvAttr (ev_data_type a) (rel_change a) (abs_change a) (archive_rel_change a) (archive_abs_change a) (event_period a) (archive_period a) (subs a) c al ar (periodic_counter a) (archive_periodic_counter a) (last_periodic a) (archive_last_periodic a) (archive_last_event a) (client_lib a) (pushed a).
Definition set_prev_change (p : LastAttrValue) a := set_prevs p (prev_alarm_event a) (prev_archive_event a) a.
Definition set_prev_alarm (p : LastAttrValue) a := set_prevs (prev_change_event a) p (prev_archive_event a) a.
Definition set_prev_archive (p : LastAttrValue) a := set_prevs (prev_change_event a) (prev_alarm_event a) p a.
Definition set_periodic (ctr last : Z) a := mkEvAttr (ev_data_type a) (rel_change a) (abs_change a) (archive_rel_change a) (archive_abs_change a) (event_period a) (archive_period a) (subs a) (prev_change_event a) (prev_alarm_event a) (prev_archive_event a) ctr (archive_periodic_counter a) last (archive_last_periodic a) (archive_last_event a) (client_lib a) (pushed a).
Definition set_archive_dates (ctr last_per last_ev : Z) a := mkEvAttr (ev_data_type a) (rel_change a) (abs_change a) (archive_rel_change a) (archive_abs_change a) (event_period a) (archive_period a) (subs a) (prev_change_event a) (prev_alarm_event a) (prev_archive_event a) (periodic_counter a) ctr (last_periodic a) last_per last_ev (client_lib a) (pushed a).
Definition set_client_libs (l : list (list Z)) a := mkEvAttr (ev_data_type a) (rel_change a) (abs_change a) (archive_rel_change a) (archive_abs_change a) (event_period a) (archive_period a) (subs a) (prev_change_event a) (prev_alarm_event a) (prev_archive_event a) (periodic_counter a) (archive_periodic_counter a) (last_periodic a) (archive_last_periodic a) (archive_last_event a) l (pushed a).
Definition set_pushed (l : list EventPush) a := mkEvAttr (ev_data_type a) (rel_change a) (abs_change a) (archive_rel_change a) (archive_abs_change a) (event_period a) (archive_period a) (subs a) (prev_change_event a) (prev_alarm_event a) (prev_archive_event a) (periodic_counter a) (archive_periodic_counter a) (last_periodic a) (archive_last_periodic a) (archive_last_event a) (client_lib a) l.
Definition add_pushed (p : EventPush) a := set_pushed (pushed a ++ [p]) a.

(** [LastAttrValue::store]: an error keeps the last value and its quality. *)
Definition store (ad : SuppliedEventData) (error : option DevErrorList) (p : LastAttrValue) : LastAttrValue :=
  match error with
  | Some e => mkLast true (last_quality p) (last_any p) true e (value_4 p)
  | None =>
      match attr_val_5 ad, attr_val_4 ad, attr_val_3 ad, attr_val ad with
      | Some v, _, _, _ | None, Some v, _, _ => mkLast true (ev_quality v) (last_any p) false (last_except p) (Some (ev_value v))
      | None, None, Some v, _ | None, None, None, Some v => mkLast true (ev_quality v) (Some (ev_value v)) false (last_except p) (value_4 p)
      | None, None, None, None => mkLast true (last_quality p) (last_any p) false (last_except p) (value_4 p)
      end
  end.

(** [Except::compare_exception]. *)
Fixpoint compare_exception (ex1 ex2 : DevErrorList) : bool :=
  match ex1, ex2 with
  | [], [] => true
  | e1 :: ex1, e2 :: ex2 =>
      bool_decide (severity e1 = severity e2) && bool_decide (origin e1 = origin e2) && bool_decide (reason e1 = reason e2) &&
      bool_decide (desc e1 = desc e2) && compare_exception ex1 ex2
  | _, _ => false
  end.

(** The value read: its structure is the newest one that is there. *)
Definition the_value (ad : SuppliedEventData) : outcome EvAttValue :=
  deref match attr_val_5 ad, attr_val_4 ad, attr_val_3 ad with
        | Some v, _, _ | None, Some v, _ | None, None, Some v => Some v
        | None, None, None => attr_val ad
        end.
Definition has_any (ad : SuppliedEventData) : bool :=
  match attr_val_5 ad, attr_val_4 ad with None, None => true | _, _ => false end.

(** ** The change between two values *)

(** A conversion to [double]. *)
Definition to_double (f : spec_float) : Num :=
  F match f with S754_finite s m e => binary_normalize 53 1024 (cond_Zopp s (Zpos m)) e s | f => f end.
Definition num_eq (x y : Num) : bool :=
  match x, y with I x, I y => x =? y | F x, F y => SFeqb x y | _, _ => false end.
(** A threshold that is [INT_MAX] is not set. *)
Definition is_set (x : Num) : bool := negb (num_eq x (dbl (2 ^ 31 - 1))).
Definition reached (d : Num) (c : Num * Num) : bool := num_le d (fst c) || num_ge d (snd c).

(** The difference in percent of the previous value: in the arithmetic of the type, with
    a truncated division for the integers. *)
Definition rel_delta (t : CmdArgType) (curr prev : Num) : outcome Num :=
  match curr, prev, int_type t, flt_type t with
  | I c, I p, Some st, _ =>
      if p =? 0 then Ok (dbl (if c =? p then 0 else 100))
      else
        d ← int_result st (c - p);
        m ← match d with I d => int_result st (d * 100) | F _ => Undef end;
        q ← match m with I m => int_result st (m ÷ p) | F _ => Undef end;
        match q with I q => Ok (dbl q) | F _ => Undef end
  | F c, F p, None, Some (prec, emax) =>
      if SFeqb p (S754_zero false) then Ok (dbl (if SFeqb c p then 0 else 100))
      else Ok (to_double (SFdiv prec emax (SFmul prec emax (SFsub prec emax c p) (binary_normalize prec emax 100 0 false)) p))
  | _, _, _, _ => Undef
  end.
Definition abs_delta (t : CmdArgType) (curr prev : Num) : outcome Num :=
  d ← num_sub t curr prev;
  match d with I d => Ok (dbl d) | F f => Ok (to_double f) end.

(** The floating-point numbers compare the difference with a margin of 1e-10 of the
    threshold. *)
Definition margin : spec_float := S754_finite false 7737125245533627 (-86).
Definition dadd (x y : Num) : Num := match x, y with F x, F y => F (SFadd 53 1024 x y) | _, _ => x end.
Definition dmul (x y : Num) : Num := match x, y with F x, F y => F (SFmul 53 1024 x y) | _, _ => x end.
Definition abs_reached (t : CmdArgType) (d : Num) (c : Num * Num) : bool :=
  match flt_type t with
  | Some _ => num_le (dadd d (dmul (fst c) (F margin))) (fst c) || num_ge (dadd d (dmul (snd c) (F margin))) (snd c)
  | None => reached d c
  end.

(** What [detect_change] returns, with its output arguments. *)
Record Change := mkChange { is_change : bool; force_change : bool; delta_rel : Num; delta_abs : Num }.
Definition no_change : Change := mkChange false false (dbl 0) (dbl 0).
Definition forced : Change := mkChange true true (dbl 0) (dbl 0).
Definition replaced (b : bool) : Change := if b then mkChange true false (dbl 100) (dbl 100) else no_change.

Section Thresholds.
Context (t : CmdArgType) (rel abs : Num * Num).

(** The comparison of two elements, from the differences of the previous ones. *)
Definition elt_rel (c p : Num) (d : Change) : outcome Change :=
  if is_set (fst rel) then
    if bool_decide (flt_type t ≠ None) && negb (Bool.eqb (isnan p) (isnan c)) then Ok (mkChange true false (delta_rel d) (delta_abs d))
    else x ← rel_delta t c p; Ok (mkChange (reached x rel) false x (delta_abs d))
  else Ok d.
Definition elt_abs (c p : Num) (d : Change) : outcome Change :=
  if is_set (fst abs) then
    if bool_decide (flt_type t ≠ None) && negb (Bool.eqb (isnan p) (isnan c)) then Ok (mkChange true false (delta_rel d) (delta_abs d))
    else x ← abs_delta t c p; Ok (mkChange (abs_reached t x abs) false (delta_rel d) x)
  else Ok d.
Fixpoint num_loop (curr prev : list Num) (d : Change) : outcome Change :=
  match curr, prev with
  | [], _ => Ok d
  | c :: curr, p :: prev =>
      d ← elt_rel c p d;
      if is_change d then Ok d
      else
        d ← elt_abs c p d;
        if is_change d then Ok d else num_loop curr prev d
  | _ :: _, [] => Undef
  end.
Definition num_change (curr prev : list WElt) : outcome Change :=
  if negb (length curr =? length prev)%nat then Ok forced
  else
    curr ← deref (mapM elt_num curr);
    prev ← deref (mapM elt_num prev);
    num_loop curr prev no_change.

(** Encoded data: the format, then the bytes. *)
Definition encoded_change (curr prev : list WElt) : outcome Change :=
  match curr, prev with
  | EltEncoded f1 d1 :: _, EltEncoded f2 d2 :: _ =>
      if negb (length d1 =? length d2)%nat || negb (String.length f1 =? String.length f2)%nat then Ok forced
      else if negb (bool_decide (f1 = f2)) then Ok (replaced true)
      else if is_set (fst rel) || is_set (snd rel) || is_set (fst abs) || is_set (snd abs) then num_loop d1 d2 no_change
      else Ok no_change
  | _, _ => Undef
  end.
End Thresholds.

(** Values that are only equal or not. *)
Definition elt_differs (c p : WElt) : bool :=
  match c, p with
  | EltNum x, EltNum y => negb (num_eq x y)
  | EltBool x, EltBool y => negb (Bool.eqb x y)
  | EltString x, EltString y => negb (bool_decide (x = y))
  | EltState x, EltState y => negb (bool_decide (x = y))
  | _, _ => true
  end.
Fixpoint any_differs (curr prev : list WElt) : bool :=
  match curr, prev with
  | c :: curr, p :: prev => elt_differs c p || any_differs curr prev
  | _, _ => false
  end.
Definition list_change (curr prev : list WElt) : Change :=
  if negb (length curr =? length prev)%nat then forced else replaced (any_differs curr prev).
(** The loop over the values of an enumerated attribute returns after the first one. *)
Definition enum_change (curr prev : list WElt) : Change :=
  if negb (length curr =? length prev)%nat then forced
  else match curr, prev with c :: _, p :: _ => replaced (elt_differs c p) | _, _ => no_change end.

Definition seq_change (t : CmdArgType) (enum : bool) (rel abs : Num * Num) (curr prev : list WElt) : outcome Change :=
  match t with
  | DEV_ENCODED => encoded_change DEV_UCHAR rel abs curr prev
  | DEV_SHORT => if enum then Ok (enum_change curr prev) else num_change t rel abs curr prev
  | DEV_LONG | DEV_LONG64 | DEV_DOUBLE | DEV_FLOAT | DEV_USHORT | DEV_UCHAR | DEV_ULONG | DEV_ULONG64 =>
      num_change t rel abs curr prev
  | DEV_STRING | DEV_BOOLEAN | DEV_STATE => Ok (list_change curr prev)
  | _ => Ok no_change
  end.

Definition prev_event (archive : bool) a : LastAttrValue := if archive then prev_archive_event a else prev_change_event a.

(** [EventSupplier::detect_change]: the errors and the invalid values first. *)
Definition detect_change (ad : SuppliedEventData) (archive : bool) (except : option DevErrorList) a : outcome Change :=
  v ← the_value ad;
  let prev := prev_event archive a in
  let rel := if archive then archive_rel_change a else rel_change a in
  let abs := if archive then archive_abs_change a else abs_change a in
  match except with
  | Some e => Ok (if err prev && compare_exception e (last_except prev) then no_change else forced)
  | None =>
      if err prev then Ok forced
      else if bool_decide (ev_quality v = ATTR_INVALID) then
        Ok (if bool_decide (last_quality prev = ATTR_INVALID) then no_change else forced)
      else if bool_decide (last_quality prev = ATTR_INVALID) then Ok forced
      else if negb (inited prev) then Ok no_change
      else
        last ← deref (if has_any ad then last_any prev else value_4 prev);
        match ev_value v, last with
        | DevStateAtt c, DevStateAtt p => Ok (replaced (negb (bool_decide (c = p))))
        | EvSeq t c, EvSeq t' p =>
            if negb (bool_decide (t = t')) || (has_any ad && bool_decide (t = DEV_ENCODED)) then Undef
            else seq_change t (bool_decide (ev_data_type a = DEV_ENUM)) rel abs c p
        | _, _ => Undef
        end
  end.

(** ** The clients *)

(** [Attribute::set_client_lib] and [remove_client_lib]: the versions of the clients of
    each kind of event. *)
Definition get_client_lib (e : EventType) a : list Z := client_lib a !!! ev_index e.
Definition set_client_lib (client_lib_version : Z) (event_type : EventType) a : EvAttr :=
  if decide (client_lib_version ∈ get_client_lib event_type a) then a
  else set_client_libs (<[ev_index event_type := get_client_lib event_type a ++ [client_lib_version]]> (client_lib a)) a.
Definition remove_client_lib (l : Z) (ev_name : string) : SM EvAttr unit :=
  a ← get;
  i ← lift (deref (fst <$> list_find (λ n, n = ev_name) EventNames));
  libs ← lift (deref (client_lib a !! i));
  match list_find (λ x, x = l) libs with
  | Some (pos, _) => modify (set_client_libs (<[i := delete pos libs]> (client_lib a)))
  | None => mret tt
  end.

(** The date of the last subscription of the clients of a version to a kind of event, and the
    version that is removed when it is too old. *)
Definition subscription (e : EventType) (lib : Z) (s : Subscriptions) : option (Z * Z) :=
  let of_lib d3 d4 d5 := Some (if (lib =? 6) || (lib =? 5) then (d5, lib) else if lib =? 4 then (d4, 4) else (d3, 3)) in
  match e with
  | CHANGE_EVENT => of_lib (event_change3 s) (event_change4 s) (event_change5 s)
  | PERIODIC_EVENT => of_lib (event_periodic3 s) (event_periodic4 s) (event_periodic5 s)
  | ARCHIVE_EVENT => of_lib (event_archive3 s) (event_archive4 s) (event_archive5 s)
  | ALARM_EVENT => if lib =? 6 then Some (event_alarm6 s, 6) else None
  | _ => None
  end.
Fixpoint remove_old (now : Z) (e : EventType) (libs : list Z) : SM EvAttr unit :=
  match libs with
  | [] => mret tt
  | lib :: libs =>
      a ← get;
      match subscription e lib (subs a) with
      | Some (date, l) => when_ (EVENT_RESUBSCRIBE_PERIOD <=? now - date) (remove_client_lib l (EventName e))
      | None => mret tt
      end;;
      remove_old now e libs
  end.

(** The structure of the version of a client, and the name of the event for it. *)
Definition convert_att_event_to_5 (ad : SuppliedEventData) : option EvAttValue :=
  match attr_val_3 ad, attr_val_4 ad with Some v, _ | None, Some v => Some v | None, None => attr_val_5 ad end.
Definition convert_att_event_to_4 (ad : SuppliedEventData) : option EvAttValue :=
  match attr_val_3 ad, attr_val_5 ad with Some v, _ | None, Some v => Some v | None, None => attr_val_4 ad end.
Definition convert_att_event_to_3 (ad : SuppliedEventData) : option EvAttValue :=
  match attr_val_4 ad, attr_val_5 ad with Some v, _ | None, Some v => Some v | None, None => attr_val_3 ad end.
Definition event_for (e : EventType) (data : list (string * Num)) (data_lg : list (string * Z)) (ad : SuppliedEventData)
    (except : option DevErrorList) (inc_ctr : bool) (lib : Z) : EventPush :=
  if (lib =? 6) || (lib =? 5) then
    mkPush (add_idl_prefix (EventName e)) data data_lg 5 (convert_att_event_to_5 ad) except inc_ctr
  else if lib =? 4 then mkPush (EventName e) data data_lg 4 (convert_att_event_to_4 ad) except inc_ctr
  else mkPush (EventName e) data data_lg 3 (convert_att_event_to_3 ad) except inc_ctr.

Section Pushing.
(** [push_event] of the event suppliers. *)
Context (push_event : EventPush → outcome unit).

Definition push (p : EventPush) : SM EvAttr unit := modify (add_pushed p);; lift (push_event p).
Fixpoint push_all (event : bool → Z → EventPush) (libs : list Z) (inc_ctr : bool) : SM EvAttr unit :=
  match libs with
  | [] => mret tt
  | lib :: libs => push (event inc_ctr lib);; push_all event libs false
  end.

Definition flag (b : bool) : Num := dbl (if b then 1 else 0).
Definition change_data (c : Change) (quality_change : bool) : list (string * Num) :=
  [("delta_change_rel", delta_rel c); ("delta_change_abs", delta_abs c); ("forced_event", flag (force_change c));
   ("quality", flag quality_change)].

(** [EventSupplier::detect_and_push_change_event]: the first value, a change, or another
    quality. *)
Definition detect_and_push_change_event (ad : SuppliedEventData) (except : option DevErrorList) : SM EvAttr bool :=
  v ← lift (the_value ad);
  a ← get;
  c ← (if negb (inited (prev_change_event a)) then
         modify (λ a, set_prev_change (store ad except (prev_change_event a)) a);;
         mret (mkChange true false (dbl 0) (dbl 0))
       else lift (detect_change ad false except a) : SM EvAttr Change);
  a ← get;
  let quality_change := bool_decide (except = None) && negb (bool_decide (last_quality (prev_change_event a) = ev_quality v)) in
  if is_change c || quality_change then
    modify (λ a, set_prev_change (store ad except (prev_change_event a)) a);;
    push_all (event_for CHANGE_EVENT (change_data c quality_change) [] ad except) (get_client_lib CHANGE_EVENT a) true;;
    mret true
  else mret false.

(** [detect_and_push_alarm_event]: the structures before IDL 5 have no quality here; a
    client of another version than 6 stops the assertion of the code. *)
Definition is_alarm_quality (q : AttrQuality) : bool := bool_decide (q = ATTR_ALARM) || bool_decide (q = ATTR_WARNING).
Definition alarm_ad (ad : SuppliedEventData) : SuppliedEventData := mkSupplied None None None (attr_val_5 ad).
Definition alarm_event (ad : SuppliedEventData) (except : option DevErrorList) (inc_ctr : bool) : EventPush :=
  mkPush (EventName ALARM_EVENT) [] [] 5 (convert_att_event_to_5 ad) except inc_ctr.
Definition detect_and_push_alarm_event (ad : SuppliedEventData) (except : option DevErrorList) : SM EvAttr bool :=
  let q := match attr_val_5 ad with Some v => ev_quality v | None => ATTR_VALID end in
  a ← get;
  let first := negb (inited (prev_alarm_event a)) in
  when_ first (modify (λ a, set_prev_alarm (store (alarm_ad ad) except (prev_alarm_event a)) a));;
  a ← get;
  let prev := prev_alarm_event a in
  let is_exception := bool_decide (except ≠ None) in
  let error_change := negb (Bool.eqb is_exception (err prev)) ||
    match except with Some e => negb (compare_exception e (last_except prev)) | None => false end in
  let quality_change := negb is_exception && negb (bool_decide (last_quality prev = q)) &&
    (is_alarm_quality (last_quality prev) || is_alarm_quality q) in
  if first || error_change || quality_change then
    modify (λ a, set_prev_alarm (store (alarm_ad ad) except (prev_alarm_event a)) a);;
    if forallb (Z.eqb 6) (get_client_lib ALARM_EVENT a) then
      push_all (λ inc _, alarm_event ad except inc) (get_client_lib ALARM_EVENT a) true;;
      mret true
    else lift Undef
  else mret false.

(** [get_minimal_event_reporting_period], in nanoseconds: 98 % of a period under five
    seconds, rounded away from zero at the half. *)
Definition round_half_away (f : spec_float) : Z :=
  match f with
  | S754_finite s m e =>
      let r := if 0 <=? e then Zpos m * 2 ^ e else (2 * Zpos m + 2 ^ (- e)) / 2 ^ (- e + 1) in
      if s then - r else r
  | _ => 0
  end.
Definition DELTA_PERIODIC : spec_float := S754_finite false 8827055269646172 (-53).
Definition get_minimal_event_reporting_period (polling_period : Z) : Z :=
  if 5000 * 1000000 <=? polling_period then polling_period - 100 * 1000000
  else match dmul (dbl polling_period) (F DELTA_PERIODIC) with F f => round_half_away f | I _ => 0 end.

(** [duration_ms]. *)
Definition duration_ms (d : Z) : Num :=
  match dbl d, dbl 1000000 with F x, F y => F (SFdiv 53 1024 x y) | x, _ => x end.

(** [detect_and_push_archive_event]: also periodically. *)
Definition detect_and_push_archive_event (ad : SuppliedEventData) (except : option DevErrorList) (time_bef_attr : Z) : SM EvAttr bool :=
  v ← lift (the_value ad);
  a ← get;
  let period_change := negb (archive_period a =? 2 ^ 31 - 1) &&
    (get_minimal_event_reporting_period (archive_period a * 1000000) <? time_bef_attr - archive_last_periodic a) &&
    inited (prev_archive_event a) in
  c ← (if negb (inited (prev_archive_event a)) then
         modify (λ a, set_archive_dates (archive_periodic_counter a) time_bef_attr time_bef_attr
                        (set_prev_archive (store ad except (prev_archive_event a)) a));;
         mret (mkChange true false (dbl 0) (dbl 0))
       else if period_change then mret (mkChange true false (dbl 0) (dbl 0))
       else lift (detect_change ad true except a) : SM EvAttr Change);
  a ← get;
  let quality_change := bool_decide (except = None) && negb (bool_decide (last_quality (prev_archive_event a) = ev_quality v)) in
  if is_change c || quality_change then
    let ctr := if period_change then archive_periodic_counter a + 1 else archive_periodic_counter a in
    modify (λ a, set_archive_dates ctr (if period_change then time_bef_attr else archive_last_periodic a) time_bef_attr
                   (set_prev_archive (store ad except (prev_archive_event a)) a));;
    push_all (event_for ARCHIVE_EVENT
        (change_data c quality_change ++ [("delta_event", duration_ms (time_bef_attr - archive_last_event a))])
        [("counter", if period_change then ctr else -1)] ad except)
      (get_client_lib ARCHIVE_EVENT a) true;;
    mret true
  else mret false.

(** [detect_and_push_periodic_event]. *)
Definition detect_and_push_periodic_event (ad : SuppliedEventData) (except : option DevErrorList) (time_bef_attr : Z) : SM EvAttr bool :=
  a ← get;
  if get_minimal_event_reporting_period (event_period a * 1000000) <? time_bef_attr - last_periodic a then
    modify (set_periodic (periodic_counter a + 1) time_bef_attr);;
    push_all (event_for PERIODIC_EVENT [] [("counter", periodic_counter a + 1)] ad except) (get_client_lib PERIODIC_EVENT a) true;;
    mret true
  else mret false.

(** [detect_and_push_events]: the test that there are clients is made on the copy of the
    list that still has the old ones. *)
Definition detect_one (now : Z) (e : EventType) (detect : SM EvAttr bool) : SM EvAttr bool :=
  a ← get;
  let client_libs := get_client_lib e a in
  remove_old now e client_libs;;
  if bool_decide (client_libs = []) then mret false else detect.
Record SendEventType := mkSend { s_change : bool; s_alarm : bool; s_archive : bool; s_periodic : bool }.
Definition detect_and_push_events (ad : SuppliedEventData) (except : option DevErrorList) (time_bef_attr now : Z) : SM EvAttr SendEventType :=
  change ← detect_one now CHANGE_EVENT (detect_and_push_change_event ad except);
  alarm ← detect_one now ALARM_EVENT (detect_and_push_alarm_event ad except);
  periodic ← detect_one now PERIODIC_EVENT (detect_and_push_periodic_event ad except time_bef_attr);
  archive ← detect_one now ARCHIVE_EVENT (detect_and_push_archive_event ad except time_bef_attr);
  mret (mkSend change alarm archive periodic).
End Pushing.
