(* ===== verification/EventTheory.v ===== *)
(** * Properties of the detection of events

  The change criteria on integers are those of exact arithmetic as long as nothing
  overflows; a client of the change events always has a value close to the last one read;
  alarm events follow the alarm state. *)
From Stdlib Require Import SpecFloat.
From S2P Require Import Prelude StateExn PollRing AttrHistory Number Attribute DevState WAttribute EventDetect.
Local Open Scope string_scope.
Local Open Scope list_scope.
Local Open Scope Z_scope.
Implicit Types a : EvAttr.

(** ** The criteria on integers *)

(** A criterion with whole thresholds, or one that is not set. *)
Definition INT_MAX : Z := 2 ^ 31 - 1.
Definition criterion (o : option (Z * Z)) : Num * Num :=
  match o with Some (lo, hi) => (dbl lo, dbl hi) | None => (dbl INT_MAX, dbl INT_MAX) end.
Definition good_criterion (o : option (Z * Z)) : Prop :=
  match o with Some (lo, hi) => - 2 ^ 53 < lo < 0 ∧ 0 < hi < 2 ^ 53 | None => True end.

(** A move by at least the threshold, in percent of the value before and in value.  From
    zero every move is one of 100 %. *)
Definition pct_moved (o : option (Z * Z)) (c p : Z) : bool :=
  match o with
  | None => false
  | Some (lo, hi) =>
      if p =? 0 then negb (c =? 0) && (hi <=? 100)
      else (100 * (c - p) * Z.sgn p <=? lo * Z.abs p) || (hi * Z.abs p <=? 100 * (c - p) * Z.sgn p)
  end.
Definition abs_moved (o : option (Z * Z)) (c p : Z) : bool :=
  match o with None => false | Some (lo, hi) => (c - p <=? lo) || (hi <=? c - p) end.
Definition moved (rel abs : option (Z * Z)) (c p : Z) : bool := pct_moved rel c p || abs_moved abs c p.
Definition moved_list (rel abs : option (Z * Z)) (cs ps : list Z) : bool :=
  negb (length cs =? length ps)%nat || existsb (λ cp, moved rel abs (fst cp) (snd cp)) (zip cs ps).

(** The percentage of the move of [p] to [c] is computed without an overflow nor a
    rounding: [p] and [c] are numbers of the type, an unsigned one does not decrease. *)
Definition no_wrap (t : CmdArgType) (c p : Z) : Prop :=
  match int_type t with
  | Some st =>
      has_type t (I c) = true ∧ has_type t (I p) = true ∧
      Z.abs (100 * (c - p)) <= Z.min (int_max (promoted st)) (2 ^ 53 - 1) ∧ (fst (promoted st) = false → p <= c)
  | None => False
  end.

Lemma no_wrap_narrow t st c p :
  int_type t = Some st → snd st <= 16 → has_type t (I c) = true → has_type t (I p) = true → no_wrap t c p.
Proof.
  intros Ht Hw Hc Hp. unfold no_wrap. rewrite Ht. split_and!; [done|done| |].
  - apply (has_type_int _ _ _ Ht) in Hc, Hp. unfold promoted. rewrite (proj2 (Z.ltb_lt _ _)) by lia.
    assert (2 ^ snd st <= 2 ^ 16) by (apply Z.pow_le_mono_r; lia).
    assert (2 ^ (snd st - 1) <= 2 ^ 15) by (destruct (int_width _ _ Ht) as [E|[E|[E|E]]]; rewrite E; lia).
    assert (int_max st < 2 ^ 16 ∧ - 2 ^ 15 <= int_min st) by (unfold int_max, int_min; destruct (fst st); lia).
    change (int_max (true, 32)) with 2147483647. change (2 ^ 16) with 65536 in *. change (2 ^ 15) with 32768 in *. lia.
  - unfold promoted. rewrite (proj2 (Z.ltb_lt _ _)) by lia. done.
Qed.

Lemma int_result_exact st z :
  int_min (promoted st) <= z <= int_max (promoted st) → int_result st z = Ok (I z).
Proof.
  intros [H1 H2]. unfold int_result. set (P := promoted st) in *. destruct (fst P) eqn:E.
  - by rewrite (proj2 (Z.leb_le _ _) H1), (proj2 (Z.leb_le _ _) H2).
  - unfold int_min, int_max in *. rewrite E in *. by rewrite Z.mod_small by lia.
Qed.

Lemma quot_ge x q k : 0 < q → 0 < k → (k <= x ÷ q ↔ k * q <= x).
Proof.
  intros Hq Hk. destruct (Z.le_gt_cases 0 x).
  - rewrite Z.quot_div_nonneg by lia. split; intros H1.
    + pose proof (Z.mul_div_le x q Hq). nia.
    + apply Z.div_le_lower_bound; lia.
  - assert (x ÷ q <= 0). { rewrite <-(Z.opp_involutive x), Z.quot_opp_l by lia. pose proof (Z.quot_pos (- x) q). lia. }
    split; [lia|nia].
Qed.
Lemma quot_sgn x p : p ≠ 0 → x ÷ p = (x * Z.sgn p) ÷ Z.abs p.
Proof.
  intros Hp. destruct (Z.lt_total p 0) as [H|[->|H]]; [|done|].
  - rewrite (Z.sgn_neg p), (Z.abs_neq p) by lia. rewrite Z.quot_opp_r by lia.
    replace (x * -1) with (- x) by lia. rewrite Z.quot_opp_l by lia. lia.
  - rewrite (Z.sgn_pos p), (Z.abs_eq p) by lia. f_equal. lia.
Qed.
Lemma quot_reached x p lo hi : p ≠ 0 → lo < 0 → 0 < hi →
  (x ÷ p <=? lo) || (hi <=? x ÷ p) = (x * Z.sgn p <=? lo * Z.abs p) || (hi * Z.abs p <=? x * Z.sgn p).
Proof.
  intros Hp Hlo Hhi. rewrite (quot_sgn x p Hp). set (y := x * Z.sgn p). set (q := Z.abs p).
  assert (0 < q) by (unfold q; lia). f_equal; apply eq_bool_prop_intro; rewrite !Is_true_true, !Z.leb_le.
  - pose proof (quot_ge (- y) q (- lo)) as Hq. rewrite Z.quot_opp_l in Hq by lia. lia.
  - apply quot_ge; done.
Qed.

Lemma num_eq_dbl x y : Z.abs x < 2 ^ 53 → Z.abs y < 2 ^ 53 → num_eq (dbl x) (dbl y) = (x =? y).
Proof. apply dbl_eq. Qed.

Lemma is_set_fst o : good_criterion o → is_set (fst (criterion o)) = match o with Some _ => true | None => false end.
Proof.
  unfold is_set. change (2 ^ 31 - 1) with INT_MAX. destruct o as [[lo hi]|]; cbn [criterion fst good_criterion]; [intros [Hlo Hhi]|intros _].
  - rewrite num_eq_dbl by (unfold INT_MAX; lia). by rewrite (proj2 (Z.eqb_neq _ _)) by (unfold INT_MAX; lia).
  - rewrite num_eq_dbl by (unfold INT_MAX; lia). by rewrite Z.eqb_refl.
Qed.

Lemma reached_dbl lo hi d : good_criterion (Some (lo, hi)) → Z.abs d < 2 ^ 53 →
  reached (dbl d) (criterion (Some (lo, hi))) = (d <=? lo) || (hi <=? d).
Proof. intros [Hlo Hhi] Hd. unfold reached. cbn [criterion fst snd]. by rewrite !dbl_le by lia. Qed.

Section Integers.
Context (t : CmdArgType) (rel abs : option (Z * Z)).
Context (Hrel : good_criterion rel) (Habs : good_criterion abs).
Abbreviation R := (criterion rel).
Abbreviation A := (criterion abs).

Lemma int_not_float st : int_type t = Some st → flt_type t = None.
Proof using. by destruct t. Qed.

Lemma rel_delta_int c p st : int_type t = Some st → no_wrap t c p → p ≠ 0 →
  rel_delta t (I c) (I p) = Ok (dbl (100 * (c - p) ÷ p)) ∧ Z.abs (100 * (c - p) ÷ p) < 2 ^ 53.
Proof using.
  intros Ht Hw Hp. unfold no_wrap in Hw. rewrite Ht in Hw. destruct Hw as (Hc & Hq & Hb & Hu).
  apply (has_type_int _ _ _ Ht) in Hc, Hq.
  assert (Z.abs (100 * (c - p) ÷ p) <= Z.abs (100 * (c - p))) as Hle.
  { rewrite <-Z.quot_abs by done. apply Z.quot_le_upper_bound; nia. }
  assert (∀ z, Z.abs z <= Z.abs (100 * (c - p)) → (fst (promoted st) = false → 0 <= z) → int_result st z = Ok (I z)) as Hr.
  { intros z Hz H0. apply int_result_exact. unfold int_min. destruct (fst (promoted st)) eqn:E.
    - unfold int_max in *. rewrite E in *. lia.
    - specialize (H0 eq_refl). lia. }
  split; [|lia]. unfold rel_delta. rewrite Ht, (proj2 (Z.eqb_neq _ _) Hp).
  rewrite (Hr (c - p)); [|lia|intros E; specialize (Hu E); lia].
  rewrite bind_Ok, (Z.mul_comm (c - p) 100), Hr; [|lia|intros E; specialize (Hu E); lia].
  rewrite bind_Ok, Hr; [done|exact Hle|]. intros E. specialize (Hu E).
  assert (fst st = false) as Es. { unfold promoted in E. by destruct (snd st <? 32). }
  unfold int_min in Hq. rewrite Es in Hq. apply Z.quot_pos; lia.
Qed.

Lemma elt_rel_int c p d : no_wrap t c p → is_change d = false → force_change d = false →
  ∃ d', elt_rel t R (I c) (I p) d = Ok d' ∧ is_change d' = pct_moved rel c p ∧ force_change d' = false.
Proof using Hrel.
  intros Hw Hd Hf. unfold no_wrap in Hw. destruct (int_type t) as [st|] eqn:Ht; [|done].
  assert (no_wrap t c p) as Hw' by (unfold no_wrap; by rewrite Ht).
  unfold elt_rel. rewrite (is_set_fst rel Hrel). destruct rel as [[lo hi]|]; [|by exists d].
  rewrite (int_not_float st Ht), bool_decide_eq_false_2 by (by intros []). cbn [andb].
  destruct Hrel as [Hlo Hhi].
  destruct (Z.eqb_spec p 0) as [->|Hp].
  - unfold rel_delta. rewrite Ht, Z.eqb_refl, bind_Ok. eexists. split; [done|]. cbn [is_change force_change]. split; [|done].
    rewrite reached_dbl; [|done|destruct (c =? 0); lia].
    unfold pct_moved. rewrite Z.eqb_refl. destruct (c =? 0); cbn [negb andb]; [by rewrite (proj2 (Z.leb_gt 0 lo)), (proj2 (Z.leb_gt hi 0)) by lia|].
    by rewrite (proj2 (Z.leb_gt 100 lo)) by lia.
  - destruct (rel_delta_int c p st Ht Hw' Hp) as [-> Hq]. rewrite bind_Ok. eexists. split; [done|]. cbn [is_change force_change]. split; [|done].
    rewrite reached_dbl by done. unfold pct_moved. rewrite (proj2 (Z.eqb_neq _ _) Hp). by rewrite quot_reached by lia.
Qed.

Lemma elt_abs_int c p d : no_wrap t c p → is_change d = false → force_change d = false →
  ∃ d', elt_abs t A (I c) (I p) d = Ok d' ∧ is_change d' = abs_moved abs c p ∧ force_change d' = false.
Proof using Habs.
  intros Hw Hd Hf. unfold no_wrap in Hw. destruct (int_type t) as [st|] eqn:Ht; [|done]. destruct Hw as (_ & _ & Hb & Hu).
  unfold elt_abs. rewrite (is_set_fst abs Habs). destruct abs as [[lo hi]|]; [|by exists d].
  rewrite (int_not_float st Ht), bool_decide_eq_false_2 by (by intros []). cbn [andb].
  assert (num_sub t (I c) (I p) = Ok (I (c - p))) as Hs.
  { unfold num_sub. rewrite Ht. apply int_result_exact. unfold int_min. destruct (fst (promoted st)) eqn:E.
    - unfold int_max in *. rewrite E in *. lia.
    - specialize (Hu eq_refl). lia. }
  unfold abs_delta. rewrite Hs, bind_Ok. eexists. split; [done|]. cbn [is_change force_change]. split; [|done].
  unfold abs_reached. rewrite (int_not_float st Ht). by rewrite reached_dbl by (done || lia).
Qed.

Lemma num_loop_int cs ps d : length cs = length ps → Forall (λ cp, no_wrap t (fst cp) (snd cp)) (zip cs ps) →
  is_change d = false → force_change d = false →
  ∃ d', num_loop t R A (I <$> cs) (I <$> ps) d = Ok d' ∧
    is_change d' = existsb (λ cp, moved rel abs (fst cp) (snd cp)) (zip cs ps) ∧ force_change d' = false.
Proof using Hrel Habs.
  revert ps d. induction cs as [|c cs IH]; intros [|p ps] d Hl Hw Hd Hf; try done; [by exists d|].
  apply Forall_cons in Hw as [Hw Hws]. simpl. unfold moved at 1. simpl.
  destruct (elt_rel_int c p d Hw Hd Hf) as (d1 & -> & E1 & F1). rewrite bind_Ok. destruct (is_change d1) eqn:C1.
  { exists d1. by rewrite <-E1, C1. }
  destruct (elt_abs_int c p d1 Hw C1 F1) as (d2 & -> & E2 & F2). rewrite bind_Ok, <-E1, <-E2. destruct (is_change d2) eqn:C2.
  { exists d2. by rewrite C2. }
  simpl. apply IH; [simpl in Hl; lia|done|done|done].
Qed.

(** The elements of a value. *)
Definition int_elts (l : list Z) : list WElt := (λ z, EltNum (I z)) <$> l.
Lemma int_elts_num l : mapM elt_num (int_elts l) = Some (I <$> l).
Proof using. induction l as [|z l IH]; [done|]. change (int_elts (z :: l)) with (EltNum (I z) :: int_elts l). cbn [mapM]. by rewrite IH. Qed.

(** The loop of [num_change] on integers. *)
Lemma num_change_int cs ps :
  (length cs = length ps → Forall (λ cp, no_wrap t (fst cp) (snd cp)) (zip cs ps)) →
  ∃ d, num_change t R A (int_elts cs) (int_elts ps) = Ok d ∧ is_change d = moved_list rel abs cs ps ∧
    force_change d = negb (length cs =? length ps)%nat.
Proof using Hrel Habs.
  intros Hw. unfold num_change, moved_list. unfold int_elts at 1 2. rewrite !length_fmap.
  destruct (Nat.eqb_spec (length cs) (length ps)) as [Hl|Hl]; simpl; [|by eexists].
  rewrite !int_elts_num. cbn [deref]. rewrite !bind_Ok.
  by destruct (num_loop_int cs ps no_change Hl (Hw Hl) eq_refl eq_refl) as (d & -> & ? & ?); exists d.
Qed.

(** On integers, as long as the percentages are in the bounds of the arithmetic of the type, the
    values that [detect_change] finds too far from the last ones are exactly those that
    moved by at least a threshold, in exact arithmetic: the truncated division of the code does
    not matter when the thresholds are whole numbers. *)
Theorem integer_changes_exact cs ps :
  (length cs = length ps → Forall (λ cp, no_wrap t (fst cp) (snd cp)) (zip cs ps)) →
  ∃ d, num_change t R A (int_elts cs) (int_elts ps) = Ok d ∧ is_change d = moved_list rel abs cs ps ∧
    force_change d = negb (length cs =? length ps)%nat.
Proof using Hrel Habs. apply num_change_int. Qed.
End Integers.

(** ** Sending *)

(** The events of a push, one for each client. *)
Fixpoint events (event : bool → Z → EventPush) (libs : list Z) (inc_ctr : bool) : list EventPush :=
  match libs with [] => [] | lib :: libs => event inc_ctr lib :: events event libs false end.

Lemma push_all_run push_event event libs inc a :
  (∀ p, push_event p = Ok tt) →
  push_all push_event event libs inc a = Some (set_pushed (pushed a ++ events event libs inc) a, inr tt).
Proof.
  intros Hok. revert inc a. induction libs as [|lib libs IH]; intros inc a; simpl.
  - rewrite app_nil_r. by destruct a.
  - unfold push. cbv [mbind SM_bind modify lift]. rewrite Hok, IH. unfold add_pushed, set_pushed. simpl. by rewrite <-app_assoc.
Qed.
Lemma events_for (P : Z → EventPush → Prop) event libs inc :
  (∀ inc lib, P lib (event inc lib)) → Forall2 P libs (events event libs inc).
Proof. intros H. revert inc. induction libs; constructor; auto. Qed.

(** ** The change events over a series of readings *)

Section Follow.
Context (push_event : EventPush → outcome unit) (Hok : ∀ p, push_event p = Ok tt).
Context (t : CmdArgType) (rel abs : option (Z * Z)).
Context (Ht : int_type t ≠ None) (Hte : t ≠ DEV_ENUM) (Hrel : good_criterion rel) (Habs : good_criterion abs).

(** A reading: its quality and its numbers. *)
Abbreviation reading := (AttrQuality * list Z)%type.
Implicit Types r : reading.
Definition value_of r : EvAttValue := mkEvAttValue (fst r) (EvSeq t (int_elts (snd r))).
Definition supplied r : SuppliedEventData := mkSupplied None None None (Some (value_of r)).
Definition close r r0 : Prop := fst r = fst r0 ∧ moved_list rel abs (snd r) (snd r0) = false.

Definition configured (libs : list Z) a : Prop :=
  ev_data_type a ≠ DEV_ENUM ∧ rel_change a = criterion rel ∧ abs_change a = criterion abs ∧ get_client_lib CHANGE_EVENT a = libs.
(** [r0] is the last value sent, and every client got it, in the structure of its version. *)
Definition sent_to r0 (lib : Z) (p : EventPush) : Prop :=
  p_value p = Some (value_of r0) ∧ p_except p = None ∧
  p_version p = if (lib =? 6) || (lib =? 5) then 5 else if lib =? 4 then 4 else 3.
Definition last_sent (libs : list Z) r0 a : Prop :=
  prev_change_event a = mkLast true (fst r0) (last_any (prev_change_event a)) false (last_except (prev_change_event a)) (value_4 (prev_change_event a)) ∧
  value_4 (prev_change_event a) = Some (EvSeq t (int_elts (snd r0))) ∧
  ∃ old evs, pushed a = old ++ evs ∧ Forall2 (sent_to r0) libs evs.

Lemma moved_refl x : moved rel abs x x = false.
Proof using Hrel Habs.
  unfold moved. apply orb_false_iff. split.
  - unfold pct_moved. destruct rel as [[lo hi]|]; [|done]. destruct Hrel. destruct (Z.eqb_spec x 0) as [->|Hx]; [done|].
    rewrite Z.sub_diag. apply orb_false_iff. rewrite !Z.leb_gt. nia.
  - unfold abs_moved. destruct abs as [[lo hi]|]; [|done]. destruct Habs. rewrite Z.sub_diag. apply orb_false_iff. rewrite !Z.leb_gt. lia.
Qed.
Lemma close_refl r : close r r.
Proof using Hrel Habs.
  split; [done|]. unfold moved_list. rewrite Nat.eqb_refl. simpl. induction (snd r) as [|x l IH]; [done|].
  simpl. by rewrite moved_refl.
Qed.

Lemma seq_change_int enum cs ps : enum = false →
  seq_change t enum (criterion rel) (criterion abs) (int_elts cs) (int_elts ps) =
  num_change t (criterion rel) (criterion abs) (int_elts cs) (int_elts ps).
Proof using Ht Hte. intros ->. by destruct t. Qed.

(** The end of a detection: the value is stored and sent. *)
Definition after_push (r : reading) (c : Change) (qc : bool) (libs : list Z) a : EvAttr :=
  let a := set_prev_change (store (supplied r) None (prev_change_event a)) a in
  set_pushed (pushed a ++ events (event_for CHANGE_EVENT (change_data c qc) [] (supplied r) None) libs true) a.
Lemma after_push_sent libs r c qc a :
  configured libs a → configured libs (after_push r c qc libs a) ∧ last_sent libs r (after_push r c qc libs a).
Proof using.
  intros H. split; [exact H|]. split; [done|]. split; [done|]. eexists _, _. split; [done|].
  apply events_for. intros inc lib. unfold sent_to, event_for, convert_att_event_to_5, convert_att_event_to_4, convert_att_event_to_3.
  by destruct (_ || _); [|destruct (_ =? _)].
Qed.

Lemma after_push_ok libs r c qc a (Q : Prop) r0 :
  configured libs a → configured libs (after_push r c qc libs a) ∧
  ∃ r1, (r1 = r ∨ r1 = r0 ∧ Q) ∧ last_sent libs r1 (after_push r c qc libs a) ∧ close r r1.
Proof using Hrel Habs.
  intros H. destruct (after_push_sent libs r c qc a H) as [C S]. split; [done|].
  exists r. split; [by left|]. split; [done|apply close_refl].
Qed.

Lemma detect_change_int libs r r0 a :
  configured libs a → last_sent libs r0 a → fst r ≠ ATTR_INVALID → fst r0 ≠ ATTR_INVALID →
  detect_change (supplied r) false None a = num_change t (criterion rel) (criterion abs) (int_elts (snd r)) (int_elts (snd r0)).
Proof using Ht Hte.
  intros (He & Hr & Ha & _) (Hp & Hv & _) Hq Hq0. unfold detect_change. cbn [the_value supplied attr_val_5 deref].
  rewrite bind_Ok. cbn [prev_event]. rewrite Hp, Hr, Ha. cbn [err inited last_quality value_4 value_of ev_quality ev_value negb].
  rewrite !bool_decide_eq_false_2 by done. cbn [has_any supplied attr_val_5 attr_val_4]. rewrite Hv. cbn [deref]. rewrite bind_Ok.
  rewrite bool_decide_eq_true_2 by done. cbn [negb orb andb]. by rewrite seq_change_int by by apply bool_decide_eq_false_2.
Qed.

(** The differences between a reading and an earlier one, number by number, are computed exactly. *)
Definition exact r r0 : Prop := Forall (λ cp, no_wrap t (fst cp) (snd cp)) (zip (snd r) (snd r0)).
Lemma change_event_run libs r r0 a :
  configured libs a → fst r ≠ ATTR_INVALID →
  (inited (prev_change_event a) = false ∨ last_sent libs r0 a ∧ fst r0 ≠ ATTR_INVALID ∧ exact r r0) →
  ∃ a' b, detect_and_push_change_event push_event (supplied r) None a = Some (a', inr b) ∧ configured libs a' ∧
    ∃ r1, (r1 = r ∨ r1 = r0 ∧ inited (prev_change_event a) = true) ∧ last_sent libs r1 a' ∧ close r r1.
Proof using All.
  intros Hc Hq Hprev. pose proof Hc as (He & Hr & Ha & Hl). unfold detect_and_push_change_event.
  erewrite run_bind by done. erewrite run_bind by done. subst libs. destruct Hprev as [Hin|(Hs & Hq0 & Hw)].
  - rewrite Hin. cbn [negb]. erewrite run_bind; [|by erewrite run_bind by done]. erewrite run_bind by done.
    cbn [is_change orb]. erewrite run_bind by done. erewrite run_bind by (by apply push_all_run).
    eexists (after_push r _ _ _ (set_prev_change (store (supplied r) None (prev_change_event a)) a)), true. split; [reflexivity|].
    by apply after_push_ok.
  - pose proof Hs as (Hp & Hv & _). rewrite Hp. cbn [inited negb last_quality].
    destruct (num_change_int t rel abs Hrel Habs (snd r) (snd r0) (λ _, Hw)) as (d & Hd & Hm & _).
    erewrite run_bind; [|by apply run_ok; erewrite detect_change_int]. erewrite run_bind by done.
    rewrite Hp. cbn [last_quality]. rewrite (bool_decide_eq_true_2 (None = None)) by done. cbn [andb value_of ev_quality].
    destruct (is_change d || negb (bool_decide (fst r0 = fst r))) eqn:E.
    + erewrite run_bind by done. erewrite run_bind by (by apply push_all_run). eexists (after_push r _ _ _ a), true. split; [reflexivity|]. by apply after_push_ok.
    + propb. eexists _, _. split; [done|]. split; [exact Hc|]. exists r0. split; [by right|]. split; [exact Hs|]. split; [done|congruence].
Qed.

Fixpoint run_readings (rs : list reading) : SM EvAttr unit :=
  match rs with
  | [] => mret tt
  | r :: rs => detect_and_push_change_event push_event (supplied r) None;; run_readings rs
  end.
(** Readings without an invalid one, each computed exactly against those before it. *)
Definition good_readings (rs : list reading) : Prop :=
  (∀ r, r ∈ rs → fst r ≠ ATTR_INVALID) ∧ ∀ rs1 r rs2 r0, rs = rs1 ++ r :: rs2 → r0 ∈ rs1 → exact r r0.

Lemma run_readings_ok past libs rs a :
  good_readings (past ++ rs) → configured libs a →
  (inited (prev_change_event a) = false ∨ ∃ r0, r0 ∈ past ∧ last_sent libs r0 a) →
  ∃ a', run_readings rs a = Some (a', inr tt) ∧
    ∀ r, last rs = Some r → ∃ r0, r0 ∈ past ++ rs ∧ last_sent libs r0 a' ∧ close r r0.
Proof using All.
  revert past a. induction rs as [|r rs IH]; intros past a Hg Hc Hp; [by exists a|].
  pose proof Hg as [Hg1 Hg2]. assert (r ∈ past ++ r :: rs) as Hr by set_solver.
  assert (∃ r0, inited (prev_change_event a) = false ∨ r0 ∈ past ∧ last_sent libs r0 a) as (r0 & Hp0).
  { destruct Hp as [Hp|(r0 & ? & ?)]; [exists r; auto|exists r0; auto]. }
  destruct (change_event_run libs r r0 a Hc (Hg1 _ Hr)) as (a1 & b & H1 & Hc1 & r1 & Hr1 & Hs1 & Hcl).
  { destruct Hp0 as [?|[Hr0 ?]]; [by left|]. right. split; [done|]. split; [apply Hg1; set_solver|]. by eapply Hg2. }
  assert (inited (prev_change_event a) = true → r0 ∈ past) as Hin by (destruct Hp0 as [->|[? _]]; done).
  assert (r1 ∈ past ++ [r]) as Hr1' by (destruct Hr1 as [->|[-> Hi]]; [|specialize (Hin Hi)]; set_solver).
  destruct (IH (past ++ [r]) a1) as (a' & Ha' & Hlast).
  { by rewrite <-app_assoc. }
  { done. }
  { right. by exists r1. }
  rewrite <-app_assoc in Hlast. exists a'. simpl. rewrite (run_bind _ _ _ _ _ H1). split; [done|]. intros r' Hl.
  destruct rs as [|r2 rs]; [|by apply Hlast]. injection Hl as <-. injection Ha' as <-. by exists r1.
Qed.

End Follow.

(** ** The alarm events *)

(** What an alarm event tells: an error, or the kind of the quality. *)
Inductive alarm_state := AlarmError (e : DevErrorList) | InAlarm | InWarning | NoAlarm.
#[export] Instance alarm_state_eq : EqDecision alarm_state.
Proof. solve_decision. Defined.
Definition quality_state (q : AttrQuality) : alarm_state :=
  match q with ATTR_ALARM => InAlarm | ATTR_WARNING => InWarning | _ => NoAlarm end.
Definition read_state (v : EvAttValue) (except : option DevErrorList) : alarm_state :=
  match except with Some e => AlarmError e | None => quality_state (ev_quality v) end.
Definition stored_state (p : LastAttrValue) : alarm_state :=
  if err p then AlarmError (last_except p) else quality_state (last_quality p).

Lemma compare_exception_eq e1 e2 : compare_exception e1 e2 = true ↔ e1 = e2.
Proof.
  revert e2. induction e1 as [|[r1 s1 d1 o1] e1 IH]; intros [|[r2 s2 d2 o2] e2]; simpl; try done.
  rewrite !andb_true_iff, !bool_decide_eq_true, IH. naive_solver.
Qed.

Lemma alarm_change q q' :
  negb (bool_decide (q = q')) && (is_alarm_quality q || is_alarm_quality q') = true ↔ quality_state q' ≠ quality_state q.
Proof. by destruct q, q'. Qed.

Definition wants_alarm (v : EvAttValue) (except : option DevErrorList) (p : LastAttrValue) : Prop :=
  inited p = false ∨ read_state v except ≠ stored_state p.
(** The tests of the code. *)
Lemma alarm_tests v except p : inited p = true →
  negb (Bool.eqb (bool_decide (except ≠ None)) (err p)) ||
    match except with Some e => negb (compare_exception e (last_except p)) | None => false end ||
    (negb (bool_decide (except ≠ None)) && negb (bool_decide (last_quality p = ev_quality v)) &&
      (is_alarm_quality (last_quality p) || is_alarm_quality (ev_quality v))) = true ↔ read_state v except ≠ stored_state p.
Proof.
  intros _. unfold read_state, stored_state. destruct except as [e|], (err p).
  - rewrite bool_decide_eq_true_2 by done. simpl. rewrite orb_false_r, negb_true_iff, <-not_true_iff_false, compare_exception_eq. naive_solver.
  - rewrite bool_decide_eq_true_2 by done. simpl. split; [|done]. intros _. by destruct (last_quality p).
  - rewrite bool_decide_eq_false_2 by naive_solver. simpl. split; [|done]. intros _. by destruct (ev_quality v).
  - rewrite bool_decide_eq_false_2 by naive_solver. simpl. apply alarm_change.
Qed.
Lemma store_alarm_state ad v except p : attr_val_5 ad = Some v → stored_state (store (alarm_ad ad) except p) = read_state v except ∧ inited (store (alarm_ad ad) except p) = true.
Proof. intros H. unfold store, alarm_ad. cbn [attr_val_5]. rewrite H. by destruct except. Qed.

(** An alarm event is sent when, and only when, the alarm state of the attribute (its error, an alarm, a
    warning, or none of them) is not the one of the last event, or there was none; it goes to every
    client, and the state of the last event is then the one just read. *)
Theorem alarm_event_iff push_event ad v except a :
  (∀ p, push_event p = Ok tt) → attr_val_5 ad = Some v → Forall (eq 6) (get_client_lib ALARM_EVENT a) →
  ∃ a' b, detect_and_push_alarm_event push_event ad except a = Some (a', inr b) ∧
    (b = true ↔ wants_alarm v except (prev_alarm_event a)) ∧
    stored_state (prev_alarm_event a') = read_state v except ∧
    pushed a' = pushed a ++ (if b then events (λ inc _, alarm_event ad except inc) (get_client_lib ALARM_EVENT a) true else []).
Proof.
  intros Hok Hv H6. unfold detect_and_push_alarm_event. rewrite Hv.
  assert (forallb (Z.eqb 6) (get_client_lib ALARM_EVENT a) = true) as Hall.
  { apply forallb_forall. intros x Hx%list_elem_of_In. rewrite Forall_forall in H6. apply Z.eqb_eq. by apply H6. }
  erewrite run_bind by done. destruct (inited (prev_alarm_event a)) eqn:Hin; cbn [negb when_].
  - erewrite run_bind by done. erewrite run_bind by done. cbn [orb].
    match goal with |- context [if ?b then _ else _] => destruct b eqn:E end.
    + apply alarm_tests in E; [|done]. erewrite run_bind by done.
      rewrite Hall. erewrite run_bind by (by apply push_all_run). eexists _, true. split; [done|]. split; [by split; [right|]|].
      split; [by apply store_alarm_state|done].
    + apply not_true_iff_false in E. rewrite alarm_tests in E by done. eexists _, false. split; [done|].
      split; [split; [done|]; intros [Hx|Hx]; [by rewrite Hin in Hx|by destruct E]|]. rewrite app_nil_r. split; [|done].
      destruct (decide (read_state v except = stored_state (prev_alarm_event a))) as [->|]; [done|by destruct E].
  - erewrite run_bind by done. erewrite run_bind by done. cbn [orb]. erewrite run_bind by done.
    replace (forallb _ _) with true by (symmetry; exact Hall). erewrite run_bind by (by apply push_all_run). eexists _, true. split; [done|]. split; [by split; [left|]|].
    split; [by apply store_alarm_state|done].
Qed.

(** ** Instances of the properties of events, and behaviours worth knowing *)
Local Open Scope string_scope.
Local Open Scope list_scope.
Local Open Scope Z_scope.

Definition no_last : LastAttrValue := mkLast false ATTR_VALID None false [] None.
Definition no_subs : Subscriptions := mkSubs 0 0 0 0 0 0 0 0 0 0.
(** An attribute with two clients of the change events and one of the alarm events. *)
Definition ev_attr (t : CmdArgType) (rel abs : option (Z * Z)) : EvAttr :=
  mkEvAttr t (criterion rel) (criterion abs) (criterion None) (criterion None) 1000 (2 ^ 31 - 1) no_subs
    no_last no_last no_last 0 0 0 0 0 [[5; 4]; []; []; []; []; []; []; []; []; [6]] [].
Definition sent_ok (p : EventPush) : outcome unit := Ok tt.

Lemma integer_changes_exact_witness :
  ∃ d, num_change DEV_SHORT (criterion (Some (-5, 5))) (criterion None) (int_elts [105; 7]) (int_elts [100; 7]) = Ok d ∧
    is_change d = moved_list (Some (-5, 5)) None [105; 7] [100; 7] ∧ force_change d = negb (2 =? 2)%nat.
Proof.
  apply (integer_changes_exact DEV_SHORT (Some (-5, 5)) None).
  - simpl. lia.
  - done.
  - intros _. repeat constructor; cbv; congruence.
Defined.

Definition three_readings : list (AttrQuality * list Z) := [(ATTR_VALID, [100]); (ATTR_VALID, [103]); (ATTR_VALID, [106])].
Lemma three_readings_good : good_readings DEV_SHORT (three_readings ++ [(ATTR_VALID, [108])]).
Proof.
  assert (∀ r, r ∈ three_readings ++ [(ATTR_VALID, [108])] → fst r = ATTR_VALID ∧ ∀ x, x ∈ snd r → 100 <= x <= 108) as H.
  { intros r Hr. repeat (apply elem_of_cons in Hr as [->|Hr]; [split; [done|]; intros x ->%list_elem_of_singleton; simpl; lia|]).
    by apply elem_of_nil in Hr. }
  split; [by intros r [-> _]%H|]. intros rs1 r rs2 r0 E H0. unfold exact. apply Forall_forall. intros [x y] Hxy.
  destruct (H r) as [_ H1]; [rewrite E; set_solver|]. destruct (H r0) as [_ H2]; [rewrite E; set_solver|].
  specialize (H1 x ltac:(by apply elem_of_zip_l in Hxy)). specialize (H2 y ltac:(by apply elem_of_zip_r in Hxy)).
  apply (no_wrap_narrow _ (true, 16)); [done|done| |]; apply (has_type_int DEV_SHORT (true, 16) _ eq_refl); unfold int_min, int_max; simpl; lia.
Qed.

Definition alarm_value : EvAttValue := mkEvAttValue ATTR_ALARM (EvSeq DEV_SHORT (int_elts [100])).
Lemma alarm_event_iff_witness :
  ∃ a' b, detect_and_push_alarm_event sent_ok (mkSupplied None None None (Some alarm_value)) None (ev_attr DEV_SHORT None None) = Some (a', inr b) ∧
    (b = true ↔ wants_alarm alarm_value None no_last) ∧
    stored_state (prev_alarm_event a') = read_state alarm_value None ∧
    pushed a' = [] ++ (if b then events (λ inc _, alarm_event (mkSupplied None None None (Some alarm_value)) None inc) [6] true else []).
Proof.
  apply (alarm_event_iff sent_ok _ alarm_value None (ev_attr DEV_SHORT None None)).
  - done.
  - done.
  - repeat constructor.
Defined.

(** ** Behaviours worth knowing *)

Definition changed (o : outcome Change) : option bool := match o with Ok c => Some (is_change c) | _ => None end.

(** An unsigned value that decreases, by however little, is always a change: the difference
    wraps around. *)
Example ulong_decrease :
  changed (num_change DEV_ULONG (criterion (Some (-10, 10))) (criterion None) (int_elts [999]) (int_elts [1000])) = Some true ∧
  moved (Some (-10, 10)) None 999 1000 = false.
Proof. by vm_compute. Qed.
(** An increase of half the value is missed: a hundred times the difference wraps around. *)
Example ulong_jump_missed :
  changed (num_change DEV_ULONG (criterion (Some (-10, 10))) (criterion None) (int_elts [1500000000]) (int_elts [1000000000])) = Some false ∧
  moved (Some (-10, 10)) None 1500000000 1000000000 = true.
Proof. by vm_compute. Qed.
(** The same product overflows for the signed integers. *)
Example long_overflow :
  num_change DEV_LONG (criterion (Some (-10, 10))) (criterion None) (int_elts [30000000]) (int_elts [1]) = Undef.
Proof. by vm_compute. Qed.
(** The percentage of integers is truncated: 0.9 % is 0 % for a threshold of a half. *)
Definition half : Num := F (S754_finite false 4503599627370496 (-53)).
Definition minus_half : Num := F (S754_finite true 4503599627370496 (-53)).
Example percentage_truncated :
  changed (num_change DEV_SHORT (minus_half, half) (criterion None) (int_elts [1009]) (int_elts [1000])) = Some false.
Proof. by vm_compute. Qed.
(** A value that comes back from infinity is not a change for a relative criterion. *)
Definition five : Num := F (binary_normalize 53 1024 5 0 false).
Example back_from_infinity :
  changed (num_change DEV_DOUBLE (criterion (Some (-10, 10))) (criterion None) [EltNum five] [EltNum (F (S754_infinity false))]) = Some false ∧
  changed (num_change DEV_DOUBLE (criterion (Some (-10, 10))) (criterion None) [EltNum (F (S754_infinity false))] [EltNum five]) = Some true.
Proof. by vm_compute. Qed.
(** Of a spectrum of enumerated values only the first element is compared. *)
Example enum_spectrum : is_change (enum_change (int_elts [1; 2]) (int_elts [1; 3])) = false.
Proof. reflexivity. Qed.
(** A client that did not renew its subscription is removed, and a change is still reported
    although nobody gets it. *)
Example change_for_nobody :
  match detect_and_push_events sent_ok (mkSupplied None None None (Some alarm_value)) None 0 1000 (ev_attr DEV_SHORT None None) with
  | Some (a, inr s) => s_change s = true ∧ get_client_lib CHANGE_EVENT a = [] ∧ pushed a = []
  | _ => False
  end.
Proof. by vm_compute. Qed.
