(* ===== verification/Monitor.v ===== *)
(** * The monitors of a server (src/src/include/tango/server/tango_monitor.h, auto_tango_monitor.cpp)

  A [TangoMonitor] is the lock that serializes the requests of the clients, the polling
  and the commands of the administrator: a mutex, a condition, the thread that has the
  monitor and how many times it took it.  A critical section of the mutex is one
  operation here; between them threads wait on the condition.  [step] is their
  interleaving: a signal wakes one waiter, a wait may end for no reason, and may time
  out.  [AutoTangoMonitor] takes the monitor the serialization model of the server chooses
  and releases it at the end of a block. *)
From stdpp Require Import pretty gmap fin_sets.
From S2P Require Import Prelude.
Local Open Scope string_scope.
Local Open Scope list_scope.
Local Open Scope Z_scope.

(** ** The operations *)

(** Threads are known by their identifier. *)
Abbreviation thread := nat.
Record TangoMonitor := mkMonitor { locking_thread : option thread; locked_ctr : Z; mon_name : string }.
Implicit Types m : TangoMonitor.

Definition NO_LOCKING_THREAD_ID : Z := -1.
Definition get_locking_thread_id m : Z :=
  match locking_thread m with Some th => Z.of_nat th | None => NO_LOCKING_THREAD_ID end.
Definition get_locking_ctr m : Z := locked_ctr m.

Inductive get_result := Acquired (m : TangoMonitor) | MustWait | TimedOut (e : exn).
Definition acquire (th : thread) m : get_result := Acquired (mkMonitor (Some th) (locked_ctr m + 1) (mon_name m)).

(** [get_monitor] up to the first wait. *)
Definition get_monitor (th : thread) m : get_result :=
  if locked_ctr m =? 0 then acquire th m
  else if negb (bool_decide (locking_thread m = Some th)) then
    if 0 <? locked_ctr m then MustWait else acquire th m
  else Acquired (mkMonitor (locking_thread m) (locked_ctr m + 1) (mon_name m)).

(** The rest of it: [wait] returned, [interupted] is false when it timed out. *)
Definition quote : string := String (Ascii.ascii_of_nat 34) EmptyString.
Definition resume (th : thread) (interupted : bool) m : get_result :=
  if negb interupted then
    TimedOut (DevFailed [mkDevError "API_CommandTimedOut" ERR
      ("Thread " +:+ pretty (Z.of_nat th) +:+ " is not able to acquire serialization monitor " +:+ quote +:+ mon_name m +:+ quote +:+
       ",  it is currently held by thread " +:+ pretty (get_locking_thread_id m) +:+ ".") "TangoMonitor::get_monitor"])
  else if 0 <? locked_ctr m then MustWait else acquire th m.

(** [rel_monitor]: nothing for a thread that does not have the monitor; the condition is
    signalled when the count reaches zero. *)
Definition rel_monitor (th : thread) m : TangoMonitor * bool :=
  if (locked_ctr m =? 0) || negb (bool_decide (locking_thread m = Some th)) then (m, false)
  else if locked_ctr m - 1 =? 0 then (mkMonitor None 0 (mon_name m), true)
  else (mkMonitor (locking_thread m) (locked_ctr m - 1) (mon_name m), false).

(** ** The interleavings *)

(** The threads that wait on the condition, and those that were woken and have not run yet. *)
Record MonSt := mkMonSt { the_mon : TangoMonitor; waiting : gset thread; woken : gset thread }.
Implicit Types s : MonSt.
Definition new_monitor (name : string) : MonSt := mkMonSt (mkMonitor None 0 name) ∅ ∅.

Inductive label := Got (th : thread) | Blocked (th : thread) | Gave_up (th : thread) (e : exn) | Released (th : thread) | Ignored (th : thread).

Definition running (th : thread) s : Prop := (th ∉ waiting s) ∧ (th ∉ woken s).

Inductive step (s : MonSt) : label → MonSt → Prop :=
  | step_get th m' : running th s → get_monitor th (the_mon s) = Acquired m' →
      step s (Got th) (mkMonSt m' (waiting s) (woken s))
  | step_wait th : running th s → get_monitor th (the_mon s) = MustWait →
      step s (Blocked th) (mkMonSt (the_mon s) (waiting s ∪ {[th]}) (woken s))
  | step_resume th m' : th ∈ woken s → resume th true (the_mon s) = Acquired m' →
      step s (Got th) (mkMonSt m' (waiting s) (woken s ∖ {[th]}))
  | step_wait_again th : th ∈ woken s → resume th true (the_mon s) = MustWait →
      step s (Blocked th) (mkMonSt (the_mon s) (waiting s ∪ {[th]}) (woken s ∖ {[th]}))
  | step_time_out th e : th ∈ waiting s → resume th false (the_mon s) = TimedOut e →
      step s (Gave_up th e) (mkMonSt (the_mon s) (waiting s ∖ {[th]}) (woken s))
  | step_spurious th : th ∈ waiting s →
      step s (Blocked th) (mkMonSt (the_mon s) (waiting s ∖ {[th]}) (woken s ∪ {[th]}))
  | step_release th m' : running th s → rel_monitor th (the_mon s) = (m', false) → m' ≠ the_mon s →
      step s (Released th) (mkMonSt m' (waiting s) (woken s))
  | step_signal th m' w : running th s → rel_monitor th (the_mon s) = (m', true) → w ∈ waiting s →
      step s (Released th) (mkMonSt m' (waiting s ∖ {[w]}) (woken s ∪ {[w]}))
  | step_signal_nobody th m' : running th s → rel_monitor th (the_mon s) = (m', true) → waiting s = ∅ →
      step s (Released th) (mkMonSt m' ∅ (woken s))
  | step_ignored th : running th s → rel_monitor th (the_mon s) = (the_mon s, false) →
      step s (Ignored th) s.

(** The states that a sequence of steps reaches, the last one first. *)
Inductive reaches (s0 : MonSt) : list label → MonSt → Prop :=
  | reach_start : reaches s0 [] s0
  | reach_step tr s l s' : reaches s0 tr s → step s l s' → reaches s0 (l :: tr) s'.

(** How many times a thread has taken the monitor and not released it. *)
Fixpoint nesting (th : thread) (tr : list label) : Z :=
  match tr with
  | [] => 0
  | Got th' :: tr => nesting th tr + (if decide (th' = th) then 1 else 0)
  | Released th' :: tr => nesting th tr - (if decide (th' = th) then 1 else 0)
  | _ :: tr => nesting th tr
  end.

(** ** The guards of a block *)

Inductive SerialModel := BY_DEVICE | BY_CLASS | BY_PROCESS | NO_SYNC.
(** The monitors of the process, of a class and of a device. *)
Inductive MonId := ProcessMon | ClassMon (c : nat) | DeviceMon (d : nat).
#[export] Instance MonId_eq : EqDecision MonId.
Proof. solve_decision. Defined.

Section Guards.
Context (ser : SerialModel) (class_of : nat → nat).

(** [AutoTangoMonitor] of a device, of a class, and [NoSyncModelTangoMonitor]. *)
Definition auto_tango_monitor (dev : nat) (force : bool) : option MonId :=
  match ser with
  | NO_SYNC => if force then Some (DeviceMon dev) else None
  | BY_DEVICE => Some (DeviceMon dev)
  | BY_CLASS => Some (ClassMon (class_of dev))
  | BY_PROCESS => Some ProcessMon
  end.
Definition auto_tango_monitor_class (dev_cl : nat) : option MonId :=
  match ser with
  | NO_SYNC | BY_DEVICE => None
  | BY_CLASS => Some (ClassMon dev_cl)
  | BY_PROCESS => Some ProcessMon
  end.
Definition no_sync_model_tango_monitor (dev : nat) : option MonId :=
  match ser with NO_SYNC => Some (DeviceMon dev) | _ => None end.

(** A server: its monitors, and the threads that are in a block guarded by one. *)
Record Server := mkServer { monitors : MonId → MonSt; trace : MonId → list label }.
Definition fresh_server (name : MonId → string) : Server := mkServer (λ i, new_monitor (name i)) (λ _, []).
Inductive server_step (v : Server) : Server → Prop :=
  | server_mon i l s' : step (monitors v i) l s' →
      server_step v (mkServer (λ j, if decide (j = i) then s' else monitors v j)
                              (λ j, if decide (j = i) then l :: trace v i else trace v j)).
Inductive server_reaches (v0 : Server) : Server → Prop :=
  | server_start : server_reaches v0 v0
  | server_next v v' : server_reaches v0 v → server_step v v' → server_reaches v0 v'.
(** A thread in a block on a device, guarded by an [AutoTangoMonitor]. *)
Definition in_block (th : thread) (dev : nat) (v : Server) : Prop :=
  match auto_tango_monitor dev false with Some i => 0 < nesting th (trace v i) | None => False end.
Definition serialized (d1 d2 : nat) : Prop :=
  match ser with BY_DEVICE => d1 = d2 | BY_CLASS => class_of d1 = class_of d2 | BY_PROCESS => True | NO_SYNC => False end.
End Guards.

(** ** Properties *)

Record mon_ok s : Prop := {
  ctr_nonneg : 0 <= locked_ctr (the_mon s);
  ctr_owner : locking_thread (the_mon s) = None ↔ locked_ctr (the_mon s) = 0;
  owner_runs : ∀ th, locking_thread (the_mon s) = Some th → running th s;
  wait_disjoint : waiting s ## woken s;
  no_lost_wake_up : locked_ctr (the_mon s) = 0 → waiting s = ∅ ∨ woken s ≠ ∅;
}.

Lemma get_monitor_run th m : 0 <= locked_ctr m →
  get_monitor th m = if bool_decide (locked_ctr m = 0 ∨ locking_thread m = Some th) then acquire th m else MustWait.
Proof.
  intros H. unfold get_monitor, acquire. destruct (Z.eqb_spec (locked_ctr m) 0) as [E|E].
  - by rewrite bool_decide_eq_true_2 by auto.
  - rewrite (proj2 (Z.ltb_lt _ _)) by lia. destruct (decide (locking_thread m = Some th)) as [Eo|Hn].
    + rewrite !bool_decide_eq_true_2 by auto. unfold acquire. by rewrite Eo.
    + rewrite (bool_decide_eq_false_2 (locking_thread m = Some th)) by done.
      by rewrite bool_decide_eq_false_2 by (by intros [?|?]).
Qed.
Lemma resume_run th m : 0 <= locked_ctr m →
  resume th true m = if bool_decide (locked_ctr m = 0) then acquire th m else MustWait.
Proof.
  intros H. unfold resume. cbn [negb]. destruct (Z.ltb_spec 0 (locked_ctr m)).
  - by rewrite bool_decide_eq_false_2 by lia.
  - by rewrite bool_decide_eq_true_2 by lia.
Qed.
Lemma rel_monitor_run th m : 0 <= locked_ctr m → (locking_thread m = None ↔ locked_ctr m = 0) →
  rel_monitor th m =
    if bool_decide (locking_thread m = Some th) then
      if locked_ctr m =? 1 then (mkMonitor None 0 (mon_name m), true)
      else (mkMonitor (Some th) (locked_ctr m - 1) (mon_name m), false)
    else (m, false).
Proof.
  intros H Ho. unfold rel_monitor. destruct (decide (locking_thread m = Some th)) as [E|E].
  - rewrite !bool_decide_eq_true_2 by done. rewrite orb_false_r. destruct (Z.eqb_spec (locked_ctr m) 0) as [Ez|Ez].
    { apply Ho in Ez. congruence. }
    destruct (Z.eqb_spec (locked_ctr m) 1), (Z.eqb_spec (locked_ctr m - 1) 0); try lia; [done|by rewrite E].
  - rewrite !bool_decide_eq_false_2 by done. by rewrite orb_true_r.
Qed.

(** What a step does to the monitor. *)
Lemma step_monitor s l s' : mon_ok s → step s l s' →
  match l with
  | Got th => (locked_ctr (the_mon s) = 0 ∨ locking_thread (the_mon s) = Some th) ∧
      locking_thread (the_mon s') = Some th ∧ locked_ctr (the_mon s') = locked_ctr (the_mon s) + 1
  | Released th => locking_thread (the_mon s) = Some th ∧ locked_ctr (the_mon s') = locked_ctr (the_mon s) - 1 ∧
      locking_thread (the_mon s') = (if decide (locked_ctr (the_mon s') = 0) then None else Some th)
  | _ => the_mon s' = the_mon s
  end.
Proof.
  intros Hok Hs. destruct Hok as [Hc Ho _ _ _].
  assert (∀ th m' b, rel_monitor th (the_mon s) = (m', b) → (m' ≠ the_mon s ∨ b = true) →
    locking_thread (the_mon s) = Some th ∧ locked_ctr m' = locked_ctr (the_mon s) - 1 ∧
    locking_thread m' = (if decide (locked_ctr m' = 0) then None else Some th)) as Hrel.
  { intros th m' b. rewrite rel_monitor_run by done. case_bool_decide as E; [|by intros [= <- <-] [?|?]].
    destruct (Z.eqb_spec (locked_ctr (the_mon s)) 1) as [E1|E1]; intros [= <- <-] _; simpl; rewrite ?E1; [done|].
    split; [done|]. split; [done|]. rewrite decide_False; [done|lia]. }
  destruct Hs as [th m' _ H|th _ H|th m' _ H|th _ H|th e _ H|th _|th m' _ H Hn|th m' w _ H _|th m' _ H _|th _ H]; simpl; try done.
  - rewrite get_monitor_run in H by done. case_bool_decide; [|done]. by injection H as <-.
  - rewrite resume_run in H by done. case_bool_decide; [|done]. injection H as <-. auto.
  - eapply Hrel; eauto.
  - eapply Hrel; eauto.
  - eapply Hrel; eauto.
Qed.

Lemma new_monitor_ok name : mon_ok (new_monitor name).
Proof. split; [done|done|done|set_solver|by left]. Qed.

Lemma step_ctr s l s' : mon_ok s → step s l s' →
  0 <= locked_ctr (the_mon s') ∧ (locking_thread (the_mon s') = None ↔ locked_ctr (the_mon s') = 0).
Proof.
  intros Hok Hs. pose proof (step_monitor s l s' Hok Hs) as Hm. destruct Hok as [Hc Ho _ _ _].
  destruct l as [th|th|th e|th|th]; try (by rewrite Hm).
  - destruct Hm as (_ & -> & ->). split; [lia|]. split; [done|lia].
  - destruct Hm as (Hl & -> & ->). rewrite Hl in Ho.
    assert (locked_ctr (the_mon s) ≠ 0) by (by intros ?%Ho). split; [lia|].
    by destruct (decide (locked_ctr (the_mon s) - 1 = 0)).
Qed.
Lemma step_owner_runs s l s' : mon_ok s → step s l s' → ∀ th, locking_thread (the_mon s') = Some th → running th s'.
Proof.
  intros Hok Hs th Hth. pose proof (step_monitor s l s' Hok Hs) as Hm. destruct Hok as [Hc Ho Hr Hd _]. unfold running in *.
  destruct Hs as [t m' Hrun H|t Hrun H|t m' Hin H|t Hin H|t e Hin H|t Hin|t m' Hrun H Hn|t m' w Hrun H Hin|t m' Hrun H He|t Hrun H];
    cbn [the_mon waiting woken] in *.
  - assert (th = t) as -> by (destruct Hm as (_ & Hm & _); congruence). done.
  - destruct (decide (th = t)) as [->|Hne]; [|specialize (Hr _ Hth); set_solver].
    rewrite get_monitor_run in H by done. case_bool_decide as E; [done|]. by destruct E; right.
  - assert (th = t) as -> by (destruct Hm as (_ & Hm & _); congruence). set_solver.
  - specialize (Hr _ Hth). set_solver.
  - specialize (Hr _ Hth). set_solver.
  - specialize (Hr _ Hth). set_solver.
  - destruct Hm as (_ & _ & H3). rewrite H3 in Hth. destruct (decide (_ = 0)); [done|]. assert (th = t) as -> by congruence. done.
  - destruct Hm as (_ & _ & H3). rewrite H3 in Hth. destruct (decide (_ = 0)); [done|]. assert (th = t) as -> by congruence.
    destruct Hrun as [H1 H2]. split; [by intros [? _]%elem_of_difference|]. intros [Hx| ->%elem_of_singleton]%elem_of_union; done.
  - destruct Hm as (_ & _ & H3). rewrite H3 in Hth. destruct (decide (_ = 0)); [done|]. assert (th = t) as -> by congruence.
    destruct Hrun as [H1 H2]. split; [by apply not_elem_of_empty|done].
  - by apply Hr.
Qed.
Lemma step_no_lost_wake_up s l s' : mon_ok s → step s l s' →
  locked_ctr (the_mon s') = 0 → waiting s' = ∅ ∨ woken s' ≠ ∅.
Proof.
  intros Hok Hs H0. pose proof (step_monitor s l s' Hok Hs) as Hm. destruct Hok as [Hc Ho _ _ Hw].
  destruct Hs as [t m' _ H|t _ H|t m' Hin H|t Hin H|t e Hin H|t Hin|t m' _ H Hn|t m' w _ H Hin|t m' _ H He|t _ H];
    cbn [the_mon waiting woken] in *.
  - lia.
  - rewrite get_monitor_run in H by done. rewrite bool_decide_eq_true_2 in H by auto. done.
  - lia.
  - rewrite resume_run in H by done. by rewrite bool_decide_eq_true_2 in H.
  - destruct (Hw H0) as [->|?]; [left; set_solver|by right].
  - right. set_solver.
  - rewrite rel_monitor_run in H by done. case_bool_decide; [|by injection H as <-].
    destruct (Z.eqb_spec (locked_ctr (the_mon s)) 1); [done|]. injection H as <-. simpl in H0. lia.
  - right. set_solver.
  - by left.
  - by apply Hw.
Qed.

Lemma step_ok s l s' : mon_ok s → step s l s' → mon_ok s'.
Proof.
  intros Hok Hs. destruct (step_ctr s l s' Hok Hs). split; [done|done| | |].
  - by eapply step_owner_runs.
  - destruct Hok as [_ _ _ Hd _]. destruct Hs; unfold running in *; cbn [waiting woken] in *; set_solver.
  - by eapply step_no_lost_wake_up.
Qed.
Lemma reaches_ok s0 tr s : mon_ok s0 → reaches s0 tr s → mon_ok s.
Proof. intros H0 Hr. induction Hr as [|tr s l s' _ IH Hs]; [done|]. by eapply step_ok. Qed.

(** What a thread holds is what it took and did not release. *)
Lemma nesting_owner name tr s th : reaches (new_monitor name) tr s →
  nesting th tr = if decide (locking_thread (the_mon s) = Some th) then locked_ctr (the_mon s) else 0.
Proof.
  intros Hr. induction Hr as [|tr s l s' Hr IH Hs]; [done|].
  pose proof (reaches_ok _ _ _ (new_monitor_ok name) Hr) as Hok. pose proof (step_monitor _ _ _ Hok Hs) as Hm.
  pose proof (ctr_owner _ Hok) as Ho. destruct l as [t|t|t e|t|t]; simpl; try (by rewrite IH, Hm).
  - destruct Hm as (H1 & H2 & H3). rewrite IH, H2, H3. destruct (decide (t = th)) as [->|Hne].
    + rewrite (decide_True (P := Some th = Some th)) by done. case_decide; [done|]. destruct H1; [lia|done].
    + rewrite (decide_False (P := Some t = Some th)) by congruence. case_decide as E; [|lia].
      destruct H1 as [H1|H1]; [|congruence]. apply Ho in H1. congruence.
  - destruct Hm as (H1 & H2 & H3). rewrite IH, H1, H3. destruct (decide (t = th)) as [->|Hne].
    + rewrite (decide_True (P := Some th = Some th)) by done. destruct (decide (locked_ctr (the_mon s') = 0)).
      * rewrite decide_False by done. lia.
      * rewrite decide_True by done. lia.
    + rewrite (decide_False (P := Some t = Some th)) by congruence. rewrite decide_False; [lia|].
      destruct (decide (_ = 0)); congruence.
Qed.

(** C31: Whatever the interleaving of the threads, spurious wake-ups and time-outs included, a
    thread that took a monitor more times than it released it is the only one, and the count of the
    monitor is how many.  And the release of a monitor is not lost: as long as it is free and
    threads wait on its condition, another one was woken and has not run since, and it takes the
    monitor if it is the next to run.  (A thread whose wait is over by its time-out gives up, also
    when the monitor is free: see [gives_up_free_monitor].) *)
Theorem monitor_excludes name tr s :
  reaches (new_monitor name) tr s →
  (∀ t1 t2, 0 < nesting t1 tr → 0 < nesting t2 tr → t1 = t2) ∧
  (∀ th, 0 < nesting th tr → get_locking_ctr (the_mon s) = nesting th tr ∧ get_locking_thread_id (the_mon s) = Z.of_nat th) ∧
  (get_locking_ctr (the_mon s) = 0 → waiting s ≠ ∅ →
    ∃ th s', th ∈ woken s ∧ step s (Got th) s' ∧ get_locking_thread_id (the_mon s') = Z.of_nat th ∧ woken s' = woken s ∖ {[th]}).
Proof.
  intros Hr. pose proof (reaches_ok _ _ _ (new_monitor_ok name) Hr) as Hok. split_and!.
  - intros t1 t2. rewrite !(nesting_owner name tr s) by done. do 2 (case_decide; [|lia]). congruence.
  - intros th. rewrite (nesting_owner name tr s) by done. case_decide as E; [|lia]. intros _.
    unfold get_locking_thread_id. by rewrite E.
  - intros H0 Hw. destruct (no_lost_wake_up _ Hok H0) as [?|Hne]; [done|].
    apply set_choose_L in Hne as [th Hth]. eexists th, _. split; [done|]. split; [|split].
    + eapply step_resume; [done|]. rewrite resume_run by apply Hok. by rewrite bool_decide_eq_true_2.
    + done.
    + done.
Qed.

(** ** Guarded blocks *)

Section ServerGuards.
Context (ser : SerialModel) (class_of : nat → nat) (name : MonId → string).

Lemma server_reaches_mon v i : server_reaches (fresh_server name) v → reaches (new_monitor (name i)) (trace v i) (monitors v i).
Proof.
  intros Hr. induction Hr as [|v v' _ IH [j l s' Hs]]; [apply reach_start|]. cbn [trace monitors].
  case_decide as E; [|done]. subst j. by eapply reach_step.
Qed.

(** Two threads are never at the same time in guarded blocks that the serialization model of the server
    serializes: on the same device, on devices of the same class, or on any two devices. *)
Theorem blocks_serialized v d1 d2 t1 t2 :
  server_reaches (fresh_server name) v → serialized ser class_of d1 d2 →
  in_block ser class_of t1 d1 v → in_block ser class_of t2 d2 v → t1 = t2.
Proof.
  intros Hr Hser. unfold in_block, auto_tango_monitor, serialized in *.
  assert (∀ i, 0 < nesting t1 (trace v i) → 0 < nesting t2 (trace v i) → t1 = t2) as Hi.
  { intros i. pose proof (server_reaches_mon v i Hr) as Hm. rewrite !(nesting_owner (name i) _ _ _ Hm).
    do 2 (case_decide; [|lia]). congruence. }
  destruct ser; [by subst d2; apply Hi|rewrite Hser; apply Hi|apply Hi|done].
Qed.
End ServerGuards.

(** ** On concrete threads *)

Lemma start_running s : waiting s = ∅ → woken s = ∅ → ∀ th, running th s.
Proof. intros H1 H2 th. unfold running. by rewrite H1, H2. Qed.

(** Thread 1 takes the monitor twice. *)
Lemma taken_twice : reaches (new_monitor "m") [Got 1%nat; Got 1%nat] (mkMonSt (mkMonitor (Some 1%nat) 2 "m") ∅ ∅).
Proof.
  apply (reach_step _ _ (mkMonSt (mkMonitor (Some 1%nat) 1 "m") ∅ ∅)).
  - apply (reach_step _ _ (new_monitor "m")); [constructor|].
    apply (step_get (new_monitor "m") 1%nat (mkMonitor (Some 1%nat) 1 "m")); [by apply start_running|done].
  - apply (step_get (mkMonSt (mkMonitor (Some 1%nat) 1 "m") ∅ ∅) 1%nat (mkMonitor (Some 1%nat) 2 "m")); [by apply start_running|done].
Qed.
(** Thread 1 has the monitor, 2 and 3 wait for it; it is released, and 2 is woken. *)
Definition ex_free : MonSt := mkMonSt (mkMonitor None 0 "m") ({[3%nat; 2%nat]} ∖ {[2%nat]}) (∅ ∪ {[2%nat]}).
Definition ex_trace : list label := [Released 1%nat; Blocked 3%nat; Blocked 2%nat; Got 1%nat].
Lemma released_to_waiters : reaches (new_monitor "m") ex_trace ex_free.
Proof.
  set (m1 := mkMonitor (Some 1%nat) 1 "m"). unfold ex_trace, ex_free.
  apply (reach_step _ _ (mkMonSt m1 {[3%nat; 2%nat]} ∅)).
  - assert (mkMonSt m1 {[3%nat; 2%nat]} ∅ = mkMonSt m1 (∅ ∪ {[2%nat]} ∪ {[3%nat]}) ∅) as -> by (f_equal; set_solver).
    apply (reach_step _ _ (mkMonSt m1 (∅ ∪ {[2%nat]}) ∅)); [apply (reach_step _ _ (mkMonSt m1 ∅ ∅))|].
    + apply (reach_step _ _ (new_monitor "m")); [constructor|].
      apply (step_get (new_monitor "m") 1%nat m1); [by apply start_running|done].
    + refine (step_wait (mkMonSt m1 ∅ ∅) 2%nat _ _); [by apply start_running|done].
    + refine (step_wait (mkMonSt m1 (∅ ∪ {[2%nat]}) ∅) 3%nat _ _); [split; cbn; set_solver|done].
  - refine (step_signal (mkMonSt m1 {[3%nat; 2%nat]} ∅) 1%nat (mkMonitor None 0 "m") 2%nat _ _ _); [split; cbn; set_solver|done|cbn; set_solver].
Qed.
Lemma monitor_excludes_witness :
  (∀ t1 t2, 0 < nesting t1 ex_trace → 0 < nesting t2 ex_trace → t1 = t2) ∧
  ∃ th s', th ∈ woken ex_free ∧ step ex_free (Got th) s' ∧ get_locking_thread_id (the_mon s') = Z.of_nat th ∧ woken s' = woken ex_free ∖ {[th]}.
Proof.
  destruct (monitor_excludes "m" ex_trace ex_free released_to_waiters) as (H1 & _ & H2). split; [exact H1|].
  apply H2; [reflexivity|]. intros E. assert (3%nat ∈ waiting ex_free) as H by (cbn; set_solver). rewrite E in H. set_solver.
Defined.

(** Thread 1 in a block on device 0, with one monitor for each class. *)
Definition class_server : Server :=
  mkServer (λ j, if decide (j = ClassMon 7) then mkMonSt (mkMonitor (Some 1%nat) 1 "m") ∅ ∅ else new_monitor "m")
           (λ j, if decide (j = ClassMon 7) then [Got 1%nat] else []).
Lemma class_server_reached : server_reaches (fresh_server (λ _, "m")) class_server.
Proof.
  eapply server_next; [apply server_start|].
  apply (server_mon (fresh_server (λ _, "m")) (ClassMon 7) (Got 1%nat) (mkMonSt (mkMonitor (Some 1%nat) 1 "m") ∅ ∅)).
  apply (step_get (new_monitor "m") 1%nat (mkMonitor (Some 1%nat) 1 "m")); [by apply start_running|done].
Qed.
Lemma blocks_serialized_witness :
  in_block BY_CLASS (λ _, 7%nat) 1 0 class_server ∧ in_block BY_CLASS (λ _, 7%nat) 1 3 class_server ∧
  serialized BY_CLASS (λ _, 7%nat) 0 3 ∧ 1%nat = 1%nat.
Proof.
  split_and!; [done|done|done|].
  apply (blocks_serialized BY_CLASS (λ _, 7%nat) (λ _, "m") class_server 0%nat 3%nat).
  - exact class_server_reached.
  - done.
  - done.
  - done.
Defined.

(** A thread that times out after the monitor was released, and before the thread that was woken
    runs, gives up although nobody has the monitor: the wait is not followed by a test. *)
Example gives_up_free_monitor :
  let m1 := mkMonitor (Some 1%nat) 1 "m" in let m0 := mkMonitor None 0 "m" in
  ∃ e, step (mkMonSt m1 {[3%nat; 2%nat]} ∅) (Released 1%nat) (mkMonSt m0 ({[3%nat; 2%nat]} ∖ {[2%nat]}) (∅ ∪ {[2%nat]})) ∧
    step (mkMonSt m0 ({[3%nat; 2%nat]} ∖ {[2%nat]}) (∅ ∪ {[2%nat]})) (Gave_up 3%nat e)
         (mkMonSt m0 ({[3%nat; 2%nat]} ∖ {[2%nat]} ∖ {[3%nat]}) (∅ ∪ {[2%nat]})).
Proof.
  intros m1 m0. eexists. split.
  - refine (step_signal (mkMonSt m1 {[3%nat; 2%nat]} ∅) 1%nat m0 2%nat _ _ _); [split; cbn; set_solver|done|cbn; set_solver].
  - refine (step_time_out (mkMonSt m0 ({[3%nat; 2%nat]} ∖ {[2%nat]}) (∅ ∪ {[2%nat]})) 3%nat _ _ _); [cbn; set_solver|done].
Qed.
