(* ===== verification/BlackBox.v ===== *)
(** * The black box of a device (src/src/server/blackbox.cpp, blackbox.h)

  The black box keeps the last requests a device received, with their date and their
  origin, in a circular vector whose elements are reused; [read] returns the newest ones as
  texts.  An element has a field for each kind of request: those of another kind keep what
  an earlier request left.  The origin is a buffer of characters, of which [strcpy] changes
  the beginning only; it is the address of the client, or a word for the threads of the
  server.  The names of hosts ([getnameinfo]) and the text of a date in the time zone of
  the host are parameters. *)
From Stdlib Require Import Ascii.
From stdpp Require Import pretty.
From S2P Require Import Prelude CppString Locking.
Local Open Scope string_scope.
Local Open Scope list_scope.
Local Open Scope Z_scope.

(** ** Data *)

Inductive BlackBoxElt_ReqType := Req_Unknown | Req_Operation | Req_Attribute.
Inductive BlackBoxElt_AttrType := Attr_Unknown | Attr_Name | Attr_Description | Attr_State | Attr_Status | Attr_AdmName.
Inductive BlackBoxElt_OpType :=
  | Op_Unknown | Op_Command_inout | Op_BlackBox | Op_Ping | Op_Info | Op_Command_list | Op_Command
  | Op_Get_Attr_Config | Op_Set_Attr_Config | Op_Read_Attr | Op_Write_Attr | Op_Command_inout_2 | Op_Command_list_2
  | Op_Command_2 | Op_Get_Attr_Config_2 | Op_Read_Attr_2 | Op_Command_inout_history_2 | Op_Read_Attr_history_2
  | Op_Read_Attr_3 | Op_Write_Attr_3 | Op_Read_Attr_history_3 | Op_Info_3 | Op_Get_Attr_Config_3 | Op_Set_Attr_Config_3
  | Op_Read_Attr_history_4 | Op_Command_inout_history_4 | Op_Command_inout_4 | Op_Write_Attr_4 | Op_Read_Attr_4
  | Op_Set_Attr_Config_4 | Op_Write_Read_Attributes_4 | Op_Get_Attr_Config_5 | Op_Set_Attr_Config_5 | Op_Read_Attr_5
  | Op_Write_Read_Attributes_5 | Op_Read_Attr_history_5 | Op_Get_Pipe_Config_5 | Op_Set_Pipe_Config_5 | Op_Read_Pipe_5
  | Op_Write_Pipe_5 | Op_Write_Read_Pipe_5 | Op_Info_6.
Inductive DevSource := DEV | CACHE | CACHE_DEV.

Record BlackBoxElt := mkBBElt {
  req_type : BlackBoxElt_ReqType;
  attr_type : BlackBoxElt_AttrType;
  op_type : BlackBoxElt_OpType;
  cmd_name : string;
  attr_names : list string;
  when_date : Z;
  host_ip_str : string;
  source : DevSource;
  elt_ident : bool;
  elt_lang : LockerLanguage;
  elt_pid : Z;
  elt_main_class : string;
}.
Implicit Types e : BlackBoxElt.

(** The constructor leaves the buffer undefined after its first character; [source] and the
    identity are not initialised either, and are set before they are used. *)
Definition NUL : string := String "000"%char "".
Definition BlackBoxElt_new : BlackBoxElt :=
  mkBBElt Req_Unknown Attr_Unknown Op_Unknown "" [] 0 NUL DEV false CPP 0 "".

Record BlackBox := mkBlackBox { box : list BlackBoxElt; insert_elt : Z; nb_elt : Z; max_elt : Z }.
Implicit Types b : BlackBox.
Definition DefaultBlackBoxDepth : Z := 50.
Definition BlackBox_new (max_size : Z) : BlackBox := mkBlackBox (replicate (Z.to_nat max_size) BlackBoxElt_new) 0 0 max_size.

(** The thread that makes a request: the client it serves, if any, whether it is a polling
    thread, and whether the server is starting. *)
Record Caller := mkCaller { client_info : option client_addr; polling_thread : bool; svr_starting : bool }.
Implicit Types c : Caller.

(** The identification a client sends. *)
Inductive ClntIdent :=
  | CppClnt (pid : Z)
  | CppClnt_6 (pid : Z)
  | JavaClnt (main_class : string) (uuid : Z * Z)
  | JavaClnt_6 (main_class : string) (uuid : Z * Z).

(** ** Origin of a request *)

(** A copy to a buffer, its text, and one of its characters. *)
Definition strcpy (s buf : string) : string := s +:+ NUL +:+ str_drop (len s + 1) buf.
Fixpoint c_str (buf : string) : string :=
  match buf with
  | "" => ""
  | String a buf => if Ascii.eqb a "000"%char then "" else String a (c_str buf)
  end.
Definition char_at (i : nat) (buf : string) : outcome Ascii.ascii := deref (String.get i buf).

Definition get_client_host c : string :=
  match client_info c with
  | Some ip => client_ip ip
  | None =>
      if svr_starting c then if polling_thread c then "polling" else "init"
      else if polling_thread c then "polling" else "user thread"
  end.

Definition cut_at_space (client_ip : string) : string :=
  if bool_decide (is_Some (find ":unix:" client_ip 0)) then
    match find " " client_ip 0 with Some pos => str_take pos client_ip | None => client_ip end
  else client_ip.
Definition add_cl_ident (cl_ident : ClntIdent) (a : client_addr) : client_addr :=
  match cl_ident with
  | CppClnt pid => mkClient true (cut_at_space (client_ip a)) CPP pid (java_main_class a) (java_ident a)
  | CppClnt_6 pid => mkClient true (cut_at_space (client_ip a)) CPP_6 pid (java_main_class a) (java_ident a)
  | JavaClnt m u => mkClient true (client_ip a) JAVA (client_pid a) m u
  | JavaClnt_6 m u => mkClient true (client_ip a) JAVA_6 (client_pid a) m u
  end.

(** ** Insertions *)

Definition inc_indexes b : BlackBox :=
  let i := insert_elt b + 1 in
  let i := if i =? max_elt b then 0 else i in
  mkBlackBox (box b) i (if negb (nb_elt b =? max_elt b) then nb_elt b + 1 else nb_elt b) (max_elt b).

(** The fields that are not those of the kind of request. *)
Definition stamp (now : Z) c e : BlackBoxElt :=
  mkBBElt (req_type e) (attr_type e) (op_type e) (cmd_name e) (attr_names e) now (strcpy (get_client_host c) (host_ip_str e))
    (source e) (elt_ident e) (elt_lang e) (elt_pid e) (elt_main_class e).
Definition put (fill : BlackBoxElt → BlackBoxElt) (now : Z) c b : outcome BlackBox :=
  e ← vget (box b) (insert_elt b);
  l ← vset (box b) (insert_elt b) (stamp now c (fill e));
  Ok (inc_indexes (mkBlackBox l (insert_elt b) (nb_elt b) (max_elt b))).

(** [update_client_host], and the identification of the client after an insertion: nothing
    for the threads of the server, known by the first character of the origin. *)
Definition identified (ip : client_addr) e : BlackBoxElt :=
  mkBBElt (req_type e) (attr_type e) (op_type e) (cmd_name e) (attr_names e) (when_date e) (host_ip_str e) (source e)
    true (client_lang ip) (client_pid ip) (java_main_class ip).
Definition update_client_host (ip : client_addr) b : outcome BlackBox :=
  let i := if insert_elt b =? 0 then max_elt b - 1 else insert_elt b - 1 in
  e ← vget (box b) i;
  l ← vset (box b) i (identified ip e);
  Ok (mkBlackBox l (insert_elt b) (nb_elt b) (max_elt b)).
Definition server_thread (buf : string) : outcome bool :=
  a ← char_at 0 buf; Ok (Ascii.eqb a "p" || Ascii.eqb a "u" || Ascii.eqb a "i").
Definition identify (cl_id : ClntIdent) c (old_insert : Z) b : outcome (BlackBox * option client_addr) :=
  e ← vget (box b) old_insert;
  server ← server_thread (host_ip_str e);
  if (server : bool) then Ok (b, client_info c)
  else
    ip ← deref (client_info c);
    let ip := add_cl_ident cl_id ip in
    b ← update_client_host ip b;
    Ok (b, Some ip).
Definition put_ident (fill : BlackBoxElt → BlackBoxElt) (cl_id : ClntIdent) (now : Z) c b : outcome (BlackBox * option client_addr) :=
  let old_insert := insert_elt b in
  b ← put fill now c b;
  identify cl_id c old_insert b.

(** The fields of each kind of request. *)
Definition fill_attr (attr : BlackBoxElt_AttrType) e : BlackBoxElt :=
  mkBBElt Req_Attribute attr Op_Unknown (cmd_name e) (attr_names e) (when_date e) (host_ip_str e) (source e) false (elt_lang e) (elt_pid e) (elt_main_class e).
Definition fill_cmd (cmd : string) (vers : Z) (sour : DevSource) e : BlackBoxElt :=
  mkBBElt Req_Operation Attr_Unknown
    (if vers =? 1 then Op_Command_inout else if vers <=? 3 then Op_Command_inout_2 else Op_Command_inout_4)
    cmd (attr_names e) (when_date e) (host_ip_str e) sour false (elt_lang e) (elt_pid e) (elt_main_class e).
Definition fill_op (op : BlackBoxElt_OpType) e : BlackBoxElt :=
  mkBBElt Req_Operation Attr_Unknown op (cmd_name e) (attr_names e) (when_date e) (host_ip_str e) (source e) false (elt_lang e) (elt_pid e) (elt_main_class e).
(** The switch has no case for the versions above 4. *)
Definition fill_read (names : list string) (vers : Z) (sour : DevSource) e : BlackBoxElt :=
  mkBBElt Req_Operation Attr_Unknown
    (if vers =? 1 then Op_Read_Attr else if vers =? 2 then Op_Read_Attr_2 else if vers =? 3 then Op_Read_Attr_3
     else if vers =? 4 then Op_Read_Attr_4 else op_type e)
    (cmd_name e) names (when_date e) (host_ip_str e) sour false (elt_lang e) (elt_pid e) (elt_main_class e).
Definition fill_read_4 (names : list string) (vers : Z) (sour : DevSource) e : BlackBoxElt :=
  mkBBElt Req_Operation Attr_Unknown (if 5 <=? vers then Op_Read_Attr_5 else Op_Read_Attr_4)
    (cmd_name e) names (when_date e) (host_ip_str e) sour false (elt_lang e) (elt_pid e) (elt_main_class e).
Definition fill_pipe (op : BlackBoxElt_OpType) (name : string) e : BlackBoxElt :=
  mkBBElt Req_Operation Attr_Unknown op (cmd_name e) [name] (when_date e) (host_ip_str e) (source e) false (elt_lang e) (elt_pid e) (elt_main_class e).
Definition fill_write (names : list string) (vers : Z) e : BlackBoxElt :=
  mkBBElt Req_Operation Attr_Unknown
    (if vers =? 1 then Op_Write_Attr else if vers <? 4 then Op_Write_Attr_3 else Op_Write_Attr_4)
    (cmd_name e) names (when_date e) (host_ip_str e) (source e) false (elt_lang e) (elt_pid e) (elt_main_class e).
(** These two leave the flag of the identification as it was. *)
Definition fill_write_4 (names : list string) e : BlackBoxElt :=
  mkBBElt Req_Operation Attr_Unknown Op_Write_Attr_4
    (cmd_name e) names (when_date e) (host_ip_str e) (source e) (elt_ident e) (elt_lang e) (elt_pid e) (elt_main_class e).
Definition fill_write_read (w_names r_names : list string) (vers : Z) e : BlackBoxElt :=
  mkBBElt Req_Operation Attr_Unknown (if 5 <=? vers then Op_Write_Read_Attributes_5 else Op_Write_Read_Attributes_4)
    (cmd_name e) (w_names ++ ["/"] ++ r_names) (when_date e) (host_ip_str e) (source e) (elt_ident e) (elt_lang e) (elt_pid e) (elt_main_class e).

Definition insert_corba_attr (attr : BlackBoxElt_AttrType) := put (fill_attr attr).
Definition insert_cmd (cmd : string) (vers : Z) (sour : DevSource) := put (fill_cmd cmd vers sour).
Definition insert_cmd_cl_ident (cmd : string) (cl_id : ClntIdent) (vers : Z) (sour : DevSource) := put_ident (fill_cmd cmd vers sour) cl_id.
Definition insert_op (op : BlackBoxElt_OpType) := put (fill_op op).
Definition insert_op_ident (op : BlackBoxElt_OpType) (cl_id : ClntIdent) := put_ident (fill_op op) cl_id.
Definition insert_attr (names : list string) (vers : Z) (sour : DevSource) := put (fill_read names vers sour).
Definition insert_attr_ident (names : list string) (cl_id : ClntIdent) (vers : Z) (sour : DevSource) := put_ident (fill_read_4 names vers sour) cl_id.
Definition insert_pipe (name : string) (cl_id : ClntIdent) := put_ident (fill_pipe Op_Read_Pipe_5 name) cl_id.
Definition insert_pipe_val (name : string) (cl_id : ClntIdent) (vers : Z) :=
  put_ident (fill_pipe (if vers =? 0 then Op_Write_Pipe_5 else Op_Write_Read_Pipe_5) name) cl_id.
Definition insert_attr_val (names : list string) (vers : Z) := put (fill_write names vers).
Definition insert_attr_val_4 (names : list string) (cl_id : ClntIdent) := put_ident (fill_write_4 names) cl_id.
Definition insert_wr_attr (w_names r_names : list string) (cl_id : ClntIdent) (vers : Z) := put_ident (fill_write_read w_names r_names vers) cl_id.

(** ** Texts *)

Definition add_source e : string :=
  match source e with DEV => "device " | CACHE => "cache " | CACHE_DEV => "cache_device " end.
Fixpoint names_text (l : list string) : string :=
  match l with
  | [] => ""
  | [x] => x
  | x :: l => x +:+ ", " +:+ names_text l
  end.
Fixpoint write_read_text (l : list string) : string :=
  match l with
  | [] => ""
  | x :: l =>
      x +:+ (match l with
             | y :: _ => if negb (bool_decide (x = "/")) && negb (bool_decide (y = "/")) then ", " else ""
             | [] => ""
             end) +:+ write_read_text l
  end.
Definition with_cmd (op : string) e : string := op +:+ " (cmd = " +:+ cmd_name e +:+ ") from " +:+ add_source e.
Definition with_names (op : string) e : string := op +:+ " (" +:+ names_text (attr_names e) +:+ ") ".
Definition with_names_from (op : string) e : string := with_names op e +:+ "from " +:+ add_source e.

(** The operation; an unknown one ends the text. *)
Definition op_text e : string + string :=
  match op_type e with
  | Op_Command_inout => inr (with_cmd "command_inout" e)
  | Op_Ping => inr "ping "
  | Op_Info => inr "info "
  | Op_BlackBox => inr "blackbox "
  | Op_Command_list => inr "command_list_query "
  | Op_Command => inr "command_query "
  | Op_Get_Attr_Config => inr "get_attribute_config "
  | Op_Set_Attr_Config => inr "set_attribute_config "
  | Op_Read_Attr => inr (with_names_from "read_attributes" e)
  | Op_Write_Attr => inr (with_names "write_attributes" e)
  | Op_Write_Attr_3 => inr (with_names "write_attributes_3" e)
  | Op_Command_inout_2 => inr (with_cmd "command_inout_2" e)
  | Op_Command_list_2 => inr "command_list_query_2 "
  | Op_Command_2 => inr "command_query_2 "
  | Op_Get_Attr_Config_2 => inr "get_attribute_config_2 "
  | Op_Read_Attr_2 => inr (with_names_from "read_attributes_2" e)
  | Op_Read_Attr_3 => inr (with_names_from "read_attributes_3" e)
  | Op_Command_inout_history_2 => inr "command_inout_history_2 "
  | Op_Read_Attr_history_2 => inr "read_attribute_history_2 "
  | Op_Read_Attr_history_3 => inr "read_attribute_history_3 "
  | Op_Info_3 => inr "info_3 "
  | Op_Get_Attr_Config_3 => inr "get_attribute_config_3 "
  | Op_Set_Attr_Config_3 => inr "set_attribute_config_3 "
  | Op_Read_Attr_history_4 => inr "read_attribute_history_4 "
  | Op_Command_inout_history_4 => inr "command_inout_history_4 "
  | Op_Command_inout_4 => inr (with_cmd "command_inout_4" e)
  | Op_Read_Attr_4 => inr (with_names_from "read_attributes_4" e)
  | Op_Write_Attr_4 => inr (with_names "write_attributes_4" e)
  | Op_Set_Attr_Config_4 => inr "set_attribute_config_4 "
  | Op_Write_Read_Attributes_4 => inr (with_names "write_read_attributes_4" e)
  | Op_Get_Attr_Config_5 => inr "get_attribute_config_5 "
  | Op_Set_Attr_Config_5 => inr "set_attribute_config_5 "
  | Op_Read_Attr_5 => inr (with_names_from "read_attributes_5" e)
  | Op_Write_Read_Attributes_5 => inr ("write_read_attributes_5 (" +:+ write_read_text (attr_names e) +:+ ") ")
  | Op_Read_Attr_history_5 => inr "read_attribute_history_5 "
  | Op_Get_Pipe_Config_5 => inr "get_pipe_config_5 "
  | Op_Set_Pipe_Config_5 => inr "set_pipe_config_5 "
  | Op_Read_Pipe_5 => inr (with_names "read_pipe_5" e)
  | Op_Write_Pipe_5 => inr (with_names "write_pipe_5" e)
  | Op_Write_Read_Pipe_5 => inr (with_names "write_read_pipe_5" e)
  | Op_Info_6 => inr "info_6 "
  | Op_Unknown => inl "unknown operation !!!!!"
  end.
Definition attr_text e : string + string :=
  match attr_type e with
  | Attr_Name => inr "name "
  | Attr_Description => inr "description "
  | Attr_Status => inr "status "
  | Attr_State => inr "state "
  | Attr_AdmName => inr "adm_name "
  | Attr_Unknown => inl "unknown attribute !!!!!"
  end.

(** The IP numbers of an address of omniORB (giop:tcp:xx.yy.zz.kk:port, or the IPv6 form of
    an IPv4 address in brackets). *)
Definition next_colon (s : string) (pos : nat) : option nat := S <$> find ":" s pos.
Definition next_dot (s : string) (pos : nat) : option nat := S <$> find "." s pos.
Definition ip_numbers (omni_addr : string) : option string :=
  pos ← next_colon omni_addr 0;
  pos ← next_colon omni_addr pos;
  let ip_str := str_drop pos omni_addr in
  full ← (if bool_decide (String.get 0 ip_str = Some "["%char) then
            pos ← next_colon ip_str 0;
            pos ← next_colon ip_str pos;
            pos ← next_colon ip_str pos;
            let tmp_ip := str_drop pos ip_str in
            pos ← find "]" tmp_ip 0;
            Some (str_take pos tmp_ip)
          else pos ← find ":" ip_str 0; Some (str_take pos ip_str));
  pos ← next_dot full 0;
  pos ← next_dot full pos;
  pos ← next_dot full pos;
  Some full.

Section Texts.
(** The date in the time zone of the host, [getnameinfo], and the name of the host. *)
Context (localtime_text : Z → string) (host_name_of : string → option string) (tg_host_name : string).

(** [timestamp_unix_to_str], of nanoseconds: the last digit of the milliseconds is cut. *)
Definition three_digits (n : Z) : string :=
  if n <? 10 then "00" +:+ pretty n else if n <? 100 then "0" +:+ pretty n else pretty n.
Definition pop_back (s : string) : string := str_take (len s - 1) s.
Definition timestamp_unix_to_str (ux_date : Z) : string :=
  pop_back (localtime_text (ux_date `div` 1000000000) +:+ ":" +:+ three_digits ((ux_date `div` 1000000) mod 1000)).

Definition ident_text e : string :=
  if elt_ident e then
    if bool_decide (elt_lang e = CPP) || bool_decide (elt_lang e = CPP_6) then
      " (CPP/Python client with PID " +:+ pretty (elt_pid e) +:+ ")"
    else " (Java client with main class " +:+ elt_main_class e +:+ ")"
  else "".

(** The origin; nothing when the address is badly formed. *)
Definition origin_text e : outcome string :=
  let buf := host_ip_str e in
  a ← char_at 0 buf;
  remote ← (if negb (Ascii.eqb a "000") && negb (Ascii.eqb a "p") then
              f ← char_at 5 buf;
              Ok (negb (Ascii.eqb f "u") && negb (Ascii.eqb a "i") && negb (Ascii.eqb a "u") && negb (Ascii.eqb a "c"))
            else Ok false);
  if (remote : bool) then
    Ok (match ip_numbers (c_str buf) with
        | None => ""
        | Some full_ip => "requested from " +:+ default full_ip (host_name_of full_ip) +:+ ident_text e
        end)
  else
    f ← char_at 5 buf;
    Ok (if Ascii.eqb f "u" then "requested from " +:+ tg_host_name +:+ ident_text e
        else if Ascii.eqb a "p" then "requested from polling"
        else if Ascii.eqb a "i" then "requested during device server process init sequence"
        else if Ascii.eqb a "u" then "requested from user thread"
        else if Ascii.eqb a "c" then "requested from a collocated client"
        else "").

(** [build_info_as_str]. *)
Definition build_info_as_str e : outcome string :=
  let elt_str := timestamp_unix_to_str (when_date e) +:+ " : " in
  match req_type e with
  | Req_Operation =>
      match op_text e with
      | inl s => Ok (elt_str +:+ "Operation " +:+ s)
      | inr s => o ← origin_text e; Ok (elt_str +:+ "Operation " +:+ s +:+ o)
      end
  | Req_Attribute =>
      match attr_text e with
      | inl s => Ok (elt_str +:+ "Attribute " +:+ s)
      | inr s => o ← origin_text e; Ok (elt_str +:+ "Attribute " +:+ s +:+ o)
      end
  | Req_Unknown => Ok (elt_str +:+ "Unknown CORBA request type !!!!!")
  end.

(** [read]: the newest element first. *)
Fixpoint read_loop b (n : nat) (read_index : Z) : outcome (list string) :=
  match n with
  | O => Ok []
  | S n =>
      e ← vget (box b) read_index;
      s ← build_info_as_str e;
      l ← read_loop b n (if read_index - 1 <? 0 then max_elt b - 1 else read_index - 1);
      Ok (s :: l)
  end.
Definition read (wanted_elt : Z) b : outcome (list string) :=
  if wanted_elt <=? 0 then throw_exception "API_BlackBoxArgument" "Argument to read black box out of range" "BlackBox::read"
  else if nb_elt b =? 0 then throw_exception "API_BlackBoxEmpty" "Nothing stored yet in black-box" "BlackBox::read"
  else
    let wanted_elt := Z.min wanted_elt (max_elt b) in
    let wanted_elt := Z.min wanted_elt (nb_elt b) in
    read_loop b (Z.to_nat wanted_elt) (if insert_elt b =? 0 then max_elt b - 1 else insert_elt b - 1).
End Texts.
