(* ===== verification/BlackBoxTheory.v ===== *)
(** * Properties of the black box

  Reading the black box gives the texts of the newest requests, each of them the text the
  request alone would have: nothing of the requests that were in the same element before
  shows. *)
From Stdlib Require Import Ascii.
From S2P Require Import Prelude CppString Locking BlackBox.
From S2P Require EventQueue.
Local Open Scope string_scope.
Local Open Scope list_scope.
Local Open Scope Z_scope.
Implicit Types (e : BlackBoxElt) (b : BlackBox) (c : Caller).

(** ** Requests *)

Inductive Request :=
  | RCorbaAttr (attr : BlackBoxElt_AttrType)
  | RCmd (cmd : string) (vers : Z) (sour : DevSource)
  | RCmdIdent (cmd : string) (cl_id : ClntIdent) (vers : Z) (sour : DevSource)
  | ROp (op : BlackBoxElt_OpType)
  | ROpIdent (op : BlackBoxElt_OpType) (cl_id : ClntIdent)
  | RRead (names : list string) (vers : Z) (sour : DevSource)
  | RReadIdent (names : list string) (cl_id : ClntIdent) (vers : Z) (sour : DevSource)
  | RPipe (name : string) (cl_id : ClntIdent)
  | RPipeVal (name : string) (cl_id : ClntIdent) (vers : Z)
  | RWrite (names : list string) (vers : Z)
  | RWriteIdent (names : list string) (cl_id : ClntIdent)
  | RWriteRead (w_names r_names : list string) (cl_id : ClntIdent) (vers : Z).
Implicit Types r : Request.

Definition insert r (now : Z) c b : outcome BlackBox :=
  match r with
  | RCorbaAttr attr => insert_corba_attr attr now c b
  | RCmd cmd vers sour => insert_cmd cmd vers sour now c b
  | RCmdIdent cmd cl_id vers sour => fst <$> insert_cmd_cl_ident cmd cl_id vers sour now c b
  | ROp op => insert_op op now c b
  | ROpIdent op cl_id => fst <$> insert_op_ident op cl_id now c b
  | RRead names vers sour => insert_attr names vers sour now c b
  | RReadIdent names cl_id vers sour => fst <$> insert_attr_ident names cl_id vers sour now c b
  | RPipe name cl_id => fst <$> insert_pipe name cl_id now c b
  | RPipeVal name cl_id vers => fst <$> insert_pipe_val name cl_id vers now c b
  | RWrite names vers => insert_attr_val names vers now c b
  | RWriteIdent names cl_id => fst <$> insert_attr_val_4 names cl_id now c b
  | RWriteRead w_names r_names cl_id vers => fst <$> insert_wr_attr w_names r_names cl_id vers now c b
  end.

Definition fill_of r : BlackBoxElt → BlackBoxElt :=
  match r with
  | RCorbaAttr attr => fill_attr attr
  | RCmd cmd vers sour | RCmdIdent cmd _ vers sour => fill_cmd cmd vers sour
  | ROp op | ROpIdent op _ => fill_op op
  | RRead names vers sour => fill_read names vers sour
  | RReadIdent names _ vers sour => fill_read_4 names vers sour
  | RPipe name _ => fill_pipe Op_Read_Pipe_5 name
  | RPipeVal name _ vers => fill_pipe (if vers =? 0 then Op_Write_Pipe_5 else Op_Write_Read_Pipe_5) name
  | RWrite names vers => fill_write names vers
  | RWriteIdent names _ => fill_write_4 names
  | RWriteRead w_names r_names _ vers => fill_write_read w_names r_names vers
  end.
Definition ident_of r : option ClntIdent :=
  match r with
  | RCorbaAttr _ | RCmd _ _ _ | ROp _ | RRead _ _ _ | RWrite _ _ => None
  | RCmdIdent _ cl_id _ _ | ROpIdent _ cl_id | RReadIdent _ cl_id _ _ | RPipe _ cl_id | RPipeVal _ cl_id _
  | RWriteIdent _ cl_id | RWriteRead _ _ cl_id _ => Some cl_id
  end.

(** The requests the code makes: an operation without arguments, the versions 1 to 4 of the reading
    without an identification. *)
Definition plain_op (op : BlackBoxElt_OpType) : bool :=
  match op with
  | Op_Unknown | Op_Command_inout | Op_Command_inout_2 | Op_Command_inout_4 | Op_Read_Attr | Op_Read_Attr_2 | Op_Read_Attr_3
  | Op_Read_Attr_4 | Op_Read_Attr_5 | Op_Write_Attr | Op_Write_Attr_3 | Op_Write_Attr_4 | Op_Write_Read_Attributes_4
  | Op_Write_Read_Attributes_5 | Op_Read_Pipe_5 | Op_Write_Pipe_5 | Op_Write_Read_Pipe_5 => false
  | _ => true
  end.
Definition good_request r : bool :=
  match r with
  | ROp op | ROpIdent op _ => plain_op op
  | RRead _ vers _ => (1 <=? vers) && (vers <=? 4)
  | _ => true
  end.

(** The callers: a client with an address of omniORB, a client of the same process, or
    a thread of a server that has started. *)
Inductive good_caller c : Prop :=
  | remote_caller ip rest : client_info c = Some ip → client_ip ip = "giop:" +:+ rest → rest ≠ "" → good_caller c
  | collocated_caller ip rest : client_info c = Some ip → client_ip ip = "collocated client" +:+ rest → good_caller c
  | server_caller : client_info c = None → polling_thread c = true ∨ svr_starting c = false → good_caller c.

(** The element a request leaves. *)
Definition final r (now : Z) c e : BlackBoxElt :=
  let e := stamp now c (fill_of r e) in
  match ident_of r, client_info c with
  | Some cl_id, Some ip => identified (add_cl_ident cl_id ip) e
  | _, _ => e
  end.

(** ** The circular vector *)

Definition last_slot b : Z := (if insert_elt b =? 0 then max_elt b else insert_elt b) - 1.
(** The elements [l] are in the vector, the newest first. *)
Record bb_ok b (l : list BlackBoxElt) : Prop := {
  bb_len : Z.of_nat (length (box b)) = max_elt b;
  bb_ins : 0 <= insert_elt b < max_elt b;
  bb_nb : nb_elt b = Z.of_nat (length l);
  bb_max : nb_elt b <= max_elt b;
  bb_slots : ∀ d e, l !! d = Some e → box b !! Z.to_nat (EventQueue.back (max_elt b) (last_slot b) d) = Some e;
}.

Lemma bb_new max : 0 < max → bb_ok (BlackBox_new max) [].
Proof. intros H. split; simpl; rewrite ?length_replicate; try lia. by intros []. Qed.

Lemma last_slot_range b l : bb_ok b l → 0 <= last_slot b < max_elt b.
Proof. intros [? ? _ _ _]. unfold last_slot. case_if; lia. Qed.

(** The vector after an insertion, whatever is then done to the new element. *)
Lemma bb_insert b l x y : bb_ok b l →
  let b' := inc_indexes (mkBlackBox (<[Z.to_nat (insert_elt b) := x]> (box b)) (insert_elt b) (nb_elt b) (max_elt b)) in
  last_slot b' = insert_elt b ∧
  bb_ok (mkBlackBox (<[Z.to_nat (last_slot b') := y]> (box b')) (insert_elt b') (nb_elt b') (max_elt b'))
    (take (Z.to_nat (max_elt b)) (y :: l)).
Proof.
  intros Hok b'. pose proof Hok as [Hl Hi Hn Hm Hs]. pose proof (last_slot_range b l Hok) as Hr.
  assert (last_slot b' = insert_elt b) as Hlast.
  { unfold last_slot, b', inc_indexes. simpl. destruct (Z.eqb_spec (insert_elt b + 1) (max_elt b)) as [E|E]; simpl; [lia|].
    case_if; lia. }
  split; [done|]. split; simpl.
  - rewrite !length_insert. done.
  - case_if; lia.
  - rewrite length_take. simpl. case_if; lia.
  - case_if; lia.
  - intros d e. assert (∀ b2, insert_elt b2 = insert_elt b' → max_elt b2 = max_elt b → last_slot b2 = insert_elt b) as Hb2.
    { intros b2 H1 H2. rewrite <-Hlast. unfold last_slot. by rewrite H1, H2. }
    rewrite Hb2, Hlast by done. rewrite list_insert_insert_eq. intros He.
    assert (d < Z.to_nat (max_elt b))%nat as Hd.
    { apply lookup_lt_Some in He. rewrite length_take in He. lia. }
    rewrite lookup_take_lt in He by done. destruct d as [|d].
    + injection He as ->. rewrite EventQueue.back_0 by lia. apply list_lookup_insert_eq. lia.
    + pose proof (EventQueue.back_other (max_elt b) (insert_elt b) (S d) ltac:(lia) ltac:(lia) ltac:(lia)).
      rewrite list_lookup_insert_ne by lia.
      rewrite (EventQueue.back_next (max_elt b) (last_slot b) (insert_elt b) d); [by apply Hs|lia|lia|].
      unfold last_slot. destruct (Z.eqb_spec (insert_elt b) 0); case_if; lia.
Qed.

(** ** Characters of an origin *)

Lemma get_app i s s' : (i < len s)%nat → String.get i (s +:+ s') = String.get i s.
Proof. revert i. induction s as [|a s IH]; intros [|i] H; simpl in *; try lia; [done|]. apply IH. lia. Qed.
Lemma char_at_strcpy i s buf : (i < len s)%nat → char_at i (strcpy s buf) = char_at i s.
Proof. intros H. unfold char_at, strcpy. by rewrite get_app. Qed.
Lemma c_str_strcpy s buf : c_str (strcpy s buf) = c_str s.
Proof. unfold strcpy. generalize (str_drop (len s + 1) buf) as rest. intros rest. induction s as [|a s IH]; [done|]. simpl. destruct (Ascii.eqb a "000"); [done|]. by rewrite IH. Qed.

(** What the code looks at in the origin of a good caller. *)
Lemma good_host c : good_caller c → (5 < len (get_client_host c))%nat.
Proof.
  intros [ip rest H1 H2 H3|ip rest H1 H2|H1 H2]; unfold get_client_host; rewrite H1.
  - rewrite H2, app_len. destruct rest; [done|]. simpl. lia.
  - rewrite H2, app_len. simpl. lia.
  - destruct H2 as [->| ->]; [destruct (svr_starting c)|destruct (polling_thread c)]; simpl; lia.
Qed.
Lemma good_first c : good_caller c → ∃ a, char_at 0 (get_client_host c) = Ok a ∧
  match client_info c with
  | Some _ => a = "g"%char ∨ a = "c"%char ∧ char_at 5 (get_client_host c) = Ok "c"%char
  | None => (a = "p"%char ∨ a = "u"%char) ∧ ∃ f, char_at 5 (get_client_host c) = Ok f ∧ f ≠ "u"%char
  end.
Proof.
  intros [ip rest H1 H2 H3|ip rest H1 H2|H1 H2]; unfold get_client_host; rewrite H1.
  - rewrite H2. exists "g"%char. auto.
  - rewrite H2. exists "c"%char. auto.
  - destruct H2 as [->| ->].
    + exists "p"%char. destruct (svr_starting c); (split; [done|]; split; [auto|]; by eexists).
    + destruct (polling_thread c); eexists; (split; [done|]; split; [auto|]; by eexists).
Qed.

(** ** An insertion *)

Lemma vget_lookup {A} (l : list A) i x : 0 <= i → l !! Z.to_nat i = Some x → vget l i = Ok x.
Proof. intros H1 H2. by apply vget_Ok. Qed.

Lemma put_run f now c b l : bb_ok b l → ∃ old, box b !! Z.to_nat (insert_elt b) = Some old ∧
  put f now c b = Ok (inc_indexes (mkBlackBox (<[Z.to_nat (insert_elt b) := stamp now c (f old)]> (box b)) (insert_elt b) (nb_elt b) (max_elt b))).
Proof.
  intros [Hl Hi _ _ _]. destruct (lookup_lt_is_Some_2 (box b) (Z.to_nat (insert_elt b))) as [old Hold]; [lia|].
  exists old. split; [done|]. unfold put. rewrite (vget_lookup _ _ old) by (done || lia). rewrite bind_Ok.
  by rewrite vset_Ok by lia.
Qed.

Lemma bb_unchanged b i x : b = mkBlackBox (<[i := x]> (box b)) (insert_elt b) (nb_elt b) (max_elt b) ↔ <[i := x]> (box b) = box b.
Proof. destruct b as [bx ins nb mx]. simpl. split; [congruence|]. by intros ->. Qed.

Lemma put_ok f now c b l : bb_ok b l → ∃ b' old, put f now c b = Ok b' ∧ max_elt b' = max_elt b ∧
  last_slot b' = insert_elt b ∧ box b' !! Z.to_nat (insert_elt b) = Some (stamp now c (f old)) ∧
  ∀ y, bb_ok (mkBlackBox (<[Z.to_nat (insert_elt b) := y]> (box b')) (insert_elt b') (nb_elt b') (max_elt b')) (take (Z.to_nat (max_elt b)) (y :: l)).
Proof.
  intros Hok. destruct (put_run f now c b l Hok) as (old & Hold & Hput). eexists _, old. split; [exact Hput|].
  pose proof (λ y, bb_insert b l (stamp now c (f old)) y Hok) as Hins. cbv zeta in Hins.
  pose proof (proj1 (Hins BlackBoxElt_new)) as Hlast. split; [done|]. split; [done|]. split.
  - apply list_lookup_insert_eq. destruct Hok. lia.
  - intros y. destruct (Hins y) as [_ H]. rewrite Hlast in H. exact H.
Qed.

Lemma insert_generic r now c b :
  insert r now c b = match ident_of r with
                     | None => put (fill_of r) now c b
                     | Some cl_id => fst <$> put_ident (fill_of r) cl_id now c b
                     end.
Proof. by destruct r. Qed.

Lemma insert_request_ok r now c b l : bb_ok b l → good_caller c → ∃ b' old,
  insert r now c b = Ok b' ∧ max_elt b' = max_elt b ∧ bb_ok b' (take (Z.to_nat (max_elt b)) (final r now c old :: l)).
Proof.
  intros Hok Hc. rewrite insert_generic. destruct (put_ok (fill_of r) now c b l Hok) as (b' & old & Hput & Hmax & Hlast & Hslot & Hb).
  assert (bb_ok b' (take (Z.to_nat (max_elt b)) (stamp now c (fill_of r old) :: l))) as Hsame.
  { specialize (Hb (stamp now c (fill_of r old))). rewrite list_insert_id in Hb by done. by destruct b'. }
  unfold final. destruct (ident_of r) as [cl_id|]; [|by exists b', old].
  unfold put_ident. rewrite Hput, bind_Ok. unfold identify.
  rewrite (vget_lookup _ _ _ (proj1 (bb_ins _ _ Hok)) Hslot), bind_Ok.
  destruct (good_first c Hc) as (a & Ha & Hk). pose proof (good_host c Hc) as Hlen.
  unfold server_thread. cbn [host_ip_str stamp]. rewrite char_at_strcpy, Ha, !bind_Ok by lia.
  destruct (client_info c) as [ip|]; [|destruct Hk as [[->| ->] _]; by exists b', old].
  assert ((Ascii.eqb a "p" || Ascii.eqb a "u" || Ascii.eqb a "i") = false) as -> by (by destruct Hk as [->|[-> _]]).
  cbn [deref]. rewrite bind_Ok. unfold update_client_host.
  replace (if insert_elt b' =? 0 then max_elt b' - 1 else insert_elt b' - 1) with (insert_elt b).
  2:{ rewrite <-Hlast. unfold last_slot. by destruct (insert_elt b' =? 0). }
  rewrite (vget_lookup _ _ _ (proj1 (bb_ins _ _ Hok)) Hslot), bind_Ok.
  rewrite vset_Ok. 2:{ pose proof (lookup_lt_Some _ _ _ Hslot). pose proof (bb_ins _ _ Hok). lia. }
  cbn [fmap outcome_fmap]. eexists _, old. split; [reflexivity|]. split; [done|]. apply Hb.
Qed.

(** ** Nothing of an earlier request shows *)

Section Texts.
Context (localtime_text : Z → string) (host_name_of : string → option string) (tg_host_name : string).
Abbreviation text := (build_info_as_str localtime_text host_name_of tg_host_name).

Lemma origin_final r now c e1 e2 : good_caller c →
  origin_text host_name_of tg_host_name (final r now c e1) = origin_text host_name_of tg_host_name (final r now c e2).
Proof.
  intros Hc. destruct (good_first c Hc) as (a & Ha & Hk). pose proof (good_host c Hc) as Hlen.
  unfold final. destruct (client_info c) as [ip|] eqn:Ec.
  - assert (∀ e, ident_text (match ident_of r with Some cl_id => identified (add_cl_ident cl_id ip) (stamp now c (fill_of r e)) | None => stamp now c (fill_of r e) end) =
      ident_text (match ident_of r with Some cl_id => identified (add_cl_ident cl_id ip) (stamp now c (fill_of r BlackBoxElt_new)) | None => stamp now c (fill_of r BlackBoxElt_new) end)) as Hid.
    { intros e. by destruct r. }
    assert (∀ e, host_ip_str (match ident_of r with Some cl_id => identified (add_cl_ident cl_id ip) (stamp now c (fill_of r e)) | None => stamp now c (fill_of r e) end) =
      strcpy (get_client_host c) (host_ip_str e)) as Hh.
    { intros e. by destruct r. }
    unfold origin_text. rewrite (Hid e1), (Hid e2), (Hh e1), (Hh e2), !(char_at_strcpy 0), !(char_at_strcpy 5) by lia.
    by rewrite !c_str_strcpy.
  - destruct Hk as [Hk (f & Hf & Hu)].
    assert (∀ e, host_ip_str (match ident_of r with Some _ | None => stamp now c (fill_of r e) end) = strcpy (get_client_host c) (host_ip_str e)) as Hh.
    { intros e. by destruct r. }
    unfold origin_text. rewrite (Hh e1), (Hh e2), !(char_at_strcpy 0), !(char_at_strcpy 5) by lia. rewrite Ha, Hf, !bind_Ok.
    rewrite (proj2 (Ascii.eqb_neq f "u") Hu). by destruct Hk as [->| ->].
Qed.

Lemma op_text_plain op e1 e2 : plain_op op = true → op_type e1 = op → op_type e2 = op → op_text e1 = op_text e2.
Proof. intros Hp H1 H2. unfold op_text. rewrite H1, H2. by destruct op. Qed.

Lemma final_text r now c e1 e2 : good_request r = true → good_caller c → text (final r now c e1) = text (final r now c e2).
Proof.
  intros Hr Hc. pose proof (origin_final r now c e1 e2 Hc) as Ho.
  assert (∀ e, when_date (final r now c e) = now) as Hw.
  { intros e. unfold final. by destruct (ident_of r), (client_info c). }
  assert (∀ e, req_type (final r now c e) = req_type (fill_of r e) ∧ attr_type (final r now c e) = attr_type (fill_of r e) ∧
    op_text (final r now c e) = op_text (fill_of r e)) as Hk.
  { intros e. unfold final. by destruct (ident_of r), (client_info c). }
  unfold build_info_as_str. rewrite !Hw, Ho. destruct (Hk e1) as (-> & A1 & ->), (Hk e2) as (-> & A2 & ->).
  unfold attr_text. rewrite A1, A2.
  assert (req_type (fill_of r e1) = req_type (fill_of r e2) ∧ attr_type (fill_of r e1) = attr_type (fill_of r e2)) as [-> ->] by (by destruct r).
  assert (req_type (fill_of r e2) = Req_Operation → op_text (fill_of r e1) = op_text (fill_of r e2)) as Hop.
  { intros Hreq. destruct r as [at_|cmd vers sour|cmd cl vers sour|op|op cl|names vers sour|names cl vers sour|name cl|name cl vers|names vers|names cl|wn rn cl vers];
      simpl in Hreq |- *; try done.
    - unfold op_text. cbn [op_type fill_cmd]. by destruct (vers =? 1), (vers <=? 3).
    - unfold op_text. cbn [op_type fill_cmd]. by destruct (vers =? 1), (vers <=? 3).
    - by apply (op_text_plain op).
    - by apply (op_text_plain op).
    - apply andb_true_iff in Hr as [H1%Z.leb_le H2%Z.leb_le]. unfold op_text. cbn [op_type fill_read].
      destruct (Z.eqb_spec vers 1), (Z.eqb_spec vers 2), (Z.eqb_spec vers 3), (Z.eqb_spec vers 4); try done; lia.
    - unfold op_text. cbn [op_type fill_read_4]. by destruct (5 <=? vers).
    - unfold op_text. cbn [op_type fill_pipe]. by destruct (vers =? 0).
    - unfold op_text. cbn [op_type fill_write]. by destruct (vers =? 1), (vers <? 4).
    - unfold op_text. cbn [op_type fill_write_read]. by destruct (5 <=? vers). }
  destruct (req_type (fill_of r e2)) eqn:Er; [done| |done]. by rewrite Hop.
Qed.

(** ** Reading *)

(** A request with its date and its caller; the text it has alone. *)
Abbreviation event := (Request * Z * Caller)%type.
Definition text_of (x : event) : outcome string := let '(r, now, c) := x in text (final r now c BlackBoxElt_new).
Definition good_event (x : event) : Prop := let '(r, _, c) := x in good_request r = true ∧ good_caller c.
Fixpoint insert_all (xs : list event) b : outcome BlackBox :=
  match xs with
  | [] => Ok b
  | (r, now, c) :: xs => b ← insert r now c b; insert_all xs b
  end.

(** No text is undefined for a good caller. *)
Lemma text_defined x : good_event x → ∃ s, text_of x = Ok s.
Proof.
  destruct x as [[r now] c]. intros [_ Hc]. unfold text_of.
  destruct (good_first c Hc) as (a & Ha & _). pose proof (good_host c Hc) as Hlen.
  assert (∃ o, origin_text host_name_of tg_host_name (final r now c BlackBoxElt_new) = Ok o) as [o Ho].
  { assert (host_ip_str (final r now c BlackBoxElt_new) = strcpy (get_client_host c) NUL) as Hh.
    { unfold final. by destruct r, (client_info c). }
    unfold origin_text. rewrite Hh, !(char_at_strcpy 0), !(char_at_strcpy 5) by lia. rewrite Ha, bind_Ok.
    assert (∃ f, char_at 5 (get_client_host c) = Ok f) as [f ->].
    { unfold char_at. destruct (String.get 5 (get_client_host c)) eqn:E; [by eexists|].
      exfalso. revert Hlen E. generalize (get_client_host c). intros s. do 6 (destruct s as [|? s]; [simpl; lia|]). done. }
    rewrite !bind_Ok. destruct (negb _ && negb _); rewrite bind_Ok; [destruct (_ && _); [by eexists|]|]; rewrite ?bind_Ok; by eexists. }
  unfold build_info_as_str. rewrite Ho. destruct (req_type _); [by eexists|destruct (op_text _); by eexists|destruct (attr_text _); by eexists].
Qed.

Lemma take_app_take {A} n (l k : list A) : take n (l ++ take n k) = take n (l ++ k).
Proof. rewrite !take_app, take_take. by rewrite Nat.min_l by lia. Qed.
Definition shows (x : event) e : Prop := text e = text_of x.
Lemma insert_events_ok xs b l (ys : list event) : bb_ok b l → Forall good_event xs → Forall2 shows ys l →
  ∃ b' l', insert_all xs b = Ok b' ∧ max_elt b' = max_elt b ∧ bb_ok b' l' ∧
    Forall2 shows (take (Z.to_nat (max_elt b)) (reverse xs ++ ys)) l'.
Proof.
  intros Hok Hg. revert b l ys Hok. induction Hg as [|[[r now] c] xs [Hr Hc] _ IH]; intros b l ys Hok Hs; simpl.
  - exists b, l. split; [done|]. split; [done|]. split; [done|]. pose proof Hok as [_ _ Hn Hm _].
    rewrite take_ge; [done|]. rewrite (Forall2_length _ _ _ Hs). lia.
  - destruct (insert_request_ok r now c b l Hok Hc) as (b1 & old & H1 & Hmax & Hok1). rewrite H1, bind_Ok.
    destruct (IH b1 _ (take (Z.to_nat (max_elt b)) ((r, now, c) :: ys)) Hok1) as (b' & l' & H2 & Hm2 & Hok2 & Hs2).
    { apply Forall2_take. constructor; [|done]. by apply final_text. }
    exists b', l'. rewrite Hmax in *. split; [done|]. split; [done|]. split; [done|].
    rewrite reverse_cons, <-app_assoc. by rewrite take_app_take in Hs2.
Qed.

Lemma read_loop_ok b l n d (xs : list event) : bb_ok b l → Forall2 shows xs l → Forall good_event xs → (d + n <= length l)%nat →
  ∃ texts, read_loop localtime_text host_name_of tg_host_name b n (EventQueue.back (max_elt b) (last_slot b) d) = Ok texts ∧
    Forall2 (λ x s, text_of x = Ok s) (take n (drop d xs)) texts.
Proof.
  intros Hok Hs Hg. pose proof (last_slot_range b l Hok) as Hr. pose proof Hok as [Hlen Hi Hn Hm Hsl].
  pose proof (Forall2_length _ _ _ Hs) as Hxl.
  revert d. induction n as [|n IH]; intros d Hd; [by exists []|].
  destruct (lookup_lt_is_Some_2 l d) as [e He]; [lia|]. destruct (lookup_lt_is_Some_2 xs d) as [x Hx]; [lia|].
  pose proof (Forall2_lookup_lr _ _ _ _ _ _ Hs Hx He) as Hsh.
  destruct (text_defined x) as [s Hts]; [by eapply Forall_lookup_1|].
  assert (0 <= EventQueue.back (max_elt b) (last_slot b) d) as H0 by (unfold EventQueue.back; case_if; lia).
  destruct (IH (S d)) as (texts & Ht & Hf); [lia|]. exists (s :: texts). simpl.
  rewrite (vget_lookup _ _ e) by (done || by apply Hsl). rewrite bind_Ok. unfold shows in Hsh. rewrite Hsh, Hts, bind_Ok.
  assert ((if EventQueue.back (max_elt b) (last_slot b) d - 1 <? 0 then max_elt b - 1 else EventQueue.back (max_elt b) (last_slot b) d - 1) =
    EventQueue.back (max_elt b) (last_slot b) (S d) ∨ n = 0%nat) as [->| ->].
  { destruct n; [by right|left]. unfold EventQueue.back. destruct (Z.leb_spec (Z.of_nat d) (last_slot b)), (Z.leb_spec (Z.of_nat (S d)) (last_slot b)); case_if; lia. }
  - rewrite Ht, bind_Ok. split; [done|]. rewrite (drop_S _ x) by done. by constructor.
  - simpl in Ht |- *. rewrite (drop_S _ x) by done. split; [by injection Ht as <-|]. constructor; [done|].
    by injection Ht as <-.
Qed.

(** C34: the texts of the last [n] requests, the newest first, are what [read n] returns, as
    many as the depth of the black box keeps; each of them is the text the request has alone in
    a new element, and is defined: reused elements show nothing of their earlier requests. The
    requests are those that have a case of their own, so the readings without an identification
    are of the versions 1 to 4 (see [read_without_case]), and their callers are clients with an
    address, clients of the same process, polling threads, or threads of a server that has
    started (see [init_shows_old_origin]). *)
Theorem black_box_read max xs n b :
  0 < max → 0 < n → xs ≠ [] → Forall good_event xs → insert_all xs (BlackBox_new max) = Ok b →
  ∃ texts, read localtime_text host_name_of tg_host_name n b = Ok texts ∧
    Forall2 (λ x s, text_of x = Ok s) (take (Z.to_nat (Z.min n max)) (reverse xs)) texts.
Proof.
  intros Hmax Hn Hxs Hg Hb.
  destruct (insert_events_ok xs (BlackBox_new max) [] [] (bb_new max Hmax) Hg) as (b' & l & Hb' & Hm & Hok & Hs); [done|].
  rewrite Hb in Hb'. injection Hb' as <-. cbn [max_elt BlackBox_new] in Hm, Hs. rewrite app_nil_r in Hs.
  pose proof Hok as [_ Hi Hnb Hle _]. pose proof (Forall2_length _ _ _ Hs) as Hl. rewrite length_take, length_reverse in Hl.
  assert (length xs ≠ 0%nat) by (by destruct xs). unfold read.
  rewrite (proj2 (Z.leb_gt n 0)) by lia. rewrite (proj2 (Z.eqb_neq (nb_elt b) 0)) by lia.
  assert ((if insert_elt b =? 0 then max_elt b - 1 else insert_elt b - 1) = EventQueue.back (max_elt b) (last_slot b) 0) as ->.
  { pose proof (last_slot_range b l Hok). rewrite EventQueue.back_0 by lia. unfold last_slot. by case_if. }
  destruct (read_loop_ok b l (Z.to_nat (Z.min (Z.min n (max_elt b)) (nb_elt b))) 0 _ Hok Hs) as (texts & Ht & Hf).
  { apply Forall_take. by apply Forall_reverse. }
  { lia. }
  exists texts. split; [done|]. rewrite drop_0, take_take in Hf.
  replace (take (Z.to_nat (Z.min n max)) (reverse xs)) with (take (Z.to_nat (Z.min (Z.min n (max_elt b)) (nb_elt b)) `min` Z.to_nat max) (reverse xs)); [done|].
  destruct (decide (Z.to_nat (Z.min n max) <= length xs)%nat).
  - f_equal. lia.
  - rewrite !take_ge; [done|rewrite length_reverse; lia..].
Qed.
End Texts.

(** ** The black box on concrete requests, and behaviours worth knowing *)
Local Open Scope string_scope.
Local Open Scope list_scope.
Local Open Scope Z_scope.

Definition clock (s : Z) : string := "12:00".
Definition no_name (ip : string) : option string := None.
Definition caller_at (addr : string) : Caller := mkCaller (Some (mkClient false addr CPP 0 "" (0, 0))) false false.
Definition remote : Caller := caller_at "giop:tcp:10.0.0.1:4321".
Definition poller : Caller := mkCaller None true false.
Definition starter : Caller := mkCaller None false true.

Definition some_requests : list (Request * Z * Caller) :=
  [(ROp Op_Ping, 0, remote); (RCmdIdent "Init" (CppClnt 77) 4 DEV, 5000000, remote); (RRead ["a"; "b"] 3 CACHE, 10000000, poller)].
Definition some_box : BlackBox := match insert_all some_requests (BlackBox_new 2) with Ok b => b | _ => BlackBox_new 2 end.
Lemma some_requests_good : Forall good_event some_requests.
Proof.
  assert (good_caller remote) by (by eapply (remote_caller _ _ "tcp:10.0.0.1:4321")).
  assert (good_caller poller) by (by apply server_caller; [|left]).
  unfold some_requests. by rewrite !Forall_cons.
Qed.
Lemma black_box_read_witness :
  ∃ texts, read clock no_name "here" 9 some_box = Ok texts ∧
    Forall2 (λ x s, text_of clock no_name "here" x = Ok s) (take (Z.to_nat (Z.min 9 2)) (reverse some_requests)) texts.
Proof.
  apply (black_box_read clock no_name "here" 2).
  - lia.
  - lia.
  - done.
  - exact some_requests_good.
  - reflexivity.
Defined.
Example some_texts :
  read clock no_name "here" 9 some_box =
    Ok ["12:00:01 : Operation read_attributes_3 (a, b) from cache requested from polling";
        "12:00:00 : Operation command_inout_4 (cmd = Init) from device requested from 10.0.0.1 (CPP/Python client with PID 77)"].
Proof. by vm_compute. Qed.

(** What the newest request is read as. *)
Definition last_text (xs : list (Request * Z * Caller)) : outcome (list string) :=
  b ← insert_all xs (BlackBox_new 1); read clock no_name "here" 1 b.

(** A client of IDL 3 that reads a device of IDL 5: the version of the device has no case, and
    the operation of the earlier request of the element is shown; without one, nothing is. *)
Example read_without_case :
  last_text [(ROp Op_Ping, 0, poller); (RRead ["a"] 5 CACHE, 0, poller)] = Ok ["12:00:00 : Operation ping requested from polling"] ∧
  last_text [(RRead ["a"] 5 CACHE, 0, poller)] = Ok ["12:00:00 : Operation unknown operation !!!!!"].
Proof. by vm_compute. Qed.
(** A request of the start-up: the sixth character of the origin, beyond the text, is the one an
    earlier origin left, or is not initialised. *)
Example init_shows_old_origin :
  last_text [(ROp Op_Ping, 0, caller_at "giop:unix:/tmp/omni 12"); (ROp Op_Info, 0, starter)] =
    Ok ["12:00:00 : Operation info requested from here"].
Proof. by vm_compute. Qed.
Example init_not_initialised : last_text [(ROp Op_Info, 0, starter)] = Undef.
Proof. by vm_compute. Qed.
(** A client with an IPv6 address that is not the one of an IPv4 host has no origin. *)
Example ipv6_without_origin :
  last_text [(ROpIdent Op_Set_Attr_Config_5 (CppClnt 77), 0, caller_at "giop:tcp:[2001:db8::1]:4321")] =
    Ok ["12:00:00 : Operation set_attribute_config_5 "].
Proof. by vm_compute. Qed.
