(* ===== verification/FileDb.v ===== *)
(** * The file that replaces the database (client/filedatabase.cpp)

  A device server without a database reads its devices and their properties in a
  file.  This file has the data, the reading of characters and words, the parser
  and the printer; FileDbCmds has the requests on the data.

  The file on the disk is a text.  Opening it for writing always succeeds here; the
  lines are not so many, nor the names so long, that an [int] overflows.  The type
  [char] is signed, as the compilers for x86 have it.  Every loop, those of the words
  included, has a fuel, more than the number of characters that can still come; a loop
  that has no fuel left throws [out_of_fuel], which no function of the file does:
  FileDbEnds shows that it never happens. *)
From Stdlib Require Import Ascii.
From stdpp Require Import pretty.
From S2P Require Import Prelude StateExn CppString.
Local Open Scope string_scope.
Local Open Scope list_scope.
Local Open Scope Z_scope.
#[local] Arguments String.append : simpl nomatch.

(** ** Data *)

Record t_property := mk_property { p_name : string; p_value : list string }.
Record t_attribute_property := mk_attribute_property {
  attribute_name : string;
  ap_properties : list t_property;
}.
Record t_device := mk_device {
  d_name : string;
  d_properties : list t_property;
  d_attribute_properties : list t_attribute_property;
}.
(** A device belongs to its class and to the list of the server: both point to it.
    A pointer is an index in [heap].  The fields [description] and [title] of a class
    are used nowhere. *)
Record t_tango_class := mk_class {
  c_name : string;
  c_devices : list nat;
  c_properties : list t_property;
  c_attribute_properties : list t_attribute_property;
}.
Record t_free_object := mk_free_object { o_name : string; o_properties : list t_property }.
Record t_server := mk_server {
  s_name : string;
  instance_name : string;
  classes : list t_tango_class;
  devices : list nat;
  free_objects : list t_free_object;
  heap : list t_device;
}.

Definition set_s_name x s := mk_server x (instance_name s) (classes s) (devices s) (free_objects s) (heap s).
Definition set_instance_name x s := mk_server (s_name s) x (classes s) (devices s) (free_objects s) (heap s).
Definition set_classes x s := mk_server (s_name s) (instance_name s) x (devices s) (free_objects s) (heap s).
Definition set_devices x s := mk_server (s_name s) (instance_name s) (classes s) x (free_objects s) (heap s).
Definition set_free_objects x s := mk_server (s_name s) (instance_name s) (classes s) (devices s) x (heap s).
Definition set_heap x s := mk_server (s_name s) (instance_name s) (classes s) (devices s) (free_objects s) x.

(** ** Names *)

Definition char_val (c : ascii) : Z :=
  let n := Z.of_N (N_of_ascii c) in if n <? 128 then n else n - 256.
Definition chr (n : nat) : ascii := ascii_of_nat n.
Definition chartolower (c : ascii) : ascii :=
  if (65 <=? char_val c) && (char_val c <=? 90) then ascii_of_N (Z.to_N (char_val c - 65 + 97)) else c.

(** The loop on the characters, from the last one. *)
Fixpoint equal_from (l : nat) (s1 s2 : string) (ret : bool) : bool :=
  match l with
  | O => ret
  | S l =>
      let ret := bool_decide (chartolower <$> String.get l s1 = chartolower <$> String.get l s2) in
      if ret then equal_from l s1 s2 ret else false
  end.
Definition equalsIgnoreCase (s1 s2 : string) : bool :=
  if (len s1 =? len s2)%nat then equal_from (len s1) s1 s2 false else false.

(** The first element of that name: its index and the element. *)
Fixpoint find_name {A} (name_of : A → string) (name : string) (l : list A) : option (nat * A) :=
  match l with
  | [] => None
  | x :: l => if equalsIgnoreCase (name_of x) name then Some (0%nat, x)
              else prod_map S id <$> find_name name_of name l
  end.
(** The devices of the server, with their pointers. *)
Definition dev_of (s : t_server) (id : nat) : outcome t_device := deref (heap s !! id).
Fixpoint find_device (s : t_server) (name : string) (ids : list nat) : outcome (option nat) :=
  match ids with
  | [] => Ok None
  | id :: ids =>
      d ← dev_of s id;
      if equalsIgnoreCase (d_name d) name then Ok (Some id) else find_device s name ids
  end.
Definition search_device (s : t_server) (name : string) : outcome (option nat) := find_device s name (devices s).
Definition search_class (s : t_server) (name : string) : option (nat * t_tango_class) := find_name c_name name (classes s).
Definition search_free_object (s : t_server) (name : string) : option (nat * t_free_object) :=
  find_name o_name name (free_objects s).
Definition search_dev_attr_prop (d : t_device) (name : string) : option (nat * t_attribute_property) :=
  find_name attribute_name name (d_attribute_properties d).
Definition search_class_attr_prop (d : t_tango_class) (name : string) : option (nat * t_attribute_property) :=
  find_name attribute_name name (c_attribute_properties d).

(** ** Characters *)

(** The stream that reads the file, the two characters read from it and the lines. *)
Record Reader := mkReader {
  f_rest : list ascii;
  f_eof : bool;
  CurrentChar : ascii;
  NextChar : ascii;
  CrtLine : Z;
  StartLine : Z;
}.
Definition LF : ascii := "010"%char.
Definition DQUOTE : ascii := "034"%char.
Definition BSLASH : ascii := "092"%char.

(** [f.get(NextChar)] leaves [NextChar] as it is at the end of the file. *)
Definition read_char (r : Reader) : Reader :=
  let cur := NextChar r in
  let line := if Ascii.eqb cur LF then CrtLine r + 1 else CrtLine r in
  if f_eof r then mkReader (f_rest r) true cur zero line (StartLine r)
  else match f_rest r with
       | c :: l => mkReader l false cur c line (StartLine r)
       | [] => mkReader [] true cur (NextChar r) line (StartLine r)
       end.
Definition start_line (r : Reader) : Reader :=
  mkReader (f_rest r) (f_eof r) (CurrentChar r) (NextChar r) (CrtLine r) (CrtLine r).

(** More than the characters that can still come: the fuel of each loop. *)
Definition left (r : Reader) : nat := if f_eof r then 3%nat else S (S (S (S (length (f_rest r))))).
Definition out_of_fuel : exn := OtherExc "out of fuel".
Definition no_fuel {S A} : SM S A := throw_exn out_of_fuel.

Fixpoint skip_while (n : nat) (p : ascii → bool) : SM Reader unit :=
  match n with
  | O => no_fuel
  | S n => r ← get; if p (CurrentChar r) then modify read_char;; skip_while n p else mret ()
  end.
(** Reads the characters while [p CurrentChar NextChar], and appends them to [w]. *)
Fixpoint take_while (n : nat) (p : ascii → ascii → bool) (w : string) : SM Reader string :=
  match n with
  | O => no_fuel
  | S n =>
      r ← get;
      if p (CurrentChar r) (NextChar r)
      then modify read_char;; take_while n p (w +:+ String (CurrentChar r) "") else mret w
  end.

Definition is_end (c : ascii) : bool := Ascii.eqb c zero.
Definition in_line (c : ascii) : bool := negb (Ascii.eqb c LF) && negb (is_end c).
Definition jump_line : SM Reader unit :=
  r ← get; skip_while (left r) in_line;; modify read_char.
Definition blank (c : ascii) : bool := (char_val c <=? 32) && (0 <? char_val c).
Definition jump_space : SM Reader unit := r ← get; skip_while (left r) blank.
(** The lines of comments. *)
Fixpoint jump_comments (n : nat) : SM Reader unit :=
  match n with
  | O => no_fuel
  | S n =>
      r ← get;
      if Ascii.eqb (CurrentChar r) "#" then jump_line;; jump_space;; jump_comments n else mret ()
  end.

(** ** Words *)

Inductive Lex := TG_NONE | TG_STRING | TG_COMA | TG_COLON | TG_SLASH | TG_ASLASH | TG_ARROW.
#[export] Instance Lex_eq_dec : EqDecision Lex.
Proof. solve_decision. Defined.
Definition lexical_word_null : string := "NULL".

Definition class_lex (w : string) : Lex :=
  if String.eqb w "" then TG_NONE
  else if String.eqb w "/" then TG_SLASH
  else if String.eqb w (String BSLASH "") then TG_ASLASH
  else if String.eqb w "," then TG_COMA
  else if String.eqb w ":" then TG_COLON
  else if String.eqb w "->" then TG_ARROW
  else TG_STRING.

Definition origin : string := "FileDatabase".

Section Words.
Context (filename : string).

Definition file_error {S A} (what : string) (line : Z) : SM S A :=
  throw "API_DatabaseFileError"
    ("File database: " +:+ what +:+ pretty line +:+ " in file " +:+ filename +:+ ".") origin.

(** The characters that end a word without quotes. *)
Definition special (c : ascii) : bool :=
  Ascii.eqb c ":" || Ascii.eqb c "/" || Ascii.eqb c BSLASH || Ascii.eqb c ",".
Definition word_char (c next : ascii) : bool :=
  (32 <? char_val c) && negb (special c) && negb (Ascii.eqb c "-" && Ascii.eqb next ">").
Definition in_quotes (c next : ascii) : bool := negb (Ascii.eqb c DQUOTE) && negb (is_end c) && negb (Ascii.eqb c LF).
(** What [read_word] does once blanks and comments are skipped. *)
Definition read_token : SM Reader string :=
  modify start_line;;
  r ← get;
  let c := CurrentChar r in
  if special c then modify read_char;; mret (String c "")
  else if Ascii.eqb c "-" && Ascii.eqb (NextChar r) ">" then
    modify read_char;; modify read_char;; mret "->"
  else if Ascii.eqb c DQUOTE then
    modify read_char;;
    r1 ← get;
    w ← take_while (left r1) in_quotes "";
    r2 ← get;
    (if is_end (CurrentChar r2) || Ascii.eqb (CurrentChar r2) LF
     then file_error "Error in file at line " (StartLine r2)
     else modify read_char;; mret w)
  else
    w ← take_while (left r) word_char "";
    mret (if String.eqb w "" then lexical_word_null else w).

(** A C comment is opened by a slash and a star.  The condition of the loop that looks for
    its end, [while(end)], is false when the loop is reached: one more character is
    read, and that is all. *)
Definition read_word : SM Reader string :=
  jump_space;;
  r ← get;
  jump_comments (left r);;
  r ← get;
  if Ascii.eqb (CurrentChar r) "/" then
    modify read_char;;
    r ← get;
    if Ascii.eqb (CurrentChar r) "*" then
      modify read_char;; modify read_char;; jump_space;; read_token
    else mret "/"
  else read_token.

(** The text between quotes, where a backslash protects the next character. *)
Definition in_value (c : ascii) : bool := negb (Ascii.eqb c DQUOTE) && negb (is_end c).
Fixpoint take_quoted (n : nat) (w : string) : SM Reader string :=
  match n with
  | O => no_fuel
  | S n =>
      r ← get;
      if in_value (CurrentChar r) then
        when_ (Ascii.eqb (CurrentChar r) BSLASH) (modify read_char);;
        r ← get;
        modify read_char;;
        take_quoted n (w +:+ String (CurrentChar r) "")
      else mret w
  end.
Definition value_char (c : ascii) : bool :=
  (32 <? char_val c) && negb (Ascii.eqb c BSLASH) && negb (Ascii.eqb c ",").
Definition or_null (w : string) : string := if String.eqb w "" then lexical_word_null else w.

Definition read_full_word : SM Reader string :=
  modify start_line;;
  jump_space;;
  r ← get;
  let c := CurrentChar r in
  if Ascii.eqb c "," || Ascii.eqb c BSLASH then modify read_char;; mret (String c "")
  else if Ascii.eqb c DQUOTE then
    modify read_char;;
    r1 ← get;
    w ← take_quoted (left r1) "";
    r2 ← get;
    (if is_end (CurrentChar r2) then file_error "String too long at line " (StartLine r2)
     else modify read_char;; mret (or_null w))
  else
    w ← take_while (left r) (λ c _, value_char c) "";
    mret (or_null w).
End Words.

(** ** The parser *)

(** The object, the file on the disk included.  [reader] is the stream of the file, opened by
    [parse_res_file] only. *)
Record FileDatabase := mkFileDatabase {
  filename : string;
  m_server : t_server;
  reader : Reader;
  word : string;
  file : string;
}.
Definition set_server x d := mkFileDatabase (filename d) x (reader d) (word d) (file d).
Definition set_reader x d := mkFileDatabase (filename d) (m_server d) x (word d) (file d).
Definition set_word x d := mkFileDatabase (filename d) (m_server d) (reader d) x (file d).
Definition set_file x d := mkFileDatabase (filename d) (m_server d) (reader d) (word d) x.
Definition on_server (f : t_server → t_server) : SM FileDatabase unit := modify (λ d, set_server (f (m_server d)) d).

Definition on_reader {A} (m : SM Reader A) : SM FileDatabase A := λ d,
  match m (reader d) with Some (r, x) => Some (set_reader r d, x) | None => None end.

(** [word = read_word(f); lex = class_lex(word)]. *)
Definition next_word : SM FileDatabase Lex :=
  d ← get; w ← on_reader (read_word (filename d)); modify (set_word w);; mret (class_lex w).
Definition next_full_word : SM FileDatabase Lex :=
  d ← get; w ← on_reader (read_full_word (filename d)); modify (set_word w);; mret (class_lex w).

Definition CHECK_LEX (lt le : Lex) : SM FileDatabase unit :=
  d ← get;
  when_ (bool_decide (lt ≠ le)) (file_error (filename d) "Error in file at line " (StartLine (reader d))).
(** A word that has to be a name. *)
Definition next_string : SM FileDatabase string :=
  lex ← next_word; CHECK_LEX lex TG_STRING;; d ← get; mret (word d).

(** The loop of [parse_resource_value]. *)
Fixpoint resource_values (n : nat) (lex : Lex) (ret : list string) : SM FileDatabase (list string) :=
  match n with
  | O => no_fuel
  | S n =>
      d ← get;
      if bool_decide (lex = TG_COMA ∨ lex = TG_ASLASH) && negb (String.eqb (word d) "") then
        lex ← next_full_word;
        lex ← (if decide (lex = TG_ASLASH) then next_full_word else mret lex);
        CHECK_LEX lex TG_STRING;;
        d ← get;
        let ret := ret ++ [word d] in
        lex ← next_word;
        resource_values n lex ret
      else mret ret
  end.
Definition parse_resource_value : SM FileDatabase (list string) :=
  d ← get; resource_values (S (S (left (reader d)))) TG_COMA [].

(** *** What a definition does to the data *)

Definition push_device (name : string) (s : t_server) : t_server :=
  set_devices (devices s ++ [length (heap s)]) (set_heap (heap s ++ [mk_device name [] []]) s).
Fixpoint push_devices (names : list string) (s : t_server) : t_server :=
  match names with [] => s | n :: names => push_devices names (push_device n s) end.

(** [server/instance/DEVICE/class: devices]. *)
Definition define_class (instance kind name : string) (values : list string) (s : t_server) : t_server :=
  let s := set_instance_name instance s in
  let is_dev := equalsIgnoreCase kind "device" in
  let ids := if is_dev then seq (length (heap s)) (length values) else [] in
  let s := set_classes (classes s ++ [mk_class name ids [] []]) s in
  if is_dev then push_devices values s else s.

Definition add_property (name : string) (values : list string) (l : list t_property) : list t_property :=
  l ++ [mk_property name values].
(** The property of an attribute, which is added to the list when it is not there. *)
Definition add_attribute_property (attr name : string) (values : list string) (l : list t_attribute_property) :
  list t_attribute_property :=
  match find_name attribute_name attr l with
  | Some (i, ap) => <[i := mk_attribute_property (attribute_name ap) (add_property name values (ap_properties ap))]> l
  | None => l ++ [mk_attribute_property attr (add_property name values [])]
  end.

Definition alter_device (id : nat) (f : t_device → t_device) (s : t_server) : t_server :=
  set_heap (alter f id (heap s)) s.
Definition alter_class (i : nat) (f : t_tango_class → t_tango_class) (s : t_server) : t_server :=
  set_classes (alter f i (classes s)) s.
Definition alter_object (i : nat) (f : t_free_object → t_free_object) (s : t_server) : t_server :=
  set_free_objects (alter f i (free_objects s)) s.

Definition on_dev_props (f : list t_property → list t_property) (d : t_device) :=
  mk_device (d_name d) (f (d_properties d)) (d_attribute_properties d).
Definition on_dev_attrs (f : list t_attribute_property → list t_attribute_property) (d : t_device) :=
  mk_device (d_name d) (d_properties d) (f (d_attribute_properties d)).
Definition on_class_props (f : list t_property → list t_property) (c : t_tango_class) :=
  mk_class (c_name c) (c_devices c) (f (c_properties c)) (c_attribute_properties c).
Definition on_class_attrs (f : list t_attribute_property → list t_attribute_property) (c : t_tango_class) :=
  mk_class (c_name c) (c_devices c) (c_properties c) (f (c_attribute_properties c)).
Definition on_object_props (f : list t_property → list t_property) (o : t_free_object) :=
  mk_free_object (o_name o) (f (o_properties o)).

(** [device/attribute->property: values]; the device is not checked to be there. *)
Definition define_dev_attr_prop (dev attr name : string) (values : list string) (s : t_server) : outcome t_server :=
  d ← search_device s dev;
  id ← deref d;
  Ok (alter_device id (on_dev_attrs (add_attribute_property attr name values)) s).
(** [CLASS/class/attribute->property: values]; nothing when the class is not there. *)
Definition define_class_attr_prop (cls attr name : string) (values : list string) (s : t_server) : t_server :=
  match search_class s cls with
  | Some (i, _) => alter_class i (on_class_attrs (add_attribute_property attr name values)) s
  | None => s
  end.
(** [device->property: values]; nothing when the device is not there. *)
Definition define_dev_prop (dev name : string) (values : list string) (s : t_server) : outcome t_server :=
  d ← search_device s dev;
  Ok match d with Some id => alter_device id (on_dev_props (add_property name values)) s | None => s end.
(** [CLASS/class->property: values]. *)
Definition define_class_prop (cls name : string) (values : list string) (s : t_server) : t_server :=
  match search_class s cls with
  | Some (i, _) => alter_class i (on_class_props (add_property name values)) s
  | None => s
  end.
(** [FREE/object->property: values]; the object is added when it is not there. *)
Definition define_free_prop (obj name : string) (values : list string) (s : t_server) : t_server :=
  match search_free_object s obj with
  | Some (i, _) => alter_object i (on_object_props (add_property name values)) s
  | None => set_free_objects (free_objects s ++ [mk_free_object obj (add_property name values [])]) s
  end.

(** *** The definitions *)

(** [-> property : values]. *)
Definition prop_and_values : SM FileDatabase (string * list string) :=
  prop ← next_string;
  lex ← next_word;
  CHECK_LEX lex TG_COLON;;
  values ← parse_resource_value;
  mret (prop, values).
Definition on_server_or_undef (f : t_server → outcome t_server) : SM FileDatabase unit :=
  d ← get; s ← lift (f (m_server d)); modify (set_server s).

(** What ends the parsing: [return] with a text, or the definition is done. *)
Definition failed (what : string) : SM FileDatabase (option string) :=
  d ← get; mret (Some (what +:+ " expected at line " +:+ pretty (StartLine (reader d)))).

Definition slash3 (domain family member : string) : string := domain +:+ "/" +:+ family +:+ "/" +:+ member.

(** After [domain/family/member/]. *)
Definition four_fields (domain family member : string) : SM FileDatabase (option string) :=
  name ← next_string;
  lex ← next_word;
  match lex with
  | TG_COLON =>
      values ← parse_resource_value;
      on_server (define_class family member name values);; mret None
  | TG_ARROW =>
      pv ← prop_and_values;
      on_server_or_undef (define_dev_attr_prop (slash3 domain family member) name (fst pv) (snd pv));; mret None
  | _ => failed "COLON or ->"
  end.
(** After [domain/family/member->]. *)
Definition three_fields (domain family member : string) : SM FileDatabase (option string) :=
  pv ← prop_and_values;
  (if equalsIgnoreCase domain "class"
   then on_server (define_class_attr_prop family member (fst pv) (snd pv))
   else on_server_or_undef (define_dev_prop (slash3 domain family member) (fst pv) (snd pv)));;
  mret None.
(** After [domain/family->]: the word after the name of the property is not checked. *)
Definition two_fields (domain family : string) : SM FileDatabase (option string) :=
  member ← next_string;
  next_word;;
  values ← parse_resource_value;
  if equalsIgnoreCase domain "class" then on_server (define_class_prop family member values);; mret None
  else if equalsIgnoreCase domain "free" then on_server (define_free_prop family member values);; mret None
  else mret (Some ("Invlalid class property syntax on " +:+ slash3 domain family member)).

(** A turn of the loop: the first word has been read. *)
Definition parse_entry (lex : Lex) : SM FileDatabase (option string) :=
  match lex with
  | TG_STRING =>
      d ← get;
      let domain := word d in
      lex ← next_word;
      CHECK_LEX lex TG_SLASH;;
      family ← next_string;
      lex ← next_word;
      match lex with
      | TG_SLASH =>
          member ← next_string;
          lex ← next_word;
          match lex with
          | TG_SLASH => four_fields domain family member
          | TG_ARROW => three_fields domain family member
          | _ => failed "SLASH or ->"
          end
      | TG_ARROW => two_fields domain family
      | _ => failed "SLASH or ->"
      end
  | _ => d ← get; mret (Some ("Invalid resource name get  instead of STRING al line " +:+ pretty (StartLine (reader d))))
  end.
Fixpoint parse_entries (n : nat) (lex : Lex) : SM FileDatabase string :=
  match n with
  | O => no_fuel
  | S n =>
      err ← parse_entry lex;
      match err with
      | Some text => mret text
      | None =>
          d ← get;
          if String.eqb (word d) lexical_word_null then mret "" else parse_entries n (class_lex (word d))
      end
  end.

(** The reader of a file that was just opened. *)
Definition open_file (text : string) : Reader := mkReader (chars text) false " " " " 1 0.

Definition parse_res_file : SM FileDatabase string :=
  modify (λ d, set_reader (open_file (file d)) d);;
  lex ← next_word;
  d ← get;
  if String.eqb (word d) "" then mret (filename d +:+ " is empty...")
  else
    modify (λ d, set_server (set_s_name (word d) (m_server d)) d);;
    parse_entries (S (left (reader d))) lex.

(** ** The printer *)

Definition endl : string := String LF "".
Definition quote : string := String DQUOTE "".
Definition has_char (c : ascii) (s : string) : bool := existsb (Ascii.eqb c) (chars s).

Fixpoint escape_double_quote (value : string) : string :=
  match value with
  | "" => ""
  | String c value =>
      (if Ascii.eqb c DQUOTE then String BSLASH (String c "") else String c "") +:+ escape_double_quote value
  end.
Definition write_string_value (value : string) : string :=
  let has_double_quotes := has_char DQUOTE value in
  let q := if has_char " " value || has_char LF value || has_double_quotes then quote else "" in
  q +:+ (if has_double_quotes then escape_double_quote value else value) +:+ q.

Definition spaces (n : nat) : string := String.string_of_list_ascii (replicate n " "%char).
(** The next values of a property, each on a line of its own. *)
Fixpoint more_values (print : string → string) (margin : nat) (l : list string) : string :=
  match l with
  | [] => ""
  | v :: l => "," +:+ String BSLASH endl +:+ spaces margin +:+ print v +:+ more_values print margin l
  end.
Definition print_values (margin : nat) (l : list string) : string :=
  match l with [] => "" | v :: l => write_string_value v +:+ more_values write_string_value margin l end.

Fixpoint concat_str (l : list string) : string := match l with [] => "" | s :: l => s +:+ concat_str l end.

(** The line of a class; a class with no device has no first one. *)
Definition print_class_line (s : t_server) (c : t_tango_class) : outcome string :=
  let start := s_name s +:+ "/" +:+ instance_name s +:+ "/DEVICE/" +:+ c_name c +:+ ": " in
  let margin := (len (s_name s) + 1 + len (instance_name s) + 8 + len (c_name c) + 2)%nat in
  names ← mapM (dev_of s) (c_devices c);
  match d_name <$> names with
  | [] => Undef
  | d :: l =>
      let print n := quote +:+ n +:+ quote in
      Ok (start +:+ print d +:+ more_values print margin l +:+ endl)
  end.

(** A property without value has no first one; an empty first one is changed out of its bounds. *)
Definition print_class_prop (c : string) (p : t_property) : outcome string :=
  match p_value p with
  | [] | "" :: _ => Undef
  | l => Ok ("CLASS/" +:+ c +:+ "->" +:+ p_name p +:+ ": " +:+ print_values (6 + len c + 2 + len (p_name p) + 2) l +:+ endl)
  end.
Definition print_prop (start : string) (margin : nat) (p : t_property) : string :=
  start +:+ "->" +:+ p_name p +:+ ": " +:+ print_values (margin + len (p_name p) + 2) (p_value p) +:+ endl.
Definition print_attr_props (start : string) (margin : nat) (ap : t_attribute_property) : string :=
  concat_str (print_prop (start +:+ "/" +:+ attribute_name ap) (margin + 1 + len (attribute_name ap) + 2) <$> ap_properties ap).

Definition hashes : string := "#############################################" +:+ endl.
Definition comment_line (s : string) : string := "# " +:+ s +:+ endl.
Definition print_class (c : t_tango_class) : outcome string :=
  props ← mapM (print_class_prop (c_name c)) (c_properties c);
  Ok (hashes +:+ comment_line ("CLASS " +:+ c_name c) +:+ endl +:+ concat_str props +:+ endl +:+
      comment_line ("CLASS " +:+ c_name c +:+ " attribute properties") +:+ endl +:+
      concat_str (print_attr_props ("CLASS/" +:+ c_name c) (6 + len (c_name c)) <$> c_attribute_properties c) +:+ endl).
Definition print_device (d : t_device) : string :=
  comment_line ("DEVICE " +:+ d_name d +:+ " properties ") +:+ endl +:+
  concat_str (print_prop (d_name d) (len (d_name d) + 1) <$> d_properties d) +:+ endl +:+
  comment_line ("DEVICE " +:+ d_name d +:+ " attribute properties") +:+ endl +:+
  concat_str (print_attr_props (d_name d) (len (d_name d)) <$> d_attribute_properties d).
Definition print_object (o : t_free_object) : string :=
  concat_str (print_prop ("FREE/" +:+ o_name o) (5 + len (o_name o) + 2) <$> o_properties o).

Definition print_server (s : t_server) : outcome string :=
  lines ← mapM (print_class_line s) (classes s);
  cls ← mapM print_class (classes s);
  devs ← mapM (dev_of s) (devices s);
  Ok (concat_str lines +:+ endl +:+ concat_str cls +:+ endl +:+ concat_str (print_device <$> devs) +:+
      hashes +:+ comment_line "FREE OBJECT attributes" +:+ endl +:+ concat_str (print_object <$> free_objects s)).

Definition write_file : SM FileDatabase unit :=
  d ← get; text ← lift (print_server (m_server d)); modify (set_file text).

Definition empty_server : t_server := mk_server "" "" [] [] [] [].
(** The constructor, on a file with this text; what the parser returns is not looked at. *)
Definition new_FileDatabase (name text : string) : SM FileDatabase unit :=
  modify (λ _, mkFileDatabase name empty_server (open_file text) "" text);; parse_res_file;; mret ().
