(* ===== verification/FileDbLex.v ===== *)
(** * The words of the file of the database

  What [read_word] and [read_full_word] find in a text, and that what the printer
  writes for a value is read back as that value. *)
From Stdlib Require Import Ascii.
From stdpp Require Import pretty.
From S2P Require Import Prelude StateExn CppString FileDb.
Local Open Scope string_scope.
Local Open Scope list_scope.
Local Open Scope nat_scope.
#[local] Arguments String.append : simpl nomatch.

(** ** What comes out of a reader

  A reader is seen as the characters that come out of it; then it gives null
  characters without end. *)
Definition nth_char (k : nat) (r : Reader) : ascii := CurrentChar (Nat.iter k read_char r).
Definition reads_as (r : Reader) (l : list ascii) : Prop := ∀ k, nth_char k r = nth k l zero.

Lemma iter_read_char k r : Nat.iter (S k) read_char r = Nat.iter k read_char (read_char r).
Proof. symmetry. apply Nat.iter_swap. Qed.
Lemma reads_read_char r l : reads_as r l → reads_as (read_char r) (tl l).
Proof.
  intros H k. transitivity (nth_char (S k) r); [by unfold nth_char; rewrite iter_read_char|].
  rewrite (H (S k)). destruct l; [by destruct k|done].
Qed.
Lemma reads_cur r l : reads_as r l → CurrentChar r = hd zero l.
Proof. intros H. change (nth_char 0 r = hd zero l). rewrite (H 0). by destruct l. Qed.
Lemma cur_read_char r : CurrentChar (read_char r) = NextChar r.
Proof. unfold read_char. destruct (f_eof r); [done|]. by destruct (f_rest r). Qed.
Lemma reads_next r l : reads_as r l → NextChar r = hd zero (tl l).
Proof. intros H. rewrite <-cur_read_char. by apply reads_cur, reads_read_char. Qed.

(** The lines do not matter. *)
Definition same_text (r r' : Reader) : Prop :=
  f_rest r = f_rest r' ∧ f_eof r = f_eof r' ∧ CurrentChar r = CurrentChar r' ∧ NextChar r = NextChar r'.
Lemma same_text_read_char r r' : same_text r r' → same_text (read_char r) (read_char r').
Proof. destruct r, r'. intros (H1 & H2 & H3 & H4). unfold same_text, read_char. simpl in *. subst. by repeat case_match. Qed.
Lemma reads_start_line r l : reads_as r l → reads_as (start_line r) l.
Proof.
  intros H k. rewrite <-H. unfold nth_char.
  assert (same_text (Nat.iter k read_char (start_line r)) (Nat.iter k read_char r)) as (_ & _ & -> & _); [|done].
  induction k as [|k IH]; [done|]. by apply same_text_read_char.
Qed.

(** As many characters as [left] says. *)
Definition look (r : Reader) : list ascii :=
  if f_eof r then [CurrentChar r; NextChar r]
  else CurrentChar r :: NextChar r :: f_rest r ++ [List.last (f_rest r) (NextChar r)].
Lemma look_read_char r k : nth k (look (read_char r)) zero = nth (S k) (look r) zero.
Proof.
  destruct r as [l [] c n cl sl]; [by destruct k as [|[|[|k]]]|]. unfold look, read_char. cbn [f_eof f_rest CurrentChar NextChar].
  destruct l as [|c' l]; [by destruct k as [|[|[|k]]]|]. cbn [f_eof f_rest CurrentChar NextChar].
  assert (List.last l c' = List.last (c' :: l) n) as ->; [|done]. revert c'. induction l as [|a l IH]; intros c'; [done|].
  cbn [List.last]. destruct l; [done|]. apply IH.
Qed.
Lemma reads_look r : reads_as r (look r).
Proof.
  intros k. revert r. induction k as [|k IH]; intros r.
  - unfold look, nth_char. simpl. by destruct (f_eof r).
  - transitivity (nth_char k (read_char r)); [by unfold nth_char; rewrite iter_read_char|].
    rewrite IH. apply look_read_char.
Qed.
Lemma reads_char_left r l1 c l2 : reads_as r (l1 ++ c :: l2) → c ≠ zero → S (length l1) < left r.
Proof.
  intros H Hc. assert (length (look r) < left r) as Hl. { unfold look, left. destruct (f_eof r); simpl; rewrite ?length_app; simpl; lia. }
  destruct (decide (length l1 < length (look r))%nat) as [Hlt|]; [lia|]. destruct Hc. pose proof (H (length l1)) as Hk.
  by rewrite (reads_look r _), (nth_overflow (look r)), app_nth2, Nat.sub_diag in Hk by lia.
Qed.
Lemma reads_left r l1 l2 : reads_as r (l1 ++ l2) → zero ∉ l1 → length l1 < left r.
Proof.
  intros H Hz. destruct l1 as [|c l1 _] using rev_ind; [unfold left; destruct (f_eof r); simpl; lia|]. rewrite length_app. cbn [length].
  rewrite <-app_assoc in H. apply reads_char_left in H; [lia|]. set_solver.
Qed.
Lemma reads_end r l : reads_as r l → reads_as r (l ++ [zero]).
Proof. intros H k. rewrite (H k). destruct (decide (k < length l)); [by rewrite app_nth1|]. rewrite app_nth2, (nth_overflow l) by lia. by destruct (k - length l) as [|[|?]]. Qed.

(** [m] returns [a], and [l] is what comes then. *)
Definition yields {A} (m : SM Reader A) (r : Reader) (a : A) (l : list ascii) : Prop :=
  ∃ r', m r = Some (r', inr a) ∧ reads_as r' l.
Lemma yields_bind {A B} (m : SM Reader A) (f : A → SM Reader B) r a l b l' :
  yields m r a l → (∀ r', reads_as r' l → yields (f a) r' b l') → yields (m ≫= f) r b l'.
Proof. intros (r' & H & Hr) Hf. unfold yields. rewrite (run_bind _ _ _ _ _ H). by apply Hf. Qed.
Lemma yields_get {B} (f : Reader → SM Reader B) r b l : yields (f r) r b l → yields (r ← get; f r) r b l.
Proof. done. Qed.
Lemma yields_ret {A} (a : A) r l : reads_as r l → yields (mret a) r a l.
Proof. by exists r. Qed.
Lemma yields_char {B} (f : unit → SM Reader B) r l b l' :
  reads_as r l → (∀ r', reads_as r' (tl l) → yields (f ()) r' b l') → yields (modify read_char ≫= f) r b l'.
Proof. intros Hr Hf. apply Hf. by apply reads_read_char. Qed.
Lemma yields_start {B} (f : unit → SM Reader B) r l b l' :
  reads_as r l → (∀ r', reads_as r' l → yields (f ()) r' b l') → yields (modify start_line ≫= f) r b l'.
Proof. intros Hr Hf. apply Hf. by apply reads_start_line. Qed.

(** ** Loops *)

Lemma skip_while_reads p n r w l :
  reads_as r (w ++ l) → Forall (λ c, p c = true) w → p (hd zero l) = false → length w < n →
  yields (skip_while n p) r () l.
Proof.
  revert r w. induction n as [|n IH]; intros r w H Hw Hl Hn; [lia|]. apply yields_get.
  destruct w as [|c w]; rewrite (reads_cur _ _ H); cbn [app hd].
  - rewrite Hl. by apply yields_ret.
  - apply Forall_cons in Hw as [-> Hw]. eapply yields_char; [done|]. intros r' Hr. apply (IH _ w); [done..|]. simpl in Hn. lia.
Qed.

(** The characters of [w] are taken when [l] follows. *)
Fixpoint taken (p : ascii → ascii → bool) (w l : list ascii) : Prop :=
  match w with [] => True | c :: w => p c (hd zero (w ++ l)) = true ∧ taken p w l end.
Lemma take_while_reads p n r w l acc :
  reads_as r (w ++ l) → taken p w l → p (hd zero l) (hd zero (tl l)) = false → length w < n →
  yields (take_while n p acc) r (acc +:+ String.string_of_list_ascii w) l.
Proof.
  revert r w acc. induction n as [|n IH]; intros r w acc H Hw Hl Hn; [lia|]. apply yields_get.
  destruct w as [|c w]; rewrite (reads_cur _ _ H), (reads_next _ _ H); cbn [app hd tl].
  - rewrite Hl. simpl. rewrite app_empty. by apply yields_ret.
  - destruct Hw as [-> Hw]. eapply yields_char; [done|]. intros r' Hr.
    change (String.string_of_list_ascii (c :: w)) with (String c "" +:+ String.string_of_list_ascii w).
    rewrite <-app_assoc_str. apply (IH _ w); [done..|]. simpl in Hn. lia.
Qed.

Lemma take_quoted_reads n r w l acc :
  reads_as r (chars (escape_double_quote w) ++ DQUOTE :: l) → zero ∉ chars w → BSLASH ∉ chars w → len w < n →
  yields (take_quoted n acc) r (acc +:+ w) (DQUOTE :: l).
Proof.
  revert r w acc. induction n as [|n IH]; intros r w acc H Hz Hb Hn; [lia|]. apply yields_get.
  destruct w as [|c w]; [rewrite (reads_cur _ _ H); simpl; rewrite app_empty; by apply yields_ret|].
  cbn [String.list_ascii_of_string escape_double_quote] in *. assert (c ≠ zero ∧ c ≠ BSLASH) as [Hc1 Hc2] by set_solver.
  assert (is_end c = false) as He by (unfold is_end; by apply Ascii.eqb_neq).
  change (acc +:+ String c w) with (acc +:+ (String c "" +:+ w)). rewrite <-app_assoc_str.
  destruct (Ascii.eqb_spec c DQUOTE) as [->|Hd]; cbn [String.append String.list_ascii_of_string app] in H; rewrite (reads_cur _ _ H); cbn [hd].
  - eapply yields_char; [done|]. intros r1 H1. apply yields_get. rewrite (reads_cur _ _ H1). cbn [tl hd].
    eapply yields_char; [done|]. intros r2 H2. apply IH; [done|set_solver..|simpl in Hn; lia].
  - unfold in_value. rewrite (proj2 (Ascii.eqb_neq _ _) Hd), He. cbn [negb andb]. rewrite (proj2 (Ascii.eqb_neq _ _) Hc2).
    eapply yields_bind; [by apply yields_ret|]. intros r1 H1. apply yields_get. rewrite (reads_cur _ _ H1). cbn [hd].
    eapply yields_char; [done|]. intros r2 H2. apply IH; [done|set_solver..|simpl in Hn; lia].
Qed.

(** ** Blanks and comments *)

(** Blanks, and [n] lines of comments. *)
Inductive comments : nat → list ascii → Prop :=
  | comments_blanks b : Forall (λ c, blank c = true) b → comments 0 b
  | comments_line n b w l : Forall (λ c, blank c = true) b → LF ∉ w → zero ∉ w → comments n l →
      comments (S n) (b ++ "#"%char :: w ++ LF :: l).
Definition ignored (l : list ascii) : Prop := ∃ n, comments n l.

Lemma blank_zero c : blank c = true → c ≠ zero.
Proof. by intros H ->. Qed.
Lemma blanks_zero b : Forall (λ c, blank c = true) b → zero ∉ b.
Proof. rewrite Forall_forall. intros H Hz. by apply (blank_zero zero (H _ Hz)). Qed.
Lemma comments_zero n l : comments n l → zero ∉ l.
Proof.
  induction 1 as [b Hb|n b w l Hb _ Hw _ IH]; [by apply blanks_zero|]. pose proof (blanks_zero b Hb).
  rewrite elem_of_app, elem_of_cons, elem_of_app, elem_of_cons. intros [?|[?|[?|[?|?]]]]; done.
Qed.
Lemma comments_le n l : comments n l → n ≤ length l.
Proof. induction 1; rewrite ?length_app; simpl; rewrite ?length_app; simpl; lia. Qed.
Lemma ignored_app l1 l2 : ignored l1 → ignored l2 → ignored (l1 ++ l2).
Proof.
  intros [n H1]. revert l2. induction H1 as [b Hb|n b w l Hb Hl Hw _ IH]; intros l2 H2.
  - destruct H2 as [n [b' Hb'|n' b' w l Hb' Hw Hz Hl]]; [exists 0; constructor; by apply Forall_app|].
    exists (S n'). rewrite app_assoc. constructor; [by apply Forall_app|done..].
  - destruct (IH l2 H2) as [k Hk]. exists (S k). rewrite <-app_assoc. simpl. rewrite <-app_assoc. simpl. by constructor.
Qed.
Lemma ignored_blank b : Forall (λ c, blank c = true) b → ignored b.
Proof. intros H. exists 0. by constructor. Qed.
Lemma ignored_comment w l : LF ∉ w → zero ∉ w → ignored l → ignored ("#"%char :: w ++ LF :: l).
Proof. intros Hl Hz [n H]. exists (S n). by apply (comments_line n []). Qed.

(** The text after the blanks and the comments: what starts a word, or nothing. *)
Definition word_starts (l : list ascii) : Prop := blank (hd zero l) = false ∧ hd zero l ≠ "#"%char.

Lemma reads_jump_space r b l : reads_as r (b ++ l) → Forall (λ c, blank c = true) b → blank (hd zero l) = false →
  yields jump_space r () l.
Proof. intros H Hb Hl. apply yields_get, (skip_while_reads _ _ _ b); [done..|]. by eapply reads_left, blanks_zero. Qed.

Lemma reads_jump_line r w l : reads_as r (w ++ LF :: l) → LF ∉ w → zero ∉ w → yields jump_line r () l.
Proof.
  intros H Hl Hz. apply yields_get. apply yields_bind with () (LF :: l); [|intros r' Hr; exists (read_char r'); split; [done|by apply reads_read_char in Hr]].
  apply (skip_while_reads _ _ _ w); [done| |done|by eapply reads_left].
  apply Forall_forall. intros c Hc. unfold in_line, is_end.
  rewrite (proj2 (Ascii.eqb_neq c LF)), (proj2 (Ascii.eqb_neq c zero)) by (intros ->; done). done.
Qed.

Lemma reads_jump_comments k n r pre l : comments k pre → reads_as r (pre ++ l) → word_starts l → k < n →
  yields (jump_space;; jump_comments n) r () l.
Proof.
  intros Hi. revert n r. induction Hi as [b Hb|k b w pre Hb Hw Hz Hi IH]; intros n r H [Hl1 Hl2] Hn.
  - eapply yields_bind; [by apply (reads_jump_space r b)|]. intros r1 H1. destruct n; [lia|]. apply yields_get. rewrite (reads_cur _ _ H1).
    rewrite (proj2 (Ascii.eqb_neq _ _) Hl2). by apply yields_ret.
  - rewrite <-app_assoc in H. eapply yields_bind; [by apply (reads_jump_space r b)|]. intros r1 H1.
    destruct n as [|n]; [lia|]. apply yields_get. rewrite (reads_cur _ _ H1). cbn [app hd].
    eapply yields_bind; [|intros r2 H2; apply IH; [exact H2|done|lia]]. cbn [app] in H1. rewrite <-app_assoc in H1.
    apply (reads_jump_line _ ("#"%char :: w)); [done|rewrite elem_of_cons; naive_solver..].
Qed.
(** The lines of comments are not more than the fuel. *)
Lemma comments_left k pre r l : comments k pre → reads_as r (pre ++ l) → word_starts l →
  ∃ r1, jump_space r = Some (r1, inr ()) ∧ k < left r1.
Proof.
  intros [b Hb|k' b w pre' Hb Hw Hz Hi] H Hl; [|rewrite <-app_assoc in H];
    (destruct (reads_jump_space r b _ H) as (r1 & H1 & Hr); [done|by destruct Hl|]; exists r1; split; [done|]).
  { unfold left. destruct (f_eof r1); lia. }
  pose proof (comments_le _ _ Hi). apply reads_left in Hr.
  - revert Hr. cbn [length]. rewrite length_app. cbn [length]. lia.
  - pose proof (comments_zero _ _ Hi). rewrite elem_of_cons, elem_of_app, elem_of_cons. naive_solver.
Qed.
Lemma reads_skip r pre l : ignored pre → reads_as r (pre ++ l) → word_starts l →
  yields (jump_space;; r ← get; jump_comments (left r)) r () l.
Proof.
  intros [k Hk] H Hl. destruct (comments_left _ _ _ _ Hk H Hl) as (r1 & H1 & Hn).
  pose proof (reads_jump_comments k (left r1) r pre l Hk H Hl Hn) as Hc. unfold yields in *.
  rewrite (run_bind _ _ _ _ _ H1) in Hc. by rewrite (run_bind _ _ _ _ _ H1).
Qed.

(** ** Words *)

Section Words.
Context (fn : string).

(** A text whose first word is [w], before [l']. *)
Definition gives (m : SM Reader string) (l : list ascii) (w : string) (l' : list ascii) : Prop :=
  ∀ r, reads_as r l → yields m r w l'.

Lemma yields_word {B} pre l r (m : SM Reader B) b l' : ignored pre → word_starts l → reads_as r (pre ++ l) →
  (∀ r', reads_as r' l → yields m r' b l') → yields (jump_space;; r ← get; jump_comments (left r);; m) r b l'.
Proof.
  intros Hi Hl Hr Hf. pose proof (yields_bind _ (λ _, m) _ _ _ b l' (reads_skip r pre l Hi Hr Hl)) as Hb.
  unfold yields, mbind, SM_bind, get in *. destruct (jump_space r) as [[r1 [e|[]]]|]; by apply Hb.
Qed.
Lemma gives_token pre l w l' : ignored pre → word_starts l → hd zero l ≠ "/"%char →
  gives (read_token fn) l w l' → gives (read_word fn) (pre ++ l) w l'.
Proof.
  intros Hi Hl Hs H r Hr. unfold read_word. apply yields_word with pre l; [done..|]. intros r' Hr'. apply yields_get.
  rewrite (reads_cur _ _ Hr'), (proj2 (Ascii.eqb_neq _ _) Hs). by apply H.
Qed.
Lemma gives_slash pre l : ignored pre → hd zero l ≠ "*"%char → gives (read_word fn) (pre ++ "/"%char :: l) "/" l.
Proof.
  intros Hi Hl r Hr. unfold read_word. apply yields_word with pre ("/"%char :: l); [done..|]. intros r1 H1. apply yields_get.
  rewrite (reads_cur _ _ H1). cbn [hd]. rewrite Ascii.eqb_refl. eapply yields_char; [done|]. intros r2 H2. apply yields_get.
  rewrite (reads_cur _ _ H2). cbn [tl]. rewrite (proj2 (Ascii.eqb_neq _ _) Hl). by apply yields_ret.
Qed.

(** *** Names *)

Fixpoint no_arrow (l : list ascii) : bool :=
  match l with
  | a :: l => negb (Ascii.eqb a "-" && Ascii.eqb (hd zero l) ">") && no_arrow l
  | [] => true
  end.
(** A name that is read as one word. *)
Definition good_name (w : string) : bool :=
  negb (String.eqb w "") && forallb (λ c, (32 <? char_val c)%Z && negb (special c)) (chars w) && no_arrow (chars w) &&
  forallb (λ c, negb (Ascii.eqb (hd zero (chars w)) c)) ["#"%char; DQUOTE; "*"%char].
(** What follows a name. *)
Definition name_ends (l : list ascii) : Prop :=
  word_char (hd zero l) (hd zero (tl l)) = false ∧ hd zero l ≠ ">"%char.

Lemma taken_name w l : forallb (λ c, (32 <? char_val c)%Z && negb (special c)) w = true → no_arrow w = true →
  hd zero l ≠ ">"%char → taken word_char w l.
Proof.
  intros Hw Ha Hl. induction w as [|c w IH]; [done|]. cbn [forallb no_arrow taken] in *.
  apply andb_true_iff in Hw as [[Hv Hs]%andb_true_iff Hw]. apply andb_true_iff in Ha as [Ha Ha'].
  split; [|by apply IH]. unfold word_char. rewrite Hv, Hs. destruct w as [|c' w]; [|exact Ha].
  cbn [app andb]. apply negb_true_iff, andb_false_intro2. by apply Ascii.eqb_neq.
Qed.

Lemma char_not_blank c : (32 <? char_val c)%Z = true → blank c = false.
Proof. unfold blank. intros H%Z.ltb_lt. by rewrite (proj2 (Z.leb_gt _ _)). Qed.

Lemma good_name_first w : good_name w = true → ∃ c w', chars w = c :: w' ∧
  (32 <? char_val c)%Z = true ∧ special c = false ∧ c ≠ "#"%char ∧ c ≠ DQUOTE ∧ c ≠ "*"%char ∧
  (Ascii.eqb c "-" && Ascii.eqb (hd zero w') ">") = false.
Proof.
  intros H. unfold good_name in H. destruct w as [|c w]; [done|].
  cbn [String.eqb negb String.list_ascii_of_string forallb no_arrow hd andb] in H.
  repeat match goal with H : _ && _ = true |- _ => apply andb_true_iff in H as [? ?] end.
  exists c, (chars w). repeat match goal with H : negb (Ascii.eqb _ _) = true |- _ => apply negb_true_iff, Ascii.eqb_neq in H end.
  repeat match goal with H : negb _ = true |- _ => apply negb_true_iff in H end. done.
Qed.

Lemma special_slash c : special c = false → c ≠ "/"%char.
Proof. by intros H ->. Qed.

Lemma gives_name pre w l : ignored pre → good_name w = true → name_ends l →
  gives (read_word fn) (pre ++ chars w ++ l) w l.
Proof.
  intros Hi Hw [Hl1 Hl2]. destruct (good_name_first w Hw) as (c & w' & Hc & Hv & Hs & H1 & H2 & H3 & H4).
  apply gives_token; [done| | |].
  { unfold word_starts. rewrite Hc. simpl. split; [by apply char_not_blank|done]. }
  { rewrite Hc. by apply special_slash. }
  intros r0 H0. unfold read_token. eapply yields_start; [done|]. intros r Hr. apply yields_get. cbv zeta.
  assert (CurrentChar r = c) as Ec by (rewrite (reads_cur _ _ Hr), Hc; done).
  assert (NextChar r = hd zero (w' ++ l)) as En by (rewrite (reads_next _ _ Hr), Hc; done).
  rewrite Ec, En, Hs. assert ((Ascii.eqb c "-" && Ascii.eqb (hd zero (w' ++ l)) ">") = false) as ->.
  { destruct w'; [|done]. simpl. apply andb_false_intro2. by apply Ascii.eqb_neq. }
  rewrite (proj2 (Ascii.eqb_neq _ _) H2).
  assert (zero ∉ chars w) as Hz.
  { unfold good_name in Hw. propb. match goal with H : forallb _ (chars w) = true |- _ => rewrite forallb_forall in H; rename H into Hf end.
    intros Hz%list_elem_of_In. by apply Hf in Hz. }
  unfold good_name in Hw. propb.
  eapply yields_bind.
  { apply (take_while_reads word_char _ _ (chars w) l); [done|by apply taken_name|done|by eapply reads_left]. }
  intros r' Hr'. rewrite String.string_of_list_ascii_of_string. exists r'. split; [|done]. simpl. by destruct w.
Qed.

Lemma gives_special pre c l : ignored pre → c = ":"%char ∨ c = ","%char ∨ c = BSLASH →
  gives (read_word fn) (pre ++ c :: l) (String c "") l.
Proof.
  intros Hi Hc. apply gives_token; [done|by destruct Hc as [->|[->| ->]]..|].
  intros r0 H0. unfold read_token. eapply yields_start; [done|]. intros r Hr. apply yields_get. cbv zeta.
  rewrite (reads_cur _ _ Hr). cbn [hd]. assert (special c = true) as -> by (by destruct Hc as [->|[->| ->]]).
  eapply yields_char; [done|]. intros r1 H1. by apply yields_ret.
Qed.
Lemma gives_arrow pre l : ignored pre → gives (read_word fn) (pre ++ "-"%char :: ">"%char :: l) "->" l.
Proof.
  intros Hi. apply gives_token; [done..|].
  intros r0 H0. unfold read_token. eapply yields_start; [done|]. intros r Hr. apply yields_get. cbv zeta.
  rewrite (reads_cur _ _ Hr), (reads_next _ _ Hr). simpl.
  eapply yields_char; [done|]. intros r1 H1. eapply yields_char; [done|]. intros r2 H2. by apply yields_ret.
Qed.
Lemma gives_end pre : ignored pre → gives (read_word fn) pre lexical_word_null [].
Proof.
  intros Hi. rewrite <-(app_nil_r pre). apply gives_token; [done..|].
  intros r0 H0. unfold read_token. eapply yields_start; [done|]. intros r Hr. apply yields_get. cbv zeta.
  rewrite (reads_cur _ _ Hr), (reads_next _ _ Hr). cbn -[take_while].
  eapply yields_bind; [apply (take_while_reads word_char _ _ [] [] ""); [done..|]|intros r' Hr'; by apply yields_ret].
  unfold left. destruct (f_eof _); simpl; lia.
Qed.

(** *** Values *)

Definition quoted (v : string) : bool := has_char " " v || has_char LF v || has_char DQUOTE v.
(** A value that is read back as it was written. *)
Definition good_value (v : string) : bool :=
  bool_decide (class_lex v = TG_STRING) &&
  (if quoted v then negb (has_char BSLASH v) && negb (has_char zero v) else forallb value_char (chars v)).

Lemma has_char_spec c v : has_char c v = true ↔ c ∈ chars v.
Proof.
  unfold has_char. rewrite existsb_exists. split.
  - intros (c' & H & <-%Ascii.eqb_eq). by apply list_elem_of_In.
  - intros H. exists c. split; [by apply list_elem_of_In|apply Ascii.eqb_refl].
Qed.
Lemma has_no_char c v : has_char c v = false ↔ c ∉ chars v.
Proof. rewrite <-has_char_spec. by destruct (has_char c v). Qed.
Lemma escape_plain v : DQUOTE ∉ chars v → escape_double_quote v = v.
Proof.
  induction v as [|c v IH]; [done|]. simpl. rewrite elem_of_cons. intros H.
  rewrite (proj2 (Ascii.eqb_neq _ _)) by naive_solver. simpl. rewrite IH by naive_solver. done.
Qed.
Lemma class_lex_ne v : class_lex v = TG_STRING → v ≠ "".
Proof. by intros H ->. Qed.

Lemma gives_quoted b v l : Forall (λ c, blank c = true) b → v ≠ "" → zero ∉ chars v → BSLASH ∉ chars v →
  gives (read_full_word fn) (b ++ DQUOTE :: chars (escape_double_quote v) ++ DQUOTE :: l) v l.
Proof.
  intros Hb Hv Hz Hs r Hr. unfold read_full_word. eapply yields_start; [done|]. intros r1 H1.
  eapply yields_bind; [by eapply reads_jump_space|]. intros r2 H2. apply yields_get. cbv zeta. rewrite (reads_cur _ _ H2). cbn [hd].
  change (Ascii.eqb DQUOTE "," || Ascii.eqb DQUOTE BSLASH) with false. rewrite Ascii.eqb_refl.
  eapply yields_char; [done|]. intros r3 H3. cbn [tl] in H3. apply yields_get. eapply yields_bind.
  { apply take_quoted_reads; [done..|]. apply Nat.le_lt_trans with (length (chars (escape_double_quote v))).
    - clear. induction v as [|c v IH]; [done|]. simpl. rewrite chars_app, length_app. destruct (Ascii.eqb c DQUOTE); simpl; lia.
    - eapply reads_left; [done|]. clear -Hz. induction v as [|c v IH]; [set_solver|]. simpl in *.
      rewrite chars_app, elem_of_app. destruct (Ascii.eqb c DQUOTE); simpl; set_solver. }
  intros r4 H4. apply yields_get. rewrite (reads_cur _ _ H4). cbn [hd]. change (is_end DQUOTE) with false. cbv iota.
  eapply yields_char; [done|]. intros r5 H5. exists r5. split; [|done]. unfold or_null. by destruct v.
Qed.

Lemma value_ends l : hd zero l = ","%char ∨ hd zero l = LF → value_char (hd zero l) = false.
Proof. by intros [-> | ->]. Qed.
Lemma gives_value b v l : Forall (λ c, blank c = true) b → good_value v = true → hd zero l = ","%char ∨ hd zero l = LF →
  gives (read_full_word fn) (b ++ chars (write_string_value v) ++ l) v l.
Proof.
  intros Hb Hv Hl. unfold good_value in Hv. apply andb_true_iff in Hv as [Hc%bool_decide_eq_true_1 Hv].
  unfold write_string_value. destruct (quoted v) eqn:Q; unfold quoted in Q; rewrite Q.
  - propb. rewrite !has_no_char in *. rewrite !chars_app, <-app_assoc.
    assert ((if has_char DQUOTE v then escape_double_quote v else v) = escape_double_quote v) as ->.
    { destruct (has_char DQUOTE v) eqn:D; [done|]. symmetry. apply escape_plain. by apply has_no_char. }
    simpl. rewrite <-app_assoc. by apply gives_quoted; [|apply class_lex_ne|..].
  - apply orb_false_iff in Q as [_ Q]. rewrite Q. cbn [String.append]. rewrite app_empty.
    intros r Hr. unfold read_full_word. eapply yields_start; [done|]. intros r1 H1. destruct v as [|c v]; [done|].
    rename Hv into Hf. pose proof Hf as Hf'. cbn [forallb String.list_ascii_of_string] in Hf'.
    apply andb_true_iff in Hf' as [Hvc _]. unfold value_char in Hvc.
    apply andb_true_iff in Hvc as [[Hvc Hvb%negb_true_iff]%andb_true_iff Hvk%negb_true_iff].
    eapply yields_bind; [by apply (reads_jump_space _ b); [|done|apply char_not_blank]|]. intros r2 H2. apply yields_get. cbv zeta.
    rewrite (reads_cur _ _ H2). cbn [hd app String.list_ascii_of_string].
    rewrite Hvb, Hvk.
    assert (Ascii.eqb c DQUOTE = false) as ->. { apply has_no_char in Q. simpl in Q. apply Ascii.eqb_neq. set_solver. }
    simpl orb. cbv iota.
    eapply yields_bind; [apply (take_while_reads (λ c _, value_char c) _ _ (chars (String c v)) l ""); [exact H2|..]|].
    { clear -Hf. induction (chars (String c v)) as [|a w IH]; [done|]. simpl in *. propb. split; [done|auto]. }
    { by apply value_ends. }
    { eapply reads_left; [done|]. intros Hz%list_elem_of_In. rewrite forallb_forall in Hf. by apply Hf in Hz. }
    intros r3 H3. rewrite String.string_of_list_ascii_of_string. by apply yields_ret.
Qed.
Lemma gives_backslash l : gives (read_full_word fn) (BSLASH :: l) (String BSLASH "") l.
Proof.
  intros r Hr. unfold read_full_word. eapply yields_start; [done|]. intros r1 H1.
  eapply yields_bind; [by apply (reads_jump_space _ [])|]. intros r2 H2. apply yields_get. cbv zeta. rewrite (reads_cur _ _ H2). cbn [hd].
  eapply yields_char; [done|]. intros r3 H3. by apply yields_ret.
Qed.
End Words.
