(* ===== verification/FileDbText.v ===== *)
(** * The file of the database is read back as it was written

  The text of a file is seen as a list of definitions ([entry]), with blanks and comments
  between them: parsing is to execute them in order ([parse_prints]). *)
From Stdlib Require Import Ascii.
From stdpp Require Import pretty.
From S2P Require Import Prelude StateExn CppString FileDb FileDbLex.
Local Open Scope string_scope.
Local Open Scope list_scope.
Local Open Scope nat_scope.
#[local] Arguments String.append : simpl nomatch.

Section Text.
Context (fn txt : string).

(** The data, the last word and the rest of the text. *)
Record at_text (sv : t_server) (w : string) (t : list ascii) (d : FileDatabase) : Prop := mk_at_text {
  at_server : m_server d = sv;
  at_word : word d = w;
  at_reads : reads_as (reader d) t;
  at_name : filename d = fn;
  at_file : file d = txt;
}.

Lemma wp_on_reader_word (m : SM Reader string) sv w0 t w t' d Q :
  at_text sv w0 t d → gives m t w t' →
  (∀ d', at_text sv w t' d' → Q d' (inr (class_lex w))) →
  wp (w ← on_reader m; modify (set_word w);; mret (class_lex w)) d Q.
Proof.
  intros [H1 H2 H3 H4 H5] Hg HQ. destruct (Hg _ H3) as (r' & Hr & Hr').
  apply wp_bind. unfold wp, on_reader. rewrite Hr. apply HQ. by constructor.
Qed.
Lemma wp_next_word sv w0 t w t' d Q :
  at_text sv w0 t d → gives (read_word fn) t w t' →
  (∀ d', at_text sv w t' d' → Q d' (inr (class_lex w))) → wp next_word d Q.
Proof.
  intros Hd Hg HQ. unfold next_word. apply wp_bind. apply wp_get. rewrite (at_name _ _ _ _ Hd).
  by eapply wp_on_reader_word.
Qed.
Lemma wp_next_full_word sv w0 t w t' d Q :
  at_text sv w0 t d → gives (read_full_word fn) t w t' →
  (∀ d', at_text sv w t' d' → Q d' (inr (class_lex w))) → wp next_full_word d Q.
Proof.
  intros Hd Hg HQ. unfold next_full_word. apply wp_bind. apply wp_get. rewrite (at_name _ _ _ _ Hd).
  by eapply wp_on_reader_word.
Qed.
Lemma wp_check_lex lex d Q : Q d (inr ()) → wp (CHECK_LEX lex lex) d Q.
Proof. intros HQ. unfold CHECK_LEX. apply wp_bind, wp_get. by rewrite bool_decide_eq_false_2 by naive_solver. Qed.
Lemma wp_next_string sv w0 t w t' d Q :
  at_text sv w0 t d → gives (read_word fn) t w t' → class_lex w = TG_STRING →
  (∀ d', at_text sv w t' d' → Q d' (inr w)) → wp next_string d Q.
Proof.
  intros Hd Hg Hc HQ. unfold next_string. apply wp_bind. eapply wp_next_word; [done..|]. intros d' Hd'. rewrite Hc.
  apply wp_bind, wp_check_lex, wp_bind, wp_get, wp_ret. rewrite (at_word _ _ _ _ Hd'). by apply HQ.
Qed.

(** ** Values *)

(** A way to print values that are read back. *)
Definition printable (print : string → string) (v : string) : Prop :=
  class_lex v = TG_STRING ∧
  ∀ b l, Forall (λ c, blank c = true) b → hd zero l = ","%char ∨ hd zero l = LF →
    gives (read_full_word fn) (b ++ chars (print v) ++ l) v l.

Lemma printable_value v : good_value v = true → printable write_string_value v.
Proof.
  intros H. split; [|intros; by apply gives_value].
  unfold good_value in H. by apply andb_true_iff in H as [?%bool_decide_eq_true_1 _].
Qed.

Lemma spaces_blank n : Forall (λ c, blank c = true) (chars (spaces n)).
Proof. unfold spaces. rewrite String.list_ascii_of_string_of_list_ascii. by apply Forall_replicate. Qed.

Section Values.
Context (print : string → string) (margin : nat) (sv : t_server) (w' : string) (t t' : list ascii).
Context (Hend : gives (read_word fn) (LF :: t) w' t').
Context (Hw' : class_lex w' ≠ TG_COMA ∧ class_lex w' ≠ TG_ASLASH).

(** What follows a value. *)
Definition more (l : list string) : list ascii := chars (more_values print margin l) ++ LF :: t.
Lemma more_cons v l : more (v :: l) =
  ","%char :: BSLASH :: LF :: chars (spaces margin) ++ chars (print v) ++ more l.
Proof. unfold more. cbn [more_values]. rewrite !chars_app, <-!app_assoc. done. Qed.
Lemma more_hd l : hd zero (more l) = ","%char ∨ hd zero (more l) = LF.
Proof. destruct l; [by right|]. rewrite more_cons. by left. Qed.
Lemma more_length l : ∃ l1, more l = l1 ++ LF :: t ∧ length l ≤ length l1.
Proof.
  exists (chars (more_values print margin l)). split; [done|]. induction l as [|v l IH]; [done|].
  cbn [more_values]. rewrite !chars_app, !length_app. simpl. lia.
Qed.

(** The turns of the loop once a value has been read. *)
Lemma wp_more n l ret d Q :
  Forall (printable print) l → length l < n → ∀ v, at_text sv v (more l) d →
  (∀ d', at_text sv w' t' d' → Q d' (inr (ret ++ l))) →
  wp (lex ← next_word; resource_values n lex ret) d Q.
Proof using Hend Hw'.
  revert n ret d. induction l as [|v l IH]; intros n ret d Hl Hn v0 Hd HQ; apply wp_bind.
  - eapply wp_next_word; [done..|]. intros d' Hd'. destruct n as [|n]; [lia|]. cbn [resource_values].
    apply wp_bind, wp_get. rewrite bool_decide_eq_false_2 by naive_solver. apply wp_ret. rewrite app_nil_r in HQ. by apply HQ.
  - apply Forall_cons in Hl as [[Hv1 Hv2] Hl]. cbn [length] in Hn. destruct n as [|n]; [lia|]. rewrite more_cons in Hd.
    eapply wp_next_word; [done|by apply (gives_special fn []); [apply ignored_blank|auto]|]. intros d1 H1.
    cbn [resource_values]. apply wp_bind, wp_get. rewrite (at_word _ _ _ _ H1). cbn -[wp].
    apply wp_bind. eapply wp_next_full_word; [done|apply gives_backslash|]. intros d2 E2.
    apply wp_bind. cbn -[wp]. eapply wp_next_full_word; [done|..].
    { apply (Hv2 (LF :: chars (spaces margin))); [|apply more_hd]. constructor; [done|apply spaces_blank]. }
    intros d3 H3. rewrite Hv1. apply wp_bind, wp_check_lex. apply wp_bind, wp_get. rewrite (at_word _ _ _ _ H3).
    eapply IH; [done|lia|done|]. intros d4 H4. rewrite <-app_assoc. by apply HQ.
Qed.

Lemma wp_values v l w0 d Q :
  Forall (printable print) (v :: l) → w0 ≠ "" → at_text sv w0 (" "%char :: chars (print v) ++ more l) d →
  (∀ d', at_text sv w' t' d' → Q d' (inr (v :: l))) →
  wp parse_resource_value d Q.
Proof using Hend Hw'.
  intros [[Hv1 Hv2] Hl]%Forall_cons Hw Hd HQ. unfold parse_resource_value. apply wp_bind, wp_get.
  destruct (more_length l) as (l1 & Hm & Hlen).
  assert (length l < left (reader d)) as Hn.
  { pose proof (at_reads _ _ _ _ Hd) as Hr. rewrite Hm, app_assoc, app_comm_cons in Hr. apply reads_char_left in Hr; [|done].
    cbn [length] in Hr. rewrite length_app in Hr. lia. }
  assert (length l < S (left (reader d))) as Hn' by lia. revert Hn'. generalize (S (left (reader d))). intros n Hn'.
  cbn [resource_values]. apply wp_bind, wp_get. rewrite (at_word _ _ _ _ Hd), (proj2 (String.eqb_neq _ _) Hw). cbn -[wp left].
  apply wp_bind. eapply wp_next_full_word; [done|..].
  { apply (Hv2 [" "%char]); [by repeat constructor|apply more_hd]. }
  intros d1 H1. rewrite Hv1. apply wp_bind. cbn -[wp left]. apply wp_ret, wp_bind, wp_check_lex, wp_bind, wp_get.
  rewrite (at_word _ _ _ _ H1). eapply wp_more; [done|done|done|]. intros d2 H2. by apply HQ.
Qed.
End Values.

(** ** Definitions *)

(** A definition of the file. *)
Inductive entry :=
  | EClass (server instance cls : string) (devs : list string)
  | EClassProp (cls prop : string) (values : list string)
  | EClassAttr (cls attr prop : string) (values : list string)
  | EDevProp (domain family member prop : string) (values : list string)
  | EDevAttr (domain family member attr prop : string) (values : list string)
  | EFree (obj prop : string) (values : list string).

(** What it does to the data. *)
Definition exec_entry (e : entry) (s : t_server) : outcome t_server :=
  match e with
  | EClass _ instance cls devs => Ok (define_class instance "DEVICE" cls devs s)
  | EClassProp cls prop values => Ok (define_class_prop cls prop values s)
  | EClassAttr cls attr prop values => Ok (define_class_attr_prop cls attr prop values s)
  | EDevProp domain family member prop values => define_dev_prop (slash3 domain family member) prop values s
  | EDevAttr domain family member attr prop values => define_dev_attr_prop (slash3 domain family member) attr prop values s
  | EFree obj prop values => Ok (define_free_prop obj prop values s)
  end.
Fixpoint exec_entries (es : list entry) (s : t_server) : outcome t_server :=
  match es with [] => Ok s | e :: es => s ← exec_entry e s; exec_entries es s end.

(** Its text: the first word, and the rest of the lines. *)
Definition entry_word (e : entry) : string :=
  match e with
  | EClass server _ _ _ => server
  | EClassProp _ _ _ | EClassAttr _ _ _ _ => "CLASS"
  | EDevProp domain _ _ _ _ | EDevAttr domain _ _ _ _ _ => domain
  | EFree _ _ _ => "FREE"
  end.
Definition entry_names (e : entry) : string :=
  match e with
  | EClass _ instance cls _ => "/" +:+ instance +:+ "/DEVICE/" +:+ cls +:+ ": "
  | EClassProp cls prop _ => "/" +:+ cls +:+ "->" +:+ prop +:+ ": "
  | EClassAttr cls attr prop _ => "/" +:+ cls +:+ "/" +:+ attr +:+ "->" +:+ prop +:+ ": "
  | EDevProp _ family member prop _ => "/" +:+ family +:+ "/" +:+ member +:+ "->" +:+ prop +:+ ": "
  | EDevAttr _ family member attr prop _ => "/" +:+ family +:+ "/" +:+ member +:+ "/" +:+ attr +:+ "->" +:+ prop +:+ ": "
  | EFree obj prop _ => "/" +:+ obj +:+ "->" +:+ prop +:+ ": "
  end.
Definition entry_values (e : entry) : list string :=
  match e with
  | EClass _ _ _ l | EClassProp _ _ l | EClassAttr _ _ _ l | EDevProp _ _ _ _ l | EDevAttr _ _ _ _ _ l | EFree _ _ l => l
  end.
Definition quote_name (n : string) : string := quote +:+ n +:+ quote.
Definition entry_print (e : entry) : string → string :=
  match e with EClass _ _ _ _ => quote_name | _ => write_string_value end.
Definition entry_rest (margin : nat) (e : entry) : string :=
  entry_names e +:+
  match entry_values e with
  | [] => ""
  | v :: l => entry_print e v +:+ more_values (entry_print e) margin l +:+ endl
  end.

(** A definition that is read back. *)
Definition entry_parts (e : entry) : list string :=
  match e with
  | EClass server instance cls _ => [server; instance; cls]
  | EClassProp cls prop _ => [cls; prop]
  | EClassAttr cls attr prop _ => [cls; attr; prop]
  | EDevProp domain family member prop _ => [domain; family; member; prop]
  | EDevAttr domain family member attr prop _ => [domain; family; member; attr; prop]
  | EFree obj prop _ => [obj; prop]
  end.
Definition good_entry (e : entry) : Prop :=
  Forall (λ w, good_name w = true) (entry_parts e) ∧ entry_word e ≠ lexical_word_null ∧
  Forall (printable (entry_print e)) (entry_values e) ∧ entry_values e ≠ [] ∧
  match e with EDevProp domain _ _ _ _ => equalsIgnoreCase domain "class" = false | _ => True end.

Lemma good_name_lex w : good_name w = true → class_lex w = TG_STRING.
Proof.
  intros H. destruct (good_name_first w H) as (c & w' & Hc & Hv & Hs & _ & _ & _ & Ha).
  unfold class_lex. destruct w as [|c0 w0]; [done|]. injection Hc as -> <-.
  repeat match goal with |- context [String.eqb ?x ?y] =>
    destruct (String.eqb_spec x y) as [E|_]; [try discriminate E; injection E as -> ->; by vm_compute in Hs, Ha|] end.
  done.
Qed.
Lemma name_not_star w l : good_name w = true → hd zero (chars w ++ l) ≠ "*"%char.
Proof. intros H. by destruct (good_name_first w H) as (c & w' & -> & _ & _ & _ & _ & ? & _). Qed.
Lemma ignored_nil : ignored [].
Proof. by apply ignored_blank. Qed.

Lemma entry_rest_text e m t v l : entry_values e = v :: l →
  chars (entry_rest m e) ++ t = chars (entry_names e) ++ chars (entry_print e v) ++ more (entry_print e) m t l.
Proof. intros H. unfold entry_rest, more. rewrite H, !chars_app, <-!app_assoc. done. Qed.
End Text.

(** A step of the parser on the name, the slash, the colon or the arrow that comes next. *)
Ltac parse_step :=
  lazymatch goal with
  | |- wp (_ ≫= _) _ _ => apply wp_bind
  | |- wp (mret _) _ _ => apply wp_ret
  | |- wp get _ _ => apply wp_get
  | H : at_text _ _ _ _ (chars ?w ++ _) ?d |- wp next_string ?d _ =>
      eapply wp_next_string; [exact H|apply (gives_name _ []); [apply ignored_nil|done|by split]|by apply good_name_lex|clear H; intros ? H]
  | H : at_text _ _ _ _ ("/"%char :: _) ?d |- wp next_word ?d _ =>
      eapply wp_next_word; [exact H|apply (gives_slash _ []); [apply ignored_nil|by apply name_not_star || done]|clear H; intros ? H]
  | H : at_text _ _ _ _ (":"%char :: _) ?d |- wp next_word ?d _ =>
      eapply wp_next_word; [exact H|by apply (gives_special _ []); [apply ignored_nil|left]|clear H; intros ? H]
  | H : at_text _ _ _ _ ("-"%char :: ">"%char :: _) ?d |- wp next_word ?d _ =>
      eapply wp_next_word; [exact H|apply (gives_arrow _ []); apply ignored_nil|clear H; intros ? H]
  | |- wp (CHECK_LEX _ _) _ _ => apply wp_check_lex
  end;
  change (class_lex "/") with TG_SLASH; change (class_lex "->") with TG_ARROW; change (class_lex ":") with TG_COLON;
  cbv beta iota.

Section Entries.
Context (fn txt : string).

Lemma wp_on_server f sv w t d Q :
  at_text fn txt sv w t d → (∀ d', at_text fn txt (f sv) w t d' → Q d' (inr ())) → wp (on_server f) d Q.
Proof. intros [H1 H2 H3 H4 H5] HQ. apply HQ. by constructor; simpl; rewrite ?H1. Qed.
Lemma wp_on_server_or_undef f sv sv' w t d Q :
  at_text fn txt sv w t d → f sv = Ok sv' → (∀ d', at_text fn txt sv' w t d' → Q d' (inr ())) → wp (on_server_or_undef f) d Q.
Proof.
  intros [H1 H2 H3 H4 H5] Hf HQ. unfold on_server_or_undef. apply wp_bind, wp_get. rewrite H1, Hf. apply HQ. by constructor.
Qed.

Section Entry.
Context (m : nat) (e : entry) (sv sv' : t_server) (w' : string) (t t' : list ascii).
Context (He : good_entry fn e) (Hexec : exec_entry e sv = Ok sv').
Context (Hend : gives (read_word fn) (LF :: t) w' t').
Context (Hw' : class_lex w' ≠ TG_COMA ∧ class_lex w' ≠ TG_ASLASH).

(** The values of the definition, after the colon. *)
Lemma wp_entry_values v l w0 d Q :
  entry_values e = v :: l → w0 ≠ "" →
  at_text fn txt sv w0 (" "%char :: chars (entry_print e v) ++ more (entry_print e) m t l) d →
  (∀ d', at_text fn txt sv w' t' d' → Q d' (inr (entry_values e))) →
  wp parse_resource_value d Q.
Proof using He Hend Hw'.
  intros Hv Hw Hd HQ. destruct He as (_ & _ & Hp & _). rewrite Hv in Hp, HQ. by eapply wp_values.
Qed.
Lemma wp_prop_and_values prop v l w0 d Q :
  entry_values e = v :: l → good_name prop = true →
  at_text fn txt sv w0 (chars prop ++ ":"%char :: " "%char :: chars (entry_print e v) ++ more (entry_print e) m t l) d →
  (∀ d', at_text fn txt sv w' t' d' → Q d' (inr (prop, entry_values e))) →
  wp prop_and_values d Q.
Proof using He Hend Hw'.
  intros Hv Hp Hd HQ. unfold prop_and_values. repeat parse_step.
  eapply wp_entry_values; [exact Hv| |exact Hd|]; [done|]. intros d2 Hd2. parse_step. by apply HQ.
Qed.

Ltac entry_names_step Hd :=
  cbn [entry_names entry_word] in Hd; rewrite !chars_app, <-!app_assoc in Hd;
  cbn [String.list_ascii_of_string app] in Hd.

Lemma wp_parse_entry d Q :
  at_text fn txt sv (entry_word e) (chars (entry_rest m e) ++ t) d →
  (∀ d', at_text fn txt sv' w' t' d' → Q d' (inr None)) → wp (parse_entry TG_STRING) d Q.
Proof using He Hexec Hend Hw'.
  intros Hd HQ. pose proof He as (Hn & _ & _ & Hne & Hdom). destruct (entry_values e) as [|v l] eqn:Hv; [done|].
  rewrite (entry_rest_text _ _ _ v l) in Hd by done. unfold parse_entry. apply wp_bind, wp_get. rewrite (at_word _ _ _ _ _ _ Hd).
  pose proof (wp_entry_values v l) as Hvals. pose proof (wp_prop_and_values) as Hpv. rewrite Hv in Hvals. clear Hne.
  destruct e as [srv inst cls devs|cls prop vals|cls attr prop vals|dom fam mem prop vals|dom fam mem attr prop vals|obj prop vals];
    unfold entry_parts in Hn; rewrite ?Forall_cons in Hn; destruct_and? Hn; cbn [entry_values] in Hv; subst;
    cbn [exec_entry entry_values] in Hexec; try injection Hexec as <-; entry_names_step Hd.
  - change ("D"%char :: "E"%char :: "V"%char :: "I"%char :: "C"%char :: "E"%char :: ?x) with (chars "DEVICE" ++ x) in Hd.
    repeat parse_step. unfold four_fields. repeat parse_step. eapply Hvals; [done| |exact Hd|]; [done|]. intros d2 E2.
    cbn [entry_word]. try change (equalsIgnoreCase "CLASS" "class") with true. try change (equalsIgnoreCase "FREE" "class") with false.
    try change (equalsIgnoreCase "FREE" "free") with true. cbv iota.
    parse_step. eapply wp_on_server; [exact E2|]. intros d3 E3. by apply HQ.
  - repeat parse_step. unfold two_fields. repeat parse_step. eapply Hvals; [done| |exact Hd|]; [done|]. intros d2 E2.
    cbn [entry_word]. try change (equalsIgnoreCase "CLASS" "class") with true. try change (equalsIgnoreCase "FREE" "class") with false.
    try change (equalsIgnoreCase "FREE" "free") with true. cbv iota.
    parse_step. eapply wp_on_server; [exact E2|]. intros d3 E3. by apply HQ.
  - repeat parse_step. unfold three_fields. parse_step. eapply Hpv; [done|done|exact Hd|]. intros d2 E2.
    cbn [entry_word]. try change (equalsIgnoreCase "CLASS" "class") with true. try change (equalsIgnoreCase "FREE" "class") with false.
    try change (equalsIgnoreCase "FREE" "free") with true. cbv iota.
    parse_step. eapply wp_on_server; [exact E2|]. intros d3 E3. by apply HQ.
  - repeat parse_step. unfold three_fields. parse_step. eapply Hpv; [done|done|exact Hd|]. intros d2 E2.
    cbn [entry_word]. rewrite Hdom. parse_step. eapply wp_on_server_or_undef; [exact E2|exact Hexec|]. intros d3 E3. by apply HQ.
  - repeat parse_step. unfold four_fields. repeat parse_step. eapply Hpv; [done|done|exact Hd|]. intros d2 E2.
    parse_step. eapply wp_on_server_or_undef; [exact E2|exact Hexec|]. intros d3 E3. by apply HQ.
  - repeat parse_step. unfold two_fields. repeat parse_step. eapply Hvals; [done| |exact Hd|]; [done|]. intros d2 E2.
    cbn [entry_word]. try change (equalsIgnoreCase "CLASS" "class") with true. try change (equalsIgnoreCase "FREE" "class") with false.
    try change (equalsIgnoreCase "FREE" "free") with true. cbv iota.
    parse_step. eapply wp_on_server; [exact E2|]. intros d3 E3. by apply HQ.
Qed.
End Entry.
End Entries.

(** ** Files *)

Section Files.
Context (fn txt : string).

(** A text with these definitions. *)
Inductive prints : list ascii → list entry → Prop :=
  | prints_nil pre : ignored pre → prints pre []
  | prints_cons pre m e t es : ignored pre → good_entry fn e → prints t es →
      prints (pre ++ chars (entry_word e) ++ chars (entry_rest m e) ++ t) (e :: es).

Lemma prints_ignored pre t es : ignored pre → prints t es → prints (pre ++ t) es.
Proof. intros Hp [pre' Hp'|pre' m e t' es' Hp' He Ht]; [constructor|rewrite app_assoc; constructor]; [by apply ignored_app..|done|done]. Qed.
Lemma prints_app t1 es1 t2 es2 : prints t1 es1 → prints t2 es2 → prints (t1 ++ t2) (es1 ++ es2).
Proof.
  induction 1 as [pre Hp|pre m e t es Hp He Ht IH]; intros H2; [by apply prints_ignored|].
  rewrite <-!app_assoc. simpl. constructor; auto.
Qed.

Lemma entry_word_good e : good_entry fn e → good_name (entry_word e) = true.
Proof. intros (Hn & _). by destruct e; unfold entry_parts in Hn; rewrite ?Forall_cons in Hn; destruct_and? Hn. Qed.
Lemma entry_rest_shape e m : good_entry fn e → ∃ u, chars (entry_rest m e) = "/"%char :: u ++ [LF].
Proof.
  intros (_ & _ & _ & Hne & _). unfold entry_rest. destruct (entry_values e) as [|v l] eqn:Hv; [done|].
  exists (chars (str_drop 1 (entry_names e)) ++ chars (entry_print e v) ++ chars (more_values (entry_print e) m l)).
  rewrite !chars_app, <-!app_assoc. by destruct e.
Qed.

(** The first word of a text with definitions, and what comes after. *)
Definition first_word (es : list entry) : string := from_option entry_word lexical_word_null (head es).
Definition after_word (es : list entry) (t : list ascii) : Prop :=
  match es with [] => True | e :: es => good_entry fn e ∧ ∃ m t', t = chars (entry_rest m e) ++ t' ∧ prints t' es end.

Lemma prints_gives t es : prints t es → ∃ t', gives (read_word fn) t (first_word es) t' ∧ after_word es t'.
Proof.
  intros [pre Hp|pre m e t' es' Hp He Ht]; [exists []; split; [by apply gives_end|done]|].
  eexists. split; [|split; [done|]; by exists m, t'].
  apply gives_name; [done|by apply entry_word_good|]. destruct (entry_rest_shape e m He) as (u & ->). by split.
Qed.
Lemma first_word_lex t es : prints t es → class_lex (first_word es) = TG_STRING.
Proof. intros [pre Hp|pre m e t' es' Hp He Ht]; [done|]. by apply good_name_lex, entry_word_good. Qed.

Lemma prints_length t es : prints t es → es ≠ [] → ∃ u v, t = u ++ LF :: v ∧ length es ≤ length u.
Proof.
  induction 1 as [|pre m e t es Hp He Ht IH]; intros Hne; [done|]. destruct (entry_rest_shape e m He) as (u & ->).
  destruct es as [|e' es].
  - exists (pre ++ chars (entry_word e) ++ "/"%char :: u), t. rewrite !length_app. simpl. split; [|lia].
    rewrite <-!app_assoc. simpl. done.
  - destruct IH as (u' & v & -> & Hl); [done|].
    exists (pre ++ chars (entry_word e) ++ "/"%char :: u ++ [LF] ++ u'), v. rewrite !length_app. simpl. rewrite !length_app. simpl in *.
    split; [|lia]. by repeat (rewrite <-?app_assoc; cbn [app]).
Qed.

Lemma wp_parse_entries n e es sv sv' t d Q :
  after_word (e :: es) t → at_text fn txt sv (entry_word e) t d → exec_entries (e :: es) sv = Ok sv' → length (e :: es) ≤ n →
  (∀ d' w t', at_text fn txt sv' w t' d' → Q d' (inr "")) → wp (parse_entries n TG_STRING) d Q.
Proof.
  revert e sv t n d. induction es as [|e' es IH]; intros e sv t n d (He & m & t' & -> & Ht) Hd Hx Hn HQ;
    (destruct n as [|n]; [simpl in Hn; lia|]); apply bind_Ok_inv in Hx as (s1 & Hx1 & Hx); cbn [parse_entries]; apply wp_bind;
    pose proof (prints_ignored [LF] t' _ (ignored_blank [LF] ltac:(by repeat constructor)) Ht) as Ht2;
    destruct (prints_gives _ _ Ht2) as (t2 & Hg & Ha);
    (eapply wp_parse_entry; [exact He|exact Hx1|exact Hg|by rewrite (first_word_lex _ _ Ht2)|exact Hd|]);
    intros d1 H1; apply wp_bind, wp_get; rewrite (at_word _ _ _ _ _ _ H1).
  - apply wp_ret. injection Hx as ->. by eapply HQ.
  - cbn [first_word head from_option] in *. assert (entry_word e' ≠ lexical_word_null) as Hnn by (by destruct Ha as [(_ & ? & _) _]).
    change (from_option entry_word lexical_word_null (Some e')) with (entry_word e') in *.
    rewrite (proj2 (String.eqb_neq _ _) Hnn), good_name_lex by (apply entry_word_good; by destruct Ha as [? _]).
    eapply IH; [done|exact H1|done|simpl in *; lia|done].
Qed.

(** Parsing a file is to execute its definitions. *)
Lemma wp_parse_res_file u e es sv' d Q :
  prints (u ++ [LF]) (e :: es) → chars txt = u ++ [LF] → filename d = fn → file d = txt →
  exec_entries (e :: es) (set_s_name (entry_word e) (m_server d)) = Ok sv' →
  (∀ d', m_server d' = sv' → filename d' = fn → file d' = txt → Q d' (inr "")) → wp parse_res_file d Q.
Proof.
  intros Hp Hu Hfn Hfile Hx HQ. unfold parse_res_file. apply wp_bind, wp_modify.
  assert (prints (" "%char :: " "%char :: chars txt ++ [LF]) (e :: es)) as Hp2.
  { rewrite Hu. apply (prints_ignored [" "%char; " "%char]); [apply ignored_blank; by repeat constructor|].
    rewrite <-(app_nil_r (e :: es)). apply prints_app; [done|]. constructor. apply ignored_blank. by repeat constructor. }
  destruct (prints_gives _ _ Hp2) as (t & Hg & Ha).
  assert (at_text fn txt (m_server d) (word d) (" "%char :: " "%char :: chars txt ++ [LF]) (set_reader (open_file (file d)) d)) as H0.
  { constructor; [done..| |done|done]. cbn [reader set_reader]. rewrite Hfile. pose proof (reads_look (open_file txt)) as Hr.
    unfold look, open_file in Hr. cbn [f_eof f_rest CurrentChar NextChar] in Hr. by rewrite Hu, List.last_last, <-Hu in Hr. }
  apply wp_bind. eapply wp_next_word; [exact H0|exact Hg|]. intros d1 H1. rewrite (first_word_lex _ _ Hp2).
  apply wp_bind, wp_get. rewrite (at_word _ _ _ _ _ _ H1). cbn [first_word head].
  change (from_option entry_word lexical_word_null (Some e)) with (entry_word e).
  destruct Ha as [He Ha]. pose proof (entry_word_good e He) as Hgn. rewrite (proj2 (String.eqb_neq _ _)) by (by intros E; change (entry_word e = "") in E; rewrite E in Hgn).
  apply wp_bind, wp_modify. eapply wp_parse_entries; [by split| |done| |].
  - destruct H1 as [Es Ew Er En Ef]. constructor; [|exact Ew|exact Er|exact En|exact Ef]. cbn [m_server set_server]. by rewrite Es, Ew.
  - destruct Ha as (m & t' & -> & Ht). destruct es as [|e' es']; [simpl; lia|].
    destruct (prints_length _ _ Ht) as (v & t2 & -> & Hl); [done|].
    pose proof (at_reads _ _ _ _ _ _ H1) as Hr. rewrite app_assoc in Hr. apply reads_char_left in Hr; [|done].
    rewrite length_app in Hr. simpl in *. lia.
  - intros d' w t' [? ? ? ? ?]. by apply HQ.
Qed.
End Files.
