(* ===== verification/FileDbNames.v ===== *)
(** * Names and places in the data of the file of the database

  Names are compared without their case.  A place is a list of properties of the data:
  those of a class, of a device, of a free object, or the attributes of a class or of a
  device. *)
From Stdlib Require Import Ascii.
From S2P Require Import Prelude StateExn CppString FileDb.
Local Open Scope string_scope.
Local Open Scope list_scope.
Local Open Scope nat_scope.
#[local] Arguments String.append : simpl nomatch.

(** ** Comparison of names *)

Lemma chartolower_tolower c : chartolower c = tolower_char c.
Proof. destruct c as [[] [] [] [] [] [] [] []]; reflexivity. Qed.

Lemma equal_from_spec l s1 s2 b : equal_from l s1 s2 b = true ↔
  (∀ k, k < l → tolower_char <$> String.get k s1 = tolower_char <$> String.get k s2) ∧ (l = 0 → b = true).
Proof.
  revert b. induction l as [|l IH]; intros b; cbn [equal_from]; [naive_solver lia|]. cbv zeta.
  assert (∀ s, chartolower <$> String.get l s = tolower_char <$> String.get l s) as E.
  { intros s. destruct (String.get l s); [simpl; by rewrite chartolower_tolower|done]. }
  rewrite !E. case_bool_decide as H.
  - rewrite IH. split; [|intros [Hk _]; split; [auto with lia|done]].
    intros [Hk _]. split; [|done]. intros k ?. destruct (decide (k = l)) as [->|]; [done|]. apply Hk. lia.
  - split; [done|]. intros [Hk _]. by rewrite Hk in H by lia.
Qed.
Lemma get_tolower k s : String.get k (tolower s) = tolower_char <$> String.get k s.
Proof. revert k. induction s as [|c s IH]; intros [|k]; simpl; auto. Qed.
Lemma len_tolower s : len (tolower s) = len s.
Proof. induction s; simpl; auto. Qed.
Lemma get_ext s1 s2 : len s1 = len s2 → (∀ k, k < len s1 → String.get k s1 = String.get k s2) → s1 = s2.
Proof.
  revert s2. induction s1 as [|a s1 IH]; intros [|b s2]; [done..|]. simpl. intros [= Hl] H.
  pose proof (H 0 ltac:(lia)) as [= ->]. f_equal. apply IH; [done|]. intros k Hk. apply (H (S k)). lia.
Qed.

(** Two names are equal when neither is empty and they differ at most by the case. *)
Lemma equalsIgnoreCase_spec s1 s2 : equalsIgnoreCase s1 s2 = true ↔ s1 ≠ "" ∧ tolower s1 = tolower s2.
Proof.
  unfold equalsIgnoreCase. destruct (Nat.eqb_spec (len s1) (len s2)) as [Hl|Hl].
  - rewrite equal_from_spec. split.
    + intros [Hk Hz]. split; [intros ->; by specialize (Hz eq_refl)|]. apply get_ext; [by rewrite !len_tolower|].
      intros k H. rewrite !get_tolower. apply Hk. by rewrite len_tolower in H.
    + intros [Hne He]. split; [|by destruct s1]. intros k _. by rewrite <-!get_tolower, He.
  - split; [done|]. intros [_ He]. by rewrite <-(len_tolower s1), He, len_tolower in Hl.
Qed.
Lemma equalsIgnoreCase_refl s : s ≠ "" → equalsIgnoreCase s s = true.
Proof. intros H. by apply equalsIgnoreCase_spec. Qed.
Lemma equalsIgnoreCase_ne s1 s2 : tolower s1 ≠ tolower s2 → equalsIgnoreCase s1 s2 = false.
Proof. intros H. apply not_true_iff_false. rewrite equalsIgnoreCase_spec. naive_solver. Qed.

(** Names that all differ. *)
Definition distinct (l : list string) : Prop := NoDup (tolower <$> l).

Section Find.
Context {A} (name_of : A → string).
Implicit Types l : list A.

Lemma find_name_match l i x n : distinct (name_of <$> l) → l !! i = Some x → equalsIgnoreCase (name_of x) n = true →
  find_name name_of n l = Some (i, x).
Proof.
  unfold distinct. revert i. induction l as [|y l IH]; intros i Hd Hi Hx; [done|].
  cbn [fmap list_fmap] in Hd. apply NoDup_cons in Hd as [Hy Hd]. destruct i as [|i]; simpl in *.
  - injection Hi as ->. by rewrite Hx.
  - rewrite equalsIgnoreCase_ne, (IH i); [done..|]. apply equalsIgnoreCase_spec in Hx as [_ Hx]. rewrite <-Hx.
    intros E. apply Hy. rewrite E. apply list_elem_of_fmap_2, list_elem_of_fmap_2. by eapply list_elem_of_lookup_2.
Qed.
Lemma find_name_at l i x : distinct (name_of <$> l) → l !! i = Some x → name_of x ≠ "" →
  find_name name_of (name_of x) l = Some (i, x).
Proof. intros Hd Hi Hx. apply find_name_match; [done..|]. by apply equalsIgnoreCase_refl. Qed.
Lemma find_name_absent l n : tolower n ∉ tolower <$> (name_of <$> l) → find_name name_of n l = None.
Proof.
  induction l as [|y l IH]; [done|]. cbn [fmap list_fmap find_name]. rewrite elem_of_cons. intros H.
  rewrite equalsIgnoreCase_ne by naive_solver. rewrite IH by naive_solver. done.
Qed.
Lemma find_name_Some l n i x : find_name name_of n l = Some (i, x) → l !! i = Some x ∧ equalsIgnoreCase (name_of x) n = true.
Proof.
  revert i x. induction l as [|y l IH]; intros i x; [done|]. simpl. destruct (equalsIgnoreCase _ _) eqn:E; [naive_solver|].
  destruct (find_name name_of n l) as [[j z]|]; [|done]. intros [= <- <-]. by apply IH.
Qed.
Lemma find_name_alter l n i x (f : A → A) : find_name name_of n l = Some (i, x) → name_of (f x) = name_of x →
  find_name name_of n (alter f i l) = Some (i, f x).
Proof.
  revert i x. induction l as [|y l IH]; intros i x; [done|]. simpl. destruct (equalsIgnoreCase (name_of y) n) eqn:E.
  - intros [= <- <-] Hf. simpl. by rewrite Hf, E.
  - destruct (find_name name_of n l) as [[j z]|]; [|done]. intros [= <- <-] Hf.
    change (find_name name_of n (y :: alter f j l) = Some (S j, f z)). cbn [find_name]. by rewrite E, (IH j z).
Qed.
End Find.

Lemma alter_twice {A} (f g h : A → A) (i : nat) (l : list A) : (∀ x, f (g x) = h x) → alter f i (alter g i l) = alter h i l.
Proof. intros H. revert i. induction l as [|x l IH]; intros [|i]; f_equal/=; auto. Qed.

(** ** Places *)

(** A part of the data that can be read and replaced. *)
Record place (A : Type) := mk_place {
  look_at : t_server → option A;
  put : A → t_server → t_server;
  look_put : ∀ s a b, look_at s = Some a → look_at (put b s) = Some b;
  put_put : ∀ s a b c, look_at s = Some a → put c (put b s) = put c s;
  put_look : ∀ s a, look_at s = Some a → put a s = s;
}.
Arguments look_at {A}.
Arguments put {A}.
Arguments look_put {A}.
Arguments put_put {A}.
Arguments put_look {A}.


(** The place [field] of the element with some name in a list of the data. *)
Section Named.
Context {A B : Type} (list_of : t_server → list B) (set_list : list B → t_server → t_server).
Context (name_of : B → string) (name : string) (field : B → A) (set_field : A → B → B) (ok : t_server → bool).
Context (list_set : ∀ l s, list_of (set_list l s) = l) (set_set : ∀ l l' s, set_list l (set_list l' s) = set_list l s)
  (set_same : ∀ s, set_list (list_of s) s = s) (name_set : ∀ a b, name_of (set_field a b) = name_of b)
  (field_set : ∀ a b, field (set_field a b) = a) (set_field_set : ∀ a a' b, set_field a (set_field a' b) = set_field a b)
  (set_field_same : ∀ b, set_field (field b) b = b)
  (ok_set : ∀ s f i, ok s = true → ok (set_list (alter f i (list_of s)) s) = true).

Definition named_look (s : t_server) : option A :=
  if ok s then field ∘ snd <$> find_name name_of name (list_of s) else None.
Definition named_put (a : A) (s : t_server) : t_server :=
  match find_name name_of name (list_of s) with
  | Some (i, _) => set_list (alter (set_field a) i (list_of s)) s
  | None => s
  end.

Lemma named_look_Some s a : named_look s = Some a ↔
  ok s = true ∧ ∃ i x, find_name name_of name (list_of s) = Some (i, x) ∧ a = field x.
Proof using.
  unfold named_look. destruct (ok s); [|naive_solver]. destruct (find_name name_of name (list_of s)) as [[i x]|]; naive_solver.
Qed.
Lemma find_put s i x b : find_name name_of name (list_of s) = Some (i, x) →
  named_put b s = set_list (alter (set_field b) i (list_of s)) s ∧
  find_name name_of name (list_of (named_put b s)) = Some (i, set_field b x).
Proof using list_set name_set.
  intros H. unfold named_put. rewrite H. split; [done|]. rewrite list_set. by apply find_name_alter.
Qed.
Lemma named_look_put s a b : named_look s = Some a → named_look (named_put b s) = Some b.
Proof using field_set list_set name_set ok_set.
  rewrite !named_look_Some. intros (Hok & i & x & Hf & ->). destruct (find_put s i x b Hf) as [E Hf'].
  split; [rewrite E; by apply ok_set|]. eexists _, _. split; [exact Hf'|by rewrite field_set].
Qed.
Lemma named_put_put s a b c : named_look s = Some a → named_put c (named_put b s) = named_put c s.
Proof using list_set name_set set_field_set set_set.
  rewrite !named_look_Some. intros (Hok & i & x & Hf & ->). destruct (find_put s i x b Hf) as [E Hf'].
  destruct (find_put _ _ _ c Hf') as [-> _]. destruct (find_put s i x c Hf) as [-> _]. rewrite E, list_set, set_set.
  f_equal. by apply alter_twice.
Qed.
Lemma named_put_look s a : named_look s = Some a → named_put a s = s.
Proof using list_set name_set set_field_same set_same.
  rewrite !named_look_Some. intros (Hok & i & x & Hf & ->). destruct (find_put s i x (field x) Hf) as [-> _].
  rewrite <-(set_same s) at 3. f_equal. apply find_name_Some in Hf as [Hi _]. rewrite <-(list_alter_id id (list_of s) i) at 2 by done.
  apply list_alter_ext; [|done]. intros y Hy. assert (y = x) as -> by congruence. by rewrite set_field_same.
Qed.
Definition named_place : place A := mk_place A named_look named_put named_look_put named_put_put named_put_look.

(** The place is there, once the element is. *)
Lemma named_look_at s i x : ok s = true → list_of s !! i = Some x → distinct (name_of <$> list_of s) → name_of x = name → name ≠ "" →
  named_look s = Some (field x) ∧ ∀ a, named_put a s = set_list (<[i := set_field a x]> (list_of s)) s.
Proof using.
  intros Hok Hi Hd Hn Hne. rewrite <-Hn in Hne. pose proof (find_name_at name_of _ i x Hd Hi Hne) as Hf. rewrite Hn in Hf.
  split; [rewrite named_look_Some; naive_solver|]. intros a. unfold named_put. rewrite Hf. f_equal.
  rewrite list_insert_alter. apply list_alter_ext; [|done]. intros y Hy. by assert (y = x) as -> by congruence.
Qed.
End Named.
