(* ===== verification/FileDbRound.v ===== *)
(** * Round trip of the file of the database

  Well-formed data are written as a text whose definitions, executed in order, build the
  same data. *)
From Stdlib Require Import Ascii.
From stdpp Require Import pretty.
From S2P Require Import Prelude StateExn CppString FileDb FileDbLex FileDbText FileDbNames.
Local Open Scope string_scope.
Local Open Scope list_scope.
Local Open Scope nat_scope.
#[local] Arguments String.append : simpl nomatch.

(** ** The places of the properties *)

Definition flat (s : t_server) : bool := bool_decide (devices s = seq 0 (length (heap s))).

Lemma flat_set s (f : t_device → t_device) (i : nat) : flat s = true → flat (set_heap (alter f i (heap s)) s) = true.
Proof. unfold flat. intros H%bool_decide_eq_true_1. apply bool_decide_eq_true_2. simpl. by rewrite length_alter. Qed.

Definition class_props (n : string) : place (list t_property).
Proof. apply (named_place classes set_classes c_name n c_properties (λ l, on_class_props (λ _, l)) (λ _, true)); by intros []. Defined.
Definition class_attrs (n : string) : place (list t_attribute_property).
Proof. apply (named_place classes set_classes c_name n c_attribute_properties (λ l, on_class_attrs (λ _, l)) (λ _, true)); by intros []. Defined.
Definition object_props (n : string) : place (list t_property).
Proof. apply (named_place free_objects set_free_objects o_name n o_properties (λ l, on_object_props (λ _, l)) (λ _, true)); by intros []. Defined.
Definition dev_props (n : string) : place (list t_property).
Proof. apply (named_place heap set_heap d_name n d_properties (λ l, on_dev_props (λ _, l)) flat); try by intros []. apply flat_set. Defined.
Definition dev_attrs (n : string) : place (list t_attribute_property).
Proof. apply (named_place heap set_heap d_name n d_attribute_properties (λ l, on_dev_attrs (λ _, l)) flat); try by intros []. apply flat_set. Defined.

Lemma find_device_app s n k l : heap s = take k (heap s) ++ l → k ≤ length (heap s) →
  find_device s n (seq k (length l)) = Ok ((λ p, k + fst p) <$> find_name d_name n l).
Proof.
  revert k. induction l as [|d l IH]; intros k Hl Hk; [done|]. cbn [length seq find_device find_name].
  assert (heap s !! k = Some d) as Hd.
  { rewrite Hl, lookup_app_r by (rewrite length_take; lia). rewrite length_take_le, Nat.sub_diag by lia. done. }
  unfold dev_of. rewrite Hd. cbn [deref]. rewrite bind_Ok.
  destruct (equalsIgnoreCase (d_name d) n); [simpl; by rewrite Nat.add_0_r|]. rewrite IH.
  - destruct (find_name d_name n l) as [[j x]|]; [|done]. simpl. by rewrite Nat.add_succ_r.
  - by rewrite (take_S_r _ _ d), <-app_assoc.
  - apply lookup_lt_Some in Hd. lia.
Qed.
Lemma search_device_find s n : flat s = true → search_device s n = Ok (fst <$> find_name d_name n (heap s)).
Proof.
  intros H%bool_decide_eq_true_1. unfold search_device. rewrite H, find_device_app by (done || lia). f_equal.
Qed.

(** The definitions act on their place. *)
Lemma exec_class_prop c p v s l : look_at (class_props c) s = Some l →
  define_class_prop c p v s = put (class_props c) (l ++ [mk_property p v]) s.
Proof.
  intros H. unfold look_at, class_props, named_place in H. apply named_look_Some in H as (_ & i & x & Hf & ->). unfold define_class_prop, search_class, put, class_props, named_place, named_put. rewrite Hf.
  unfold alter_class. f_equal. apply find_name_Some in Hf as [Hi _]. apply list_alter_ext; [|done]. intros y Hy.
  by assert (y = x) as -> by congruence.
Qed.
Lemma exec_class_attr c a p v s l : look_at (class_attrs c) s = Some l →
  define_class_attr_prop c a p v s = put (class_attrs c) (add_attribute_property a p v l) s.
Proof.
  intros H. unfold look_at, class_attrs, named_place in H. apply named_look_Some in H as (_ & i & x & Hf & ->). unfold define_class_attr_prop, search_class, put, class_attrs, named_place, named_put. rewrite Hf.
  unfold alter_class. f_equal. apply find_name_Some in Hf as [Hi _]. apply list_alter_ext; [|done]. intros y Hy.
  by assert (y = x) as -> by congruence.
Qed.
Lemma exec_free_prop o p v s l : look_at (object_props o) s = Some l →
  define_free_prop o p v s = put (object_props o) (l ++ [mk_property p v]) s.
Proof.
  intros H. unfold look_at, object_props, named_place in H. apply named_look_Some in H as (_ & i & x & Hf & ->). unfold define_free_prop, search_free_object, put, object_props, named_place, named_put. rewrite Hf.
  unfold alter_object. f_equal. apply find_name_Some in Hf as [Hi _]. apply list_alter_ext; [|done]. intros y Hy.
  by assert (y = x) as -> by congruence.
Qed.
Lemma exec_dev_prop d p v s l : look_at (dev_props d) s = Some l →
  define_dev_prop d p v s = Ok (put (dev_props d) (l ++ [mk_property p v]) s).
Proof.
  intros H. unfold look_at, dev_props, named_place in H. apply named_look_Some in H as (Hok & i & x & Hf & ->). unfold define_dev_prop, put, dev_props, named_place, named_put.
  rewrite search_device_find, Hf by done. cbn [fmap option_fmap option_map fst]. rewrite bind_Ok. f_equal.
  unfold alter_device. f_equal. apply find_name_Some in Hf as [Hi _]. apply list_alter_ext; [|done]. intros y Hy.
  by assert (y = x) as -> by congruence.
Qed.
Lemma exec_dev_attr d a p v s l : look_at (dev_attrs d) s = Some l →
  define_dev_attr_prop d a p v s = Ok (put (dev_attrs d) (add_attribute_property a p v l) s).
Proof.
  intros H. unfold look_at, dev_attrs, named_place in H. apply named_look_Some in H as (Hok & i & x & Hf & ->). unfold define_dev_attr_prop, put, dev_attrs, named_place, named_put.
  rewrite search_device_find, Hf by done. cbn [fmap option_fmap option_map fst]. rewrite bind_Ok. cbn [deref]. rewrite bind_Ok. f_equal.
  unfold alter_device. f_equal. apply find_name_Some in Hf as [Hi _]. apply list_alter_ext; [|done]. intros y Hy.
  by assert (y = x) as -> by congruence.
Qed.

(** ** Lists of definitions in one place *)

Lemma exec_app es1 es2 s : exec_entries (es1 ++ es2) s = s' ← exec_entries es1 s; exec_entries es2 s'.
Proof.
  revert s. induction es1 as [|e es1 IH]; intros s; [done|]. simpl. destruct (exec_entry e s); [apply IH|done|done].
Qed.

Section Place.
Context (P : place (list t_property)) (mk : t_property → entry).
Context (Hmk : ∀ s l p, look_at P s = Some l → exec_entry (mk p) s = Ok (put P (l ++ [p]) s)).

Lemma exec_props ps s l : look_at P s = Some l → exec_entries (mk <$> ps) s = Ok (put P (l ++ ps) s).
Proof using Hmk.
  revert s l. induction ps as [|p ps IH]; intros s l Hl.
  - rewrite app_nil_r, put_look by done. done.
  - cbn [fmap list_fmap exec_entries]. rewrite (Hmk s l p Hl), bind_Ok.
    rewrite (IH _ (l ++ [p])) by (by eapply look_put). rewrite (put_put P s l) by done. by rewrite <-app_assoc.
Qed.
End Place.

Lemma property_eta p : mk_property (p_name p) (p_value p) = p.
Proof. by destruct p. Qed.

Section Attrs.
Context (P : place (list t_attribute_property)) (mk : string → t_property → entry).
Context (Hmk : ∀ s l a p, look_at P s = Some l →
  exec_entry (mk a p) s = Ok (put P (add_attribute_property a (p_name p) (p_value p) l) s)).

Lemma add_to_last a p l ps : tolower a ∉ tolower <$> (attribute_name <$> l) → a ≠ "" →
  add_attribute_property a (p_name p) (p_value p) (l ++ [mk_attribute_property a ps]) = l ++ [mk_attribute_property a (ps ++ [p])].
Proof.
  intros Ha Hne. unfold add_attribute_property, add_property.
  assert (find_name attribute_name a (l ++ [mk_attribute_property a ps]) = Some (length l, mk_attribute_property a ps)) as ->.
  { clear -Ha Hne. induction l as [|x l IH]; cbn [app find_name length attribute_name].
    - by rewrite equalsIgnoreCase_refl.
    - cbn [fmap list_fmap] in Ha. rewrite elem_of_cons in Ha. rewrite equalsIgnoreCase_ne, IH by naive_solver. done. }
  cbn [attribute_name ap_properties]. rewrite property_eta. by rewrite list_insert_middle.
Qed.
Lemma exec_more_attr a s l ps ps' : look_at P s = Some (l ++ [mk_attribute_property a ps]) →
  tolower a ∉ tolower <$> (attribute_name <$> l) → a ≠ "" →
  exec_entries (mk a <$> ps') s = Ok (put P (l ++ [mk_attribute_property a (ps ++ ps')]) s).
Proof using Hmk.
  intros Hl Ha Hne. revert s ps Hl. induction ps' as [|p ps' IH]; intros s ps Hl.
  - rewrite app_nil_r, put_look by done. done.
  - cbn [fmap list_fmap exec_entries]. rewrite (Hmk _ _ a p Hl), bind_Ok, add_to_last by done.
    rewrite (IH _ (ps ++ [p])) by (by eapply look_put). rewrite (put_put P _ _ _ _ Hl). by rewrite <-app_assoc.
Qed.
Lemma exec_attr ap s l : look_at P s = Some l → tolower (attribute_name ap) ∉ tolower <$> (attribute_name <$> l) →
  attribute_name ap ≠ "" → ap_properties ap ≠ [] →
  exec_entries (mk (attribute_name ap) <$> ap_properties ap) s = Ok (put P (l ++ [ap]) s).
Proof using Hmk.
  destruct ap as [a [|p ps]]; cbn [attribute_name ap_properties]; intros Hl Ha Hne Hps; [done|].
  cbn [fmap list_fmap exec_entries]. rewrite (Hmk _ _ a p Hl), bind_Ok. unfold add_attribute_property.
  rewrite find_name_absent by done. unfold add_property. cbn [app]. rewrite property_eta.
  rewrite (exec_more_attr a _ l [p]) by first [by eapply look_put|done]. by rewrite (put_put P _ _ _ _ Hl).
Qed.
Lemma exec_attrs aps s l : look_at P s = Some l → distinct (attribute_name <$> (l ++ aps)) →
  Forall (λ ap, attribute_name ap ≠ "" ∧ ap_properties ap ≠ []) aps →
  exec_entries (aps ≫= λ ap, mk (attribute_name ap) <$> ap_properties ap) s = Ok (put P (l ++ aps) s).
Proof using Hmk.
  revert s l. induction aps as [|ap aps IH]; intros s l Hl Hd Hall.
  - rewrite app_nil_r, put_look by done. done.
  - apply Forall_cons in Hall as [[Hn Hp] Hall]. rewrite bind_cons, exec_app, (exec_attr ap s l), bind_Ok; [|done| |done|done].
    + rewrite (IH _ (l ++ [ap])); [by rewrite (put_put P _ _ _ _ Hl), <-app_assoc|by eapply look_put|by rewrite <-app_assoc|done].
    + unfold distinct in Hd. rewrite !fmap_app in Hd. apply NoDup_app in Hd as (_ & Hd & _). intros H. apply (Hd _ H). left.
Qed.
End Attrs.

(** ** Data that can be written *)

Definition good_prop (p : t_property) : Prop :=
  good_name (p_name p) = true ∧ p_value p ≠ [] ∧ Forall (λ v, good_value v = true) (p_value p).
Definition good_attr (ap : t_attribute_property) : Prop :=
  good_name (attribute_name ap) = true ∧ ap_properties ap ≠ [] ∧ Forall good_prop (ap_properties ap).
Definition good_attrs (aps : list t_attribute_property) : Prop :=
  Forall good_attr aps ∧ distinct (attribute_name <$> aps).
(** A device has a name of three fields, which is written between quotes. *)
Definition good_device_name (n : string) : Prop := ∃ domain family member,
  n = slash3 domain family member ∧ good_name domain = true ∧ good_name family = true ∧ good_name member = true ∧
  domain ≠ lexical_word_null ∧ equalsIgnoreCase domain "class" = false ∧ has_char DQUOTE n = false.
Definition good_device (d : t_device) : Prop :=
  good_device_name (d_name d) ∧ Forall good_prop (d_properties d) ∧ good_attrs (d_attribute_properties d).
Definition good_class (c : t_tango_class) : Prop :=
  good_name (c_name c) = true ∧ c_devices c ≠ [] ∧ Forall good_prop (c_properties c) ∧ good_attrs (c_attribute_properties c).
Definition good_object (o : t_free_object) : Prop :=
  good_name (o_name o) = true ∧ o_properties o ≠ [] ∧ Forall good_prop (o_properties o).

(** The names are words of the file, the values texts of the file, and nothing is empty;
    the devices are those of the classes, in the order of the classes. *)
Record good_server (s : t_server) : Prop := {
  good_s_name : good_name (s_name s) = true ∧ s_name s ≠ lexical_word_null;
  good_instance : good_name (instance_name s) = true;
  good_classes : Forall good_class (classes s) ∧ classes s ≠ [] ∧ distinct (c_name <$> classes s);
  good_ids : devices s = seq 0 (length (heap s)) ∧ (classes s ≫= c_devices) = devices s;
  good_devices : Forall good_device (heap s) ∧ distinct (d_name <$> heap s);
  good_objects : Forall good_object (free_objects s) ∧ distinct (o_name <$> free_objects s);
}.

(** ** The text of good data *)

Section Print.
Context (fn : string).
Abbreviation prints := (prints fn).
Abbreviation good_entry := (good_entry fn).

Lemma prints_entry e m : good_entry e → prints (chars (entry_word e +:+ entry_rest m e)) [e].
Proof.
  intros He. rewrite chars_app. rewrite <-(app_nil_r (chars (entry_rest m e))).
  apply (prints_cons fn []); [by apply ignored_blank|done|constructor; by apply ignored_blank].
Qed.
Lemma prints_concat {A} (f : A → string) (g : A → list entry) l :
  Forall (λ x, prints (chars (f x)) (g x)) l → prints (chars (concat_str (f <$> l))) (l ≫= g).
Proof.
  induction 1 as [|x l Hx Hl IH]; [constructor; by apply ignored_blank|].
  cbn [fmap list_fmap concat_str]. rewrite chars_app. by apply prints_app.
Qed.
Lemma prints_mapM {A} (f : A → outcome string) (g : A → list entry) l :
  Forall (λ x, ∃ t, f x = Ok t ∧ prints (chars t) (g x)) l →
  ∃ ts, mapM f l = Ok ts ∧ prints (chars (concat_str ts)) (l ≫= g).
Proof.
  induction 1 as [|x l (t & Ht & Hx) Hl (ts & Hts & IH)]; [exists []; split; [done|]; constructor; by apply ignored_blank|].
  exists (t :: ts). split; [cbn [mapM]; by rewrite Ht, bind_Ok, Hts|]. cbn [concat_str]. rewrite chars_app. by apply prints_app.
Qed.

(** *** Comments *)

Definition on_line (s : string) : Prop := LF ∉ chars s ∧ zero ∉ chars s.
Lemma on_line_app s1 s2 : on_line s1 → on_line s2 → on_line (s1 +:+ s2).
Proof. unfold on_line. rewrite chars_app, !elem_of_app. naive_solver. Qed.
Lemma on_line_const s : forallb (λ c, negb (Ascii.eqb c LF) && negb (Ascii.eqb c zero)) (chars s) = true → on_line s.
Proof. rewrite forallb_forall. intros H. split; intros Hin%list_elem_of_In; by apply H in Hin. Qed.
Lemma on_line_name n : good_name n = true → on_line n.
Proof.
  unfold good_name. intros H. repeat match goal with H : _ && _ = true |- _ => apply andb_true_iff in H as [? ?] end.
  match goal with H : forallb _ (chars n) = true |- _ => rewrite forallb_forall in H; rename H into Hf end.
  split; intros Hin%list_elem_of_In; by apply Hf in Hin.
Qed.
Lemma on_line_dev n : good_device_name n → on_line n.
Proof.
  intros (d & f & m & -> & Hd & Hf & Hm & _). unfold slash3.
  repeat first [apply on_line_name; done|apply on_line_const; done|apply on_line_app].
Qed.
Lemma prints_comment s rest es : on_line s → prints (chars rest) es → prints (chars (comment_line s +:+ rest)) es.
Proof.
  intros [H1 H2] Hr. rewrite chars_app. apply prints_ignored; [|done]. unfold comment_line. rewrite !chars_app. simpl.
  apply (ignored_comment (" "%char :: chars s)); [set_solver|set_solver|by apply ignored_blank].
Qed.
Lemma prints_hashes rest es : prints (chars rest) es → prints (chars (hashes +:+ rest)) es.
Proof.
  intros Hr. rewrite chars_app. apply prints_ignored; [|done].
  assert (∃ w, on_line w ∧ chars hashes = "#"%char :: chars w ++ [LF]) as (w & [H1 H2] & ->).
  { exists "############################################". by split; [apply on_line_const|]. }
  by apply ignored_comment; [..|apply ignored_blank].
Qed.
Lemma prints_endl rest es : prints (chars rest) es → prints (chars (endl +:+ rest)) es.
Proof. intros H. rewrite chars_app. apply prints_ignored; [|done]. apply ignored_blank. by repeat constructor. Qed.
Lemma prints_then t rest es1 es2 : prints (chars t) es1 → prints (chars rest) es2 → prints (chars (t +:+ rest)) (es1 ++ es2).
Proof. rewrite chars_app. apply prints_app. Qed.
Lemma prints_last_endl : prints (chars endl) [].
Proof. constructor. apply ignored_blank. by repeat constructor. Qed.

(** *** Properties *)

Lemma printable_values l : Forall (λ v, good_value v = true) l → Forall (printable fn write_string_value) l.
Proof. intros H. eapply Forall_impl; [done|]. intros v. apply printable_value. Qed.
Lemma prints_prop e start margin p :
  good_prop p → Forall (λ w, good_name w = true) (entry_parts e) → entry_word e ≠ lexical_word_null →
  entry_values e = p_value p → entry_print e = write_string_value →
  match e with EDevProp domain _ _ _ _ => equalsIgnoreCase domain "class" = false | _ => True end →
  entry_word e +:+ entry_names e = start +:+ "->" +:+ p_name p +:+ ": " →
  prints (chars (print_prop start margin p)) [e].
Proof.
  intros (Hn & Hne & Hv) Hparts Hw Hvals Hprint Hdom Htext.
  assert (print_prop start margin p = entry_word e +:+ entry_rest (margin + len (p_name p) + 2) e) as ->.
  { unfold print_prop, entry_rest. rewrite Hvals, Hprint.
    transitivity ((start +:+ "->" +:+ p_name p +:+ ": ") +:+ print_values (margin + len (p_name p) + 2) (p_value p) +:+ endl).
    - by rewrite !app_assoc_str.
    - rewrite <-Htext. destruct (p_value p) as [|v l]; [done|]. cbn [print_values]. by rewrite !app_assoc_str. }
  apply prints_entry. split; [done|]. rewrite Hprint, Hvals. split; [done|]. split; [by apply printable_values|done].
Qed.

Lemma bind_single {A B} (f : A → B) (l : list A) : (l ≫= λ x, [f x]) = f <$> l.
Proof. induction l as [|x l IH]; [done|]. rewrite bind_cons, IH. done. Qed.
Lemma prints_attr_props (mk : string → t_property → entry) start margin ap :
  good_attr ap →
  (∀ p m, good_prop p → prints (chars (print_prop (start +:+ "/" +:+ attribute_name ap) m p)) [mk (attribute_name ap) p]) →
  prints (chars (print_attr_props start margin ap)) (mk (attribute_name ap) <$> ap_properties ap).
Proof.
  intros (_ & _ & Hp) H. unfold print_attr_props.
  rewrite <-(bind_single (mk (attribute_name ap))).
  apply prints_concat. eapply Forall_impl; [exact Hp|]. auto.
Qed.

(** *** Classes *)

Definition class_entry (s : t_server) (c : t_tango_class) : entry :=
  EClass (s_name s) (instance_name s) (c_name c) ((λ i, from_option d_name "" (heap s !! i)) <$> c_devices c).
Definition class_entries (c : t_tango_class) : list entry :=
  ((λ p, EClassProp (c_name c) (p_name p) (p_value p)) <$> c_properties c) ++
  (c_attribute_properties c ≫= λ ap,
    (λ p, EClassAttr (c_name c) (attribute_name ap) (p_name p) (p_value p)) <$> ap_properties ap).

Lemma slash_name_printable n : good_device_name n → printable fn quote_name n.
Proof.
  intros (d & f & m & -> & Hd & Hf & Hm & _ & _ & Hq%has_no_char).
  assert (∀ c, negb ((32 <? char_val c)%Z && negb (special c)) = true → c ≠ "/"%char → c ∉ chars (slash3 d f m)) as Hno.
  { intros c Hc Hs. unfold slash3. rewrite !chars_app, !elem_of_app, !list_elem_of_In. cbn [String.list_ascii_of_string].
    assert (∀ w, good_name w = true → ¬ In c (chars w)) as Hw.
    { intros w Hw Hin. unfold good_name in Hw. repeat match goal with H : _ && _ = true |- _ => apply andb_true_iff in H as [? ?] end.
      match goal with H : forallb _ (chars w) = true |- _ => rewrite forallb_forall in H; specialize (H c Hin); rename H into Hk end.
      by rewrite Hk in Hc. }
    intros [H|[H|[H|[H|H]]]]; [by eapply Hw, H|destruct H; naive_solver|by eapply Hw, H|destruct H; naive_solver|by eapply Hw, H]. }
  assert (DQUOTE ∉ chars (slash3 d f m) ∧ BSLASH ∉ chars (slash3 d f m) ∧ zero ∉ chars (slash3 d f m)) as (H1 & H2 & H3).
  { by split_and!; [|apply Hno..]. }
  assert (2 < len (slash3 d f m)) as Hlen.
  { unfold slash3. rewrite !app_len. simpl. destruct d; [done|]. destruct f; [done|]. simpl. lia. }
  split.
  - unfold class_lex. repeat match goal with |- context [String.eqb ?x ?y] =>
      destruct (String.eqb_spec x y) as [E|_]; [rewrite E in Hlen; simpl in Hlen; lia|] end. done.
  - intros b l Hb Hl. unfold quote_name. rewrite !chars_app, <-!app_assoc. rewrite <-(escape_plain _ H1) at 1.
    apply gives_quoted; [done| |done|done]. intros E. by rewrite E in Hlen; simpl in Hlen; lia.
Qed.

Lemma prints_class_line s c : good_server s → good_class c → Forall (λ i, i < length (heap s)) (c_devices c) →
  ∃ t, print_class_line s c = Ok t ∧ good_entry (class_entry s c) ∧
    ∃ m, t = entry_word (class_entry s c) +:+ entry_rest m (class_entry s c).
Proof.
  intros Hs (Hn & Hne & _) Hids. unfold print_class_line.
  assert (∃ ds, mapM (dev_of s) (c_devices c) = Ok ds ∧ Forall2 (λ i d, heap s !! i = Some d) (c_devices c) ds) as (ds & -> & Hds).
  { clear Hne. induction Hids as [|i l Hi Hl IH]; [by exists []|]. apply lookup_lt_is_Some_2 in Hi as [d Hd].
    destruct IH as (ds & Hds & HF). exists (d :: ds). split; [|by constructor]. cbn [mapM].
    assert (dev_of s i = Ok d) as -> by (unfold dev_of; by rewrite Hd). by rewrite bind_Ok, Hds. }
  rewrite bind_Ok. assert (d_name <$> ds = entry_values (class_entry s c)) as Hnames.
  { clear -Hds. cbn [entry_values class_entry]. induction Hds as [|i d l ds Hi Hl IH]; [done|]. rewrite !fmap_cons, Hi, IH. done. }
  rewrite Hnames. destruct (entry_values (class_entry s c)) as [|v l] eqn:Hv.
  { unfold class_entry, entry_values in Hv. apply fmap_nil_inv in Hv. by rewrite Hv in Hne. }
  eexists. split; [done|]. split.
  - destruct Hs as [[Hs1 Hs2] Hi _ _ [Hdev _] _]. split; [by repeat constructor|]. split; [done|]. split; [|by rewrite Hv].
    rewrite Hv, <-Hnames. cbn [entry_print class_entry]. clear -Hds Hdev.
    induction Hds as [|i d l ds Hi Hl IH]; constructor; [|done]. apply slash_name_printable.
    rewrite Forall_lookup in Hdev. by destruct (Hdev i d Hi) as [? _].
  - eexists. unfold entry_rest. rewrite Hv. cbn [entry_word entry_names entry_print class_entry]. unfold quote_name. rewrite !app_assoc_str.
    by repeat f_equal.
Qed.

Lemma print_class_prop_text n p : good_prop p →
  print_class_prop n p = Ok (print_prop ("CLASS/" +:+ n) (6 + len n + 2) p).
Proof.
  intros (_ & Hne & Hv). unfold print_class_prop, print_prop. destruct (p_value p) as [|v l] eqn:Ep; [done|].
  apply Forall_cons in Hv as [Hv _]. destruct v as [|c v]; [done|]. by rewrite app_assoc_str.
Qed.

Lemma prints_class c : good_class c → ∃ t, print_class c = Ok t ∧ prints (chars t) (class_entries c).
Proof.
  intros (Hn & _ & Hp & Ha & _). unfold print_class.
  destruct (prints_mapM (print_class_prop (c_name c)) (λ p, [EClassProp (c_name c) (p_name p) (p_value p)]) (c_properties c)) as (ts & -> & Hts).
  { eapply Forall_impl; [exact Hp|]. intros p Hgp. rewrite print_class_prop_text by done. eexists. split; [done|].
    apply prints_prop; [done|repeat constructor; [done|by destruct Hgp]|done..|]. by rewrite app_assoc_str. }
  rewrite bind_Ok. eexists. split; [done|]. rewrite bind_single in Hts. unfold class_entries.
  pose proof (on_line_name _ Hn) as Hl.
  apply prints_hashes, prints_comment; [by apply on_line_app; [apply on_line_const|]|].
  apply prints_endl, prints_then; [exact Hts|].
  apply prints_endl, prints_comment; [by repeat first [done|apply on_line_app|apply on_line_const]|].
  apply prints_endl. rewrite <-(app_nil_r (_ ≫= _)). apply prints_then; [|apply prints_last_endl].
  apply prints_concat. eapply Forall_impl; [exact Ha|]. intros ap Hap.
  apply (prints_attr_props (λ a p, EClassAttr (c_name c) a (p_name p) (p_value p))); [done|].
  intros p m Hgp. apply prints_prop; [done| |done..|by rewrite !app_assoc_str].
  repeat constructor; [done|by destruct Hap|by destruct Hgp].
Qed.

(** *** Devices and free objects *)

Definition dev_entries (domain family member : string) (d : t_device) : list entry :=
  ((λ p, EDevProp domain family member (p_name p) (p_value p)) <$> d_properties d) ++
  (d_attribute_properties d ≫= λ ap,
    (λ p, EDevAttr domain family member (attribute_name ap) (p_name p) (p_value p)) <$> ap_properties ap).
Definition object_entries (o : t_free_object) : list entry :=
  (λ p, EFree (o_name o) (p_name p) (p_value p)) <$> o_properties o.

Lemma prints_device d domain family member :
  good_device d → d_name d = slash3 domain family member → good_name domain = true → good_name family = true →
  good_name member = true → domain ≠ lexical_word_null → equalsIgnoreCase domain "class" = false →
  prints (chars (print_device d)) (dev_entries domain family member d).
Proof.
  intros (Hdn & Hp & Ha & _) Hn Hd Hf Hm Hnull Hcls. unfold print_device, dev_entries.
  pose proof (on_line_dev _ Hdn) as Hl.
  apply prints_comment; [by repeat first [done|apply on_line_app|apply on_line_const]|].
  apply prints_endl, prints_then.
  - rewrite <-(bind_single (λ p, EDevProp domain family member (p_name p) (p_value p))).
    apply prints_concat. eapply Forall_impl; [exact Hp|]. intros p Hgp. apply prints_prop; [done| |done..|].
    + repeat constructor; [done..|by destruct Hgp].
    + rewrite Hn. unfold slash3. by rewrite !app_assoc_str.
  - apply prints_endl, prints_comment; [by repeat first [done|apply on_line_app|apply on_line_const]|].
    apply prints_endl, prints_concat. eapply Forall_impl; [exact Ha|]. intros ap Hap.
    apply (prints_attr_props (λ a p, EDevAttr domain family member a (p_name p) (p_value p))); [done|].
    intros p m Hgp. apply prints_prop; [done| |done..|].
    + repeat constructor; [done..|by destruct Hap|by destruct Hgp].
    + rewrite Hn. unfold slash3. by rewrite !app_assoc_str.
Qed.
Lemma prints_object o : good_object o → prints (chars (print_object o)) (object_entries o).
Proof.
  intros (Hn & _ & Hp). unfold print_object, object_entries.
  rewrite <-(bind_single (λ p, EFree (o_name o) (p_name p) (p_value p))).
  apply prints_concat. eapply Forall_impl; [exact Hp|]. intros p Hgp. apply prints_prop; [done| |done..|by rewrite !app_assoc_str].
  repeat constructor; [done|by destruct Hgp].
Qed.
End Print.

(** ** What the definitions build *)

Definition bare_class (c : t_tango_class) : t_tango_class := mk_class (c_name c) (c_devices c) [] [].
Definition bare_device (d : t_device) : t_device := mk_device (d_name d) [] [].

Lemma push_devices_all names s : push_devices names s =
  set_devices (devices s ++ seq (length (heap s)) (length names)) (set_heap (heap s ++ ((λ n, mk_device n [] []) <$> names)) s).
Proof.
  revert s. induction names as [|n names IH]; intros s; [destruct s; simpl; by rewrite !app_nil_r|].
  cbn [push_devices]. rewrite IH. unfold push_device, set_devices, set_heap. simpl.
  rewrite length_app, Nat.add_1_r, <-!app_assoc. done.
Qed.

(** The data after the lines of the classes [cs]. *)
Definition skeleton (s : t_server) (instance : string) (cs : list t_tango_class) : t_server :=
  let n := length (cs ≫= c_devices) in
  mk_server (s_name s) instance (bare_class <$> cs) (seq 0 n) [] (bare_device <$> take n (heap s)).

Lemma seq_app_inv l1 l2 k n : l1 ++ l2 = seq k n → l1 = seq k (length l1) ∧ l2 = seq (k + length l1) (length l2) ∧ n = length l1 + length l2.
Proof.
  intros H. assert (n = length l1 + length l2) as -> by (by rewrite <-length_app, H, length_seq).
  rewrite seq_app in H. apply app_inj_1 in H as [-> ->]; [|by rewrite length_seq]. by rewrite !length_seq.
Qed.

Lemma exec_class_line s i cs1 c cs2 : good_server s → classes s = cs1 ++ c :: cs2 →
  exec_entry (class_entry s c) (skeleton s i cs1) = Ok (skeleton s (instance_name s) (cs1 ++ [c])).
Proof.
  intros [_ _ _ [Hids Hall] _ _] Hcs. cbn [exec_entry class_entry].
  rewrite Hids, Hcs, bind_app, bind_cons, app_assoc in Hall. apply seq_app_inv in Hall as (Hall & _ & Hn).
  pose proof Hall as Hall'. apply seq_app_inv in Hall' as (H1 & H2 & H3). rewrite length_app in Hn.
  unfold define_class. change (equalsIgnoreCase "DEVICE" "device") with true. cbn iota.
  rewrite push_devices_all. unfold skeleton, set_devices, set_heap, set_classes, set_instance_name. cbn [s_name instance_name classes devices free_objects heap].
  rewrite fmap_app, bind_app. cbn [mbind list_bind]. rewrite app_nil_r, length_app, !length_fmap, length_take_le by lia.
  f_equal. f_equal.
  - cbn [fmap list_fmap]. unfold bare_class. do 4 f_equal. rewrite H2 at 2. done.
  - by rewrite seq_app.
  - rewrite <-(take_take_drop (heap s)), fmap_app. f_equal. rewrite H2, Nat.add_0_l. clear -Hn.
    rewrite length_seq, <-list_fmap_compose. apply list_eq. intros j. rewrite !list_lookup_fmap.
    destruct (decide (j < length (c_devices c))).
    + rewrite lookup_seq_lt, lookup_take_lt, lookup_drop by lia. cbn [fmap option_fmap option_map compose].
      destruct (lookup_lt_is_Some_2 (heap s) (length (cs1 ≫= c_devices) + j)) as [d Hd]; [lia|]. by rewrite Hd.
    + rewrite lookup_seq_ge, lookup_take_ge by lia. done.
Qed.
Lemma exec_class_lines s cs1 cs2 : good_server s → classes s = cs1 ++ cs2 →
  exec_entries (class_entry s <$> cs2) (skeleton s (instance_name s) cs1) = Ok (skeleton s (instance_name s) (cs1 ++ cs2)).
Proof.
  intros Hs. revert cs1. induction cs2 as [|c cs2 IH]; intros cs1 Hcs; [by rewrite app_nil_r|].
  cbn [fmap list_fmap exec_entries]. rewrite (exec_class_line s _ cs1 c cs2), bind_Ok by done.
  rewrite IH by (by rewrite <-app_assoc). by rewrite <-app_assoc.
Qed.

Lemma good_name_ne n : good_name n = true → n ≠ "".
Proof. by intros H ->. Qed.
Lemma good_attrs_names aps : good_attrs aps → Forall (λ ap, attribute_name ap ≠ "" ∧ ap_properties ap ≠ []) aps.
Proof. intros [H _]. eapply Forall_impl; [exact H|]. intros ap (Hn & Hp & _). split; [by apply good_name_ne|done]. Qed.

Lemma exec_class s c cs1 cs2 : good_class c → classes s = cs1 ++ bare_class c :: cs2 → distinct (c_name <$> classes s) →
  exec_entries (class_entries c) s = Ok (set_classes (cs1 ++ c :: cs2) s).
Proof.
  intros (Hn%good_name_ne & _ & _ & Ha) Hcs Hd.
  destruct (named_look_at classes set_classes c_name (c_name c) c_properties (λ l, on_class_props (λ _, l)) (λ _, true)
    s (length cs1) (bare_class c)) as [Hl1 Hp1]; [done|by rewrite Hcs, list_lookup_middle|done..|].
  unfold class_entries. rewrite exec_app.
  rewrite (exec_props (class_props (c_name c))) with (l := []); [|intros; cbn [exec_entry]; by erewrite exec_class_prop, property_eta|exact Hl1].
  rewrite bind_Ok. set (s1 := put _ _ _).
  assert (s1 = set_classes (cs1 ++ mk_class (c_name c) (c_devices c) (c_properties c) [] :: cs2) s) as E1.
  { unfold s1, put, class_props, named_place. rewrite Hp1, Hcs. by rewrite list_insert_middle. }
  destruct (named_look_at classes set_classes c_name (c_name c) c_attribute_properties (λ l, on_class_attrs (λ _, l)) (λ _, true)
    s1 (length cs1) (mk_class (c_name c) (c_devices c) (c_properties c) [])) as [Hl2 Hp2]; [done|rewrite E1; apply list_lookup_middle; done| |done..|].
  { rewrite E1. rewrite Hcs in Hd. unfold set_classes; simpl. by rewrite fmap_app in *. }
  rewrite (exec_attrs (class_attrs (c_name c)) (λ a p, EClassAttr (c_name c) a (p_name p) (p_value p))) with (l := []);
    [|intros; cbn [exec_entry]; by erewrite exec_class_attr|exact Hl2|by destruct Ha|by apply good_attrs_names].
  f_equal. unfold put, class_attrs, named_place. rewrite Hp2, E1. unfold set_classes; simpl. rewrite list_insert_middle by done. by destruct c.
Qed.
Lemma exec_classes s cs1 cs2 : Forall good_class cs2 → classes s = cs1 ++ (bare_class <$> cs2) →
  distinct (c_name <$> (cs1 ++ cs2)) → exec_entries (cs2 ≫= class_entries) s = Ok (set_classes (cs1 ++ cs2) s).
Proof.
  intros Hg. revert s cs1. induction Hg as [|c cs2 Hc Hg IH]; intros s cs1 Hcs Hd.
  - cbn [fmap list_fmap] in Hcs. rewrite app_nil_r in *. rewrite <-Hcs. by destruct s.
  - rewrite bind_cons, exec_app. rewrite (exec_class s c cs1 (bare_class <$> cs2)); [|done|done|].
    + rewrite bind_Ok, (IH _ (cs1 ++ [c])); [|by rewrite <-app_assoc|by rewrite <-app_assoc]. by rewrite <-app_assoc.
    + rewrite Hcs. rewrite fmap_app, <-list_fmap_compose. by rewrite fmap_app in Hd.
Qed.

Lemma exec_device s d ds1 ds2 domain family member : good_device d → d_name d = slash3 domain family member →
  heap s = ds1 ++ bare_device d :: ds2 → flat s = true → distinct (d_name <$> heap s) →
  exec_entries (dev_entries domain family member d) s = Ok (set_heap (ds1 ++ d :: ds2) s).
Proof.
  intros (Hdn & _ & Ha) Hname Hds Hflat Hd.
  assert (d_name d ≠ "") as Hn by (rewrite Hname; unfold slash3; by destruct domain).
  destruct (named_look_at heap set_heap d_name (d_name d) d_properties (λ l, on_dev_props (λ _, l)) flat
    s (length ds1) (bare_device d)) as [Hl1 Hp1]; [done|by rewrite Hds, list_lookup_middle|done..|].
  unfold dev_entries. rewrite exec_app.
  rewrite (exec_props (dev_props (d_name d))) with (l := []);
    [|intros; cbn [exec_entry]; rewrite <-Hname; by erewrite exec_dev_prop, property_eta|exact Hl1].
  rewrite bind_Ok. set (s1 := put _ _ _).
  assert (s1 = set_heap (ds1 ++ mk_device (d_name d) (d_properties d) [] :: ds2) s) as E1.
  { unfold s1, put, dev_props, named_place. rewrite Hp1, Hds. by rewrite list_insert_middle. }
  destruct (named_look_at heap set_heap d_name (d_name d) d_attribute_properties (λ l, on_dev_attrs (λ _, l)) flat
    s1 (length ds1) (mk_device (d_name d) (d_properties d) [])) as [Hl2 Hp2]; [|rewrite E1; apply list_lookup_middle; done| |done..|].
  { rewrite E1. unfold flat in *. rewrite Hds in Hflat. unfold set_heap; simpl. by rewrite length_app in *. }
  { rewrite E1. rewrite Hds in Hd. unfold set_heap; simpl. by rewrite fmap_app in *. }
  rewrite (exec_attrs (dev_attrs (d_name d)) (λ a p, EDevAttr domain family member a (p_name p) (p_value p))) with (l := []);
    [|intros; cbn [exec_entry]; rewrite <-Hname; by erewrite exec_dev_attr|exact Hl2|by destruct Ha|by apply good_attrs_names].
  f_equal. unfold put, dev_attrs, named_place. rewrite Hp2, E1. unfold set_heap; simpl. rewrite list_insert_middle by done. by destruct d.
Qed.
Lemma exec_devices fn ds2 ds1 : Forall good_device ds2 → distinct (d_name <$> (ds1 ++ ds2)) →
  ∃ es, prints fn (chars (concat_str (print_device <$> ds2))) es ∧
    ∀ s, heap s = ds1 ++ (bare_device <$> ds2) → flat s = true → exec_entries es s = Ok (set_heap (ds1 ++ ds2) s).
Proof.
  intros Hg. revert ds1. induction Hg as [|d ds2 Hd Hg IH]; intros ds1 Hdist.
  - exists []. split; [constructor; by apply ignored_blank|]. intros s Hs _. cbn [fmap list_fmap] in Hs. rewrite app_nil_r in *. rewrite <-Hs. by destruct s.
  - destruct (IH (ds1 ++ [d])) as (es & Hp & Hx); [by rewrite <-app_assoc|].
    destruct (proj1 Hd) as (domain & family & member & Hn & ? & ? & ? & ? & ? & _).
    exists (dev_entries domain family member d ++ es). split.
    + rewrite fmap_cons. cbn [concat_str]. apply prints_then; [by apply prints_device|done].
    + intros s Hs Hflat. rewrite exec_app, (exec_device s d ds1 (bare_device <$> ds2)), bind_Ok; [|done..|].
      * rewrite Hx; [by rewrite <-app_assoc|by rewrite <-app_assoc|]. unfold flat in *. rewrite Hs in Hflat. unfold set_heap; simpl. by rewrite length_app in *.
      * rewrite Hs. rewrite fmap_app, <-list_fmap_compose. by rewrite fmap_app in Hdist.
Qed.

Lemma exec_object s o : good_object o → distinct (o_name <$> (free_objects s ++ [o])) →
  exec_entries (object_entries o) s = Ok (set_free_objects (free_objects s ++ [o]) s).
Proof.
  destruct o as [n [|p ps]]; intros (Hn%good_name_ne & Hp & _) Hd; [done|]. cbn [o_name o_properties] in *.
  unfold object_entries. cbn [fmap list_fmap exec_entries exec_entry o_name o_properties]. rewrite bind_Ok.
  unfold define_free_prop at 1, search_free_object. rewrite find_name_absent.
  2:{ unfold distinct in Hd. rewrite !fmap_app in Hd. apply NoDup_app in Hd as (_ & Hd & _). intros H. apply (Hd _ H). left. }
  unfold add_property. cbn [app]. rewrite property_eta. set (s1 := set_free_objects _ s).
  destruct (named_look_at free_objects set_free_objects o_name n o_properties (λ l, on_object_props (λ _, l)) (λ _, true)
    s1 (length (free_objects s)) (mk_free_object n [p])) as [Hl1 Hp1]; [done|by apply list_lookup_middle| |done..|].
  { unfold s1, set_free_objects; simpl. by rewrite fmap_app in *. }
  rewrite (exec_props (object_props n) (λ p, EFree n (p_name p) (p_value p))) with (l := [p]);
    [|intros; cbn [exec_entry]; by erewrite exec_free_prop, property_eta|exact Hl1].
  f_equal. unfold put, object_props, named_place. rewrite Hp1. unfold s1, set_free_objects; simpl. by rewrite list_insert_middle.
Qed.
Lemma exec_objects s os : Forall good_object os → distinct (o_name <$> (free_objects s ++ os)) →
  exec_entries (os ≫= object_entries) s = Ok (set_free_objects (free_objects s ++ os) s).
Proof.
  intros Hg. revert s. induction Hg as [|o os Ho Hg IH]; intros s Hd; [rewrite app_nil_r; by destruct s|].
  rewrite bind_cons, exec_app, exec_object, bind_Ok; [|done|].
  - rewrite IH; unfold set_free_objects; simpl; by rewrite <-app_assoc.
  - unfold distinct in *. rewrite cons_middle, app_assoc, !fmap_app in Hd. rewrite !fmap_app. by apply NoDup_app in Hd as (? & _ & _).
Qed.

(** ** The round trip *)

Lemma prints_class_lines fn s cs : good_server s → Forall good_class cs → Forall (λ i, i < length (heap s)) (cs ≫= c_devices) →
  ∃ ts, mapM (print_class_line s) cs = Ok ts ∧ prints fn (chars (concat_str ts)) (class_entry s <$> cs).
Proof.
  intros Hs Hg Hids. rewrite <-(bind_single (class_entry s)). apply prints_mapM.
  induction Hg as [|c cs Hc Hg IH]; constructor; rewrite bind_cons, Forall_app in Hids; destruct Hids as [H1 H2]; [|auto].
  destruct (prints_class_line fn s c Hs Hc H1) as (t & Ht & He & m & ->). eexists. split; [done|]. by apply prints_entry.
Qed.

Lemma print_prop_ends st m p : ∃ u, chars (print_prop st m p) = u ++ [LF].
Proof. unfold print_prop. rewrite <-!app_assoc_str. eexists. by rewrite chars_app. Qed.
Lemma concat_str_ends l : Forall (λ s, ∃ u, chars s = u ++ [LF]) l → ∀ s, (∃ u, chars s = u ++ [LF]) →
  ∃ u, chars (s +:+ concat_str l) = u ++ [LF].
Proof.
  induction 1 as [|x l (u & Hu) Hl IH]; intros s [v Hv]; cbn [concat_str].
  - exists v. by rewrite app_empty.
  - rewrite <-app_assoc_str. apply IH. exists (chars s ++ u). by rewrite chars_app, Hu, app_assoc.
Qed.
Lemma print_object_ends o : good_object o → ∃ u, chars (print_object o) = u ++ [LF].
Proof.
  intros (_ & Hne & _). unfold print_object. destruct (o_properties o) as [|p ps]; [done|]. rewrite fmap_cons. cbn [concat_str].
  apply concat_str_ends.
  - apply Forall_fmap, Forall_true. intros q. apply print_prop_ends.
  - apply print_prop_ends.
Qed.

Lemma mapM_dev_seq s k l : heap s = take k (heap s) ++ l → k ≤ length (heap s) → mapM (dev_of s) (seq k (length l)) = Ok l.
Proof.
  revert k. induction l as [|d l IH]; intros k Hl Hk; [done|]. cbn [length seq mapM].
  assert (heap s !! k = Some d) as Hd.
  { rewrite Hl, lookup_app_r by (rewrite length_take; lia). rewrite length_take_le, Nat.sub_diag by lia. done. }
  assert (dev_of s k = Ok d) as -> by (unfold dev_of; by rewrite Hd). rewrite bind_Ok, IH; [done| |].
  - by rewrite (take_S_r _ _ d), <-app_assoc.
  - apply lookup_lt_Some in Hd. lia.
Qed.

Definition all_entries (s : t_server) (dev_es : list entry) : list entry :=
  (class_entry s <$> classes s) ++ (classes s ≫= class_entries) ++ dev_es ++ (free_objects s ≫= object_entries).

Lemma print_server_prints fn s es : good_server s → prints fn (chars (concat_str (print_device <$> heap s))) es →
  ∃ text u, print_server s = Ok text ∧ chars text = u ++ [LF] ∧ prints fn (chars text) (all_entries s es).
Proof.
  intros Hs Hes. pose proof Hs as [_ _ (Hc & _ & _) (Hids & Hall) _ (Ho & _)].
  destruct (prints_class_lines fn s (classes s)) as (ts1 & Ht1 & Hp1); [done..| |].
  { rewrite Hall, Hids. apply Forall_forall. intros i Hi%elem_of_seq. lia. }
  destruct (prints_mapM fn print_class class_entries (classes s)) as (ts2 & Ht2 & Hp2).
  { eapply Forall_impl; [exact Hc|]. intros c. apply prints_class. }
  unfold print_server. rewrite Ht1, bind_Ok, Ht2, bind_Ok, Hids, mapM_dev_seq, bind_Ok by (done || lia).
  eexists. destruct (concat_str_ends (print_object <$> free_objects s)) with
    (s := concat_str ts1 +:+ endl +:+ concat_str ts2 +:+ endl +:+ concat_str (print_device <$> heap s) +:+ hashes +:+
          comment_line "FREE OBJECT attributes" +:+ endl) as [u Hu].
  { apply Forall_fmap. eapply Forall_impl; [exact Ho|]. intros o. apply print_object_ends. }
  { rewrite <-!app_assoc_str. eexists. by rewrite chars_app. }
  exists u. split; [done|]. rewrite !app_assoc_str in Hu. split; [exact Hu|]. unfold all_entries.
  apply prints_then; [done|]. apply prints_endl, prints_then; [done|]. apply prints_endl, prints_then; [done|].
  apply prints_hashes, prints_comment; [by apply on_line_const|]. apply prints_endl, prints_concat.
  eapply Forall_impl; [exact Ho|]. intros o. apply prints_object.
Qed.

Lemma exec_all s es : good_server s →
  (∀ s0, heap s0 = bare_device <$> heap s → flat s0 = true → exec_entries es s0 = Ok (set_heap (heap s) s0)) →
  exec_entries (all_entries s es) (set_s_name (s_name s) empty_server) = Ok s.
Proof.
  intros Hs Hx. pose proof Hs as [_ _ (Hc & Hne & Hcd) (Hids & Hall) _ (Ho & Hod)].
  assert (exec_entries (class_entry s <$> classes s) (set_s_name (s_name s) empty_server) = Ok (skeleton s (instance_name s) (classes s))) as Hskel.
  { change (set_s_name (s_name s) empty_server) with (skeleton s "" []). destruct (classes s) as [|c cs] eqn:Ecs; [done|].
    rewrite fmap_cons. cbn [exec_entries]. rewrite (exec_class_line s "" [] c cs) by done. rewrite bind_Ok.
    by rewrite exec_class_lines. }
  unfold all_entries. rewrite !exec_app, Hskel, bind_Ok. rewrite exec_app, (exec_classes _ []), bind_Ok by done.
  rewrite exec_app, Hx, bind_Ok.
  - rewrite exec_objects by done. f_equal. unfold skeleton, set_classes, set_heap, set_free_objects; simpl.
    destruct s; simpl in *. f_equal. by rewrite Hall, Hids, length_seq.
  - unfold skeleton, set_classes; simpl. by rewrite Hall, Hids, length_seq, take_ge.
  - unfold flat, skeleton, set_classes; simpl. apply bool_decide_eq_true_2.
    by rewrite length_fmap, Hall, Hids, length_seq, take_ge.
Qed.

(** The text of good data, and a start on it. *)
Lemma written_and_read s : good_server s → ∃ text, print_server s = Ok text ∧
  ∀ fn d0, ∃ d, new_FileDatabase fn text d0 = Some (d, inr ()) ∧ m_server d = s.
Proof.
  intros Hs. assert (∃ text, print_server s = Ok text) as [text Ht].
  { destruct (exec_devices "" (heap s) []) as (es & Hp & _); [apply Hs..|].
    destruct (print_server_prints "" s es Hs Hp) as (text & _ & Ht & _). by exists text. }
  exists text. split; [done|]. intros fn d0. destruct (exec_devices fn (heap s) []) as (es & Hp & Hx); [apply Hs..|].
  destruct (print_server_prints fn s es Hs Hp) as (text' & u & Ht' & Hu & Hpr). rewrite Ht in Ht'. injection Ht' as <-.
  pose proof (exec_all _ es Hs Hx) as Hex.
  destruct (all_entries s es) as [|e es'] eqn:Ees.
  { unfold all_entries in Ees. apply app_eq_nil in Ees as [Ees%fmap_nil_inv _]. by destruct Hs as [_ _ (_ & Hne & _) _ _ _]. }
  assert (entry_word e = s_name s) as He.
  { unfold all_entries in Ees. destruct (classes s) as [|c cs] eqn:Ec; [by destruct Hs as [_ _ (_ & Hne & _) _ _ _]|].
    by injection Ees as <- _. }
  assert (wp (new_FileDatabase fn text) d0 (λ d2 r, r = inr () ∧ m_server d2 = s)) as (d2 & r & Hr & -> & Hd2)%wp_run;
    [|by exists d2].
  unfold new_FileDatabase. apply wp_bind, wp_modify, wp_bind.
  eapply (wp_parse_res_file fn text u e es' s); [by rewrite <-Hu|done|done|done| |].
  - cbn [m_server]. by rewrite He.
  - intros d2 H2 _ _. by apply wp_ret.
Qed.

