(* ===== verification/FileDbCmds.v ===== *)
(** * The requests on the file of the database (client/filedatabase.cpp)

  A request is an array of texts, as for the server of the database; its answer is an array
  or nothing.  The data of a request are always an array here: the callers
  (client/dbapi_base.cpp) insert nothing else in the [Any]. *)
From Stdlib Require Import Ascii.
From stdpp Require Import pretty.
From S2P Require Import Prelude StateExn CppString FileDb.
Local Open Scope string_scope.
Local Open Scope list_scope.
Local Open Scope Z_scope.
#[local] Arguments String.append : simpl nomatch.

Abbreviation DevVarStringArray := (list string).

(** ** Texts and numbers *)

Definition isspace (c : ascii) : bool := Ascii.eqb c " " || ((9 <=? char_val c) && (char_val c <=? 13)).
Definition digit (c : ascii) : option Z := let d := char_val c - 48 in if (0 <=? d) && (d <=? 9) then Some d else None.
Fixpoint skip_spaces (l : list ascii) : list ascii :=
  match l with c :: l' => if isspace c then skip_spaces l' else l | [] => [] end.
(** The number written in at most [n] digits, after [acc]; [None] when there is no digit. *)
Fixpoint scan_digits (n : nat) (l : list ascii) (acc : option Z) : option Z :=
  match n, l with
  | S n, c :: l =>
      match digit c with Some d => scan_digits n l (Some (10 * default 0 acc + d)) | None => acc end
  | _, _ => acc
  end.
(** [sscanf] with a field of [n] characters; the sign is one of them. *)
Definition scan (n : nat) (s : string) : option Z :=
  match skip_spaces (chars s), n with
  | c :: l, S n =>
      if Ascii.eqb c "-" then Z.opp <$> scan_digits n l None
      else if Ascii.eqb c "+" then scan_digits n l None
      else scan_digits (S n) (c :: l) None
  | _, _ => None
  end.
(** [sscanf(s, "%6u", &x)] and [sscanf(s, "%6d", &x)]: [x] stays when there is no number. *)
Definition scan_u (s : string) (x : Z) : Z := from_option (λ v, v mod 2 ^ 32) x (scan 6 s).
Definition scan_d (s : string) (x : Z) : Z := default x (scan 6 s).
Definition to_corba_string (n : nat) : string := pretty (Z.of_nat n).

(** The texts at [index], [index + 1]... *)
Fixpoint read_values (n : nat) (data_in : DevVarStringArray) (index : Z) : outcome (list string) :=
  match n with
  | O => Ok []
  | S n => v ← vget data_in index; l ← read_values n data_in (index + 1); Ok (v :: l)
  end.
Definition length_error : exn := OtherExc "std::length_error".

(** ** Parts of the data *)

(** Code on a part of the data. *)
Definition on_part {A S} (get_part : S) (set_part : S → t_server → t_server) (m : SM S A) : SM FileDatabase A := λ d,
  match m get_part with
  | Some (p, r) => Some (set_server (set_part p (m_server d)) d, r)
  | None => None
  end.
Definition on_device {A} (id : nat) (m : SM t_device A) : SM FileDatabase A :=
  d ← get; dev ← lift (dev_of (m_server d) id); on_part dev (λ dev, alter_device id (λ _, dev)) m.
Definition on_class {A} (i : nat) (c : t_tango_class) (m : SM t_tango_class A) : SM FileDatabase A :=
  on_part c (λ c, alter_class i (λ _, c)) m.
Definition on_object {A} (i : nat) (o : t_free_object) (m : SM t_free_object A) : SM FileDatabase A :=
  on_part o (λ o, alter_object i (λ _, o)) m.
Definition on_props {A S} (props : S → list t_property) (set : (list t_property → list t_property) → S → S)
  (m : SM (list t_property) A) : SM S A := λ s,
  match m (props s) with Some (l, r) => Some (set (λ _, l) s, r) | None => None end.

(** ** Reading *)

(** The answer for one property: a missing property has no value, but a space. *)
Definition get_dev_prop (props : list t_property) (name : string) : DevVarStringArray :=
  match find_name p_name name props with
  | Some (_, p) => p_name p :: to_corba_string (length (p_value p)) :: p_value p
  | None => [name; "0"; " "]
  end.
Definition DbGetDeviceProperty (data_in : DevVarStringArray) : SM FileDatabase DevVarStringArray :=
  d ← get;
  name ← lift (vget data_in 0);
  let out := [name; to_corba_string (length data_in - 1)] in
  if (2 <=? length data_in)%nat then
    dev ← lift (search_device (m_server d) name);
    match dev with
    | Some id =>
        dv ← lift (dev_of (m_server d) id);
        mret (out ++ (tail data_in ≫= get_dev_prop (d_properties dv)))
    | None => mret (out ++ (tail data_in ≫= λ n, [n; "0"; " "]))
    end
  else mret out.

(** For a class, the name of the request is sent back, and there is no space. *)
Definition get_class_prop (props : list t_property) (name : string) : DevVarStringArray :=
  match find_name p_name name props with
  | Some (_, p) => name :: to_corba_string (length (p_value p)) :: p_value p
  | None => [name; "0"]
  end.
Definition DbGetClassProperty (data_in : DevVarStringArray) : SM FileDatabase DevVarStringArray :=
  d ← get;
  name ← lift (vget data_in 0);
  let out := [name; to_corba_string (length data_in - 1)] in
  match search_class (m_server d) name with
  | Some (_, c) => mret (out ++ (tail data_in ≫= get_class_prop (c_properties c)))
  | None => mret (out ++ (tail data_in ≫= λ n, [n; "0"]))
  end.

(** The properties of the attributes with some name: their number replaces the text before them. *)
Definition put_props (out : DevVarStringArray) (props : list t_property) : DevVarStringArray :=
  removelast out ++ to_corba_string (length props) ::
    (props ≫= λ p, p_name p :: to_corba_string (length (p_value p)) :: p_value p).
Fixpoint get_attr_loop (aps : list t_attribute_property) (name : string) (out : DevVarStringArray) : DevVarStringArray :=
  match aps with
  | [] => out
  | ap :: aps =>
      get_attr_loop aps name (if equalsIgnoreCase (attribute_name ap) name then put_props out (ap_properties ap) else out)
  end.
Fixpoint get_attrs_loop (aps : list t_attribute_property) (names : list string) (out : DevVarStringArray) : DevVarStringArray :=
  match names with
  | [] => out
  | n :: names => get_attrs_loop aps names (get_attr_loop aps n (out ++ [n; "0"]))
  end.
Definition DbGetDeviceAttributeProperty (data_in : DevVarStringArray) : SM FileDatabase DevVarStringArray :=
  d ← get;
  name ← lift (vget data_in 0);
  let out := [name; to_corba_string (length data_in - 1)] in
  dev ← lift (search_device (m_server d) name);
  match dev with
  | Some id =>
      dv ← lift (dev_of (m_server d) id);
      mret (get_attrs_loop (d_attribute_properties dv) (tail data_in) out)
  | None => mret (out ++ (tail data_in ≫= λ n, [n; "0"]))
  end.
Definition DbGetClassAttributeProperty (data_in : DevVarStringArray) : SM FileDatabase DevVarStringArray :=
  d ← get;
  name ← lift (vget data_in 0);
  let out := [name; to_corba_string (length data_in - 1)] in
  match search_class (m_server d) name with
  | Some (_, c) => mret (get_attrs_loop (c_attribute_properties c) (tail data_in) out)
  | None => mret (out ++ (tail data_in ≫= λ n, [n; "0"]))
  end.

(** The properties of a free object.  Three places are reserved for each property: those
    that are not used stay empty, at the end. *)
Definition get_free_prop (props : list t_property) (name : string) : DevVarStringArray :=
  match find_name p_name name props with
  | Some (_, p) => name :: to_corba_string (length (p_value p)) :: p_value p
  | None => [name; "0"; " "]
  end.
Definition unused (props : list t_property) (name : string) : DevVarStringArray :=
  match find_name p_name name props with Some (_, mk_property _ []) => [""] | _ => [] end.
Definition wrong_number {A} (reason command : string) (n : Z) (l : DevVarStringArray) : SM FileDatabase A :=
  throw reason ("Invalid number of arguments passed to FileDatabase::" +:+ command +:+ ". Expecting at least " +:+ pretty n +:+
    ", found " +:+ pretty (Z.of_nat (length l))) origin.
Definition DbGetProperty (data_in : DevVarStringArray) : SM FileDatabase DevVarStringArray :=
  when_ (length data_in <? 1)%nat (wrong_number "API_InvalidCorbaAny" "DbGetProperty" 1 data_in);;
  d ← get;
  name ← lift (vget data_in 0);
  let props := from_option (o_properties ∘ snd) [] (search_free_object (m_server d) name) in
  mret (name :: to_corba_string (length data_in - 1) ::
    (tail data_in ≫= get_free_prop props) ++ (tail data_in ≫= unused props)).

(** ** Writing *)

Definition set_value (k : nat) (values : list string) (l : list t_property) : list t_property :=
  alter (λ p, mk_property (p_name p) values) k l.

(** The properties of a device, from [index]: [n_values] is the last number that was read.
    [resize] throws when that number is negative. *)
Fixpoint put_dev_props (n : nat) (data_in : DevVarStringArray) (index n_values : Z) : SM (list t_property) unit :=
  match n with
  | O => mret ()
  | S n =>
      name ← lift (vget data_in index);
      props ← get;
      text ← lift (vget data_in (index + 1));
      let n_values := scan_d text n_values in
      let index := index + 2 in
      match find_name p_name name props with
      | Some (k, _) =>
          when_ (n_values <? 0) (λ s, Some (s, inl length_error));;
          values ← lift (read_values (Z.to_nat n_values) data_in index);
          modify (set_value k values);;
          put_dev_props n data_in (index + n_values) n_values
      | None =>
          values ← lift (read_values (Z.to_nat n_values) data_in index);
          modify (λ l, l ++ [mk_property name values]);;
          put_dev_props n data_in (index + Z.max 0 n_values) n_values
      end
  end.
Definition DbPutDeviceProperty (data_in : DevVarStringArray) : SM FileDatabase unit :=
  if (1 <? length data_in)%nat then
    d ← get;
    name ← lift (vget data_in 0);
    dev ← lift (search_device (m_server d) name);
    match dev with
    | None => mret ()
    | Some id =>
        text ← lift (vget data_in 1);
        on_device id (on_props d_properties on_dev_props (put_dev_props (Z.to_nat (scan_u text 0)) data_in 2 0));;
        write_file
    end
  else write_file.

(** For a class, the loop stops once the data are read, if the last property is new. *)
Fixpoint put_class_props (n : nat) (data_in : DevVarStringArray) (index n_values : Z) : SM (list t_property) unit :=
  match n with
  | O => mret ()
  | S n =>
      name ← lift (vget data_in index);
      props ← get;
      text ← lift (vget data_in (index + 1));
      let n_values := scan_d text n_values in
      let index := index + 2 in
      match find_name p_name name props with
      | Some (k, _) =>
          when_ (n_values <? 0) (λ s, Some (s, inl length_error));;
          values ← lift (read_values (Z.to_nat n_values) data_in index);
          modify (set_value k values);;
          put_class_props n data_in (index + n_values) n_values
      | None =>
          values ← lift (read_values (Z.to_nat n_values) data_in index);
          modify (λ l, l ++ [mk_property name values]);;
          let index := index + Z.max 0 n_values in
          if Z.of_nat (length data_in) <=? index then mret () else put_class_props n data_in index n_values
      end
  end.
Definition DbPutClassProperty (data_in : DevVarStringArray) : SM FileDatabase unit :=
  if (1 <? length data_in)%nat then
    d ← get;
    name ← lift (vget data_in 0);
    match search_class (m_server d) name with
    | None => mret ()
    | Some (i, c) =>
        text ← lift (vget data_in 1);
        on_class i c (on_props c_properties on_class_props (put_class_props (Z.to_nat (scan_u text 0)) data_in 2 0));;
        write_file
    end
  else write_file.

(** A free object and its properties are added when they are not there. *)
Fixpoint put_free_props (n : nat) (data_in : DevVarStringArray) (index : Z) : SM (list t_property) unit :=
  match n with
  | O => mret ()
  | S n =>
      name ← lift (vget data_in index);
      props ← get;
      text ← lift (vget data_in (index + 1));
      let n_values := scan_u text 0 in
      values ← lift (read_values (Z.to_nat n_values) data_in (index + 2));
      modify (λ l, match find_name p_name name l with
                   | Some (k, _) => set_value k values l
                   | None => l ++ [mk_property name values]
                   end);;
      put_free_props n data_in (index + 2 + n_values)
  end.
Definition DbPutProperty (data_in : DevVarStringArray) : SM FileDatabase unit :=
  when_ (length data_in <? 2)%nat (wrong_number "API_InvalidCorbaAny" "DbPutProperty" 2 data_in);;
  name ← lift (vget data_in 0);
  on_server (λ s, match search_free_object s name with
                  | Some _ => s
                  | None => set_free_objects (free_objects s ++ [mk_free_object name []]) s
                  end);;
  d ← get;
  let '(i, o) := default (length (free_objects (m_server d)) - 1, mk_free_object name [])%nat (search_free_object (m_server d) name) in
  text ← lift (vget data_in 1);
  on_object i o (on_props o_properties on_object_props (put_free_props (Z.to_nat (scan_u text 0)) data_in 2));;
  write_file.

(** *** Properties of attributes

  The answer of a step is [None] when the end of the data has been reached: the file is
  written and the request is over.  Else it is the index in the data with the last number of
  properties and of values that were read. *)
Definition Step : Type := option (Z * Z).

(** The loop on the properties of the attribute that are there, for one property of the data: it goes on
    after a property has been found, with the next name of the data. *)
Fixpoint replace_props (k n : nat) (data_in : DevVarStringArray) (ps : list t_property) (index num_vals : Z) (exist : bool) :
  outcome (list t_property * option (Z * Z * bool)) :=
  match n with
  | O => Ok (ps, Some (index, num_vals, exist))
  | S n =>
      p ← deref (ps !! k);
      name ← vget data_in index;
      if equalsIgnoreCase (p_name p) name then
        text ← vget data_in (index + 1);
        let num_vals := scan_u text num_vals in
        values ← read_values (Z.to_nat num_vals) data_in (index + 2);
        let ps := set_value k values ps in
        let index := index + 2 + num_vals in
        if Z.of_nat (length data_in) <=? index then Ok (ps, None)
        else replace_props (S k) n data_in ps index num_vals true
      else replace_props (S k) n data_in ps index num_vals exist
  end.
(** The properties of an attribute. *)
Fixpoint put_attr_props (num_prop : nat) (data_in : DevVarStringArray) (ps : list t_property) (index num_vals : Z) :
  outcome (list t_property * Step) :=
  match num_prop with
  | O => Ok (ps, Some (index, num_vals))
  | S num_prop =>
      r ← replace_props 0 (length ps) data_in ps index num_vals false;
      match r with
      | (ps, None) => Ok (ps, None)
      | (ps, Some (index, num_vals, true)) => put_attr_props num_prop data_in ps index num_vals
      | (ps, Some (index, num_vals, false)) =>
          name ← vget data_in index;
          text ← vget data_in (index + 1);
          let num_vals := scan_u text num_vals in
          values ← read_values (Z.to_nat num_vals) data_in (index + 2);
          let ps := ps ++ [mk_property name values] in
          let index := index + 2 + num_vals in
          if Z.of_nat (length data_in) <=? index then Ok (ps, None)
          else put_attr_props num_prop data_in ps index num_vals
      end
  end.
Fixpoint put_attrs (num_attr : nat) (data_in : DevVarStringArray) (aps : list t_attribute_property) (index num_prop num_vals : Z) :
  outcome (list t_attribute_property) :=
  match num_attr with
  | O => Ok aps
  | S num_attr =>
      name ← vget data_in index;
      let '(k, ap, aps) := match find_name attribute_name name aps with
                           | Some (k, ap) => (k, ap, aps)
                           | None => (length aps, mk_attribute_property name [], aps ++ [mk_attribute_property name []])
                           end in
      text ← vget data_in (index + 1);
      let num_prop := scan_u text num_prop in
      r ← put_attr_props (Z.to_nat num_prop) data_in (ap_properties ap) (index + 2) num_vals;
      let aps := <[k := mk_attribute_property (attribute_name ap) (fst r)]> aps in
      match snd r with
      | None => Ok aps
      | Some (index, num_vals) => put_attrs num_attr data_in aps index num_prop num_vals
      end
  end.

Definition DbPutDeviceAttributeProperty (data_in : DevVarStringArray) : SM FileDatabase unit :=
  d ← get;
  name ← lift (vget data_in 0);
  dev ← lift (search_device (m_server d) name);
  match dev with
  | Some id =>
      text ← lift (vget data_in 1);
      dv ← lift (dev_of (m_server d) id);
      aps ← lift (put_attrs (Z.to_nat (scan_u text 0)) data_in (d_attribute_properties dv) 2 0 0);
      on_server (alter_device id (on_dev_attrs (λ _, aps)))
  | None => mret ()
  end;;
  write_file.
Definition DbPutClassAttributeProperty (data_in : DevVarStringArray) : SM FileDatabase unit :=
  d ← get;
  name ← lift (vget data_in 0);
  match search_class (m_server d) name with
  | Some (i, c) =>
      text ← lift (vget data_in 1);
      aps ← lift (put_attrs (Z.to_nat (scan_u text 0)) data_in (c_attribute_properties c) 2 0 0);
      on_server (alter_class i (on_class_attrs (λ _, aps)))
  | None => mret ()
  end;;
  write_file.

(** ** Deleting *)

Definition erase_prop (name : string) (l : list t_property) : list t_property :=
  match find_name p_name name l with Some (k, _) => delete k l | None => l end.
Definition erase_props (names : list string) (l : list t_property) : list t_property :=
  fold_left (λ l n, erase_prop n l) names l.

Definition DbDeleteDeviceProperty (data_in : DevVarStringArray) : SM FileDatabase unit :=
  d ← get;
  name ← lift (vget data_in 0);
  dev ← lift (search_device (m_server d) name);
  (if dev is Some id then on_server (alter_device id (on_dev_props (erase_props (tail data_in)))) else mret ());;
  write_file.
Definition DbDeleteClassProperty (data_in : DevVarStringArray) : SM FileDatabase unit :=
  d ← get;
  name ← lift (vget data_in 0);
  (if search_class (m_server d) name is Some (i, _) then on_server (alter_class i (on_class_props (erase_props (tail data_in)))) else mret ());;
  write_file.
(** The name of the attribute is looked at only when the device has properties of attributes. *)
Fixpoint erase_attr_props (data_in : DevVarStringArray) (aps : list t_attribute_property) : outcome (list t_attribute_property) :=
  match aps with
  | [] => Ok []
  | ap :: aps =>
      attr ← vget data_in 1;
      let ap := if equalsIgnoreCase (attribute_name ap) attr
                then mk_attribute_property (attribute_name ap) (erase_props (drop 2 data_in) (ap_properties ap)) else ap in
      aps ← erase_attr_props data_in aps;
      Ok (ap :: aps)
  end.
Definition DbDeleteDeviceAttributeProperty (data_in : DevVarStringArray) : SM FileDatabase unit :=
  d ← get;
  name ← lift (vget data_in 0);
  dev ← lift (search_device (m_server d) name);
  match dev with
  | Some id =>
      dv ← lift (dev_of (m_server d) id);
      aps ← lift (erase_attr_props data_in (d_attribute_properties dv));
      on_server (alter_device id (on_dev_attrs (λ _, aps)))
  | None => mret ()
  end;;
  write_file.
Definition DbDeleteProperty (data_in : DevVarStringArray) : SM FileDatabase unit :=
  when_ (length data_in <? 2)%nat (wrong_number "API_InvalidArgs" "DbDeleteProperty" 2 data_in);;
  d ← get;
  name ← lift (vget data_in 0);
  if search_free_object (m_server d) name is Some (i, _) then
    on_server (alter_object i (on_object_props (erase_props (tail data_in))));; write_file
  else mret ().

(** ** The other requests *)

Definition not_found (what name : string) : SM FileDatabase DevVarStringArray :=
  d ← get;
  throw "API_DatabaseFileError"
    ("File database: Can't find " +:+ what +:+ " " +:+ name +:+ " in file " +:+ filename d +:+ ".") origin.
Definition DbGetDeviceList (data_in : DevVarStringArray) : SM FileDatabase DevVarStringArray :=
  if (length data_in =? 2)%nat then
    d ← get;
    let s := m_server d in
    server ← lift (vget data_in 0);
    cls ← lift (vget data_in 1);
    if equalsIgnoreCase server (s_name s +:+ "/" +:+ instance_name s) then
      match search_class s cls with
      | Some (_, c) => devs ← lift (mapM (dev_of s) (c_devices c)); mret (d_name <$> devs)
      | None => not_found "class" cls
      end
    else not_found "device server" server
  else mret [].

Definition total {A} (f : A → nat) (l : list A) : nat := foldr (λ x n, f x + n)%nat 0%nat l.
Definition DbInfo : SM FileDatabase DevVarStringArray :=
  d ← get;
  let s := m_server d in
  devs ← lift (mapM (dev_of s) (devices s));
  mret [ "TANGO FileDatabase  " +:+ filename d; ""; "Running since ----"; "";
         "Devices defined = " +:+ to_corba_string (length (devices s));
         "Devices exported = " +:+ to_corba_string (length (devices s));
         "Device servers defined = 1"; "Device servers exported = 1"; "";
         "Class properties defined = " +:+ to_corba_string (total (length ∘ c_properties) (classes s));
         "Device properties defined = " +:+ to_corba_string (total (length ∘ d_properties) devs);
         "Class attribute properties defined = " +:+ to_corba_string (total (length ∘ c_attribute_properties) (classes s));
         "Device attribute properties defined = " +:+ to_corba_string (total (length ∘ d_attribute_properties) devs) ].

(** The requests a file does not serve, and those with a constant answer. *)
Definition not_implemented {A} : SM FileDatabase A :=
  throw "API_NotSupported" "Call to a Filedatabase not implemented." origin.
Definition DbGetDeviceMemberList : SM FileDatabase DevVarStringArray := mret ["NoMember"].
Definition DbGetDeviceFamilyList : SM FileDatabase DevVarStringArray := mret ["NoDevice"].
Definition DbGetDeviceDomainList : SM FileDatabase DevVarStringArray := mret ["NoDevice"].

Definition NOTIFD_CHANNEL : string := "notifd_channel".
(** The reference of the event channel is the name of the device of a class of its own; this device is not
    in the list of the server, and the file is not written. *)
Definition write_event_channel_ior (ior_string : string) : SM FileDatabase unit :=
  d ← get;
  let s := m_server d in
  match search_class s NOTIFD_CHANNEL with
  | Some (_, c) =>
      id ← lift (deref (head (c_devices c)));
      on_server (alter_device id (λ dev, mk_device ior_string (d_properties dev) (d_attribute_properties dev)))
  | None =>
      on_server (λ s, set_classes (classes s ++ [mk_class NOTIFD_CHANNEL [length (heap s)] [] []])
        (set_heap (heap s ++ [mk_device ior_string [] []]) s))
  end.

(** ** The client (client/dbapi_base.cpp)

  [Database] with a file, the cache of the server aside: the data of a request and the
  decoding of an answer.  Numbers are read with a stream: 0 when the text is no number. *)
Record DbDatum := mk_datum { dt_name : string; value_string : list string }.

Definition stream_int (s : string) : Z := default 0 (scan (S (len s)) s).
Definition encode (l : list DbDatum) : DevVarStringArray :=
  l ≫= λ x, dt_name x :: to_corba_string (length (value_string x)) :: value_string x.

Definition put_device_property (dev : string) (db_data : list DbDatum) : SM FileDatabase unit :=
  DbPutDeviceProperty (dev :: to_corba_string (length db_data) :: encode db_data).
Definition put_class_property (cls : string) (db_data : list DbDatum) : SM FileDatabase unit :=
  DbPutClassProperty (cls :: to_corba_string (length db_data) :: encode db_data).
Definition put_property (obj : string) (db_data : list DbDatum) : SM FileDatabase unit :=
  DbPutProperty (obj :: to_corba_string (length db_data) :: encode db_data).

(** The first [n] properties of the answer; [skip] when a property without value has a space. *)
Fixpoint decode (skip : bool) (n : nat) (answer : DevVarStringArray) (index : Z) (db_data : list DbDatum) : outcome (list DbDatum) :=
  match n, db_data with
  | O, _ => Ok db_data
  | S _, [] => Undef
  | S n, _ :: db_data =>
      name ← vget answer index;
      text ← vget answer (index + 1);
      let n_values := stream_int text in
      if n_values <? 0 then Exc length_error
      else
        values ← read_values (Z.to_nat n_values) answer (index + 2);
        let index := if (n_values =? 0) && skip then index + 3 else index + 2 + n_values in
        l ← decode skip n answer index db_data;
        Ok (mk_datum name values :: l)
  end.
Definition decode_answer {S} (skip : bool) (answer : DevVarStringArray) (db_data : list DbDatum) : SM S (list DbDatum) :=
  text ← lift (vget answer 1);
  lift (decode skip (Z.to_nat (stream_int text)) answer 2 db_data).
Definition get_device_property (dev : string) (db_data : list DbDatum) : SM FileDatabase (list DbDatum) :=
  answer ← DbGetDeviceProperty (dev :: (dt_name <$> db_data)); decode_answer true answer db_data.
Definition get_class_property (cls : string) (db_data : list DbDatum) : SM FileDatabase (list DbDatum) :=
  answer ← DbGetClassProperty (cls :: (dt_name <$> db_data)); decode_answer false answer db_data.
Definition get_property (obj : string) (db_data : list DbDatum) : SM FileDatabase (list DbDatum) :=
  answer ← DbGetProperty (obj :: (dt_name <$> db_data)); decode_answer true answer db_data.

Definition delete_device_property (dev : string) (db_data : list DbDatum) : SM FileDatabase unit :=
  DbDeleteDeviceProperty (dev :: (dt_name <$> db_data)).
Definition delete_class_property (cls : string) (db_data : list DbDatum) : SM FileDatabase unit :=
  DbDeleteClassProperty (cls :: (dt_name <$> db_data)).
Definition delete_property (obj : string) (db_data : list DbDatum) : SM FileDatabase unit :=
  DbDeleteProperty (obj :: (dt_name <$> db_data)).
