(* ===== verification/FileDbEnds.v ===== *)
(** * The parser of the file of the database always ends

  Whatever the text, the loops have enough fuel: each turn takes at least a character of
  the file. *)
From Stdlib Require Import Ascii.
From stdpp Require Import pretty.
From S2P Require Import Prelude StateExn CppString FileDb FileDbText.
Local Open Scope string_scope.
Local Open Scope list_scope.
Local Open Scope nat_scope.

(** ** What is left to read *)

(** The characters that can still come, the null ones at the end aside. *)
Definition to_read (r : Reader) : nat :=
  if f_eof r then (if is_end (NextChar r) then (if is_end (CurrentChar r) then 0 else 1) else 2)
  else S (S (S (length (f_rest r)))).

Lemma to_read_left r : to_read r < left r.
Proof. unfold to_read, left. repeat case_match; lia. Qed.
Lemma to_read_char r : to_read (read_char r) ≤ to_read r ∧ (CurrentChar r ≠ zero → to_read (read_char r) < to_read r).
Proof.
  destruct r as [l [] c n cl sl]; unfold to_read, read_char; cbn [f_eof f_rest NextChar CurrentChar].
  - change (is_end zero) with true. cbn iota. unfold is_end.
    destruct (Ascii.eqb_spec n zero) as [->|Hn]; destruct (Ascii.eqb_spec c zero) as [->|Hc]; split; intros; first [done|lia].
  - destruct l as [|c' l]; cbn [f_eof f_rest length]; repeat case_match; split; intros; lia.
Qed.
Lemma to_read_1 r : to_read (read_char r) ≤ to_read r.
Proof. apply to_read_char. Qed.
(** ** Ends *)

Definition file_exn (e : exn) : Prop := ∃ text, e = DevFailed [mkDevError "API_DatabaseFileError" ERR text origin].

(** [m] ends well, or with the exception of the file, or is undefined. *)
Definition ends {S A} (m : SM S A) (s : S) (Q : S → A → Prop) : Prop :=
  match m s with Some (s', inr a) => Q s' a | Some (_, inl e) => file_exn e | None => True end.

Section Ends.
Context {S : Type}.
Lemma ends_bind {A B} (m : SM S A) (f : A → SM S B) s Q : ends m s (λ s' a, ends (f a) s' Q) → ends (m ≫= f) s Q.
Proof. unfold ends, mbind, SM_bind. by destruct (m s) as [[s' [e|a]]|]. Qed.
Lemma ends_ret {A} (a : A) s (Q : S → A → Prop) : Q s a → ends (mret a) s Q.
Proof. done. Qed.
Lemma ends_get s (Q : S → S → Prop) : Q s s → ends get s Q.
Proof. done. Qed.
Lemma ends_modify f s (Q : S → unit → Prop) : Q (f s) () → ends (modify f) s Q.
Proof. done. Qed.
Lemma ends_lift {A} (x : outcome A) s (Q : S → A → Prop) : (∀ e, x = Exc e → file_exn e) → (∀ a, x = Ok a → Q s a) → ends (lift x) s Q.
Proof. intros He Hq. unfold ends, lift. destruct x; auto. Qed.
Lemma ends_file_error {A} fn what line s (Q : S → A → Prop) : ends (file_error fn what line) s Q.
Proof. unfold ends, file_error, throw. by eexists. Qed.
Lemma ends_mono {A} (m : SM S A) s (Q Q' : S → A → Prop) : ends m s Q → (∀ s' a, Q s' a → Q' s' a) → ends m s Q'.
Proof. unfold ends. destruct (m s) as [[s' [e|a]]|]; auto. Qed.
End Ends.

(** ** The loops of the words *)

(** A loop with more fuel than there is to read ends, if it stops on the null character. *)
Lemma ends_char {A} (m : unit → SM Reader A) r (Q : Reader → A → Prop) :
  (to_read (read_char r) ≤ to_read r → (CurrentChar r ≠ zero → to_read (read_char r) < to_read r) → ends (m ()) (read_char r) Q) →
  ends (modify read_char ≫= m) r Q.
Proof. intros H. apply ends_bind, ends_modify. by apply H; apply to_read_char. Qed.
Lemma stops {p : ascii → bool} c : p zero = false → p c = true → c ≠ zero.
Proof. intros Hz Hp ->. by rewrite Hz in Hp. Qed.

Lemma ends_skip n p r (Q : Reader → unit → Prop) : p zero = false → to_read r < n →
  (∀ r', to_read r' ≤ to_read r → (p (CurrentChar r) = true → to_read r' < to_read r) → Q r' ()) → ends (skip_while n p) r Q.
Proof.
  intros Hp. revert r. induction n as [|n IH]; intros r Hn HQ; [lia|]. cbn [skip_while]. apply ends_bind, ends_get.
  destruct (p (CurrentChar r)) eqn:E; [|by apply ends_ret, HQ]. apply ends_char. intros _ H2. specialize (H2 (stops _ Hp E)).
  apply IH; [lia|]. intros r' Hr _. apply HQ; intros; lia.
Qed.
Lemma ends_take n p r w (Q : Reader → string → Prop) : (∀ c, p zero c = false) → to_read r < n →
  (∀ r' w', to_read r' ≤ to_read r → (w' = w ∨ to_read r' < to_read r) → Q r' w') → ends (take_while n p w) r Q.
Proof.
  intros Hp. revert r w. induction n as [|n IH]; intros r w Hn HQ; [lia|]. cbn [take_while]. apply ends_bind, ends_get.
  destruct (p (CurrentChar r) _) eqn:E; [|by apply ends_ret, HQ; [|left]]. apply ends_char.
  intros _ H2. specialize (H2 (stops (p := λ c, p c (NextChar r)) _ (Hp _) E)).
  apply IH; [lia|]. intros r' w' Hr _. apply HQ; [lia|right; lia].
Qed.
Lemma ends_quoted n r w (Q : Reader → string → Prop) : to_read r < n →
  (∀ r' w', to_read r' ≤ to_read r → Q r' w') → ends (take_quoted n w) r Q.
Proof.
  revert r w. induction n as [|n IH]; intros r w Hn HQ; [lia|]. cbn [take_quoted]. apply ends_bind, ends_get.
  destruct (in_value (CurrentChar r)) eqn:E; [|by apply ends_ret, HQ].
  assert (CurrentChar r ≠ zero) as Hz by exact (stops (p := in_value) _ eq_refl E).
  apply ends_bind. destruct (Ascii.eqb _ BSLASH); cbn [when_].
  - apply ends_modify. destruct (to_read_char r) as [_ H2]. specialize (H2 Hz). apply ends_bind, ends_get. apply ends_char. intros H3 _.
    apply IH; [lia|]. intros r' w' Hr. apply HQ. lia.
  - apply ends_ret, ends_bind, ends_get. apply ends_char. intros _ H2. specialize (H2 Hz). apply IH; [lia|]. intros r' w' Hr. apply HQ. lia.
Qed.

Lemma ends_jump_space r (Q : Reader → unit → Prop) : (∀ r', to_read r' ≤ to_read r → Q r' ()) → ends jump_space r Q.
Proof. intros HQ. apply ends_bind, ends_get, ends_skip; [done|apply to_read_left|auto]. Qed.
Lemma ends_jump_line r (Q : Reader → unit → Prop) : 
  (∀ r', to_read r' ≤ to_read r → (in_line (CurrentChar r) = true → to_read r' < to_read r) → Q r' ()) → ends jump_line r Q.
Proof.
  intros HQ. apply ends_bind, ends_get, ends_bind, ends_skip; [done|apply to_read_left|]. intros r1 H1 H1'.
  apply ends_modify. pose proof (to_read_1 r1). apply HQ; [lia|]. intros Hl. specialize (H1' Hl). lia.
Qed.
Lemma ends_jump_comments n r (Q : Reader → unit → Prop) : to_read r < n →
  (∀ r', to_read r' ≤ to_read r → Q r' ()) → ends (jump_comments n) r Q.
Proof.
  revert r. induction n as [|n IH]; intros r Hn HQ; [lia|]. cbn [jump_comments]. apply ends_bind, ends_get.
  destruct (Ascii.eqb_spec (CurrentChar r) "#") as [E|]; [|by apply ends_ret, HQ].
  apply ends_bind, ends_jump_line. intros r1 _ H1. specialize (H1 ltac:(by rewrite E)). apply ends_bind, ends_jump_space. intros r2 H2.
  apply IH; [lia|]. intros r3 H3. apply HQ. lia.
Qed.

(** ** Words *)

(** A word other than the one at the end takes a character. *)
Definition word_read (r r' : Reader) (w : string) : Prop :=
  to_read r' ≤ to_read r ∧ (w ≠ lexical_word_null → to_read r' < to_read r).

Lemma to_read_start_line r : to_read (start_line r) = to_read r.
Proof. done. Qed.
Lemma nonzero_quote c : Ascii.eqb c DQUOTE = true → c ≠ zero.
Proof. by intros ->%Ascii.eqb_eq. Qed.

Lemma ends_read_token fn r0 r : to_read r ≤ to_read r0 → ends (read_token fn) r (λ r' w, word_read r0 r' w).
Proof.
  intros Hr. unfold read_token. apply ends_bind, ends_modify, ends_bind, ends_get. cbv zeta. pose proof (to_read_start_line r) as Hs.
  set (r1 := start_line r) in *. clearbody r1.
  destruct (special (CurrentChar r1)) eqn:E1.
  { apply ends_char. intros _ H2. specialize (H2 ltac:(intros Hc; by rewrite Hc in E1)). apply ends_ret. split; intros; lia. }
  destruct (Ascii.eqb (CurrentChar r1) "-" && _) eqn:E2.
  { apply andb_true_iff in E2 as [E2%Ascii.eqb_eq _]. apply ends_char. intros _ H2. specialize (H2 ltac:(by rewrite E2)).
    apply ends_char. intros H3 _. apply ends_ret. split; intros; lia. }
  destruct (Ascii.eqb (CurrentChar r1) DQUOTE) eqn:E3.
  - apply nonzero_quote in E3. apply ends_char. intros _ H2. specialize (H2 E3). apply ends_bind, ends_get, ends_bind.
    apply ends_take; [done|apply to_read_left|]. intros r2 w Ht _. apply ends_bind, ends_get. destruct (_ || _); [apply ends_file_error|].
    apply ends_char. intros H3 _. apply ends_ret. split; intros; lia.
  - apply ends_bind, ends_take; [done|apply to_read_left|]. intros r2 w Ht Hw. apply ends_ret. split; [lia|].
    destruct (String.eqb_spec w "") as [->|Hne]; [done|]. intros _. destruct Hw; [done|lia].
Qed.
Lemma ends_read_word fn r : ends (read_word fn) r (λ r' w, word_read r r' w).
Proof.
  unfold read_word. apply ends_bind, ends_jump_space. intros r0 H0. apply ends_bind, ends_get, ends_bind, ends_jump_comments; [apply to_read_left|].
  intros r1 H1. apply ends_bind, ends_get.
  destruct (Ascii.eqb_spec (CurrentChar r1) "/") as [E|E]; [|apply ends_read_token; lia].
  apply ends_char. intros _ H2. specialize (H2 ltac:(by rewrite E)). apply ends_bind, ends_get.
  destruct (Ascii.eqb _ _); [|apply ends_ret; split; intros; lia].
  apply ends_char. intros H3 _. apply ends_char. intros H4 _. apply ends_bind, ends_jump_space. intros r2 H5. apply ends_read_token. lia.
Qed.
Lemma ends_read_full_word fn r : ends (read_full_word fn) r (λ r' w, word_read r r' w).
Proof.
  unfold read_full_word. apply ends_bind, ends_modify, ends_bind, ends_jump_space. rewrite to_read_start_line. intros r1 H1.
  apply ends_bind, ends_get. cbv zeta.
  destruct (Ascii.eqb (CurrentChar r1) "," || Ascii.eqb (CurrentChar r1) BSLASH) eqn:E1.
  { apply ends_char. intros _ H2. specialize (H2 ltac:(intros Hc; by rewrite Hc in E1)). apply ends_ret. split; intros; lia. }
  destruct (Ascii.eqb (CurrentChar r1) DQUOTE) eqn:E3.
  - apply nonzero_quote in E3. apply ends_char. intros _ H2. specialize (H2 E3). apply ends_bind, ends_get, ends_bind.
    apply ends_quoted; [apply to_read_left|]. intros r2 w Ht. apply ends_bind, ends_get. destruct (is_end _); [apply ends_file_error|].
    apply ends_char. intros H3 _. apply ends_ret. split; intros; lia.
  - apply ends_bind, ends_take; [done|apply to_read_left|]. intros r2 w Ht Hw. apply ends_ret. split; [lia|]. unfold or_null.
    destruct (String.eqb_spec w "") as [->|Hne]; [done|]. intros _. destruct Hw; [done|lia].
Qed.

(** ** Definitions *)

Abbreviation rest d := (to_read (reader d)).

Lemma ends_on_reader (m : SM Reader string) d (Q : FileDatabase → Lex → Prop) :
  (∀ r, ends m r (λ r' w, word_read r r' w)) →
  (∀ d', rest d' ≤ rest d → (word d' ≠ lexical_word_null → rest d' < rest d) → Q d' (class_lex (word d'))) →
  ends (w ← on_reader m; modify (set_word w);; mret (class_lex w)) d Q.
Proof.
  intros Hm HQ. apply ends_bind. specialize (Hm (reader d)). unfold ends, on_reader in *.
  destruct (m (reader d)) as [[r [e|w]]|]; [done| |done]. destruct Hm as [H1 H2]. by apply (HQ (set_word w (set_reader r d))).
Qed.
Lemma ends_next_word d (Q : FileDatabase → Lex → Prop) :
  (∀ d', rest d' ≤ rest d → (word d' ≠ lexical_word_null → rest d' < rest d) → Q d' (class_lex (word d'))) → ends next_word d Q.
Proof. intros H. unfold next_word. apply ends_bind, ends_get. apply ends_on_reader; [apply ends_read_word|done]. Qed.
Lemma ends_next_full_word d (Q : FileDatabase → Lex → Prop) :
  (∀ d', rest d' ≤ rest d → Q d' (class_lex (word d'))) → ends next_full_word d Q.
Proof. intros H. unfold next_full_word. apply ends_bind, ends_get. apply ends_on_reader; [apply ends_read_full_word|auto]. Qed.
Lemma ends_check_lex lt le d (Q : FileDatabase → unit → Prop) : (lt = le → Q d ()) → ends (CHECK_LEX lt le) d Q.
Proof.
  intros H. unfold CHECK_LEX. apply ends_bind, ends_get. destruct (decide (lt = le)) as [->|Hne].
  - rewrite bool_decide_eq_false_2 by naive_solver. by apply H.
  - rewrite bool_decide_eq_true_2 by done. apply ends_file_error.
Qed.
Lemma ends_next_string d (Q : FileDatabase → string → Prop) :
  (∀ d', rest d' ≤ rest d → Q d' (word d')) → ends next_string d Q.
Proof.
  intros H. unfold next_string. apply ends_bind, ends_next_word. intros d' Hd _. apply ends_bind, ends_check_lex. intros _.
  apply ends_bind, ends_get, ends_ret. by apply H.
Qed.

Lemma lex_not_null w : class_lex w ≠ TG_STRING → w ≠ lexical_word_null.
Proof. by intros H ->. Qed.

Lemma ends_values n lex ret d (Q : FileDatabase → list string → Prop) :
  1 ≤ n → (lex = TG_COMA ∨ lex = TG_ASLASH → S (S (rest d)) ≤ n) →
  (∀ d' l, rest d' ≤ rest d → Q d' l) → ends (resource_values n lex ret) d Q.
Proof.
  revert lex ret d. induction n as [|n IH]; intros lex ret d Hn Hlex HQ; [lia|]. cbn [resource_values].
  apply ends_bind, ends_get. destruct (_ && _) eqn:E; [|apply ends_ret, HQ; done].
  apply andb_true_iff in E as [E%bool_decide_eq_true_1 _]. specialize (Hlex E).
  apply ends_bind, ends_next_full_word. intros d1 H1. apply ends_bind.
  assert (∀ Q', (∀ d2 l, rest d2 ≤ rest d1 → Q' d2 l) →
    ends (if decide (class_lex (word d1) = TG_ASLASH) then next_full_word else mret (class_lex (word d1))) d1 Q') as Hfull.
  { intros Q' HQ'. destruct (decide _); [apply ends_next_full_word; auto|by apply ends_ret, HQ']. }
  apply Hfull. intros d2 l H2. apply ends_bind, ends_check_lex. intros _. apply ends_bind, ends_get, ends_bind, ends_next_word.
  intros d3 H3 H3'. apply IH; [lia| |intros; apply HQ; lia]. intros Hc. specialize (H3' (lex_not_null _ ltac:(by destruct Hc as [-> | ->]))). lia.
Qed.
Lemma ends_resource_value d (Q : FileDatabase → list string → Prop) :
  (∀ d' l, rest d' ≤ rest d → Q d' l) → ends parse_resource_value d Q.
Proof.
  intros H. unfold parse_resource_value. apply ends_bind, ends_get. apply ends_values; [lia| |done].
  intros _. pose proof (to_read_left (reader d)). lia.
Qed.

Lemma ends_on_server f d (Q : FileDatabase → unit → Prop) : (∀ d', reader d' = reader d → Q d' ()) → ends (on_server f) d Q.
Proof. intros H. by apply ends_modify, H. Qed.
Lemma ends_on_server_or_undef f d (Q : FileDatabase → unit → Prop) : (∀ s e, f s ≠ Exc e) →
  (∀ d', reader d' = reader d → Q d' ()) → ends (on_server_or_undef f) d Q.
Proof.
  intros Hf H. unfold on_server_or_undef. apply ends_bind, ends_get, ends_bind, ends_lift; [intros e He; by apply Hf in He|].
  intros s _. by apply ends_modify, H.
Qed.
Lemma ends_prop_and_values d (Q : FileDatabase → string * list string → Prop) :
  (∀ d' l, rest d' ≤ rest d → Q d' l) → ends prop_and_values d Q.
Proof.
  intros H. unfold prop_and_values. apply ends_bind, ends_next_string. intros d1 H1. apply ends_bind, ends_next_word. intros d2 H2 _.
  apply ends_bind, ends_check_lex. intros _. apply ends_bind, ends_resource_value. intros d3 l H3. apply ends_ret, H. lia.
Qed.
Lemma ends_failed what d (Q : FileDatabase → option string → Prop) : (∀ t, Q d (Some t)) → ends (failed what) d Q.
Proof. intros H. unfold failed. apply ends_bind, ends_get, ends_ret, H. Qed.

Lemma find_device_no_exn s n ids e : find_device s n ids ≠ Exc e.
Proof.
  induction ids as [|id ids IH]; [done|]. cbn [find_device]. unfold dev_of. destruct (heap s !! id); [|done]. cbn [deref]. rewrite bind_Ok.
  by destruct (equalsIgnoreCase _ _).
Qed.
Lemma dev_prop_no_exn dev p v s e : define_dev_prop dev p v s ≠ Exc e.
Proof. unfold define_dev_prop, search_device. pose proof (find_device_no_exn s dev (devices s)). destruct (find_device _ _ _); naive_solver. Qed.
Lemma dev_attr_no_exn dev a p v s e : define_dev_attr_prop dev a p v s ≠ Exc e.
Proof.
  unfold define_dev_attr_prop, search_device. pose proof (find_device_no_exn s dev (devices s)).
  destruct (find_device _ _ _) as [[id|]| |]; naive_solver.
Qed.

Lemma ends_parse_entry lex d : ends (parse_entry lex) d (λ d' err, err = None → rest d' < rest d).
Proof.
  unfold parse_entry. destruct lex; try (by apply ends_bind, ends_get, ends_ret).
  apply ends_bind, ends_get. cbv zeta. apply ends_bind, ends_next_word. intros d1 _ H1. apply ends_bind, ends_check_lex. intros E1.
  specialize (H1 (lex_not_null _ ltac:(by rewrite E1))). clear E1.
  apply ends_bind, ends_next_string. intros d2 H2. apply ends_bind, ends_next_word. intros d3 H3 _.
  destruct (class_lex (word d3)); try (by apply ends_failed).
  - apply ends_bind, ends_next_string. intros d4 H4. apply ends_bind, ends_next_word. intros d5 H5 _.
    destruct (class_lex (word d5)); try (by apply ends_failed).
    + unfold four_fields. apply ends_bind, ends_next_string. intros d6 H6. apply ends_bind, ends_next_word. intros d7 H7 _.
      destruct (class_lex (word d7)); try (by apply ends_failed).
      * apply ends_bind, ends_resource_value. intros d8 l H8. apply ends_bind, ends_on_server. intros d9 E9. apply ends_ret. rewrite E9. lia.
      * apply ends_bind, ends_prop_and_values. intros d8 l H8. apply ends_bind, ends_on_server_or_undef; [intros; apply dev_attr_no_exn|].
        intros d9 E9. apply ends_ret. rewrite E9. lia.
    + unfold three_fields. apply ends_bind, ends_prop_and_values. intros d6 l H6. apply ends_bind. destruct (equalsIgnoreCase _ _).
      * apply ends_on_server. intros d7 E7. apply ends_ret. rewrite E7. lia.
      * apply ends_on_server_or_undef; [intros; apply dev_prop_no_exn|]. intros d7 E7. apply ends_ret. rewrite E7. lia.
  - unfold two_fields. apply ends_bind, ends_next_string. intros d4 H4. apply ends_bind, ends_next_word. intros d5 H5 _.
    apply ends_bind, ends_resource_value. intros d6 l H6.
    destruct (equalsIgnoreCase _ "class"); [|destruct (equalsIgnoreCase _ "free"); [|by apply ends_ret]];
      (apply ends_bind, ends_on_server; intros d7 E7; apply ends_ret; rewrite E7; lia).
Qed.
Lemma ends_parse_entries n lex d : S (rest d) ≤ n → ends (parse_entries n lex) d (λ _ _, True).
Proof.
  revert lex d. induction n as [|n IH]; intros lex d Hn; [lia|]. cbn [parse_entries]. apply ends_bind.
  eapply ends_mono; [apply ends_parse_entry|]. intros d1 [text|] H1; [by apply ends_ret|]. specialize (H1 eq_refl).
  apply ends_bind, ends_get. destruct (String.eqb _ _); [by apply ends_ret|]. apply IH. lia.
Qed.

(** C35: parsing ends whatever the text of the file: it returns, or throws the exception of
    the file, or is undefined (a property of an attribute of an unknown device).  No loop runs
    without end, those that jump lines, blanks and comments and that read the words
    included: a loop that would take more turns than there are characters left throws
    [out_of_fuel], which is not the exception of the file. *)
Theorem parse_ends d : ends parse_res_file d (λ _ _, True).
Proof.
  unfold parse_res_file. apply ends_bind, ends_modify, ends_bind, ends_next_word. intros d1 H1 _. apply ends_bind, ends_get.
  destruct (String.eqb _ _); [by apply ends_ret|]. apply ends_bind, ends_modify, ends_parse_entries.
  cbn [reader set_server]. pose proof (to_read_left (reader d1)). lia.
Qed.
