(* ===== verification/FileDbCmdTheory.v ===== *)
(** * What the requests on the file of the database do *)
From Stdlib Require Import Ascii.
From stdpp Require Import pretty.
From S2P Require Import Prelude StateExn CppString FileDb FileDbText FileDbNames FileDbRound FileDbCmds.
Local Open Scope string_scope.
Local Open Scope list_scope.
Local Open Scope Z_scope.
#[local] Arguments String.append : simpl nomatch.

(** ** Numbers as texts *)

Lemma digit_char n : (n < 10)%N → digit (pretty_N_char n) = Some (Z.of_N n) ∧ isspace (pretty_N_char n) = false ∧
  pretty_N_char n ≠ "-"%char ∧ pretty_N_char n ≠ "+"%char.
Proof.
  intros H. assert (n = 0 ∨ n = 1 ∨ n = 2 ∨ n = 3 ∨ n = 4 ∨ n = 5 ∨ n = 6 ∨ n = 7 ∨ n = 8 ∨ n = 9)%N as Hn by lia.
  by destruct_or? Hn; subst; vm_compute.
Qed.

Lemma scan_bounds p0 p1 (q r : N) : p0 <= Z.of_N q → Z.of_N q < p1 → Z.of_N r < 10 →
  10 * p0 <= 10 * Z.of_N q + Z.of_N r < 10 * p1.
Proof. lia. Qed.

(** A number is read back by a field that is wide enough. *)
Lemma scan_digits_pretty x : (0 < x)%N → ∃ d : nat, (d ≠ 0)%nat ∧ (10 ^ Z.of_nat (d - 1) <= Z.of_N x < 10 ^ Z.of_nat d) ∧
  (∀ s, len (pretty_N_go x s) = (d + len s)%nat) ∧
  ∀ k s acc, (d <= k)%nat → scan_digits k (chars (pretty_N_go x s)) acc =
    scan_digits (k - d) (chars s) (Some (10 ^ Z.of_nat d * default 0 acc + Z.of_N x)).
Proof.
  induction (N.lt_wf_0 x) as [x _ IH]. intros Hx.
  assert (x = 10 * (x / 10) + x mod 10)%N as Hdm by (apply N.div_mod; lia).
  assert (x mod 10 < 10)%N as Hm by (apply N.mod_lt; lia).
  assert (Z.of_N x = 10 * Z.of_N (x / 10) + Z.of_N (x mod 10) ∧ Z.of_N (x mod 10) < 10) as [HZ HZm].
  { revert Hdm Hm. generalize (x / 10)%N (x mod 10)%N. lia. }
  destruct (digit_char _ Hm) as (Hdig & _). destruct (decide (x < 10)%N) as [Hs|Hs].
  - exists 1%nat. split; [done|]. split; [simpl; lia|].
    split; [intros s; by rewrite pretty_N_go_step, N.div_small, pretty_N_go_0 by lia|].
    intros k s acc Hk. rewrite pretty_N_go_step, N.div_small, pretty_N_go_0 by lia.
    destruct k as [|k]; [lia|]. cbn [String.list_ascii_of_string scan_digits]. rewrite Hdig, N.mod_small by lia.
    replace (S k - 1)%nat with k by lia. do 2 f_equal.
  - destruct (IH (x / 10)%N) as (d & Hd & [Hlo Hhi] & Hlen & Hscan); [apply N.div_lt; lia|apply N.div_str_pos; lia|].
    exists (S d). assert (10 ^ Z.of_nat (S d) = 10 * 10 ^ Z.of_nat d) as Hp by (rewrite Nat2Z.inj_succ, Z.pow_succ_r; lia).
    assert (10 ^ Z.of_nat (S d - 1) = 10 * 10 ^ Z.of_nat (d - 1)) as Hp1.
    { replace (S d - 1)%nat with (S (d - 1)) by lia. rewrite Nat2Z.inj_succ, Z.pow_succ_r; lia. }
    split; [done|]. split; [rewrite Hp, Hp1, HZ; by apply scan_bounds|]. split; [intros s; rewrite pretty_N_go_step, Hlen by lia; simpl; lia|].
    intros k s acc Hk. rewrite pretty_N_go_step by lia. rewrite Hscan by lia.
    replace (k - d)%nat with (S (k - S d)) by lia. cbn [String.list_ascii_of_string scan_digits]. rewrite Hdig.
    f_equal. f_equal. rewrite Hp, HZ. change (default 0 (Some ?v)) with v. ring.
Qed.
Lemma pretty_first x : (0 < x)%N → ∀ s, ∃ n l, (n < 10)%N ∧ chars (pretty_N_go x s) = pretty_N_char n :: l.
Proof.
  induction (N.lt_wf_0 x) as [x _ IH]. intros Hx s. rewrite pretty_N_go_step by lia. destruct (decide (x < 10)%N) as [Hs|Hs].
  - rewrite N.div_small, pretty_N_go_0 by lia. exists (x mod 10)%N, (chars s). split; [apply N.mod_lt; lia|done].
  - apply IH; [apply N.div_lt; lia|apply N.div_str_pos; lia].
Qed.
Lemma scan_pretty k n : n < 10 ^ Z.of_nat k → (k ≠ 0)%nat → 0 <= n → scan k (pretty n) = Some n.
Proof.
  intros Hn Hk H0. destruct k as [|k]; [done|]. destruct (decide (n = 0)) as [->|Hne]; [by destruct k|].
  destruct n as [|p|p]; [lia| |lia]. change (pretty (Z.pos p)) with (pretty_N_go (N.pos p) "").
  destruct (pretty_first (N.pos p) ltac:(lia) "") as (m & l & Hm & Hc). destruct (digit_char m Hm) as (_ & Hsp & Hmi & Hpl).
  unfold scan. rewrite Hc. cbn [skip_spaces]. rewrite Hsp, (proj2 (Ascii.eqb_neq _ _) Hmi), (proj2 (Ascii.eqb_neq _ _) Hpl), <-Hc.
  destruct (scan_digits_pretty (N.pos p) ltac:(lia)) as (d & Hd & [Hlo Hhi] & _ & Hs). rewrite Hs.
  - cbn [String.list_ascii_of_string default]. destruct (S k - d)%nat; cbn [scan_digits]; f_equal; lia.
  - destruct (decide (d <= S k)%nat); [done|]. exfalso.
    assert (10 ^ Z.of_nat (S k) <= 10 ^ Z.of_nat (d - 1)) by (apply Z.pow_le_mono_r; lia). lia.
Qed.
(** What a text written by [to_corba_string] is for the reader of six characters and for a stream. *)
Lemma scan_6 n : (Z.of_nat n < 10 ^ 6) → ∀ x, scan_u (to_corba_string n) x = Z.of_nat n ∧ scan_d (to_corba_string n) x = Z.of_nat n.
Proof.
  intros Hn x. unfold scan_u, scan_d, to_corba_string. rewrite scan_pretty by (done || lia). cbn [from_option default]. split; [|done].
  apply Z.mod_small. lia.
Qed.
Lemma stream_int_corba n : stream_int (to_corba_string n) = Z.of_nat n.
Proof.
  unfold stream_int, to_corba_string. rewrite scan_pretty; [done| |lia|lia].
  destruct (decide (n = 0%nat)) as [->|Hne]; [done|].
  destruct (Z.of_nat n) as [|p|p] eqn:E; [lia| |lia]. change (pretty (Z.pos p)) with (pretty_N_go (N.pos p) "").
  destruct (scan_digits_pretty (N.pos p) ltac:(lia)) as (d & Hd & [Hlo Hhi] & Hlen & _). rewrite Hlen. simpl len.
  assert (10 ^ Z.of_nat d <= 10 ^ Z.of_nat (S (d + 0))) by (apply Z.pow_le_mono_r; lia). lia.
Qed.

(** ** Properties by name *)

Definition value_of (l : list t_property) (name : string) : option (list string) :=
  p_value ∘ snd <$> find_name p_name name l.
(** The property of that name has these values from now on. *)
Definition put_prop (name : string) (values : list string) (l : list t_property) : list t_property :=
  match find_name p_name name l with
  | Some (k, _) => set_value k values l
  | None => l ++ [mk_property name values]
  end.
Definition put_all (items : list DbDatum) (l : list t_property) : list t_property :=
  fold_left (λ l x, put_prop (dt_name x) (value_string x) l) items l.
(** The last values an item gives to a name. *)
Fixpoint last_value (items : list DbDatum) (name : string) : option (list string) :=
  match items with
  | [] => None
  | x :: items =>
      match last_value items name with
      | Some v => Some v
      | None => if equalsIgnoreCase (dt_name x) name then Some (value_string x) else None
      end
  end.

Lemma put_prop_cons n v p l : put_prop n v (p :: l) =
  if equalsIgnoreCase (p_name p) n then mk_property (p_name p) v :: l else p :: put_prop n v l.
Proof.
  unfold put_prop. cbn [find_name]. destruct (equalsIgnoreCase _ _); [done|]. by destruct (find_name p_name n l) as [[k q]|].
Qed.
Lemma value_of_cons p l m : value_of (p :: l) m = if equalsIgnoreCase (p_name p) m then Some (p_value p) else value_of l m.
Proof. unfold value_of. cbn [find_name]. destruct (equalsIgnoreCase _ _); [done|]. by destruct (find_name p_name m l) as [[k q]|]. Qed.
Lemma equalsIgnoreCase_both a b c : equalsIgnoreCase a b = true → equalsIgnoreCase b c = equalsIgnoreCase a c.
Proof.
  intros [Ha Hb]%equalsIgnoreCase_spec. apply eq_true_iff_eq. rewrite !equalsIgnoreCase_spec, Hb.
  split; intros [H1 H2]; (split; [|done]); [done|]. intros ->. by destruct a.
Qed.
Lemma value_of_put n v l m : n ≠ "" → value_of (put_prop n v l) m = if equalsIgnoreCase n m then Some v else value_of l m.
Proof.
  intros Hn. induction l as [|p l IH]; [unfold put_prop; simpl; by rewrite value_of_cons|].
  rewrite put_prop_cons. destruct (equalsIgnoreCase (p_name p) n) eqn:E; rewrite !value_of_cons; cbn [p_name p_value].
  - rewrite (equalsIgnoreCase_both _ _ m E). by destruct (equalsIgnoreCase (p_name p) m).
  - rewrite IH. destruct (equalsIgnoreCase (p_name p) m) eqn:E2; [|done]. destruct (equalsIgnoreCase n m) eqn:E3; [|done].
    apply equalsIgnoreCase_spec in E2 as [H1 H2]. apply equalsIgnoreCase_spec in E3 as [H3 H4].
    exfalso. apply not_true_iff_false in E. apply E, equalsIgnoreCase_spec. by rewrite H2, H4.
Qed.
Lemma value_of_put_all items l m : Forall (λ x, dt_name x ≠ "") items →
  value_of (put_all items l) m = match last_value items m with Some v => Some v | None => value_of l m end.
Proof.
  intros H. revert l. induction H as [|x items Hx H IH]; intros l; [done|]. unfold put_all. cbn [fold_left last_value].
  fold (put_all items (put_prop (dt_name x) (value_string x) l)). rewrite IH, value_of_put by done.
  destruct (last_value items m); [done|]. by destruct (equalsIgnoreCase (dt_name x) m).
Qed.

(** ** Writing *)

Lemma vget_at {A} (pre post : list A) x i : i = Z.of_nat (length pre) → vget (pre ++ x :: post) i = Ok x.
Proof. intros ->. apply vget_nat. by apply list_lookup_middle. Qed.
Lemma read_values_at pre vs post i : i = Z.of_nat (length pre) → read_values (length vs) (pre ++ vs ++ post) i = Ok vs.
Proof.
  intros ->. revert pre. induction vs as [|v vs IH]; intros pre; [done|]. cbn [length read_values app].
  rewrite vget_at, bind_Ok by done. replace (Z.of_nat (length pre) + 1) with (Z.of_nat (length (pre ++ [v]))) by (rewrite length_app; simpl; lia).
  rewrite cons_middle, app_assoc, IH, bind_Ok. done.
Qed.

(** A name, a size and values in the data. *)
Lemma record_at pre (name size : string) vs post :
  let l := pre ++ name :: size :: vs ++ post in
  vget l (Z.of_nat (length pre)) = Ok name ∧ vget l (Z.of_nat (length pre) + 1) = Ok size ∧
  read_values (length vs) l (Z.of_nat (length pre) + 2) = Ok vs.
Proof.
  intros l. unfold l. split; [by apply vget_at|]. rewrite cons_middle, app_assoc. split; [apply vget_at; rewrite length_app; simpl; lia|].
  rewrite cons_middle, app_assoc. apply read_values_at. rewrite !length_app. simpl. lia.
Qed.

(** The sizes a field of six digits can hold. *)
Definition small (x : DbDatum) : Prop := Z.of_nat (length (value_string x)) < 10 ^ 6.

Lemma encode_cons x items : encode (x :: items) =
  dt_name x :: to_corba_string (length (value_string x)) :: value_string x ++ encode items.
Proof. unfold encode. rewrite bind_cons. done. Qed.

Section Put.
Context (x : DbDatum) (items : list DbDatum) (pre : DevVarStringArray) (Hx : small x).
Definition data : DevVarStringArray := pre ++ encode (x :: items).
Definition pre_next : DevVarStringArray := pre ++ dt_name x :: to_corba_string (length (value_string x)) :: value_string x.

Lemma data_next : data = pre_next ++ encode items.
Proof. unfold data, pre_next. by rewrite encode_cons, <-app_assoc. Qed.
Lemma pre_next_length : Z.of_nat (length pre_next) = Z.of_nat (length pre) + 2 + Z.of_nat (length (value_string x)).
Proof. unfold pre_next. rewrite length_app. simpl. lia. Qed.
Lemma data_name : vget data (Z.of_nat (length pre)) = Ok (dt_name x).
Proof. unfold data. rewrite encode_cons. apply record_at. Qed.
Lemma data_size : vget data (Z.of_nat (length pre) + 1) = Ok (to_corba_string (length (value_string x))).
Proof. unfold data. rewrite encode_cons. eapply record_at. Qed.
Lemma data_values : read_values (length (value_string x)) data (Z.of_nat (length pre) + 2) = Ok (value_string x).
Proof. unfold data. rewrite encode_cons. apply record_at. Qed.
End Put.

Lemma put_dev_props_run items pre nv props : Forall small items →
  put_dev_props (length items) (pre ++ encode items) (Z.of_nat (length pre)) nv props = Some (put_all items props, inr ()).
Proof.
  intros H. revert pre nv props. induction H as [|x items Hx H IH]; intros pre nv props; [done|]. cbn [length put_dev_props].
  erewrite run_bind by (apply run_ok, data_name). erewrite run_bind by done. erewrite run_bind by (apply run_ok, data_size).
  destruct (scan_6 (length (value_string x)) Hx nv) as [_ ->]. unfold put_all. cbn [fold_left].
  fold (put_all items (put_prop (dt_name x) (value_string x) props)). unfold put_prop at 1.
  destruct (find_name p_name (dt_name x) props) as [[k p]|].
  - rewrite (proj2 (Z.ltb_ge _ _)) by lia. erewrite run_bind by done. rewrite Nat2Z.id. erewrite run_bind by (apply run_ok, data_values).
    erewrite run_bind by done. rewrite <-pre_next_length. fold (data x items pre). rewrite data_next. apply IH.
  - rewrite Nat2Z.id, Z.max_r by lia. erewrite run_bind by (apply run_ok, data_values).
    erewrite run_bind by done. rewrite <-pre_next_length. fold (data x items pre). rewrite data_next. apply IH.
Qed.
Lemma put_class_props_run items pre nv props : Forall small items →
  put_class_props (length items) (pre ++ encode items) (Z.of_nat (length pre)) nv props = Some (put_all items props, inr ()).
Proof.
  intros H. revert pre nv props. induction H as [|x items Hx H IH]; intros pre nv props; [done|]. cbn [length put_class_props].
  erewrite run_bind by (apply run_ok, data_name). erewrite run_bind by done. erewrite run_bind by (apply run_ok, data_size).
  destruct (scan_6 (length (value_string x)) Hx nv) as [_ ->]. unfold put_all. cbn [fold_left].
  fold (put_all items (put_prop (dt_name x) (value_string x) props)). unfold put_prop at 1.
  destruct (find_name p_name (dt_name x) props) as [[k p]|].
  - rewrite (proj2 (Z.ltb_ge _ _)) by lia. erewrite run_bind by done. rewrite Nat2Z.id. erewrite run_bind by (apply run_ok, data_values).
    erewrite run_bind by done. rewrite <-pre_next_length. fold (data x items pre). rewrite data_next. apply IH.
  - rewrite Nat2Z.id, Z.max_r by lia. erewrite run_bind by (apply run_ok, data_values).
    erewrite run_bind by done. rewrite <-pre_next_length. fold (data x items pre). rewrite data_next.
    destruct (Z.leb_spec (Z.of_nat (length (pre_next x pre ++ encode items))) (Z.of_nat (length (pre_next x pre)))) as [Hl|_]; [|apply IH].
    destruct items as [|y items]; [done|]. rewrite length_app, encode_cons in Hl. simpl in Hl. lia.
Qed.
Lemma put_free_props_run items pre props : Forall small items →
  put_free_props (length items) (pre ++ encode items) (Z.of_nat (length pre)) props = Some (put_all items props, inr ()).
Proof.
  intros H. revert pre props. induction H as [|x items Hx H IH]; intros pre props; [done|]. cbn [length put_free_props].
  erewrite run_bind by (apply run_ok, data_name). erewrite run_bind by done. erewrite run_bind by (apply run_ok, data_size).
  destruct (scan_6 (length (value_string x)) Hx 0) as [-> _]. rewrite Nat2Z.id. erewrite run_bind by (apply run_ok, data_values).
  erewrite run_bind by done. rewrite <-pre_next_length. fold (data x items pre). rewrite data_next. apply IH.
Qed.

(** the loops of the requests that write the properties of a device, of a class and of a free object, which the code
    writes three times, do the same: one after the other, each property of the data gets its values, or is
    added at the end when no property has its name. *)
Theorem puts_agree items name size props nv : Forall small items →
  let data_in := name :: size :: encode items in
  put_dev_props (length items) data_in 2 nv props = Some (put_all items props, inr ()) ∧
  put_class_props (length items) data_in 2 nv props = Some (put_all items props, inr ()) ∧
  put_free_props (length items) data_in 2 props = Some (put_all items props, inr ()).
Proof.
  intros H data_in. split; [|split].
  - by apply (put_dev_props_run items [name; size]).
  - by apply (put_class_props_run items [name; size]).
  - by apply (put_free_props_run items [name; size]).
Qed.

(** ** Reading *)

Definition answer (props : list t_property) (name : string) : DbDatum :=
  match find_name p_name name props with
  | Some (_, p) => mk_datum (p_name p) (p_value p)
  | None => mk_datum name []
  end.
Lemma answer_value props name : value_string (answer props name) = default [] (value_of props name).
Proof. unfold answer, value_of. by destruct (find_name p_name name props) as [[k p]|]. Qed.

Definition valued (props : list t_property) : Prop := Forall (λ p, p_value p ≠ []) props.
Lemma valued_find props n k p : valued props → find_name p_name n props = Some (k, p) → p_value p ≠ [].
Proof. intros H [Hk _]%find_name_Some. unfold valued in H. rewrite Forall_lookup in H. by eapply H. Qed.

Lemma decode_step skip n pre name vs fill post q qs : length fill = (if skip && (length vs =? 0)%nat then 1 else 0)%nat →
  decode skip (S n) (pre ++ (name :: to_corba_string (length vs) :: vs ++ fill) ++ post) (Z.of_nat (length pre)) (q :: qs) =
  l ← decode skip n ((pre ++ name :: to_corba_string (length vs) :: vs ++ fill) ++ post)
        (Z.of_nat (length (pre ++ name :: to_corba_string (length vs) :: vs ++ fill))) qs;
  Ok (mk_datum name vs :: l).
Proof.
  intros Hfill. cbn [decode].
  assert (pre ++ (name :: to_corba_string (length vs) :: vs ++ fill) ++ post =
    pre ++ name :: to_corba_string (length vs) :: vs ++ fill ++ post) as -> by (simpl; by rewrite <-app_assoc).
  destruct (record_at pre name (to_corba_string (length vs)) vs (fill ++ post)) as (-> & H2 & H3).
  rewrite bind_Ok, H2, bind_Ok, stream_int_corba, (proj2 (Z.ltb_ge _ _)), Nat2Z.id, H3, bind_Ok by lia.
  assert ((if (Z.of_nat (length vs) =? 0) && skip then Z.of_nat (length pre) + 3 else Z.of_nat (length pre) + 2 + Z.of_nat (length vs)) =
    Z.of_nat (length (pre ++ name :: to_corba_string (length vs) :: vs ++ fill))) as ->.
  { rewrite length_app. cbn [length]. rewrite length_app, Hfill. destruct vs as [|v vs]; destruct skip; simpl; lia. }
  by repeat (rewrite <-?app_assoc; cbn [app]).
Qed.
Lemma decode_run props qs pre : valued props →
  decode true (length qs) (pre ++ ((dt_name <$> qs) ≫= get_dev_prop props)) (Z.of_nat (length pre)) qs =
    Ok (answer props ∘ dt_name <$> qs).
Proof.
  intros Hv. revert pre. induction qs as [|q qs IH]; intros pre; [done|]. rewrite !fmap_cons, bind_cons. cbn [length].
  assert (∃ vs fill, get_dev_prop props (dt_name q) = dt_name (answer props (dt_name q)) :: to_corba_string (length vs) :: vs ++ fill ∧
    length fill = (if true && (length vs =? 0)%nat then 1 else 0)%nat ∧ vs = value_string (answer props (dt_name q))) as (vs & fill & -> & Hf & Hvs).
  { unfold get_dev_prop, answer. destruct (find_name p_name (dt_name q) props) as [[k p]|] eqn:Ef.
    - apply valued_find in Ef; [|done]. exists (p_value p), []. rewrite app_nil_r. split; [done|]. split; [|done]. by destruct (p_value p).
    - by exists [], [" "]. }
  rewrite decode_step by done. rewrite IH, bind_Ok. rewrite Hvs. unfold compose. by destruct (answer props (dt_name q)).
Qed.

(** ** Devices *)

Definition dev_at (s : t_server) (name : string) (id : nat) (dev : t_device) : Prop :=
  search_device s name = Ok (Some id) ∧ heap s !! id = Some dev.

Lemma put_device_property_run name items d id dev text : dev_at (m_server d) name id dev →
  Forall small items → Z.of_nat (length items) < 10 ^ 6 →
  let s := alter_device id (λ _, mk_device (d_name dev) (put_all items (d_properties dev)) (d_attribute_properties dev)) (m_server d) in
  print_server s = Ok text →
  put_device_property name items d = Some (set_file text (set_server s d), inr ()).
Proof.
  intros [Hs Hdev] Hsm Hn s Ht. unfold put_device_property, DbPutDeviceProperty. cbn [length]. rewrite (proj2 (Nat.ltb_lt _ _)) by lia.
  do 2 (erewrite run_bind by done). erewrite run_bind by (by apply run_ok). cbv beta iota. erewrite run_bind by done.
  destruct (scan_6 _ Hn 0) as [-> _]. rewrite Nat2Z.id.
  pose proof (put_dev_props_run items [name; to_corba_string (length items)] 0 (d_properties dev) Hsm) as Hrun.
  cbn [app length] in Hrun. change (Z.of_nat 2) with 2 in Hrun.
  assert (on_device id (on_props d_properties on_dev_props
    (put_dev_props (length items) (name :: to_corba_string (length items) :: encode items) 2 0)) d = Some (set_server s d, inr ())) as Hon.
  { unfold on_device. erewrite run_bind by done. erewrite run_bind by (apply run_ok; unfold dev_of; by rewrite Hdev).
    unfold on_part, on_props. by rewrite Hrun. }
  erewrite run_bind by exact Hon. unfold write_file. erewrite run_bind by done. erewrite run_bind by (by apply run_ok). done.
Qed.
Lemma get_device_property_run name asked d id dev : dev_at (m_server d) name id dev → asked ≠ [] → valued (d_properties dev) →
  get_device_property name asked d = Some (d, inr (answer (d_properties dev) ∘ dt_name <$> asked)).
Proof.
  intros [Hs Hdev] Hne Hv. unfold get_device_property, DbGetDeviceProperty. erewrite run_bind.
  2:{ erewrite run_bind by done. erewrite run_bind by done. rewrite (proj2 (Nat.leb_le _ _)) by (destruct asked; [done|simpl; lia]).
      erewrite run_bind by (by apply run_ok). cbv beta iota.
      erewrite run_bind by (apply run_ok; unfold dev_of; by rewrite Hdev). reflexivity. }
  unfold decode_answer. cbn [tail length]. erewrite run_bind by done. rewrite Nat.sub_succ, Nat.sub_0_r, stream_int_corba, Nat2Z.id, length_fmap.
  erewrite run_ok; [done|]. by apply (decode_run (d_properties dev) asked [name; to_corba_string (length asked)]).
Qed.

(** Writing keeps the data good. *)
Definition good_item (x : DbDatum) : Prop := small x ∧ good_prop (mk_property (dt_name x) (value_string x)).
Lemma good_put_prop n v l : good_prop (mk_property n v) → Forall good_prop l → Forall good_prop (put_prop n v l).
Proof.
  intros (H1 & H2 & H3) Hl. unfold put_prop. destruct (find_name p_name n l) as [[k p]|]; [|by apply Forall_app_2; [|constructor]].
  unfold set_value. apply Forall_alter; [done|]. intros q _ (Hq & _). done.
Qed.
Lemma good_put_all items l : Forall good_item items → Forall good_prop l → Forall good_prop (put_all items l).
Proof.
  intros H. revert l. induction H as [|x items [_ Hx] H IH]; intros l Hl; [done|]. apply IH. by apply good_put_prop.
Qed.
Lemma good_alter_device s id dev ps : good_server s → heap s !! id = Some dev → Forall good_prop ps →
  good_server (alter_device id (λ _, mk_device (d_name dev) ps (d_attribute_properties dev)) s).
Proof.
  intros [H1 H2 H3 H4 [H5 H5'] H6] Hdev Hps. constructor; [done|done|done| | |done]; simpl; [by rewrite length_alter|]. split.
  - rewrite <-list_insert_alter. apply Forall_insert; [done|]. rewrite Forall_lookup in H5. by destruct (H5 id dev Hdev) as (? & ? & ?).
  - rewrite <-list_insert_alter, list_fmap_insert. cbn [d_name]. rewrite list_insert_id; [done|]. by rewrite list_lookup_fmap, Hdev.
Qed.

Lemma dev_at_alter s name id dev dev' : good_server s → dev_at s name id dev → d_name dev' = d_name dev →
  dev_at (alter_device id (λ _, dev') s) name id dev'.
Proof.
  intros Hs [Hf Hdev] Hn. pose proof Hs as [_ _ _ [Hids _] _ _].
  assert (flat s = true) as Hflat by (by apply bool_decide_eq_true_2).
  rewrite search_device_find in Hf by done. destruct (find_name d_name name (heap s)) as [[i x]|] eqn:E; [|done].
  injection Hf as ->. pose proof (find_name_Some _ _ _ _ _ E) as [Hi _]. assert (x = dev) as -> by congruence.
  pose proof (flat_set s (λ _, dev') id Hflat) as Hflat'. split.
  - unfold alter_device. rewrite search_device_find by done. cbn [heap set_heap].
    by rewrite (find_name_alter _ _ _ _ _ (λ _, dev') E).
  - change (alter (λ _, dev') id (heap s) !! id = Some dev'). by rewrite list_lookup_alter, decide_True, Hi.
Qed.

(** C16: a property of a device that is put is kept: after a new start of the server on the
    file, the client reads for each property the values it gave last, and for the others those
    they had, with no need of the case of the names. The data and the properties given are among
    those that [file_round_trip] keeps ([good_server], [good_item]): among others no value is
    empty or has a backslash, or has a comma unless it is written between quotes (see
    [values_not_kept]). The device is known to the server, something is asked, and neither the
    properties nor the values of one are as many as a million. *)
Theorem device_property_kept fn name items asked d d0 id dev :
  good_server (m_server d) → dev_at (m_server d) name id dev →
  Forall good_item items → Z.of_nat (length items) < 10 ^ 6 → asked ≠ [] →
  ∃ d1 d2 res, put_device_property name items d = Some (d1, inr ()) ∧
    new_FileDatabase fn (file d1) d0 = Some (d2, inr ()) ∧
    get_device_property name asked d2 = Some (d2, inr res) ∧
    Forall2 (λ q r, value_string r =
      match last_value items (dt_name q) with
      | Some v => v
      | None => default [] (value_of (d_properties dev) (dt_name q))
      end) asked res.
Proof.
  intros Hs Hat Hitems Hn Hne. pose proof Hs as [_ _ _ _ [Hgd _] _].
  assert (Forall good_prop (d_properties dev)) as Hps.
  { rewrite Forall_lookup in Hgd. by destruct (Hgd id dev (proj2 Hat)) as (_ & ? & _). }
  pose proof (good_put_all items _ Hitems Hps) as Hps'.
  pose proof (good_alter_device _ id dev _ Hs (proj2 Hat) Hps') as Hs'.
  destruct (written_and_read _ Hs') as (text & Ht & Hread). destruct (Hread fn d0) as (d2 & Hd2 & Hm).
  eexists _, d2, _. split; [apply put_device_property_run; [done|by eapply Forall_impl; [exact Hitems|intros x []]|done|done]|].
  split; [exact Hd2|]. split.
  - eapply get_device_property_run; [rewrite Hm; by apply (dev_at_alter _ _ _ dev)|done|]. eapply Forall_impl; [exact Hps'|]. by intros p (_ & ? & _).
  - apply Forall2_fmap_r, Forall_Forall2_diag, Forall_true. intros q. unfold compose. rewrite answer_value. cbn [d_properties].
    rewrite value_of_put_all; [by destruct (last_value items (dt_name q))|].
    eapply Forall_impl; [exact Hitems|]. intros x (_ & Hx & _). by apply good_name_ne.
Qed.

(** ** The properties of the attributes in the file of the database

  The request that writes the properties of one attribute gives it those of the data, although its inner
  loop takes several of them in one turn. *)
Local Open Scope string_scope.
Local Open Scope list_scope.
Local Open Scope Z_scope.
#[local] Arguments String.append : simpl nomatch.

Lemma put_prop_match ps k p x : distinct (p_name <$> ps) → ps !! k = Some p → equalsIgnoreCase (p_name p) (dt_name x) = true →
  put_prop (dt_name x) (value_string x) ps = set_value k (value_string x) ps.
Proof. intros Hd Hk Hx. unfold put_prop. by rewrite (find_name_match _ _ _ _ _ Hd Hk Hx). Qed.
Lemma set_value_names k v ps : p_name <$> set_value k v ps = p_name <$> ps.
Proof.
  unfold set_value. apply list_eq. intros i. rewrite !list_lookup_fmap, list_lookup_alter.
  destruct (decide _) as [->|]; [|done]. by destruct (ps !! i).
Qed.
Lemma put_all_cons x items ps : put_all (x :: items) ps = put_all items (put_prop (dt_name x) (value_string x) ps).
Proof. done. Qed.

Lemma record_end pre x items : small x →
  (Z.of_nat (length (pre ++ encode (x :: items))) <=? Z.of_nat (length pre) + 2 + Z.of_nat (length (value_string x))) =
  match items with [] => true | _ => false end.
Proof.
  intros _. rewrite length_app, encode_cons. cbn [length]. rewrite length_app. destruct items as [|y items].
  - apply Z.leb_le. simpl. lia.
  - apply Z.leb_gt. rewrite encode_cons. simpl. lia.
Qed.

(** The loop on the properties that are there takes the first properties of the data: all of them, or some
    of them (none only if the first one is not there). *)
Lemma replace_props_run n k ps x items pre nv exist :
  (k + n = length ps)%nat → distinct (p_name <$> ps) → Forall small (x :: items) →
  ∃ ps' r, replace_props k n (pre ++ encode (x :: items)) ps (Z.of_nat (length pre)) nv exist = Ok (ps', r) ∧
    p_name <$> ps' = p_name <$> ps ∧
    ((r = None ∧ ps' = put_all (x :: items) ps) ∨
     (∃ done y rest nv', x :: items = done ++ y :: rest ∧ ps' = put_all done ps ∧
        r = Some (Z.of_nat (length (pre ++ encode done)), nv', exist || negb (bool_decide (done = []))) ∧
        (done = [] → ∀ i p, (k <= i)%nat → ps !! i = Some p → equalsIgnoreCase (p_name p) (dt_name y) = false))).
Proof.
  revert k ps x items pre nv exist. induction n as [|n IH]; intros k ps x items pre nv exist Hk Hd Hsm.
  - exists ps, (Some (Z.of_nat (length pre), nv, exist)). split; [done|]. split; [done|]. right.
    exists [], x, items, nv. split; [done|]. split; [done|]. unfold encode. cbn [mbind list_bind]. rewrite app_nil_r, orb_false_r. split; [done|].
    intros _ i p Hi Hp. apply lookup_lt_Some in Hp. lia.
  - destruct (lookup_lt_is_Some_2 ps k) as [p Hp]; [lia|]. cbn [replace_props]. rewrite Hp. cbn [deref]. rewrite bind_Ok.
    fold (data x items pre). rewrite data_name, bind_Ok. destruct (equalsIgnoreCase (p_name p) (dt_name x)) eqn:E.
    + apply Forall_cons in Hsm as [Hx Hsm]. rewrite data_size, bind_Ok. destruct (scan_6 _ Hx nv) as [-> _].
      rewrite Nat2Z.id, data_values, bind_Ok by done. cbv zeta. unfold data at 1. rewrite record_end by done.
      rewrite <-(put_prop_match ps k p x) by done.
      assert (p_name <$> put_prop (dt_name x) (value_string x) ps = p_name <$> ps) as Hnames
        by (rewrite (put_prop_match ps k p x) by done; apply set_value_names).
      destruct items as [|y items].
      { eexists _, None. split; [done|]. split; [done|]. left. done. }
      rewrite <-pre_next_length, data_next.
      destruct (IH (S k) (put_prop (dt_name x) (value_string x) ps) y items (pre_next x pre) (Z.of_nat (length (value_string x))) true)
        as (ps' & r & -> & Hn' & Hcase); [rewrite <-(length_fmap p_name), Hnames, length_fmap; lia|by rewrite Hnames|done|].
      exists ps', r. split; [done|]. split; [by rewrite Hn'|]. destruct Hcase as [[-> ->]|(dn & z & rest & nv' & Heq & -> & -> & _)].
      * left. by rewrite put_all_cons.
      * right. exists (x :: dn), z, rest, nv'. split; [by rewrite Heq|]. split; [done|]. split; [|done].
        rewrite encode_cons, (bool_decide_eq_false_2 (x :: dn = [])) by done. cbn [negb]. rewrite orb_true_r.
        unfold pre_next. rewrite <-app_assoc. done.
    + destruct (IH (S k) ps x items pre nv exist) as (ps' & r & Hr & Hn' & Hcase); [lia|done|done|].
      exists ps', r. split; [exact Hr|]. split; [done|]. destruct Hcase as [?|(dn & z & rest & nv' & Heq & -> & -> & Hnone)]; [by left|].
      right. exists dn, z, rest, nv'. split; [done|]. split; [done|]. split; [done|]. intros -> i q Hi Hq. cbn [app] in Heq. injection Heq as <- _.
      destruct (decide (i = k)) as [->|]; [by assert (q = p) as -> by congruence|]. apply (Hnone eq_refl i q); [lia|done].
Qed.

Lemma find_name_none ps n : (∀ i p, ps !! i = Some p → equalsIgnoreCase (p_name p) n = false) → find_name p_name n ps = None.
Proof.
  intros H. induction ps as [|p ps IH]; [done|]. cbn [find_name]. rewrite (H 0%nat p), IH; [done| |done]. intros i. apply (H (S i)).
Qed.
Lemma put_all_app dn rest ps : put_all (dn ++ rest) ps = put_all rest (put_all dn ps).
Proof. apply fold_left_app. Qed.
Lemma put_prop_names n v ps : distinct (p_name <$> ps) → n ≠ "" → distinct (p_name <$> put_prop n v ps).
Proof.
  intros Hd Hn. unfold put_prop. destruct (find_name p_name n ps) as [[k p]|] eqn:E; [by rewrite set_value_names|].
  unfold distinct in *. rewrite !fmap_app. apply NoDup_app. split; [done|]. split; [|apply NoDup_singleton].
  intros m Hm Hin. apply list_elem_of_singleton in Hin as ->.
  rewrite <-list_fmap_compose in Hm. apply list_elem_of_fmap in Hm as (q & Hq & Hin). cbn [p_name] in Hq.
  clear Hd. induction ps as [|p ps IH]; [by apply elem_of_nil in Hin|]. cbn [find_name] in E.
  destruct (equalsIgnoreCase (p_name p) n) eqn:E2; [done|]. destruct (find_name p_name n ps) as [[? ?]|]; [done|].
  apply elem_of_cons in Hin as [->|Hin]; [|by apply IH].
  apply not_true_iff_false in E2. apply E2, equalsIgnoreCase_spec. unfold compose in Hq. split; [|done]. intros Hz. rewrite Hz in Hq. by destruct n.
Qed.
Lemma encode_app l1 l2 : encode (l1 ++ l2) = encode l1 ++ encode l2.
Proof. apply bind_app. Qed.

Lemma put_attr_props_run num items pre ps nv :
  items ≠ [] → (length items <= num)%nat → Forall small items → Forall (λ x, dt_name x ≠ "") items → distinct (p_name <$> ps) →
  put_attr_props num (pre ++ encode items) ps (Z.of_nat (length pre)) nv = Ok (put_all items ps, None).
Proof.
  revert items pre ps nv. induction num as [|num IH]; intros items pre ps nv Hne Hlen Hsm Hnm Hd; [destruct items; [done|simpl in *; lia]|].
  destruct items as [|x items]; [done|]. cbn [put_attr_props].
  destruct (replace_props_run (length ps) 0 ps x items pre nv false) as (ps' & r & -> & Hn' & Hcase); [done..|]. rewrite bind_Ok.
  destruct Hcase as [[-> ->]|(dn & y & rest & nv' & Heq & -> & -> & Hnone)]; [done|].
  rewrite Heq in *. apply Forall_app in Hsm as [_ Hsm]. apply Forall_app in Hnm as [_ Hnm]. rewrite put_all_app. cbn [orb].
  rewrite length_app in Hlen. cbn [length] in Hlen. destruct (decide (dn = [])) as [->|Hdn].
  - rewrite bool_decide_eq_true_2 by done. cbn [negb].
    change ([] ++ y :: rest) with (y :: rest). change (encode []) with ([] : DevVarStringArray). rewrite app_nil_r.
    change (put_all [] ps) with ps in *.
    apply Forall_cons in Hsm as [Hy Hsm]. apply Forall_cons in Hnm as [Hyn Hnm].
    fold (data y rest pre). rewrite data_name, bind_Ok, data_size, bind_Ok. destruct (scan_6 _ Hy nv') as [-> _].
    rewrite Nat2Z.id, data_values, bind_Ok by done. unfold data at 1. rewrite record_end by done.
    assert (ps ++ [mk_property (dt_name y) (value_string y)] = put_prop (dt_name y) (value_string y) ps) as ->.
    { unfold put_prop. rewrite find_name_none; [done|]. intros i p. apply Hnone; [done|lia]. }
    destruct rest as [|z rest]; [done|]. rewrite <-pre_next_length, data_next. cbn [length] in Hlen.
    rewrite IH; [done|done|simpl; lia|done|done|by apply put_prop_names].
  - rewrite bool_decide_eq_false_2 by done. cbn [negb]. rewrite encode_app, app_assoc.
    apply IH; [done|destruct dn; [done|simpl in *; lia]|done|done|by rewrite Hn'].
Qed.

Definition put_attr (attr : string) (items : list DbDatum) (aps : list t_attribute_property) : list t_attribute_property :=
  match find_name attribute_name attr aps with
  | Some (k, ap) => <[k := mk_attribute_property (attribute_name ap) (put_all items (ap_properties ap))]> aps
  | None => aps ++ [mk_attribute_property attr (put_all items [])]
  end.

(** The request that writes the properties of one attribute gives it the values of the data, property by property,
    and adds the attribute and the properties that are not there; the other attributes stay. *)
Lemma put_one_attribute dev attr items aps :
  Forall small items → Forall (λ x, dt_name x ≠ "") items → Z.of_nat (length items) < 10 ^ 6 →
  Forall (λ ap, distinct (p_name <$> ap_properties ap)) aps →
  put_attrs 1 (dev :: "1" :: attr :: to_corba_string (length items) :: encode items) aps 2 0 0 = Ok (put_attr attr items aps).
Proof.
  intros Hsm Hnm Hlen Hd. cbn [put_attrs]. unfold put_attr.
  assert (∀ ps, distinct (p_name <$> ps) → ∃ st,
    put_attr_props (length items) (dev :: "1" :: attr :: to_corba_string (length items) :: encode items) ps 4 0 = Ok (put_all items ps, st)) as Hrun.
  { intros ps Hps. destruct (decide (items = [])) as [->|Hne]; [by eexists|]. exists None.
    by apply (put_attr_props_run (length items) items [dev; "1"; attr; to_corba_string (length items)] ps 0). }
  change (vget (dev :: "1" :: attr :: to_corba_string (length items) :: encode items) 2) with (Ok attr : outcome string).
  rewrite bind_Ok.
  destruct (find_name attribute_name attr aps) as [[k ap]|] eqn:E.
  - change (vget (dev :: "1" :: attr :: to_corba_string (length items) :: encode items) (2 + 1)) with (Ok (to_corba_string (length items)) : outcome string).
    rewrite bind_Ok. destruct (scan_6 _ Hlen 0) as [-> _]. rewrite Nat2Z.id. change (2 + 2) with 4.
    apply find_name_Some in E as [Hk _]. rewrite Forall_lookup in Hd. destruct (Hrun (ap_properties ap) (Hd k ap Hk)) as [st Hst].
    rewrite Hst, bind_Ok. by destruct st as [[? ?]|].
  - change (vget (dev :: "1" :: attr :: to_corba_string (length items) :: encode items) (2 + 1)) with (Ok (to_corba_string (length items)) : outcome string).
    rewrite bind_Ok. destruct (scan_6 _ Hlen 0) as [-> _]. rewrite Nat2Z.id. change (2 + 2) with 4.
    destruct (Hrun []) as [st Hst]; [constructor|]. cbn [ap_properties attribute_name]. rewrite Hst, bind_Ok. cbn [fst snd].
    rewrite list_insert_middle by done. by destruct st as [[? ?]|].
Qed.
