(* ===== verification/FileDbWitness.v ===== *)
(** * The file of the database on examples

  A small database on which the hypotheses of the theorems hold, and what the code does
  with files and values they leave out. *)
From Stdlib Require Import Ascii.
From stdpp Require Import pretty.
From S2P Require Import Prelude StateExn CppString FileDb FileDbLex FileDbText FileDbNames FileDbRound.
From S2P Require Import FileDbCmds FileDbEnds FileDbCmdTheory.
Local Open Scope string_scope.
Local Open Scope list_scope.
Local Open Scope Z_scope.

(** ** A database *)

Definition a_device : t_device := mk_device "sys/tg_test/1"
  [mk_property "polled_attr" ["double_scalar"; "1000"]; mk_property "Label" ["two words"]]
  [mk_attribute_property "double_scalar" [mk_property "abs_change" ["-1"; "1"]]].
Definition a_server : t_server := mk_server "TangoTest" "test"
  [mk_class "TangoTest" [0%nat] [mk_property "Description" ["a test"]] []] [0%nat]
  [mk_free_object "CtrlSystem" [mk_property "EventTopic" ["x"]]] [a_device].
Definition a_file : FileDatabase := mkFileDatabase "db" a_server (open_file "") "" "".

Ltac by_compute := repeat first [constructor | by vm_compute | by intros ?].
Lemma a_distinct l : bool_decide (NoDup (tolower <$> l)) = true → distinct l.
Proof. apply bool_decide_eq_true_1. Qed.
Lemma a_server_good : good_server a_server.
Proof.
  constructor; cbn [classes heap free_objects devices s_name instance_name a_server].
  - by split.
  - done.
  - split; [by_compute|]. split; [done|by apply a_distinct].
  - done.
  - split; [|by apply a_distinct]. constructor; [|constructor]. split; [by exists "sys", "tg_test", "1"|].
    split; [by_compute|]. split; [by_compute|by apply a_distinct].
  - split; [by_compute|by apply a_distinct].
Qed.

Definition a_item : DbDatum := mk_datum "LABEL" ["three"; "small words"].
Lemma a_item_good : good_item a_item.
Proof. split; [done|]. by_compute. Qed.


Lemma device_property_kept_witness : ∃ d1 d2 res,
  put_device_property "SYS/tg_test/1" [a_item] a_file = Some (d1, inr ()) ∧
  new_FileDatabase "db" (file d1) a_file = Some (d2, inr ()) ∧
  get_device_property "SYS/tg_test/1" [mk_datum "label" []; mk_datum "none" []] d2 = Some (d2, inr res) ∧
  Forall2 (λ q r, value_string r =
    match last_value [a_item] (dt_name q) with
    | Some v => v
    | None => default [] (value_of (d_properties a_device) (dt_name q))
    end) [mk_datum "label" []; mk_datum "none" []] res.
Proof.
  apply (device_property_kept "db" "SYS/tg_test/1" [a_item] [mk_datum "label" []; mk_datum "none" []] a_file a_file 0%nat a_device).
  - exact a_server_good.
  - split; reflexivity.
  - constructor; [exact a_item_good|constructor].
  - reflexivity.
  - discriminate.
Defined.

Lemma puts_agree_witness :
  put_dev_props 1 ["d"; "1"; "LABEL"; "2"; "three"; "small words"] 2 0 (d_properties a_device) =
    Some (put_all [a_item] (d_properties a_device), inr ()).
Proof. apply (puts_agree [a_item] "d" "1" (d_properties a_device) 0). constructor; [exact (proj1 a_item_good)|constructor]. Defined.

Example put_one_attribute_example :
  put_attrs 1 ["d"; "1"; "Double_scalar"; "1"; "LABEL"; "2"; "three"; "small words"] (d_attribute_properties a_device) 2 0 0 =
    Ok (put_attr "Double_scalar" [a_item] (d_attribute_properties a_device)).
Proof.
  apply (put_one_attribute "d" "Double_scalar" [a_item] (d_attribute_properties a_device)).
  - constructor; [exact (proj1 a_item_good)|constructor].
  - constructor; [discriminate|constructor].
  - reflexivity.
  - constructor; [|constructor]. apply a_distinct. reflexivity.
Qed.

(** ** What the theorems leave out *)

Definition no_file : FileDatabase := mkFileDatabase "" empty_server (open_file "") "" "".
(** The data read in a file. *)
Definition parsed (text : string) : option t_server :=
  match new_FileDatabase "db" text no_file with Some (d, inr ()) => Some (m_server d) | _ => None end.
Definition values (dev prop : string) (s : t_server) : option (list string) :=
  match search_device s dev with
  | Ok (Some id) => d ← heap s !! id; value_of (d_properties d) prop
  | _ => None
  end.
Definition a_class_line : string := "TangoTest/test/DEVICE/TangoTest: sys/tg_test/1" +:+ endl.

(** The last character of a file that does not end with an end of line is read twice. *)
Example last_char_twice :
  parsed (a_class_line +:+ "sys/tg_test/1->p: 12") ≫= values "sys/tg_test/1" "p" = Some ["122"] ∧
  parsed (a_class_line +:+ "sys/tg_test/1->p: 12" +:+ endl) ≫= values "sys/tg_test/1" "p" = Some ["12"].
Proof. vm_compute. done. Qed.

(** A comment of C is not skipped: the loop that looks for its end is never entered. *)
Example c_comment_read : parsed ("/* a comment */ " +:+ a_class_line) = None.
Proof. vm_compute. done. Qed.

(** An empty file throws: the test for it is never true. *)
Example empty_file_throws : ∃ d e, new_FileDatabase "db" "" no_file = Some (d, inl e) ∧ file_exn e.
Proof. eexists _, _. split; [vm_compute; reflexivity|]. by eexists. Qed.

(** The word NULL ends the file: the definition after it is not read. *)
Example null_ends_file : parsed (a_class_line +:+ "NULL/a/b->p: 1" +:+ endl +:+ "sys/tg_test/1->p: 1" +:+ endl) ≫= values "sys/tg_test/1" "p" = None.
Proof. vm_compute. done. Qed.

(** A property of an attribute of a device that is not there follows a null pointer. *)
Example unknown_device_attribute : new_FileDatabase "db" (a_class_line +:+ "sys/tg_test/2/a->p: 1" +:+ endl) no_file = None.
Proof. vm_compute. done. Qed.

(** Writing a value and starting again. *)
Definition rewritten (v : list string) : option (list string) :=
  match put_device_property "sys/tg_test/1" [mk_datum "p" v] a_file with
  | Some (d, inr ()) => parsed (file d) ≫= values "sys/tg_test/1" "p"
  | _ => None
  end.
(** A value with a comma is cut, one with a backslash loses it, an empty one takes the next word, and the file
    cannot be read any more with a slash alone. *)
Example values_not_kept : rewritten ["a,b"] = Some ["a"; "b"] ∧
  rewritten [String BSLASH "x y"] = Some ["x y"] ∧ rewritten ["/"] = None ∧ rewritten [""] ≠ Some [""].
Proof. vm_compute. done. Qed.

(** An empty class property cannot be written. *)
Example empty_class_property : put_class_property "TangoTest" [mk_datum "p" [""]] a_file = None.
Proof. vm_compute. done. Qed.

(** What a client gets for [names] after it has written a property [Label] without value. *)
Definition after_no_value (names : list string) : option (list DbDatum) :=
  match put_device_property "sys/tg_test/1" [mk_datum "Label" []] a_file with
  | Some (d, inr ()) =>
      match get_device_property "sys/tg_test/1" ((λ n, mk_datum n []) <$> names) d with
      | Some (_, inr l) => Some l
      | _ => None
      end
  | _ => None
  end.
(** The answer has no space for a property that is there without value, and the client skips one: it reads
    the number of values of the next property as its name. *)
Example no_value_shifts :
  after_no_value ["polled_attr"; "Label"] = Some [mk_datum "polled_attr" ["double_scalar"; "1000"]; mk_datum "Label" []] ∧
  after_no_value ["Label"; "polled_attr"] = Some [mk_datum "Label" []; mk_datum "2" []].
Proof. vm_compute. done. Qed.

(** Two attributes in one request: the loop on the properties of the first one takes both its properties in
    one turn, then the name of the second attribute as the name of a property, and reads past the end of the
    data. *)
Definition two_props : list t_property := [mk_property "p" ["1"]; mk_property "q" ["2"]].
Example two_attributes_mixed :
  put_attrs 2 ["dev"; "2"; "a"; "2"; "p"; "1"; "10"; "q"; "1"; "20"; "b"; "1"; "r"; "1"; "30"]
    [mk_attribute_property "a" two_props; mk_attribute_property "b" []] 2 0 0 = Undef.
Proof. vm_compute. done. Qed.
