(* ===== verification/DbCache.v ===== *)
(** * The cache of the database (client/dbapi_cache.cpp)

  At its start a server asks the database for everything it needs in one request.  The
  answer is one long list of texts; [DbServerCache] notes where each part of it begins, and
  answers the requests of the start-up from the list.

  An array and its number of elements are a list here.  [None] is a member that the
  constructor has not initialised; an index -1 that says so is [None] too.  The
  methods return pointers to buffers of the object, filled again by each call; the
  callers decode them at once, and the contents are the results here.  A negative number of
  values, which no database gives, is [Undef] when it is used. *)
From Stdlib Require Import Ascii.
From stdpp Require Import pretty.
From S2P Require Import Prelude CppString FileDb FileDbCmds.
Local Open Scope string_scope.
Local Open Scope list_scope.
Local Open Scope Z_scope.

(** ** Texts *)

(** [atoi]: 0 when the text is no number; a number that is no [int] is undefined behaviour. *)
Definition atoi (s : string) : outcome Z :=
  let v := default 0 (scan (S (len s)) s) in
  if (- 2 ^ 31 <=? v) && (v <? 2 ^ 31) then Ok v else Undef.
(** [TG_strcasecmp(a, b) == 0] and [TG_strncasecmp(a, "dserver/", 8) == 0]. *)
Definition same_text (a b : string) : bool := String.eqb (tolower a) (tolower b).
Definition is_dserver (a : string) : bool := String.prefix "dserver/" (tolower a).

Definition cache_origin : string := "DbServerCache".
Definition cache_throw {A} (reason text : string) : outcome A := throw_exception reason text cache_origin.

(** ** Data *)

Record EltIdx := mkEltIdx { first_idx : Z; last_idx : Z }.
(** For each property the index of its name and its number of values. *)
Record PropEltIdx := mkPropEltIdx { prop_idx : EltIdx; props_idx : list (Z * Z) }.
Record AttPropEltIdx := mkAttPropEltIdx { att_idx : EltIdx; atts_idx : list Z }.
(** [None]: the pipes of a database that is too old. *)
Record DevEltIdx := mkDevEltIdx {
  dev_prop : PropEltIdx;
  dev_att_prop : AttPropEltIdx;
  dev_pipe_prop : option AttPropEltIdx;
}.
Record ClassEltIdx := mkClassEltIdx {
  class_prop : PropEltIdx;
  class_att_prop : AttPropEltIdx;
  class_pipe_prop : option AttPropEltIdx;
  dev_list : EltIdx;
  devs_idx : list DevEltIdx;
}.
Record DbServerCache := mkDbServerCache {
  data_list : DevVarStringArray;
  proc_release : Z;
  imp_adm : EltIdx;
  imp_notifd_event : option EltIdx;
  imp_adm_event : option EltIdx;
  imp_tac : option EltIdx;
  ctrl_serv_prop : option PropEltIdx;
  DServer_class_prop : option PropEltIdx;
  Default_prop : option PropEltIdx;
  adm_dev_prop : option PropEltIdx;
  classes_idx : option (list ClassEltIdx);
}.

(** ** The construction *)

Section Construction.
Context (data : DevVarStringArray).

Definition number (i : Z) : outcome Z := text ← vget data i; atoi text.
Definition bad_array {A} : outcome A := Exc (OtherExc "std::bad_array_new_length").

(** The loop of [prop_indexes], from the last index used. *)
Fixpoint prop_loop (n : nat) (stop : Z) : outcome (list (Z * Z) * Z) :=
  match n with
  | O => Ok ([], stop)
  | S n =>
      nb_elt ← number (stop + 2);
      r ← prop_loop n (stop + nb_elt + 2);
      Ok ((stop + 1, nb_elt) :: fst r, snd r)
  end.
(** The new last index, and the element. *)
Definition prop_indexes (stop : Z) : outcome (Z * PropEltIdx) :=
  let start := stop + 1 in
  nb_prop ← number (start + 1);
  if nb_prop =? 0 then Ok (start + 1, mkPropEltIdx (mkEltIdx start (start + 1)) [])
  else if nb_prop <? 0 then bad_array
  else
    r ← prop_loop (Z.to_nat nb_prop) (stop + 2);
    Ok (snd r, mkPropEltIdx (mkEltIdx start (snd r)) (fst r)).

(** The index after the properties that begin at [stop]. *)
Fixpoint skip_props (n : nat) (stop : Z) : outcome Z :=
  match n with
  | O => Ok stop
  | S n => nb_elt ← number (stop + 1); skip_props n (stop + nb_elt + 2)
  end.
Fixpoint att_loop (n : nat) (stop : Z) : outcome (list Z * Z) :=
  match n with
  | O => Ok ([], stop)
  | S n =>
      nb_prop ← number (stop + 1);
      stop' ← skip_props (Z.to_nat nb_prop) (stop + 2);
      r ← att_loop n stop';
      Ok (stop :: fst r, snd r)
  end.
Definition prop_att_indexes (stop : Z) : outcome (Z * AttPropEltIdx) :=
  let start := stop + 1 in
  nb_att ← number (start + 1);
  if nb_att =? 0 then Ok (start + 1, mkAttPropEltIdx (mkEltIdx start (start + 1)) [])
  else if nb_att <? 0 then bad_array
  else
    r ← att_loop (Z.to_nat nb_att) (start + 2);
    let stop := snd r - 1 in
    Ok (stop, mkAttPropEltIdx (mkEltIdx start stop) (fst r)).
(** The same code. *)
Definition prop_pipe_indexes : Z → outcome (Z * AttPropEltIdx) := prop_att_indexes.
Definition opt_pipe_indexes (release stop : Z) : outcome (Z * option AttPropEltIdx) :=
  if 109 <=? release then r ← prop_pipe_indexes stop; Ok (fst r, Some (snd r)) else Ok (stop, None).

Definition NOT_FOUND : string := "Not Found".
(** The event factory and the event of the server. *)
Definition event_indexes (stop : Z) : outcome (Z * EltIdx) :=
  let start := stop + 1 in
  text ← vget data (start + 1);
  let stop := if String.eqb text NOT_FOUND then stop + 2 else stop + 6 in
  Ok (stop, mkEltIdx start stop).

Fixpoint dev_loop (n : nat) (release stop : Z) : outcome (Z * list DevEltIdx) :=
  match n with
  | O => Ok (stop, [])
  | S n =>
      p ← prop_indexes stop;
      a ← prop_att_indexes (fst p);
      i ← opt_pipe_indexes release (fst a);
      r ← dev_loop n release (fst i);
      Ok (fst r, mkDevEltIdx (snd p) (snd a) (snd i) :: snd r)
  end.
Definition class_indexes (release stop : Z) : outcome (Z * ClassEltIdx) :=
  p ← prop_indexes stop;
  a ← prop_att_indexes (fst p);
  i ← opt_pipe_indexes release (fst a);
  let start := fst i + 1 in
  nb_dev ← number (start + 1);
  let stop := fst i + nb_dev + 2 in
  if nb_dev <? 0 then bad_array
  else
    r ← dev_loop (Z.to_nat nb_dev) release stop;
    Ok (fst r, mkClassEltIdx (snd p) (snd a) (snd i) (mkEltIdx start stop) (snd r)).
Fixpoint class_loop (n : nat) (release stop : Z) : outcome (Z * list ClassEltIdx) :=
  match n with
  | O => Ok (stop, [])
  | S n =>
      c ← class_indexes release stop;
      r ← class_loop n release (fst c);
      Ok (fst r, snd c :: snd r)
  end.

(** "release 1.9" is 109; 0 when the text does not say a release. *)
Definition release_of (proc_rel : string) : outcome Z :=
  match find "release" proc_rel 0 with
  | None => Ok 0
  | Some _ =>
      rel ← substr proc_rel 8 (len proc_rel);
      match find "." rel 0 with
      | None => Ok 0
      | Some pos =>
          maj ← atoi (str_take pos rel);
          min ← atoi (str_drop (pos + 1) rel);
          if (- 2 ^ 31 <=? maj * 100) && (maj * 100 <? 2 ^ 31) && (- 2 ^ 31 <=? maj * 100 + min) && (maj * 100 + min <? 2 ^ 31)
          then Ok (maj * 100 + min) else Undef
      end
  end.

(** [data] is what [Database::fill_server_cache] has received. *)
Definition new_DbServerCache : outcome DbServerCache :=
  let n_data := Z.of_nat (length data) in
  proc_rel ← vget data 0;
  release ← release_of proc_rel;
  let start := if release =? 0 then 0 else 1 in
  if (n_data =? 2) || (n_data =? 3) then
    Ok (mkDbServerCache data release (mkEltIdx start (start + 1)) None None None None None None None None)
  else
    let stop := start + 7 in
    notifd ← event_indexes stop;
    event ← event_indexes (fst notifd);
    dserver ← prop_indexes (fst event);
    dflt ← prop_indexes (fst dserver);
    adm ← prop_indexes (fst dflt);
    let stop_adm := fst adm in
    class_nb ← number (stop_adm + 2);
    if class_nb <? 0 then bad_array
    else
      classes ← class_loop (Z.to_nat class_nb) release (stop_adm + 2);
      ctrl ← prop_indexes (fst classes);
      let tac := if fst ctrl =? n_data then None else Some (mkEltIdx (fst ctrl + 1) n_data) in
      Ok (mkDbServerCache data release (mkEltIdx start stop) (Some (snd notifd)) (Some (snd event)) tac
            (Some (snd ctrl)) (Some (snd dserver)) (Some (snd dflt)) (Some (snd adm)) (Some (snd classes))).
End Construction.

(** ** The requests *)

Section Requests.
Context (c : DbServerCache).
Abbreviation data := (data_list c).

Definition check_nb {A} (nb : Z) (m : outcome A) : outcome A := if nb <? 0 then Undef else m.

(** *** Properties *)

Fixpoint find_prop (idx : list (Z * Z)) (name : string) : outcome (option (Z * Z)) :=
  match idx with
  | [] => Ok None
  | (i, nb_elt) :: idx =>
      text ← vget data i;
      if same_text name text then Ok (Some (i, nb_elt)) else find_prop idx name
  end.
Definition get_one_prop (obj : PropEltIdx) (dev_prop : bool) (name : string) : outcome DevVarStringArray :=
  r ← find_prop (props_idx obj) name;
  match r with
  | Some (i, nb_elt) =>
      check_nb nb_elt (
        nb ← vget data (i + 1);
        values ← read_values (Z.to_nat nb_elt) data (i + 2);
        Ok (name :: nb :: values))
  | None => Ok (name :: "0" :: (if dev_prop then [" "] else []))
  end.
(** [first] is the text that the caller puts in front. *)
Definition get_obj_prop (first : string) (in_param : DevVarStringArray) (obj : PropEltIdx) (dev_prop : bool) : outcome DevVarStringArray :=
  props ← mapM (get_one_prop obj dev_prop) (tail in_param);
  Ok (first :: to_corba_string (length (tail in_param)) :: concat props).

Fixpoint find_in_classes (cl : list ClassEltIdx) (cl_name : string) : outcome (option ClassEltIdx) :=
  match cl with
  | [] => Ok None
  | x :: cl =>
      text ← vget data (first_idx (prop_idx (class_prop x)));
      if same_text text cl_name then Ok (Some x) else find_in_classes cl cl_name
  end.
Definition find_class (cl_name : string) : outcome (option ClassEltIdx) :=
  cl ← deref (classes_idx c); find_in_classes cl cl_name.

(** The devices of a class; the names begin at [i]. *)
Fixpoint find_in_devs (devs : list DevEltIdx) (i : Z) (dev_name : string) : outcome (option DevEltIdx) :=
  match devs with
  | [] => Ok None
  | x :: devs =>
      text ← vget data i;
      if same_text text dev_name then Ok (Some x) else find_in_devs devs (i + 1) dev_name
  end.
Fixpoint find_dev_in (cl : list ClassEltIdx) (dev_name : string) : outcome (option DevEltIdx) :=
  match cl with
  | [] => Ok None
  | x :: cl =>
      r ← find_in_devs (devs_idx x) (first_idx (dev_list x) + 2) dev_name;
      match r with Some d => Ok (Some d) | None => find_dev_in cl dev_name end
  end.
Definition find_dev_att (dev_name : string) : outcome (option DevEltIdx) :=
  cl ← deref (classes_idx c); find_dev_in cl dev_name.

Definition find_obj (obj_name : string) : outcome (option PropEltIdx) :=
  match ctrl_serv_prop c with
  | None => Ok None
  | Some p => text ← vget data (first_idx (prop_idx p)); Ok (if same_text text obj_name then Some p else None)
  end.

Definition DB_ClassNotFoundInCache : string := "DB_ClassNotFoundInCache".
Definition DB_DeviceNotFoundInCache : string := "DB_DeviceNotFoundInCache".
Definition no_class {A} (name : string) : outcome A :=
  cache_throw DB_ClassNotFoundInCache ("Class " +:+ name +:+ " not found in DB cache").
Definition no_device {A} (name : string) : outcome A :=
  cache_throw DB_DeviceNotFoundInCache ("Device " +:+ name +:+ " not found in DB cache").

Definition get_class_property (in_param : DevVarStringArray) : outcome DevVarStringArray :=
  name ← vget in_param 0;
  if same_text name "DServer" then obj ← deref (DServer_class_prop c); get_obj_prop "DServer" in_param obj false
  else if same_text name "Default" then obj ← deref (Default_prop c); get_obj_prop "Default" in_param obj false
  else
    cl ← find_class name;
    match cl with
    | Some x => get_obj_prop name in_param (class_prop x) false
    | None => no_class name
    end.
Definition get_dev_property (in_param : DevVarStringArray) : outcome DevVarStringArray :=
  name ← vget in_param 0;
  if is_dserver name then
    match adm_dev_prop c with
    | None => no_device name
    | Some obj => get_obj_prop name in_param obj true
    end
  else
    d ← find_dev_att name;
    match d with
    | Some x => get_obj_prop name in_param (dev_prop x) true
    | None => no_device name
    end.
Definition get_obj_property (in_param : DevVarStringArray) : outcome DevVarStringArray :=
  name ← vget in_param 0;
  o ← find_obj name;
  match o with
  | Some obj => get_obj_prop name in_param obj true
  | None => cache_throw DB_DeviceNotFoundInCache ("Object " +:+ name +:+ " not found in DB cache")
  end.
Definition get_dev_list (in_param : DevVarStringArray) : outcome DevVarStringArray :=
  name ← vget in_param 1;
  cl ← find_class name;
  match cl with
  | Some x => read_values (length (devs_idx x)) data (first_idx (dev_list x) + 2)
  | None => Ok []
  end.

(** *** Properties of attributes and of pipes *)

(** The number of texts of [n] properties that begin at [i], after [nb] others. *)
Fixpoint size_of_props (n : nat) (i nb : Z) : outcome Z :=
  match n with
  | O => Ok nb
  | S n => nb_elt ← number data (i + 1); size_of_props n (i + nb_elt + 2) (nb + 2 + nb_elt)
  end.
Fixpoint find_att (idx : list Z) (name : string) : outcome (option Z) :=
  match idx with
  | [] => Ok None
  | i :: idx => text ← vget data i; if same_text name text then Ok (Some i) else find_att idx name
  end.
Definition get_one_att (atts : list Z) (name : string) : outcome DevVarStringArray :=
  r ← find_att atts name;
  match r with
  | Some i =>
      nb_prop ← number data (i + 1);
      nb_to_copy ← size_of_props (Z.to_nat nb_prop) (i + 2) 2;
      check_nb nb_to_copy (read_values (Z.to_nat nb_to_copy) data i)
  | None => Ok [name; "0"]
  end.
Definition get_atts (first : string) (in_param : DevVarStringArray) (atts : list Z) : outcome DevVarStringArray :=
  props ← mapM (get_one_att atts) (tail in_param);
  Ok (first :: to_corba_string (length (tail in_param)) :: concat props).

Definition get_class_att_property (in_param : DevVarStringArray) : outcome DevVarStringArray :=
  name ← vget in_param 0;
  cl ← find_class name;
  match cl with
  | Some x => get_atts name in_param (atts_idx (class_att_prop x))
  | None => no_class name
  end.
Definition get_dev_att_property (in_param : DevVarStringArray) : outcome DevVarStringArray :=
  name ← vget in_param 0;
  d ← find_dev_att name;
  match d with
  | Some x => get_atts name in_param (atts_idx (dev_att_prop x))
  | None => if is_dserver name then Ok [name; "0"] else no_device name
  end.

Definition too_old {A} : outcome A :=
  cache_throw "DB_TooOldStoredProc"
    "Your database stored procedure is too old to support pipe. Please update to stored procedure release 1.9 or more".
Definition get_class_pipe_property (in_param : DevVarStringArray) : outcome DevVarStringArray :=
  if proc_release c <? 109 then too_old
  else
    name ← vget in_param 0;
    cl ← find_class name;
    match cl with
    | Some x => p ← deref (class_pipe_prop x); get_atts name in_param (atts_idx p)
    | None => no_class name
    end.
Definition get_dev_pipe_property (in_param : DevVarStringArray) : outcome DevVarStringArray :=
  if proc_release c <? 109 then too_old
  else
    name ← vget in_param 0;
    d ← find_dev_att name;
    match d with
    | Some x => p ← deref (dev_pipe_prop x); get_atts name in_param (atts_idx p)
    | None => if is_dserver name then Ok [name; "0"] else no_device name
    end.

(** *** Lists of properties *)

(** What a wildcard asks for, in lower case: a name, or what comes before and after the first star. *)
Inductive wildcard := Exactly (name : string) | Around (before after : string).
Definition wildcard_of (text : string) : wildcard :=
  let w := tolower text in
  match find "*" w 0 with
  | None => Exactly w
  | Some pos => Around (str_take pos w) (str_drop (pos + 1) w)
  end.
Definition ends_with (after name : string) : bool :=
  match rfind after name with Some pos => (pos =? len name - len after)%nat | None => false end.
Definition begins_with (before name : string) : bool :=
  match find before name 0 with Some pos => (pos =? 0)%nat | None => false end.
Definition store (w : wildcard) (text : string) : bool :=
  let name := tolower text in
  match w with
  | Exactly n => String.eqb name n
  | Around "" "" => true
  | Around "" after => ends_with after name
  | Around before "" => begins_with before name
  | Around before after => begins_with before name && ends_with after name
  end.
Definition get_obj_prop_list (in_param : DevVarStringArray) (obj : PropEltIdx) : outcome DevVarStringArray :=
  text ← vget in_param 1;
  names ← mapM (λ x, vget data (fst x)) (props_idx obj);
  Ok (List.filter (store (wildcard_of text)) names).
Definition get_device_property_list (in_param : DevVarStringArray) : outcome DevVarStringArray :=
  name ← vget in_param 0;
  if is_dserver name then obj ← deref (adm_dev_prop c); get_obj_prop_list in_param obj
  else
    d ← find_dev_att name;
    match d with
    | Some x => get_obj_prop_list in_param (dev_prop x)
    | None => no_device name
    end.

(** *** Import of devices and events *)

Definition DevVarLongStringArray : Type := list Z * list string.

Definition import_adm_dev : outcome DevVarLongStringArray :=
  let last_index := if 109 <=? proc_release c then 2 else 1 in
  if last_idx (imp_adm c) =? last_index then cache_throw "aaa" "bbb"
  else
    exported ← number data (first_idx (imp_adm c) + 5);
    pid ← number data (last_idx (imp_adm c));
    s ← read_values 5 data (first_idx (imp_adm c));
    Ok ([exported; pid], s).
(** Four texts are copied, the fifth stays empty. *)
Definition import_event (e : EltIdx) (pid_idx : Z) : outcome DevVarLongStringArray :=
  if last_idx e =? first_idx e + 1 then cache_throw "aaa" "bbb"
  else
    exported ← number data (first_idx e + 4);
    pid ← number data pid_idx;
    s ← read_values 4 data (first_idx e);
    Ok ([exported; pid], s ++ [""]).
Definition import_notifd_event : outcome DevVarLongStringArray :=
  e ← deref (imp_notifd_event c); import_event e (last_idx e).
(** The last number is read in the data of the event factory. *)
Definition import_adm_event : outcome DevVarLongStringArray :=
  e ← deref (imp_adm_event c); n ← deref (imp_notifd_event c); import_event e (last_idx n).
Definition import_tac_dev (tac_dev : string) : outcome DevVarLongStringArray :=
  e ← deref (imp_tac c);
  let not_available := cache_throw "API_DatabaseCacheAccess" "Device not available from cache" in
  if (last_idx e =? -1) || (Z.of_nat (length data) <=? first_idx e) then
    cache_throw "API_DatabaseCacheAccess" "No TAC device in Db cache"
  else
    name ← vget data (first_idx e);
    if negb (len tac_dev =? len name)%nat then not_available
    else if negb (same_text tac_dev name) then not_available
    else
      text ← vget data (first_idx e + 1);
      if String.eqb text NOT_FOUND then
        cache_throw "DB_DeviceNotDefined" ("Device " +:+ tac_dev +:+ " not defined in database")
      else
        exported ← number data (first_idx e + 5);
        pid ← number data (last_idx e - 1);
        s ← read_values 5 data (first_idx e);
        Ok ([exported; pid], s).
End Requests.
