(* ===== verification/DbCacheTheory.v ===== *)
(** * The cache of the database answers as the database would

  The data of a server as the database has them, the list of texts it sends, and the
  proofs that the cache built from this list finds everything in it. *)
From Stdlib Require Import Ascii.
From stdpp Require Import pretty.
From S2P Require Import Prelude CppString FileDb FileDbCmds FileDbCmdTheory DbCache.
Local Open Scope string_scope.
Local Open Scope list_scope.
Local Open Scope Z_scope.

(** ** The list *)

Record dev_data := mk_dev_data {
  dd_name : string;
  dd_props : list t_property;
  dd_atts : list t_attribute_property;
  dd_pipes : list t_attribute_property;
}.
Record class_data := mk_class_data {
  cd_name : string;
  cd_props : list t_property;
  cd_atts : list t_attribute_property;
  cd_pipes : list t_attribute_property;
  cd_devs : list dev_data;
}.
(** What the database knows of a server.  [sd_release] is the text of the release, with the number it is for the
    cache; an old database sends none. *)
Record server_data := mk_server_data {
  sd_release : option (string * Z);
  sd_admin : list string;
  sd_notifd : list string;
  sd_event : list string;
  sd_dserver : list t_property;
  sd_default : list t_property;
  sd_adm_name : string;
  sd_adm_props : list t_property;
  sd_name : string;
  sd_classes : list class_data;
  sd_ctrl_name : string;
  sd_ctrl_props : list t_property;
  sd_tac : list string;
}.

Definition count {A} (l : list A) : string := to_corba_string (length l).
Definition prop_text (p : t_property) : list string := p_name p :: count (p_value p) :: p_value p.
Definition props_text (name : string) (l : list t_property) : list string := name :: count l :: (l ≫= prop_text).
Definition att_text (a : t_attribute_property) : list string :=
  attribute_name a :: count (ap_properties a) :: (ap_properties a ≫= prop_text).
Definition atts_text (name : string) (l : list t_attribute_property) : list string := name :: count l :: (l ≫= att_text).

Section Layout.
Context (release : Z).
Definition pipes_text (name : string) (l : list t_attribute_property) : list string :=
  if 109 <=? release then atts_text name l else [].
Definition dev_text (d : dev_data) : list string :=
  props_text (dd_name d) (dd_props d) ++ atts_text (dd_name d) (dd_atts d) ++ pipes_text (dd_name d) (dd_pipes d).
Definition class_text (c : class_data) : list string :=
  props_text (cd_name c) (cd_props c) ++ atts_text (cd_name c) (cd_atts c) ++ pipes_text (cd_name c) (cd_pipes c) ++
  (cd_name c :: count (cd_devs c) :: (dd_name <$> cd_devs c)) ++ (cd_devs c ≫= dev_text).
End Layout.

Definition release_nb (s : server_data) : Z := from_option snd 0 (sd_release s).
Definition release_text (s : server_data) : list string := match sd_release s with Some (t, _) => [t] | None => [] end.
(** The whole reply.  The procedure of the database that builds it is not in this repository:
    this is the order and the counts that the parser of dbapi_cache.cpp goes by. *)
Definition layout (s : server_data) : list string :=
  release_text s ++ sd_admin s ++ sd_notifd s ++ sd_event s ++ props_text "DServer" (sd_dserver s) ++
  props_text "Default" (sd_default s) ++ props_text (sd_adm_name s) (sd_adm_props s) ++
  (sd_name s :: count (sd_classes s) :: (sd_classes s ≫= class_text (release_nb s))) ++
  props_text (sd_ctrl_name s) (sd_ctrl_props s) ++ sd_tac s.

(** ** Numbers *)

Lemma atoi_count {A} (l : list A) : Z.of_nat (length l) < 2 ^ 31 → atoi (count l) = Ok (Z.of_nat (length l)).
Proof.
  intros H. unfold atoi. fold (stream_int (count l)). unfold count. rewrite stream_int_corba.
  rewrite (proj2 (Z.leb_le _ _)), (proj2 (Z.ltb_lt _ _)) by lia. done.
Qed.
Lemma number_at {A} (l : list A) pre post i : i = Z.of_nat (length pre) → Z.of_nat (length l) < 2 ^ 31 →
  number (pre ++ count l :: post) i = Ok (Z.of_nat (length l)).
Proof. intros Hi Hl. unfold number. rewrite vget_at, bind_Ok by done. by apply atoi_count. Qed.
(** The second text of a part. *)
Lemma number_second {A} (l : list A) pre name post : Z.of_nat (length l) < 2 ^ 31 →
  number (pre ++ name :: count l :: post) (Z.of_nat (length pre) + 1) = Ok (Z.of_nat (length l)).
Proof. intros Hl. rewrite cons_middle, app_assoc. apply number_at; [|done]. rewrite length_app. simpl. lia. Qed.

Lemma bind_length {A B} (f : A → list B) l : (∀ x, 1 ≤ length (f x))%nat → (length l ≤ length (l ≫= f))%nat.
Proof. intros H. induction l as [|x l IH]; [done|]. rewrite bind_cons, length_app. specialize (H x). simpl. lia. Qed.
Lemma values_length p : length (prop_text p) = (2 + length (p_value p))%nat.
Proof. done. Qed.

(** ** Where the parts are *)

Fixpoint prop_positions (pos : Z) (l : list t_property) : list (Z * Z) :=
  match l with
  | [] => []
  | p :: l => (pos, Z.of_nat (length (p_value p))) :: prop_positions (pos + Z.of_nat (length (prop_text p))) l
  end.
Fixpoint att_positions (pos : Z) (l : list t_attribute_property) : list Z :=
  match l with [] => [] | a :: l => pos :: att_positions (pos + Z.of_nat (length (att_text a))) l end.
Definition elt_at (pos : Z) (text : list string) : EltIdx := mkEltIdx pos (pos + Z.of_nat (length text) - 1).
Definition prop_elt (pos : Z) (name : string) (l : list t_property) : PropEltIdx :=
  mkPropEltIdx (elt_at pos (props_text name l)) (prop_positions (pos + 2) l).
Definition att_elt (pos : Z) (name : string) (l : list t_attribute_property) : AttPropEltIdx :=
  mkAttPropEltIdx (elt_at pos (atts_text name l)) (att_positions (pos + 2) l).

(** The list fits in the integers of the code. *)
Definition fits (l : list string) : Prop := Z.of_nat (length l) < 2 ^ 31.
Lemma list_fits_app l1 l2 : fits (l1 ++ l2) → fits l1 ∧ fits l2.
Proof. unfold fits. rewrite length_app. lia. Qed.
Lemma fits_part pre l post : fits (pre ++ l ++ post) → fits l.
Proof. by intros [_ [? _]%list_fits_app]%list_fits_app. Qed.

Definition stop_of (pre : list string) : Z := Z.of_nat (length pre) - 1.
Lemma stop_app pre l : stop_of (pre ++ l) = stop_of pre + Z.of_nat (length l).
Proof. unfold stop_of. rewrite length_app. lia. Qed.

Lemma prop_loop_at l pre post : fits (l ≫= prop_text) →
  prop_loop (pre ++ (l ≫= prop_text) ++ post) (length l) (stop_of pre) =
    Ok (prop_positions (Z.of_nat (length pre)) l, stop_of (pre ++ (l ≫= prop_text))).
Proof.
  revert pre. induction l as [|p l IH]; intros pre Hf; [by rewrite app_nil_r|]. rewrite bind_cons in *.
  apply list_fits_app in Hf as [Hp Hl]. cbn [length prop_loop prop_positions]. rewrite <-(app_assoc (prop_text p)), (app_assoc pre).
  assert (Z.of_nat (length (p_value p)) < 2 ^ 31) by (unfold fits in Hp; rewrite values_length in Hp; lia).
  replace (stop_of pre + 2) with (Z.of_nat (length pre) + 1) by (unfold stop_of; lia).
  replace (number _ (Z.of_nat (length pre) + 1)) with (Ok (Z.of_nat (length (p_value p))) : outcome Z)
    by (rewrite <-app_assoc; symmetry; apply number_second; done).
  rewrite bind_Ok. replace (stop_of pre + Z.of_nat (length (p_value p)) + 2) with (stop_of (pre ++ prop_text p))
    by (rewrite stop_app, values_length; lia).
  rewrite IH, bind_Ok by done. cbn [fst snd]. rewrite app_assoc, length_app. do 3 f_equal; [|f_equal; lia]. unfold stop_of. f_equal. lia.
Qed.
(** A part: a name, a number, and elements. *)
Lemma part_at {A} name (l : list A) body pre post :
  pre ++ (name :: count l :: body) ++ post = (pre ++ [name; count l]) ++ body ++ post.
Proof. by rewrite <-app_assoc. Qed.
Lemma prop_indexes_at name l pre post : fits (props_text name l) →
  prop_indexes (pre ++ props_text name l ++ post) (stop_of pre) =
    Ok (stop_of (pre ++ props_text name l), prop_elt (Z.of_nat (length pre)) name l).
Proof.
  intros Hf. unfold prop_indexes. replace (stop_of pre + 1) with (Z.of_nat (length pre)) by (unfold stop_of; lia).
  assert (length l ≤ length (l ≫= prop_text))%nat by (apply bind_length; intros p; simpl; lia).
  unfold fits, props_text in Hf. cbn [length] in Hf.
  replace (number _ _) with (Ok (Z.of_nat (length l)) : outcome Z) by (symmetry; apply number_second; lia). rewrite bind_Ok.
  destruct l as [|p l].
  - cbn [length]. rewrite Z.eqb_refl, stop_app. unfold prop_elt, elt_at, props_text, stop_of. cbn [length mbind list_bind prop_positions].
    f_equal. f_equal; [lia|]. f_equal. f_equal. lia.
  - rewrite (proj2 (Z.eqb_neq _ _)), (proj2 (Z.ltb_ge _ _)), Nat2Z.id by (simpl; lia).
    replace (stop_of pre + 2) with (stop_of (pre ++ [name; count (p :: l)])) by (rewrite stop_app; simpl; lia).
    unfold props_text. rewrite part_at, prop_loop_at, bind_Ok by (unfold fits; lia). cbn [fst snd].
    unfold prop_elt, elt_at. rewrite <-app_assoc. cbn [app]. fold (props_text name (p :: l)). rewrite stop_app, length_app.
    do 2 f_equal. f_equal; f_equal; [unfold stop_of; lia|simpl; lia].
Qed.

Lemma skip_props_at l pre post : fits (l ≫= prop_text) →
  skip_props (pre ++ (l ≫= prop_text) ++ post) (length l) (Z.of_nat (length pre)) = Ok (Z.of_nat (length (pre ++ (l ≫= prop_text)))).
Proof.
  revert pre. induction l as [|p l IH]; intros pre Hf; [by rewrite app_nil_r|]. rewrite bind_cons in *.
  apply list_fits_app in Hf as [Hp Hl]. cbn [length skip_props].
  assert (Z.of_nat (length (p_value p)) < 2 ^ 31) by (unfold fits in Hp; rewrite values_length in Hp; lia).
  rewrite <-(app_assoc (prop_text p)). replace (number _ _) with (Ok (Z.of_nat (length (p_value p))) : outcome Z) by (symmetry; by apply number_second).
  rewrite bind_Ok, (app_assoc pre).
  replace (Z.of_nat (length pre) + Z.of_nat (length (p_value p)) + 2) with (Z.of_nat (length (pre ++ prop_text p)))
    by (rewrite length_app, values_length; lia).
  rewrite IH by done. by rewrite app_assoc.
Qed.
Lemma att_fits a : fits (att_text a) → Z.of_nat (length (ap_properties a)) < 2 ^ 31 ∧ fits (ap_properties a ≫= prop_text).
Proof.
  assert (length (ap_properties a) ≤ length (ap_properties a ≫= prop_text))%nat by (apply bind_length; intros p; simpl; lia).
  unfold fits, att_text. cbn [length]. lia.
Qed.
Lemma skip_att_at a pre post : fits (att_text a) →
  skip_props (pre ++ att_text a ++ post) (length (ap_properties a)) (Z.of_nat (length pre) + 2) = Ok (Z.of_nat (length (pre ++ att_text a))).
Proof.
  intros [_ Hf]%att_fits. unfold att_text. rewrite part_at.
  replace (Z.of_nat (length pre) + 2) with (Z.of_nat (length (pre ++ [attribute_name a; count (ap_properties a)]))) by (rewrite length_app; simpl; lia).
  rewrite skip_props_at by done. by rewrite <-app_assoc.
Qed.
Lemma att_loop_at l pre post : fits (l ≫= att_text) →
  att_loop (pre ++ (l ≫= att_text) ++ post) (length l) (Z.of_nat (length pre)) =
    Ok (att_positions (Z.of_nat (length pre)) l, Z.of_nat (length (pre ++ (l ≫= att_text)))).
Proof.
  revert pre. induction l as [|a l IH]; intros pre Hf; [by rewrite app_nil_r|]. rewrite bind_cons in *.
  apply list_fits_app in Hf as [Ha Hl]. destruct (att_fits a Ha) as [Hn _]. cbn [length att_loop att_positions]. rewrite <-(app_assoc (att_text a)).
  replace (number _ _) with (Ok (Z.of_nat (length (ap_properties a))) : outcome Z) by (symmetry; by apply number_second).
  rewrite bind_Ok, Nat2Z.id, skip_att_at, bind_Ok, (app_assoc pre), IH, bind_Ok by done. cbn [fst snd].
  by rewrite app_assoc, (length_app pre), Nat2Z.inj_add.
Qed.
Lemma prop_att_indexes_at name l pre post : fits (atts_text name l) →
  prop_att_indexes (pre ++ atts_text name l ++ post) (stop_of pre) =
    Ok (stop_of (pre ++ atts_text name l), att_elt (Z.of_nat (length pre)) name l).
Proof.
  intros Hf. unfold prop_att_indexes. replace (stop_of pre + 1) with (Z.of_nat (length pre)) by (unfold stop_of; lia).
  assert (length l ≤ length (l ≫= att_text))%nat by (apply bind_length; intros p; simpl; lia).
  unfold fits, atts_text in Hf. cbn [length] in Hf.
  replace (number _ _) with (Ok (Z.of_nat (length l)) : outcome Z) by (symmetry; apply number_second; lia). rewrite bind_Ok.
  destruct l as [|a l].
  - cbn [length]. rewrite Z.eqb_refl, stop_app. unfold att_elt, elt_at, atts_text, stop_of. cbn [length mbind list_bind att_positions].
    f_equal. f_equal; [lia|]. f_equal. f_equal. lia.
  - rewrite (proj2 (Z.eqb_neq _ _)), (proj2 (Z.ltb_ge _ _)), Nat2Z.id by (simpl; lia).
    replace (Z.of_nat (length pre) + 2) with (Z.of_nat (length (pre ++ [name; count (a :: l)]))) by (rewrite length_app; simpl; lia).
    unfold atts_text. rewrite part_at, att_loop_at, bind_Ok by (unfold fits; lia). cbn [fst snd].
    unfold att_elt, elt_at. rewrite <-app_assoc. cbn [app]. fold (atts_text name (a :: l)). unfold stop_of. rewrite !length_app.
    do 2 f_equal. f_equal; f_equal; simpl; lia.
Qed.

(** *** Devices and classes *)

Section Classes.
Context (release : Z).

Definition pipe_elt (pos : Z) (name : string) (l : list t_attribute_property) : option AttPropEltIdx :=
  if 109 <=? release then Some (att_elt pos name l) else None.
Definition after (pos : Z) (text : list string) : Z := pos + Z.of_nat (length text).
Definition dev_elt (pos : Z) (d : dev_data) : DevEltIdx :=
  let pos_att := after pos (props_text (dd_name d) (dd_props d)) in
  let pos_pipe := after pos_att (atts_text (dd_name d) (dd_atts d)) in
  mkDevEltIdx (prop_elt pos (dd_name d) (dd_props d)) (att_elt pos_att (dd_name d) (dd_atts d)) (pipe_elt pos_pipe (dd_name d) (dd_pipes d)).
Fixpoint dev_elts (pos : Z) (l : list dev_data) : list DevEltIdx :=
  match l with [] => [] | d :: l => dev_elt pos d :: dev_elts (after pos (dev_text release d)) l end.
Definition devs_text (c : class_data) : list string := cd_name c :: count (cd_devs c) :: (dd_name <$> cd_devs c).
Definition class_elt (pos : Z) (c : class_data) : ClassEltIdx :=
  let pos_att := after pos (props_text (cd_name c) (cd_props c)) in
  let pos_pipe := after pos_att (atts_text (cd_name c) (cd_atts c)) in
  let pos_list := after pos_pipe (pipes_text release (cd_name c) (cd_pipes c)) in
  mkClassEltIdx (prop_elt pos (cd_name c) (cd_props c)) (att_elt pos_att (cd_name c) (cd_atts c))
    (pipe_elt pos_pipe (cd_name c) (cd_pipes c)) (elt_at pos_list (devs_text c))
    (dev_elts (after pos_list (devs_text c)) (cd_devs c)).
Fixpoint class_elts (pos : Z) (l : list class_data) : list ClassEltIdx :=
  match l with [] => [] | c :: l => class_elt pos c :: class_elts (after pos (class_text release c)) l end.

Lemma length_after pre (text : list string) : Z.of_nat (length (pre ++ text)) = after (Z.of_nat (length pre)) text.
Proof. unfold after. rewrite length_app. lia. Qed.

Lemma after_app pos l1 l2 : after pos (l1 ++ l2) = after (after pos l1) l2.
Proof. unfold after. rewrite length_app. lia. Qed.

Lemma opt_pipe_indexes_at name l pre post : fits (pipes_text release name l) →
  opt_pipe_indexes (pre ++ pipes_text release name l ++ post) release (stop_of pre) =
    Ok (stop_of (pre ++ pipes_text release name l), pipe_elt (Z.of_nat (length pre)) name l).
Proof.
  unfold opt_pipe_indexes, pipes_text, pipe_elt, prop_pipe_indexes. destruct (109 <=? release); [|by rewrite app_nil_r].
  intros Hf. by rewrite prop_att_indexes_at, bind_Ok.
Qed.
Lemma dev_loop_at l pre post : fits (l ≫= dev_text release) →
  dev_loop (pre ++ (l ≫= dev_text release) ++ post) (length l) release (stop_of pre) =
    Ok (stop_of (pre ++ (l ≫= dev_text release)), dev_elts (Z.of_nat (length pre)) l).
Proof.
  revert pre. induction l as [|d l IH]; intros pre Hf; [by rewrite app_nil_r|]. rewrite bind_cons in *.
  apply list_fits_app in Hf as [Hd Hl]. unfold dev_text in Hd. apply list_fits_app in Hd as [Hp [Ha Hi]%list_fits_app].
  cbn [length dev_loop dev_elts]. unfold dev_text at 1 3 5 7. rewrite <-!app_assoc. rewrite prop_indexes_at, bind_Ok by done. cbn [fst snd].
  rewrite (app_assoc pre). rewrite prop_att_indexes_at, bind_Ok by done. cbn [fst snd].
  rewrite (app_assoc (pre ++ _)). rewrite opt_pipe_indexes_at, bind_Ok by done. cbn [fst snd].
  rewrite (app_assoc ((pre ++ _) ++ _)). rewrite IH, bind_Ok by done. cbn [fst snd].
  unfold dev_elt, dev_text. rewrite !length_after, !after_app. by rewrite <-!app_assoc.
Qed.
Lemma class_indexes_at c pre post : fits (class_text release c) →
  class_indexes (pre ++ class_text release c ++ post) release (stop_of pre) =
    Ok (stop_of (pre ++ class_text release c), class_elt (Z.of_nat (length pre)) c).
Proof.
  unfold class_text. intros [Hp [Ha [Hi [Hd Hl]%list_fits_app]%list_fits_app]%list_fits_app]%list_fits_app. fold (devs_text c) in *.
  unfold class_indexes. rewrite <-!app_assoc.
  rewrite prop_indexes_at, bind_Ok by done. cbn [fst snd].
  rewrite (app_assoc pre). rewrite prop_att_indexes_at, bind_Ok by done. cbn [fst snd].
  rewrite (app_assoc (pre ++ _)). rewrite opt_pipe_indexes_at, bind_Ok by done. cbn [fst snd].
  rewrite (app_assoc ((pre ++ _) ++ _)). set (pre' := ((pre ++ _) ++ _) ++ _).
  replace (stop_of pre' + 1) with (Z.of_nat (length pre')) by (unfold stop_of; lia).
  assert (Z.of_nat (length (cd_devs c)) < 2 ^ 31) by (unfold fits, devs_text in Hd; simpl in Hd; rewrite length_fmap in Hd; lia).
  replace (number _ _) with (Ok (Z.of_nat (length (cd_devs c))) : outcome Z) by (symmetry; by apply number_second).
  rewrite bind_Ok, (proj2 (Z.ltb_ge _ _)), Nat2Z.id by lia.
  replace (stop_of pre' + Z.of_nat (length (cd_devs c)) + 2) with (stop_of (pre' ++ devs_text c))
    by (rewrite stop_app; unfold devs_text; simpl; rewrite length_fmap; lia).
  rewrite (app_assoc pre'), dev_loop_at, bind_Ok by done. cbn [fst snd]. unfold class_elt. unfold pre'.
  rewrite !length_after, <-!app_assoc. do 4 f_equal.
  unfold elt_at, stop_of. by rewrite length_after, !after_app.
Qed.
Lemma class_loop_at l pre post : fits (l ≫= class_text release) →
  class_loop (pre ++ (l ≫= class_text release) ++ post) (length l) release (stop_of pre) =
    Ok (stop_of (pre ++ (l ≫= class_text release)), class_elts (Z.of_nat (length pre)) l).
Proof.
  revert pre. induction l as [|c l IH]; intros pre Hf; [by rewrite app_nil_r|]. rewrite bind_cons in *.
  apply list_fits_app in Hf as [Hc Hl]. cbn [length class_loop class_elts]. rewrite <-(app_assoc (class_text release c)).
  rewrite class_indexes_at, bind_Ok by done. cbn [fst snd]. rewrite (app_assoc pre), IH, bind_Ok by done. cbn [fst snd].
  by rewrite length_after, app_assoc.
Qed.
End Classes.

(** *** The whole list *)

(** An event of the server in the database: six texts, or two when it is not there. *)
Definition event_ok (l : list string) : Prop :=
  (∃ name, l = [name; NOT_FOUND]) ∨ ∃ a b c d e f, l = [a; b; c; d; e; f] ∧ b ≠ NOT_FOUND.
Lemma event_indexes_at l pre post : event_ok l →
  event_indexes (pre ++ l ++ post) (stop_of pre) = Ok (stop_of (pre ++ l), elt_at (Z.of_nat (length pre)) l).
Proof.
  intros Hl. unfold event_indexes. replace (stop_of pre + 1) with (Z.of_nat (length pre)) by (unfold stop_of; lia). rewrite stop_app.
  destruct Hl as [[name ->]|(a & b & c & d & e & f & -> & Hb)]; cbn [app length].
  all: rewrite cons_middle, app_assoc, vget_at, bind_Ok by (rewrite length_app; simpl; lia).
  - rewrite String.eqb_refl. unfold elt_at, stop_of. cbn [length]. do 2 f_equal. f_equal. lia.
  - rewrite (proj2 (String.eqb_neq _ _)) by done. unfold elt_at, stop_of. cbn [length]. do 2 f_equal. f_equal. lia.
Qed.

(** What the database sends: the texts of the release and of the admin device, the events, and a list that is not
    too long for the integers of the code. *)
Record good_data (s : server_data) : Prop := {
  good_release : match sd_release s with
                 | Some (t, r) => release_of t = Ok r ∧ r ≠ 0
                 | None => release_of (hd "" (sd_admin s)) = Ok 0
                 end;
  good_admin : length (sd_admin s) = 8%nat;
  good_notifd : event_ok (sd_notifd s);
  good_event : event_ok (sd_event s);
  good_fits : fits (layout s);
}.

Section Whole.
Context (s : server_data).
Definition pos_admin : Z := Z.of_nat (length (release_text s)).
Definition pos_notifd : Z := after pos_admin (sd_admin s).
Definition pos_event : Z := after pos_notifd (sd_notifd s).
Definition pos_dserver : Z := after pos_event (sd_event s).
Definition pos_default : Z := after pos_dserver (props_text "DServer" (sd_dserver s)).
Definition pos_adm : Z := after pos_default (props_text "Default" (sd_default s)).
Definition pos_nb : Z := after pos_adm (props_text (sd_adm_name s) (sd_adm_props s)).
Definition pos_classes : Z := pos_nb + 2.
Definition pos_ctrl : Z := after pos_classes (sd_classes s ≫= class_text (release_nb s)).
Definition pos_tac : Z := after pos_ctrl (props_text (sd_ctrl_name s) (sd_ctrl_props s)).

Definition cache_of : DbServerCache :=
  mkDbServerCache (layout s) (release_nb s) (elt_at pos_admin (sd_admin s)) (Some (elt_at pos_notifd (sd_notifd s)))
    (Some (elt_at pos_event (sd_event s))) (Some (mkEltIdx pos_tac (Z.of_nat (length (layout s)))))
    (Some (prop_elt pos_ctrl (sd_ctrl_name s) (sd_ctrl_props s))) (Some (prop_elt pos_dserver "DServer" (sd_dserver s)))
    (Some (prop_elt pos_default "Default" (sd_default s))) (Some (prop_elt pos_adm (sd_adm_name s) (sd_adm_props s)))
    (Some (class_elts (release_nb s) pos_classes (sd_classes s))).

Lemma release_read : good_data s → ∃ proc_rel, vget (layout s) 0 = Ok proc_rel ∧ release_of proc_rel = Ok (release_nb s) ∧
  (if release_nb s =? 0 then 0 else 1) = pos_admin.
Proof.
  intros [Hr Ha _ _ _]. unfold layout, pos_admin, release_text, release_nb in *. destruct (sd_release s) as [[t r]|].
  - exists t. destruct Hr as [Hr Hne]. split; [done|]. split; [done|]. cbn [from_option snd]. by rewrite (proj2 (Z.eqb_neq _ _)).
  - destruct (sd_admin s) as [|a l]; [done|]. by exists a.
Qed.

(** A step of the constructor, on a part of the list. *)
Definition part_of_list (pre text : list string) (pos : Z) : Prop :=
  pos = Z.of_nat (length pre) ∧ ∃ post, layout s = pre ++ text ++ post.
Lemma step_at {A} (f : list string → Z → outcome (Z * A)) (elt : Z → A) text pre pos pos' :
  (fits text → ∀ pre post, f (pre ++ text ++ post) (stop_of pre) = Ok (stop_of (pre ++ text), elt (Z.of_nat (length pre)))) →
  part_of_list pre text pos → fits (layout s) → pos' = after pos text →
  f (layout s) (pos - 1) = Ok (pos' - 1, elt pos).
Proof.
  intros Hf [-> [post Hl]] Hfit ->. rewrite Hl in *. rewrite (Hf (fits_part _ _ _ Hfit)). unfold stop_of. by rewrite length_after.
Qed.
Lemma prop_step name l pre pos pos' : part_of_list pre (props_text name l) pos → fits (layout s) →
  pos' = after pos (props_text name l) → prop_indexes (layout s) (pos - 1) = Ok (pos' - 1, prop_elt pos name l).
Proof. apply (step_at prop_indexes (λ p, prop_elt p name l)). intros ? ? ?. by apply prop_indexes_at. Qed.
Lemma event_step l pre pos pos' : event_ok l → part_of_list pre l pos → fits (layout s) →
  pos' = after pos l → event_indexes (layout s) (pos - 1) = Ok (pos' - 1, elt_at pos l).
Proof. intros Hl. apply (step_at event_indexes (λ p, elt_at p l)). intros ? ? ?. by apply event_indexes_at. Qed.

Definition before_event := (release_text s ++ sd_admin s) ++ sd_notifd s.
Definition before_default := (before_event ++ sd_event s) ++ props_text "DServer" (sd_dserver s).
Definition before_nb := (before_default ++ props_text "Default" (sd_default s)) ++ props_text (sd_adm_name s) (sd_adm_props s).
Definition before_ctrl := (before_nb ++ [sd_name s; count (sd_classes s)]) ++ (sd_classes s ≫= class_text (release_nb s)).

Ltac part := unfold before_ctrl, before_nb, before_default, before_event;
  split; [by rewrite !length_after|eexists; unfold layout; rewrite <-!app_assoc; done].

(** The parts that the requests look at. *)
Lemma part_dserver : ∃ pre, part_of_list pre (props_text "DServer" (sd_dserver s)) pos_dserver.
Proof. exists (before_event ++ sd_event s). part. Qed.
Lemma part_default : ∃ pre, part_of_list pre (props_text "Default" (sd_default s)) pos_default.
Proof. exists before_default. part. Qed.
Lemma part_adm : ∃ pre, part_of_list pre (props_text (sd_adm_name s) (sd_adm_props s)) pos_adm.
Proof. exists (before_default ++ props_text "Default" (sd_default s)). part. Qed.
Lemma part_classes : ∃ pre, part_of_list pre (sd_classes s ≫= class_text (release_nb s)) pos_classes.
Proof. exists (before_nb ++ [sd_name s; count (sd_classes s)]). part. Qed.
Lemma part_ctrl : ∃ pre, part_of_list pre (props_text (sd_ctrl_name s) (sd_ctrl_props s)) pos_ctrl.
Proof. exists before_ctrl. part. Qed.

Lemma new_cache_at : good_data s → new_DbServerCache (layout s) = Ok cache_of.
Proof.
  intros Hg. destruct (release_read Hg) as (t & Ht & Hrel & Hstart). destruct Hg as [_ Hadm Hn He Hf].
  unfold new_DbServerCache. rewrite Ht, bind_Ok, Hrel, bind_Ok, Hstart.
  assert (8 ≤ Z.of_nat (length (layout s))) as Hlen by (unfold layout; rewrite !length_app; lia).
  rewrite !(proj2 (Z.eqb_neq _ _)) by lia. cbn [orb].
  assert (pos_admin + 7 = pos_notifd - 1) as -> by (unfold pos_notifd, after; rewrite Hadm; lia).
  rewrite (event_step (sd_notifd s) (release_text s ++ sd_admin s) pos_notifd pos_event), bind_Ok; [cbn [fst snd]|done|part|done..].
  rewrite (event_step (sd_event s) before_event pos_event pos_dserver), bind_Ok; [cbn [fst snd]|done|part|done..].
  rewrite (prop_step "DServer" (sd_dserver s) (before_event ++ sd_event s) pos_dserver pos_default), bind_Ok; [cbn [fst snd]|part|done..].
  rewrite (prop_step "Default" (sd_default s) before_default pos_default pos_adm), bind_Ok; [cbn [fst snd]|part|done..].
  rewrite (prop_step (sd_adm_name s) (sd_adm_props s) (before_default ++ props_text "Default" (sd_default s)) pos_adm pos_nb), bind_Ok;
    [cbn [fst snd]|part|done..].
  assert (∃ post, layout s = before_nb ++ sd_name s :: count (sd_classes s) :: post ∧ (length (sd_classes s) ≤ length post)%nat) as (post & Hl & Hnb).
  { eexists. split; [unfold layout, before_nb, before_default, before_event; rewrite <-!app_assoc; done|]. rewrite length_app.
    assert (length (sd_classes s) ≤ length (sd_classes s ≫= class_text (release_nb s)))%nat by (apply bind_length; intros ?; simpl; lia). lia. }
  assert (pos_nb = Z.of_nat (length before_nb)) as Hpos by (unfold before_nb, before_default, before_event; by rewrite !length_after).
  assert (Z.of_nat (length (sd_classes s)) < 2 ^ 31) by (rewrite Hl in Hf; unfold fits in Hf; rewrite length_app in Hf; simpl in Hf; lia).
  replace (number (layout s) (pos_nb - 1 + 2)) with (Ok (Z.of_nat (length (sd_classes s))) : outcome Z)
    by (rewrite Hl; replace (pos_nb - 1 + 2) with (Z.of_nat (length before_nb) + 1) by lia; symmetry; by apply number_second).
  rewrite bind_Ok, (proj2 (Z.ltb_ge _ _)), Nat2Z.id by lia. replace (pos_nb - 1 + 2) with (pos_classes - 1) by (unfold pos_classes; lia).
  rewrite (step_at (λ l, class_loop l (length (sd_classes s)) (release_nb s)) (λ p, class_elts (release_nb s) p (sd_classes s))
    (sd_classes s ≫= class_text (release_nb s)) (before_nb ++ [sd_name s; count (sd_classes s)]) pos_classes pos_ctrl), bind_Ok;
    [cbn [fst snd]|intros ? ? ?; by apply class_loop_at|split; [by rewrite length_after, <-Hpos|eexists; unfold layout, before_nb, before_default, before_event; rewrite <-!app_assoc; done]|done|done].
  assert (pos_ctrl = Z.of_nat (length before_ctrl)) as Hctrl by (unfold before_ctrl; by rewrite !length_after, <-Hpos).
  assert (layout s = before_ctrl ++ props_text (sd_ctrl_name s) (sd_ctrl_props s) ++ sd_tac s) as Hlast
    by (unfold layout, before_ctrl, before_nb, before_default, before_event; by rewrite <-!app_assoc).
  rewrite (prop_step (sd_ctrl_name s) (sd_ctrl_props s) before_ctrl pos_ctrl pos_tac), bind_Ok; [cbn [fst snd]|by split; [|eexists]|done..].
  assert (pos_tac <= Z.of_nat (length (layout s))) by (rewrite Hlast, app_assoc, !length_app; unfold pos_tac, after; rewrite Hctrl; lia).
  rewrite (proj2 (Z.eqb_neq _ _)) by lia. replace (pos_tac - 1 + 1) with pos_tac by lia. done.
Qed.
End Whole.
