(* ===== verification/DbCacheReads.v ===== *)
(** * What the cache of the database answers

  The requests on a cache that was built from the data of a server are those on the data. *)
From Stdlib Require Import Ascii.
From stdpp Require Import pretty.
From S2P Require Import Prelude CppString FileDb FileDbCmds FileDbCmdTheory DbCache DbCacheTheory.
Local Open Scope string_scope.
Local Open Scope list_scope.
Local Open Scope Z_scope.

(** ** Answers of the database *)

Definition find_property (l : list t_property) (name : string) : option t_property :=
  List.find (λ p, same_text name (p_name p)) l.
Definition prop_answer (dev : bool) (l : list t_property) (name : string) : list string :=
  match find_property l name with
  | Some p => name :: count (p_value p) :: p_value p
  | None => name :: "0" :: (if dev then [" "] else [])
  end.
Definition prop_answers (first : string) (names : list string) (dev : bool) (l : list t_property) : list string :=
  first :: count names :: (names ≫= prop_answer dev l).

Definition find_attribute (l : list t_attribute_property) (name : string) : option t_attribute_property :=
  List.find (λ a, same_text name (attribute_name a)) l.
Definition att_answer (l : list t_attribute_property) (name : string) : list string :=
  match find_attribute l name with Some a => att_text a | None => [name; "0"] end.
Definition att_answers (first : string) (names : list string) (l : list t_attribute_property) : list string :=
  first :: count names :: (names ≫= att_answer l).

Definition class_of (s : server_data) (name : string) : option class_data :=
  List.find (λ cd, same_text (cd_name cd) name) (sd_classes s).
Definition device_of (s : server_data) (name : string) : option dev_data :=
  List.find (λ d, same_text (dd_name d) name) (sd_classes s ≫= cd_devs).

(** ** The parts of the list *)

Lemma mapM_bind {A B} (f : A → outcome (list B)) (g : A → list B) l : (∀ x, f x = Ok (g x)) →
  mapM f l = Ok (g <$> l).
Proof.
  intros H. induction l as [|x l IH]; [done|]. cbn [mapM]. rewrite H, bind_Ok, IH, bind_Ok. done.
Qed.
Lemma concat_fmap {A B} (g : A → list B) l : concat (g <$> l) = l ≫= g.
Proof. induction l as [|x l IH]; [done|]. rewrite bind_cons, <-IH. done. Qed.

Section Reads.
Context (c : DbServerCache).
Abbreviation data := (data_list c).

Lemma get_one_prop_at l obj dev name pre post : data = pre ++ (l ≫= prop_text) ++ post →
  props_idx obj = prop_positions (Z.of_nat (length pre)) l →
  get_one_prop c obj dev name = Ok (prop_answer dev l name).
Proof.
  intros Hd Ho. unfold get_one_prop, prop_answer. rewrite Ho. clear Ho. revert pre Hd.
  induction l as [|p l IH]; intros pre Hd; [done|]. rewrite bind_cons, <-app_assoc in Hd. cbn [prop_positions find_prop].
  unfold find_property. cbn [List.find]. fold (find_property l name).
  destruct (record_at pre (p_name p) (count (p_value p)) (p_value p) ((l ≫= prop_text) ++ post)) as (H1 & H2 & H3).
  unfold prop_text at 1 in Hd. cbn [app] in Hd. rewrite <-Hd in *. rewrite H1, bind_Ok. destruct (same_text name (p_name p)).
  - rewrite bind_Ok. unfold check_nb. rewrite (proj2 (Z.ltb_ge _ _)), Nat2Z.id, H2, bind_Ok, H3, bind_Ok by lia. done.
  - rewrite <-Nat2Z.inj_add, <-length_app. apply IH. rewrite Hd, <-app_assoc. done.
Qed.
Lemma get_obj_prop_at name l first x names dev pre post : data = pre ++ props_text name l ++ post →
  get_obj_prop c first (x :: names) (prop_elt (Z.of_nat (length pre)) name l) dev = Ok (prop_answers first names dev l).
Proof.
  intros Hd. unfold get_obj_prop. cbn [tail].
  rewrite (mapM_bind _ (prop_answer dev l)).
  - rewrite bind_Ok, concat_fmap. done.
  - intros w. unfold props_text in Hd. rewrite part_at in Hd. eapply get_one_prop_at; [exact Hd|].
    cbn [props_idx prop_elt]. by rewrite length_after.
Qed.

Lemma size_of_props_at l nb pre post : data = pre ++ (l ≫= prop_text) ++ post → fits data →
  size_of_props c (length l) (Z.of_nat (length pre)) nb = Ok (nb + Z.of_nat (length (l ≫= prop_text))).
Proof.
  intros Hd Hf. revert pre nb Hd. induction l as [|p l IH]; intros pre nb Hd; [cbn; f_equal; lia|].
  rewrite bind_cons, <-app_assoc in Hd. cbn [length size_of_props].
  assert (Z.of_nat (length (p_value p)) < 2 ^ 31) by (rewrite Hd in Hf; unfold fits in Hf; rewrite !length_app, values_length in Hf; lia).
  replace (number _ _) with (Ok (Z.of_nat (length (p_value p))) : outcome Z) by (rewrite Hd; symmetry; by apply number_second).
  rewrite bind_Ok. replace (Z.of_nat (length pre) + Z.of_nat (length (p_value p)) + 2) with (Z.of_nat (length (pre ++ prop_text p)))
    by (rewrite length_app, values_length; lia).
  rewrite IH by (rewrite Hd, <-app_assoc; done). rewrite bind_cons, length_app, values_length. f_equal. lia.
Qed.
Lemma get_one_att_at l name pre post : data = pre ++ (l ≫= att_text) ++ post → fits data →
  get_one_att c (att_positions (Z.of_nat (length pre)) l) name = Ok (att_answer l name).
Proof.
  intros Hd Hf. unfold get_one_att, att_answer. revert pre Hd. induction l as [|a l IH]; intros pre Hd; [done|].
  rewrite bind_cons, <-app_assoc in Hd. cbn [att_positions find_att].
  unfold find_attribute. cbn [List.find]. fold (find_attribute l name).
  replace (vget data (Z.of_nat (length pre))) with (Ok (attribute_name a) : outcome string)
    by (rewrite Hd; symmetry; by apply vget_at).
  rewrite bind_Ok. destruct (same_text name (attribute_name a)).
  - rewrite bind_Ok. assert (fits (att_text a)) as [Hn _]%att_fits by (rewrite Hd in Hf; by apply fits_part in Hf).
    replace (number _ _) with (Ok (Z.of_nat (length (ap_properties a))) : outcome Z) by (rewrite Hd; symmetry; by apply number_second).
    rewrite bind_Ok, Nat2Z.id.
    replace (Z.of_nat (length pre) + 2) with (Z.of_nat (length (pre ++ [attribute_name a; count (ap_properties a)]))) by (rewrite length_app; simpl; lia).
    erewrite size_of_props_at; [rewrite bind_Ok|rewrite Hd; unfold att_text; by rewrite part_at|done].
    replace (2 + Z.of_nat (length (ap_properties a ≫= prop_text))) with (Z.of_nat (length (att_text a))) by (unfold att_text; simpl; lia).
    unfold check_nb. rewrite (proj2 (Z.ltb_ge _ _)), Nat2Z.id, Hd by lia. by apply read_values_at.
  - rewrite <-Nat2Z.inj_add, <-length_app. apply IH. rewrite Hd, <-app_assoc. done.
Qed.
Lemma get_atts_at name l first names pre post : data = pre ++ atts_text name l ++ post → fits data →
  get_atts c first (first :: names) (atts_idx (att_elt (Z.of_nat (length pre)) name l)) = Ok (att_answers first names l).
Proof.
  intros Hd Hf. unfold get_atts. cbn [tail]. rewrite (mapM_bind _ (att_answer l)).
  - rewrite bind_Ok, concat_fmap. done.
  - intros x. unfold atts_text in Hd. rewrite part_at in Hd. cbn [atts_idx att_elt].
    replace (Z.of_nat (length pre) + 2) with (Z.of_nat (length (pre ++ [name; count l]))) by (rewrite length_app; simpl; lia).
    by eapply get_one_att_at.
Qed.

(** *** Classes and devices *)

Context (release : Z).

(** A part that was found: where it is. *)
Definition found {A B} (text : A → list string) (elt : Z → A → B) (x : option A) (r : option B) : Prop :=
  match x with
  | None => r = None
  | Some x => ∃ pre post, data = pre ++ text x ++ post ∧ r = Some (elt (Z.of_nat (length pre)) x)
  end.
Lemma find_in_classes_at l name pre post : data = pre ++ (l ≫= class_text release) ++ post →
  ∃ r, find_in_classes c (class_elts release (Z.of_nat (length pre)) l) name = Ok r ∧
    found (class_text release) (class_elt release) (List.find (λ cd, same_text (cd_name cd) name) l) r.
Proof.
  revert pre. induction l as [|cd l IH]; intros pre Hd; [by exists None|]. rewrite bind_cons, <-app_assoc in Hd.
  cbn [class_elts find_in_classes List.find]. change (first_idx (prop_idx (class_prop _))) with (Z.of_nat (length pre)).
  replace (vget data (Z.of_nat (length pre))) with (Ok (cd_name cd) : outcome string) by (rewrite Hd; symmetry; by apply vget_at).
  rewrite bind_Ok. destruct (same_text (cd_name cd) name).
  - eexists. split; [done|]. by exists pre, ((l ≫= class_text release) ++ post).
  - rewrite <-length_after. apply IH. by rewrite <-app_assoc.
Qed.

Lemma find_in_devs_at l name pre1 post1 pre post : data = pre1 ++ (dd_name <$> l) ++ post1 →
  data = pre ++ (l ≫= dev_text release) ++ post →
  ∃ r, find_in_devs c (dev_elts release (Z.of_nat (length pre)) l) (Z.of_nat (length pre1)) name = Ok r ∧
    found (dev_text release) (dev_elt release) (List.find (λ d, same_text (dd_name d) name) l) r.
Proof.
  revert pre1 pre. induction l as [|d l IH]; intros pre1 pre H1 Hd; [by exists None|].
  rewrite bind_cons, <-app_assoc in Hd. rewrite fmap_cons in H1. cbn [app dev_elts find_in_devs List.find] in *.
  replace (vget data (Z.of_nat (length pre1))) with (Ok (dd_name d) : outcome string) by (rewrite H1; symmetry; by apply vget_at).
  rewrite bind_Ok. destruct (same_text (dd_name d) name).
  - eexists. split; [done|]. by exists pre, ((l ≫= dev_text release) ++ post).
  - replace (Z.of_nat (length pre1) + 1) with (Z.of_nat (length (pre1 ++ [dd_name d]))) by (rewrite length_app; simpl; lia).
    rewrite <-length_after. apply IH; by rewrite <-app_assoc.
Qed.
Lemma find_app {A} (f : A → bool) l1 l2 : List.find f (l1 ++ l2) = match List.find f l1 with Some x => Some x | None => List.find f l2 end.
Proof. induction l1 as [|x l1 IH]; [done|]. simpl. by destruct (f x). Qed.

(** The names of the devices of a class, and their own parts. *)
Lemma class_devs cd pre post : data = pre ++ class_text release cd ++ post →
  (∃ pre1 post1, data = pre1 ++ devs_text cd ++ post1 ∧ first_idx (dev_list (class_elt release (Z.of_nat (length pre)) cd)) = Z.of_nat (length pre1)) ∧
  ∃ pre2 post2, data = pre2 ++ (cd_devs cd ≫= dev_text release) ++ post2 ∧
    devs_idx (class_elt release (Z.of_nat (length pre)) cd) = dev_elts release (Z.of_nat (length pre2)) (cd_devs cd).
Proof.
  intros Hd. unfold class_text in Hd. fold (devs_text cd) in Hd.
  set (pre1 := ((pre ++ props_text (cd_name cd) (cd_props cd)) ++ atts_text (cd_name cd) (cd_atts cd)) ++ pipes_text release (cd_name cd) (cd_pipes cd)).
  split; [exists pre1, ((cd_devs cd ≫= dev_text release) ++ post)|exists (pre1 ++ devs_text cd), post]; unfold pre1.
  - split; [rewrite Hd; by rewrite <-!app_assoc|]. cbn [class_elt dev_list elt_at first_idx]. by rewrite !length_after.
  - split; [rewrite Hd; by rewrite <-!app_assoc|]. cbn [class_elt devs_idx]. by rewrite !length_after.
Qed.
Lemma find_dev_in_at l name pre post : data = pre ++ (l ≫= class_text release) ++ post →
  ∃ r, find_dev_in c (class_elts release (Z.of_nat (length pre)) l) name = Ok r ∧
    found (dev_text release) (dev_elt release) (List.find (λ d, same_text (dd_name d) name) (l ≫= cd_devs)) r.
Proof.
  revert pre. induction l as [|cd l IH]; intros pre Hd; [by exists None|]. rewrite bind_cons, <-app_assoc in Hd.
  rewrite (bind_cons cd_devs), find_app. cbn [class_elts find_dev_in].
  destruct (class_devs cd pre _ Hd) as [(pre1 & post1 & H1 & ->) (pre2 & post2 & H2 & ->)].
  unfold devs_text in H1. rewrite part_at in H1.
  replace (Z.of_nat (length pre1) + 2) with (Z.of_nat (length (pre1 ++ [cd_name cd; count (cd_devs cd)]))) by (rewrite length_app; simpl; lia).
  destruct (find_in_devs_at (cd_devs cd) name _ _ _ _ H1 H2) as (r & -> & Hr). rewrite bind_Ok.
  destruct (List.find _ (cd_devs cd)) as [d|]; cbn [found] in Hr.
  - destruct Hr as (pre3 & post3 & H3 & ->). eexists. split; [done|]. by exists pre3, post3.
  - rewrite Hr, <-length_after. apply IH. by rewrite <-app_assoc.
Qed.
End Reads.

(** ** Wildcards *)

Lemma prefix_ex p s : String.prefix p s = true ↔ ∃ r, s = p +:+ r.
Proof.
  split; [|intros [r ->]; apply prefix_app]. revert s. induction p as [|a p IH]; intros s H; [by exists s|].
  destruct s as [|b s]; [done|]. cbn [String.prefix] in H. destruct (Ascii.ascii_dec a b) as [->|]; [|done].
  destruct (IH s H) as [r ->]. by exists r.
Qed.
Lemma begins_with_spec b s : begins_with b s = true ↔ ∃ r, s = b +:+ r.
Proof.
  rewrite <-prefix_ex. unfold begins_with, find. cbn [Nat.leb str_drop]. destruct s as [|c s]; cbn [find_at].
  - by destruct (String.prefix b "").
  - destruct (String.prefix b (String c s)); [done|]. by destruct (find_at b s).
Qed.
Lemma rfind_at p s i : rfind p s = Some i → ∃ x y, s = x +:+ p +:+ y ∧ len x = i.
Proof.
  revert i. induction s as [|c s IH]; intros i; cbn [rfind].
  - destruct (String.prefix p "") eqn:E; [|done]. intros [= <-]. apply prefix_ex in E as [r ->]. by exists "", r.
  - destruct (rfind p s) as [j|]; [intros [= <-]; destruct (IH j eq_refl) as (x & y & -> & <-); by exists (String c x), y|].
    destruct (String.prefix p (String c s)) eqn:E; [|done]. intros [= <-]. apply prefix_ex in E as [r Hr]. by exists "", r.
Qed.
Lemma rfind_self p : rfind p p = Some 0%nat.
Proof.
  destruct p as [|c p]; [done|]. cbn [rfind]. destruct (rfind (String c p) p) as [j|] eqn:E.
  - apply rfind_at in E as (x & y & Hp & _). apply (f_equal len) in Hp. rewrite !app_len in Hp. simpl in Hp. lia.
  - by rewrite (proj2 (prefix_ex _ _)) by (exists ""; by rewrite app_empty).
Qed.
Lemma rfind_end x p : rfind p (x +:+ p) = Some (len x).
Proof.
  induction x as [|c x IH]; [apply rfind_self|]. change (String c x +:+ p) with (String c (x +:+ p)). cbn [rfind]. by rewrite IH.
Qed.
Lemma ends_with_spec a s : ends_with a s = true ↔ ∃ r, s = r +:+ a.
Proof.
  unfold ends_with. split.
  - destruct (rfind a s) as [i|] eqn:E; [|done]. intros Hi%Nat.eqb_eq. apply rfind_at in E as (x & y & -> & <-).
    rewrite !app_len in Hi. assert (y = "") as -> by (destruct y; [done|simpl in Hi; lia]). exists x. by rewrite app_empty.
  - intros [r ->]. rewrite rfind_end, app_len. apply Nat.eqb_eq. lia.
Qed.
(** A name is stored when it begins with what is before the star and ends with what is after it, in lower case. *)
Lemma store_spec w text : store w text = true ↔
  match w with
  | Exactly n => tolower text = n
  | Around b a => (∃ r, tolower text = b +:+ r) ∧ (∃ r, tolower text = r +:+ a)
  end.
Proof.
  unfold store. destruct w as [n|b a]; [apply String.eqb_eq|].
  rewrite <-begins_with_spec, <-ends_with_spec.
  assert (begins_with "" (tolower text) = true) as Hb by (apply begins_with_spec; by eexists).
  assert (ends_with "" (tolower text) = true) as Ha by (apply ends_with_spec; exists (tolower text); by rewrite app_empty).
  destruct b, a; rewrite ?Hb, ?Ha, ?andb_true_iff; tauto.
Qed.

(** What a client asks for: a name, or the names that begin with what is before the first star and
    end with what is after it, whatever the case.  A name may be shorter than both together
    (see [wildcard_overlap]). *)
Definition star : Ascii.ascii := "*"%char.
Definition matches (text name : string) : Prop :=
  (star ∉ chars text ∧ tolower name = tolower text) ∨
  ∃ before after, text = before +:+ String star after ∧ star ∉ chars before ∧
    (∃ r, tolower name = tolower before +:+ r) ∧ (∃ r, tolower name = r +:+ tolower after).
Lemma first_star s : star ∈ chars s → ∃ b a, s = b +:+ String star a ∧ star ∉ chars b.
Proof.
  induction s as [|c s IH]; [by intros ?%elem_of_nil|]. intros Hs. destruct (decide (c = star)) as [->|Hc].
  - exists "", s. split; [done|]. by intros ?%elem_of_nil.
  - simpl in Hs. apply elem_of_cons in Hs as [Hs|Hs]; [by destruct Hc|]. destruct (IH Hs) as (b & a & -> & Hb). exists (String c b), a.
    split; [done|]. simpl. apply not_elem_of_cons. by split.
Qed.
Lemma star_lower b a : tolower (b +:+ String star a) = tolower b +:+ String star (tolower a) ∧ (star ∉ chars b → star ∉ chars (tolower b)).
Proof. split; [by rewrite tolower_app|]. apply tolower_absent. intros c. destruct c as [[] [] [] [] [] [] [] []]; vm_compute; congruence. Qed.
Lemma wildcard_star b a : star ∉ chars b → wildcard_of (b +:+ String star a) = Around (tolower b) (tolower a).
Proof.
  intros Hb. destruct (star_lower b a) as [Hl Hs]. specialize (Hs Hb). unfold wildcard_of. rewrite Hl. change "*" with (String star "").
  assert (find (String star "") (tolower b +:+ String star (tolower a)) 0 = Some (len (tolower b))) as ->.
  { unfold find. cbn [Nat.leb]. rewrite str_drop_0, find_char_app by done. done. }
  rewrite str_take_app. f_equal. replace (len (tolower b) + 1)%nat with (len (tolower b) + 1)%nat by done. by rewrite str_drop_app.
Qed.
Lemma wildcard_exact text : star ∉ chars text → wildcard_of text = Exactly (tolower text).
Proof.
  intros Hs. unfold wildcard_of. change "*" with (String star "").
  assert (find (String star "") (tolower text) 0 = None) as ->; [|done].
  unfold find. cbn [Nat.leb]. rewrite str_drop_0, (find_at_absent star); [done|by left|].
  revert Hs. apply tolower_absent. intros c. destruct c as [[] [] [] [] [] [] [] []]; vm_compute; congruence.
Qed.
Lemma char_split k b a b' a' : k ∉ chars b → k ∉ chars b' → b +:+ String k a = b' +:+ String k a' → b = b' ∧ a = a'.
Proof.
  revert b'. induction b as [|c b IH]; intros [|c' b'] Hb Hb'; cbn [String.append]; [by intros [= ->]|intros [= H1 H2]..].
  - subst c'. destruct Hb'. simpl. by left.
  - subst c. destruct Hb. simpl. by left.
  - simpl in Hb, Hb'. apply not_elem_of_cons in Hb as [_ Hb], Hb' as [_ Hb']. subst c'. destruct (IH b' Hb Hb' H2) as [-> ->]. done.
Qed.
Lemma store_matches text name : store (wildcard_of text) name = true ↔ matches text name.
Proof.
  unfold matches. destruct (decide (star ∈ chars text)) as [Hs|Hs].
  - destruct (first_star _ Hs) as (b & a & -> & Hb). rewrite wildcard_star, store_spec by done. split.
    + intros [H1 H2]. right. by exists b, a.
    + intros [[Hn _]|(b' & a' & He & Hb' & H1 & H2)]; [done|]. apply char_split in He as [-> ->]; [done|done|done].
  - rewrite wildcard_exact, store_spec by done. split; [by left|]. intros [[_ ?]|(b & a & -> & _)]; [done|]. destruct Hs. rewrite chars_app. apply elem_of_app. right. by left.
Qed.

(** ** The requests *)

Section Answers.
Context (s : server_data).
Abbreviation c := (cache_of s).

Lemma answers_of name l pos first x names dev : (∃ pre, part_of_list s pre (props_text name l) pos) →
  get_obj_prop c first (x :: names) (prop_elt pos name l) dev = Ok (prop_answers first names dev l).
Proof. intros (pre & -> & post & Hl). by eapply get_obj_prop_at. Qed.

Lemma find_class_of name : ∃ r, find_class c name = Ok r ∧
  found c (class_text (release_nb s)) (class_elt (release_nb s)) (class_of s name) r.
Proof. destruct (part_classes s) as (pre & Hp & post & Hl). unfold find_class. cbn. rewrite Hp. by eapply find_in_classes_at. Qed.
Lemma find_dev_of name : ∃ r, find_dev_att c name = Ok r ∧
  found c (dev_text (release_nb s)) (dev_elt (release_nb s)) (device_of s name) r.
Proof. destruct (part_classes s) as (pre & Hp & post & Hl). unfold find_dev_att. cbn. rewrite Hp. by eapply find_dev_in_at. Qed.

Lemma first_param (name : string) names : vget (name :: names) 0 = Ok name.
Proof. done. Qed.
Lemma class_property_answer name names : get_class_property c (name :: names) =
  if same_text name "DServer" then Ok (prop_answers "DServer" names false (sd_dserver s))
  else if same_text name "Default" then Ok (prop_answers "Default" names false (sd_default s))
  else match class_of s name with
       | Some cd => Ok (prop_answers name names false (cd_props cd))
       | None => no_class name
       end.
Proof.
  unfold get_class_property. rewrite first_param, bind_Ok. destruct (same_text name "DServer"); [|destruct (same_text name "Default")].
  - cbn [deref DServer_class_prop cache_of]. rewrite bind_Ok. apply answers_of, part_dserver.
  - cbn [deref Default_prop cache_of]. rewrite bind_Ok. apply answers_of, part_default.
  - destruct (find_class_of name) as (r & -> & Hr). rewrite bind_Ok. destruct (class_of s name) as [cd|]; cbn [found] in Hr; [|by rewrite Hr].
    destruct Hr as (pre & post & Hd & ->). unfold class_text in Hd. rewrite <-app_assoc in Hd. by eapply get_obj_prop_at.
Qed.
Lemma dev_property_answer name names : get_dev_property c (name :: names) =
  if is_dserver name then Ok (prop_answers name names true (sd_adm_props s))
  else match device_of s name with
       | Some d => Ok (prop_answers name names true (dd_props d))
       | None => no_device name
       end.
Proof.
  unfold get_dev_property. rewrite first_param, bind_Ok. destruct (is_dserver name).
  - cbn [adm_dev_prop cache_of]. apply answers_of, part_adm.
  - destruct (find_dev_of name) as (r & -> & Hr). rewrite bind_Ok. destruct (device_of s name) as [d|]; cbn [found] in Hr; [|by rewrite Hr].
    destruct Hr as (pre & post & Hd & ->). unfold dev_text in Hd. rewrite <-app_assoc in Hd. by eapply get_obj_prop_at.
Qed.
Lemma obj_property_answer name names : get_obj_property c (name :: names) =
  if same_text (sd_ctrl_name s) name then Ok (prop_answers name names true (sd_ctrl_props s))
  else cache_throw DB_DeviceNotFoundInCache ("Object " +:+ name +:+ " not found in DB cache").
Proof.
  unfold get_obj_property, find_obj. rewrite first_param, bind_Ok. destruct (part_ctrl s) as (pre & Hp & post & Hl).
  cbn [ctrl_serv_prop cache_of data_list]. change (first_idx _) with (pos_ctrl s).
  assert (vget (layout s) (pos_ctrl s) = Ok (sd_ctrl_name s)) as -> by (rewrite Hl, Hp; by apply vget_at).
  rewrite !bind_Ok. destruct (same_text (sd_ctrl_name s) name); [|done]. apply answers_of, part_ctrl.
Qed.
Lemma dev_list_answer server name : get_dev_list c [server; name] = Ok (match class_of s name with Some cd => dd_name <$> cd_devs cd | None => [] end).
Proof.
  unfold get_dev_list. change (vget [server; name] 1) with (Ok name : outcome string). rewrite bind_Ok.
  destruct (find_class_of name) as (r & -> & Hr). rewrite bind_Ok. destruct (class_of s name) as [cd|]; cbn [found] in Hr; [|by rewrite Hr].
  destruct Hr as (pre & post & Hd & ->). destruct (class_devs c (release_nb s) cd pre _ Hd) as [(pre1 & post1 & H1 & ->) _].
  unfold devs_text in H1. rewrite part_at in H1. rewrite H1. cbn [class_elt devs_idx].
  assert (∀ pos l, length (dev_elts (release_nb s) pos l) = length (dd_name <$> l)) as Hlen
    by (intros pos l; revert pos; induction l as [|d l IH]; intros pos; [done|simpl; by rewrite IH]).
  rewrite Hlen. apply read_values_at. rewrite length_app. simpl. lia.
Qed.
Lemma class_att_answer name names : good_data s → get_class_att_property c (name :: names) =
  match class_of s name with Some cd => Ok (att_answers name names (cd_atts cd)) | None => no_class name end.
Proof.
  intros Hg. unfold get_class_att_property. rewrite first_param, bind_Ok.
  destruct (find_class_of name) as (r & -> & Hr). rewrite bind_Ok. destruct (class_of s name) as [cd|]; cbn [found] in Hr; [|by rewrite Hr].
  destruct Hr as (pre & post & Hd & ->). unfold class_text in Hd. rewrite <-!app_assoc, (app_assoc pre) in Hd.
  cbn [class_att_prop class_elt]. rewrite <-length_after. eapply get_atts_at; [exact Hd|apply Hg].
Qed.
Lemma dev_att_answer name names : good_data s → get_dev_att_property c (name :: names) =
  match device_of s name with
  | Some d => Ok (att_answers name names (dd_atts d))
  | None => if is_dserver name then Ok [name; "0"] else no_device name
  end.
Proof.
  intros Hg. unfold get_dev_att_property. rewrite first_param, bind_Ok.
  destruct (find_dev_of name) as (r & -> & Hr). rewrite bind_Ok. destruct (device_of s name) as [d|]; cbn [found] in Hr; [|by rewrite Hr].
  destruct Hr as (pre & post & Hd & ->). unfold dev_text in Hd. rewrite <-!app_assoc, (app_assoc pre) in Hd.
  cbn [dev_att_prop dev_elt]. rewrite <-length_after. eapply get_atts_at; [exact Hd|apply Hg].
Qed.
Lemma class_pipe_answer name names : good_data s → get_class_pipe_property c (name :: names) =
  if release_nb s <? 109 then too_old
  else match class_of s name with Some cd => Ok (att_answers name names (cd_pipes cd)) | None => no_class name end.
Proof.
  intros Hg. unfold get_class_pipe_property. cbn [proc_release cache_of]. destruct (Z.ltb_spec (release_nb s) 109) as [|Hrel]; [done|].
  rewrite first_param, bind_Ok.
  destruct (find_class_of name) as (r & -> & Hr). rewrite bind_Ok. destruct (class_of s name) as [cd|]; cbn [found] in Hr; [|by rewrite Hr].
  destruct Hr as (pre & post & Hd & ->). unfold class_text, pipes_text in Hd. cbn [class_pipe_prop class_elt]. unfold pipe_elt.
  rewrite (proj2 (Z.leb_le _ _)) in * by done. rewrite <-!app_assoc, 2!(app_assoc _ (_ (cd_name cd) _)) in Hd.
  cbn [deref]. rewrite bind_Ok, <-!length_after. eapply get_atts_at; [exact Hd|apply Hg].
Qed.
Lemma dev_pipe_answer name names : good_data s → get_dev_pipe_property c (name :: names) =
  if release_nb s <? 109 then too_old
  else match device_of s name with
       | Some d => Ok (att_answers name names (dd_pipes d))
       | None => if is_dserver name then Ok [name; "0"] else no_device name
       end.
Proof.
  intros Hg. unfold get_dev_pipe_property. cbn [proc_release cache_of]. destruct (Z.ltb_spec (release_nb s) 109) as [|Hrel]; [done|].
  rewrite first_param, bind_Ok.
  destruct (find_dev_of name) as (r & -> & Hr). rewrite bind_Ok. destruct (device_of s name) as [d|]; cbn [found] in Hr; [|by rewrite Hr].
  destruct Hr as (pre & post & Hd & ->). unfold dev_text, pipes_text in Hd. cbn [dev_pipe_prop dev_elt]. unfold pipe_elt.
  rewrite (proj2 (Z.leb_le _ _)) in * by done. rewrite <-!app_assoc, 2!(app_assoc _ (_ (dd_name d) _)) in Hd.
  cbn [deref]. rewrite bind_Ok, <-!length_after. eapply get_atts_at; [exact Hd|apply Hg].
Qed.

(** *** Lists of properties *)

Definition listed (text : string) (l : list t_property) : list string := List.filter (store (wildcard_of text)) (p_name <$> l).
Lemma names_at l pre post : data_list c = pre ++ (l ≫= prop_text) ++ post →
  mapM (λ x, vget (data_list c) (fst x)) (prop_positions (Z.of_nat (length pre)) l) = Ok (p_name <$> l).
Proof.
  revert pre. induction l as [|p l IH]; intros pre Hd; [done|]. rewrite bind_cons, <-app_assoc in Hd. cbn [prop_positions mapM fst].
  replace (vget _ _) with (Ok (p_name p) : outcome string) by (rewrite Hd; symmetry; by apply vget_at).
  rewrite bind_Ok, <-Nat2Z.inj_add, <-length_app, IH, bind_Ok by (rewrite Hd, <-app_assoc; done). done.
Qed.
Lemma prop_list_at name l first text pre post : data_list c = pre ++ props_text name l ++ post →
  get_obj_prop_list c [first; text] (prop_elt (Z.of_nat (length pre)) name l) = Ok (listed text l).
Proof.
  intros Hd. unfold get_obj_prop_list. change (vget [first; text] 1) with (Ok text : outcome string). rewrite bind_Ok.
  unfold props_text in Hd. rewrite part_at in Hd. cbn [props_idx prop_elt].
  replace (Z.of_nat (length pre) + 2) with (Z.of_nat (length (pre ++ [name; count l]))) by (rewrite length_app; simpl; lia).
  by erewrite names_at, bind_Ok.
Qed.
Lemma property_list_answer name text : get_device_property_list c [name; text] =
  if is_dserver name then Ok (listed text (sd_adm_props s))
  else match device_of s name with Some d => Ok (listed text (dd_props d)) | None => no_device name end.
Proof.
  unfold get_device_property_list. rewrite first_param, bind_Ok. destruct (is_dserver name).
  - cbn [adm_dev_prop cache_of deref]. rewrite bind_Ok. destruct (part_adm s) as (pre & -> & post & Hl). by eapply prop_list_at.
  - destruct (find_dev_of name) as (r & -> & Hr). rewrite bind_Ok. destruct (device_of s name) as [d|]; cbn [found] in Hr; [|by rewrite Hr].
    destruct Hr as (pre & post & Hd & ->). unfold dev_text in Hd. rewrite <-app_assoc in Hd. by eapply prop_list_at.
Qed.
End Answers.

(** ** The theorems *)

(** The requests of a server on what the database knows of it. *)
Definition database_answers (s : server_data) (c : DbServerCache) (name : string) (names : list string) : Prop :=
  get_class_property c (name :: names) =
    (if same_text name "DServer" then Ok (prop_answers "DServer" names false (sd_dserver s))
     else if same_text name "Default" then Ok (prop_answers "Default" names false (sd_default s))
     else match class_of s name with
          | Some cd => Ok (prop_answers name names false (cd_props cd))
          | None => no_class name
          end) ∧
  get_dev_property c (name :: names) =
    (if is_dserver name then Ok (prop_answers name names true (sd_adm_props s))
     else match device_of s name with
          | Some d => Ok (prop_answers name names true (dd_props d))
          | None => no_device name
          end) ∧
  get_obj_property c (name :: names) =
    (if same_text (sd_ctrl_name s) name then Ok (prop_answers name names true (sd_ctrl_props s))
     else cache_throw DB_DeviceNotFoundInCache ("Object " +:+ name +:+ " not found in DB cache")) ∧
  get_class_att_property c (name :: names) =
    match class_of s name with Some cd => Ok (att_answers name names (cd_atts cd)) | None => no_class name end ∧
  get_dev_att_property c (name :: names) =
    match device_of s name with
    | Some d => Ok (att_answers name names (dd_atts d))
    | None => if is_dserver name then Ok [name; "0"] else no_device name
    end.

(** The names of the properties that match a text with wildcards. *)
Definition property_names (text : string) (l : list t_property) (o : outcome DevVarStringArray) : Prop :=
  ∃ keep : string → bool, (∀ n, keep n = true ↔ matches text n) ∧ o = Ok (List.filter keep (p_name <$> l)).

(** C18: a cache that is built from the texts of what the database knows of a server finds every part
    of them: a request for the properties of a class, of a device, of the admin device, of an object
    of the control system, of attributes or of pipes, for the devices of a class or for the names of
    properties that match a wildcard, gets what the texts say, or the error that says it is not
    there.  The texts are laid out ([layout]) as the parser of dbapi_cache.cpp reads them, the only
    description of this reply in the source; the server is known to the database, with its events
    found or not ([good_data]; see [unknown_server] for a server that is not).  The properties
    of pipes are in the texts of a database of release 1.9 or later ([release_nb] 109). *)
Theorem cache_answers s : good_data s → ∃ c, new_DbServerCache (layout s) = Ok c ∧
  (∀ name names, database_answers s c name names) ∧
  (∀ server name, get_dev_list c [server; name] = Ok (match class_of s name with Some cd => dd_name <$> cd_devs cd | None => [] end)) ∧
  (∀ name text, if is_dserver name then property_names text (sd_adm_props s) (get_device_property_list c [name; text])
    else match device_of s name with
         | Some d => property_names text (dd_props d) (get_device_property_list c [name; text])
         | None => get_device_property_list c [name; text] = no_device name
         end) ∧
  (109 <= release_nb s → ∀ name names, (∀ cd, class_of s name = Some cd →
      get_class_pipe_property c (name :: names) = Ok (att_answers name names (cd_pipes cd))) ∧
    ∀ d, device_of s name = Some d → get_dev_pipe_property c (name :: names) = Ok (att_answers name names (dd_pipes d))).
Proof.
  intros Hg. exists (cache_of s). split; [by apply new_cache_at|]. split; [|split; [|split]].
  - intros name names. split; [apply class_property_answer|]. split; [apply dev_property_answer|]. split; [apply obj_property_answer|].
    split; [by apply class_att_answer|by apply dev_att_answer].
  - intros server name. apply dev_list_answer.
  - intros name text. rewrite property_list_answer.
    assert (∀ l, property_names text l (Ok (listed text l))) as Hl by (intros l; exists (store (wildcard_of text)); split; [apply store_matches|done]).
    destruct (is_dserver name); [done|]. by destruct (device_of s name).
  - intros Hrel name names. split.
    + intros cd Hcd. by rewrite class_pipe_answer, (proj2 (Z.ltb_ge _ _)), Hcd.
    + intros d Hd. by rewrite dev_pipe_answer, (proj2 (Z.ltb_ge _ _)), Hd.
Qed.
