(* ===== verification/DbClient.v ===== *)
(** * The properties that a client of the database reads and writes (client/dbapi_base.cpp)

  [Database] with its three sources: the cache of a server that starts, the file that
  replaces the database, and the database server.  The database server is a parameter: what
  it answers to a command.  The release of the database server is 2.30 or more
  ([serv_version >= 230]); the control of the access is not modelled. *)
From Stdlib Require Import Ascii.
From stdpp Require Import pretty.
From S2P Require Import Prelude StateExn CppString FileDb FileDbCmds DbCache.
Local Open Scope string_scope.
Local Open Scope list_scope.
Local Open Scope Z_scope.

(** ** Sources *)

Definition rethrow {S A} (e : exn) : SM S A := λ s, Some (s, inl e).

(** The commands on properties, for the file. *)
Definition no_answer (m : SM FileDatabase unit) : SM FileDatabase DevVarStringArray := m;; mret [].
Definition file_command (name : string) : DevVarStringArray → SM FileDatabase DevVarStringArray :=
  if String.eqb name "DbGetDeviceProperty" then DbGetDeviceProperty
  else if String.eqb name "DbGetClassProperty" then DbGetClassProperty
  else if String.eqb name "DbGetProperty" then DbGetProperty
  else if String.eqb name "DbGetDeviceAttributeProperty2" then DbGetDeviceAttributeProperty
  else if String.eqb name "DbGetClassAttributeProperty2" then DbGetClassAttributeProperty
  else if String.eqb name "DbPutDeviceAttributeProperty2" then λ l, no_answer (DbPutDeviceAttributeProperty l)
  else if String.eqb name "DbPutClassAttributeProperty2" then λ l, no_answer (DbPutClassAttributeProperty l)
  else if String.eqb name "DbDeleteDeviceAttributeProperty" then λ l, no_answer (DbDeleteDeviceAttributeProperty l)
  else λ _, not_implemented.

Section Client.
Context {St : Type} (command : string → DevVarStringArray → SM St DevVarStringArray).

(** The cache first, when there is one; the database when the cache does not know the object. *)
Definition ask (from_cache : option (outcome DevVarStringArray)) (reason_missing : string)
  (missing : string) (name : string) (property_names : DevVarStringArray) : SM St DevVarStringArray :=
  match from_cache with
  | None => command name property_names
  | Some (Exc (DevFailed (e :: l))) =>
      if String.eqb (reason e) reason_missing then command missing property_names else rethrow (DevFailed (e :: l))
  | Some x => lift x
  end.

Definition names_of (first : string) (db_data : list DbDatum) : DevVarStringArray := first :: (dt_name <$> db_data).

Definition get_device_property (dev : string) (db_data : list DbDatum) (db_cache : option DbServerCache) : SM St (list DbDatum) :=
  let names := names_of dev db_data in
  answer ← ask ((λ c, get_dev_property c names) <$> db_cache) DB_DeviceNotFoundInCache "DbGetDeviceProperty" "DbGetDeviceProperty" names;
  decode_answer true answer db_data.
Definition get_class_property (cls : string) (db_data : list DbDatum) (db_cache : option DbServerCache) : SM St (list DbDatum) :=
  let names := names_of cls db_data in
  answer ← ask ((λ c, DbCache.get_class_property c names) <$> db_cache) DB_ClassNotFoundInCache "DbGetClassProperty" "DbGetClassProperty" names;
  decode_answer false answer db_data.
(** For an object that the cache does not know, the code asks the database for the properties of a device. *)
Definition get_property (obj : string) (db_data : list DbDatum) (db_cache : option DbServerCache) : SM St (list DbDatum) :=
  let names := names_of obj db_data in
  answer ← ask ((λ c, get_obj_property c names) <$> db_cache) DB_DeviceNotFoundInCache "DbGetDeviceProperty" "DbGetProperty" names;
  decode_answer true answer db_data.

(** ** Properties of attributes

  The data are a list: the name of an attribute with the number of its properties, then
  its properties, then the next attribute. *)

(** Insertion and extraction of a [short], with the flags of exceptions off: an extraction that fails gives 0, or the nearest
    bound. *)
Definition datum_number (name : string) (n : nat) : DbDatum := mk_datum name [to_corba_string n].
Definition extract_short (x : DbDatum) : Z :=
  match value_string x with
  | [] => 0
  | s :: _ => Z.max (- 2 ^ 15) (Z.min (2 ^ 15 - 1) (stream_int s))
  end.

(** The properties of one attribute in an answer; a property without value is followed by a text that is skipped. *)
Fixpoint decode_att_props (n : nat) (answer : DevVarStringArray) (index : Z) : outcome (list DbDatum * Z) :=
  match n with
  | O => Ok ([], index)
  | S n =>
      name ← vget answer index;
      text ← vget answer (index + 1);
      let n_values := stream_int text in
      if n_values <? 0 then Exc length_error
      else
        values ← read_values (Z.to_nat n_values) answer (index + 2);
        r ← decode_att_props n answer (if n_values =? 0 then index + 3 else index + 2 + n_values);
        Ok (mk_datum name values :: fst r, snd r)
  end.
(** The number of properties is a [short], unsigned for a device; a number that is negative or does not fit is [Undef] here. *)
Definition props_number (max : Z) (text : string) : outcome nat :=
  let v := stream_int text in if (0 <=? v) && (v <? max) then Ok (Z.to_nat v) else Undef.
Fixpoint decode_atts (max : Z) (n : nat) (answer : DevVarStringArray) (index : Z) : outcome (list DbDatum) :=
  match n with
  | O => Ok []
  | S n =>
      name ← vget answer index;
      text ← vget answer (index + 1);
      n_props ← props_number max text;
      r ← decode_att_props n_props answer (index + 2);
      l ← decode_atts max n answer (snd r);
      Ok (datum_number name n_props :: fst r ++ l)
  end.
Definition decode_atts_answer (max : Z) (answer : DevVarStringArray) : SM St (list DbDatum) :=
  text ← lift (vget answer 1);
  lift (decode_atts max (Z.to_nat (stream_int text)) answer 2).

Definition get_device_attribute_property (dev : string) (db_data : list DbDatum) (db_cache : option DbServerCache) : SM St (list DbDatum) :=
  let names := names_of dev db_data in
  answer ← ask ((λ c, get_dev_att_property c names) <$> db_cache) DB_DeviceNotFoundInCache
             "DbGetDeviceAttributeProperty2" "DbGetDeviceAttributeProperty2" names;
  decode_atts_answer (2 ^ 16) answer.
Definition get_class_attribute_property (cls : string) (db_data : list DbDatum) (db_cache : option DbServerCache) : SM St (list DbDatum) :=
  let names := names_of cls db_data in
  answer ← ask ((λ c, get_class_att_property c names) <$> db_cache) DB_ClassNotFoundInCache
             "DbGetClassAttributeProperty2" "DbGetClassAttributeProperty2" names;
  decode_atts_answer (2 ^ 15) answer.

(** The data of a request: the attributes one after the other; [fuel] is more than their number.  An attribute with
    more properties than there are reads past the end of the data. *)
Fixpoint encode_atts (fuel : nat) (db_data : list DbDatum) : outcome (DevVarStringArray * nat) :=
  match fuel, db_data with
  | _, [] => Ok ([], 0%nat)
  | O, _ => Undef
  | S fuel, x :: l =>
      let n_props := extract_short x in
      let n := Z.to_nat n_props in
      if (length l <? n)%nat || (n_props <? 0) then Undef
      else
        r ← encode_atts fuel (drop n l);
        Ok (dt_name x :: to_corba_string n :: encode (take n l) ++ fst r, S (snd r))
  end.
Definition put_attribute_property (name : string) (first : string) (db_data : list DbDatum) : SM St unit :=
  r ← lift (encode_atts (length db_data) db_data);
  command name (first :: to_corba_string (snd r) :: fst r);;
  mret ().
Definition put_device_attribute_property (dev : string) (db_data : list DbDatum) : SM St unit :=
  put_attribute_property "DbPutDeviceAttributeProperty2" dev db_data.
Definition put_class_attribute_property (cls : string) (db_data : list DbDatum) : SM St unit :=
  put_attribute_property "DbPutClassAttributeProperty2" cls db_data.

(** The first element is the attribute, the others its properties; without element, the first one is read all the same. *)
Definition delete_attribute_property (command_name first : string) (db_data : list DbDatum) : SM St unit :=
  match db_data with
  | [] => lift Undef
  | _ => command command_name (first :: (dt_name <$> db_data));; mret ()
  end.
Definition delete_device_attribute_property (dev : string) (db_data : list DbDatum) : SM St unit :=
  delete_attribute_property "DbDeleteDeviceAttributeProperty" dev db_data.
Definition delete_class_attribute_property (cls : string) (db_data : list DbDatum) : SM St unit :=
  delete_attribute_property "DbDeleteClassAttributeProperty" cls db_data.
End Client.
