(* ===== verification/DbClientTheory.v ===== *)
(** * What a client of the database gets

  A server that starts with a cache reads what the database knows, and asks the database for
  the rest; the properties of an attribute that are put are those that are read, from the
  file that the next server reads. *)
From Stdlib Require Import Ascii.
From stdpp Require Import pretty.
From S2P Require Import Prelude StateExn CppString FileDb FileDbLex FileDbNames FileDbRound FileDbCmds FileDbCmdTheory FileDbWitness DbCache DbCacheTheory DbCacheReads DbClient.
Local Open Scope string_scope.
Local Open Scope list_scope.
Local Open Scope Z_scope.

(** ** Decoding *)

Definition prop_datum (p : t_property) : DbDatum := mk_datum (p_name p) (p_value p).
(** What is read for a property that is asked. *)
Definition read_of (l : list t_property) (q : DbDatum) : DbDatum :=
  mk_datum (dt_name q) (from_option p_value [] (find_property l (dt_name q))).
(** What is read for an attribute that is asked. *)
Definition att_datums (a : t_attribute_property) : list DbDatum :=
  datum_number (attribute_name a) (length (ap_properties a)) :: (prop_datum <$> ap_properties a).
Definition read_att (l : list t_attribute_property) (q : DbDatum) : list DbDatum :=
  match find_attribute l (dt_name q) with Some a => att_datums a | None => [datum_number (dt_name q) 0] end.

Lemma find_property_valued l name p : valued l → find_property l name = Some p → p_value p ≠ [].
Proof. intros Hv [Hin _]%List.find_some. unfold valued in Hv. rewrite List.Forall_forall in Hv. by apply Hv. Qed.

Lemma decode_answers dev l qs pre : (dev = true → valued l) →
  decode dev (length qs) (pre ++ ((dt_name <$> qs) ≫= prop_answer dev l)) (Z.of_nat (length pre)) qs = Ok (read_of l <$> qs).
Proof.
  intros Hv. revert pre. induction qs as [|q qs IH]; intros pre; [done|]. rewrite !fmap_cons, bind_cons. cbn [length].
  assert (∃ vs fill, prop_answer dev l (dt_name q) = dt_name q :: to_corba_string (length vs) :: vs ++ fill ∧
    length fill = (if dev && (length vs =? 0)%nat then 1 else 0)%nat ∧ read_of l q = mk_datum (dt_name q) vs) as (vs & fill & -> & Hf & ->).
  { unfold prop_answer, read_of. destruct (find_property l (dt_name q)) as [p|] eqn:Ef.
    - exists (p_value p), []. rewrite app_nil_r. split; [done|]. split; [|done]. destruct dev; [|done].
      pose proof (find_property_valued _ _ _ (Hv eq_refl) Ef). by destruct (p_value p).
    - exists [], (if dev then [" "] else []). by destruct dev. }
  by rewrite decode_step, IH, bind_Ok.
Qed.
Lemma decode_answer_run {St} dev l name qs (st : St) : (dev = true → valued l) →
  decode_answer dev (prop_answers name (dt_name <$> qs) dev l) qs st = Some (st, inr (read_of l <$> qs)).
Proof.
  intros Hv. unfold decode_answer, prop_answers. erewrite run_bind by (by apply run_ok).
  unfold count. rewrite stream_int_corba, length_fmap, Nat2Z.id. apply run_ok.
  exact (decode_answers dev l qs [name; to_corba_string (length qs)] Hv).
Qed.

Lemma decode_att_props_at l pre post : valued l →
  decode_att_props (length l) (pre ++ (l ≫= prop_text) ++ post) (Z.of_nat (length pre)) =
    Ok (prop_datum <$> l, Z.of_nat (length (pre ++ (l ≫= prop_text)))).
Proof.
  intros Hv. revert pre. induction Hv as [|p l Hp Hv IH]; intros pre; [by rewrite app_nil_r|]. rewrite bind_cons, <-app_assoc.
  cbn [length decode_att_props].
  destruct (record_at pre (p_name p) (count (p_value p)) (p_value p) ((l ≫= prop_text) ++ post)) as (H1 & H2 & H3).
  change (pre ++ p_name p :: count (p_value p) :: p_value p ++ (l ≫= prop_text) ++ post) with (pre ++ prop_text p ++ (l ≫= prop_text) ++ post) in H1, H2, H3.
  rewrite H1, bind_Ok, H2, bind_Ok. unfold count. rewrite stream_int_corba, (proj2 (Z.ltb_ge _ _)), Nat2Z.id, H3, bind_Ok by lia.
  rewrite (proj2 (Z.eqb_neq _ _)) by (destruct (p_value p); [done|simpl; lia]).
  replace (Z.of_nat (length pre) + 2 + Z.of_nat (length (p_value p))) with (Z.of_nat (length (pre ++ prop_text p)))
    by (rewrite length_app, values_length; lia).
  rewrite app_assoc, IH, bind_Ok. cbn [fst snd]. by rewrite app_assoc.
Qed.

(** The attributes of an answer that can be decoded. *)
Definition decodable (max : Z) (a : t_attribute_property) : Prop :=
  valued (ap_properties a) ∧ Z.of_nat (length (ap_properties a)) < max.
Lemma props_number_count {A} max (l : list A) : Z.of_nat (length l) < max → props_number max (count l) = Ok (length l).
Proof.
  intros H. unfold props_number, count. rewrite stream_int_corba, (proj2 (Z.leb_le _ _)), (proj2 (Z.ltb_lt _ _)), Nat2Z.id by lia. done.
Qed.
Lemma decode_atts_at max l qs pre : 0 < max → Forall (decodable max) l →
  decode_atts max (length qs) (pre ++ ((dt_name <$> qs) ≫= att_answer l)) (Z.of_nat (length pre)) = Ok (qs ≫= read_att l).
Proof.
  intros Hmax Hl. revert pre. induction qs as [|q qs IH]; intros pre; [done|]. rewrite fmap_cons, !bind_cons. cbn [length decode_atts].
  assert (∃ name ps, att_answer l (dt_name q) = name :: count ps :: (ps ≫= prop_text) ∧ valued ps ∧ Z.of_nat (length ps) < max ∧
    read_att l q = datum_number name (length ps) :: (prop_datum <$> ps)) as (name & ps & -> & Hv & Hn & ->).
  { unfold att_answer, read_att. destruct (find_attribute l (dt_name q)) as [a|] eqn:E; [|exists (dt_name q), []; by repeat split; [constructor|]].
    apply List.find_some in E as [Hin _]. rewrite List.Forall_forall in Hl. destruct (Hl a Hin) as [Hv Hn].
    by exists (attribute_name a), (ap_properties a). }
  replace (vget _ (Z.of_nat (length pre))) with (Ok name : outcome string) by (symmetry; by apply vget_at). rewrite bind_Ok.
  set (rest := _ ≫= att_answer l).
  replace (vget _ (Z.of_nat (length pre) + 1)) with (Ok (count ps) : outcome string)
    by (symmetry; cbn [app]; rewrite cons_middle, app_assoc; apply vget_at; rewrite length_app; simpl; lia).
  rewrite bind_Ok, props_number_count, bind_Ok by done. rewrite part_at.
  replace (Z.of_nat (length pre) + 2) with (Z.of_nat (length (pre ++ [name; count ps]))) by (rewrite length_app; simpl; lia).
  rewrite decode_att_props_at, bind_Ok by done. cbn [fst snd]. unfold rest. rewrite app_assoc, IH, bind_Ok. done.
Qed.
Lemma decode_atts_answer_run {St} max l name qs (st : St) : 0 < max → Forall (decodable max) l →
  decode_atts_answer max (att_answers name (dt_name <$> qs) l) st = Some (st, inr (qs ≫= read_att l)).
Proof.
  intros Hmax Hl. unfold decode_atts_answer, att_answers. erewrite run_bind by (by apply run_ok).
  unfold count. rewrite stream_int_corba, length_fmap, Nat2Z.id. apply run_ok.
  exact (decode_atts_at max l qs [name; to_corba_string (length qs)] Hmax Hl).
Qed.

(** ** A server that starts *)

(** C19: a server that starts reads from the cache what the database knows: for its devices and its classes the values of
    the properties that are asked, for its attributes all their properties; for a device that is not of this server it asks the database. *)
Theorem start_up_reads {St} (command : string → DevVarStringArray → SM St DevVarStringArray) s c asked (st : St) :
  good_data s → new_DbServerCache (layout s) = Ok c →
  (∀ dev, is_dserver dev = false → match device_of s dev with
    | Some d => valued (dd_props d) → get_device_property command dev asked (Some c) st = Some (st, inr (read_of (dd_props d) <$> asked))
    | None => get_device_property command dev asked (Some c) = get_device_property command dev asked None
    end) ∧
  (∀ cls, same_text cls "DServer" = false → same_text cls "Default" = false → match class_of s cls with
    | Some cd => get_class_property command cls asked (Some c) st = Some (st, inr (read_of (cd_props cd) <$> asked))
    | None => get_class_property command cls asked (Some c) = get_class_property command cls asked None
    end) ∧
  (∀ dev d, device_of s dev = Some d → Forall (decodable (2 ^ 16)) (dd_atts d) →
    get_device_attribute_property command dev asked (Some c) st = Some (st, inr (asked ≫= read_att (dd_atts d)))) ∧
  (∀ cls cd, class_of s cls = Some cd → Forall (decodable (2 ^ 15)) (cd_atts cd) →
    get_class_attribute_property command cls asked (Some c) st = Some (st, inr (asked ≫= read_att (cd_atts cd)))).
Proof.
  intros Hg Hc. rewrite new_cache_at in Hc by done. injection Hc as <-. split; [|split; [|split]].
  - intros dev Hdev. pose proof (dev_property_answer s dev (dt_name <$> asked)) as Ha. rewrite Hdev in Ha.
    unfold get_device_property, names_of. cbn [fmap option_fmap option_map]. rewrite Ha. destruct (device_of s dev) as [d|]; [|done].
    intros Hv. erewrite run_bind by done. by apply decode_answer_run.
  - intros cls H1 H2. pose proof (class_property_answer s cls (dt_name <$> asked)) as Ha. rewrite H1, H2 in Ha.
    unfold get_class_property, names_of. cbn [fmap option_fmap option_map]. rewrite Ha. destruct (class_of s cls) as [cd|]; [|done].
    erewrite run_bind by done. by apply decode_answer_run.
  - intros dev d Hd Hv. pose proof (dev_att_answer s dev (dt_name <$> asked) Hg) as Ha. rewrite Hd in Ha.
    unfold get_device_attribute_property, names_of. cbn [fmap option_fmap option_map]. rewrite Ha. erewrite run_bind by done. by apply decode_atts_answer_run.
  - intros cls cd Hcd Hv. pose proof (class_att_answer s cls (dt_name <$> asked) Hg) as Ha. rewrite Hcd in Ha.
    unfold get_class_attribute_property, names_of. cbn [fmap option_fmap option_map]. rewrite Ha. erewrite run_bind by done. by apply decode_atts_answer_run.
Qed.

(** ** The properties of an attribute through the file *)

Lemma encode_one_att attr items : Z.of_nat (length items) < 2 ^ 15 → items ≠ [] →
  encode_atts (length (datum_number attr (length items) :: items)) (datum_number attr (length items) :: items) =
    Ok (attr :: to_corba_string (length items) :: encode items, 1%nat).
Proof.
  intros Hn Hne. cbn [length encode_atts]. unfold extract_short. cbn [datum_number value_string]. rewrite stream_int_corba.
  rewrite Z.min_r, Z.max_r, Nat2Z.id, (proj2 (Nat.ltb_ge _ _)), (proj2 (Z.ltb_ge _ _)) by lia. cbn [orb].
  rewrite drop_all, firstn_all. assert (∀ n, encode_atts n [] = Ok ([], 0%nat)) as -> by (intros n; by destruct n).
  rewrite bind_Ok. cbn [fst snd dt_name]. by rewrite app_nil_r.
Qed.

Lemma find_name_none_tolower {A} (name_of : A → string) n l : n ≠ "" → find_name name_of n l = None → tolower n ∉ tolower <$> (name_of <$> l).
Proof.
  intros Hn H Hin. rewrite <-list_fmap_compose in Hin. apply list_elem_of_fmap in Hin as (x & Hx & Hin). unfold compose in Hx.
  induction l as [|y l IH]; [by apply elem_of_nil in Hin|]. cbn [find_name] in H. destruct (equalsIgnoreCase (name_of y) n) eqn:E; [done|].
  apply elem_of_cons in Hin as [->|Hin]; [|apply IH; [by destruct (find_name name_of n l)|done]].
  apply not_true_iff_false in E. apply E, equalsIgnoreCase_spec. split; [|done]. intros Hz. rewrite Hz in Hx. by destruct n.
Qed.

(** The properties of an attribute after a put. *)
Definition props_of_att (attr : string) (aps : list t_attribute_property) : list t_property :=
  from_option (ap_properties ∘ snd) [] (find_name attribute_name attr aps).
Lemma put_all_length items l : (length l <= length (put_all items l))%nat.
Proof.
  revert l. induction items as [|x items IH]; intros l; [done|]. etrans; [|apply IH]. unfold put_prop.
  destruct (find_name p_name (dt_name x) l) as [[j q]|]; [unfold set_value; by rewrite length_alter|rewrite length_app; lia].
Qed.
Lemma put_all_ne items l : items ≠ [] ∨ l ≠ [] → put_all items l ≠ [].
Proof.
  intros H Hz. assert (length (put_all items l) = 0%nat) as Hlen by (by rewrite Hz). destruct items as [|x items].
  - destruct H as [H|H]; [done|by destruct l].
  - rewrite put_all_cons in Hlen. pose proof (put_all_length items (put_prop (dt_name x) (value_string x) l)) as Hle.
    rewrite Hlen in Hle. destruct l as [|p l]; [simpl in Hle; lia|]. rewrite put_prop_cons in Hle. destruct (equalsIgnoreCase _ _); simpl in Hle; lia.
Qed.
Lemma good_put_attr attr items aps : good_name attr = true → items ≠ [] → Forall good_item items → good_attrs aps →
  good_attrs (put_attr attr items aps).
Proof.
  intros Hn Hne Hi [Hg Hd]. unfold put_attr. destruct (find_name attribute_name attr aps) as [[k ap]|] eqn:E.
  - apply find_name_Some in E as [Hk _]. pose proof Hg as Hg2. rewrite Forall_lookup in Hg2. destruct (Hg2 k ap Hk) as (H1 & H2 & H3).
    split.
    + apply Forall_insert; [done|]. split; [done|]. split; [apply put_all_ne; by right|by apply good_put_all].
    + rewrite list_fmap_insert. cbn [attribute_name]. rewrite list_insert_id; [done|]. by rewrite list_lookup_fmap, Hk.
  - split.
    + apply Forall_app_2; [done|]. constructor; [|constructor]. split; [done|]. split; [apply put_all_ne; by left|by apply good_put_all].
    + unfold distinct in *. rewrite !fmap_app. apply NoDup_app. split; [done|]. split; [|apply NoDup_singleton].
      intros m Hm Hin. apply list_elem_of_singleton in Hin as ->. revert Hm. apply find_name_none_tolower; [by apply good_name_ne|done].
Qed.

Definition with_atts (dv : t_device) (aps : list t_attribute_property) : t_device := mk_device (d_name dv) (d_properties dv) aps.
Lemma good_alter_atts s id dv aps : good_server s → heap s !! id = Some dv → good_attrs aps →
  good_server (alter_device id (λ _, with_atts dv aps) s).
Proof.
  intros [H1 H2 H3 H4 [H5 H5'] H6] Hdev Ha. constructor; [done|done|done| | |done]; simpl; [by rewrite length_alter|]. split.
  - rewrite <-list_insert_alter. apply Forall_insert; [done|]. rewrite Forall_lookup in H5. by destruct (H5 id dv Hdev) as (? & ? & ?).
  - rewrite <-list_insert_alter, list_fmap_insert. cbn [d_name with_atts]. rewrite list_insert_id; [done|]. by rewrite list_lookup_fmap, Hdev.
Qed.
Lemma alter_atts id (dv : t_device) aps s : heap s !! id = Some dv →
  alter_device id (on_dev_attrs (λ _, aps)) s = alter_device id (λ _, with_atts dv aps) s.
Proof.
  intros Hdev. unfold alter_device. f_equal. apply list_eq. intros i. rewrite !list_lookup_alter. destruct (decide (id = i)) as [<-|]; [|done].
  by rewrite Hdev.
Qed.

Lemma put_att_run dev attr items d id dv text : dev_at (m_server d) dev id dv → items ≠ [] →
  Forall small items → Forall (λ x, dt_name x ≠ "") items → Z.of_nat (length items) < 2 ^ 15 →
  Forall (λ ap, distinct (p_name <$> ap_properties ap)) (d_attribute_properties dv) →
  let s := alter_device id (λ _, with_atts dv (put_attr attr items (d_attribute_properties dv))) (m_server d) in
  print_server s = Ok text →
  put_device_attribute_property file_command dev (datum_number attr (length items) :: items) d = Some (set_file text (set_server s d), inr ()).
Proof.
  intros [Hs Hdev] Hne Hsm Hnm Hn Hd s Ht. unfold put_device_attribute_property, put_attribute_property.
  erewrite run_bind by (apply run_ok; by apply encode_one_att). cbn [fst snd]. change (to_corba_string 1) with "1".
  change (file_command "DbPutDeviceAttributeProperty2") with (λ l, no_answer (DbPutDeviceAttributeProperty l)).
  assert (DbPutDeviceAttributeProperty (dev :: "1" :: attr :: to_corba_string (length items) :: encode items) d =
    Some (set_file text (set_server s d), inr ())) as Hput.
  { unfold DbPutDeviceAttributeProperty. do 2 (erewrite run_bind by done). erewrite run_bind by (by apply run_ok). cbv beta iota.
    erewrite run_bind.
    2:{ erewrite run_bind by done. erewrite run_bind by (apply run_ok; unfold dev_of; by rewrite Hdev).
        change (Z.to_nat (scan_u "1" 0)) with 1%nat.
        erewrite run_bind by (apply run_ok; apply (put_one_attribute dev attr items); [done|done|lia|done]). reflexivity. }
    unfold write_file. erewrite run_bind by done. unfold on_server. cbn [m_server set_server].
    rewrite (alter_atts _ _ _ _ Hdev). erewrite run_bind by (by apply run_ok). done. }
  unfold no_answer. erewrite run_bind; [done|]. erewrite run_bind by exact Hput. done.
Qed.

Lemma get_attr_loop_other attr aps out : tolower attr ∉ tolower <$> (attribute_name <$> aps) → get_attr_loop aps attr out = out.
Proof.
  revert out. induction aps as [|ap aps IH]; intros out H; [done|]. cbn [get_attr_loop fmap list_fmap] in *.
  apply not_elem_of_cons in H as [H1 H2]. rewrite equalsIgnoreCase_ne by done. by apply IH.
Qed.
Lemma get_attr_loop_found attr aps k ap out : distinct (attribute_name <$> aps) → find_name attribute_name attr aps = Some (k, ap) →
  get_attr_loop aps attr out = put_props out (ap_properties ap).
Proof.
  revert k out. induction aps as [|x aps IH]; intros k out Hd Hf; [done|]. unfold distinct in Hd. cbn [fmap list_fmap] in Hd.
  apply NoDup_cons in Hd as [Hx Hd]. cbn [find_name get_attr_loop] in *. destruct (equalsIgnoreCase (attribute_name x) attr) eqn:E.
  - injection Hf as _ <-. apply get_attr_loop_other. apply equalsIgnoreCase_spec in E as [_ <-]. exact Hx.
  - destruct (find_name attribute_name attr aps) as [[j y]|]; [|done]. injection Hf as _ <-. by apply (IH j).
Qed.

Lemma get_att_run dev attr d id dv k ap : dev_at (m_server d) dev id dv → distinct (attribute_name <$> d_attribute_properties dv) →
  find_name attribute_name attr (d_attribute_properties dv) = Some (k, ap) → decodable (2 ^ 16) ap →
  get_device_attribute_property file_command dev [mk_datum attr []] None d =
    Some (d, inr (datum_number attr (length (ap_properties ap)) :: (prop_datum <$> ap_properties ap))).
Proof.
  intros [Hs Hdev] Hd Hf Hdec. unfold get_device_attribute_property, ask, names_of. cbn [fmap option_fmap option_map list_fmap dt_name].
  change (file_command "DbGetDeviceAttributeProperty2") with DbGetDeviceAttributeProperty.
  erewrite run_bind.
  2:{ unfold DbGetDeviceAttributeProperty. do 2 (erewrite run_bind by done). erewrite run_bind by (by apply run_ok). cbv beta iota.
      erewrite run_bind by (apply run_ok; unfold dev_of; by rewrite Hdev). cbn [tail get_attrs_loop].
      rewrite (get_attr_loop_found _ _ _ _ _ Hd Hf). reflexivity. }
  assert (put_props ([dev; to_corba_string (length [dev; attr] - 1)] ++ [attr; "0"]) (ap_properties ap) =
    att_answers dev (dt_name <$> [mk_datum attr []]) [mk_attribute_property attr (ap_properties ap)]) as ->.
  { unfold att_answers, att_answer, find_attribute. cbn [fmap list_fmap mbind list_bind List.find attribute_name dt_name].
    unfold same_text. rewrite String.eqb_refl, app_nil_r. done. }
  rewrite (decode_atts_answer_run (2 ^ 16)); [|lia|by constructor]. unfold read_att, find_attribute.
  cbn [mbind list_bind List.find attribute_name dt_name]. unfold same_text. rewrite String.eqb_refl. unfold att_datums. cbn. by rewrite app_nil_r.
Qed.

(** C20: the properties of an attribute of a device that are put are those that a client reads
    after a new start of the server on the file: the properties of the request have their last
    values there, the others those they had. The data and the properties given are among those
    that [file_round_trip] keeps ([good_server], [good_item]): among others no value is empty or
    has a backslash, or has a comma unless it is written between quotes (see [values_not_kept]).
    The name of the attribute is a word, the device is known, and the properties are at least
    one and less than 2^15 in the request, and less than 2^16 in the answer. *)
Theorem attribute_property_kept fn dev attr items d d0 id dv :
  good_server (m_server d) → dev_at (m_server d) dev id dv →
  Forall (λ ap, distinct (p_name <$> ap_properties ap)) (d_attribute_properties dv) →
  good_name attr = true → items ≠ [] → Forall good_item items →
  let ps := put_all items (props_of_att attr (d_attribute_properties dv)) in
  Z.of_nat (length items) < 2 ^ 15 → Z.of_nat (length ps) < 2 ^ 16 →
  ∃ d1 d2, put_device_attribute_property file_command dev (datum_number attr (length items) :: items) d = Some (d1, inr ()) ∧
    new_FileDatabase fn (file d1) d0 = Some (d2, inr ()) ∧
    get_device_attribute_property file_command dev [mk_datum attr []] None d2 =
      Some (d2, inr (datum_number attr (length ps) :: (prop_datum <$> ps))).
Proof.
  intros Hs Hat Hdist Hattr Hne Hitems ps Hn Hps. pose proof Hs as [_ _ _ _ [Hgd _] _].
  assert (good_attrs (d_attribute_properties dv)) as Hga by (rewrite Forall_lookup in Hgd; by destruct (Hgd id dv (proj2 Hat)) as (_ & _ & ?)).
  pose proof (good_put_attr attr items _ Hattr Hne Hitems Hga) as Hga'.
  pose proof (good_alter_atts _ id dv _ Hs (proj2 Hat) Hga') as Hs'.
  destruct (written_and_read _ Hs') as (text & Ht & Hread). destruct (Hread fn d0) as (d2 & Hd2 & Hm).
  assert (Forall (λ x, dt_name x ≠ "") items) as Hnames
    by (eapply Forall_impl; [exact Hitems|]; intros x (_ & Hx & _); by apply good_name_ne).
  assert (∃ k ap, find_name attribute_name attr (put_attr attr items (d_attribute_properties dv)) = Some (k, ap) ∧ ap_properties ap = ps) as (k & ap & Hf & Hap).
  { destruct Hga' as [_ Hd']. unfold ps, props_of_att. unfold put_attr in *.
    destruct (find_name attribute_name attr (d_attribute_properties dv)) as [[k ap]|] eqn:E.
    - pose proof (find_name_Some _ _ _ _ _ E) as [Hk Heq]. exists k, (mk_attribute_property (attribute_name ap) (put_all items (ap_properties ap))). split; [|done].
      apply find_name_match; [done|apply list_lookup_insert_eq; by eapply lookup_lt_Some|done].
    - exists (length (d_attribute_properties dv)), (mk_attribute_property attr (put_all items [])). split; [apply find_name_match;
        [done|by apply list_lookup_middle|apply equalsIgnoreCase_refl; by apply good_name_ne]|done]. }
  exists (set_file text (set_server (alter_device id (λ _, with_atts dv (put_attr attr items (d_attribute_properties dv))) (m_server d)) d)), d2.
  split; [apply put_att_run; [done|done|by eapply Forall_impl; [exact Hitems|intros x []]|done..]|]. split; [exact Hd2|].
  rewrite <-Hap. apply (get_att_run _ _ _ id (with_atts dv (put_attr attr items (d_attribute_properties dv))) k).
  - rewrite Hm. by apply (dev_at_alter _ _ _ dv).
  - apply Hga'.
  - done.
  - split; [|by rewrite Hap]. apply find_name_Some in Hf as [Hk _]. destruct Hga' as [Hga' _]. rewrite Forall_lookup in Hga'.
    destruct (Hga' k ap Hk) as (_ & _ & Hgp). eapply Forall_impl; [exact Hgp|]. by intros p (_ & ? & _).
Qed.

(** ** The cache and the client of the database on examples *)
Local Open Scope string_scope.
Local Open Scope list_scope.
Local Open Scope Z_scope.

(** ** A server in the database *)

Definition prop_p : t_property := mk_property "p" ["1"; "2"].
Definition att_a : t_attribute_property := mk_attribute_property "a" [mk_property "abs_change" ["5"]].
Definition dev_1 : dev_data := mk_dev_data "sys/tg_test/1" [prop_p] [att_a] [].
Definition dev_2 : dev_data := mk_dev_data "sys/tg_test/2" [] [] [].
Definition a_data : server_data := mk_server_data (Some ("release 1.10", 110))
  ["dserver/test/1"; "ior"; "4"; "host"; "server"; "1"; "DServer"; "1234"]
  ["notifd/factory/host"; "Not Found"] ["dserver/test/1"; "ior"; "4"; "host"; "1"; "1234"]
  [] [mk_property "q" ["3"]] "dserver/test/1" [mk_property "polling_threads_pool_size" ["2"]] "test/1"
  [mk_class_data "TangoTest" [prop_p] [att_a] [] [dev_1; dev_2]] "CtrlSystem" [mk_property "EventTopic" ["x"]] [].

Lemma a_data_good : good_data a_data.
Proof.
  constructor; cbn [sd_release sd_admin sd_notifd sd_event a_data].
  - by vm_compute.
  - done.
  - left. by exists "notifd/factory/host".
  - right. by repeat eexists.
  - unfold fits. vm_compute. done.
Qed.
Definition a_cache : DbServerCache := cache_of a_data.

Lemma cache_answers_witness : ∃ c, new_DbServerCache (layout a_data) = Ok c ∧
  get_dev_property c ["SYS/tg_test/1"; "P"; "none"] = Ok ["SYS/tg_test/1"; "2"; "P"; "2"; "1"; "2"; "none"; "0"; " "] ∧
  get_dev_list c ["test/1"; "tangotest"] = Ok ["sys/tg_test/1"; "sys/tg_test/2"].
Proof.
  destruct (cache_answers a_data a_data_good) as (c & Hc & Hq & Hl & _). exists c. split; [exact Hc|]. split.
  - destruct (Hq "SYS/tg_test/1" ["P"; "none"]) as (_ & Hd & _). rewrite Hd. vm_compute. reflexivity.
  - rewrite Hl. vm_compute. reflexivity.
Defined.

(** A database that answers nothing. *)
Definition no_command (name : string) (l : DevVarStringArray) : SM unit DevVarStringArray := mret [].
Lemma start_up_reads_witness :
  DbClient.get_device_property no_command "sys/tg_test/1" [mk_datum "P" []] (Some a_cache) tt = Some (tt, inr [mk_datum "P" ["1"; "2"]]) ∧
  get_device_attribute_property no_command "sys/tg_test/1" [mk_datum "A" []; mk_datum "b" []] (Some a_cache) tt =
    Some (tt, inr [mk_datum "a" ["1"]; mk_datum "abs_change" ["5"]; mk_datum "b" ["0"]]).
Proof.
  assert (new_DbServerCache (layout a_data) = Ok a_cache) as Hc by (apply new_cache_at, a_data_good). split.
  - destruct (start_up_reads no_command a_data a_cache [mk_datum "P" []] tt a_data_good Hc) as (Hd & _).
    refine (Hd "sys/tg_test/1" eq_refl _). constructor; [discriminate|constructor].
  - destruct (start_up_reads no_command a_data a_cache [mk_datum "A" []; mk_datum "b" []] tt a_data_good Hc) as (_ & _ & Ha & _).
    refine (Ha "sys/tg_test/1" dev_1 eq_refl _). constructor; [|constructor]. split; [constructor; [discriminate|constructor]|reflexivity].
Defined.

Lemma attribute_property_kept_witness : ∃ d1 d2,
  put_device_attribute_property file_command "sys/tg_test/1" [datum_number "Double_scalar" 1; a_item] a_file = Some (d1, inr ()) ∧
  new_FileDatabase "db" (file d1) a_file = Some (d2, inr ()) ∧
  get_device_attribute_property file_command "sys/tg_test/1" [mk_datum "Double_scalar" []] None d2 =
    Some (d2, inr [datum_number "Double_scalar" 2; mk_datum "abs_change" ["-1"; "1"]; a_item]).
Proof.
  apply (attribute_property_kept "db" "sys/tg_test/1" "Double_scalar" [a_item] a_file a_file 0%nat a_device).
  - exact a_server_good.
  - split; reflexivity.
  - constructor; [|constructor]. apply a_distinct. reflexivity.
  - reflexivity.
  - discriminate.
  - constructor; [exact a_item_good|constructor].
  - reflexivity.
  - reflexivity.
Defined.

(** ** What the theorems leave out *)

(** A server that the database does not know: the members that the requests need are not initialised. *)
Example unknown_server : ∃ c, new_DbServerCache ["release 1.10"; "dserver/test/1"; "Not Found"] = Ok c ∧
  import_adm_dev c = cache_throw "aaa" "bbb" ∧
  get_dev_property c ["dserver/test/1"; "p"] = no_device "dserver/test/1" ∧
  get_dev_property c ["sys/tg_test/1"; "p"] = Undef ∧ DbCache.get_class_property c ["DServer"; "p"] = Undef ∧
  get_device_property_list c ["dserver/test/1"; "*"] = Undef.
Proof. eexists. split; [vm_compute; reflexivity|]. vm_compute. done. Qed.

(** With a release before 1.9 the code forgets that the first text is the release: it does not see that the admin device is
    not there, and reads past the end of the list. *)
Example old_release_unknown : ∃ c, new_DbServerCache ["release 1.8"; "dserver/test/1"; "Not Found"] = Ok c ∧ import_adm_dev c = Undef.
Proof. eexists. split; [vm_compute; reflexivity|]. vm_compute. done. Qed.

(** The process of the event of the server is read in the data of the event factory: here a text that is no number,
    instead of 1234. *)
Example event_of_other : import_adm_event a_cache = Ok ([1; 0], ["dserver/test/1"; "ior"; "4"; "host"; ""]).
Proof. vm_compute. done. Qed.

(** A property of an attribute without value: the client skips a text that the cache does not send, and reads the next
    property at the wrong place. *)
Definition att_b : t_attribute_property := mk_attribute_property "b" [mk_property "x" []; mk_property "y" ["1"; "7"]].
Example cache_no_value : decode_atts_answer (St := unit) (2 ^ 16) (att_answers "d" ["b"] [att_b]) tt =
  Some (tt, inr [mk_datum "b" ["2"]; mk_datum "x" []; mk_datum "2" ["7"]]).
Proof. vm_compute. done. Qed.

(** What is before the star and what is after it may overlap in a name. *)
Example wildcard_overlap : store (wildcard_of "poll*olled") "polled" = true.
Proof. vm_compute. done. Qed.

(** An object that the cache does not know: the client asks for the properties of a device of that name. *)
Example object_as_device asked st : DbClient.get_property no_command "Other" asked (Some a_cache) st =
  (answer ← no_command "DbGetDeviceProperty" (names_of "Other" asked); decode_answer true answer asked) st.
Proof.
  unfold DbClient.get_property, ask, names_of. cbn [fmap option_fmap option_map]. unfold a_cache. by rewrite obj_property_answer.
Qed.
