(* ===== verification/ClientExn.v ===== *)
(** * Exceptions of the client library (src/src/include/tango/client/apiexcept.h, src/src/server/except.cpp)

  The classes derived from [Tango::DevFailed], the CORBA exceptions that the code catches
  and the functions that throw.  A handler catches an exception by its class; throwing a
  caught reference again ([throw ex]) throws its static class. *)
From Stdlib Require Import Ascii.
From S2P Require Import Prelude StateExn CppString.
Local Open Scope string_scope.
Local Open Scope list_scope.
Local Open Scope Z_scope.

(** ** CORBA system exceptions *)

Inductive SysClass :=
  | SYS_UNKNOWN | BAD_PARAM | NO_MEMORY | IMP_LIMIT | COMM_FAILURE | INV_OBJREF | NO_PERMISSION | INTERNAL | MARSHAL
  | INITIALIZE | NO_IMPLEMENT | BAD_TYPECODE | BAD_OPERATION | NO_RESOURCES | NO_RESPONSE | BAD_INV_ORDER
  | TRANSIENT | OBJ_ADAPTER | OBJECT_NOT_EXIST | INV_POLICY | SYS_OTHER.
#[export] Instance SysClass_eq : EqDecision SysClass.
Proof. solve_decision. Defined.

(** An exception, with the name omniORB gives to its minor code, if it has one. *)
Record SystemException := mkSys { sys_class : SysClass; minor : Z; minor_string : option string }.
#[export] Instance SystemException_eq : EqDecision SystemException.
Proof. solve_decision. Defined.

(** The minor codes of omniORB that the code compares with. *)
Class OmniMinors := {
  TRANSIENT_ConnectFailed : Z;
  TRANSIENT_CallTimedout : Z;
  OBJECT_NOT_EXIST_NoMatch : Z;
  COMM_FAILURE_WaitingForReply : Z;
}.

(** [std::hex << n], for a [CORBA::ULong]. *)
Definition hex_digit (d : Z) : ascii :=
  ascii_of_nat (Z.to_nat (if d <? 10 then 48 + d else 87 + d)).
Fixpoint hex_digits (k : nat) (n : Z) (acc : string) : string :=
  match k with
  | O => acc
  | S k => let acc := String (hex_digit (n mod 16)) acc in if n <? 16 then acc else hex_digits k (n / 16) acc
  end.
Definition hex (n : Z) : string := hex_digits 8 (n mod 2 ^ 32) "".

Definition sys_name (c : SysClass) : string :=
  match c with
  | SYS_UNKNOWN => "UNKNOWN" | BAD_PARAM => "BAD_PARAM" | NO_MEMORY => "NO_MEMORY" | IMP_LIMIT => "IMP_LIMIT"
  | COMM_FAILURE => "COMM_FAILURE" | INV_OBJREF => "INV_OBJREF" | NO_PERMISSION => "NO_PERMISSION" | INTERNAL => "INTERNAL"
  | MARSHAL => "MARSHAL" | INITIALIZE => "INITIALIZE" | NO_IMPLEMENT => "NO_IMPLEMENT" | BAD_TYPECODE => "BAD_TYPECODE"
  | BAD_OPERATION => "BAD_OPERATION" | NO_RESOURCES => "NO_RESOURCES" | NO_RESPONSE => "NO_RESPONSE"
  | BAD_INV_ORDER => "BAD_INV_ORDER" | TRANSIENT => "TRANSIENT" | OBJ_ADAPTER => "OBJ_ADAPTER"
  | OBJECT_NOT_EXIST => "OBJECT_NOT_EXIST" | INV_POLICY => "INV_POLICY" | SYS_OTHER => ""
  end.
(** [Except::print_CORBA_SystemException_r]; the text fits in its buffer of 256 bytes. *)
Definition print_CORBA_SystemException_r (e : SystemException) : string :=
  match sys_class e with
  | SYS_UNKNOWN => "UNKNOWN CORBA system exception"
  | SYS_OTHER => "CORBA unknown system exception !!!!!!!!"
  | c =>
      sys_name c +:+ " CORBA system exception: " +:+
      match minor_string e with
      | Some s => s
      | None =>
          if bool_decide (c ∈ [IMP_LIMIT; COMM_FAILURE; TRANSIENT]) then "Unknown minor code: " +:+ hex (minor e)
          else "ORB has returned NULL pointer !"
      end
  end.

(** ** The exceptions a method of the client throws *)

(** The classes [MAKE_EXCEPT] defines, and [DevFailed] itself. *)
Inductive ExcClass :=
  | PlainDevFailed | ConnectionFailed | CommunicationFailed | WrongNameSyntax | NonDbDevice | WrongData
  | NonSupportedFeature | AsynCall | AsynReplyNotArrived | EventSystemFailed | DeviceUnlocked | NotAllowed.
#[export] Instance ExcClass_eq : EqDecision ExcClass.
Proof. solve_decision. Defined.

(** [NamedDevError] of the IDL and [NamedDevFailed] of the client: the same members. *)
Record NamedDevFailed := mkNamed { nd_name : string; idx_in_call : Z; err_stack : DevErrorList }.
#[export] Instance NamedDevFailed_eq : EqDecision NamedDevFailed.
Proof. solve_decision. Defined.

Inductive cexn :=
  | TErr (c : ExcClass) (errors : DevErrorList)
  | NamedDevFailedList (err_list : list NamedDevFailed) (errors : DevErrorList)
  | MultiDevFailed (errors : list NamedDevFailed)
  | Sys (e : SystemException)
  | StdErr (name : string).
#[export] Instance cexn_eq : EqDecision cexn.
Proof. solve_decision. Defined.

(** What [catch(Tango::DevFailed &)] catches: the errors of the exception. *)
Definition dev_failed (e : cexn) : option DevErrorList :=
  match e with TErr _ l => Some l | NamedDevFailedList _ l => Some l | _ => None end.

(** [E::throw_exception] ([TANGO_THROW_DETAILED_EXCEPTION]). *)
Definition api_error (c : ExcClass) (reason desc origin : string) : cexn := TErr c [mkDevError reason ERR desc origin].
(** [E::re_throw_exception] of a CORBA exception, given by its text. *)
Definition from_corba (c : ExcClass) (text reason desc origin : string) : cexn :=
  TErr c [mkDevError "API_CorbaException" ERR text origin; mkDevError reason ERR desc origin].
(** [E::re_throw_exception] of an [E], and of a [DevFailed] ([TANGO_RETHROW_EXCEPTION] too). *)
Definition one_more (c : ExcClass) (l : DevErrorList) (reason desc origin : string) : cexn :=
  TErr c (l ++ [mkDevError reason ERR desc origin]).

(** The constructor of [NamedDevFailedList]. *)
Definition named_list (errs : list NamedDevFailed) (dev_name op_name reason : string) : cexn :=
  NamedDevFailedList errs
    [mkDevError reason ERR ("Failed to execute " +:+ op_name +:+ " on device " +:+ dev_name +:+ ", object(s) " +:+ String.concat ", " (nd_name <$> errs)) op_name].

(** ** Handlers *)

Section Handlers.
Context {S : Type}.
(** [try { m } catch(Tango::DevFailed &e) { h e }]. *)
Definition catch_dev_failed {A} (m : XM cexn S A) (h : DevErrorList → XM cexn S A) : XM cexn S A :=
  catch m (λ e, match dev_failed e with Some l => h l | None => throw_exn e end).
(** [try { m } catch(E &e) { h e }], for a class derived from [DevFailed]. *)
Definition catch_class {A} (c : ExcClass) (m : XM cexn S A) (h : DevErrorList → XM cexn S A) : XM cexn S A :=
  catch m (λ e, match e with TErr c' l => if bool_decide (c' = c) then h l else throw_exn e | _ => throw_exn e end).
End Handlers.
