(* ===== verification/DeviceAttr.v ===== *)
(** * The value of an attribute at the client (src/src/client/devapi_attr.cpp, api_util.cpp)

  [DeviceAttribute], what a client reads and writes: a head, and one sequence per type of
  element, of which one is normally there.  The insertions and the extractions are
  overloaded on the type of the data: a generic definition is given the member of the
  type ([AttributeDataType], as the union that travels), and DeviceAttrOps has the
  overloads.  The conversions from and to the IDL types are [ApiUtil]'s. *)
From stdpp Require Import gmap pretty.
From S2P Require Import Prelude StateExn CppString PollRing AttrHistory Number Attribute DevState WAttribute ClientExn.
Local Open Scope string_scope.
Local Open Scope list_scope.
Local Open Scope Z_scope.

(** ** Data *)

Inductive except_flags := isempty_flag | wrongtype_flag | failed_flag | unknown_format_flag.
#[export] Instance except_flags_eq : EqDecision except_flags.
Proof. solve_decision. Defined.
Definition flag_nat (f : except_flags) : nat :=
  match f with isempty_flag => 0 | wrongtype_flag => 1 | failed_flag => 2 | unknown_format_flag => 3 end.
#[export] Instance except_flags_countable : Countable except_flags.
Proof.
  refine (inj_countable flag_nat (λ n, match n with O => Some isempty_flag | 1%nat => Some wrongtype_flag | 2%nat => Some failed_flag | _ => Some unknown_format_flag end) _).
  by intros [].
Defined.

Definition all_types : list AttributeDataType :=
  [ATT_LONG; ATT_SHORT; ATT_DOUBLE; ATT_STRING; ATT_FLOAT; ATT_BOOL; ATT_USHORT; ATT_UCHAR; ATT_LONG64; ATT_ULONG; ATT_ULONG64; ATT_STATE; ATT_ENCODED; DEVICE_STATE; ATT_NO_DATA].
Definition type_nat (t : AttributeDataType) : nat :=
  match t with
  | ATT_LONG => 0 | ATT_SHORT => 1 | ATT_DOUBLE => 2 | ATT_STRING => 3 | ATT_FLOAT => 4 | ATT_BOOL => 5 | ATT_USHORT => 6 | ATT_UCHAR => 7
  | ATT_LONG64 => 8 | ATT_ULONG => 9 | ATT_ULONG64 => 10 | ATT_STATE => 11 | ATT_ENCODED => 12 | DEVICE_STATE => 13 | ATT_NO_DATA => 14
  end.
#[export] Instance AttributeDataType_countable : Countable AttributeDataType.
Proof. refine (inj_countable type_nat (λ n, all_types !! n) _). by intros []. Defined.

(** The types that have a sequence member, in the order of the tests of the code. *)
Definition seq_types : list AttributeDataType :=
  [ATT_LONG; ATT_SHORT; ATT_DOUBLE; ATT_STRING; ATT_FLOAT; ATT_BOOL; ATT_USHORT; ATT_UCHAR; ATT_LONG64; ATT_ULONG; ATT_ULONG64; ATT_STATE; ATT_ENCODED].
(** The data type of a member. *)
Definition cmd_arg_type (t : AttributeDataType) : CmdArgType :=
  match t with
  | ATT_LONG => DEV_LONG | ATT_SHORT => DEV_SHORT | ATT_DOUBLE => DEV_DOUBLE | ATT_STRING => DEV_STRING | ATT_FLOAT => DEV_FLOAT
  | ATT_BOOL => DEV_BOOLEAN | ATT_USHORT => DEV_USHORT | ATT_UCHAR => DEV_UCHAR | ATT_LONG64 => DEV_LONG64 | ATT_ULONG => DEV_ULONG
  | ATT_ULONG64 => DEV_ULONG64 | ATT_STATE => DEV_STATE | ATT_ENCODED => DEV_ENCODED | DEVICE_STATE => DEV_STATE | ATT_NO_DATA => DATA_TYPE_UNKNOWN
  end.

(** [da_time] is [None] as long as it is not initialised, [da_err_list] when the pointer is
    null, [seqs] has the members that are not null. *)
Record DeviceAttribute := mkDA {
  da_name : string;
  exceptions_flags : gset except_flags;
  da_dim_x : Z;
  da_dim_y : Z;
  da_w_dim_x : Z;
  da_w_dim_y : Z;
  da_quality : AttrQuality;
  da_format : AttrDataFormat;
  da_type : CmdArgType;
  da_time : option TimeVal;
  da_err_list : option DevErrorList;
  seqs : gmap AttributeDataType (list WElt);
  d_state : DevState;
  d_state_filled : bool;
  ext_state : gset except_flags;
}.
Implicit Types d : DeviceAttribute.
Implicit Types t : AttributeDataType.

Definition set_seqs m d : DeviceAttribute :=
  mkDA (da_name d) (exceptions_flags d) (da_dim_x d) (da_dim_y d) (da_w_dim_x d) (da_w_dim_y d) (da_quality d) (da_format d) (da_type d) (da_time d) (da_err_list d) m (d_state d) (d_state_filled d) (ext_state d).
Definition set_type ty d : DeviceAttribute :=
  mkDA (da_name d) (exceptions_flags d) (da_dim_x d) (da_dim_y d) (da_w_dim_x d) (da_w_dim_y d) (da_quality d) (da_format d) ty (da_time d) (da_err_list d) (seqs d) (d_state d) (d_state_filled d) (ext_state d).
Definition set_dims x y d : DeviceAttribute :=
  mkDA (da_name d) (exceptions_flags d) x y (da_w_dim_x d) (da_w_dim_y d) (da_quality d) (da_format d) (da_type d) (da_time d) (da_err_list d) (seqs d) (d_state d) (d_state_filled d) (ext_state d).
(** The members an insertion starts with. *)
Definition set_inserted x d : DeviceAttribute :=
  mkDA (da_name d) (exceptions_flags d) x 0 0 0 ATTR_VALID FMT_UNKNOWN (da_type d) (da_time d) (da_err_list d) (seqs d) (d_state d) (d_state_filled d) (ext_state d).
Definition set_d_state st d : DeviceAttribute :=
  mkDA (da_name d) (exceptions_flags d) (da_dim_x d) (da_dim_y d) (da_w_dim_x d) (da_w_dim_y d) (da_quality d) (da_format d) (da_type d) (da_time d) (da_err_list d) (seqs d) st true (ext_state d).
Definition set_ext e d : DeviceAttribute :=
  mkDA (da_name d) (exceptions_flags d) (da_dim_x d) (da_dim_y d) (da_w_dim_x d) (da_w_dim_y d) (da_quality d) (da_format d) (da_type d) (da_time d) (da_err_list d) (seqs d) (d_state d) (d_state_filled d) e.
Definition set_errs l d : DeviceAttribute :=
  mkDA (da_name d) (exceptions_flags d) (da_dim_x d) (da_dim_y d) (da_w_dim_x d) (da_w_dim_y d) (da_quality d) (da_format d) (da_type d) (da_time d) l (seqs d) (d_state d) (d_state_filled d) (ext_state d).

Abbreviation DA := (XM cexn DeviceAttribute).
Definition origin_of (method : string) : string := "DeviceAttribute::" +:+ method.

(** ** Construction *)

(** The constructors without data: [d_state = {}] is the first state. *)
Definition DeviceAttribute_default : DeviceAttribute :=
  mkDA "Name not set" {[failed_flag; isempty_flag]} 0 0 0 0 ATTR_INVALID FMT_UNKNOWN DATA_TYPE_UNKNOWN (Some (mkTimeVal 0 0 0)) None ∅ ON false ∅.
Definition init_common_class_members (nm : string) (x y : Z) : DeviceAttribute :=
  mkDA nm {[failed_flag; isempty_flag]} x y 0 0 ATTR_VALID FMT_UNKNOWN DATA_TYPE_UNKNOWN None None ∅ ON false ∅.
Definition new_image t (nm : string) (datum : list WElt) (x y : Z) : DeviceAttribute :=
  set_type (cmd_arg_type t) (set_seqs {[t := datum]} (init_common_class_members nm x y)).
Definition new_vector t (nm : string) (datum : list WElt) : DeviceAttribute := new_image t nm datum (Z.of_nat (length datum)) 0.
Definition new_scalar t (nm : string) (datum : WElt) : DeviceAttribute := new_image t nm [datum] 1 0.
(** The move constructor and the move assignment: the target, and what is left in the
    source. *)
Definition moved d : DeviceAttribute * DeviceAttribute := (d, set_seqs ∅ d).

(** ** Insertion *)

(** [del_mem]: the other sequences are deleted. *)
Definition del_mem t d : DeviceAttribute := set_seqs (match seqs d !! t with Some l => {[t := l]} | None => ∅ end) d.
(** The type of an enumerated attribute is kept by two overloads. *)
Definition short_type d : CmdArgType := if bool_decide (da_type d = DEV_ENUM) then DEV_ENUM else DEV_SHORT.
Definition put_data (ty : DeviceAttribute → CmdArgType) t (datum : list WElt) d : DeviceAttribute :=
  del_mem t (set_seqs (<[t := datum]> (seqs d)) (set_type (ty d) (set_inserted (Z.of_nat (length datum)) d))).
Definition plain_type t : DeviceAttribute → CmdArgType := λ _, cmd_arg_type t.

Definition insert_scalar t (datum : WElt) : DA unit := modify (put_data (plain_type t) t [datum]).
Definition insert_vector t (datum : list WElt) : DA unit := modify (put_data (plain_type t) t datum).
(** A sequence given by pointer is taken; given by reference it is copied into the member,
    which must exist. *)
Definition insert_ptr t (datum : list WElt) : DA unit := modify (put_data (plain_type t) t datum).
Definition insert_ref t (datum : list WElt) : DA unit :=
  d ← get;
  match seqs d !! t with Some _ => modify (put_data (plain_type t) t datum) | None => undef end.
Definition with_dims (m : DA unit) (x y : Z) : DA unit := m;; modify (set_dims x y).

(** ** Checks *)

Definition flag_set (f : except_flags) : DA unit := modify (λ d, set_ext ({[f]} ∪ ext_state d) d).
Definition not_empty d t : bool := match seqs d !! t with Some (_ :: _) => true | _ => false end.
Definition has_data d : bool := existsb (not_empty d) seq_types || d_state_filled d.
Definition is_empty : DA bool :=
  modify (λ d, set_ext (ext_state d ∖ {[isempty_flag]}) d);;
  d ← get;
  if has_data d then mret false
  else
    flag_set isempty_flag;;
    if bool_decide (isempty_flag ∈ exceptions_flags d) then
      throw_exn (api_error WrongData "API_EmptyDeviceAttribute" "cannot extract, no data in DeviceAttribute object " (origin_of "is_empty"))
    else mret true.
Definition is_empty_noexcept : DA bool := catch_class WrongData is_empty (λ _, mret true).

Definition check_for_data : DA bool :=
  modify (set_ext ∅);;
  d ← get;
  match da_err_list d with
  | Some (e :: l) =>
      flag_set failed_flag;;
      if bool_decide (failed_flag ∈ exceptions_flags d) then throw_exn (TErr PlainDevFailed (e :: l)) else mret false
  | _ => b ← is_empty; mret (negb b)
  end.
Definition check_wrong_type_exception : DA bool :=
  flag_set wrongtype_flag;;
  d ← get;
  if bool_decide (wrongtype_flag ∈ exceptions_flags d) then
    throw_exn (api_error WrongData "API_IncompatibleAttrArgumentType" "Cannot extract, data type in DeviceAttribute object is not coherent with the type provided to extraction method" (origin_of "check_wrong_type_exception"))
  else mret false.

(** The product of two [int]s. *)
Definition int_mul (a b : Z) : DA Z := if (- 2 ^ 31 <=? a * b) && (a * b <? 2 ^ 31) then mret (a * b) else undef.
Definition get_nb_read : DA Z := d ← get; if da_dim_y d =? 0 then mret (da_dim_x d) else int_mul (da_dim_x d) (da_dim_y d).
Definition get_nb_written : DA Z := d ← get; if da_w_dim_y d =? 0 then mret (da_w_dim_x d) else int_mul (da_w_dim_x d) (da_w_dim_y d).
Definition get_r_dimension d : AttributeDim := mkDim (da_dim_x d) (da_dim_y d).
Definition get_w_dimension d : AttributeDim := mkDim (da_w_dim_x d) (da_w_dim_y d).
Definition get_type d : CmdArgType := da_type d.
Definition get_data_format : DA AttrDataFormat :=
  d ← get;
  if bool_decide (unknown_format_flag ∈ exceptions_flags d) && bool_decide (da_format d = FMT_UNKNOWN) then
    throw_exn (api_error WrongData "API_EmptyDeviceAttribute" "Cannot returned data_type from DeviceAttribute object: Not initialised yet or too old device (< V7)" (origin_of "get_data_format"))
  else mret (da_format d).

Definition check_set_value_size (seq_length : Z) : DA Z :=
  n ← get_nb_written;
  if n =? 0 then
    throw_exn (api_error WrongData "API_NoSetValueAvailable" "Cannot extract, data from the DeviceAttribute object. No set value available" (origin_of "check_set_value_size"))
  else if n =? seq_length then mret 0 else get_nb_read.

(** ** Extraction

  The result is the data, or [None] when the method returns false and leaves its argument
  as it was. *)

Definition extract {A} t (f : list WElt → DA (option A)) : DA (option A) :=
  ok ← check_for_data;
  if negb (ok : bool) then mret None
  else
    d ← get;
    match seqs d !! t with
    | Some [] => mret None
    | Some l => f l
    | None => check_wrong_type_exception;; mret None
    end.
Definition extract_scalar t : DA (option WElt) := extract t (λ l, mret (head l)).
Definition extract_vector t : DA (option (list WElt)) := extract t (λ l, mret (Some l)).
(** The sequence is given away. *)
Definition extract_seq t : DA (option (list WElt)) := extract t (λ l, modify (λ d, set_seqs (delete t (seqs d)) d);; mret (Some l)).

(** [datum.resize(n)] and the copy of [n] elements of a sequence, from an index on. *)
Definition copy_elements (l : list WElt) (from n : Z) : DA (option (list WElt)) :=
  if n <? 0 then throw_exn (StdErr "std::length_error")
  else if (0 <=? from) && (from + n <=? Z.of_nat (length l)) then mret (Some (take (Z.to_nat n) (drop (Z.to_nat from) l)))
  else undef.
Definition extract_read t : DA (option (list WElt)) := extract t (λ l, n ← get_nb_read; copy_elements l 0 n).
(** The count is the length of the sequence minus the index; below zero it wraps around, and
    what the vector does with it is not defined here. *)
Definition extract_set t : DA (option (list WElt)) :=
  extract t (λ l,
    i ← check_set_value_size (Z.of_nat (length l));
    if Z.of_nat (length l) <? i then undef else copy_elements l i (Z.of_nat (length l) - i)).

(** The state of a device may be in a member of its own. *)
Definition or_d_state {A} (f : DevState → A) (m : DA (option A)) : DA (option A) :=
  ok ← check_for_data;
  if negb (ok : bool) then mret None
  else d ← get; if d_state_filled d then mret (Some (f (d_state d))) else m.

(** The encoded values. *)
Definition encoded_of (e : WElt) : DA (option (string * list Num)) :=
  match e with EltEncoded f l => mret (Some (f, l)) | _ => undef end.
Definition extract_encoded_read : DA (option (string * list Num)) :=
  extract ATT_ENCODED (λ l, match l with e :: _ => encoded_of e | [] => mret None end).
Definition extract_encoded_set : DA (option (string * list Num)) :=
  extract ATT_ENCODED (λ l, match l with [_; e] => encoded_of e | _ => mret None end).
(** The buffer is given away: the element is left without data. *)
Definition extract_encoded_buffer : DA (option (string * list Num)) :=
  extract ATT_ENCODED (λ l,
    match l with
    | EltEncoded f b :: l => modify (λ d, set_seqs (<[ATT_ENCODED := EltEncoded f [] :: l]> (seqs d)) d);; mret (Some (f, b))
    | [] => mret None
    | _ => undef
    end).
(** The sequence of encoded values is extracted with checks of its own. *)
Definition extract_encoded_seq : DA (option (list WElt)) :=
  d ← get;
  match da_err_list d with
  | Some (e :: l) => if bool_decide (failed_flag ∈ exceptions_flags d) then throw_exn (TErr PlainDevFailed (e :: l)) else mret None
  | _ =>
      b ← is_empty;
      if (b : bool) then mret None
      else
        d ← get;
        match seqs d !! ATT_ENCODED with
        | Some [] => mret None
        | Some l => modify (λ d, set_seqs (delete ATT_ENCODED (seqs d)) d);; mret (Some l)
        | None =>
            if bool_decide (wrongtype_flag ∈ exceptions_flags d) then
              throw_exn (api_error WrongData "API_IncompatibleAttrArgumentType" "Cannot extract, data in DeviceAttribute object is not an array of DevEncoded" (origin_of "operator>>"))
            else mret None
        end
  end.

(** ** Conversions from the IDL types *)

(** An element of [AttributeValueList_4] or [_5]: only the second has a type. *)
Record NetAttr := mkNetAttr { na_name : string; na_av : AttributeValue WElt; na_format : AttrDataFormat; na_type : CmdArgType }.
Implicit Types v : NetAttr.

Definition set_head (nm : string) (q : AttrQuality) (tv : TimeVal) (r w : AttributeDim) (f : AttrDataFormat) (errs : option DevErrorList) d : DeviceAttribute :=
  mkDA nm (exceptions_flags d) (PollRing.dim_x r) (PollRing.dim_y r) (PollRing.dim_x w) (PollRing.dim_y w) q f (da_type d) (Some tv) errs (seqs d) (d_state d) (d_state_filled d) (ext_state d).
Definition put_seq t (l : list WElt) d : DeviceAttribute := set_type (cmd_arg_type t) (set_seqs (<[t := l]> (seqs d)) d).

(** [attr_to_device_base]: the other members of the target stay as they are. *)
Definition attr_to_device_base v : DA unit :=
  let av := na_av v in
  modify (set_head (na_name v) (PollRing.av_quality av) (PollRing.av_time av) (PollRing.av_r_dim av) (PollRing.av_w_dim av) (na_format v) (Some (PollRing.av_err_list av)));;
  if bool_decide (PollRing.av_quality av = ATTR_INVALID) then mret tt
  else
    match union_d (PollRing.av_value av) with
    | DEVICE_STATE =>
        match union_seq (PollRing.av_value av) with
        | [EltState s] => modify (λ d, set_type DEV_STATE (set_d_state s d))
        | _ => undef
        end
    | ATT_NO_DATA => modify (set_type DATA_TYPE_UNKNOWN)
    | t => modify (put_seq t (union_seq (PollRing.av_value av)))
    end.
Definition attr_to_device_4 v : DA unit := attr_to_device_base v.
Definition attr_to_device_5 v : DA unit := attr_to_device_base v;; modify (set_type (na_type v)).

(** The [CORBA::Any] of an [AttributeValue] or an [AttributeValue_3], by its type code: an
    enumerated type, a sequence, or a sequence of another kind. *)
Inductive AnyValue := AnyEnum (s : DevState) | AnySeq (t : AttributeDataType) (l : list WElt) | AnyKind (kind : Z).
(** Both types: [AttributeValue] has one dimension and no errors. *)
Record OldAttr := mkOldAttr {
  oa_name : string;
  oa_quality : AttrQuality;
  oa_time : TimeVal;
  oa_r_dim : AttributeDim;
  oa_w_dim : AttributeDim;
  oa_errs : DevErrorList;
  oa_value : AnyValue;
}.
Definition any_types : list AttributeDataType :=
  [ATT_LONG; ATT_LONG64; ATT_SHORT; ATT_DOUBLE; ATT_STRING; ATT_FLOAT; ATT_BOOL; ATT_USHORT; ATT_UCHAR; ATT_ULONG; ATT_ULONG64; ATT_STATE].
Definition attr_to_device (v : OldAttr) (vers : Z) : DA unit :=
  modify (λ d,
    set_head (oa_name v) (oa_quality v) (oa_time v) (oa_r_dim v)
      (if vers =? 3 then oa_w_dim v else mkDim (da_w_dim_x d) (da_w_dim_y d)) (da_format d)
      (if vers =? 3 then Some (oa_errs v) else da_err_list d) d);;
  if bool_decide (oa_quality v = ATTR_INVALID) then mret tt
  else
    let unexpected (k : Z) :=
      modify (set_type DATA_TYPE_UNKNOWN);;
      throw_exn (api_error PlainDevFailed "API_InvalidCorbaAny"
        ((if vers =? 3 then "'attr_value_3" else "'attr_value") +:+ "->value' with unexpected sequence kind '" +:+ pretty k +:+ "'.") "ApiUtil::attr_to_device") in
    match oa_value v with
    | AnyEnum s =>
        modify (set_type DEV_STATE);;
        (** The value is read from the structure of version 3, which the others do not have. *)
        if vers =? 3 then modify (set_d_state s) else undef
    | AnySeq t l => if bool_decide (t ∈ any_types) then modify (put_seq t l) else undef
    | AnyKind k => unexpected k
    end.

(** ** Conversions to the IDL types *)

(** An element of [AttributeValueList_4], or of [AttributeValueList], which has no format:
    the value is the union or the any, if it is set. *)
Record OutAttr := mkOut { out_name : string; out_quality : AttrQuality; out_format : AttrDataFormat; out_time : option TimeVal; out_dim : AttributeDim; out_value : option (AttributeDataType * list WElt) }.

(** The first member that is there, in the order of the tests. *)
Definition first_seq (order : list AttributeDataType) d : option (AttributeDataType * list WElt) :=
  match List.find (λ t, bool_decide (is_Some (seqs d !! t))) order with
  | Some t => (λ l, (t, l)) <$> seqs d !! t
  | None => None
  end.
Definition device_to_attr_4 d : OutAttr := mkOut (da_name d) (da_quality d) FMT_UNKNOWN (da_time d) (mkDim (da_dim_x d) (da_dim_y d)) (first_seq seq_types d).
Definition device_to_attr (d_name : string) d : cexn + OutAttr :=
  let o := first_seq seq_types d in
  match o with
  | Some (ATT_ENCODED, _) =>
      inl (api_error NonSupportedFeature "API_UnsupportedFeature" ("Device " +:+ d_name +:+ " does not support DevEncoded data type") "ApiUtil::device_to_attr")
  | _ => inr (mkOut (da_name d) (da_quality d) FMT_UNKNOWN (da_time d) (mkDim (da_dim_x d) (da_dim_y d)) o)
  end.

(** ** The overloads that are not generic *)

(** Encoded data given by its parts: a format and bytes.  One overload leaves the type. *)
Definition put_encoded_parts (format : string) (data : list Num) : DA unit :=
  modify (put_data (plain_type ATT_ENCODED) ATT_ENCODED [EltEncoded format data]).
Definition put_encoded_const (format : string) (data : list Num) : DA unit :=
  modify (put_data da_type ATT_ENCODED [EltEncoded format data]).
