(* ===== verification/DeviceAttrOps.v ===== *)
(** * The overloads of [DeviceAttribute] (src/src/client/devapi_attr.cpp)

  The constructors, the insertions and the extractions of the code, one per type of data:
  a scalar, a vector, an image ([_xy] or [_image], with its dimensions), a CORBA sequence
  by reference or by pointer.  The names in [char *] and in [std::string] are the same. *)
From S2P Require Import Prelude StateExn PollRing AttrHistory Number Attribute DevState WAttribute ClientExn DeviceAttr.

(** ** Constructors *)

Definition DeviceAttribute_short := new_scalar ATT_SHORT.
Definition DeviceAttribute_long := new_scalar ATT_LONG.
Definition DeviceAttribute_long64 := new_scalar ATT_LONG64.
Definition DeviceAttribute_double := new_scalar ATT_DOUBLE.
Definition DeviceAttribute_string := new_scalar ATT_STRING.
Definition DeviceAttribute_float := new_scalar ATT_FLOAT.
Definition DeviceAttribute_bool := new_scalar ATT_BOOL.
Definition DeviceAttribute_ushort := new_scalar ATT_USHORT.
Definition DeviceAttribute_uchar := new_scalar ATT_UCHAR.
Definition DeviceAttribute_ulong := new_scalar ATT_ULONG.
Definition DeviceAttribute_ulong64 := new_scalar ATT_ULONG64.
Definition DeviceAttribute_state := new_scalar ATT_STATE.
Definition DeviceAttribute_encoded := new_scalar ATT_ENCODED.
Definition DeviceAttribute_short_vector := new_vector ATT_SHORT.
Definition DeviceAttribute_long_vector := new_vector ATT_LONG.
Definition DeviceAttribute_long64_vector := new_vector ATT_LONG64.
Definition DeviceAttribute_double_vector := new_vector ATT_DOUBLE.
Definition DeviceAttribute_string_vector := new_vector ATT_STRING.
Definition DeviceAttribute_float_vector := new_vector ATT_FLOAT.
Definition DeviceAttribute_bool_vector := new_vector ATT_BOOL.
Definition DeviceAttribute_ushort_vector := new_vector ATT_USHORT.
Definition DeviceAttribute_uchar_vector := new_vector ATT_UCHAR.
Definition DeviceAttribute_ulong_vector := new_vector ATT_ULONG.
Definition DeviceAttribute_ulong64_vector := new_vector ATT_ULONG64.
Definition DeviceAttribute_state_vector := new_vector ATT_STATE.
Definition DeviceAttribute_short_image := new_image ATT_SHORT.
Definition DeviceAttribute_long_image := new_image ATT_LONG.
Definition DeviceAttribute_long64_image := new_image ATT_LONG64.
Definition DeviceAttribute_double_image := new_image ATT_DOUBLE.
Definition DeviceAttribute_string_image := new_image ATT_STRING.
Definition DeviceAttribute_float_image := new_image ATT_FLOAT.
Definition DeviceAttribute_bool_image := new_image ATT_BOOL.
Definition DeviceAttribute_ushort_image := new_image ATT_USHORT.
Definition DeviceAttribute_uchar_image := new_image ATT_UCHAR.
Definition DeviceAttribute_ulong_image := new_image ATT_ULONG.
Definition DeviceAttribute_ulong64_image := new_image ATT_ULONG64.
Definition DeviceAttribute_state_image := new_image ATT_STATE.

(** ** Scalars *)

Definition get_short := extract_scalar ATT_SHORT.
Definition put_short (datum : WElt) : DA unit := modify (put_data short_type ATT_SHORT [datum]).
Definition get_long := extract_scalar ATT_LONG.
Definition put_long := insert_scalar ATT_LONG.
Definition get_long64 := extract_scalar ATT_LONG64.
Definition put_long64 := insert_scalar ATT_LONG64.
Definition get_double := extract_scalar ATT_DOUBLE.
Definition put_double := insert_scalar ATT_DOUBLE.
Definition get_string := extract_scalar ATT_STRING.
Definition put_string := insert_scalar ATT_STRING.
Definition get_float := extract_scalar ATT_FLOAT.
Definition put_float := insert_scalar ATT_FLOAT.
Definition get_bool := extract_scalar ATT_BOOL.
Definition put_bool := insert_scalar ATT_BOOL.
Definition get_ushort := extract_scalar ATT_USHORT.
Definition put_ushort := insert_scalar ATT_USHORT.
Definition get_uchar := extract_scalar ATT_UCHAR.
Definition put_uchar := insert_scalar ATT_UCHAR.
Definition get_ulong := extract_scalar ATT_ULONG.
Definition put_ulong := insert_scalar ATT_ULONG.
Definition get_ulong64 := extract_scalar ATT_ULONG64.
Definition put_ulong64 := insert_scalar ATT_ULONG64.
Definition get_state := or_d_state (λ s, EltState s) (extract_scalar ATT_STATE).
Definition put_state := insert_scalar ATT_STATE.
Definition get_encoded := extract_scalar ATT_ENCODED.
Definition put_encoded := insert_scalar ATT_ENCODED.

(** ** Vectors *)

Definition put_string_vector := insert_vector ATT_STRING.
Definition put_string_vector_xy datum := with_dims (put_string_vector datum).
Definition get_string_vector := extract_vector ATT_STRING.
Definition put_short_vector (datum : list WElt) : DA unit := modify (put_data short_type ATT_SHORT datum).
Definition put_short_vector_xy datum := with_dims (put_short_vector datum).
Definition get_short_vector := extract_vector ATT_SHORT.
Definition put_long_vector := insert_vector ATT_LONG.
Definition put_long_vector_xy datum := with_dims (put_long_vector datum).
Definition get_long_vector := extract_vector ATT_LONG.
Definition put_long64_vector := insert_vector ATT_LONG64.
Definition put_long64_vector_xy datum := with_dims (put_long64_vector datum).
Definition get_long64_vector := extract_vector ATT_LONG64.
Definition put_double_vector := insert_vector ATT_DOUBLE.
Definition put_double_vector_xy datum := with_dims (put_double_vector datum).
Definition get_double_vector := extract_vector ATT_DOUBLE.
Definition put_float_vector := insert_vector ATT_FLOAT.
Definition put_float_vector_xy datum := with_dims (put_float_vector datum).
Definition get_float_vector := extract_vector ATT_FLOAT.
Definition put_bool_vector := insert_vector ATT_BOOL.
Definition put_bool_vector_xy datum := with_dims (put_bool_vector datum).
Definition get_bool_vector := extract_vector ATT_BOOL.
Definition put_ushort_vector := insert_vector ATT_USHORT.
Definition put_ushort_vector_xy datum := with_dims (put_ushort_vector datum).
Definition get_ushort_vector := extract_vector ATT_USHORT.
Definition put_uchar_vector := insert_vector ATT_UCHAR.
Definition put_uchar_vector_xy datum := with_dims (put_uchar_vector datum).
Definition get_uchar_vector := extract_vector ATT_UCHAR.
Definition put_ulong_vector := insert_vector ATT_ULONG.
Definition put_ulong_vector_xy datum := with_dims (put_ulong_vector datum).
Definition get_ulong_vector := extract_vector ATT_ULONG.
Definition put_ulong64_vector := insert_vector ATT_ULONG64.
Definition put_ulong64_vector_xy datum := with_dims (put_ulong64_vector datum).
Definition get_ulong64_vector := extract_vector ATT_ULONG64.
Definition put_state_vector := insert_vector ATT_STATE.
Definition put_state_vector_xy datum := with_dims (put_state_vector datum).
Definition get_state_vector := or_d_state (λ s, [EltState s]) (extract_vector ATT_STATE).

(** ** Sequences *)

Definition get_short_seq := extract_seq ATT_SHORT.
Definition get_long_seq := extract_seq ATT_LONG.
Definition get_double_seq := extract_seq ATT_DOUBLE.
Definition get_string_seq := extract_seq ATT_STRING.
Definition get_float_seq := extract_seq ATT_FLOAT.
Definition get_bool_seq := extract_seq ATT_BOOL.
Definition get_ushort_seq := extract_seq ATT_USHORT.
Definition get_uchar_seq := extract_seq ATT_UCHAR.
Definition get_long64_seq := extract_seq ATT_LONG64.
Definition get_ulong_seq := extract_seq ATT_ULONG.
Definition get_ulong64_seq := extract_seq ATT_ULONG64.
Definition get_state_seq := or_d_state (λ s, [EltState s]) (extract_seq ATT_STATE).
Definition put_short_ref := insert_ref ATT_SHORT.
Definition put_short_ref_xy datum := with_dims (put_short_ref datum).
Definition put_short_ptr := insert_ptr ATT_SHORT.
Definition put_short_ptr_xy datum := with_dims (put_short_ptr datum).
Definition put_long_ref := insert_ref ATT_LONG.
Definition put_long_ref_xy datum := with_dims (put_long_ref datum).
Definition put_long_ptr := insert_ptr ATT_LONG.
Definition put_long_ptr_xy datum := with_dims (put_long_ptr datum).
Definition put_double_ref := insert_ref ATT_DOUBLE.
Definition put_double_ref_xy datum := with_dims (put_double_ref datum).
Definition put_double_ptr := insert_ptr ATT_DOUBLE.
Definition put_double_ptr_xy datum := with_dims (put_double_ptr datum).
Definition put_string_ref := insert_ref ATT_STRING.
Definition put_string_ref_xy datum := with_dims (put_string_ref datum).
Definition put_string_ptr := insert_ptr ATT_STRING.
Definition put_string_ptr_xy datum := with_dims (put_string_ptr datum).
Definition put_float_ref := insert_ref ATT_FLOAT.
Definition put_float_ref_xy datum := with_dims (put_float_ref datum).
Definition put_float_ptr := insert_ptr ATT_FLOAT.
Definition put_float_ptr_xy datum := with_dims (put_float_ptr datum).
Definition put_bool_ref := insert_ref ATT_BOOL.
Definition put_bool_ref_xy datum := with_dims (put_bool_ref datum).
Definition put_bool_ptr := insert_ptr ATT_BOOL.
Definition put_bool_ptr_xy datum := with_dims (put_bool_ptr datum).
Definition put_ushort_ref := insert_ref ATT_USHORT.
Definition put_ushort_ref_xy datum := with_dims (put_ushort_ref datum).
Definition put_ushort_ptr := insert_ptr ATT_USHORT.
Definition put_ushort_ptr_xy datum := with_dims (put_ushort_ptr datum).
Definition put_uchar_ref := insert_ref ATT_UCHAR.
Definition put_uchar_ref_xy datum := with_dims (put_uchar_ref datum).
Definition put_uchar_ptr := insert_ptr ATT_UCHAR.
Definition put_uchar_ptr_xy datum := with_dims (put_uchar_ptr datum).
Definition put_long64_ref := insert_ref ATT_LONG64.
Definition put_long64_ref_xy datum := with_dims (put_long64_ref datum).
Definition put_long64_ptr := insert_ptr ATT_LONG64.
Definition put_long64_ptr_xy datum := with_dims (put_long64_ptr datum).
Definition put_ulong_ref := insert_ref ATT_ULONG.
Definition put_ulong_ref_xy datum := with_dims (put_ulong_ref datum).
Definition put_ulong_ptr := insert_ptr ATT_ULONG.
Definition put_ulong_ptr_xy datum := with_dims (put_ulong_ptr datum).
Definition put_ulong64_ref := insert_ref ATT_ULONG64.
Definition put_ulong64_ref_xy datum := with_dims (put_ulong64_ref datum).
Definition put_ulong64_ptr := insert_ptr ATT_ULONG64.
Definition put_ulong64_ptr_xy datum := with_dims (put_ulong64_ptr datum).
Definition put_state_ref := insert_ref ATT_STATE.
Definition put_state_ref_xy datum := with_dims (put_state_ref datum).
Definition put_state_ptr := insert_ptr ATT_STATE.
Definition put_state_ptr_xy datum := with_dims (put_state_ptr datum).

(** ** Read and set values *)

Definition extract_read_string := extract_read ATT_STRING.
Definition extract_set_string := extract_set ATT_STRING.
Definition extract_read_short := extract_read ATT_SHORT.
Definition extract_set_short := extract_set ATT_SHORT.
Definition extract_read_long := extract_read ATT_LONG.
Definition extract_set_long := extract_set ATT_LONG.
Definition extract_read_double := extract_read ATT_DOUBLE.
Definition extract_set_double := extract_set ATT_DOUBLE.
Definition extract_read_float := extract_read ATT_FLOAT.
Definition extract_set_float := extract_set ATT_FLOAT.
Definition extract_read_bool := extract_read ATT_BOOL.
Definition extract_set_bool := extract_set ATT_BOOL.
Definition extract_read_ushort := extract_read ATT_USHORT.
Definition extract_set_ushort := extract_set ATT_USHORT.
Definition extract_read_uchar := extract_read ATT_UCHAR.
Definition extract_set_uchar := extract_set ATT_UCHAR.
Definition extract_read_long64 := extract_read ATT_LONG64.
Definition extract_set_long64 := extract_set ATT_LONG64.
Definition extract_read_ulong64 := extract_read ATT_ULONG64.
Definition extract_set_ulong64 := extract_set ATT_ULONG64.
Definition extract_read_ulong := extract_read ATT_ULONG.
Definition extract_set_ulong := extract_set ATT_ULONG.
Definition extract_read_state := extract_read ATT_STATE.
Definition extract_set_state := extract_set ATT_STATE.

(** ** The overload of a type *)

Definition put_vector (t : AttributeDataType) (datum : list WElt) : DA unit :=
  if bool_decide (t = ATT_SHORT) then put_short_vector datum else insert_vector t datum.
Definition get_vector (t : AttributeDataType) : DA (option (list WElt)) :=
  if bool_decide (t = ATT_STATE) then get_state_vector else extract_vector t.
