(* ===== verification/DeviceAttrTheory.v ===== *)
(** * Theorems on [DeviceAttribute]

  What is inserted is extracted; the read and the set values are separated as the
  server joined them; and the value that the code of the user sets on the server is the
  one that the client extracts. *)
From stdpp Require Import gmap.
From S2P Require Import Prelude StateExn PollRing AttrHistory PollCycle CppString Number Attribute AttrTheory DevState WAttribute WriteAttrs WriteTheory ReadAttrs ReadTheory ReadProps ReadWitness ClientExn DeviceAttr DeviceAttrOps.
Local Open Scope string_scope.
Local Open Scope list_scope.
Local Open Scope Z_scope.
Implicit Types d : DeviceAttribute.
Implicit Types t : AttributeDataType.

(** ** Checks *)

(** The last reading has not failed. *)
Definition no_errors d : Prop := from_option id [] (da_err_list d) = [].
(** The data that the checks leave as they were. *)
Definition same_data d d' : Prop := d' = set_ext (ext_state d') d.

Lemma same_data_refl d : same_data d d.
Proof. by destruct d. Qed.
Lemma same_data_ext e d : same_data d (set_ext e d).
Proof. done. Qed.
Lemma same_data_trans d d1 d2 : same_data d d1 → same_data d1 d2 → same_data d d2.
Proof. unfold same_data. intros -> ->. done. Qed.

Lemma not_empty_has d t : t ∈ seq_types → not_empty d t = true → has_data d = true.
Proof. intros Ht Hn. unfold has_data. apply orb_true_intro. left. apply existsb_exists. exists t. by rewrite <-list_elem_of_In. Qed.

Lemma is_empty_data d : has_data d = true → ∃ d', is_empty d = Some (d', inr false) ∧ same_data d d'.
Proof. intros H. unfold is_empty. eexists. split; [|by apply same_data_ext]. unfold mbind, SM_bind. simpl. change (has_data (set_ext _ d)) with (has_data d). by rewrite H. Qed.

Lemma check_data d : no_errors d → has_data d = true → ∃ d', check_for_data d = Some (d', inr true) ∧ same_data d d' .
Proof.
  intros He Hd. unfold check_for_data. rewrite (run_bind _ _ d (set_ext ∅ d) tt eq_refl), (run_bind _ _ _ _ _ eq_refl).
  destruct (is_empty_data (set_ext ∅ d) Hd) as (d' & Hr & Hs). exists d'.
  assert ((b ← is_empty; mret (negb b)) (set_ext ∅ d) = Some (d', inr true)) as H by (by rewrite (run_bind _ _ _ _ _ Hr)).
  split; [|by apply (same_data_trans _ (set_ext ∅ d))]. unfold no_errors in He. simpl. by destruct (da_err_list d) as [[|]|].
Qed.

(** An extraction from a member that has data. *)
Lemma extract_member {A} d t l (f : list WElt → DA (option A)) :
  no_errors d → t ∈ seq_types → seqs d !! t = Some l → l ≠ [] →
  ∃ d', same_data d d' ∧ extract t f d = f l d'.
Proof.
  intros He Ht Hl Hne. destruct (check_data d He) as (d' & Hc & Hs).
  { apply (not_empty_has d t Ht). unfold not_empty. rewrite Hl. by destruct l. }
  exists d'. split; [done|]. unfold extract. rewrite (run_bind _ _ _ _ _ Hc). cbn [negb]. rewrite (run_bind _ _ _ _ _ eq_refl).
  assert (seqs d' !! t = Some l) as -> by (by rewrite Hs). by destruct l.
Qed.
(** An extraction of another type. *)
Lemma extract_other {A} d t (f : list WElt → DA (option A)) :
  no_errors d → has_data d = true → seqs d !! t = None → wrongtype_flag ∉ exceptions_flags d →
  ∃ d', same_data d d' ∧ extract t f d = Some (d', inr None) ∧ wrongtype_flag ∈ ext_state d'.
Proof.
  intros He Hd Hn Hf. destruct (check_data d He Hd) as (d' & Hc & Hs).
  exists (set_ext ({[wrongtype_flag]} ∪ ext_state d') d'). split; [apply (same_data_trans _ d' _ Hs); done|]. split; [|simpl; set_solver].
  unfold extract. rewrite (run_bind _ _ _ _ _ Hc). cbn [negb]. rewrite (run_bind _ _ _ _ _ eq_refl). assert (seqs d' !! t = None) as -> by (by rewrite Hs).
  unfold check_wrong_type_exception, flag_set, mbind, SM_bind. simpl.
  assert (exceptions_flags d' = exceptions_flags d) as -> by (by rewrite Hs). by rewrite bool_decide_false.
Qed.

(** ** Insertion *)

Lemma put_data_seqs ty t l d : seqs (put_data ty t l d) = {[t := l]}.
Proof. unfold put_data, del_mem. simpl. by rewrite lookup_insert_eq. Qed.
Lemma put_data_errs ty t l d : da_err_list (put_data ty t l d) = da_err_list d.
Proof. done. Qed.
Lemma put_data_state ty t l d : d_state_filled (put_data ty t l d) = d_state_filled d.
Proof. done. Qed.

Lemma run_put_vector t datum d : ∃ ty, put_vector t datum d = Some (put_data ty t datum d, inr tt).
Proof. unfold put_vector. case_bool_decide as E; [|by eexists]. subst. by eexists. Qed.

(** The value of the member [t]; for the states there may be another one. *)
Lemma run_get_vector d t l :
  no_errors d → t ∈ seq_types → (t = ATT_STATE → d_state_filled d = false) → seqs d !! t = Some l → l ≠ [] →
  ∃ d', same_data d d' ∧ get_vector t d = Some (d', inr (Some l)).
Proof.
  intros He Ht Hst Hl Hne. destruct (extract_member d t l (λ l, mret (Some l)) He Ht Hl Hne) as (d' & Hs & Hr). unfold get_vector.
  case_bool_decide as E; [|by exists d']. subst t. unfold get_state_vector, or_d_state.
  destruct (check_data d He) as (d1 & Hc & Hs1). { apply (not_empty_has d ATT_STATE Ht). unfold not_empty. rewrite Hl. by destruct l. }
  assert (d_state_filled d1 = false) as Hf by (rewrite Hs1; by apply Hst).
  destruct (extract_member d1 ATT_STATE l (λ l, mret (Some l))) as (d2 & Hs2 & Hr2); [unfold no_errors; by rewrite Hs1|done|by rewrite Hs1|done|].
  exists d2. split; [by apply (same_data_trans _ d1)|]. rewrite (run_bind _ _ _ _ _ Hc). cbn [negb]. rewrite (run_bind _ _ _ _ _ eq_refl), Hf. exact Hr2.
Qed.

(** C40: a vector that is inserted is the one that is extracted, it is the only data of the
    object, its length is the dimension, and the extraction in another type than the state of a
    device reports the type instead, with nothing extracted and the data kept, when it is not
    set to throw. The vector is not empty; the object may have held any data before, but no
    errors, and for a vector of states not the single state of a device, which would hide them
    (see [state_hides]). *)
Theorem insert_extract t datum d :
  t ∈ seq_types → datum ≠ [] → no_errors d → (t = ATT_STATE → d_state_filled d = false) →
  ∃ d1 d2, put_vector t datum d = Some (d1, inr tt) ∧ get_vector t d1 = Some (d2, inr (Some datum)) ∧
    seqs d2 = {[t := datum]} ∧ (da_dim_x d2, da_dim_y d2) = (Z.of_nat (length datum), 0) ∧
    ∀ t', t' ∈ seq_types → t' ≠ t → t' ≠ ATT_STATE → wrongtype_flag ∉ exceptions_flags d →
      ∃ d3, get_vector t' d2 = Some (d3, inr None) ∧ wrongtype_flag ∈ ext_state d3 ∧ same_data d2 d3.
Proof.
  intros Ht Hne He Hst. destruct (run_put_vector t datum d) as [ty Hp]. set (d1 := put_data ty t datum d) in *.
  assert (seqs d1 = {[t := datum]}) as Hd1 by apply put_data_seqs.
  destruct (run_get_vector d1 t datum) as (d2 & Hs & Hg); [done|done|done|rewrite Hd1; by apply lookup_singleton_eq|done|].
  exists d1, d2. split; [done|]. split; [done|]. assert (seqs d2 = {[t := datum]}) as Hd2 by (by rewrite Hs).
  split; [done|]. split; [by rewrite Hs|]. intros t' Ht' Hn Hns Hf.
  destruct (extract_other d2 t' (λ l, mret (Some l))) as (d3 & Hs3 & Hr & Hx).
  - unfold no_errors. by rewrite Hs.
  - apply (not_empty_has d2 t Ht). unfold not_empty. rewrite Hd2, lookup_singleton_eq. by destruct datum.
  - rewrite Hd2. by apply lookup_singleton_ne.
  - by rewrite Hs.
  - exists d3. unfold get_vector. rewrite bool_decide_false by done. done.
Qed.

(** ** Read and set values *)

(** The number of elements of a dimension. *)
Definition dim_count (x y : Z) : Z := if y =? 0 then x else x * y.
Definition int_dim (x y : Z) : Prop := 0 ≤ dim_count x y < 2 ^ 31.

Lemma int_mul_ok a b d : - 2 ^ 31 ≤ a * b < 2 ^ 31 → int_mul a b d = Some (d, inr (a * b)).
Proof. intros H. unfold int_mul. by rewrite (proj2 (Z.leb_le _ _)), (proj2 (Z.ltb_lt _ _)) by lia. Qed.
Lemma run_nb_read d : int_dim (da_dim_x d) (da_dim_y d) → get_nb_read d = Some (d, inr (dim_count (da_dim_x d) (da_dim_y d))).
Proof.
  unfold get_nb_read, int_dim, dim_count. intros H. rewrite (run_bind _ _ _ _ _ eq_refl). destruct (_ =? 0); [done|]. apply int_mul_ok. lia.
Qed.
Lemma run_nb_written d : int_dim (da_w_dim_x d) (da_w_dim_y d) → get_nb_written d = Some (d, inr (dim_count (da_w_dim_x d) (da_w_dim_y d))).
Proof.
  unfold get_nb_written, int_dim, dim_count. intros H. rewrite (run_bind _ _ _ _ _ eq_refl). destruct (_ =? 0); [done|]. apply int_mul_ok. lia.
Qed.
Lemma run_copy (l l1 l2 l3 : list WElt) d :
  l = l1 ++ l2 ++ l3 → copy_elements l (Z.of_nat (length l1)) (Z.of_nat (length l2)) d = Some (d, inr (Some l2)).
Proof.
  intros ->. unfold copy_elements. rewrite (proj2 (Z.ltb_ge _ _)), (proj2 (Z.leb_le _ _)), (proj2 (Z.leb_le _ _)) by (rewrite ?length_app; lia).
  cbn [andb]. by rewrite !Nat2Z.id, drop_app_length, take_app_length.
Qed.

(** A value as the server joins it: what is read, then what is set. *)
Record joined d t (rd set : list WElt) : Prop := {
  jo_errors : no_errors d;
  jo_type : t ∈ seq_types;
  jo_seq : seqs d !! t = Some (rd ++ set);
  jo_read : dim_count (da_dim_x d) (da_dim_y d) = Z.of_nat (length rd);
  jo_set : dim_count (da_w_dim_x d) (da_w_dim_y d) = Z.of_nat (length set);
  jo_int : (Z.of_nat (length rd) < 2 ^ 31 ∧ Z.of_nat (length set) < 2 ^ 31)%Z;
}.

(** The same value with other set dimensions. *)
Definition set_w_dims x y d : DeviceAttribute :=
  mkDA (da_name d) (exceptions_flags d) (da_dim_x d) (da_dim_y d) x y (da_quality d) (da_format d) (da_type d) (da_time d) (da_err_list d) (seqs d) (d_state d) (d_state_filled d) (ext_state d).
Lemma run_extract_set d t l :
  no_errors d → t ∈ seq_types → seqs d !! t = Some l → l ≠ [] →
  ∃ d', same_data d d' ∧ extract_set t d =
    (i ← check_set_value_size (Z.of_nat (length l)); if Z.of_nat (length l) <? i then undef else copy_elements l i (Z.of_nat (length l) - i)) d'.
Proof. apply (extract_member d t l (λ l, i ← check_set_value_size (Z.of_nat (length l)); if Z.of_nat (length l) <? i then undef else copy_elements l i (Z.of_nat (length l) - i))). Qed.

Lemma joined_read d t rd set : joined d t rd set → rd ++ set ≠ [] → ∃ d', same_data d d' ∧ extract_read t d = Some (d', inr (Some rd)).
Proof.
  intros [He Ht Hl Hr Hw Hi] Hne. destruct (extract_member d t (rd ++ set) (λ l, n ← get_nb_read; copy_elements l 0 n) He Ht Hl Hne) as (d' & Hs & Hx).
  exists d'. split; [done|]. unfold extract_read. rewrite Hx. assert (da_dim_x d' = da_dim_x d ∧ da_dim_y d' = da_dim_y d) as [Ex Ey] by (by rewrite Hs).
  rewrite (run_bind _ _ d' d' (Z.of_nat (length rd))) by (rewrite run_nb_read; rewrite Ex, Ey; [by rewrite Hr|unfold int_dim; lia]).
  apply (run_copy (rd ++ set) [] rd set). done.
Qed.
Lemma joined_set d t rd set : joined d t rd set → set ≠ [] → ∃ d', same_data d d' ∧ extract_set t d = Some (d', inr (Some set)).
Proof.
  intros [He Ht Hl Hr Hw Hi] Hne.
  destruct (run_extract_set d t (rd ++ set) He Ht Hl) as (d' & Hs & Hx); [by destruct rd|].
  exists d'. split; [done|]. rewrite Hx.
  assert (da_dim_x d' = da_dim_x d ∧ da_dim_y d' = da_dim_y d ∧ da_w_dim_x d' = da_w_dim_x d ∧ da_w_dim_y d' = da_w_dim_y d) as (Ex & Ey & Ewx & Ewy) by (by rewrite Hs).
  rewrite (run_bind _ _ d' d' (Z.of_nat (length rd))).
  - rewrite length_app, (proj2 (Z.ltb_ge _ _)) by lia. replace (Z.of_nat (length rd + length set) - Z.of_nat (length rd))%Z with (Z.of_nat (length set)) by lia.
    apply (run_copy (rd ++ set) rd set []). by rewrite app_nil_r.
  - unfold check_set_value_size. rewrite (run_bind _ _ d' d' (Z.of_nat (length set))) by (rewrite run_nb_written; rewrite Ewx, Ewy; [by rewrite Hw|unfold int_dim; lia]).
    rewrite (proj2 (Z.eqb_neq _ _)) by (destruct set; simpl; [done|lia]). destruct (Z.eqb_spec (Z.of_nat (length set)) (Z.of_nat (length (rd ++ set)))) as [E|E].
    + rewrite length_app in E. assert (length rd = 0%nat) as -> by lia. done.
    + rewrite run_nb_read; rewrite Ex, Ey; [by rewrite Hr|unfold int_dim; lia].
Qed.

(** The read and the set values of an attribute: when the sequence is the values read
    followed by the values set, with the sizes of both, each extraction gives its part, and
    without values set the second one throws; an attribute that is only written, for which both
    sizes are those of the sequence, gives it whole to both. *)
Theorem read_and_set_values d t rd set :
  joined d t rd set → rd ≠ [] →
  (∃ d', extract_read t d = Some (d', inr (Some rd)) ∧ same_data d d') ∧
  (set ≠ [] → ∃ d', extract_set t d = Some (d', inr (Some set)) ∧ same_data d d') ∧
  (set = [] → ∃ d' e, extract_set t d = Some (d', inl (TErr WrongData [e])) ∧ reason e = "API_NoSetValueAvailable") ∧
  (set = [] → ∃ d', extract_set t (set_w_dims (da_dim_x d) (da_dim_y d) d) = Some (d', inr (Some rd))).
Proof.
  intros Hj Hne. split; [|split; [|split]].
  - destruct (joined_read d t rd set Hj) as (d' & Hs & Hr); [by destruct rd|]. by exists d'.
  - intros Hset. destruct (joined_set d t rd set Hj Hset) as (d' & Hs & Hr). by exists d'.
  - intros ->. destruct Hj as [He Ht Hl Hr Hw Hi]. rewrite app_nil_r in Hl. destruct (run_extract_set d t rd He Ht Hl Hne) as (d' & Hs & Hx).
    assert (da_w_dim_x d' = da_w_dim_x d ∧ da_w_dim_y d' = da_w_dim_y d) as [Ex Ey] by (by rewrite Hs).
    eexists d', _. rewrite Hx. unfold check_set_value_size.
    rewrite (run_bind_exn _ _ d' d' (api_error WrongData "API_NoSetValueAvailable" "Cannot extract, data from the DeviceAttribute object. No set value available" (origin_of "check_set_value_size"))); [split; reflexivity|].
    rewrite (run_bind _ _ d' d' 0) by (rewrite run_nb_written; rewrite Ex, Ey; [by rewrite Hw|unfold int_dim; simpl in Hw; lia]). done.
  - intros ->. destruct Hj as [He Ht Hl Hr Hw Hi]. rewrite app_nil_r in Hl. set (d1 := set_w_dims _ _ d).
    destruct (run_extract_set d1 t rd He Ht Hl Hne) as (d' & Hs & Hx).
    assert (da_w_dim_x d' = da_dim_x d ∧ da_w_dim_y d' = da_dim_y d) as [Ex Ey] by (by rewrite Hs).
    exists d'. rewrite Hx, (run_bind _ _ d' d' 0).
    + rewrite (proj2 (Z.ltb_ge _ _)), Z.sub_0_r by lia. apply (run_copy rd [] rd []). by rewrite app_nil_r.
    + unfold check_set_value_size. rewrite (run_bind _ _ d' d' (Z.of_nat (length rd))) by (rewrite run_nb_written; rewrite Ex, Ey; [by rewrite Hr|unfold int_dim; lia]).
      by rewrite (proj2 (Z.eqb_neq _ _)), Z.eqb_refl by (destruct rd; simpl; [done|lia]).
Qed.

(** ** Failed readings and insertions that are sent *)

(** A reading that failed: with the default flags every extraction throws the errors of the
    server; without [failed_flag] it returns false, and the state of the extraction has the
    flag; neither changes the data. *)
Theorem failed_reading d e l t :
  da_err_list d = Some (e :: l) →
  ∃ d', same_data d d' ∧ failed_flag ∈ ext_state d' ∧
    (failed_flag ∈ exceptions_flags d →
       get_vector t d = Some (d', inl (TErr PlainDevFailed (e :: l))) ∧ extract_scalar t d = Some (d', inl (TErr PlainDevFailed (e :: l))) ∧
       extract_read t d = Some (d', inl (TErr PlainDevFailed (e :: l))) ∧ extract_set t d = Some (d', inl (TErr PlainDevFailed (e :: l)))) ∧
    (failed_flag ∉ exceptions_flags d →
       get_vector t d = Some (d', inr None) ∧ extract_scalar t d = Some (d', inr None) ∧
       extract_read t d = Some (d', inr None) ∧ extract_set t d = Some (d', inr None)).
Proof.
  intros He. set (d' := set_ext ({[failed_flag]} ∪ ∅) d). exists d'. split; [done|]. split; [simpl; set_solver|].
  assert (∀ A (f : list WElt → DA (option A)),
    (failed_flag ∈ exceptions_flags d → extract t f d = Some (d', inl (TErr PlainDevFailed (e :: l)))) ∧
    (failed_flag ∉ exceptions_flags d → extract t f d = Some (d', inr None))) as H.
  { intros A f. unfold extract, check_for_data, flag_set, mbind, SM_bind. simpl. rewrite He.
    split; intros Hf; [rewrite bool_decide_true by done|rewrite bool_decide_false by done]; done. }
  assert ((failed_flag ∈ exceptions_flags d → get_vector t d = Some (d', inl (TErr PlainDevFailed (e :: l)))) ∧
    (failed_flag ∉ exceptions_flags d → get_vector t d = Some (d', inr None))) as Hg.
  { unfold get_vector. case_bool_decide; [|apply H]. unfold get_state_vector, or_d_state, check_for_data, flag_set, mbind, SM_bind. simpl. rewrite He.
    split; intros Hf; [rewrite bool_decide_true by done|rewrite bool_decide_false by done]; done. }
  split; intros Hf; repeat split; [by apply Hg|by apply H|by apply H|by apply H|by apply Hg|by apply H|by apply H|by apply H].
Qed.

Lemma find_only t l : t ∈ seq_types → List.find (λ t', bool_decide (is_Some (({[t := l]} : gmap AttributeDataType (list WElt)) !! t'))) seq_types = Some t.
Proof.
  intros Ht. destruct (List.find _ _) as [t'|] eqn:E.
  - apply find_some in E as [_ E]. apply bool_decide_eq_true in E as [x E]. by apply lookup_singleton_Some in E as [-> _].
  - pose proof (find_none _ _ E t (proj1 (list_elem_of_In _ _) Ht)) as H. simpl in H. by rewrite lookup_singleton_eq in H.
Qed.
(** the last vector that is inserted is the value that is sent, whatever the object held before:
    with the name, the length as the dimension and the quality VALID; a device of an older
    version is sent the same unless the data is encoded, and then the client refuses. *)
Theorem insertion_sent t datum d dev :
  t ∈ seq_types →
  ∃ d', put_vector t datum d = Some (d', inr tt) ∧
    device_to_attr_4 d' = mkOut (da_name d) ATTR_VALID FMT_UNKNOWN (da_time d) (mkDim (Z.of_nat (length datum)) 0) (Some (t, datum)) ∧
    device_to_attr dev d' =
      if bool_decide (t = ATT_ENCODED) then
        inl (TErr NonSupportedFeature [mkDevError "API_UnsupportedFeature" ERR ("Device " +:+ dev +:+ " does not support DevEncoded data type") "ApiUtil::device_to_attr"])
      else inr (device_to_attr_4 d').
Proof.
  intros Ht. destruct (run_put_vector t datum d) as [ty Hp]. eexists. split; [exact Hp|].
  assert (first_seq seq_types (put_data ty t datum d) = Some (t, datum)) as Hf.
  { unfold first_seq. rewrite put_data_seqs, find_only by done. by rewrite lookup_singleton_eq. }
  unfold device_to_attr_4, device_to_attr. rewrite Hf. split; [done|]. destruct t; done.
Qed.

(** ** From the server to the client *)

(** What travels of an answer: the union has the member of the data type, with the elements
    read followed by those set.  Of sequences without an order the model of the server has no
    elements. *)
Definition sent_union (ty : CmdArgType) (d : NetData) : option (AttrValUnion WElt) :=
  match d with
  | AttData (Seq l) set => t ← union_member ty; Some (mkUnion t ((EltNum <$> l) ++ set))
  | AttData (Encoded l) set => Some (mkUnion ATT_ENCODED (((λ e, EltEncoded e.1 e.2) <$> l) ++ set))
  | AttData (OtherSeq _) _ => None
  | PolledData u => Some u
  | StateData st => Some (mkUnion DEVICE_STATE [EltState st])
  | StatusData text => Some (mkUnion ATT_STRING [EltString text])
  | NoData => Some (mkUnion ATT_NO_DATA [])
  end.
Definition sent (ty : CmdArgType) (v : NetValue) : option NetAttr :=
  u ← sent_union ty (net_data v);
  Some (mkNetAttr (net_name v)
    (mkAV u (net_quality v) (net_time v) (mkDim (net_r_dim v).1 (net_r_dim v).2) (mkDim (net_w_dim v).1 (net_w_dim v).2) (net_errs v))
    (net_format v) (net_type v)).
(** A client of IDL 3 gets the same in a [CORBA::Any], an enumerated value or a sequence, and
    takes it out with the overload for old devices ([vers] is 3). *)
Definition sent_any (u : AttrValUnion WElt) : AnyValue :=
  match union_d u, union_seq u with
  | DEVICE_STATE, [EltState st] => AnyEnum st
  | t, l => AnySeq t l
  end.
Definition sent_3 v : OldAttr :=
  let av := na_av v in
  mkOldAttr (na_name v) (PollRing.av_quality av) (PollRing.av_time av) (PollRing.av_r_dim av) (PollRing.av_w_dim av) (PollRing.av_err_list av)
    (sent_any (PollRing.av_value av)).
(** The call of [ApiUtil::attr_to_device] in [DeviceProxy::read_attribute], by the version. *)
Definition attr_to_device_of (idl : Idl) v : DA unit :=
  match idl with Data5 => attr_to_device_5 v | Data4 => attr_to_device_4 v | Data3 => attr_to_device (sent_3 v) 3 end.

Lemma union_numeric ty : is_numeric ty = true → ∃ t, union_member ty = Some t ∧ t ∈ any_types.
Proof. intros H. destruct ty; try done; eexists; (split; [reflexivity|unfold any_types; set_solver]). Qed.
Lemma any_seq t : t ∈ any_types → t ∈ seq_types.
Proof. unfold any_types, seq_types. set_solver. Qed.
Lemma value_quality now_ns l a : checked_quality now_ns l a ≠ ATTR_INVALID.
Proof. unfold checked_quality. by repeat case_match. Qed.

(** A value with a member is put in a new object. *)
Lemma run_attr_to_device idl v t l :
  PollRing.av_quality (na_av v) ≠ ATTR_INVALID → PollRing.av_value (na_av v) = mkUnion t l → t ∈ any_types → PollRing.av_err_list (na_av v) = [] →
  ∃ d, attr_to_device_of idl v DeviceAttribute_default = Some (d, inr tt) ∧ seqs d = {[t := l]} ∧ da_err_list d = Some [] ∧
    (da_name d, da_quality d, da_time d) = (na_name v, PollRing.av_quality (na_av v), Some (PollRing.av_time (na_av v))) ∧
    (mkDim (da_dim_x d) (da_dim_y d), mkDim (da_w_dim_x d) (da_w_dim_y d)) = (PollRing.av_r_dim (na_av v), PollRing.av_w_dim (na_av v)).
Proof.
  intros Hq Hu Ht He. destruct v as [nm [u q tv [rx ry] [wx wy] errs] f ty]. simpl in *. subst u errs.
  assert (∃ d, attr_to_device_base (mkNetAttr nm (mkAV (mkUnion t l) q tv (mkDim rx ry) (mkDim wx wy) []) f ty) DeviceAttribute_default = Some (d, inr tt) ∧
    seqs d = {[t := l]} ∧ da_err_list d = Some [] ∧ (da_name d, da_quality d, da_time d) = (nm, q, Some tv) ∧
    (mkDim (da_dim_x d) (da_dim_y d), mkDim (da_w_dim_x d) (da_w_dim_y d)) = (mkDim rx ry, mkDim wx wy)) as (d & Hd & H).
  { unfold attr_to_device_base. rewrite (run_bind _ _ _ _ _ eq_refl). simpl. rewrite (bool_decide_eq_false_2 _ Hq).
    assert (t ≠ DEVICE_STATE ∧ t ≠ ATT_NO_DATA) as [Hn1 Hn2] by (unfold any_types in Ht; split; intros ->; set_solver).
    destruct t; try done; by eexists. }
  destruct idl; simpl; [|by exists d|].
  { unfold attr_to_device, sent_3. rewrite (run_bind _ _ _ _ _ eq_refl). simpl. rewrite (bool_decide_eq_false_2 _ Hq).
    assert (t ≠ DEVICE_STATE) as Hn by (unfold any_types in Ht; intros ->; set_solver).
    assert (sent_any (mkUnion t l) = AnySeq t l) as -> by (unfold sent_any; simpl; by destruct t).
    rewrite (bool_decide_eq_true_2 _ Ht). by eexists. }
  unfold attr_to_device_5. rewrite (run_bind _ _ _ _ _ Hd). by eexists.
Qed.

Section Receives.
Context (idl : Idl) (now : TimeVal) (now_ns : Z) (hook : SM DevSt unit) (is_allowed : nat → outcome bool)
  (read_attr_hardware : list nat → outcome unit) (read : nat → Attribute → option UserRead)
  (kernel_state user_state : SM DevSt DevState) (kernel_status user_status : SM DevSt string) (polled : list (string * Z)).

Lemma answer_fields x u tv l a set v :
  let w := value_answer idl now_ns x u tv l a set v in
  net_data w = AttData (Seq l) (from_option fst [] set) ∧ net_name w = att_name x ∧ net_quality w = checked_quality now_ns l a ∧ net_time w = tv ∧
  net_r_dim w = dims (ur_att u) ∧ net_w_dim w = from_option snd (0, 0) set ∧ net_errs w = net_errs v.
Proof. unfold value_answer, with_format. by destruct idl. Qed.
(** What the client has of an answer of the server. *)
Lemma answer_received x u tv l a set v t :
  net_errs v = [] → is_numeric (data_type (info (att_of x))) = true → union_member (data_type (info (att_of x))) = Some t →
  Z.of_nat (length l) < 2 ^ 31 → dim_count (dims (ur_att u)).1 (dims (ur_att u)).2 = Z.of_nat (length l) →
  Z.of_nat (length (from_option fst [] set)) < 2 ^ 31 →
  dim_count (from_option snd (0, 0) set).1 (from_option snd (0, 0) set).2 = Z.of_nat (length (from_option fst [] set)) →
  ∃ na d, sent (data_type (info (att_of x))) (value_answer idl now_ns x u tv l a set v) = Some na ∧
    attr_to_device_of idl na DeviceAttribute_default = Some (d, inr tt) ∧
    (da_name d, da_quality d, da_time d) = (att_name x, checked_quality now_ns l a, Some tv) ∧
    joined d t (EltNum <$> l) (from_option fst [] set).
Proof.
  intros Hv Hty Ht Hl Hd Hl' Hd'. destruct (answer_fields x u tv l a set v) as (Ed & En & Eq & Et & Er & Ew & Ee). set (w := value_answer _ _ _ _ _ _ _ _ _) in *. clearbody w.
  destruct (union_numeric _ Hty) as (t' & Ht' & Hin). rewrite Ht' in Ht. injection Ht as ->. rewrite Hv in Ee.
  assert (sent_union (data_type (info (att_of x))) (net_data w) = Some (mkUnion t ((EltNum <$> l) ++ from_option fst [] set))) as Hu by (by rewrite Ed; simpl; rewrite Ht').
  unfold sent. rewrite Hu. cbn [mbind option_bind]. destruct w as [nm errs q tw rd wd dt f ty]. simpl in *. subst.
  edestruct (run_attr_to_device idl) as (d & Hrun & Hs & He & Hh & Hdim); cycle 4.
  - eexists _, d. split; [reflexivity|]. split; [exact Hrun|]. cbn [na_name na_av PollRing.av_quality PollRing.av_time PollRing.av_r_dim PollRing.av_w_dim] in Hh, Hdim. injection Hh as -> -> ->. injection Hdim as E1 E2 E3 E4.
    split; [done|]. split; [|by apply any_seq|rewrite Hs; apply lookup_singleton_eq| | |].
    + unfold no_errors. by rewrite He.
    + by rewrite E1, E2, length_fmap.
    + by rewrite E3, E4.
    + by rewrite length_fmap.
  - apply value_quality.
  - reflexivity.
  - done.
  - done.
Qed.

(** C25: from the code of the user of the server to the code of the user of the client, for an
    attribute of numbers, local, that is read alone or with others (the names are different,
    none is State or Status, and a request for each of the others alone returns; the hook and
    [read_attr_hardware] return).  When the reading is allowed and the code of the user sets
    the numbers [l], as many as the sizes it gives, with the quality VALID and a date, then
    what the client of IDL 3, 4 or 5 extracts of a new object is the same numbers, and, as the
    set value, the elements that were last written, when they are as many as their sizes say
    (see [failed_write_then_read]); with the date, and the quality that the alarms give. *)
Theorem client_receives names second_try s i nm j x v u tv l a t :
  ready read names second_try s hook read_attr_hardware →
  (∀ k nm, names !! k = Some nm → k ≠ i → ∃ v, back s !! place second_try k = Some v ∧
    returns_alone idl now now_ns hook is_allowed read_attr_hardware read kernel_state user_state kernel_status user_status polled s nm v) →
  names !! i = Some nm → index_in (r_atts s) nm = Some j → r_atts s !! j = Some x → back s !! place second_try i = Some v → net_errs v = [] →
  plain_read is_allowed j x → user_gives read j x u tv l a → mutex_ready idl x u → is_Some (set_part (r_atts s) x) →
  union_member (data_type (info (att_of x))) = Some t →
  Z.of_nat (length l) < 2 ^ 31 → dim_count (dims (ur_att u)).1 (dims (ur_att u)).2 = Z.of_nat (length l) →
  (∀ w dim, set_part (r_atts s) x = Some (Some (w, dim)) → dim_count dim.1 dim.2 = Z.of_nat (length w) ∧ Z.of_nat (length w) < 2 ^ 31) →
  ∃ s' set v' na d, read_attributes_no_except idl now now_ns hook is_allowed read_attr_hardware read kernel_state user_state kernel_status user_status
      polled names second_try s = Some (s', inr tt) ∧ back s' !! place second_try i = Some v' ∧ set_part (r_atts s) x = Some set ∧
    sent (data_type (info (att_of x))) v' = Some na ∧ attr_to_device_of idl na DeviceAttribute_default = Some (d, inr tt) ∧
    (da_name d, da_quality d, da_time d) = (att_name x, checked_quality now_ns l a, Some tv) ∧
    (l ≠ [] → ∃ d', extract_read t d = Some (d', inr (Some (EltNum <$> l)))) ∧
    (∀ w dim, set = Some (w, dim) → w ≠ [] → ∃ d', extract_set t d = Some (d', inr (Some w))).
Proof.
  intros Hrd Hoth Hi Hj Hx Hv He Hp Hu Hmx Hsp0 Ht Hl Hd Hset.
  pose proof (ready_but_returns _ _ _ _ _ _ _ _ _ _ _ _ _ _ _ _ Hrd Hoth) as Hb.
  assert (read_request idl now now_ns is_allowed read polled names second_try s hook read_attr_hardware) as Hg.
  { eapply ready_request; [exact Hb|exact Hi|exact Hv|]. unfold alone_of. cbn [fst snd]. rewrite Hj. unfold at_. simpl. rewrite Hx.
    by eapply alone_defined. }
  clear Hb Hmx Hsp0. destruct (request_gives idl now now_ns hook is_allowed read_attr_hardware read kernel_state user_state kernel_status user_status polled names second_try s i nm j x v u tv l a Hg Hi Hj Hx Hv He Hp Hu) as (s' & set & Hs' & Hsp & Hb).
  assert (is_numeric (data_type (info (att_of x))) = true) as Hty.
  { pose proof (r_type _ _ (ug_value _ _ _ _ _ _ _ Hu)) as H. rewrite (ug_seen _ _ _ _ _ _ _ Hu), (proj1 (alarm_att_fields _)) in H.
    pose proof (ug_kept _ _ _ _ _ _ _ Hu) as Hk. injection Hk as Hk _ _. simpl in H. by rewrite Hk in H. }
  destruct (answer_received x u tv l a set v t He Hty Ht Hl Hd) as (na & d & Hna & Hrun & Hh & Hjo).
  1-2: destruct set as [[w dim]|]; [destruct (Hset w dim Hsp); done|done].
  exists s', set, (value_answer idl now_ns x u tv l a set v), na, d. split; [done|]. split; [done|]. split; [done|]. split; [done|]. split; [done|]. split; [done|]. split.
  - intros Hne. destruct (joined_read _ _ _ _ Hjo) as (d' & _ & Hr); [by destruct l|by exists d'].
  - intros w dim -> Hw. destruct (joined_set _ _ _ _ Hjo Hw) as (d' & _ & Hr). by exists d'.
Qed.
End Receives.

(** ** Instances of the properties of [DeviceAttribute], and behaviours worth knowing *)
Local Open Scope string_scope.
Local Open Scope list_scope.
Local Open Scope Z_scope.

(** Two numbers, read or inserted. *)
Definition ex_numbers : list WElt := [EltNum (I 3); EltNum (I 4)].
(** What an object holds, of which the test of a map is not evaluated. *)
Definition value_of {A} (o : option (DeviceAttribute * (cexn + A))) : option (cexn + A) := snd <$> o.

Lemma insert_extract_witness :
  ∃ d1 d2, put_vector ATT_SHORT ex_numbers DeviceAttribute_default = Some (d1, inr tt) ∧ get_vector ATT_SHORT d1 = Some (d2, inr (Some ex_numbers)) ∧
    seqs d2 = {[ATT_SHORT := ex_numbers]} ∧ (da_dim_x d2, da_dim_y d2) = (2, 0) ∧
    ∀ t', t' ∈ seq_types → t' ≠ ATT_SHORT → t' ≠ ATT_STATE → wrongtype_flag ∉ exceptions_flags DeviceAttribute_default →
      ∃ d3, get_vector t' d2 = Some (d3, inr None) ∧ wrongtype_flag ∈ ext_state d3 ∧ same_data d2 d3.
Proof. apply (insert_extract ATT_SHORT ex_numbers DeviceAttribute_default); [apply (bool_decide_unpack _); vm_compute; done|done|done|done]. Defined.

(** A value read with its set value. *)
Definition ex_joined : DeviceAttribute :=
  mkDA "current" {[failed_flag; isempty_flag]} 2 0 1 0 ATTR_VALID SCALAR DEV_SHORT (Some ex_time) (Some []) {[ATT_SHORT := ex_numbers ++ [EltNum (I 9)]]} ON false ∅.
Lemma read_and_set_values_witness :
  (∃ d', extract_read ATT_SHORT ex_joined = Some (d', inr (Some ex_numbers)) ∧ same_data ex_joined d') ∧
  (∃ d', extract_set ATT_SHORT ex_joined = Some (d', inr (Some [EltNum (I 9)])) ∧ same_data ex_joined d').
Proof.
  destruct (read_and_set_values ex_joined ATT_SHORT ex_numbers [EltNum (I 9)]) as (H1 & H2 & _).
  - split; try done. apply (bool_decide_unpack _). vm_compute. done.
  - done.
  - split; [exact H1|]. by apply H2.
Defined.

Definition ex_failed : DeviceAttribute :=
  mkDA "current" {[failed_flag; isempty_flag]} 0 0 0 0 ATTR_INVALID SCALAR DEV_SHORT (Some ex_time) (Some [mkDevError "Broken" ERR "no value" "user"]) ∅ ON false ∅.
Lemma failed_reading_witness :
  ∃ d', extract_scalar ATT_SHORT ex_failed = Some (d', inl (TErr PlainDevFailed [mkDevError "Broken" ERR "no value" "user"])).
Proof.
  destruct (failed_reading ex_failed (mkDevError "Broken" ERR "no value" "user") [] ATT_SHORT eq_refl) as (d' & _ & _ & H & _).
  exists d'. apply H. apply (bool_decide_unpack _). vm_compute. done.
Defined.

Lemma insertion_sent_witness :
  ∃ d', put_vector ATT_ENCODED [EltEncoded "raw" []] DeviceAttribute_default = Some (d', inr tt) ∧
    device_to_attr_4 d' = mkOut "Name not set" ATTR_VALID FMT_UNKNOWN (Some (mkTimeVal 0 0 0)) (mkDim 1 0) (Some (ATT_ENCODED, [EltEncoded "raw" []])).
Proof.
  destruct (insertion_sent ATT_ENCODED [EltEncoded "raw" []] DeviceAttribute_default "a/b/c") as (d' & H & E & _).
  - apply (bool_decide_unpack _). vm_compute. done.
  - exists d'. split; [exact H|exact E].
Defined.

Lemma client_receives_witness :
  ∃ s' v' na d d', ex_read_request Data5 ex_user (mret ON) ex_names None ex_start = Some (s', inr tt) ∧ back s' !! 0%nat = Some v' ∧
    sent (data_type (info (att_of ex_first))) v' = Some na ∧ attr_to_device_of Data5 na DeviceAttribute_default = Some (d, inr tt) ∧
    da_time d = Some ex_time ∧ extract_read ATT_SHORT d = Some (d', inr (Some [EltNum (I 7)])).
Proof.
  destruct (client_receives Data5 (mkTimeVal 200 0 0) 0 ex_ok (λ _, Ok true) (λ _, Ok tt) ex_user (mret ON) (mret ON) (mret "ok") (mret "ok") []
    ex_names None ex_start 0 "Current" 0 ex_first ex_blank ex_result ex_time [I 7] ex_seen ATT_SHORT)
    as (s' & set & v' & na & d & H1 & H2 & _ & H3 & H4 & H5 & H6 & _).
  - apply ex_read_ready.
  - intros k nm Hk _. by apply ex_each_alone.
  - reflexivity.
  - reflexivity.
  - reflexivity.
  - reflexivity.
  - reflexivity.
  - split; try done. right. by left.
  - apply ex_gives.
  - intros _. by split.
  - by eexists.
  - reflexivity.
  - reflexivity.
  - reflexivity.
  - intros w dim [= <- <-]. split; reflexivity.
  - destruct H6 as [d' H6]; [done|]. exists s', v', na, d, d'. injection H5 as _ _ Ht. by repeat (split; [done|]).
Defined.

(** ** Behaviours worth knowing *)

(** A sequence given by reference to an object without data: a null pointer is followed. *)
Example ref_into_empty : insert_ref ATT_SHORT ex_numbers DeviceAttribute_default = None.
Proof. reflexivity. Qed.
(** A state that was read hides the state that is inserted. *)
Definition ex_read_state : DeviceAttribute :=
  mkDA "State" {[failed_flag; isempty_flag]} 1 0 0 0 ATTR_VALID SCALAR DEV_STATE (Some ex_time) (Some []) ∅ FAULT true ∅.
Example state_hides :
  value_of (put_vector ATT_STATE [EltState MOVING] ex_read_state ≫= λ r, get_vector ATT_STATE r.1) = Some (inr (Some [EltState FAULT])).
Proof. vm_compute. reflexivity. Qed.
(** An object that is read again with another type still has the first value. *)
Definition ex_net (t : AttributeDataType) (l : list WElt) (ty : CmdArgType) : NetAttr :=
  mkNetAttr "current" (mkAV (mkUnion t l) ATTR_VALID ex_time (mkDim (Z.of_nat (length l)) 0) (mkDim 0 0) []) SPECTRUM ty.
Example stale_value :
  value_of (attr_to_device_5 (ex_net ATT_SHORT ex_numbers DEV_SHORT) DeviceAttribute_default ≫= λ r,
    attr_to_device_5 (ex_net ATT_STRING [EltString "off"] DEV_STRING) r.1 ≫= λ r, get_vector ATT_SHORT r.1) = Some (inr (Some ex_numbers)).
Proof. vm_compute. reflexivity. Qed.
(** The state of the attribute State is not found by the extraction of the value read. *)
Example read_state_missed :
  value_of (extract_read ATT_STATE ex_read_state) = Some (inr None) ∧ value_of (get_vector ATT_STATE ex_read_state) = Some (inr (Some [EltState FAULT])).
Proof. vm_compute. done. Qed.
(** The set value of an encoded attribute that is only written is not extracted. *)
Definition ex_written_encoded : DeviceAttribute :=
  mkDA "image" {[failed_flag; isempty_flag]} 1 0 1 0 ATTR_VALID SCALAR DEV_ENCODED (Some ex_time) (Some []) {[ATT_ENCODED := [EltEncoded "raw" []]]} ON false ∅.
Example written_encoded_missed : value_of (extract_encoded_set ex_written_encoded) = Some (inr None).
Proof. vm_compute. reflexivity. Qed.
Example written_encoded_vector : value_of (extract_set ATT_ENCODED ex_written_encoded) = Some (inr (Some [EltEncoded "raw" []])).
Proof. vm_compute. reflexivity. Qed.
