(* ===== verification/PollStatus.v ===== *)
(** * The status of the polling (src/src/server/dserverpoll.cpp, src/src/client/devapi_base.cpp)

  [DServer::dev_poll_status] describes each polled object of a device in a text; the
  client finds in these texts whether an object is polled and with which period
  ([DeviceProxy::is_polled]), and polls an object or stops its polling with the commands of
  the admin device.  The durations are in nanoseconds; those that are printed go through
  double-precision numbers. *)
From Stdlib Require Import Ascii SpecFloat.
From stdpp Require Import pretty.
From S2P Require Import Prelude StateExn CppString PollRing PollObj AttrHistory Number PollThread PollPool DServerPoll ClientExn.
Local Open Scope string_scope.
Local Open Scope list_scope.
Local Open Scope Z_scope.

(** ** Numbers in texts *)

Definition newline : string := String (ascii_of_nat 10) "".
Definition tab : string := String (ascii_of_nat 9) "".

Definition double_of (z : Z) : spec_float := binary_normalize 53 1024 z 0 false.
(** [duration_s] and [duration_ms]. *)
Definition duration_s (n : Z) : spec_float := SFdiv 53 1024 (double_of n) (double_of 1000000000).
Definition duration_ms (n : Z) : spec_float := SFdiv 53 1024 (double_of n) (double_of 1000000).

(** The nearest integer of [m / 2^e], to the even one in the middle. *)
Definition round_even (m e : Z) : Z :=
  let q := m / 2 ^ e in let r := m mod 2 ^ e in
  match Z.compare (2 * r) (2 ^ e) with Lt => q | Gt => q + 1 | Eq => if Z.even q then q else q + 1 end.
Definition three_digits (n : Z) : string := (if n <? 10 then "00" else if n <? 100 then "0" else "") +:+ pretty n.
(** [std::fixed << std::setprecision(3) << f]. *)
Definition fixed3 (f : spec_float) : string :=
  let text (s : bool) (n : Z) := (if s then "-" else "") +:+ pretty (n / 1000) +:+ "." +:+ three_digits (n mod 1000) in
  match f with
  | S754_zero s => text s 0
  | S754_infinity s => (if s then "-" else "") +:+ "inf"
  | S754_nan => "nan"
  | S754_finite s m e => text s (if 0 <=? e then Z.pos m * 1000 * 2 ^ e else round_even (Z.pos m * 1000) (- e))
  end.
(** The conversion of a [double] to a [long]. *)
Definition to_long (f : spec_float) : outcome Z :=
  match f with
  | S754_zero _ => Ok 0
  | S754_finite s m e =>
      let n := if 0 <=? e then Z.pos m * 2 ^ e else Z.pos m / 2 ^ (- e) in
      let n := if s then - n else n in
      if (- 2 ^ 63 <=? n) && (n <? 2 ^ 63) then Ok n else Undef
  | _ => Undef
  end.
(** [duration_cast<milliseconds>]. *)
Definition ms_count (n : Z) : Z := Z.quot n 1000000.

(** The time since the last update, given in seconds. *)
Definition since_text (diff_t : spec_float) : outcome string :=
  if SFltb diff_t (double_of 1) then
    nb_msec ← to_long (SFmul 53 1024 diff_t (double_of 1000)); Ok (pretty nb_msec +:+ " mS")
  else if SFltb diff_t (double_of 60) then
    nb_sec ← to_long diff_t;
    nb_msec ← to_long (SFmul 53 1024 (SFsub 53 1024 diff_t (double_of nb_sec)) (double_of 1000));
    Ok (pretty nb_sec +:+ " S and " +:+ pretty nb_msec +:+ " mS")
  else
    nb_min ← to_long (SFdiv 53 1024 diff_t (double_of 60));
    nb_sec ← to_long (SFsub 53 1024 diff_t (double_of (60 * nb_min)));
    whole ← to_long diff_t;
    nb_msec ← to_long (SFmul 53 1024 (SFsub 53 1024 diff_t (double_of whole)) (double_of 1000));
    Ok (pretty nb_min +:+ " MN" +:+ (if nb_sec =? 0 then "" else " ," +:+ pretty nb_sec +:+ " S") +:+
        (if nb_msec =? 0 then "" else " and " +:+ pretty nb_msec +:+ " mS")).

(** Every "attribute" becomes "command": the search goes on from what was put, in which no
    other one begins.  [skip] characters of a word replaced are left. *)
Fixpoint replace_attribute (skip : nat) (s : string) : string :=
  match s with
  | "" => ""
  | String a r =>
      match skip with
      | S k => replace_attribute k r
      | O => if String.prefix "attribute" s then "command" +:+ replace_attribute 8 r else String a (replace_attribute 0 r)
      end
  end.

(** ** The server *)

Section Status.
Context {Any Elt : Type}.
Implicit Types o : PollObj Any Elt.
Implicit Types l : list (PollObj Any Elt).

(** The names of the commands of the class, [polling_bef_9], and the date of each object. *)
Context (commands : list string) (bef_9 : bool) (now : nat → Z).

Definition attr_not_found (nm : string) {A} : outcome A :=
  throw_exception "API_AttrNotFound" (nm +:+ " attribute not found") "MultiAttribute::get_attr_by_name".
Definition get_attr_name (d : DevPoll) (nm : string) : outcome string :=
  match find_attr nm (attr_list d) with Some a => Ok (at_name a) | None => attr_not_found nm end.

Definition is_cmd o : bool := bool_decide (po_type o = POLL_CMD).
Definition is_state_name (nm : string) : bool := bool_decide (nm = "state") || bool_decide (nm = "status").
Definition duplicate o : bool := negb (is_cmd o) && is_state_name (po_name o).

(** The attributes that are polled with a period, in order. *)
Fixpoint polled_together (d : DevPoll) l : outcome (list (Z * string)) :=
  match l with
  | [] => Ok []
  | o :: l =>
      if is_cmd o then polled_together d l
      else nm ← get_attr_name d (po_name o); r ← polled_together d l; Ok ((po_upd o, nm) :: r)
  end.
Definition with_period (upd : Z) (together : list (Z * string)) : list string :=
  snd <$> filter (λ x, x.1 = upd) together.

Definition name_text (d : DevPoll) o : outcome string :=
  if is_cmd o then
    Ok ("Polled command name = " +:+ match list_find (λ c, tolower c = po_name o) commands with Some (_, c) => c | None => "" end)
  else
    nm ← (if bool_decide (po_name o = "state") then Ok "State"
          else if bool_decide (po_name o = "status") then Ok "Status" else get_attr_name d (po_name o));
    Ok ("Polled attribute name = " +:+ nm).
Definition period_text o : string :=
  if po_upd o =? 0 then newline +:+ "Polling externally triggered"
  else newline +:+ "Polling period (mS) = " +:+ pretty (ms_count (po_upd o)).
Definition depth_text (d : DevPoll) o : outcome string :=
  depth ← (if is_cmd o then get_cmd_poll_ring_depth d (po_name o) else get_attr_poll_ring_depth d (po_name o));
  Ok (newline +:+ "Polling ring buffer depth = " +:+ pretty depth).

Definition reading_text (together : list (Z * string)) o : string :=
  if is_cmd o then "command execution (mS) = "
  else match with_period (po_upd o) together with
       | [] => "attribute reading(ms) = "
       | [_] => "attribute reading (mS) = "
       | names => "attributes (" +:+ String.concat " + " names +:+ ") reading (mS) = "
       end.
Definition times_text (together : list (Z * string)) (t : Z) o : outcome string :=
  if po_needed_time o =? 0 then Ok (newline +:+ "The polling buffer is externally filled in")
  else if po_upd o =? 0 then Ok ""
  else
    since ← get_last_insert_date (po_ring o);
    s ← since_text (duration_s (t - since - po_needed_time o));
    Ok (newline +:+ "Time needed for the last " +:+ reading_text together o +:+ fixed3 (duration_ms (po_needed_time o)) +:+ newline +:+ "Data not updated since " +:+ s).
Definition deltas_text o : outcome string :=
  match get_delta_t 4 (po_ring o) with
  | Ok delta => Ok (newline +:+ "Delta between last records (in mS) = " +:+ String.concat ", " ((λ x, pretty (ms_count x)) <$> delta))
  | Exc (DevFailed _) => Ok ""
  | Exc e => Exc e
  | Undef => Undef
  end.
Definition error_text (vers : Z) o : outcome string :=
  last_err ← (if vers <? 3 then is_last_an_error (po_ring o)
              else if is_cmd o then is_last_cmd_an_error (po_ring o) else is_last_attr_an_error (po_ring o));
  if negb (last_err : bool) then Ok ""
  else
    exe_ptr ← get_last_except (po_ring o);
    errors ← deref exe_ptr;
    e ← deref (errors !! 0%nat);
    Ok (newline +:+ (if is_cmd o then "Last command execution FAILED :" else "Last attribute read FAILED :") +:+
        newline +:+ tab +:+ "Reason = " +:+ reason e +:+ newline +:+ tab +:+ "Desc = " +:+ desc e +:+ newline +:+ tab +:+ "Origin = " +:+ origin e).
Definition records_text (vers : Z) (together : list (Z * string)) (t : Z) o : outcome string :=
  if is_empty (po_ring o) then Ok (newline +:+ "No data recorded yet")
  else
    times ← times_text together t o;
    deltas ← deltas_text o;
    errs ← error_text vers o;
    Ok (times +:+ deltas +:+ errs).
Definition obj_text (d : DevPoll) (vers : Z) (together : list (Z * string)) (t : Z) o : outcome string :=
  name ← name_text d o;
  depth ← depth_text d o;
  records ← records_text vers together t o;
  Ok (name +:+ period_text o +:+ depth +:+ records).

Fixpoint obj_texts (d : DevPoll) (vers : Z) (together : list (Z * string)) (i : nat) l : outcome (list (PollObj Any Elt * string)) :=
  match l with
  | [] => Ok []
  | o :: l => t ← obj_text d vers together (now i) o; r ← obj_texts d vers together (S i) l; Ok ((o, t) :: r)
  end.
(** The commands first, with the state and the status; then the attributes. *)
Definition cmd_texts (x : PollObj Any Elt * string) : list string :=
  if is_cmd x.1 then [x.2] else if duplicate x.1 then [replace_attribute 0 x.2] else [].
Definition attr_texts (x : PollObj Any Elt * string) : list string := if is_cmd x.1 then [] else [x.2].
Definition status_of (d : DevPoll) (dev : Device Any Elt) : outcome (list string) :=
  match poll_obj_list dev with
  | [] => Ok []
  | l =>
      together ← (if bef_9 then Ok [] else polled_together d l);
      texts ← obj_texts d (dev_idl_version dev) together 0 l;
      Ok ((texts ≫= cmd_texts) ++ (texts ≫= attr_texts))
  end.

Definition dev_poll_status (get_device_by_name : string → exn + nat) (dev_name : string) : SM (SrvSt Any Elt) (list string) :=
  match get_device_by_name dev_name with
  | inl e => lift (Exc e)
  | inr i => d ← dev_info i; dev ← device i; lift (status_of d dev)
  end.
End Status.

(** ** The client *)

(** Positions, with [npos]; [pos + k] wraps around. *)
Definition find_pos (p s : string) (start : Z) : Z :=
  if start <=? Z.of_nat (len s) then match find p s (Z.to_nat start) with Some i => Z.of_nat i | None => npos end else npos.
Definition after (pos k : Z) : Z := (pos + k) mod 2 ^ 64.
Definition sub_text (s : string) (pos last : Z) : outcome string :=
  if pos <=? Z.of_nat (len s) then
    let n := (last - pos) mod 2 ^ 64 in substr s (Z.to_nat pos) (if Z.of_nat (len s) <? n then len s else Z.to_nat n)
  else out_of_range.

Inductive polled_object := Cmd | Attr.
#[export] Instance polled_object_eq : EqDecision polled_object.
Proof. solve_decision. Defined.

(** The entry is of the other kind. *)
Definition skipped (obj : polled_object) (loc_obj_name obj_type : string) : bool :=
  match obj with
  | Attr => bool_decide (obj_type = "command")
  | Cmd => bool_decide (obj_type = "attribute") && negb (is_state_name loc_obj_name)
  end.
Fixpoint search_polled (obj : polled_object) (loc_obj_name : string) (poll_str : list string) : outcome (option string) :=
  match poll_str with
  | [] => Ok None
  | tmp_str :: poll_str =>
      let pos := after (find_pos " " tmp_str 0) 1 in
      obj_type ← sub_text tmp_str pos (find_pos " " tmp_str (after pos 1));
      if skipped obj loc_obj_name obj_type then search_polled obj loc_obj_name poll_str
      else
        let pos := after (find_pos "=" tmp_str 0) 2 in
        let last := find_pos ". S" tmp_str (after pos 1) in
        let last := if last =? npos then find_pos newline tmp_str (after pos 1) else last in
        name ← sub_text tmp_str pos last;
        if bool_decide (tolower name = loc_obj_name) then
          if negb (find_pos "triggered" tmp_str last =? npos) then Ok (Some "0")
          else
            let pos := after (find_pos "=" tmp_str last) 2 in
            Some <$> sub_text tmp_str pos (find_pos newline tmp_str (after pos 1))
        else search_polled obj loc_obj_name poll_str
  end.
Definition is_polled (obj : polled_object) (obj_name : string) (poll_str : list string) : outcome (option string) :=
  search_polled obj (tolower obj_name) poll_str.

(** [stream >> n] for an [int]: zero when there is no number, the bound when it is too
    great. *)
Definition stream_int (s : string) : Z :=
  let s := skip_blanks s in
  let '(neg, s) := match s with String "-" s => (true, s) | String "+" s => (false, s) | _ => (false, s) end in
  match s with
  | String a _ =>
      if is_digit a then let n := read_digits s 0 in Z.max (- 2 ^ 31) (Z.min (2 ^ 31 - 1) (if neg then - n else n)) else 0
  | "" => 0
  end.
(** The text is followed by [std::ends]. *)
Definition period_of (poll_per : option string) : Z :=
  match poll_per with Some s => stream_int (s +:+ String Ascii.zero "") | None => 0 end.

Inductive AdminArg := LongStrings (lvalue : list Z) (svalue : list string) | Strings (svalue : list string) | OneString (s : string).

Section Client.
(** [command_inout] of the proxy to the admin device, which [get_admin_device] may have to
    build. *)
Context {W : Type} (get_admin_device : XM cexn W unit) (command_inout : string → AdminArg → XM cexn W (list string)) (device_name : string).

(** A second try when the connection fails. *)
Definition admin_command (cmd : string) (din : AdminArg) : XM cexn W (list string) :=
  catch_class CommunicationFailed (command_inout cmd din) (λ _, command_inout cmd din).
Definition polling_status : XM cexn W (list string) := get_admin_device;; admin_command "DevPollStatus" (OneString device_name).
(** An exception of the standard library goes through. *)
Definition std {A} (o : outcome A) : XM cexn W A :=
  λ w, match o with Ok a => Some (w, inr a) | Exc (DevFailed l) => Some (w, inl (TErr PlainDevFailed l)) | Exc (OtherExc s) => Some (w, inl (StdErr s)) | Undef => None end.
Definition polled_period (obj : polled_object) (obj_name : string) : XM cexn W (option string) :=
  poll_str ← polling_status; std (is_polled obj obj_name poll_str).

Definition is_command_polled (cmd_name : string) : XM cexn W bool := u ← polled_period Cmd cmd_name; mret (bool_decide (is_Some u)).
Definition is_attribute_polled (attr_name : string) : XM cexn W bool := u ← polled_period Attr attr_name; mret (bool_decide (is_Some u)).
Definition get_command_poll_period (cmd_name : string) : XM cexn W Z := u ← polled_period Cmd cmd_name; mret (period_of u).
Definition get_attribute_poll_period (attr_name : string) : XM cexn W Z := u ← polled_period Attr attr_name; mret (period_of u).

Definition poll_object (obj : polled_object) (kind obj_name : string) (period : Z) : XM cexn W unit :=
  poll ← polled_period obj obj_name;
  get_admin_device;;
  let din := LongStrings [period] [device_name; kind; obj_name] in
  match poll with
  | Some poll_per =>
      let per := period_of (Some poll_per) in
      if (per =? period) || (per =? 0) then mret tt else _ ← admin_command "UpdObjPollingPeriod" din; mret tt
  | None => _ ← admin_command "AddObjPolling" din; mret tt
  end.
Definition poll_command : string → Z → XM cexn W unit := poll_object Cmd "command".
Definition poll_attribute : string → Z → XM cexn W unit := poll_object Attr "attribute".
Definition stop_poll_command (cmd_name : string) : XM cexn W unit :=
  get_admin_device;; _ ← admin_command "RemObjPolling" (Strings [device_name; "command"; cmd_name]); mret tt.
Definition stop_poll_attribute (attr_name : string) : XM cexn W unit :=
  get_admin_device;; _ ← admin_command "RemObjPolling" (Strings [device_name; "attribute"; attr_name]); mret tt.
End Client.
