(* ===== verification/PollStatusTheory.v ===== *)
(** * The client reads the status of the polling

  The texts that the server writes are the ones that the client understands: the period of
  a polled object is read back, provided the names and the texts of the last errors do not
  have the words that the client looks for. *)
From Stdlib Require Import Ascii SpecFloat.
From stdpp Require Import pretty.
From S2P Require Import Prelude StateExn PollRing AttrHistory PollObj PollThread PollTheory CppString PollPool DServerPoll DServerTheory DServerWitness Number FileDbCmdTheory ClientExn PollStatus.
Local Open Scope string_scope.
Local Open Scope list_scope.
Local Open Scope Z_scope.
#[local] Arguments String.append : simpl nomatch.

(** ** Texts without a word *)

Definition absent (p s : string) : Prop := find_at p s = None.
Lemma absent_char a p s : a ∈ chars p → a ∉ chars s → absent p s.
Proof. apply find_at_absent. Qed.
Lemma prefix_stops p x c r : c ∉ chars p → String.prefix p (x +:+ String c r) = true → String.prefix p x = true.
Proof.
  revert x. induction p as [|a p IH]; intros x Hp H; [by destruct x|].
  destruct x as [|b x]; simpl in *.
  - destruct (Ascii.ascii_dec a c); [|done]. subst. set_solver.
  - destruct (Ascii.ascii_dec a b); [|done]. apply IH; [set_solver|done].
Qed.
(** A character that the word does not have separates. *)
Lemma absent_sep p c x r : c ∉ chars p → p ≠ "" → absent p x → absent p r → absent p (x +:+ String c r).
Proof.
  intros Hc Hp. unfold absent. induction x as [|a x IH]; intros Hx Hr.
  - change ("" +:+ String c r) with (String c r). apply find_at_cons_None. split; [|done]. destruct p as [|b p]; [done|].
    apply prefix_ne. intros ->. apply Hc. simpl. set_solver.
  - apply find_at_cons_None in Hx as [Hpre Hx]. change (String a x +:+ String c r) with (String a (x +:+ String c r)).
    apply find_at_cons_None. split; [|by apply IH]. apply not_true_is_false. intros H%(prefix_stops p (String a x) c r); congruence.
Qed.
Lemma absent_tail p a s : absent p (String a s) → absent p s.
Proof. by intros [_ H]%find_at_cons_None. Qed.
Lemma absent_drop p x r : absent p (x +:+ r) → absent p r.
Proof. induction x as [|a x IH]; [done|]. change (String a x +:+ r) with (String a (x +:+ r)). intros H%absent_tail. by apply IH. Qed.
(** Characters that the word does not have, then anything. *)
Lemma absent_skip p y r : (∀ c, c ∈ chars y → c ∉ chars p) → p ≠ "" → absent p r → absent p (y +:+ r).
Proof.
  intros Hc Hp Hr. induction y as [|a y IH]; [done|]. change (String a y +:+ r) with (String a (y +:+ r)).
  apply (absent_sep p a "" (y +:+ r)); [apply Hc; simpl; set_solver|done| |apply IH; intros c Hc'; apply Hc; simpl; set_solver].
  unfold absent. cbn [find_at]. destruct p; [done|]. done.
Qed.
Lemma absent_mid p x y r : y ≠ "" → (∀ c, c ∈ chars y → c ∉ chars p) → p ≠ "" → absent p x → absent p r → absent p (x +:+ y +:+ r).
Proof.
  intros Hy Hc Hp Hx Hr. destruct y as [|a y]; [done|]. change (String a y +:+ r) with (String a (y +:+ r)).
  apply absent_sep; [apply Hc; simpl; set_solver|done|done|]. apply absent_skip; [intros c Hc'; apply Hc; simpl; set_solver|done|done].
Qed.

(** The words that the client looks for after the name. *)
Definition word (p : string) : Prop := p = ". S" ∨ p = "triggered".
Lemma word_chars p : word p → p ≠ "" ∧ ∀ c, c ∈ (chars "0123456789-=+,(){}" ++ [ascii_of_nat 10; ascii_of_nat 9]) → c ∉ chars p.
Proof.
  intros [-> | ->]; (split; [done|]); intros c Hc Hp; revert c Hc Hp;
    refine (proj1 (Forall_forall (λ c, c ∉ chars _) _) _); apply (bool_decide_unpack _); vm_compute; done.
Qed.

(** ** Numbers *)

Definition digit_chars : list ascii := chars "0123456789".
Lemma pretty_go_chars x s : ∃ y, pretty_N_go x s = y +:+ s ∧ (∀ c, c ∈ chars y → c ∈ digit_chars) ∧ ((0 < x)%N → y ≠ "").
Proof.
  revert s. induction (N.lt_wf_0 x) as [x _ IH]. intros s. destruct (decide (x = 0)%N) as [->|Hx].
  - exists "". rewrite pretty_N_go_0. split; [done|]. split; [set_solver|lia].
  - rewrite pretty_N_go_step by lia. destruct (IH (x / 10)%N) with (s := String (pretty_N_char (x mod 10)) s) as (y & -> & Hy & _); [apply N.div_lt; lia|].
    exists (y +:+ String (pretty_N_char (x mod 10)) ""). split; [by rewrite app_assoc_str|]. split; [|by intros _; destruct y].
    intros c. rewrite chars_app, elem_of_app. intros [?|Hc]; [by apply Hy|]. simpl in Hc. apply list_elem_of_singleton in Hc as ->.
    unfold pretty_N_char, digit_chars. repeat case_match; apply (bool_decide_unpack _); vm_compute; done.
Qed.
Lemma pretty_go_app x s : pretty_N_go x s = pretty_N_go x "" +:+ s.
Proof.
  revert s. induction (N.lt_wf_0 x) as [x _ IH]. intros s. destruct (decide (x = 0)%N) as [->|Hx]; [done|].
  rewrite !(pretty_N_go_step x) by lia. rewrite (IH (x / 10)%N) by (apply N.div_lt; lia). rewrite (IH (x / 10)%N (N.div_lt x 10 ltac:(lia) ltac:(lia)) (String _ "")).
  by rewrite app_assoc_str.
Qed.
Lemma pretty_chars (n : Z) : pretty n ≠ "" ∧ ∀ c, c ∈ chars (pretty n) → c ∈ chars "0123456789-".
Proof.
  assert (∀ x : N, pretty x ≠ "" ∧ ∀ c, c ∈ chars (pretty x) → c ∈ digit_chars) as H.
  { intros x. unfold pretty, pretty_N. case_decide as E.
    - split; [done|]. intros c. simpl. unfold digit_chars. simpl. set_solver.
    - destruct (pretty_go_chars x "") as (y & -> & H1 & H2). rewrite app_empty. split; [apply H2; lia|done]. }
  assert (∀ c, c ∈ digit_chars → c ∈ chars "0123456789-") as Hd by (intros c Hc; change (chars "0123456789-") with (digit_chars ++ ["-"%char]); apply elem_of_app; by left).
  destruct n as [|p|p]; simpl.
  - split; [done|]. simpl. set_solver.
  - destruct (H (N.pos p)) as [H1 H2]. split; [done|]. intros c Hc. by apply Hd, H2.
  - destruct (H (N.pos p)) as [H1 H2]. split; [done|]. intros c Hc. change (c ∈ "-"%char :: chars (pretty (N.pos p))) in Hc. apply elem_of_cons in Hc as [->|Hc]; [|by apply Hd, H2].
    apply (bool_decide_unpack _). vm_compute. done.
Qed.
Lemma absent_number p x (n : Z) r : word p → absent p x → absent p r → absent p (x +:+ pretty n +:+ r).
Proof.
  intros Hw. destruct (word_chars p Hw) as [Hp Hc]. destruct (pretty_chars n) as [Hne Hn]. apply absent_mid; [done| |done].
  intros c H. apply Hc, elem_of_app. left. specialize (Hn c H).
  change (chars "0123456789-=+,(){}") with (chars "0123456789-" ++ chars "=+,(){}"). apply elem_of_app. by left.
Qed.

(** What [stream_int] reads of a number that was printed. *)
Lemma read_digits_go x s acc : ∃ d : nat, read_digits (pretty_N_go x s) acc = read_digits s (acc * 10 ^ Z.of_nat d + Z.of_N x).
Proof.
  revert s acc. induction (N.lt_wf_0 x) as [x _ IH]. intros s acc. destruct (decide (x = 0)%N) as [->|Hx].
  - exists 0%nat. rewrite pretty_N_go_0. f_equal. simpl. lia.
  - rewrite pretty_N_go_step by lia. destruct (IH (x / 10)%N (N.div_lt x 10 ltac:(lia) ltac:(lia)) (String (pretty_N_char (x mod 10)) s) acc) as (d & ->).
    exists (S d). cbn [read_digits].
    assert (x mod 10 < 10)%N as Hm by (apply N.mod_lt; lia). pose proof (N.div_mod x 10 ltac:(lia)) as Hdm.
    assert (∀ m, (m < 10)%N → is_digit (pretty_N_char m) = true ∧ Z.of_nat (nat_of_ascii (pretty_N_char m) - 48) = Z.of_N m) as Hch.
    { intros m Hlt. assert (m = 0 ∨ m = 1 ∨ m = 2 ∨ m = 3 ∨ m = 4 ∨ m = 5 ∨ m = 6 ∨ m = 7 ∨ m = 8 ∨ m = 9)%N as Hn by lia. by destruct_or? Hn; subst; vm_compute. }
    destruct (Hch _ Hm) as [-> Hv]. f_equal. rewrite Hv, Nat2Z.inj_succ, Z.pow_succ_r by lia.
    generalize dependent (x / 10)%N. generalize dependent (x mod 10)%N. intros. lia.
Qed.
Lemma period_read_back (n : Z) : 0 ≤ n < 2 ^ 31 → period_of (Some (pretty n)) = n.
Proof.
  intros Hn. unfold period_of, stream_int. destruct (decide (n = 0)) as [->|Hne]; [done|].
  destruct n as [|p|p]; [done| |lia]. change (pretty (Z.pos p)) with (pretty_N_go (N.pos p) ""). rewrite <-pretty_go_app.
  destruct (pretty_first (N.pos p) ltac:(lia) (String Ascii.zero "")) as (m & l & Hm & Hl).
  destruct (read_digits_go (N.pos p) (String Ascii.zero "") 0) as (d & Hd).
  destruct (pretty_N_go (N.pos p) (String Ascii.zero "")) as [|a s] eqn:E; [done|]. simpl in Hl. injection Hl as -> Hl.
  assert (is_blank (pretty_N_char m) = false ∧ is_digit (pretty_N_char m) = true ∧ pretty_N_char m ≠ "-"%char ∧ pretty_N_char m ≠ "+"%char) as (Hb & Hdg & H1 & H2).
  { assert (m = 0 ∨ m = 1 ∨ m = 2 ∨ m = 3 ∨ m = 4 ∨ m = 5 ∨ m = 6 ∨ m = 7 ∨ m = 8 ∨ m = 9)%N as Hn' by lia. by destruct_or? Hn'; subst; vm_compute. }
  cbn [skip_blanks]. rewrite Hb.
  assert ((match String (pretty_N_char m) s with String "-" s => (true, s) | String "+" s => (false, s) | _ => (false, String (pretty_N_char m) s) end) = (false, String (pretty_N_char m) s)) as ->.
  { destruct (pretty_N_char m) as [[] [] [] [] [] [] [] []]; done. }
  cbv beta iota. rewrite Hdg, Hd. cbn [read_digits]. simpl. lia.
Qed.

(** ** The search of a name and of a period *)

Lemma find_newline s r : ascii_of_nat 10 ∉ chars s → find_at newline (s +:+ newline +:+ r) = Some (len s).
Proof. apply find_char_app. Qed.

Lemma find_pos_at p x r : Z.of_nat (len (x +:+ r)) < 2 ^ 63 →
  find_pos p (x +:+ r) (Z.of_nat (len x)) = match find_at p r with Some i => Z.of_nat (len x + i) | None => npos end.
Proof.
  intros H. unfold find_pos. rewrite app_len in *. rewrite (proj2 (Z.leb_le _ _)), Nat2Z.id by lia. unfold find. rewrite app_len, (proj2 (Nat.leb_le _ _)) by lia.
  rewrite str_drop_app0. by destruct (find_at p r).
Qed.
Lemma sub_text_mid x y r : Z.of_nat (len (x +:+ y +:+ r)) < 2 ^ 63 → sub_text (x +:+ y +:+ r) (Z.of_nat (len x)) (Z.of_nat (len x + len y)) = Ok y.
Proof.
  intros H. unfold sub_text. rewrite !app_len in *. rewrite (proj2 (Z.leb_le _ _)), Nat2Z.id by lia.
  replace (Z.of_nat (len x + len y) - Z.of_nat (len x)) with (Z.of_nat (len y)) by lia. rewrite Z.mod_small by lia.
  rewrite (proj2 (Z.ltb_ge _ _)), Nat2Z.id by lia. unfold substr. rewrite !app_len, (proj2 (Nat.leb_le _ _)) by lia.
  by rewrite str_drop_app0, str_take_app.
Qed.
Lemma after_small (n : nat) k : 0 ≤ k → Z.of_nat n + k < 2 ^ 63 → after (Z.of_nat n) k = Z.of_nat (n + Z.to_nat k).
Proof. intros H0 H. unfold after. rewrite Z.mod_small by lia. lia. Qed.

(** The kinds of an entry. *)
Inductive kind := KCmd | KAttr.
Definition kind_name (k : kind) : string := match k with KCmd => "command" | KAttr => "attribute" end.
Definition head_text (k : kind) : string := match k with KCmd => "Polled command name = " | KAttr => "Polled attribute name = " end.
Lemma head_type k r : Z.of_nat (len (head_text k +:+ r)) < 2 ^ 63 → let s := head_text k +:+ r in
  sub_text s (after (find_pos " " s 0) 1) (find_pos " " s (after (after (find_pos " " s 0) 1) 1)) = Ok (kind_name k).
Proof.
  intros H. cbv zeta. pose proof (find_pos_at " " "" (head_text k +:+ r) H) as E. change ("" +:+ (head_text k +:+ r)) with (head_text k +:+ r) in E.
  change (Z.of_nat (len "")) with 0 in E. rewrite E.
  replace (find_at " " (head_text k +:+ r)) with (Some 6%nat) by (by destruct k). change (after (Z.of_nat (len "" + 6)) 1) with (Z.of_nat 7). change (after (Z.of_nat 7) 1) with (Z.of_nat 8).
  destruct k.
  - pose proof (find_pos_at " " "Polled c" ("ommand name = " +:+ r) H) as E8. change (find_at " " _) with (Some 6%nat) in E8.
    change (find_pos " " (head_text KCmd +:+ r) (Z.of_nat 8)) with (find_pos " " ("Polled c" +:+ "ommand name = " +:+ r) (Z.of_nat (len "Polled c"))). rewrite E8.
    apply (sub_text_mid "Polled " "command" (" name = " +:+ r) H).
  - pose proof (find_pos_at " " "Polled a" ("ttribute name = " +:+ r) H) as E8. change (find_at " " _) with (Some 8%nat) in E8.
    change (find_pos " " (head_text KAttr +:+ r) (Z.of_nat 8)) with (find_pos " " ("Polled a" +:+ "ttribute name = " +:+ r) (Z.of_nat (len "Polled a"))). rewrite E8.
    apply (sub_text_mid "Polled " "attribute" (" name = " +:+ r) H).
Qed.
Lemma head_equal k r : Z.of_nat (len (head_text k +:+ r)) < 2 ^ 63 → after (find_pos "=" (head_text k +:+ r) 0) 2 = Z.of_nat (len (head_text k)).
Proof.
  intros H. pose proof (find_pos_at "=" "" (head_text k +:+ r) H) as E. change ("" +:+ (head_text k +:+ r)) with (head_text k +:+ r) in E.
  change (Z.of_nat (len "")) with 0 in E. rewrite E. destruct k.
  - change (find_at "=" _) with (Some 20%nat). done.
  - change (find_at "=" _) with (Some 22%nat). done.
Qed.

(** The end of the entry when the name is found. *)
Definition found_period (tmp_str : string) (last : Z) : outcome (option string) :=
  if negb (find_pos "triggered" tmp_str last =? npos) then Ok (Some "0")
  else
    let pos := after (find_pos "=" tmp_str last) 2 in
    Some <$> sub_text tmp_str pos (find_pos newline tmp_str (after pos 1)).
Lemma search_entry obj loc k N tail l :
  let s := head_text k +:+ N +:+ newline +:+ tail in
  Z.of_nat (len s) < 2 ^ 63 → N ≠ "" → ascii_of_nat 10 ∉ chars N → absent ". S" (N +:+ newline +:+ tail) →
  search_polled obj loc (s :: l) =
    if skipped obj loc (kind_name k) then search_polled obj loc l
    else if bool_decide (tolower N = loc) then found_period s (Z.of_nat (len (head_text k) + len N))
    else search_polled obj loc l.
Proof.
  intros s Hlen Hne Hnl Ha. destruct N as [|a N]; [done|].
  assert (s = (head_text k +:+ String a "") +:+ N +:+ newline +:+ tail) as Es by (unfold s; by rewrite app_assoc_str).
  assert (len (head_text k) + 1 = len (head_text k +:+ String a ""))%nat as El by (by rewrite app_len).
  assert (find_pos ". S" s (Z.of_nat (len (head_text k) + 1)) = npos) as E1.
  { rewrite El, Es, find_pos_at by (by rewrite <-Es). by rewrite (absent_tail ". S" a (N +:+ newline +:+ tail) Ha). }
  assert (find_pos newline s (Z.of_nat (len (head_text k) + 1)) = Z.of_nat (len (head_text k) + len (String a N))) as E2.
  { rewrite El, Es, find_pos_at by (by rewrite <-Es). rewrite (find_newline N tail) by (simpl in Hnl; set_solver).
    rewrite <-El. simpl. lia. }
  pose proof (head_type k (String a N +:+ newline +:+ tail) Hlen) as E3. pose proof (head_equal k (String a N +:+ newline +:+ tail) Hlen) as E4.
  pose proof (sub_text_mid (head_text k) (String a N) (newline +:+ tail) Hlen) as E5. cbv zeta in E3. fold s in E3, E4, E5.
  assert (Z.of_nat (len (head_text k)) + 1 < 2 ^ 63) as Hk by (by destruct k). clearbody s.
  cbn [search_polled]. rewrite E3. cbn [mbind outcome_bind]. destruct (skipped _ _ _); [done|].
  rewrite E4, (after_small (len (head_text k)) 1) by lia. change (Z.to_nat 1) with 1%nat. rewrite E1, Z.eqb_refl, E2, E5. done.
Qed.

(** The period of an entry. *)
Lemma found_triggered k N tail :
  let s := head_text k +:+ N +:+ newline +:+ "Polling externally triggered" +:+ newline +:+ tail in
  Z.of_nat (len s) < 2 ^ 63 → found_period s (Z.of_nat (len (head_text k) + len N)) = Ok (Some "0").
Proof.
  intros s H. unfold found_period. assert (s = (head_text k +:+ N) +:+ newline +:+ "Polling externally triggered" +:+ newline +:+ tail) as E by (unfold s; by rewrite app_assoc_str).
  clearbody s. rewrite <-app_len.
  assert (find_pos "triggered" s (Z.of_nat (len (head_text k +:+ N))) = Z.of_nat (len (head_text k +:+ N) + 20)) as -> by (rewrite E, find_pos_at by (by rewrite <-E); done).
  rewrite E, !app_len in H. unfold npos. rewrite app_len, (proj2 (Z.eqb_neq _ _)) by lia. done.
Qed.
Lemma found_number k N (n : Z) tail :
  let s := head_text k +:+ N +:+ newline +:+ "Polling period (mS) = " +:+ pretty n +:+ newline +:+ tail in
  Z.of_nat (len s) < 2 ^ 63 → absent "triggered" (newline +:+ "Polling period (mS) = " +:+ pretty n +:+ newline +:+ tail) →
  found_period s (Z.of_nat (len (head_text k) + len N)) = Ok (Some (pretty n)).
Proof.
  intros s H Ha. destruct (pretty_chars n) as [Hne Hch].
  assert (ascii_of_nat 10 ∉ chars (pretty n)) as Hnl.
  { intros Hc. specialize (Hch _ Hc). revert Hch. apply (bool_decide_unpack _). vm_compute. done. }
  clear Hch. set (x := head_text k +:+ N +:+ newline +:+ "Polling period (mS) = ").
  assert (s = (head_text k +:+ N) +:+ newline +:+ "Polling period (mS) = " +:+ pretty n +:+ newline +:+ tail) as E1 by (unfold s; by rewrite app_assoc_str).
  assert (s = x +:+ pretty n +:+ newline +:+ tail) as E2 by (unfold s, x; by rewrite !app_assoc_str).
  assert (len x = len (head_text k +:+ N) + 23)%nat as Ex by (unfold x; rewrite !app_len; simpl; lia). clearbody s x.
  unfold found_period. rewrite <-app_len.
  assert (find_pos "triggered" s (Z.of_nat (len (head_text k +:+ N))) = npos) as -> by (rewrite E1, find_pos_at by (by rewrite <-E1); by rewrite Ha).
  rewrite Z.eqb_refl. cbn [negb].
  assert (find_pos "=" s (Z.of_nat (len (head_text k +:+ N))) = Z.of_nat (len (head_text k +:+ N) + 21)) as -> by (rewrite E1, find_pos_at by (by rewrite <-E1); done).
  clear E1 Ha. rewrite E2, app_len in H. rewrite after_small by lia. replace (len (head_text k +:+ N) + 21 + Z.to_nat 2)%nat with (len x) by lia.
  destruct (pretty n) as [|a y]; [done|]. rewrite after_small by (simpl in H; lia). change (Z.to_nat 1) with 1%nat.
  assert (s = (x +:+ String a "") +:+ y +:+ newline +:+ tail) as E3 by (rewrite E2, app_assoc_str; done).
  assert (find_pos newline s (Z.of_nat (len x + 1)) = Z.of_nat (len x + len (String a y))) as ->.
  { replace (len x + 1)%nat with (len (x +:+ String a "")) by (by rewrite app_len). rewrite E3, find_pos_at by (by rewrite <-E3, E2, app_len).
    rewrite (find_newline y tail) by (simpl in Hnl; set_solver). rewrite app_len. simpl. lia. }
  rewrite E2, (sub_text_mid x (String a y) (newline +:+ tail)); [done|]. by rewrite app_len.
Qed.

(** ** The texts of the server *)

(** Nothing, or lines without the word. *)
Definition lines (p x : string) : Prop := x = "" ∨ ∃ y, x = newline +:+ y ∧ absent p y.
Lemma word_newline p : word p → (ascii_of_nat 10 ∉ chars p) ∧ p ≠ "".
Proof. intros H. destruct (word_chars p H) as [H1 H2]. split; [|done]. apply H2, (bool_decide_unpack _). vm_compute. done. Qed.
Lemma absent_lines p x r : word p → absent p x → lines p r → absent p (x +:+ r).
Proof.
  intros Hw Hx [-> |(y & -> & Hy)]; [by rewrite app_empty|]. destruct (word_newline p Hw). by apply absent_sep.
Qed.
Lemma lines_app p x r : word p → lines p x → lines p r → lines p (x +:+ r).
Proof.
  intros Hw [-> |(y & -> & Hy)] Hr; [done|]. right. exists (y +:+ r). split; [by rewrite app_assoc_str|]. by apply absent_lines.
Qed.
Lemma line p y : absent p y → lines p (newline +:+ y).
Proof. intros H. right. by exists y. Qed.
Lemma absent_front p c s : (∀ a q, p = String a q → a ≠ c) → p ≠ "" → absent p s → absent p (String c s).
Proof. intros H Hp Hs. destruct p as [|a p]; [done|]. apply find_at_cons_None. split; [|done]. apply prefix_ne. by apply (H a p). Qed.
Lemma word_space p s : word p → absent p s → absent p (" " +:+ s).
Proof. intros [-> | ->] H; (apply absent_front; [by intros a q [= <- _]|done|done]). Qed.
Lemma word_sep p c x r : word p → c ∈ (chars "=+,()" ++ [ascii_of_nat 10; ascii_of_nat 9]) → absent p x → absent p r → absent p (x +:+ String c r).
Proof.
  intros Hw Hc. destruct (word_chars p Hw) as [Hp H]. apply absent_sep; [apply H|done]. revert c Hc.
  refine (proj1 (Forall_forall _ _) _). apply (bool_decide_unpack _). vm_compute. done.
Qed.
(** A text that is given, for both words. *)
Ltac text := match goal with H : word ?p |- absent ?p _ => destruct H as [-> | ->]; reflexivity end.
(** The character is one that separates. *)
Ltac sep := apply (bool_decide_unpack _); vm_compute; done.

Lemma three_digits_number p x n r : word p → absent p x → absent p r → absent p (x +:+ three_digits n +:+ r).
Proof.
  intros Hw Hx Hr. unfold three_digits. destruct (word_chars p Hw) as [Hp Hc]. rewrite !app_assoc_str.
  assert (∀ z, z = "00" ∨ z = "0" ∨ z = "" → absent p (x +:+ z +:+ pretty n +:+ r)) as H.
  { intros z Hz. rewrite <-app_assoc_str. apply absent_number; [done| |done].
    destruct Hz as [-> |[-> | ->]]; [..|by rewrite app_empty]; (apply absent_sep; [apply Hc; sep|done|done|]; destruct Hw as [-> | ->]; done). }
  apply H. destruct (n <? 10); [by left|]. destruct (n <? 100); [by right; left|by right; right].
Qed.
Lemma fixed3_line p f r : word p → absent p r → absent p (" " +:+ fixed3 f +:+ newline +:+ r).
Proof.
  intros Hw Hr. assert (absent p (newline +:+ r)) as Hn by (apply (word_sep p _ ""); [done|sep|text|done]).
  assert (∀ s n, absent p (" " +:+ ((if (s : bool) then "-" else "") +:+ pretty (n / 1000)%Z +:+ "." +:+ three_digits (n mod 1000)%Z) +:+ newline +:+ r)) as H.
  { intros s n. rewrite !app_assoc_str. assert (absent p (" " +:+ (if s then "-" else ""))) as Hs by (destruct s; text).
    rewrite <-(app_assoc_str " "). apply absent_number; [done|done|]. apply (three_digits_number p "."); [done|text|done]. }
  assert (∀ t : string, absent p (" " +:+ t) → absent p (" " +:+ t +:+ newline +:+ r)) as Ht.
  { intros t Hs. rewrite <-app_assoc_str. apply word_sep; [done|sep|done|done]. }
  destruct f as [s|s| |s m e]; simpl fixed3.
  - apply (H s 0).
  - apply Ht. destruct s; text.
  - apply Ht. text.
  - apply H.
Qed.
Lemma since_absent p f s y : word p → since_text f = Ok s → absent p y → absent p (y +:+ s).
Proof.
  intros Hw. unfold since_text. destruct (SFltb _ _); [|destruct (SFltb _ _)].
  1: intros (nb_msec & _ & H)%bind_Ok_inv.
  2: intros (nb_sec & _ & (nb_msec & _ & H)%bind_Ok_inv)%bind_Ok_inv.
  3: intros (nb_min & _ & (nb_sec & _ & (whole & _ & (nb_msec & _ & H)%bind_Ok_inv)%bind_Ok_inv)%bind_Ok_inv)%bind_Ok_inv.
  all: injection H as <-; intros Hy; apply absent_number; [done|done|].
  - text.
  - apply (absent_number p " S and "); [done|text|text].
  - destruct (_ =? 0); destruct (_ =? 0); cbn [String.append]; rewrite ?app_empty; [text|..].
    + apply (absent_number p " MN and "); [done|text|text].
    + apply (absent_number p " MN ,"); [done|text|text].
    + rewrite app_assoc_str. apply (absent_number p " MN ,"); [done|text|]. apply (absent_number p " S and "); [done|text|text].
Qed.

(** A name that the client does not take for something else. *)
Record plain_name (N : string) : Prop := {
  pn_some : N ≠ "";
  pn_line : ascii_of_nat 10 ∉ chars N;
  pn_dot : "."%char ∉ chars N;
  pn_word : absent "triggered" N;
}.
Lemma plain_absent p N : word p → plain_name N → absent p N ∧ absent p (N +:+ " ").
Proof.
  intros Hw [H1 H2 H3 H4]. destruct Hw as [-> | ->].
  - assert ("."%char ∉ chars (N +:+ " ")) by (rewrite chars_app; intros [H|H]%elem_of_app; [done|]; by apply list_elem_of_singleton in H).
    split; (apply (absent_char "."%char); [sep|done]).
  - split; [done|]. apply (absent_sep _ " "%char N ""); [sep|done|done|done].
Qed.
Lemma names_absent p names r : word p → Forall plain_name names → names ≠ [] → absent p r → absent p (String.concat " + " names +:+ ")" +:+ r).
Proof.
  intros Hw Hn Hne Hr. induction names as [|N names IH]; [done|]. apply Forall_cons in Hn as [HN Hn]. destruct (plain_absent p N Hw HN) as [Ha Hb].
  assert (absent p (N +:+ ")" +:+ r)) as H1 by (by apply word_sep; [|sep| |]).
  destruct names as [|N' names]; [done|]. change (String.concat " + " (N :: N' :: names)) with (N +:+ " + " +:+ String.concat " + " (N' :: names)).
  rewrite !app_assoc_str. change (" + " +:+ ?x) with (" " +:+ "+" +:+ " " +:+ x). rewrite <-(app_assoc_str N " ").
  apply word_sep; [done|sep|done|]. apply word_space; [done|]. by apply IH.
Qed.
Lemma numbers_absent p (l : list Z) : word p → absent p (" " +:+ String.concat ", " ((λ x, pretty (ms_count x)) <$> l)).
Proof.
  intros Hw. induction l as [|x l IH]; [text|]. destruct l as [|y l].
  - pose proof (absent_number p " " (ms_count x) "" Hw) as H. rewrite app_empty in H. apply H; text.
  - change (String.concat ", " ((λ x, pretty (ms_count x)) <$> x :: y :: l)) with (pretty (ms_count x) +:+ ", " +:+ String.concat ", " ((λ x, pretty (ms_count x)) <$> y :: l)).
    apply absent_number; [done|text|]. apply (word_sep p ","%char ""); [done|sep|text|done].
Qed.

Lemma Ok_inj {A} (a b : A) : Ok a = Ok b → a = b.
Proof. by intros [= ->]. Qed.

Section Entries.
Context {Any Elt : Type}.
Implicit Types o : PollObj Any Elt.
Context (commands : list string) (now : nat → Z).

(** The last error of an object, in its status, does not have the words. *)
Definition quiet_errors o : Prop :=
  ∀ errors e p, word p → get_last_except (po_ring o) = Ok (Some errors) → errors !! 0%nat = Some e →
    absent p (reason e) ∧ absent p (desc e) ∧ absent p (origin e).

Lemma deltas_lines p o s : word p → deltas_text o = Ok s → lines p s.
Proof.
  intros Hw. unfold deltas_text. destruct (get_delta_t 4 (po_ring o)) as [l|[]|]; intros [= <-]; [|by left].
  apply line. change (absent p ("Delta between last records (in mS) " +:+ "=" +:+ " " +:+ String.concat ", " ((λ x, pretty (ms_count x)) <$> l))).
  apply word_sep; [done|sep|text|]. by apply numbers_absent.
Qed.
Lemma error_lines p vers o s : word p → quiet_errors o → error_text vers o = Ok s → lines p s.
Proof.
  intros Hw Hq (b & _ & H)%bind_Ok_inv. destruct b; [|by injection H as <-; left]. cbn [negb] in H.
  apply bind_Ok_inv in H as (exe & He & (errors & Hd & (e & Hd0 & H)%bind_Ok_inv)%bind_Ok_inv). injection H as <-.
  destruct exe as [errs|]; [|done]. injection Hd as ->. destruct (errors !! 0%nat) as [e'|] eqn:E0; [|done]. injection Hd0 as ->.
  destruct (Hq errors e p Hw He E0) as (H1 & H2 & H3). apply line.
  assert (∀ x r, absent p x → absent p r → absent p (x +:+ newline +:+ r)) as Hn by (intros x r Hx Hr; by apply word_sep; [|sep| |]).
  assert (∀ x v, absent p x → absent p v → absent p (tab +:+ x +:+ "=" +:+ " " +:+ v)) as Hf.
  { intros x v Hx Hv. apply (word_sep p _ ""); [done|sep|text|]. apply word_sep; [done|sep|done|]. by apply word_space. }
  assert (∀ k v w u, absent p k → absent p v → absent p w → absent p u → absent p
    (k +:+ newline +:+ (tab +:+ "Reason " +:+ "=" +:+ " " +:+ v) +:+ newline +:+ (tab +:+ "Desc " +:+ "=" +:+ " " +:+ w) +:+ newline +:+ tab +:+ "Origin " +:+ "=" +:+ " " +:+ u)) as Ht.
  { intros k v w u Hk Hv Hw' Hu. apply Hn; [done|]. apply Hn; [apply Hf; [text|done]|]. apply Hn; [apply Hf; [text|done]|]. apply Hf; [text|done]. }
  specialize (Ht (if is_cmd o then "Last command execution FAILED :" else "Last attribute read FAILED :") (reason e) (desc e) (origin e)).
  rewrite !app_assoc_str in Ht. apply Ht; [destruct (is_cmd o); text|done|done|done].
Qed.
Lemma group_absent p C F : word p → absent p (C +:+ ")" +:+ " reading (mS) = " +:+ F) →
  absent p ("Time needed for the last " +:+ ("attributes (" +:+ C +:+ ") reading (mS) = ") +:+ F).
Proof.
  intros Hw H. assert (absent p "Time needed for the last attributes ") as Ha by text.
  pose proof (word_sep p "("%char "Time needed for the last attributes " _ Hw ltac:(sep) Ha H) as H3.
  rewrite !app_assoc_str. cbn [String.append] in H3 |- *. exact H3.
Qed.
Lemma times_lines p together t o s : word p → Forall plain_name (snd <$> together) → is_cmd o = false → times_text together t o = Ok s → lines p s.
Proof.
  intros Hw Hn Hc. unfold times_text. destruct (_ =? 0); [intros [= <-]; apply line; text|]. destruct (_ =? 0); [intros [= <-]; by left|].
  intros (since & _ & (s' & Hs & H)%bind_Ok_inv)%bind_Ok_inv. injection H as <-.
  assert (absent p (" " +:+ fixed3 (duration_ms (po_needed_time o)) +:+ newline +:+ "Data not updated since " +:+ s')) as Hf.
  { apply fixed3_line; [done|]. apply (since_absent p _ _ "Data not updated since " Hw Hs). text. }
  assert (Forall plain_name (with_period (po_upd o) together)) as Hnames.
  { apply Forall_forall. intros N (x & -> & Hx)%list_elem_of_fmap. apply list_elem_of_filter in Hx as [_ Hx].
    apply (proj1 (Forall_forall _ _) Hn), list_elem_of_fmap. by exists x. }
  set (F := fixed3 _ +:+ _) in *. apply line. unfold reading_text. rewrite Hc. clearbody F.
  destruct (with_period _ _) as [|N [|N' names]] eqn:Ew.
  - apply (word_sep p "="%char "Time needed for the last attribute reading(ms) "); [done|sep|text|done].
  - apply (word_sep p "="%char "Time needed for the last attribute reading (mS) "); [done|sep|text|done].
  - rewrite <-Ew in Hnames |- *. apply group_absent; [done|]. apply names_absent; [done|done|by rewrite Ew|].
    apply (word_sep p "="%char " reading (mS) "); [done|sep|text|done].
Qed.

Lemma records_lines p vers together t o s :
  word p → Forall plain_name (snd <$> together) → is_cmd o = false → quiet_errors o → records_text vers together t o = Ok s → lines p s.
Proof.
  intros Hw Hn Hc Hq. unfold records_text. destruct (is_empty _); [intros [= <-]; apply line; text|].
  intros (times & Ht & (deltas & Hd & (errs & He & H)%bind_Ok_inv)%bind_Ok_inv)%bind_Ok_inv. injection H as <-.
  apply lines_app; [done|by eapply times_lines|]. apply lines_app; [done|by eapply deltas_lines|by eapply error_lines].
Qed.

(** What the client finds in the entry of an attribute. *)
Definition client_period o : string := if po_upd o =? 0 then "0" else pretty (ms_count (po_upd o)).
Lemma attr_entry d vers together t o s N obj loc l :
  is_cmd o = false → Forall plain_name (snd <$> together) → quiet_errors o → plain_name N → name_text commands d o = Ok (head_text KAttr +:+ N) →
  obj_text commands d vers together t o = Ok s → Z.of_nat (len s) < 2 ^ 63 →
  search_polled obj loc (s :: l) =
    if skipped obj loc "attribute" then search_polled obj loc l
    else if bool_decide (tolower N = loc) then Ok (Some (client_period o)) else search_polled obj loc l.
Proof.
  intros Hc Hn Hq HN Hname H Hlen. unfold obj_text in H. rewrite Hname, bind_Ok in H.
  apply bind_Ok_inv in H as (depth & Hd & (records & Hr & H)%bind_Ok_inv).
  apply bind_Ok_inv in Hd as (depth' & _ & Hd). apply Ok_inj in Hd as <-. apply Ok_inj in H as <-.
  set (tail := "Polling ring buffer depth = " +:+ pretty depth' +:+ records).
  assert (∀ p, word p → absent p tail) as Ht.
  { intros p Hw. apply absent_number; [done|text|]. apply (absent_lines p ""); [done|text|]. by eapply records_lines. }
  assert (∀ p y, word p → absent p y → absent p (N +:+ newline +:+ y +:+ newline +:+ tail)) as Hy.
  { intros p y Hw Hy. destruct (plain_absent p N Hw HN) as [Ha _]. apply word_sep; [done|sep|done|]. apply word_sep; [done|sep|done|by apply Ht]. }
  assert (∀ P, (head_text KAttr +:+ N) +:+ P +:+ (newline +:+ "Polling ring buffer depth = " +:+ pretty depth') +:+ records = head_text KAttr +:+ N +:+ P +:+ newline +:+ tail) as Es.
  { intros P. unfold tail. by rewrite !app_assoc_str. }
  rewrite Es in Hlen |- *. clear Es. clearbody tail. unfold client_period, period_text in *. destruct HN as [H1 H2 _ _]. destruct (po_upd o =? 0).
  - rewrite !(app_assoc_str newline) in Hlen |- *. rewrite search_entry; [|done..|apply Hy; [by left|done]].
    by rewrite found_triggered.
  - rewrite !(app_assoc_str newline), !(app_assoc_str "Polling period (mS) = ") in Hlen |- *.
    assert (∀ p, word p → absent p ("Polling period (mS) = " +:+ pretty (ms_count (po_upd o)))) as Hp.
    { intros p Hw. pose proof (absent_number p "Polling period (mS) = " (ms_count (po_upd o)) "" Hw) as H. rewrite app_empty in H. apply H; text. }
    rewrite search_entry; [|done..|].
    + rewrite found_number; [done|done|]. assert (word "triggered") as Hw by (by right).
      apply (word_sep _ _ ""); [done|sep|done|]. rewrite <-app_assoc_str. apply word_sep; [done|sep|by apply Hp|by apply Ht].
    + rewrite <-(app_assoc_str "Polling period (mS) = "). apply Hy; [by left|apply Hp; by left].
Qed.
Lemma cmd_entry r loc l : Z.of_nat (len (head_text KCmd +:+ r)) < 2 ^ 63 → search_polled Attr loc ((head_text KCmd +:+ r) :: l) = search_polled Attr loc l.
Proof.
  intros H. pose proof (head_type KCmd r H) as E. cbv zeta in E. set (s := head_text KCmd +:+ r) in *. clearbody s.
  cbn [search_polled]. rewrite E. done.
Qed.

(** The names that are shown. *)
Lemma name_shown d o s : is_cmd o = false → Forall plain_name (at_name <$> attr_list d) → tolower (po_name o) = po_name o → name_text commands d o = Ok s →
  ∃ N, s = head_text KAttr +:+ N ∧ plain_name N ∧ tolower N = po_name o.
Proof.
  intros Hc Hn Hl. unfold name_text. rewrite Hc. intros (N & HN & H)%bind_Ok_inv. apply Ok_inj in H as <-. exists N. split; [done|].
  destruct (bool_decide (po_name o = "state")) eqn:E1; [|destruct (bool_decide (po_name o = "status")) eqn:E2].
  - injection HN as <-. apply bool_decide_eq_true in E1 as ->. split; [|done]. split; [done|..]; apply (bool_decide_unpack _); vm_compute; done.
  - injection HN as <-. apply bool_decide_eq_true in E2 as ->. split; [|done]. split; [done|..]; apply (bool_decide_unpack _); vm_compute; done.
  - unfold get_attr_name, find_attr in HN. destruct (list_find _ _) as [[k a]|] eqn:E; [|done]. injection HN as <-.
    apply list_find_Some in E as (Ha & Hlow & _). split; [|by rewrite Hlow, Hl].
    apply (proj1 (Forall_forall _ _) Hn), list_elem_of_fmap. exists a. split; [done|]. by eapply list_elem_of_lookup_2.
Qed.
Lemma together_plain d (l : list (PollObj Any Elt)) together : Forall plain_name (at_name <$> attr_list d) → polled_together d l = Ok together → Forall plain_name (snd <$> together).
Proof.
  intros Hn. revert together. induction l as [|o l IH]; intros together; cbn [polled_together]; [by intros [= <-]; constructor|].
  destruct (is_cmd o); [by apply IH|]. intros (nm & Hnm & (r & Hr & H)%bind_Ok_inv)%bind_Ok_inv. injection H as <-. constructor; [|by apply IH].
  unfold get_attr_name, find_attr in Hnm. destruct (list_find _ _) as [[k a]|] eqn:E; [|done]. injection Hnm as <-.
  apply list_find_Some in E as (Ha & _). apply (proj1 (Forall_forall _ _) Hn), list_elem_of_fmap. exists a. split; [done|]. by eapply list_elem_of_lookup_2.
Qed.

Definition polled_attr_obj (loc : string) (l : list (PollObj Any Elt)) : option (PollObj Any Elt) :=
  snd <$> list_find (λ o, is_cmd o = false ∧ po_name o = loc) l.
Lemma attr_part d vers together i l texts loc :
  Forall plain_name (snd <$> together) → Forall plain_name (at_name <$> attr_list d) →
  (∀ o, o ∈ l → is_cmd o = false → quiet_errors o ∧ tolower (po_name o) = po_name o) →
  obj_texts commands now d vers together i l = Ok texts → (∀ t, t ∈ texts ≫= attr_texts → Z.of_nat (len t) < 2 ^ 63) →
  search_polled Attr loc (texts ≫= attr_texts) = Ok (client_period <$> polled_attr_obj loc l).
Proof.
  intros Ht Hn. revert i texts. induction l as [|o l IH]; intros i texts Ho; cbn [obj_texts]; [by intros [= <-]|].
  intros (s & Hs & (r & Hr & H)%bind_Ok_inv)%bind_Ok_inv. injection H as <-. intros Hlen.
  assert (search_polled Attr loc (r ≫= attr_texts) = Ok (client_period <$> polled_attr_obj loc l)) as IHr.
  { apply (IH (S i)); [intros o' Ho'; apply Ho; by right|done|]. intros t Hin. apply Hlen. rewrite bind_cons. apply elem_of_app. by right. }
  clear IH. rewrite bind_cons in Hlen |- *. unfold attr_texts at 1. unfold attr_texts at 1 in Hlen. cbn [fst snd] in *. unfold polled_attr_obj. cbn [list_find].
  destruct (is_cmd o) eqn:Ec; cbn [app].
  - rewrite IHr. unfold polled_attr_obj. rewrite decide_False by (by intros [? _]). by destruct (list_find _ l) as [[]|].
  - destruct (Ho o) as [Hq Hl]; [by left|done|]. unfold obj_text in Hs. pose proof Hs as (nt & Hnt & _)%bind_Ok_inv.
    destruct (name_shown d o nt Ec Hn Hl Hnt) as (N & -> & HN & HNl).
    rewrite (attr_entry d vers together (now i) o s N); [|done..|by apply Hlen; left]. cbn [skipped]. rewrite bool_decide_eq_false_2 by done. rewrite HNl.
    case_bool_decide as E.
    + by rewrite decide_True.
    + rewrite decide_False by (by intros [_ ?]). rewrite IHr. unfold polled_attr_obj. by destruct (list_find _ l) as [[]|].
Qed.
Lemma cmd_part d vers together i (l : list (PollObj Any Elt)) texts loc rest :
  obj_texts commands now d vers together i l = Ok texts → (∀ t, t ∈ texts ≫= cmd_texts → Z.of_nat (len t) < 2 ^ 63) →
  search_polled Attr loc ((texts ≫= cmd_texts) ++ rest) = search_polled Attr loc rest.
Proof.
  revert i texts. induction l as [|o l IH]; intros i texts; cbn [obj_texts]; [by intros [= <-]|].
  intros (s & Hs & (r & Hr & H)%bind_Ok_inv)%bind_Ok_inv. injection H as <-. intros Hlen. rewrite bind_cons in Hlen |- *.
  assert (search_polled Attr loc ((r ≫= cmd_texts) ++ rest) = search_polled Attr loc rest) as IHr.
  { apply (IH (S i)); [done|]. intros t Hin. apply Hlen, elem_of_app. by right. }
  apply bind_Ok_inv in Hs as (nt & Hnt & (dt & _ & (rt & _ & Hs)%bind_Ok_inv)%bind_Ok_inv). apply Ok_inj in Hs as <-.
  unfold cmd_texts at 1. unfold cmd_texts at 1 in Hlen. unfold name_text in Hnt. cbn [fst snd] in *. destruct (is_cmd o); [|destruct (duplicate o)]; [..|done].
  - apply Ok_inj in Hnt as <-. match type of Hlen with context [[?t]] => assert (∃ r, t = head_text KCmd +:+ r) as [x Ex] by (eexists; rewrite !app_assoc_str; reflexivity) end.
    cbn [app]. rewrite Ex in *. rewrite cmd_entry; [done|]. apply Hlen. by left.
  - apply bind_Ok_inv in Hnt as (N & _ & Hnt). apply Ok_inj in Hnt as <-.
    assert (∀ y, replace_attribute 0 (("Polled attribute name = " +:+ N) +:+ y) = head_text KCmd +:+ replace_attribute 0 (N +:+ y)) as Er.
    { intros y. rewrite app_assoc_str. reflexivity. }
    cbn [app]. rewrite Er in *. rewrite cmd_entry; [done|]. apply Hlen. by left.
Qed.

(** The reading of the status, for every attribute. *)
Lemma period_found bef_9 d (dev : Device Any Elt) texts nm :
  status_of commands bef_9 now d dev = Ok texts → Forall plain_name (at_name <$> attr_list d) →
  (∀ o, o ∈ poll_obj_list dev → is_cmd o = false → quiet_errors o ∧ tolower (po_name o) = po_name o) →
  (∀ t, t ∈ texts → Z.of_nat (len t) < 2 ^ 63) →
  is_polled Attr nm texts = Ok (client_period <$> polled_attr_obj (tolower nm) (poll_obj_list dev)).
Proof.
  intros Hs Hn Ho Hlen. unfold status_of in Hs. destruct (poll_obj_list dev) as [|o l] eqn:El; [by injection Hs as <-|].
  apply bind_Ok_inv in Hs as (together & Ht & (ts & Hts & Hs)%bind_Ok_inv). injection Hs as <-.
  assert (Forall plain_name (snd <$> together)) as Hp by (destruct bef_9; [injection Ht as <-; constructor|by eapply together_plain]).
  unfold is_polled. rewrite (cmd_part d (dev_idl_version dev) together 0 (o :: l) ts); [|done|intros t Hin; apply Hlen, elem_of_app; by left].
  apply (attr_part d (dev_idl_version dev) together 0); [done..|]. intros t Hin. apply Hlen, elem_of_app. by right.
Qed.

(** the period of an attribute that the client reads is the one with which the server polls it:
    the text of its update period in milliseconds, "0" when it is externally triggered, and
    nothing when it is not polled.  The names of the attributes have neither a dot, a new line
    nor the word "triggered", and the errors of the last readings have neither ". S" nor this
    word. *)
Theorem attribute_period_read bef_9 d (dev : Device Any Elt) texts nm :
  status_of commands bef_9 now d dev = Ok texts → Forall plain_name (at_name <$> attr_list d) →
  (∀ o, o ∈ poll_obj_list dev → is_cmd o = false → quiet_errors o ∧ tolower (po_name o) = po_name o) →
  (∀ t, t ∈ texts → Z.of_nat (len t) < 2 ^ 63) →
  is_polled Attr nm texts = Ok (client_period <$> polled_attr_obj (tolower nm) (poll_obj_list dev)).
Proof. apply period_found. Qed.
End Entries.

(** ** From the request of the client to what it reads *)

Lemma prefix_len p s : String.prefix p s = true → (len p ≤ len s)%nat.
Proof.
  revert s. induction p as [|a p IH]; intros s H; [simpl; lia|]. destruct s as [|b s]; [done|]. simpl in H |- *.
  destruct (Ascii.ascii_dec a b); [|done]. apply IH in H. lia.
Qed.
Lemma replace_len s k : (k ≤ len s → len (replace_attribute k s) ≤ len s - k)%nat.
Proof.
  revert k. induction s as [|a s IH]; intros k Hk; [simpl; lia|]. destruct k as [|k]; cbn [replace_attribute]; [|simpl in *; specialize (IH k ltac:(lia)); lia].
  destruct (String.prefix "attribute" (String a s)) eqn:E; [|simpl; specialize (IH 0%nat ltac:(lia)); lia].
  assert (8 ≤ len s)%nat as H8.
  { apply prefix_len in E. simpl in E. lia. }
  rewrite app_len. specialize (IH 8%nat H8). simpl. lia.
Qed.

Section Request.
Context {Any Elt : Type}.
Context (indet : Z) (senv : SrvEnv) (self : Z) (alive : Z → bool) (t_now new_id : Z) (raw : PollThCmd) (commands : list string) (now : nat → Z).
Implicit Types s : SrvSt Any Elt.
Implicit Types o : PollObj Any Elt.

(** What [command_inout] of the proxy makes of the errors of a command. *)
Context (reported : DevErrorList → DevErrorList).

(** A command of the admin device, which the client executes through the network. *)
Definition remote {A} (m : SM (SrvSt Any Elt) A) : XM cexn (SrvSt Any Elt) A :=
  λ s, match m s with
       | Some (s, inr a) => Some (s, inr a)
       | Some (s, inl (DevFailed l)) => Some (s, inl (TErr PlainDevFailed (reported l)))
       | Some (s, inl (OtherExc nm)) => Some (s, inl (TErr PlainDevFailed (reported [])))
       | None => None
       end.
Definition admin_device (cmd : string) (din : AdminArg) : XM cexn (SrvSt Any Elt) (list string) :=
  match din with
  | OneString nm => remote (dev_poll_status commands (bef_9 senv) now (get_device_by_name senv) nm)
  | LongStrings l v =>
      remote (if bool_decide (cmd = "AddObjPolling") then add_obj_polling indet senv self alive t_now new_id raw v l true 0
              else upd_obj_polling_period indet senv self alive t_now v l true);; mret []
  | Strings v => remote (rem_obj_polling indet senv self alive t_now v true);; mret []
  end.

(** The text of an object can be written, whatever the date. *)
Definition describable (d : DevPoll) (vers : Z) o : Prop :=
  (∀ together t, ∃ x, obj_text commands d vers together t o = Ok x ∧ Z.of_nat (len x) < 2 ^ 62) ∧
  (is_cmd o = false → ∃ a, find_attr (po_name o) (attr_list d) = Some a).
Lemma texts_ok d vers together i (l : list (PollObj Any Elt)) :
  (∀ o, o ∈ l → describable d vers o) →
  ∃ texts, obj_texts commands now d vers together i l = Ok texts ∧ ∀ x, x ∈ texts → Z.of_nat (len x.2) < 2 ^ 62.
Proof.
  revert i. induction l as [|o l IH]; intros i H; [exists []; split; [done|set_solver]|].
  destruct (H o) as [Ho _]; [by left|]. destruct (Ho together (now i)) as (x & Hx & Hlen).
  destruct (IH (S i)) as (r & Hr & Hrl); [intros o' Ho'; apply H; by right|].
  exists ((o, x) :: r). cbn [obj_texts]. rewrite Hx, bind_Ok, Hr, bind_Ok. split; [done|]. intros y [->|Hy]%elem_of_cons; [done|by apply Hrl].
Qed.
Lemma together_ok d vers (l : list (PollObj Any Elt)) : (∀ o, o ∈ l → describable d vers o) → ∃ together, polled_together d l = Ok together.
Proof.
  induction l as [|o l IH]; intros H; [by exists []|]. destruct IH as [r Hr]; [intros o' Ho'; apply H; by right|]. cbn [polled_together].
  destruct (is_cmd o) eqn:E; [by exists r|]. destruct (H o) as [_ Ho]; [by left|]. destruct (Ho E) as [a Ha].
  unfold get_attr_name. rewrite Ha, bind_Ok, Hr. by eexists.
Qed.
Lemma status_ok d (dev : Device Any Elt) : (∀ o, o ∈ poll_obj_list dev → describable d (dev_idl_version dev) o) →
  ∃ texts, status_of commands (bef_9 senv) now d dev = Ok texts ∧ ∀ t, t ∈ texts → Z.of_nat (len t) < 2 ^ 63.
Proof.
  unfold status_of. destruct (poll_obj_list dev) as [|o l]; intros H; [exists []; split; [done|set_solver]|].
  assert (∃ together, (if bef_9 senv then Ok [] else polled_together d (o :: l)) = Ok together) as [together Ht].
  { destruct (bef_9 senv); [by eexists|by eapply together_ok]. }
  destruct (texts_ok d (dev_idl_version dev) together 0 (o :: l) H) as (texts & Hx & Hlen). rewrite Ht, bind_Ok, Hx, bind_Ok. eexists. split; [done|].
  intros t [Hin|Hin]%elem_of_app; apply list_elem_of_bind in Hin as (x & Hin & Hx'); specialize (Hlen x Hx').
  - unfold cmd_texts in Hin. destruct (is_cmd x.1); [apply list_elem_of_singleton in Hin as ->; lia|].
    destruct (duplicate x.1); [|by apply elem_of_nil in Hin]. apply list_elem_of_singleton in Hin as ->. pose proof (replace_len x.2 0 ltac:(lia)). lia.
  - unfold attr_texts in Hin. destruct (is_cmd x.1); [by apply elem_of_nil in Hin|]. apply list_elem_of_singleton in Hin as ->. lia.
Qed.

(** A ring in which nothing was stored has no error. *)
Lemma fresh_errors depth errs : get_last_except (PollRing_new depth : PollRing Any Elt) = Ok (Some errs) → False.
Proof.
  unfold get_last_except, last_elt, vget. destruct (_ <=? _); [|done]. destruct (ring _ !! _) as [e|] eqn:E; [|done].
  apply lookup_replicate in E as [-> _]. done.
Qed.
(** The reading of a period by the client. *)
Lemma read_period s i d dev nm device_name :
  get_device_by_name senv device_name = inr i → dinfo s !! i = Some d → pdevs s !! i = Some dev →
  Forall plain_name (at_name <$> attr_list d) → (∀ o, o ∈ poll_obj_list dev → describable d (dev_idl_version dev) o) →
  (∀ o, o ∈ poll_obj_list dev → is_cmd o = false → quiet_errors o ∧ tolower (po_name o) = po_name o) →
  polled_period (mret tt) admin_device device_name Attr nm s = Some (s, inr (client_period <$> polled_attr_obj (tolower nm) (poll_obj_list dev))).
Proof.
  intros Hd Hi Hp Hn Hde Hq. destruct (status_ok d dev Hde) as (texts & Ht & Hlen).
  assert (dev_poll_status commands (bef_9 senv) now (get_device_by_name senv) device_name s = Some (s, inr texts)) as Hs.
  { unfold dev_poll_status. rewrite Hd. erewrite run_bind by by apply run_dev_info. erewrite run_bind by by apply run_device. by rewrite Ht. }
  assert (polling_status (mret tt) admin_device device_name s = Some (s, inr texts)) as Hst.
  { unfold polling_status. erewrite run_bind by done. unfold admin_command, catch_class, admin_device, remote. apply run_catch_ok. by rewrite Hs. }
  unfold polled_period. rewrite (run_bind _ _ _ _ _ Hst). unfold std. by rewrite (period_found commands now _ d dev texts nm Ht Hn Hq Hlen).
Qed.

(** C26: an attribute that a client asks to poll is read back by the client as polled, with the
    same period. The request of the client goes through the command of the admin device, which
    adds the object to those of the device and of its polling thread; the texts of its status
    are what the client then reads. The request is one that is accepted: an attribute that is
    not polled yet, of a device that a thread of the pool already polls, and a period that is
    allowed and is an [int] of milliseconds. The errors of the attributes that are already
    polled have no text with a word the client looks for ([quiet_errors]; see [stop_hides] and
    [triggered_hides]), their names are in lower case, and the status of each object is defined.
    *)
Theorem polled_as_asked s device_name nm upd i k t d dev depth objs :
  add_request senv self alive device_name "attribute" nm upd i k s t d dev POLL_ATTR false depth objs →
  0 ≤ upd < 2 ^ 31 → Forall plain_name (at_name <$> attr_list d) →
  (∀ o, o ∈ poll_obj_list dev → describable d (dev_idl_version dev) o) →
  describable d (dev_idl_version dev) (PollObj_depth (poll_old_factor dev) POLL_ATTR (tolower nm) (milliseconds upd) depth) →
  (∀ o, o ∈ poll_obj_list dev → po_type o = POLL_CMD ∨ po_type o = POLL_ATTR ∧ quiet_errors o ∧ tolower (po_name o) = po_name o) →
  ∃ s', poll_attribute (mret tt) admin_device device_name nm upd s = Some (s', inr tt) ∧
    is_attribute_polled (mret tt) admin_device device_name nm s' = Some (s', inr true) ∧
    get_attribute_poll_period (mret tt) admin_device device_name nm s' = Some (s', inr upd).
Proof.
  intros Hr Hupd Hn Hde Hnew Hty.
  assert (∀ o, o ∈ poll_obj_list dev → is_cmd o = false → quiet_errors o ∧ tolower (po_name o) = po_name o) as Hq.
  { intros o Ho Hc%bool_decide_eq_false. by destruct (Hty o Ho) as [|[_ ?]]. }
  pose proof Hr as [Hd Hlock Hi Hp Hth Hacc Hdepth Hobjs].
  destruct (add_run indet senv self alive t_now new_id raw device_name "attribute" nm upd true 0 i k s t d dev POLL_ATTR false depth objs Hr) as (s' & th & Hadd & Hpd & Hinfo & _).
  destruct Hacc as (ot & _ & _ & _ & Hap & _). set (o := PollObj_depth _ _ _ _ _) in *.
  assert (polled_attr_obj (tolower nm) (poll_obj_list dev) = None) as Hnone.
  { unfold polled_attr_obj. destruct (list_find _ _) as [[j x]|] eqn:E; [|done]. exfalso. apply list_find_Some in E as (Hx & [Hc Hnm] & _).
    apply not_true_iff_false in Hap. apply Hap. unfold already_polled. apply existsb_exists. exists x.
    split; [apply list_elem_of_In; by eapply list_elem_of_lookup_2|]. unfold is_cmd in Hc. apply bool_decide_eq_false in Hc.
    rewrite (bool_decide_eq_true_2 (po_type x = _)) by (by destruct (Hty x) as [?|[? _]]; [by eapply list_elem_of_lookup_2|..]). simpl. apply bool_decide_eq_true. by rewrite Hnm, tolower_idemp. }
  set (dev' := with_poll_list dev (poll_obj_list dev ++ [o])) in *. set (d' := with_polled true _) in *.
  assert (∀ x, x ∈ poll_obj_list dev' → describable d' (dev_idl_version dev') x) as Hde'.
  { intros x [Hx|Hx]%elem_of_app; [exact (Hde x Hx)|]. apply list_elem_of_singleton in Hx as ->. exact Hnew. }
  assert (∀ x, x ∈ poll_obj_list dev' → is_cmd x = false → quiet_errors x ∧ tolower (po_name x) = po_name x) as Hq'.
  { intros x [Hx|Hx]%elem_of_app; [exact (Hq x Hx)|]. apply list_elem_of_singleton in Hx as ->. intros _. split; [|apply tolower_idemp].
    intros errs e p _ He. exfalso. by apply (fresh_errors depth errs). }
  assert (client_period <$> polled_attr_obj (tolower nm) (poll_obj_list dev') = Some (if upd =? 0 then "0" else pretty upd)) as Hfound.
  { unfold polled_attr_obj in *. destruct (list_find _ (poll_obj_list dev)) eqn:E; [done|]. simpl poll_obj_list. rewrite list_find_app_r by done. cbn [list_find].
    rewrite decide_True by done. cbn. unfold client_period, o. simpl. unfold milliseconds, ms_count.
    destruct (Z.eqb_spec upd 0) as [->|Hne]; [done|]. rewrite (proj2 (Z.eqb_neq _ _)) by lia. by rewrite Z.quot_mul by lia. }
  assert (polled_period (mret tt) admin_device device_name Attr nm s' = Some (s', inr (Some (if upd =? 0 then "0" else pretty upd)))) as Hread.
  { rewrite <-Hfound. apply (read_period s' i d' dev'); [done|by rewrite Hinfo, lookup_insert_eq|by rewrite Hpd, lookup_insert_eq|done|done|done]. }
  exists s'. split; [|split].
  - unfold poll_attribute, poll_object. rewrite (run_bind _ _ _ _ _ (read_period s i d dev nm device_name Hd Hi Hp Hn Hde Hq)), Hnone. cbn [fmap option_fmap option_map].
    erewrite run_bind by done. unfold admin_command, catch_class. erewrite run_bind; [reflexivity|]. apply run_catch_ok.
    unfold admin_device. erewrite run_bind; [reflexivity|]. unfold remote. rewrite bool_decide_true by done. by rewrite Hadd.
  - unfold is_attribute_polled. by rewrite (run_bind _ _ _ _ _ Hread).
  - unfold get_attribute_poll_period. rewrite (run_bind _ _ _ _ _ Hread). unfold mret, SM_ret. do 3 f_equal.
    destruct (upd =? 0) eqn:E; [apply Z.eqb_eq in E as ->; done|by apply period_read_back].
Qed.
End Request.

(** ** The status of the polling on concrete devices, and behaviours worth knowing *)
Local Open Scope string_scope.
Local Open Scope list_scope.
Local Open Scope Z_scope.

Lemma ex_plain_name nm : In nm ["x"; "Y"; "w"; "State"] → plain_name nm.
Proof. intros H. repeat destruct H as [<-|H]; try done; split; try done; apply (bool_decide_unpack _); vm_compute; done. Qed.
Lemma ex_names : Forall plain_name (at_name <$> attr_list ex_info).
Proof. repeat constructor; apply ex_plain_name; simpl; tauto. Qed.

(** A device that polls "x", whose ring has one error, and the status. *)
Definition ex_ring (l : DevErrorList) : PollRing Z Z := match insert_except l 5000000000 (PollRing_new 10) with Ok r => r | _ => PollRing_new 10 end.
Definition ex_error (d : string) : DevErrorList := [mkDevError "Broken" ERR d "ex"].
Definition ex_obj (l : DevErrorList) (upd : Z) : PollObj Z Z := mkPollObj POLL_ATTR "x" (milliseconds upd) 2345678 (milliseconds 4000) (ex_ring l).
Definition ex_status (l : DevErrorList) (upd : Z) : outcome (list string) :=
  status_of ["Init"] false (λ _, 6250000000) ex_info (mkDevice 5 4 [ex_obj l upd]).
(** Its only text. *)
Example status_text : ex_status (ex_error "no value") 1000 = Ok
  ["Polled attribute name = x" +:+ newline +:+ "Polling period (mS) = 1000" +:+ newline +:+ "Polling ring buffer depth = 10" +:+ newline +:+
   "Time needed for the last attribute reading (mS) = 2.346" +:+ newline +:+ "Data not updated since 1 S and 247 mS" +:+ newline +:+
   "Last attribute read FAILED :" +:+ newline +:+ tab +:+ "Reason = Broken" +:+ newline +:+ tab +:+ "Desc = no value" +:+ newline +:+ tab +:+ "Origin = ex"].
Proof. vm_compute. reflexivity. Qed.

Lemma attribute_period_read_witness :
  ∃ texts, ex_status (ex_error "no value") 1000 = Ok texts ∧ is_polled Attr "X" texts = Ok (Some "1000").
Proof.
  assert (∃ texts, ex_status (ex_error "no value") 1000 = Ok texts ∧ forallb (λ t, Z.of_nat (len t) <? 2 ^ 63) texts = true) as (texts & E & Hlen)
    by (exists (match ex_status (ex_error "no value") 1000 with Ok t => t | _ => [] end); split; vm_compute; reflexivity).
  exists texts. split; [exact E|]. unfold ex_status in E. set (dev := mkDevice 5 4 [ex_obj (ex_error "no value") 1000]) in *.
  assert (Some "1000" = client_period <$> polled_attr_obj (tolower "X") (poll_obj_list dev)) as -> by (vm_compute; reflexivity).
  refine (attribute_period_read ["Init"] (λ _, 6250000000) false ex_info dev texts "X" E ex_names _ _).
  - intros o Ho%list_elem_of_singleton _. subst o. split; [|reflexivity]. intros errs e p Hw Hl He.
    assert (get_last_except (ex_ring (ex_error "no value")) = Ok (Some (ex_error "no value"))) as E2 by (vm_compute; reflexivity).
    change (get_last_except (ex_ring (ex_error "no value")) = Ok (Some errs)) in Hl. rewrite E2 in Hl. injection Hl as <-. injection He as <-.
    destruct Hw as [-> | ->]; repeat split; vm_compute; reflexivity.
  - intros t Ht. apply list_elem_of_In in Ht. rewrite forallb_forall in Hlen. apply Z.ltb_lt. by apply Hlen.
Defined.

(** The description of an error that has a full stop, a blank and an S makes the client say that
    the attribute is not polled; the word "triggered" makes it say that its period is 0. *)
Example stop_hides : match ex_status (ex_error "Time out. Sensor lost") 1000 with Ok texts => is_polled Attr "x" texts | _ => Undef end = Ok None.
Proof. vm_compute. reflexivity. Qed.
Example triggered_hides : match ex_status (ex_error "interlock triggered") 1000 with Ok texts => is_polled Attr "x" texts | _ => Undef end = Ok (Some "0").
Proof. vm_compute. reflexivity. Qed.

Definition ex_admin : string → AdminArg → XM cexn (SrvSt Z Z) (list string) :=
  admin_device 0 (ex_senv false) 1 (λ _, true) 1000 9 ex_buffer ["Init"] (λ _, 6250000000) (λ l, l).
Lemma polled_as_asked_witness :
  ∃ s', poll_attribute (mret tt) ex_admin "A/b/1" "Y" 500 ex_srv = Some (s', inr tt) ∧
    is_attribute_polled (mret tt) ex_admin "A/b/1" "Y" s' = Some (s', inr true) ∧
    get_attribute_poll_period (mret tt) ex_admin "A/b/1" "Y" s' = Some (s', inr 500).
Proof.
  apply (polled_as_asked 0 (ex_senv false) 1 (λ _, true) 1000 9 ex_buffer ["Init"] (λ _, 6250000000) (λ l, l)
    ex_srv "A/b/1" "Y" 500 0 0 (ex_pti ex_poller) ex_info (ex_pdev 5) 10 ["x"; "1000"; "y"; "500"]).
  - split; [vm_compute; reflexivity|done|done|done|exact ex_mapped| |reflexivity|vm_compute; reflexivity].
    exists "attribute". split; [reflexivity|]. split; [split; [done|]; by exists (ex_attr "Y")|].
    split; [reflexivity|]. split; [reflexivity|]. right. split; [vm_compute; discriminate|].
    exists 100. split; [vm_compute; reflexivity|]. right. vm_compute. discriminate.
  - lia.
  - exact ex_names.
  - intros o Ho%list_elem_of_singleton. subst o. split; [intros together t; eexists; split; [reflexivity|vm_compute; reflexivity]|by eexists].
  - split; [intros together t; eexists; split; [reflexivity|vm_compute; reflexivity]|by eexists].
  - intros o Ho%list_elem_of_singleton. subst o. right. split; [done|]. split; [|done]. intros errs e p _ He. exfalso. by vm_compute in He.
Defined.
