(* ===== verification/Connection.v ===== *)
(** * Connections and the requests of a proxy (src/src/client/devapi_base.cpp)

  [Connection::connect], [reconnect] and [check_and_reconnect], the handling of the CORBA
  exceptions ([TRANSIENT_NOT_EXIST_EXCEPT] and [TRANSIENT_NOT_EXIST_EXCEPT_CMD] of
  apiexcept.h), [Connection::command_inout], and the requests of [DeviceProxy] on the device
  itself (ping, state, info, ...).

  A request is a [CM]: it changes the members of the proxy and the world, and it may throw.
  The world is reached by the functions of [Orb] and [Services] only: the ORB, and the
  objects of the library that talk to the database.  [calls] records the remote calls, in
  order.  One thread is modelled: what it does between the two tests of the connection
  state by [check_and_reconnect] is not interrupted.  [origin] of an error is the method
  that throws it. *)
From stdpp Require Import pretty.
From S2P Require Import Prelude StateExn CppString PollRing Attribute DevState BlackBox ReadCache ClientExn DeviceAttr.
Local Open Scope string_scope.
Local Open Scope list_scope.
Local Open Scope Z_scope.

(** ** The members *)

Inductive AccessControlType := ACCESS_READ | ACCESS_WRITE.
#[export] Instance AccessControlType_eq : EqDecision AccessControlType.
Proof. solve_decision. Defined.

(** [DeviceInfo], and [DevInfo], [DevInfo_3] and [DevInfo_6], that have the first members. *)
Record DeviceInfo := mkInfo {
  dev_class : string;
  server_id : string;
  server_host : string;
  info_server_version : Z;
  doc_url : string;
  dev_type : string;
  version_info : gmap string string;
}.
Record DevInfo := mkDevInfo {
  i_dev_class : string; i_server_id : string; i_server_host : string; i_server_version : Z; i_doc_url : string;
  i_dev_type : string; i_version_info : list (string * string) }.

Inductive DispLevel := OPERATOR | EXPERT.
Record CommandInfo := mkCmdInfo {
  cmd_name : string; cmd_tag : Z; in_type : Z; out_type : Z; in_type_desc : string; out_type_desc : string; disp_level : DispLevel }.

(** The members of a [DeviceProxy] and of its [Connection] that the requests use.
    [refs] holds the references [device], [device_2], ... [device_6] that are not nil, by
    the number of the interface. *)
Record Conn (Ref : Type) := mkConn {
  refs : gmap Z Ref;
  version : Z;
  server_version : Z;
  connection_ok : bool;
  timeout : Z;
  source : DevSource;
  access : AccessControlType;
  check_acc : bool;
  tr_reco : bool;
  prev_failed_t0 : option Z;
  lock_ctr : Z;
  has_alt_adr : bool;
  user_connect_timeout : Z;
  dbase_used : bool;
  from_env_var : bool;
  device_name : string;
  is_alias : bool;
  host : string;
  port : string;
  db_host : string;
  db_port : string;
  db_port_num : Z;
  info_ : DeviceInfo;
}.
Arguments mkConn {Ref}.
Arguments refs {Ref}. Arguments version {Ref}. Arguments server_version {Ref}. Arguments connection_ok {Ref}.
Arguments timeout {Ref}. Arguments source {Ref}. Arguments access {Ref}. Arguments check_acc {Ref}.
Arguments tr_reco {Ref}. Arguments prev_failed_t0 {Ref}. Arguments lock_ctr {Ref}. Arguments has_alt_adr {Ref}.
Arguments user_connect_timeout {Ref}. Arguments dbase_used {Ref}. Arguments from_env_var {Ref}.
Arguments device_name {Ref}. Arguments is_alias {Ref}. Arguments host {Ref}. Arguments port {Ref}.
Arguments db_host {Ref}. Arguments db_port {Ref}. Arguments db_port_num {Ref}. Arguments info_ {Ref}.

(** ** The remote operations of the devices (the IDL) *)

Inductive IdlCall (Any : Type) : Type → Type :=
  | Ping : IdlCall Any unit
  | Name : IdlCall Any string
  | State : IdlCall Any DevState
  | Status : IdlCall Any string
  | Adm_name : IdlCall Any string
  | Description : IdlCall Any string
  | Black_box (n : Z) : IdlCall Any (list string)
  | Info : IdlCall Any DevInfo
  | Info_3 : IdlCall Any DevInfo
  | Info_6 : IdlCall Any DevInfo
  | Command_query (cmd : string) : IdlCall Any CommandInfo
  | Command_query_2 (cmd : string) : IdlCall Any CommandInfo
  | Command_list_query : IdlCall Any (list CommandInfo)
  | Command_list_query_2 : IdlCall Any (list CommandInfo)
  | Command_inout (cmd : string) (arg : Any) : IdlCall Any Any
  | Command_inout_2 (cmd : string) (arg : Any) (src : DevSource) : IdlCall Any Any
  | Command_inout_4 (cmd : string) (arg : Any) (src : DevSource) (cl : ClntIdent) : IdlCall Any Any
  | Read_attributes (names : list string) : IdlCall Any (list OldAttr)
  | Read_attributes_2 (names : list string) (src : DevSource) : IdlCall Any (list OldAttr)
  | Read_attributes_3 (names : list string) (src : DevSource) : IdlCall Any (list OldAttr)
  | Read_attributes_4 (names : list string) (src : DevSource) (cl : ClntIdent) : IdlCall Any (list NetAttr)
  | Read_attributes_5 (names : list string) (src : DevSource) (cl : ClntIdent) : IdlCall Any (list NetAttr)
  | Write_attributes (values : list OutAttr) : IdlCall Any unit
  | Write_attributes_3 (values : list OutAttr) : IdlCall Any unit
  | Write_attributes_4 (values : list OutAttr) (cl : ClntIdent) : IdlCall Any unit.
Arguments Ping {Any}. Arguments Name {Any}. Arguments State {Any}. Arguments Status {Any}. Arguments Adm_name {Any}.
Arguments Description {Any}. Arguments Black_box {Any}. Arguments Info {Any}. Arguments Info_3 {Any}. Arguments Info_6 {Any}.
Arguments Command_query {Any}. Arguments Command_query_2 {Any}. Arguments Command_list_query {Any}.
Arguments Command_list_query_2 {Any}. Arguments Command_inout {Any}. Arguments Command_inout_2 {Any}.
Arguments Command_inout_4 {Any}. Arguments Read_attributes {Any}. Arguments Read_attributes_2 {Any}.
Arguments Read_attributes_3 {Any}. Arguments Read_attributes_4 {Any}. Arguments Read_attributes_5 {Any}.
Arguments Write_attributes {Any}. Arguments Write_attributes_3 {Any}. Arguments Write_attributes_4 {Any}.

(** A remote call: the number of the interface whose reference is used, whether there was
    one, and the operation. *)
Record Sent (Any : Type) := mkSent { by_device : Z; live : bool; operation : { A : Type & IdlCall Any A } }.
Arguments mkSent {Any}. Arguments by_device {Any}. Arguments live {Any}. Arguments operation {Any}.

(** The ORB.  [narrow k] is [Device_k::_narrow]; [alternate_address] looks for a component of
    tag 3 in the first profile of an IOR, [None] being an IOR without components; a call
    through a nil reference throws [nil_reference]. *)
Class Orb (Ref Any Obj W : Type) := {
  string_to_object : string → W → W * (SystemException + Obj);
  narrow : Z → Obj → W → W * (SystemException + option Ref);
  non_existent : Ref → W → W * (SystemException + bool);
  invoke : ∀ A, Ref → IdlCall Any A → W → W * (cexn + A);
  nil_reference : SystemException;
  alternate_address : string → W → W * (SystemException + option bool);
  setClientConnectTimeout : Z → W → W;
  setClientCallTimeout : Ref → Z → W → W;
  steady_clock : W → Z;
  client_pid : W → Z;
}.

(** The objects of the library that a proxy uses: its [DbDevice], the [Database]s of the
    [ApiUtil], found by the environment or by a host and a port, and the server the process
    may be ([local_import], which gives an empty text outside of a server).  What they throw
    is a [DevFailed]: the exceptions of CORBA are handled inside. *)
Definition ServiceError : Type := ExcClass * DevErrorList.
Inductive DbIndex := ByEnv | ByHost (h : string) (p : Z) | ThisObject.
Class Services (W : Type) := {
  local_import : string → W → W * (ServiceError + string);
  import_device : string → W → W * (ServiceError + (Z * string));
  check_access_control : string → W → W * (ServiceError + AccessControlType);
  set_db_dev_name : string → W → W;
  no_database : W → bool;
  clear_access_except_errors : DbIndex → W → W * (ServiceError + unit);
  is_command_allowed : DbIndex → string → string → W → W * (ServiceError + bool);
  get_access_except_errors : DbIndex → W → DevErrorList;
  get_fqdn : string → W → W * (ServiceError + string);
}.

Section Connection.
Context {Ref Any Obj W : Type} `{orb : !Orb Ref Any Obj W} `{Sv : !Services W} `{M : !OmniMinors}.

Record St := mkSt { conn : Conn Ref; world : W; calls : list (Sent Any) }.
Abbreviation CM := (XM cexn St).
Implicit Types c : Conn Ref.

(** ** Members and world *)

Definition upd (f : Conn Ref → Conn Ref) : CM unit := modify (λ s, mkSt (f (conn s)) (world s) (calls s)).
Definition self : CM (Conn Ref) := λ s, Some (s, inr (conn s)).
Definition the_world : CM W := λ s, Some (s, inr (world s)).
Definition run {A} (f : W → W * (ServiceError + A)) : CM A := λ s,
  let '(w, r) := f (world s) in Some (mkSt (conn s) w (calls s), match r with inl (c, l) => inl (TErr c l) | inr a => inr a end).
Definition run_orb {A} (f : W → W * (SystemException + A)) : CM A := λ s,
  let '(w, r) := f (world s) in Some (mkSt (conn s) w (calls s), match r with inl e => inl (Sys e) | inr a => inr a end).
Definition run_world (f : W → W) : CM unit := modify (λ s, mkSt (conn s) (f (world s)) (calls s)).

Definition set_refs r c : Conn Ref :=
  mkConn r (version c) (server_version c) (connection_ok c) (timeout c) (source c) (access c) (check_acc c) (tr_reco c) (prev_failed_t0 c) (lock_ctr c) (has_alt_adr c) (user_connect_timeout c) (dbase_used c) (from_env_var c) (device_name c) (is_alias c) (host c) (port c) (db_host c) (db_port c) (db_port_num c) (info_ c).
Definition set_version v c : Conn Ref :=
  mkConn (refs c) v (server_version c) (connection_ok c) (timeout c) (source c) (access c) (check_acc c) (tr_reco c) (prev_failed_t0 c) (lock_ctr c) (has_alt_adr c) (user_connect_timeout c) (dbase_used c) (from_env_var c) (device_name c) (is_alias c) (host c) (port c) (db_host c) (db_port c) (db_port_num c) (info_ c).
Definition set_server_version v c : Conn Ref :=
  mkConn (refs c) (version c) v (connection_ok c) (timeout c) (source c) (access c) (check_acc c) (tr_reco c) (prev_failed_t0 c) (lock_ctr c) (has_alt_adr c) (user_connect_timeout c) (dbase_used c) (from_env_var c) (device_name c) (is_alias c) (host c) (port c) (db_host c) (db_port c) (db_port_num c) (info_ c).
Definition set_ok b c : Conn Ref :=
  mkConn (refs c) (version c) (server_version c) b (timeout c) (source c) (access c) (check_acc c) (tr_reco c) (prev_failed_t0 c) (lock_ctr c) (has_alt_adr c) (user_connect_timeout c) (dbase_used c) (from_env_var c) (device_name c) (is_alias c) (host c) (port c) (db_host c) (db_port c) (db_port_num c) (info_ c).
Definition set_timeout t c : Conn Ref :=
  mkConn (refs c) (version c) (server_version c) (connection_ok c) t (source c) (access c) (check_acc c) (tr_reco c) (prev_failed_t0 c) (lock_ctr c) (has_alt_adr c) (user_connect_timeout c) (dbase_used c) (from_env_var c) (device_name c) (is_alias c) (host c) (port c) (db_host c) (db_port c) (db_port_num c) (info_ c).
Definition put_source x c : Conn Ref :=
  mkConn (refs c) (version c) (server_version c) (connection_ok c) (timeout c) x (access c) (check_acc c) (tr_reco c) (prev_failed_t0 c) (lock_ctr c) (has_alt_adr c) (user_connect_timeout c) (dbase_used c) (from_env_var c) (device_name c) (is_alias c) (host c) (port c) (db_host c) (db_port c) (db_port_num c) (info_ c).
Definition set_access a ca c : Conn Ref :=
  mkConn (refs c) (version c) (server_version c) (connection_ok c) (timeout c) (source c) a ca (tr_reco c) (prev_failed_t0 c) (lock_ctr c) (has_alt_adr c) (user_connect_timeout c) (dbase_used c) (from_env_var c) (device_name c) (is_alias c) (host c) (port c) (db_host c) (db_port c) (db_port_num c) (info_ c).
Definition set_t0 t c : Conn Ref :=
  mkConn (refs c) (version c) (server_version c) (connection_ok c) (timeout c) (source c) (access c) (check_acc c) (tr_reco c) t (lock_ctr c) (has_alt_adr c) (user_connect_timeout c) (dbase_used c) (from_env_var c) (device_name c) (is_alias c) (host c) (port c) (db_host c) (db_port c) (db_port_num c) (info_ c).
Definition set_lock_ctr n c : Conn Ref :=
  mkConn (refs c) (version c) (server_version c) (connection_ok c) (timeout c) (source c) (access c) (check_acc c) (tr_reco c) (prev_failed_t0 c) n (has_alt_adr c) (user_connect_timeout c) (dbase_used c) (from_env_var c) (device_name c) (is_alias c) (host c) (port c) (db_host c) (db_port c) (db_port_num c) (info_ c).
Definition set_alt b c : Conn Ref :=
  mkConn (refs c) (version c) (server_version c) (connection_ok c) (timeout c) (source c) (access c) (check_acc c) (tr_reco c) (prev_failed_t0 c) (lock_ctr c) b (user_connect_timeout c) (dbase_used c) (from_env_var c) (device_name c) (is_alias c) (host c) (port c) (db_host c) (db_port c) (db_port_num c) (info_ c).
Definition set_device_name n c : Conn Ref :=
  mkConn (refs c) (version c) (server_version c) (connection_ok c) (timeout c) (source c) (access c) (check_acc c) (tr_reco c) (prev_failed_t0 c) (lock_ctr c) (has_alt_adr c) (user_connect_timeout c) (dbase_used c) (from_env_var c) n (is_alias c) (host c) (port c) (db_host c) (db_port c) (db_port_num c) (info_ c).
Definition set_host h c : Conn Ref :=
  mkConn (refs c) (version c) (server_version c) (connection_ok c) (timeout c) (source c) (access c) (check_acc c) (tr_reco c) (prev_failed_t0 c) (lock_ctr c) (has_alt_adr c) (user_connect_timeout c) (dbase_used c) (from_env_var c) (device_name c) (is_alias c) h (port c) (db_host c) (db_port c) (db_port_num c) (info_ c).
Definition set_info i c : Conn Ref :=
  mkConn (refs c) (version c) (server_version c) (connection_ok c) (timeout c) (source c) (access c) (check_acc c) (tr_reco c) (prev_failed_t0 c) (lock_ctr c) (has_alt_adr c) (user_connect_timeout c) (dbase_used c) (from_env_var c) (device_name c) (is_alias c) (host c) (port c) (db_host c) (db_port c) (db_port_num c) i.

Definition dev_name c : string := device_name c.
Definition set_connection_state (ok : bool) : CM unit := upd (set_ok ok).
Definition get_source : CM DevSource := c ← self; mret (source c).
Definition set_source (x : DevSource) : CM unit := upd (put_source x).
Definition is_connected : CM bool := c ← self; mret (connection_ok c).
Definition get_timeout_millis : CM Z := c ← self; mret (timeout c).

(** [Device_k_var dev = Device_k::_duplicate(device_k); dev->operation(...)]. *)
Definition call {A} (k : Z) (q : IdlCall Any A) : CM A := λ s,
  match refs (conn s) !! k with
  | Some r =>
      let '(w, res) := invoke A r q (world s) in
      Some (mkSt (conn s) w (calls s ++ [mkSent k true (existT A q)]), res)
  | None => Some (mkSt (conn s) (world s) (calls s ++ [mkSent k false (existT A q)]), inl (Sys nil_reference))
  end.

(** The identification of the client, by the interfaces of the device and of its server. *)
Definition get_client_identification : CM ClntIdent :=
  c ← self; w ← the_world;
  mret (if (4 <=? version c) && (6 <=? server_version c) then CppClnt_6 (client_pid w) else CppClnt (client_pid w)).

(** ** Connecting *)

Definition CLNT_TIMEOUT : Z := 3000.
Definition NARROW_CLNT_TIMEOUT : Z := 100.
Definition DB_START_PHASE_RETRIES : nat := 3.
Definition DbObjName : string := "database".
(** [RECONNECTION_DELAY], in the units of the clock. *)
Definition RECONNECTION_DELAY : Z := 1000000000.

(** [try { m } catch(CORBA::SystemException &e) { h e }]. *)
Definition catch_sys {A} (m : CM A) (h : SystemException → CM A) : CM A :=
  catch m (λ e, match e with Sys e => h e | _ => throw_exn e end).

(** [set_timeout_millis], for an object whose reconnection is [reconnect]. *)
Definition set_timeout_by (reconnect : CM unit) (millisecs : Z) : CM unit :=
  upd (set_timeout millisecs);;
  catch_dev_failed
    (c ← self;
     when_ (negb (connection_ok c)) reconnect;;
     c ← self;
     match refs c !! 1 with Some r => run_world (setClientCallTimeout r millisecs) | None => throw_exn (Sys nil_reference) end)
    (λ _, mret tt).

(** The narrowing from the interface [k] down to the first, [refs] keeping what the
    assignments before have put in the members. *)
Fixpoint narrow_from (k : nat) (obj : Obj) : CM (option Z) :=
  match k with
  | O => mret None
  | S k' =>
      r ← run_orb (narrow (Z.of_nat k) obj);
      match r with
      | None => upd (λ c, set_refs (delete (Z.of_nat k) (refs c)) c);; narrow_from k' obj
      | Some r => upd (λ c, set_refs (<[Z.of_nat k := r]> (refs c)) c);; mret (Some (Z.of_nat k))
      end
  end.
(** The members of the older interfaces get the same reference. *)
Fixpoint duplicate_below (k : nat) (r : Ref) (m : gmap Z Ref) : gmap Z Ref :=
  match k with O => m | S k' => duplicate_below k' r (<[Z.of_nat k := r]> m) end.

Definition connect_once (corba_name : string) (connect_to_db : bool) : CM unit :=
  obj ← run_orb (string_to_object corba_name);
  c ← self;
  when_ (negb connect_to_db)
    (run_world (setClientConnectTimeout (if negb (user_connect_timeout c =? -1) then user_connect_timeout c else NARROW_CLNT_TIMEOUT)));;
  found ← narrow_from 6 obj;
  match found with
  | None =>
      set_connection_state false;; c ← self;
      throw_exn (api_error ConnectionFailed "API_CantConnectToDevice" ("Failed to connect to device " +:+ dev_name c +:+ " (device nil after _narrowing)") "Connection::connect")
  | Some k =>
      c ← self;
      match refs c !! k with
      | None => undef
      | Some r =>
          run_orb (non_existent r);;
          upd (λ c, set_refs (duplicate_below (Z.to_nat k - 1) r (refs c)) (set_version k c))
      end
  end;;
  when_ (String.prefix "IOR" corba_name)
    (b ← run_orb (alternate_address corba_name); match b with Some b => upd (set_alt b) | None => mret tt end);;
  set_connection_state true;;
  c ← self;
  when_ (negb (timeout c =? CLNT_TIMEOUT)) (set_timeout_by undef (timeout c)).

(** The reason and the text of a failure, and whether the database was to be reached. *)
Definition connect_failure (corba_name : string) (ce : SystemException) c : string * string * bool :=
  let to_device := "Failed to connect to device " +:+ dev_name c in
  match find ":" corba_name 0 with
  | None => ("API_CantConnectToDevice", to_device, false)
  | Some pos =>
      if bool_decide (str_take pos corba_name = "corbaloc") then
        match find "/" corba_name 0 with
        | Some tmp =>
            if bool_decide (str_drop (tmp + 1) corba_name = "database")
            then ("API_CantConnectToDatabase", "Failed to connect to database on host " +:+ db_host c +:+ " with port " +:+ db_port c, true)
            else (match sys_class ce with OBJECT_NOT_EXIST => "API_DeviceNotDefined" | TRANSIENT => "API_ServerNotRunning" | _ => "API_CantConnectToDevice" end,
                  to_device, false)
        | None => ("API_CantConnectToDevice", to_device, false)
        end
      else ("API_CantConnectToDevice", to_device, false)
  end.
(** The loop: only the database is tried again, [db_retries] times in all. *)
Fixpoint connect_loop (db_retries : nat) (corba_name : string) (connect_to_db : bool) : CM unit :=
  let connect_to_db := connect_to_db || bool_decide (is_Some (find DbObjName corba_name 0)) in
  catch_sys (connect_once corba_name connect_to_db) (λ ce,
    c ← self;
    let '(reason, desc, db) := connect_failure corba_name ce c in
    let failed := throw_exn (from_corba ConnectionFailed (print_CORBA_SystemException_r ce) reason desc "Connection::connect") in
    if (db : bool) then match db_retries with S (S _ as k) => connect_loop k corba_name connect_to_db | _ => failed end
    else failed).
Definition connect (corba_name : string) : CM unit := connect_loop DB_START_PHASE_RETRIES corba_name false.

Definition db_index c : DbIndex := if from_env_var c then ByEnv else ByHost (db_host c) (db_port_num c).
Definition get_corba_name (need_check_acc : bool) : CM string :=
  c ← self;
  local_ior ← run (local_import (device_name c));
  ior ← (if bool_decide (local_ior = "") then
           import_info ← run (import_device (device_name c));
           when_ (negb (import_info.1 =? 1))
             (set_connection_state false;; c ← self;
              throw_exn (api_error ConnectionFailed "API_DeviceNotExported" ("Device " +:+ device_name c +:+ " is not exported (hint: try starting the device server)") "DeviceProxy::get_corba_name"));;
           mret import_info.2
         else mret local_ior);
  (if need_check_acc then
     a ← run (check_access_control (device_name c));
     upd (λ c, set_access a (check_acc c) c)
   else upd (λ c, set_access (access c) false c));;
  mret ior.
Definition build_corba_name c : string := "corbaloc:iiop:" +:+ host c +:+ ":" +:+ port c +:+ "/" +:+ device_name c.

Definition endl : string := String (Ascii.ascii_of_nat 10) "".
(** [throw;] in a handler. *)
Definition on_dev_failed {A} (h : CM unit) (m : CM A) : CM A :=
  catch m (λ e, match dev_failed e with Some _ => h;; throw_exn e | None => throw_exn e end).

(** [Connection::reconnect] of an object that is not a [Database]: the cast for the
    post-reconnection of a database is undefined behaviour. *)
Definition reconnect_base (db_used : bool) : CM unit :=
  w ← the_world;
  let now := steady_clock w in
  c ← self;
  when_ (negb (connection_ok c))
    match prev_failed_t0 c with
    | Some t0 =>
        when_ (now - t0 <? RECONNECTION_DELAY)
          (throw_exn (api_error PlainDevFailed "API_CantConnectToDevice"
            ("Failed to connect to device " +:+ dev_name c +:+ endl +:+ "The connection request was delayed." +:+ endl +:+
             "The last connection request was done less than 1000 ms ago") "Connection::reconnect"))
    | None => mret tt
    end;;
  on_dev_failed (upd (set_t0 (Some now)))
    (corba_name ←
       (if connection_ok c then mret ""
        else
          name ← (if db_used then
                    name ← get_corba_name (check_acc c);
                    c ← self;
                    when_ (negb (check_acc c)) (run (clear_access_except_errors (db_index c)));;
                    mret name
                  else mret (build_corba_name c));
          connect name;;
          mret name);
     c ← self;
     when_ (connection_ok c)
       (catch_sys
          (device_info ← call 1 Info;
           upd (set_server_version (i_server_version device_info));;
           upd (set_t0 None);;
           when_ (bool_decide (is_Some (find "database" corba_name 0))) undef)
          (λ ce,
             set_connection_state false;; c ← self;
             throw_exn (from_corba ConnectionFailed (print_CORBA_SystemException_r ce) "API_CantConnectToDevice" ("Failed to connect to device " +:+ dev_name c) "Connection::reconnect")))).

(** [DeviceProxy::reconnect]: a proxy made from an alias asks the name of its device. *)
Definition reconnect (db_used : bool) : CM unit :=
  reconnect_base db_used;;
  c ← self;
  when_ (connection_ok c && is_alias c)
    (real_name ← call 1 Name;
     upd (set_device_name (tolower real_name));;
     run_world (set_db_dev_name (tolower real_name))).

Definition reconnect_if_needed : CM unit := c ← self; when_ (negb (connection_ok c)) (reconnect (dbase_used c)).
Definition check_and_reconnect : CM unit := reconnect_if_needed.
Definition check_and_reconnect_sou : CM DevSource := c ← self; reconnect_if_needed;; mret (source c).
Definition check_and_reconnect_act : CM AccessControlType := reconnect_if_needed;; c ← self; mret (access c).
Definition check_and_reconnect_sou_act : CM (DevSource * AccessControlType) := c ← self; reconnect_if_needed;; c' ← self; mret (source c, access c').
Definition set_timeout_millis (millisecs : Z) : CM unit := c ← self; set_timeout_by (reconnect (dbase_used c)) millisecs.

(** ** Failures of a request *)

(** The ping that follows a timeout: whether the device cannot be reached. *)
Definition ping_fails : CM bool :=
  c ← self;
  catch (call 1 Ping;; mret false)
    (λ e, mret match e with
               | Sys t =>
                   bool_decide (sys_class t = TRANSIENT) &&
                   ((minor t =? TRANSIENT_ConnectFailed) || (minor t =? TRANSIENT_CallTimedout) || (has_alt_adr c && (minor t =? TRANSIENT_CallTimedout)))
               | _ => false
               end).
Definition comm_error (e : SystemException) (reason desc origin : string) : cexn := from_corba CommunicationFailed (print_CORBA_SystemException_r e) reason desc origin.

(** [TRANSIENT_NOT_EXIST_EXCEPT]: when it returns the loop goes on.  [last] is [ctr == 2]. *)
Definition transient_not_exist (class_ name : string) (last : bool) (e : SystemException) : CM unit :=
  when_ (minor e =? TRANSIENT_CallTimedout)
    (run_world (setClientConnectTimeout NARROW_CLNT_TIMEOUT);;
     need_reconnect ← ping_fails;
     run_world (setClientConnectTimeout 0);;
     when_ (negb need_reconnect)
       (c ← self; throw_exn (comm_error e "API_DeviceTimedOut" ("Timeout (" +:+ pretty (timeout c) +:+ " mS) exceeded on device " +:+ dev_name c) (class_ +:+ ":" +:+ name))));;
  set_connection_state false;;
  c ← self;
  when_ (negb (tr_reco c) || (last && tr_reco c))
    (throw_exn (comm_error e "API_CommunicationFailed" ("Failed to execute " +:+ name +:+ " on device " +:+ dev_name c) (class_ +:+ ":" +:+ name))).

Definition cmd_origin : string := "Connection::command_inout()".
(** [TRANSIENT_NOT_EXIST_EXCEPT_CMD]: a command is not sent again when its lock is lost. *)
Definition transient_not_exist_cmd (command : string) (last : bool) (e : SystemException) : CM unit :=
  when_ (minor e =? TRANSIENT_CallTimedout)
    (need_reconnect ← ping_fails;
     when_ (negb need_reconnect)
       (c ← self; throw_exn (comm_error e "API_DeviceTimedOut" ("Timeout (" +:+ pretty (timeout c) +:+ " mS) exceeded on device " +:+ dev_name c +:+ ", command " +:+ command) cmd_origin)));;
  set_connection_state false;;
  c ← self;
  when_ (negb (lock_ctr c =? 0))
    (upd (set_lock_ctr 0);;
     throw_exn (from_corba DeviceUnlocked (print_CORBA_SystemException_r e) "API_DeviceUnlocked"
       ("Device " +:+ dev_name c +:+ " has lost your lock(s) (server re-start?) while executing command " +:+ command) cmd_origin));;
  when_ (negb (tr_reco c) || (last && tr_reco c))
    (throw_exn (comm_error e "API_CommunicationFailed" ("Failed to execute command_inout on device " +:+ dev_name c +:+ ", command " +:+ command) cmd_origin)).

(** The handlers of the CORBA exceptions of a request: [trans] is the macro, given the name
    it is used with for the class of the exception, [failed] the text for the others, and
    [origin] the method. *)
Definition on_corba (trans : SysClass → bool → SystemException → CM unit) (failed : SysClass → string → string) (origin : string) (last : bool) (e : cexn) : CM unit :=
  match e with
  | Sys s =>
      let lost := set_connection_state false;; c ← self; throw_exn (comm_error s "API_CommunicationFailed" (failed (sys_class s) (device_name c)) origin) in
      match sys_class s with
      | TRANSIENT => trans TRANSIENT last s
      | OBJECT_NOT_EXIST => if (minor s =? OBJECT_NOT_EXIST_NoMatch) || (minor s =? 0) then trans OBJECT_NOT_EXIST last s else lost
      | COMM_FAILURE => if minor s =? COMM_FAILURE_WaitingForReply then trans COMM_FAILURE last s else lost
      | _ => lost
      end
  | e => throw_exn e
  end.

(** The loop [while(ctr < 2) { try { body; ctr = 2; } catch... }]: when the handler of the
    second attempt returned, the code would go on without a result. *)
Definition two_attempts {A} (handler : bool → cexn → CM unit) (body : CM A) : CM A :=
  catch body (λ e, handler false e;; catch body (λ e, handler true e;; undef)).
End Connection.
