(* ===== verification/ProxyRequests.v ===== *)
(** * The requests of a client (src/src/client/devapi_base.cpp)

  [Connection::command_inout], the requests of [DeviceProxy] about the device itself, and
  the reading and writing of attributes: [read_attributes], [read_attribute],
  [write_attributes] and [write_attribute], with their overloads. *)
From stdpp Require Import pretty.
From S2P Require Import Prelude StateExn CppString PollRing Attribute AttrHistory Number WAttribute BlackBox DevState ReadCache ClientExn DeviceAttr Connection.
Local Open Scope string_scope.
Local Open Scope list_scope.
Local Open Scope Z_scope.

Section Requests.
Context {Ref Any Obj W : Type} `{orb : !Orb Ref Any Obj W} `{Sv : !Services W} `{M : !OmniMinors}.
Abbreviation CM := (XM cexn (@Connection.St Ref Any W)).

(** ** Commands *)

Definition DEVICE_UNLOCKED_REASON : string := "API_DeviceUnlocked".
(** A [DevFailed] thrown again with one more error: only a lost lock keeps its class. *)
Definition failed_or_unlocked {A} (l : DevErrorList) (reason_ desc origin : string) : CM A :=
  match l with
  | [] => undef
  | e :: _ =>
      if bool_decide (reason e = DEVICE_UNLOCKED_REASON) then throw_exn (one_more DeviceUnlocked l DEVICE_UNLOCKED_REASON desc origin)
      else throw_exn (one_more PlainDevFailed l reason_ desc origin)
  end.

(** With the right to read only, the device is tried before the refusal. *)
Definition read_only_ping : CM unit := catch (call 1 Ping) (λ e, set_connection_state false;; throw_exn e).
(** The description that follows the end of the text ([std::ends]) is not part of it. *)
Definition check_command (command : string) : CM unit :=
  c ← self; w ← the_world;
  if no_database w then undef
  else
    let db := db_index c in
    allowed ← run (is_command_allowed db (dev_name c) command);
    when_ (negb allowed)
      (read_only_ping;;
       c ← self; w ← the_world;
       throw_exn (api_error NotAllowed "API_ReadOnlyMode"
         ("Command " +:+ command +:+ " on device " +:+ dev_name c +:+
          (if bool_decide (get_access_except_errors db w = []) then " is not authorized"
           else " is not authorized because an error occurs while talking to the Controlled Access Service")) "Connection::command_inout")).
Definition send_command (command : string) (any : Any) (src : DevSource) : CM Any :=
  c ← self;
  if 4 <=? version c then cl ← get_client_identification; call 4 (Command_inout_4 command any src cl)
  else if 2 <=? version c then call 2 (Command_inout_2 command any src)
  else call 1 (Command_inout command any).
Definition command_text (command : string) (name : string) : string :=
  "Failed to execute command_inout on device " +:+ name +:+ ", command " +:+ command.
Definition command_failed (command : string) (last : bool) (e : cexn) : CM unit :=
  c ← self;
  let desc := command_text command (dev_name c) in
  let origin := "Connection::command_inout" in
  match e with
  | TErr ConnectionFailed l => throw_exn (one_more ConnectionFailed l "API_CommandFailed" desc origin)
  | TErr _ l | NamedDevFailedList _ l => failed_or_unlocked l "API_CommandFailed" desc origin
  | e => on_corba (λ _, transient_not_exist_cmd command) (λ _, command_text command) origin last e
  end.
Definition command_attempt (command : string) (any : Any) : CM Any :=
  '(src, act) ← check_and_reconnect_sou_act;
  when_ (bool_decide (act = ACCESS_READ)) (check_command command);;
  send_command command any src.
Definition command_inout_any (command : string) (any : Any) : CM Any := two_attempts (command_failed command) (command_attempt command any).
(** The overload for [DeviceData], given by its any, and the one without an argument. *)
Definition command_inout (command : string) (data_in : Any) : CM Any := two_attempts (command_failed command) (command_attempt command data_in).
Definition command_inout_void (empty : Any) (command : string) : CM Any := command_inout command empty.

(** ** Requests about the device *)

(** The handlers of the requests that have only those of CORBA. *)
Definition proxy_failed (name : string) (failed : SysClass → string → string) : bool → cexn → CM unit :=
  on_corba (λ _, transient_not_exist "DeviceProxy" name) failed ("DeviceProxy::" +:+ name).
Definition execute_text (what : string) (name : string) : string := "Failed to execute " +:+ what +:+ " on device " +:+ name.
Definition request {A} (name what : string) (body : CM A) : CM A :=
  two_attempts (proxy_failed name (λ _, execute_text what)) (check_and_reconnect;; body).

Definition ping : CM Z :=
  w ← the_world;
  request "ping" "ping" (call 1 Ping);;
  w' ← the_world;
  mret (Z.quot (steady_clock w' - steady_clock w) 1000).
Definition name : CM string := request "name" "name()" (call 1 Name).
Definition state : CM DevState := request "state" "state()" (call 1 State).
Definition status_text (k : SysClass) (name : string) : string :=
  match k with OBJECT_NOT_EXIST | COMM_FAILURE => execute_text "status()" name | _ => "Failed to execute status() on device (CORBA exception)" end.
Definition status : CM string := two_attempts (proxy_failed "status" status_text) (check_and_reconnect;; call 1 Status).
(** The name of the administration device, as a name for a client. *)
Definition MODIFIER_DBASE_NO : string := "#dbase=no".
Definition full_adm_name (adm_name_str : string) : CM string :=
  c ← self;
  if dbase_used c then
    mret (if from_env_var c then adm_name_str else "tango://" +:+ db_host c +:+ ":" +:+ db_port c +:+ "/" +:+ adm_name_str)
  else
    (if bool_decide (find "." (host c) 0 = None) then h ← run (get_fqdn (host c)); upd (set_host h) else mret tt);;
    c ← self;
    mret ("tango://" +:+ host c +:+ ":" +:+ port c +:+ "/" +:+ adm_name_str +:+ MODIFIER_DBASE_NO).
Definition adm_name : CM string := request "adm_name" "adm_name()" (st ← call 1 Adm_name; full_adm_name st).
Definition description : CM string := request "description" "description()" (call 1 Description).
Definition black_box (last_n_commands : Z) : CM (list string) := request "black_box" "black_box" (call 1 (Black_box last_n_commands)).

(** [std::map::insert] keeps the value of a key that is there. *)
Definition insert_new (m : gmap string string) (kv : string * string) : gmap string string :=
  match m !! kv.1 with Some _ => m | None => <[kv.1 := kv.2]> m end.
Definition put_dev_info (i : DevInfo) (ty : string) (versions : list (string * string)) : CM unit :=
  upd (λ c, set_info (mkInfo (i_dev_class i) (i_server_id i) (i_server_host i) (i_server_version i) (i_doc_url i) ty
                     (foldl insert_new (version_info (info_ c)) versions)) c).
Definition NotSet : string := "Uninitialised".
Definition info : CM DeviceInfo :=
  request "info" "info()"
    (c ← self;
     if 6 <=? version c then i ← call 6 Info_6; put_dev_info i (i_dev_type i) (i_version_info i)
     else if 3 <=? version c then i ← call 3 Info_3; put_dev_info i (i_dev_type i) []
     else i ← call 1 Info; put_dev_info i NotSet []);;
  c ← self; mret (info_ c).

Definition with_operator (i : CommandInfo) : CommandInfo :=
  mkCmdInfo (cmd_name i) (cmd_tag i) (in_type i) (out_type i) (in_type_desc i) (out_type_desc i) OPERATOR.
Definition command_query (cmd : string) : CM CommandInfo :=
  request "command_query" "command_query"
    (c ← self;
     if version c =? 1 then i ← call 1 (Command_query cmd); mret (with_operator i) else call 2 (Command_query_2 cmd)).
Definition command_list_query : CM (list CommandInfo) :=
  request "command_list_query" "command_list_query"
    (c ← self;
     if version c =? 1 then l ← call 1 Command_list_query; mret (with_operator <$> l) else call 2 Command_list_query_2).
Definition AllCmd : string := "All commands".
Definition get_command_config (cmd_names : list string) : CM (list CommandInfo) :=
  all_cmds ← command_list_query;
  mret (if bool_decide (cmd_names = [AllCmd]) then all_cmds
        else omap (λ n, List.find (λ i, bool_decide (tolower n = tolower (cmd_name i))) all_cmds) cmd_names).
Definition get_command_list : CM (list string) := all_cmd_config ← command_list_query; mret (cmd_name <$> all_cmd_config).

(** ** Reading attributes *)

Inductive Received := Old (l : list OldAttr) | New (l : list NetAttr).
Definition read_call (names : list string) (src : DevSource) : CM Received :=
  c ← self;
  if 5 <=? version c then cl ← get_client_identification; l ← call 5 (Read_attributes_5 names src cl); mret (New l)
  else if version c =? 4 then cl ← get_client_identification; l ← call 4 (Read_attributes_4 names src cl); mret (New l)
  else if version c =? 3 then l ← call 3 (Read_attributes_3 names src); mret (Old l)
  else if version c =? 2 then l ← call 2 (Read_attributes_2 names src); mret (Old l)
  else l ← call 1 (Read_attributes names); mret (Old l).
(** The handlers, with the text for the errors of the device and the one for CORBA's. *)
Definition read_failed (name : string) (failed corba : string → string) (last : bool) (e : cexn) : CM unit :=
  c ← self;
  let origin := "DeviceProxy::" +:+ name in
  match e with
  | TErr ConnectionFailed l => throw_exn (one_more ConnectionFailed l "API_AttributeFailed" (failed (device_name c)) origin)
  | TErr _ l | NamedDevFailedList _ l => throw_exn (one_more PlainDevFailed l "API_AttributeFailed" (failed (device_name c)) origin)
  | e => on_corba (λ _, transient_not_exist "DeviceProxy" name) (λ _, corba) origin last e
  end.
Definition convert (m : DA unit) (d : DeviceAttribute) : CM DeviceAttribute := λ s,
  match m d with Some (d', inr _) => Some (s, inr d') | Some (_, inl e) => Some (s, inl e) | None => None end.
Definition with_error (l : DevErrorList) (text origin : string) : DevErrorList :=
  match l with [] => [] | _ => l ++ [mkDevError "API_AttributeFailed" ERR text origin] end.
(** From version 3 on: the error of the request is added to those of the device. *)
Definition add_read_error (what : string) (no_type : bool) (d : DeviceAttribute) : CM DeviceAttribute :=
  c ← self;
  match da_err_list d with
  | None => undef
  | Some [] => mret d
  | Some l =>
      let d := set_errs (Some (with_error l ("Failed to " +:+ what +:+ " on device " +:+ device_name c +:+ ", attribute " +:+ da_name d) ("DeviceProxy::" +:+ what))) d in
      mret (if no_type then set_type DATA_TYPE_UNKNOWN d else d)
  end.
Definition convert_new (what : string) (no_type : bool) (v : NetAttr) (d : DeviceAttribute) : CM DeviceAttribute :=
  c ← self;
  d ← convert (if 5 <=? version c then attr_to_device_5 v else attr_to_device_4 v) d;
  add_read_error what no_type d.
Definition convert_old (what : string) (no_type : bool) (v : OldAttr) (d : DeviceAttribute) : CM DeviceAttribute :=
  c ← self;
  d ← convert (attr_to_device v (version c)) d;
  if 3 <=? version c then add_read_error what no_type d else mret d.

Definition lift_outcome {A} (x : outcome A) : CM A := λ s,
  match x with
  | Ok a => Some (s, inr a)
  | Exc (DevFailed l) => Some (s, inl (TErr PlainDevFailed l))
  | Exc (OtherExc n) => Some (s, inl (StdErr n))
  | Undef => None
  end.
Definition read_text (what names name : string) : string := "Failed to " +:+ what +:+ " on device " +:+ name +:+ names.
Definition read_attributes (attr_string_list : list string) : CM (list DeviceAttribute) :=
  lift_outcome (same_att_name attr_string_list "Deviceproxy::read_attributes()");;
  r ← two_attempts (read_failed "read_attributes" (read_text "read_attributes" (", attributes " +:+ String.concat ", " attr_string_list)) (read_text "execute read_attributes" ""))
        (src ← check_and_reconnect_sou; read_call attr_string_list src);
  match r with
  | New l => mapM (λ v, convert_new "read_attributes" false v DeviceAttribute_default) l
  | Old l => mapM (λ v, convert_old "read_attributes" false v DeviceAttribute_default) l
  end.
Definition read_att_except (attr : string) : bool → cexn → CM unit :=
  read_failed "read_attribute" (read_text "read_attribute" (", attribute " +:+ attr)) (read_text "read_attribute" "").
(** The overload that fills a [DeviceAttribute] of the caller, and the one that returns a
    new one. *)
Definition read_attribute_into (attr_str : string) (dev_attr : DeviceAttribute) : CM DeviceAttribute :=
  r ← two_attempts (read_att_except attr_str) (src ← check_and_reconnect_sou; read_call [attr_str] src);
  match r with
  | New (v :: _) => convert_new "read_attribute" true v dev_attr
  | Old (v :: _) => convert_old "read_attribute" true v dev_attr
  | _ => undef
  end.
Definition read_attribute (attr_string : string) : CM DeviceAttribute := read_attribute_into attr_string DeviceAttribute_default.

(** The overloads for the types of the IDL. *)
Definition IDLVersionIsTooOld (vers desired : Z) : bool := (0 <? vers) && (vers <? desired).
Definition set_av_errs (l : DevErrorList) (v : NetAttr) : NetAttr :=
  let a := na_av v in
  mkNetAttr (na_name v) (PollRing.mkAV (PollRing.av_value a) (PollRing.av_quality a) (PollRing.av_time a) (PollRing.av_r_dim a) (PollRing.av_w_dim a) l) (na_format v) (na_type v).
Definition read_idl (attr_str old_text : string) (k : Z) (q : DevSource → ClntIdent → IdlCall Any (list NetAttr)) : CM NetAttr :=
  c ← self;
  when_ (IDLVersionIsTooOld (version c) k)
    (throw_exn (api_error PlainDevFailed "API_NotSupported" ("Device " +:+ dev_name c +:+ " is too old to support this call. Please, update to " +:+ old_text) "DeviceProxy::read_attribute"));;
  l ← two_attempts (read_att_except attr_str) (src ← check_and_reconnect_sou; cl ← get_client_identification; call k (q src cl));
  c ← self;
  match l with
  | [] => undef
  | v :: _ => mret (set_av_errs (with_error (PollRing.av_err_list (na_av v)) (read_text "read_attribute" (", attribute " +:+ attr_str) (device_name c)) "DeviceProxy::read_attribute") v)
  end.
Definition read_attribute_4 (attr_str : string) : CM NetAttr := read_idl attr_str "IDL 4 (Tango 7.x or more)" 4 (Read_attributes_4 [attr_str]).
Definition read_attribute_5 (attr_str : string) : CM NetAttr := read_idl attr_str "IDL 5 (Tango 9.x or more)" 5 (Read_attributes_5 [attr_str]).

(** ** Writing attributes *)

(** The structure that is sent: the members that the type of the IDL has, and the first
    sequence of [order]. *)
Definition to_send (order : list AttributeDataType) (with_format : bool) (d : DeviceAttribute) : OutAttr :=
  mkOut (da_name d) (da_quality d) (if with_format then da_format d else FMT_UNKNOWN) (da_time d) (mkDim (da_dim_x d) (da_dim_y d)) (first_seq order d).
(** Both lists are made for the version known before the request: the other stays empty. *)
Record ToWrite := mkToWrite { attr_value_list : list OutAttr; attr_value_list_4 : list OutAttr }.
Definition for_version (order_4 order : list AttributeDataType) (l : list DeviceAttribute) : CM ToWrite :=
  c ← self;
  when_ (version c =? 0) (check_and_reconnect_act;; mret tt);;
  c ← self;
  mret (if 4 <=? version c then mkToWrite [] (to_send order_4 true <$> l) else mkToWrite (to_send order false <$> l) []).
Definition check_write_access : CM unit :=
  act ← check_and_reconnect_act;
  when_ (bool_decide (act = ACCESS_READ))
    (read_only_ping;; c ← self;
     throw_exn (api_error NotAllowed "API_ReadOnlyMode" ("Writing attribute(s) on device " +:+ dev_name c +:+ " is not authorized") "DeviceProxy::write_attribute")).
Definition write_call (v : ToWrite) : CM unit :=
  check_write_access;;
  c ← self;
  if 4 <=? version c then cl ← get_client_identification; call 4 (Write_attributes_4 (attr_value_list_4 v) cl)
  else if version c =? 3 then call 3 (Write_attributes_3 (attr_value_list v))
  else call 1 (Write_attributes (attr_value_list v)).
(** The texts of the handlers of CORBA: the last one names the method in the plural. *)
Definition write_text (k : SysClass) (name : string) : string :=
  match k with OBJECT_NOT_EXIST | COMM_FAILURE => execute_text "write_attribute" name | _ => execute_text "write_attributes" name end.
Definition write_failed (multi : list NamedDevFailed → CM unit) (trans : SysClass → string) (failed : string → string) (origin : string) (last : bool) (e : cexn) : CM unit :=
  c ← self;
  match e with
  | MultiDevFailed errs => multi errs
  | TErr _ l | NamedDevFailedList _ l => failed_or_unlocked l "API_AttributeFailed" (failed (device_name c)) origin
  | e => on_corba (λ k, transient_not_exist "DeviceProxy" (trans k)) write_text origin last e
  end.
Definition write_attributes (attr_list : list DeviceAttribute) : CM unit :=
  v ← for_version any_types any_types attr_list;
  two_attempts
    (write_failed (λ errs, c ← self; throw_exn (named_list errs (device_name c) "DeviceProxy::write_attributes" "API_AttributeFailed"))
       (λ _, "write_attributes") (read_text "write_attributes" (", attributes " +:+ String.concat ", " (out_name <$> attr_value_list v))) "DeviceProxy::write_attributes")
    (write_call v).
(** For a single attribute: the errors of the first element, as a [DevFailed]. *)
Definition first_errors (attr : string) (errs : list NamedDevFailed) : CM unit :=
  c ← self;
  match errs with
  | [] => undef
  | e :: _ => throw_exn (one_more PlainDevFailed (err_stack e) "API_AttributeFailed" (read_text "write_attribute" (", attribute " +:+ attr) (device_name c)) "DeviceProxy::write_attribute")
  end.
Definition trans_name (k : SysClass) : string := match k with TRANSIENT => "write_attribute()" | _ => "write_attribute" end.
Definition write_one_failed (attr : string) : bool → cexn → CM unit :=
  write_failed (first_errors attr) trans_name (read_text "write_attribute" (", attribute " +:+ attr)) "DeviceProxy::write_attribute".
Definition write_attribute (dev_attr : DeviceAttribute) : CM unit :=
  v ← for_version seq_types any_types [dev_attr];
  two_attempts (write_one_failed (da_name dev_attr)) (write_call v).
(** The overloads for the types of the IDL. *)
Definition write_attribute_3 (attr_val : list OutAttr) : CM unit :=
  match attr_val with
  | [] => undef
  | a :: _ =>
      two_attempts (write_one_failed (out_name a))
        (check_write_access;; c ← self;
         if 3 <=? version c then call 3 (Write_attributes_3 attr_val) else call 1 (Write_attributes attr_val))
  end.
Definition write_attribute_4 (attr_val : list OutAttr) : CM unit :=
  match attr_val with
  | [] => undef
  | a :: _ =>
      c ← self;
      when_ (version c =? 0) (check_and_reconnect_act;; mret tt);;
      c ← self;
      when_ (IDLVersionIsTooOld (version c) 4)
        (throw_exn (api_error PlainDevFailed "API_NotSupportedFeature"
          (read_text "write_attribute" (", attribute " +:+ out_name a) (device_name c) +:+ ". The device does not support thi stype of data (Bad IDL release)") "DeviceProxy::write_attribute"));;
      two_attempts (write_one_failed (out_name a)) (check_write_access;; cl ← get_client_identification; call 4 (Write_attributes_4 attr_val cl))
  end.

(** The requests of a client, by the method that makes them. *)
Inductive Method : Type → Type :=
  | M_command_inout (command : string) (data_in : Any) : Method Any
  | M_command_inout_any (command : string) (any : Any) : Method Any
  | M_ping : Method Z
  | M_name : Method string
  | M_state : Method DevState
  | M_status : Method string
  | M_adm_name : Method string
  | M_description : Method string
  | M_black_box (n : Z) : Method (list string)
  | M_info : Method DeviceInfo
  | M_command_query (cmd : string) : Method CommandInfo
  | M_command_list_query : Method (list CommandInfo)
  | M_get_command_config (cmd_names : list string) : Method (list CommandInfo)
  | M_get_command_list : Method (list string)
  | M_read_attributes (names : list string) : Method (list DeviceAttribute)
  | M_read_attribute (attr : string) (d : DeviceAttribute) : Method DeviceAttribute
  | M_read_attribute_4 (attr : string) : Method NetAttr
  | M_read_attribute_5 (attr : string) : Method NetAttr
  | M_write_attributes (l : list DeviceAttribute) : Method unit
  | M_write_attribute (d : DeviceAttribute) : Method unit
  | M_write_attribute_3 (l : list OutAttr) : Method unit
  | M_write_attribute_4 (l : list OutAttr) : Method unit.
Definition exec {A} (m : Method A) : CM A :=
  match m with
  | M_command_inout command data_in => command_inout command data_in
  | M_command_inout_any command any => command_inout_any command any
  | M_ping => ping
  | M_name => name
  | M_state => state
  | M_status => status
  | M_adm_name => adm_name
  | M_description => description
  | M_black_box n => black_box n
  | M_info => info
  | M_command_query cmd => command_query cmd
  | M_command_list_query => command_list_query
  | M_get_command_config cmd_names => get_command_config cmd_names
  | M_get_command_list => get_command_list
  | M_read_attributes names => read_attributes names
  | M_read_attribute attr d => read_attribute_into attr d
  | M_read_attribute_4 attr => read_attribute_4 attr
  | M_read_attribute_5 attr => read_attribute_5 attr
  | M_write_attributes l => write_attributes l
  | M_write_attribute d => write_attribute d
  | M_write_attribute_3 l => write_attribute_3 l
  | M_write_attribute_4 l => write_attribute_4 l
  end.
End Requests.
