(* ===== verification/ConnTheory.v ===== *)
(** * Correctness of the requests of a proxy

  A Hoare logic for the code of Connection.v and ProxyRequests.v, and what it shows: the
  references that a request uses, how often a command is sent, the exceptions that come
  out of a request, and the right to read only. *)
From S2P Require Import Prelude StateExn CppString PollRing Attribute AttrHistory Number WAttribute BlackBox DevState ReadCache ClientExn DeviceAttr Connection ProxyRequests.
Local Open Scope string_scope.
Local Open Scope list_scope.
Local Open Scope Z_scope.

#[local] Set Default Proof Using "Type*".

Section Theory.
Context {Ref Any Obj W : Type} `{orb : !Orb Ref Any Obj W} `{Sv : !Services W} `{M : !OmniMinors}.
Abbreviation St := (@Connection.St Ref Any W).
Abbreviation CM := (XM cexn (@Connection.St Ref Any W)).
Implicit Types s : St.

(** ** Triples *)

(** From a state of [P], the code ends in [Q] with its result, or in [E] with its exception. *)
Definition triple {A} (P : St → Prop) (m : CM A) (Q : A → St → Prop) (E : cexn → St → Prop) : Prop :=
  ∀ s s' r, P s → m s = Some (s', r) → match r with inl e => E e s' | inr a => Q a s' end.
Definition keeps {A} (I : St → Prop) (m : CM A) : Prop := triple I m (λ _, I) (λ _, I).

Lemma triple_conseq {A} (P P' : St → Prop) (m : CM A) (Q Q' : A → St → Prop) (E E' : cexn → St → Prop) :
  triple P' m Q' E' → (∀ s, P s → P' s) → (∀ a s, Q' a s → Q a s) → (∀ e s, E' e s → E e s) → triple P m Q E.
Proof. intros H HP HQ HE s s' r Hs Hr. specialize (H s s' r (HP _ Hs) Hr). destruct r; auto. Qed.
(** An invariant, before the code and in what is kept of it after. *)
Lemma triple_keeps {A} (I P : St → Prop) (m : CM A) (Q : A → St → Prop) (E : cexn → St → Prop) :
  keeps I m → (∀ s, P s → I s) → (∀ a s, I s → Q a s) → (∀ e s, I s → E e s) → triple P m Q E.
Proof. intros H HP HQ HE. by eapply triple_conseq. Qed.
Lemma triple_pre {A} (P P' : St → Prop) (m : CM A) (Q : A → St → Prop) (E : cexn → St → Prop) : triple P' m Q E → (∀ s, P s → P' s) → triple P m Q E.
Proof. intros H HP. by eapply triple_conseq. Qed.
Lemma triple_ret {A} (a : A) (P : St → Prop) (Q : A → St → Prop) E : (∀ s, P s → Q a s) → triple P (mret a) Q E.
Proof. by intros H s s' r Hs [= <- <-]; apply H. Qed.
Lemma triple_throw {A} (e : cexn) (P : St → Prop) (Q : A → St → Prop) (E : cexn → St → Prop) : (∀ s, P s → E e s) → triple P (throw_exn e) Q E.
Proof. by intros H s s' r Hs [= <- <-]; apply H. Qed.
Lemma triple_undef {A} P (Q : A → St → Prop) E : triple P undef Q E.
Proof. by intros s s' r _ ?. Qed.
Lemma triple_bind {A B} P (m : CM A) (R : A → St → Prop) (f : A → CM B) Q E :
  triple P m R E → (∀ a, triple (R a) (f a) Q E) → triple P (m ≫= f) Q E.
Proof.
  intros Hm Hf s s' r Hs. unfold mbind, SM_bind. destruct (m s) as [[s1 [e|a]]|] eqn:Em; [| |done].
  - intros [= <- <-]. exact (Hm _ _ _ Hs Em).
  - intros Hr. exact (Hf a _ _ _ (Hm _ _ _ Hs Em) Hr).
Qed.
Lemma triple_catch {A} P (m : CM A) h Q (E E' : cexn → St → Prop) :
  triple P m Q E' → (∀ e, triple (E' e) (h e) Q E) → triple P (catch m h) Q E.
Proof.
  intros Hm Hh s s' r Hs. unfold catch. destruct (m s) as [[s1 [e|a]]|] eqn:Em; [| |done].
  - intros Hr. exact (Hh e _ _ _ (Hm _ _ _ Hs Em) Hr).
  - intros [= <- <-]. exact (Hm _ _ _ Hs Em).
Qed.
Lemma triple_upd f (P : St → Prop) (Q : unit → St → Prop) E : (∀ s, P s → Q tt (mkSt (f (conn s)) (world s) (calls s))) → triple P (upd f) Q E.
Proof. by intros H s s' r Hs [= <- <-]; apply H. Qed.
Lemma triple_self (P : St → Prop) (Q : Conn Ref → St → Prop) E : (∀ s, P s → Q (conn s) s) → triple P self Q E.
Proof. by intros H s s' r Hs [= <- <-]; apply H. Qed.
Lemma run_self {B} (f : Conn Ref → CM B) s : (self ≫= f) s = f (conn s) s.
Proof. done. Qed.
(** The members that were read are those of the state. *)
Lemma triple_bind_self {B} (P : St → Prop) (f : Conn Ref → CM B) Q E :
  (∀ c, triple (λ s, P s ∧ conn s = c) (f c) Q E) → triple P (self ≫= f) Q E.
Proof. intros H. apply (triple_bind _ _ (λ c s, P s ∧ conn s = c)); [by apply triple_self|done]. Qed.

(** ** Invariants *)

(** An invariant of the members and of the calls only. *)
Class Offline (I : St → Prop) := offline : ∀ c w w' l, I (mkSt c w l) → I (mkSt c w' l).

Section Inv.
Context (I : St → Prop).
Lemma keeps_ret {A} (a : A) : keeps I (mret a).
Proof. by apply triple_ret. Qed.
Lemma keeps_throw {A} (e : cexn) : keeps (A := A) I (throw_exn e).
Proof. by apply triple_throw. Qed.
Lemma keeps_undef {A} : keeps (A := A) I undef.
Proof. apply triple_undef. Qed.
Lemma keeps_bind {A B} (m : CM A) (f : A → CM B) : keeps I m → (∀ a, keeps I (f a)) → keeps I (m ≫= f).
Proof. intros Hm Hf. exact (triple_bind _ _ _ _ _ _ Hm Hf). Qed.
Lemma keeps_catch {A} (m : CM A) h : keeps I m → (∀ e, keeps I (h e)) → keeps I (catch m h).
Proof. intros Hm Hh. exact (triple_catch _ _ _ _ _ _ Hm Hh). Qed.
Lemma keeps_when b (m : CM unit) : keeps I m → keeps I (when_ b m).
Proof. destruct b; [done|]. intros _. apply keeps_ret. Qed.
Lemma keeps_self : keeps I self.
Proof. by apply triple_self. Qed.
Lemma keeps_world : keeps I the_world.
Proof. by intros s s' r Hs [= <- <-]. Qed.
Lemma keeps_upd f : (∀ s, I s → I (mkSt (f (conn s)) (world s) (calls s))) → keeps I (upd f).
Proof. intros H. by apply triple_upd. Qed.
Context `{!Offline I}.
Lemma keeps_run {A} (f : W → W * (ServiceError + A)) : keeps I (run f).
Proof.
  intros [c w l] s' r Hs. unfold run. simpl. destruct (f w) as [w' x]. intros [= <- <-].
  destruct x as [[]|]; by eapply offline.
Qed.
Lemma keeps_run_orb {A} (f : W → W * (SystemException + A)) : keeps I (run_orb f).
Proof.
  intros [c w l] s' r Hs. unfold run_orb. simpl. destruct (f w) as [w' x]. intros [= <- <-].
  destruct x; by eapply offline.
Qed.
Lemma keeps_run_world f : keeps I (run_world f).
Proof. intros [c w l] s' r Hs [= <- <-]. by eapply offline. Qed.
Lemma keeps_call {A} k (q : IdlCall Any A) : (∀ b s, I s → I (mkSt (conn s) (world s) (calls s ++ [mkSent k b (existT A q)]))) → keeps I (call k q).
Proof.
  intros H [c w l] s' r Hs. unfold call. simpl. destruct (refs c !! k); [|intros [= <- <-]; by apply (H false) in Hs].
  destruct (invoke A r0 q w) as [w' x] eqn:Eq. intros [= <- <-]. apply (H true) in Hs. simpl in Hs.
  destruct x; by eapply offline.
Qed.
Lemma keeps_on_dev_failed {A} h (m : CM A) : keeps I h → keeps I m → keeps I (on_dev_failed h m).
Proof. intros Hh Hm. apply keeps_catch; [done|]. intros e. destruct (dev_failed e); [apply keeps_bind; [done|intros _]|]; apply keeps_throw. Qed.
Lemma keeps_catch_sys {A} (m : CM A) h : keeps I m → (∀ e, keeps I (h e)) → keeps I (catch_sys m h).
Proof. intros Hm Hh. apply keeps_catch; [done|]. intros []; try apply keeps_throw. done. Qed.
Lemma keeps_catch_dev_failed {A} (m : CM A) h : keeps I m → (∀ e, keeps I (h e)) → keeps I (catch_dev_failed m h).
Proof. intros Hm Hh. apply keeps_catch; [done|]. intros e. destruct (dev_failed e); [done|]. apply keeps_throw. Qed.
Lemma keeps_two_attempts {A} h (m : CM A) : (∀ b e, keeps I (h b e)) → keeps I m → keeps I (two_attempts h m).
Proof.
  intros Hh Hm. apply keeps_catch; [done|]. intros e. apply keeps_bind; [done|]. intros _. apply keeps_catch; [done|].
  intros e'. apply keeps_bind; [done|]. intros _. apply keeps_undef.
Qed.
End Inv.
End Theory.

Section Stable.
Context {Ref Any Obj W : Type} `{orb : !Orb Ref Any Obj W} `{Sv : !Services W} `{M : !OmniMinors}.
Abbreviation St := (@Connection.St Ref Any W).
Abbreviation CM := (XM cexn (@Connection.St Ref Any W)).
Implicit Types s : St.

(** ** What a reconnection leaves *)

(** The remote calls, but those of a reconnection and of the pings. *)
Definition is_user (x : Sent Any) : bool :=
  match operation x with existT _ q => match q with Ping | Name | Info => false | _ => true end end.
Definition user_calls (l : list (Sent Any)) : list (Sent Any) := filter is_user l.
Record frame s s' : Prop := {
  fr_lock : lock_ctr (conn s') = lock_ctr (conn s);
  fr_reco : tr_reco (conn s') = tr_reco (conn s);
  fr_access : access (conn s') = access (conn s);
  fr_calls : user_calls (calls s') = user_calls (calls s) }.
Record stable (I : St → Prop) : Prop := {
  st_frame : ∀ s s', frame s s' → I s → I s';
  st_access : ∀ n, keeps I (a ← run (check_access_control n); upd (λ c, set_access a (check_acc c) c)) }.
Context (I : St → Prop) (HI : stable I).

Lemma stable_offline : Offline I.
Proof. intros c w w' l. by apply (st_frame _ HI). Qed.
Lemma stable_upd f : (∀ c, lock_ctr (f c) = lock_ctr c ∧ tr_reco (f c) = tr_reco c ∧ access (f c) = access c) → keeps I (upd f).
Proof. intros H. apply keeps_upd. intros s. apply (st_frame _ HI). destruct (H (conn s)) as (?&?&?). by split. Qed.
Lemma stable_call {A} k (q : IdlCall Any A) : (∀ b, is_user (mkSent k b (existT A q)) = false) → keeps I (call k q).
Proof.
  pose proof stable_offline. intros Hq. apply keeps_call; [done|]. intros b s. apply (st_frame _ HI). split; [done..|].
  unfold user_calls. cbn [calls]. rewrite filter_app, filter_cons_False, filter_nil, app_nil_r; [done|].
  intros Hf. rewrite (Hq b) in Hf. destruct Hf.
Qed.
End Stable.

(** The code is gone through; the updates and the remote calls are left. *)
Ltac go_keeps := repeat first
  [ progress intros
  | progress cbv zeta
  | match goal with
    | H : stable _ |- keeps _ (run (check_access_control _) ≫= _) => apply (st_access _ H)
    | |- keeps _ (mbind _ _) => apply keeps_bind
    | |- keeps _ (catch_sys _ _) => apply keeps_catch_sys
    | |- keeps _ (catch_dev_failed _ _) => apply keeps_catch_dev_failed
    | |- keeps _ (on_dev_failed _ _) => apply keeps_on_dev_failed
    | |- keeps _ (two_attempts _ _) => apply keeps_two_attempts
    | |- keeps _ (when_ _ _) => apply keeps_when
    | |- keeps _ (catch _ _) => apply keeps_catch
    | |- keeps _ (mret _) => apply keeps_ret
    | |- keeps _ (throw_exn _) => apply keeps_throw
    | |- keeps _ undef => apply keeps_undef
    | |- keeps _ self => apply keeps_self
    | |- keeps _ the_world => apply keeps_world
    | |- keeps _ (run _) => apply keeps_run; try exact _
    | |- keeps _ (run_orb _) => apply keeps_run_orb; try exact _
    | |- keeps _ (run_world _) => apply keeps_run_world; try exact _
    | |- keeps _ (match ?x with _ => _ end) => destruct x
    end
  | assumption ].

Ltac step := first [eapply stable_call; [eassumption|reflexivity] | eapply stable_upd; [eassumption|intros; repeat split; reflexivity]].

Section Frame.
Context {Ref Any Obj W : Type} `{orb : !Orb Ref Any Obj W} `{Sv : !Services W} `{M : !OmniMinors}.
Abbreviation St := (@Connection.St Ref Any W).
Abbreviation CM := (XM cexn (@Connection.St Ref Any W)).
Implicit Types s : St.
Context (I : St → Prop) (HI : stable I).
Lemma set_timeout_stable m ms : keeps I m → keeps I (set_timeout_by m ms).
Proof. pose proof (stable_offline I HI). intros Hm. unfold set_timeout_by. go_keeps; step. Qed.
Lemma narrow_stable k (obj : Obj) : keeps I (narrow_from k obj).
Proof. pose proof (stable_offline I HI). induction k as [|k IH]; simpl; go_keeps; try done; step. Qed.
Lemma connect_once_stable n b : keeps I (connect_once n b).
Proof.
  pose proof (stable_offline I HI). unfold connect_once. go_keeps; try apply narrow_stable; try step.
  apply set_timeout_stable. apply keeps_undef.
Qed.
Lemma connect_loop_stable k n b : keeps I (connect_loop k n b).
Proof.
  pose proof (stable_offline I HI). revert b. induction k as [|k IH]; intros b; cbn [connect_loop]; go_keeps; first [apply connect_once_stable|apply IH].
Qed.
Lemma get_corba_name_stable b : keeps I (get_corba_name b).
Proof. pose proof (stable_offline I HI). unfold get_corba_name. go_keeps; step. Qed.
Lemma reconnect_base_stable b : keeps I (reconnect_base b).
Proof.
  pose proof (stable_offline I HI). unfold reconnect_base. go_keeps; try step; try apply get_corba_name_stable; try apply connect_loop_stable.
Qed.
Lemma reconnect_stable b : keeps I (reconnect b).
Proof. pose proof (stable_offline I HI). unfold reconnect. go_keeps; try step. apply reconnect_base_stable. Qed.
Lemma reconnect_if_needed_stable : keeps I reconnect_if_needed.
Proof. unfold reconnect_if_needed. go_keeps. apply reconnect_stable. Qed.
Lemma ping_fails_stable : keeps I ping_fails.
Proof. pose proof (stable_offline I HI). unfold ping_fails. go_keeps; step. Qed.
End Frame.
