(* ===== verification/ConnProps.v ===== *)
(** * Properties of the requests of a proxy

  How often a command is sent, the exceptions that come out of a request, and the right to
  read only. *)
From S2P Require Import Prelude StateExn CppString PollRing Attribute AttrHistory Number WAttribute BlackBox DevState ReadCache ClientExn DeviceAttr Connection ProxyRequests ConnTheory.
Local Open Scope string_scope.
Local Open Scope list_scope.
Local Open Scope Z_scope.
#[local] Set Default Proof Using "Type*".

Section Commands.
Context {Ref Any Obj W : Type} `{orb : !Orb Ref Any Obj W} `{Sv : !Services W} `{M : !OmniMinors}.
Abbreviation St := (@Connection.St Ref Any W).
Abbreviation CM := (XM cexn (@Connection.St Ref Any W)).
Implicit Types s : St.

Lemma triple_call {A} k (q : IdlCall Any A) (P : St → Prop) (Q : A → St → Prop) (E : cexn → St → Prop) :
  (∀ b s w, P s → let s' := mkSt (conn s) w (calls s ++ [mkSent k b (existT A q)]) in (∀ a, Q a s') ∧ (∀ e, E e s')) →
  triple P (call k q) Q E.
Proof.
  intros Hc s s' r Hs. unfold call. destruct (refs (conn s) !! k); [|by intros [= <- <-]; apply (Hc false)].
  destruct (invoke A r0 q (world s)) as [w' x] eqn:Eq. intros [= <- <-]. destruct (Hc true s w' Hs). by destruct x.
Qed.

(** ** Commands *)

Definition is_command (x : Sent Any) : bool :=
  match operation x with existT _ q => match q with Command_inout _ _ | Command_inout_2 _ _ _ | Command_inout_4 _ _ _ _ => true | _ => false end end.
Definition commands (s : St) : list (Sent Any) := filter is_command (calls s).
(** The call executes this command with this argument. *)
Definition carries (command : string) (arg : Any) (x : Sent Any) : Prop :=
  match operation x with
  | existT _ q =>
      match q with
      | Command_inout c a => c = command ∧ a = arg
      | Command_inout_2 c a _ => c = command ∧ a = arg
      | Command_inout_4 c a _ _ => c = command ∧ a = arg
      | _ => False
      end
  end.
Lemma commands_frame s s' : frame s s' → commands s' = commands s.
Proof.
  intros H. assert (∀ l : list (Sent Any), filter is_command l = filter is_command (user_calls l)) as Hf.
  { intros l. unfold user_calls. rewrite list_filter_filter_l; [done|]. intros [k b [A q]]. by destruct q. }
  unfold commands. by rewrite Hf, (fr_calls _ _ H), <-Hf.
Qed.

Section Sent.
Context (command : string) (arg : Any) (l : list (Sent Any)) (k : Z) (b : bool).
(** At most [n] times since [l]. *)
Definition sent_up_to (n : nat) (s : St) : Prop :=
  ∃ new, commands s = l ++ new ∧ (length new ≤ n)%nat ∧ Forall (carries command arg) new.
Definition sent_unlocked (n : nat) (s : St) : Prop := sent_up_to n s ∧ lock_ctr (conn s) = k ∧ tr_reco (conn s) = b.
Lemma sent_stable n : stable (sent_unlocked n).
Proof.
  split.
  - intros s s' H [(new & Hc & Hn) [Hk Hb]]. split; [|by rewrite (fr_lock _ _ H), (fr_reco _ _ H)].
    exists new. by rewrite (commands_frame _ _ H).
  - intros nm. pose proof (λ c w w' x, @id (sent_unlocked n (mkSt c w x) → sent_unlocked n (mkSt c w' x)) id) as Ho.
    apply keeps_bind; [by apply keeps_run|]. intros a. by apply keeps_upd.
Qed.
Lemma sent_more n n' s : (n ≤ n')%nat → sent_up_to n s → sent_up_to n' s.
Proof. intros Hn (new & ?&?&?). exists new. split_and!; [done|lia|done]. Qed.
Lemma check_command_stable I : stable I → keeps I (check_command command).
Proof. intros HI. pose proof (stable_offline I HI). unfold check_command, read_only_ping. go_keeps; step. Qed.

Lemma send_command_sent n src : 
  triple (sent_unlocked n) (send_command command arg src) (λ _, sent_unlocked (S n)) (λ _, sent_unlocked (S n)).
Proof.
  pose proof (sent_stable n) as HI. pose proof (stable_offline _ HI) as Ho.
  assert (∀ A (i : Z) (q : IdlCall Any A), (∀ b, carries command arg (mkSent i b (existT A q))) → (∀ b, is_command (mkSent i b (existT A q)) = true) →
          triple (sent_unlocked n) (call i q) (λ _, sent_unlocked (S n)) (λ _, sent_unlocked (S n))) as Hcall.
  { intros A i q Hq Hic. apply triple_call.
    intros b0 s w [(new & Hc & Hn & Hf) Hk]. simpl.
    assert (sent_unlocked (S n) (mkSt (conn s) w (calls s ++ [mkSent i b0 (existT A q)]))) as Hs; [|by split].
    split; [|done]. exists (new ++ [mkSent i b0 (existT A q)]). split_and!.
    - unfold commands in *. simpl. rewrite filter_app, Hc, filter_cons_True, filter_nil; [by rewrite app_assoc|]. unfold Is_true. by rewrite (Hic b0).
    - rewrite length_app. simpl. lia.
    - apply Forall_app. split; [done|]. by constructor. }
  unfold send_command, get_client_identification.
  apply triple_bind_self. intros c.
  apply (triple_pre _ (sent_unlocked n)); [|by intros s [? _]].
  destruct (4 <=? version c); [|destruct (2 <=? version c); by apply Hcall].
  eapply triple_bind with (R := λ _, sent_unlocked n); [|intros; by apply Hcall].
  apply (triple_keeps (sent_unlocked n)); [go_keeps|done|done|].
  intros _ s [Hs Hk]. split; [|done]. eapply sent_more; [|done]. lia.
Qed.
Lemma command_attempt_sent n :
  triple (sent_unlocked n) (command_attempt command arg) (λ _, sent_unlocked (S n)) (λ _, sent_unlocked (S n)).
Proof.
  pose proof (sent_stable n) as HI.
  assert (∀ (_ : cexn) s, sent_unlocked n s → sent_unlocked (S n) s) as Hup.
  { intros _ s [Hs Hk]. split; [|done]. eapply sent_more; [|done]. lia. }
  unfold command_attempt, check_and_reconnect_sou_act.
  eapply (triple_bind _ _ (λ _, sent_unlocked n)).
  { apply (triple_keeps (sent_unlocked n)); [|done..]. go_keeps. by apply reconnect_if_needed_stable. }
  intros [src act]. eapply (triple_bind _ _ (λ _, sent_unlocked n)); [|intros; apply send_command_sent].
  apply (triple_keeps (sent_unlocked n)); [|done..]. go_keeps. by apply check_command_stable.
Qed.
(** The handler goes on only when no lock is lost, and after the first attempt only. *)
Lemma transient_cmd_sent n last e :
  triple (sent_unlocked n) (transient_not_exist_cmd command last e)
    (λ _ s, sent_unlocked n s ∧ k = 0 ∧ b = true ∧ last = false) (λ _, sent_up_to n).
Proof.
  pose proof (sent_stable n) as HI. unfold transient_not_exist_cmd.
  eapply (triple_bind _ _ (λ _, sent_unlocked n)).
  { apply (triple_keeps (sent_unlocked n)); [|done|done|by intros ? ? []]. go_keeps. by apply ping_fails_stable. }
  intros _. eapply (triple_bind _ _ (λ _, sent_unlocked n)).
  { apply (triple_keeps (sent_unlocked n)); [step|done|done|by intros ? ? []]. }
  intros _. apply triple_bind_self. intros c.
  destruct (lock_ctr c =? 0) eqn:Hl; simpl.
  - apply Z.eqb_eq in Hl. eapply (triple_bind _ _ (λ _ s, sent_unlocked n s ∧ conn s = c)); [by apply triple_ret|].
    intros _. destruct (tr_reco c) eqn:Ht, last; simpl;
      [apply triple_throw; by intros s [[] _]| |apply triple_throw; by intros s [[] _]..].
    apply triple_ret. intros s [[Hs [Hk Hb]] <-]. split_and!; try done; congruence.
  - apply (triple_bind _ _ (λ _ _, False)); [|intros; by intros ? ? ? []].
    apply (triple_bind _ _ (λ _ s, sent_up_to n s)); [|intros; by apply triple_throw].
    by apply triple_upd; intros s [[Hs _] _].
Qed.
Lemma command_failed_sent n last e :
  triple (sent_unlocked n) (command_failed command last e)
    (λ _ s, sent_unlocked n s ∧ k = 0 ∧ b = true ∧ last = false) (λ _, sent_up_to n).
Proof.
  pose proof (sent_stable n) as HI.
  assert (∀ e', triple (sent_unlocked n) (throw_exn (A := unit) e')
    (λ _ s, sent_unlocked n s ∧ k = 0 ∧ b = true ∧ last = false) (λ _, sent_up_to n)) as Hthrow.
  { intros e'. apply triple_throw. by intros s []. }
  unfold command_failed. apply triple_bind_self. intros c.
  apply (triple_pre _ (sent_unlocked n)); [|by intros s [? _]].
  assert (∀ errs rs d o, triple (sent_unlocked n) (failed_or_unlocked (A := unit) errs rs d o)
    (λ _ s, sent_unlocked n s ∧ k = 0 ∧ b = true ∧ last = false) (λ _, sent_up_to n)) as Hf.
  { intros [|e0 errs] rs d o; simpl; [apply triple_undef|]. case_bool_decide; apply Hthrow. }
  destruct e as [[] errs|errs' errs|errs|e|nm]; try apply Hthrow; try apply Hf.
  simpl. unfold on_corba.
  assert (∀ er, triple (sent_unlocked n) (set_connection_state (Ref := Ref) (Any := Any) (W := W) false;; c0 ← self; throw_exn (A := unit) (er c0))
    (λ _ s, sent_unlocked n s ∧ k = 0 ∧ b = true ∧ last = false) (λ _, sent_up_to n)) as Hlost.
  { intros er. eapply (triple_bind _ _ (λ _, sent_unlocked n)).
    { apply (triple_keeps (sent_unlocked n)); [step|done|done|by intros ? ? []]. }
    intros _. apply triple_bind_self. intros c0. apply (triple_pre _ (sent_unlocked n)); [apply Hthrow|by intros s [? _]]. }
  destruct (sys_class e); repeat case_match; first [apply transient_cmd_sent | apply Hlost].
Qed.
End Sent.

(** C7: how often a command is executed.  Whatever the network does, [command_inout] sends the
    command with its argument at most twice, and at most once when the client holds a lock on
    the device or when the transparent reconnection is off. *)
Theorem command_sent_at_most command arg s s' r :
  command_inout command arg s = Some (s', r) →
  ∃ new, commands s' = commands s ++ new ∧ Forall (carries command arg) new ∧
    (length new ≤ if (lock_ctr (conn s) =? 0)%Z && tr_reco (conn s) then 2 else 1)%nat.
Proof.
  set (N := (if (lock_ctr (conn s) =? 0)%Z && tr_reco (conn s) then 2 else 1)%nat).
  set (P := sent_unlocked command arg (commands s) (lock_ctr (conn s)) (tr_reco (conn s))).
  assert (1 ≤ N)%nat as HN by (subst N; destruct (_ && _); lia).
  assert (triple (P 0%nat) (command_inout command arg) (λ _, sent_up_to command arg (commands s) N) (λ _, sent_up_to command arg (commands s) N)) as Ht.
  { unfold command_inout, two_attempts.
    eapply triple_catch with (E' := λ _, P 1%nat).
    - eapply triple_conseq; [apply command_attempt_sent|done|..|done]. intros ? s0 [Hs _]. by eapply sent_more.
    - intros e. eapply triple_bind.
      + eapply triple_conseq; [apply command_failed_sent|done|done|]. intros ? s0 Hs. by eapply sent_more.
      + intros []. eapply triple_catch with (E' := λ _ s0, P 2%nat s0 ∧ N = 2%nat).
        * intros s0 s1 r0 (Hs & Hk & Hb & _). assert (N = 2%nat) as -> by (subst N; by rewrite Hk, Hb).
          intros Hr. pose proof (command_attempt_sent command arg _ _ _ 1 _ _ _ Hs Hr) as H. destruct r0; [by split|by destruct H].
        * intros e'. apply (triple_bind _ _ (λ _ _, False)); [|intros; by intros ? ? ? []].
          intros s0 s1 r0 [Hs ->] Hr. pose proof (command_failed_sent command arg _ _ _ 2 true e' _ _ _ Hs Hr) as H.
          destruct r0; [done|]. by destruct H as (_&_&_&?). }
  intros Hr. assert (P 0%nat s) as Hs.
  { split; [|done]. exists []. by rewrite app_nil_r. }
  specialize (Ht _ _ _ Hs Hr). assert (sent_up_to command arg (commands s) N s') as (new & ?&?&?) by (by destruct r).
  by exists new.
Qed.

Lemma check_connected s : connection_ok (conn s) = true → reconnect_if_needed s = Some (s, inr tt).
Proof. intros H. unfold reconnect_if_needed. rewrite run_self. by rewrite H. Qed.
Lemma attempt_connected command arg s s' :
  reconnect_if_needed s = Some (s', inr tt) → access (conn s') = ACCESS_WRITE →
  command_attempt command arg s = send_command command arg (source (conn s)) s'.
Proof.
  intros H Ha. unfold command_attempt, check_and_reconnect_sou_act. unfold mbind, SM_bind. simpl. rewrite H. simpl. by rewrite Ha.
Qed.

(** A server that has been started again: with a transparent reconnection and no lock, a
    command whose connection is lost is sent again to the device that is found. *)
Theorem command_sent_again command arg s e s1 s2 s3 a :
  connection_ok (conn s) = true → access (conn s) = ACCESS_WRITE → tr_reco (conn s) = true → lock_ctr (conn s) = 0 →
  send_command command arg (source (conn s)) s = Some (s1, inl (Sys e)) → conn s1 = conn s →
  sys_class e = TRANSIENT → minor e ≠ TRANSIENT_CallTimedout →
  reconnect (dbase_used (conn s)) (mkSt (set_ok false (conn s1)) (world s1) (calls s1)) = Some (s2, inr tt) →
  access (conn s2) = ACCESS_WRITE → send_command command arg (source (conn s)) s2 = Some (s3, inr a) →
  command_inout command arg s = Some (s3, inr a).
Proof.
  intros Hok Ha Ht Hl Hsend Hc1 He Hm Hrec Ha2 Hagain. destruct s1 as [c1 w1 l1]. simpl in *. subst c1.
  unfold command_inout, two_attempts. unfold catch at 1. rewrite (attempt_connected _ _ _ _ (check_connected _ Hok)), Hsend; [|done].
  assert (command_failed command false (Sys e) (mkSt (conn s) w1 l1) = Some (mkSt (set_ok false (conn s)) w1 l1, inr tt)) as Hh.
  { unfold command_failed, on_corba, transient_not_exist_cmd. cbn. rewrite He. cbn.
    rewrite (proj2 (Z.eqb_neq _ _) Hm). unfold mbind, SM_bind. simpl. rewrite Hl. simpl. by rewrite Ht. }
  unfold mbind, SM_bind. rewrite Hh. unfold catch.
  rewrite (attempt_connected _ _ _ s2).
  - simpl. by rewrite Hagain.
  - unfold reconnect_if_needed. by rewrite run_self.
  - done.
Qed.
End Commands.
