(* ===== verification/ConnState.v ===== *)
(** * The connection of a proxy, and the exceptions of its requests

  After a check of the connection the references of all the interfaces up to the version of
  the device are there, and every request keeps it so; no CORBA exception comes out of a
  request; a request that comes too soon after a failure does nothing; and without the right
  to write nothing is written. *)
From S2P Require Import Prelude StateExn CppString PollRing Attribute AttrHistory Number WAttribute BlackBox DevState ReadCache ClientExn DeviceAttr Connection ProxyRequests ConnTheory ConnProps.
Local Open Scope string_scope.
Local Open Scope list_scope.
Local Open Scope Z_scope.
#[local] Set Default Proof Using "Type*".

Section ConnState.
Context {Ref Any Obj W : Type} `{orb : !Orb Ref Any Obj W} `{Sv : !Services W} `{M : !OmniMinors}.
Abbreviation St := (@Connection.St Ref Any W).
Abbreviation CM := (XM cexn (@Connection.St Ref Any W)).
Implicit Types s : St.

(** ** The references *)

Definition supported (c : Conn Ref) : Prop := 1 ≤ version c ≤ 6 ∧ ∀ k, 1 ≤ k ≤ version c → is_Some (refs c !! k).
(** No remote call was made through a nil reference. *)
Definition alive s : Prop := Forall live (calls s).
Definition lost s : Prop := connection_ok (conn s) = false ∧ alive s.
Definition connected s : Prop := connection_ok (conn s) = true ∧ supported (conn s) ∧ alive s.
Definition well_connected s : Prop := (connection_ok (conn s) = true → supported (conn s)) ∧ alive s.
Definition not_sys (e : cexn) : Prop := match e with Sys _ => False | _ => True end.
(** The state an exception leaves: one of CORBA comes from a call. *)
Definition reached s : Prop := well_connected s ∧ is_Some (refs (conn s) !! 1).
Definition after (e : cexn) s : Prop := well_connected s ∧ (not_sys e ∨ is_Some (refs (conn s) !! 1)).

#[global] Instance well_connected_offline : Offline well_connected.
Proof. by intros c w w' l. Qed.
#[global] Instance lost_offline : Offline lost.
Proof. by intros c w w' l. Qed.
#[global] Instance connected_offline : Offline connected.
Proof. by intros c w w' l. Qed.
Lemma lost_well s : lost s → well_connected s.
Proof. intros [H Ha]. split; [congruence|done]. Qed.
Lemma connected_well s : connected s → well_connected s.
Proof. by intros (_&?&?). Qed.
Lemma connected_reached s : connected s → reached s.
Proof. intros H. split; [by apply connected_well|]. destruct H as (_ & [Hv H] & _). apply H. lia. Qed.
Lemma reached_after e s : reached s → after e s.
Proof. intros [? ?]. split; [done|by right]. Qed.
Lemma connected_after e s : connected s → after e s.
Proof. intros H. by apply reached_after, connected_reached. Qed.

Lemma narrow_lost k (obj : Obj) : triple lost (narrow_from k obj)
  (λ r s, lost s ∧ ∀ i, r = Some i → 1 ≤ i ≤ Z.of_nat k ∧ is_Some (refs (conn s) !! i)) (λ _, lost).
Proof.
  induction k as [|k IH]; cbn [narrow_from].
  { apply triple_ret. by intros. }
  eapply triple_bind; [by apply keeps_run_orb; exact _|]. intros [r|].
  - eapply (triple_bind _ _ (λ _ s, lost s ∧ is_Some (refs (conn s) !! Z.of_nat (S k)))).
    + apply triple_upd. intros s Hs. split; [done|]. simpl. rewrite lookup_insert_eq. by eexists.
    + intros _. apply triple_ret. intros s [Hs Hr]. split; [done|]. intros i [= <-]. split; [lia|done].
  - eapply triple_bind; [by apply keeps_upd|]. intros []. eapply triple_conseq; [apply IH|done| |done].
    intros x s [Hs Hi]. split; [done|]. intros i ->. destruct (Hi i eq_refl). split; [lia|done].
Qed.
Lemma duplicate_lookup k (r : Ref) m i : 1 ≤ i ≤ Z.of_nat k ∨ is_Some (m !! i) → is_Some (duplicate_below k r m !! i).
Proof.
  revert m. induction k as [|k IH]; intros m Hi; simpl.
  - destruct Hi; [lia|done].
  - apply IH. destruct (decide (i = Z.of_nat (S k))) as [->|Hne].
    + right. rewrite lookup_insert_eq. by eexists.
    + rewrite lookup_insert_ne by done. destruct Hi; [left; lia|by right].
Qed.

Lemma set_timeout_connected ms : triple connected (set_timeout_by undef ms) (λ _, connected) (λ _ _, False).
Proof.
  intros s s' r (Hok & [Hv Href] & Ha) Hr. destruct (Href 1 ltac:(lia)) as [x Hx].
  unfold set_timeout_by, catch_dev_failed, catch, mbind, SM_bind in Hr. simpl in Hr. rewrite Hok in Hr. simpl in Hr. rewrite Hx in Hr.
  injection Hr as <- <-. by split_and!.
Qed.
Lemma connect_once_connects n b : triple lost (connect_once n b) (λ _, connected) (λ _, lost).
Proof.
  unfold connect_once.
  eapply triple_bind; [by apply keeps_run_orb; exact _|]. intros obj.
  eapply triple_bind; [apply keeps_self|]. intros c.
  eapply (triple_bind _ _ (λ _, lost)); [by apply keeps_when, keeps_run_world; exact _|]. intros _.
  eapply triple_bind; [apply narrow_lost|]. intros found. cbv beta.
  eapply (triple_bind _ _ (λ _ s, lost s ∧ supported (conn s))).
  { destruct found as [i|].
    - apply triple_bind_self. intros c0. destruct (refs c0 !! i) as [x|] eqn:Hx; [|apply triple_undef].
      eapply (triple_bind _ _ (λ _ s, lost s ∧ conn s = c0 ∧ 1 ≤ i ≤ 6)).
      + intros s s' r [[Hs Hi] <-]. unfold run_orb. destruct (non_existent x (world s)) as [w y].
        intros [= <- <-]. destruct (Hi i eq_refl). destruct y; simpl; [done|]. split_and!; try done; lia.
      + intros _. apply triple_upd. intros s (Hs & <- & Hi). split; [done|]. split; [simpl; lia|]. intros k Hk. simpl in *.
        apply duplicate_lookup. destruct (decide (k = i)) as [->|]; [right; by eexists|left; lia].
    - eapply (triple_bind _ _ (λ _, lost)).
      + apply triple_upd. by intros s [[_ Ha] _].
      + intros _. apply triple_bind_self. intros c0. apply triple_throw. by intros s [? _]. }
  intros _. eapply (triple_bind _ _ (λ _ s, lost s ∧ supported (conn s))).
  { apply (triple_keeps (λ s, lost s ∧ supported (conn s))); [|done|done|by intros ? ? []].
    assert (Offline (λ s, lost s ∧ supported (conn s))) by (by intros ????). go_keeps; by apply keeps_upd. }
  intros _. eapply (triple_bind _ _ (λ _, connected)).
  { apply triple_upd. by intros s [[_ Ha] Hs]. }
  intros _. apply triple_bind_self. intros c0. apply (triple_pre _ connected); [|by intros s [? _]].
  destruct (negb _); [|by apply triple_ret].
  eapply triple_conseq; [apply set_timeout_connected|done|done|by intros].
Qed.
Lemma connect_loop_connects k n b : triple lost (connect_loop k n b) (λ _, connected) (λ e s, lost s ∧ not_sys e).
Proof.
  revert b. induction k as [|k IH]; intros b; cbn [connect_loop];
    (eapply triple_catch; [apply connect_once_connects|]); intros [| | |ce|]; try (by apply triple_throw);
    apply triple_bind_self; intros c; apply (triple_pre _ lost); try (by intros s [? _]);
    destruct (connect_failure n ce c) as [[rs ds] db]; destruct db; try (by apply triple_throw).
  destruct k; [by apply triple_throw|]. apply IH.
Qed.
Lemma run_lost {A} (f : W → W * (ServiceError + A)) : triple lost (run f) (λ _, lost) (λ e s, lost s ∧ not_sys e).
Proof. intros s s' r Hs. unfold run. destruct (f (world s)) as [w [[]|]]; by intros [= <- <-]. Qed.
Lemma get_corba_name_lost b : triple lost (get_corba_name b) (λ _, lost) (λ e s, lost s ∧ not_sys e).
Proof.
  unfold get_corba_name. apply triple_bind_self. intros c. apply (triple_pre _ lost); [|by intros s [? _]].
  eapply triple_bind; [apply run_lost|]. intros li.
  eapply (triple_bind _ _ (λ _, lost)).
  - case_bool_decide; [|by apply triple_ret]. eapply triple_bind; [apply run_lost|]. intros ii.
    eapply (triple_bind _ _ (λ _, lost)); [|intros _; by apply triple_ret].
    destruct (negb _); simpl; [|by apply triple_ret].
    eapply (triple_bind _ _ (λ _, lost)); [by apply triple_upd; intros s []|]. intros _.
    apply triple_bind_self. intros c1. apply triple_throw. by intros s [? _].
  - intros ior. eapply (triple_bind _ _ (λ _, lost)); [|intros _; by apply triple_ret].
    destruct b; [|by apply triple_upd; intros s []].
    eapply triple_bind; [apply run_lost|]. intros a. by apply triple_upd; intros s [].
Qed.
Lemma well_upd f : (∀ c, connection_ok (f c) = connection_ok c ∧ version (f c) = version c ∧ refs (f c) = refs c) → keeps well_connected (upd f) ∧ keeps connected (upd f).
Proof.
  intros H. unfold well_connected, connected, supported. split; apply keeps_upd; intros s; simpl; destruct (H (conn s)) as (->&->&->); done.
Qed.
Ltac same := solve [apply well_upd; intros; repeat split; reflexivity].
Lemma well_lost_state P : (∀ s, P s → alive s) → triple P (set_connection_state false) (λ _, lost) (λ _ _, False).
Proof. intros H. apply triple_upd. intros s Hs. by apply H in Hs. Qed.
(** A call through an interface the device has. *)
Lemma call_alive {A} k (q : IdlCall Any A) (P : St → Prop) : (∀ s, P s → connected s ∧ 1 ≤ k ≤ version (conn s)) → triple P (call k q) (λ _, connected) (λ _, connected).
Proof.
  intros H s s' r Hs. destruct (H s Hs) as [(Hok & Hsup & Ha) Hk]. destruct (proj2 Hsup k Hk) as [x Hx].
  unfold call. rewrite Hx. destruct (invoke A x q (world s)) as [w y]. intros [= <- <-].
  assert (connected (mkSt (conn s) w (calls s ++ [mkSent k true (existT A q)]))).
  { split_and!; [done..|]. apply Forall_app. split; [done|]. by constructor. }
  by destruct y.
Qed.
Lemma call_first {A} (q : IdlCall Any A) : keeps connected (call 1 q).
Proof. apply call_alive. intros s Hs. pose proof Hs as (_ & [Hv _] & _). split; [done|lia]. Qed.
Lemma reconnect_base_connects b : triple well_connected (reconnect_base b) (λ _, connected) after.
Proof.
  unfold reconnect_base. eapply (triple_bind _ _ (λ _, well_connected)); [by intros s s' r ? [= <- <-]|]. intros w. cbv zeta.
  apply triple_bind_self. intros c.
  eapply (triple_bind _ _ (λ _ s, well_connected s ∧ conn s = c)).
  { destruct (negb _); [|by apply triple_ret]. destruct (prev_failed_t0 c); [|by apply triple_ret].
    destruct (_ <? _); [|by apply triple_ret]. apply triple_throw. intros s [? _]. split; [done|by left]. }
  intros _. apply triple_catch with (E' := after).
  2:{ intros e. destruct (dev_failed e) eqn:He; [|by apply triple_throw].
      assert (not_sys e) by (by destruct e).
      eapply (triple_bind _ _ (λ _, well_connected)); [by apply triple_upd; intros s [? _]|].
      intros _. apply triple_throw. intros s Hs. split; [done|by left]. }
  eapply (triple_bind _ _ (λ _, connected)).
  - destruct (connection_ok c) eqn:Hok.
    + apply triple_ret. intros s [[Hs Ha] <-]. split_and!; [done| |done]. by apply Hs.
    + apply (triple_pre _ lost); [|by intros s [[_ ?] <-]].
      apply (triple_conseq _ lost _ _ (λ _, connected) _ (λ e s, lost s ∧ not_sys e)); [|done|done|].
      2:{ intros e s [? ?]. split; [by apply lost_well|by left]. }
      eapply (triple_bind _ _ (λ _, lost)).
      { destruct b; [|by apply triple_ret]. eapply triple_bind; [apply get_corba_name_lost|]. intros n.
        apply triple_bind_self. intros c1. apply (triple_pre _ lost); [|by intros s [? _]].
        eapply (triple_bind _ _ (λ _, lost)); [|intros _; by apply triple_ret].
        destruct (negb _); [apply run_lost|by apply triple_ret]. }
      intros n. eapply (triple_bind _ _ (λ _, connected)); [|intros _; by apply triple_ret]. apply connect_loop_connects.
  - intros n. apply triple_bind_self. intros c1. destruct (connection_ok c1) eqn:Hok1; simpl.
    2:{ apply triple_ret. by intros s [? _]. }
    apply (triple_pre _ connected); [|by intros s [? _]].
    eapply triple_catch with (E' := λ _, connected).
    + apply (triple_keeps connected); [|done..]. go_keeps; [apply call_first|same..].
    + intros [| | |ce|]; try (apply triple_throw; intros; by apply connected_after).
      eapply (triple_bind _ _ (λ _, lost)).
      * eapply triple_conseq; [by apply (well_lost_state connected); intros s (_&_&?)|done..].
      * intros _. apply triple_bind_self. intros c2. apply triple_throw. intros s [? _]. split; [by apply lost_well|by left].
Qed.
Lemma reconnect_if_needed_connects : triple well_connected reconnect_if_needed (λ _, connected) after.
Proof.
  unfold reconnect_if_needed. apply triple_bind_self. intros c. destruct (connection_ok c) eqn:Hok; simpl.
  - apply triple_ret. intros s [[Hs ?] <-]. split_and!; [done|by apply Hs|done].
  - apply (triple_pre _ well_connected); [|by intros s [? _]].
    unfold reconnect. eapply triple_bind; [apply reconnect_base_connects|]. intros [].
    apply (triple_keeps connected); [|done|done|intros ?; apply connected_after].
    go_keeps; [apply call_first|same].
Qed.

(** ** Requests *)

#[global] Instance reached_offline : Offline reached.
Proof. by intros c w w' l. Qed.
Lemma ping_reached : triple reached ping_fails (λ _, reached) (λ _ _, False).
Proof.
  unfold ping_fails. apply triple_bind_self. intros c. apply (triple_pre _ reached); [|by intros s [? _]].
  apply (triple_catch _ _ _ _ _ (λ _, reached)); [|intros e; by apply triple_ret].
  eapply (triple_bind _ _ (λ _, reached)); [|intros; by apply triple_ret].
  intros s s' r [[Hw Ha] [x Hx]]. unfold call. rewrite Hx. destruct (invoke _ x Ping (world s)) as [w y]. intros [= <- <-].
  assert (reached (mkSt (conn s) w (calls s ++ [mkSent 1 true (existT _ Ping)]))); [|by destruct y].
  split; [|by eexists]. split; [done|]. apply Forall_app. split; [done|]. by constructor.
Qed.
Lemma lose_reached : triple reached (set_connection_state false) (λ _, well_connected) (λ _ _, False).
Proof. apply triple_upd. by intros s [[? ?] ?]. Qed.
Lemma well_throw (P : St → Prop) (Q : unit → St → Prop) (er : Conn Ref → cexn) :
  (∀ s, P s → well_connected s) → triple P (c ← self; throw_exn (er c)) Q (λ _, well_connected).
Proof. intros H. apply triple_bind_self. intros c. apply triple_throw. intros s [? _]. by apply H. Qed.
Lemma well_when_throw b (er : Conn Ref → cexn) c :
  triple (λ s, well_connected s ∧ conn s = c) (when_ b (throw_exn (er c))) (λ _, well_connected) (λ _, well_connected).
Proof. destruct b; [apply triple_throw|apply triple_ret]; by intros s [? _]. Qed.
Lemma transient_alive a n l e : triple reached (transient_not_exist a n l e) (λ _, well_connected) (λ _, well_connected).
Proof.
  unfold transient_not_exist. eapply (triple_bind _ _ (λ _, reached)).
  - destruct (_ =? _); [|by apply triple_ret].
    eapply (triple_bind _ _ (λ _, reached)); [by eapply (triple_keeps reached); [apply keeps_run_world; exact _|..|intros ? ? []]|]. intros _.
    eapply (triple_bind _ _ (λ _, reached)); [by eapply triple_conseq; [apply ping_reached|..]|]. intros b.
    eapply (triple_bind _ _ (λ _, reached)); [by eapply (triple_keeps reached); [apply keeps_run_world; exact _|..|intros ? ? []]|]. intros _.
    destruct b; simpl; [by apply triple_ret|]. apply well_throw. by intros s [].
  - intros _. eapply (triple_bind _ _ (λ _, well_connected)); [by eapply triple_conseq; [apply lose_reached|..]|]. intros _.
    apply triple_bind_self. intros c. apply (well_when_throw _ (λ c, _)).
Qed.
Lemma transient_cmd_alive n l e : triple reached (transient_not_exist_cmd n l e) (λ _, well_connected) (λ _, well_connected).
Proof.
  unfold transient_not_exist_cmd. eapply (triple_bind _ _ (λ _, reached)).
  - destruct (_ =? _); [|by apply triple_ret].
    eapply (triple_bind _ _ (λ _, reached)); [by eapply triple_conseq; [apply ping_reached|..]|]. intros b.
    destruct b; simpl; [by apply triple_ret|]. apply well_throw. by intros s [].
  - intros _. eapply (triple_bind _ _ (λ _, well_connected)); [by eapply triple_conseq; [apply lose_reached|..]|]. intros _.
    apply triple_bind_self. intros c. eapply (triple_bind _ _ (λ _ s, well_connected s ∧ conn s = c)).
    + destruct (negb _); [|by apply triple_ret]. eapply (triple_bind _ _ (λ _, well_connected)); [by apply triple_upd; intros s [[? ?] ?]|].
      intros _. by apply triple_throw.
    + intros _. apply (well_when_throw _ (λ c, _)).
Qed.
Lemma on_corba_alive trans failed o l e : (∀ k b x, triple reached (trans k b x) (λ _, well_connected) (λ _, well_connected)) →
  triple (after e) (on_corba trans failed o l e) (λ _, well_connected) (λ _, well_connected).
Proof.
  intros Ht. unfold on_corba. destruct e as [| | |x|]; try (apply triple_throw; by intros s []).
  apply (triple_pre _ reached); [|by intros s [? [[]|?]]]. cbv zeta.
  assert (∀ t, triple reached (set_connection_state false;; c ← self; throw_exn (comm_error x "API_CommunicationFailed" (t c) o)) (λ _ : unit, well_connected) (λ _, well_connected)) as Hl.
  { intros t. eapply (triple_bind _ _ (λ _, well_connected)); [by eapply triple_conseq; [apply lose_reached|..]|]. intros _. by apply (well_throw _ _ (λ c, _)). }
  destruct (sys_class x); repeat case_match; first [apply Ht|apply Hl].
Qed.
Lemma after_well e s : after e s → well_connected s.
Proof. by intros []. Qed.
Lemma failed_alive e l rs d o : triple (after e) (failed_or_unlocked (A := unit) l rs d o) (λ _, well_connected) (λ _, well_connected).
Proof. destruct l; simpl; [apply triple_undef|]. case_bool_decide; apply triple_throw; apply after_well. Qed.
Ltac handler := apply triple_bind_self; intros c; eapply triple_pre with (P' := after _); [|by intros s [? _]].
Lemma command_failed_alive n l e : triple (after e) (command_failed n l e) (λ _, well_connected) (λ _, well_connected).
Proof.
  unfold command_failed. handler.
  destruct e as [[]| | | |]; try (apply triple_throw; apply after_well); try apply failed_alive; apply on_corba_alive; intros; apply transient_cmd_alive.
Qed.
Lemma proxy_failed_alive n f l e : triple (after e) (proxy_failed n f l e) (λ _, well_connected) (λ _, well_connected).
Proof. apply on_corba_alive. intros. apply transient_alive. Qed.
Lemma read_failed_alive n f g l e : triple (after e) (read_failed n f g l e) (λ _, well_connected) (λ _, well_connected).
Proof.
  unfold read_failed. handler.
  destruct e as [[]| | | |]; try (apply triple_throw; apply after_well); apply on_corba_alive; intros; apply transient_alive.
Qed.
Lemma write_failed_alive mu t f o l e : (∀ x, triple well_connected (mu x) (λ _, well_connected) (λ _, well_connected)) →
  triple (after e) (write_failed mu t f o l e) (λ _, well_connected) (λ _, well_connected).
Proof.
  intros Hm. unfold write_failed. handler.
  destruct e; try apply failed_alive; try (apply on_corba_alive; intros; apply transient_alive).
  eapply triple_pre; [apply Hm|apply after_well].
Qed.
(** What the handlers, and what the requests do besides the connection. *)
Record handled (I : St → Prop) : Prop := {
  h_offline : Offline I;
  h_not_ok : keeps I (set_connection_state false);
  h_unlocked : keeps I (upd (set_lock_ctr 0));
  h_ping : keeps I (call 1 Ping) }.
(** The code that neither calls nor changes a member. *)
Section Plain.
Context (I : St → Prop).
Lemma lift_handled {A} (x : outcome A) : keeps I (lift_outcome x).
Proof. intros s s' r Hs. destruct x as [a|[]|]; simpl; intros Hr; simplify_eq; done. Qed.
Lemma convert_handled m d : keeps I (convert m d).
Proof. intros s s' r Hs. unfold convert. destruct (m d) as [[? []]|]; intros Hr; simplify_eq; done. Qed.
Lemma convert_new_handled w b v d : keeps I (convert_new w b v d).
Proof. unfold convert_new, add_read_error. go_keeps; apply convert_handled. Qed.
Lemma convert_old_handled w b v d : keeps I (convert_old w b v d).
Proof. unfold convert_old, add_read_error. go_keeps; apply convert_handled. Qed.
Lemma mapM_keeps {A B} (f : A → CM B) l : (∀ a, keeps I (f a)) → keeps I (mapM f l).
Proof. intros Hf. induction l as [|a l IH]; simpl; go_keeps; first [apply Hf|apply IH]. Qed.
End Plain.

Section Handled.
Context (I : St → Prop) (HI : handled I).
Ltac go := pose proof (h_offline _ HI); go_keeps; first [apply (h_not_ok _ HI) | apply (h_unlocked _ HI) | apply (h_ping _ HI)].
Lemma ping_fails_handled : keeps I ping_fails.
Proof. unfold ping_fails. go. Qed.
Lemma transient_handled a n l e : keeps I (transient_not_exist a n l e).
Proof. unfold transient_not_exist. pose proof (h_offline _ HI). go_keeps; first [apply ping_fails_handled|go]. Qed.
Lemma transient_cmd_handled n l e : keeps I (transient_not_exist_cmd n l e).
Proof. unfold transient_not_exist_cmd. pose proof (h_offline _ HI). go_keeps; first [apply ping_fails_handled|go]. Qed.
Lemma on_corba_handled trans failed o l e : (∀ k b x, keeps I (trans k b x)) → keeps I (on_corba trans failed o l e).
Proof. intros Ht. unfold on_corba. pose proof (h_offline _ HI). go_keeps; first [apply Ht|go]. Qed.
Lemma failed_handled l rs d o : keeps I (failed_or_unlocked (A := unit) l rs d o).
Proof. unfold failed_or_unlocked. go_keeps. Qed.
Lemma command_failed_handled n l e : keeps I (command_failed n l e).
Proof.
  unfold command_failed. go_keeps; first [apply failed_handled|apply on_corba_handled; intros; apply transient_cmd_handled].
Qed.
Lemma proxy_failed_handled n f l e : keeps I (proxy_failed n f l e).
Proof. apply on_corba_handled. intros. apply transient_handled. Qed.
Lemma read_failed_handled n f g l e : keeps I (read_failed n f g l e).
Proof. unfold read_failed. go_keeps; apply on_corba_handled; intros; apply transient_handled. Qed.
Lemma write_failed_handled mu t f o l e : (∀ x, keeps I (mu x)) → keeps I (write_failed mu t f o l e).
Proof.
  intros Hm. unfold write_failed. go_keeps; first [apply Hm|apply failed_handled|apply on_corba_handled; intros; apply transient_handled].
Qed.
Lemma first_errors_handled n errs : keeps I (first_errors n errs).
Proof. unfold first_errors. go_keeps. Qed.
Lemma read_only_ping_handled : keeps I read_only_ping.
Proof. unfold read_only_ping. go. Qed.
Lemma check_command_handled n : keeps I (check_command n).
Proof. unfold check_command. pose proof (h_offline _ HI). go_keeps. apply read_only_ping_handled. Qed.
End Handled.

(** ** The bodies of the requests *)

Lemma two_attempts_alive {A} h (m : CM A) : triple well_connected m (λ _, well_connected) after →
  (∀ b e, triple (after e) (h b e) (λ _, well_connected) (λ _, well_connected)) → keeps well_connected (two_attempts h m).
Proof.
  intros Hm Hh. unfold two_attempts. eapply triple_catch; [exact Hm|]. intros e.
  eapply triple_bind; [apply Hh|]. intros []. eapply triple_catch; [exact Hm|]. intros e'.
  eapply triple_bind; [apply Hh|]. intros []. apply triple_undef.
Qed.
Lemma read_only_ping_alive : triple connected read_only_ping (λ _, connected) after.
Proof.
  eapply triple_catch; [apply call_first|]. intros e.
  eapply (triple_bind _ _ (λ _, reached)); [|intros _; by apply triple_throw, reached_after].
  apply triple_upd. intros s Hs. destruct (connected_reached _ Hs) as [[? ?] ?]. by split.
Qed.
Lemma refused_alive (er : Conn Ref → W → cexn) : triple connected (read_only_ping;; c ← self; w ← the_world; throw_exn (er c w)) (λ _ : unit, connected) after.
Proof.
  eapply triple_bind; [apply read_only_ping_alive|]. intros []. eapply (triple_keeps connected); [go_keeps|done|done|intros ?; apply connected_after].
Qed.
Lemma check_command_alive n : triple connected (check_command n) (λ _, connected) after.
Proof.
  unfold check_command. apply triple_bind_self. intros c. apply (triple_pre _ connected); [|by intros s [? _]].
  eapply (triple_bind _ _ (λ _, connected)); [by intros s s' r ? [= <- <-]|]. intros w. destruct (no_database w); [apply triple_undef|]. cbv zeta.
  eapply (triple_bind _ _ (λ _, connected)); [eapply (triple_keeps connected); [apply keeps_run; exact _|done|done|intros ?; apply connected_after]|].
  intros b. destruct b; simpl; [by apply triple_ret|]. apply (refused_alive (λ c w, _)).
Qed.
Lemma by_version {A} (m : Conn Ref → CM A) :
  (∀ c, 1 ≤ version c ≤ 6 → triple (λ s, connected s ∧ version (conn s) = version c) (m c) (λ _, connected) (λ _, connected)) → keeps connected (self ≫= m).
Proof.
  intros H. apply triple_bind_self. intros c s s' r [Hs <-]. pose proof Hs as (_ & [Hv _] & _). by apply (H _ Hv).
Qed.
Lemma call_version {A} k (q : IdlCall Any A) (c : Conn Ref) : 1 ≤ k ≤ version c → triple (λ s, connected s ∧ version (conn s) = version c) (call k q) (λ _, connected) (λ _, connected).
Proof. intros Hk. apply call_alive. intros s [Hs ->]. done. Qed.
Lemma ident_version (c : Conn Ref) : keeps (λ s : St, connected s ∧ version (conn s) = version c) get_client_identification.
Proof. unfold get_client_identification. go_keeps. Qed.
Lemma ident_call {A} k (q : ClntIdent → IdlCall Any A) (c : Conn Ref) : 1 ≤ k ≤ version c →
  triple (λ s, connected s ∧ version (conn s) = version c) (cl ← get_client_identification; call k (q cl)) (λ _, connected) (λ _, connected).
Proof.
  intros Hk. eapply (triple_bind _ _ (λ _ s, connected s ∧ version (conn s) = version c)); [|intros; by apply call_version].
  eapply triple_keeps; [apply (ident_version c)|done|done|by intros ? ? []].
Qed.
Lemma then_ret {A B} (P : St → Prop) (m : CM A) (f : A → CM B) : triple P m (λ _, connected) (λ _, connected) → (∀ a, keeps connected (f a)) →
  triple P (m ≫= f) (λ _, connected) (λ _, connected).
Proof. intros Hm Hf. eapply triple_bind; [exact Hm|]. done. Qed.
Ltac versions := repeat match goal with |- context [if ?b then _ else _] => destruct b eqn:?; simpl end.
Lemma send_command_alive command arg src : keeps connected (send_command command arg src).
Proof.
  unfold send_command. apply by_version. intros c Hv. versions.
  - apply (ident_call 4 (Command_inout_4 command arg src)). lia.
  - apply call_version. lia.
  - apply call_version. lia.
Qed.
Lemma read_call_alive names src : keeps connected (read_call names src).
Proof.
  unfold read_call. apply by_version. intros c Hv. versions.
  - eapply (triple_bind _ _ (λ _ s, connected s ∧ version (conn s) = version c)).
    { eapply triple_keeps; [apply (ident_version c)|done|done|by intros ? ? []]. }
    intros cl. apply then_ret; [apply call_version; lia|intros; apply keeps_ret].
  - eapply (triple_bind _ _ (λ _ s, connected s ∧ version (conn s) = version c)).
    { eapply triple_keeps; [apply (ident_version c)|done|done|by intros ? ? []]. }
    intros cl. apply then_ret; [apply call_version; lia|intros; apply keeps_ret].
  - apply then_ret; [apply call_version; lia|intros; apply keeps_ret].
  - apply then_ret; [apply call_version; lia|intros; apply keeps_ret].
  - apply then_ret; [apply call_version; lia|intros; apply keeps_ret].
Qed.
Lemma info_alive : keeps connected (c ← self;
     if 6 <=? version c then i ← call 6 Info_6; put_dev_info i (i_dev_type i) (i_version_info i)
     else if 3 <=? version c then i ← call 3 Info_3; put_dev_info i (i_dev_type i) []
     else i ← call 1 Info; put_dev_info i NotSet []).
Proof.
  apply by_version. intros c Hv. versions; (apply then_ret; [apply call_version; lia|intros; same]).
Qed.
Lemma check_then {A} (m : CM A) : triple connected m (λ _, connected) after → triple well_connected (reconnect_if_needed;; m) (λ _, well_connected) after.
Proof.
  intros Hm. eapply triple_bind; [apply reconnect_if_needed_connects|]. intros [].
  eapply triple_conseq; [exact Hm|done|intros ?; apply connected_well|done].
Qed.
Lemma keeps_after {A} (m : CM A) : keeps connected m → triple connected m (λ _, connected) after.
Proof. intros H. eapply triple_conseq; [exact H|done|done|intros ?; apply connected_after]. Qed.
Lemma request_alive {A} n w (m : CM A) : keeps connected m → keeps well_connected (request n w m).
Proof.
  intros Hm. apply two_attempts_alive; [by apply check_then, keeps_after|]. intros. apply proxy_failed_alive.
Qed.
Lemma command_attempt_alive command arg : triple well_connected (command_attempt command arg) (λ _, well_connected) after.
Proof.
  unfold command_attempt, check_and_reconnect_sou_act.
  eapply (triple_bind _ _ (λ _, connected)).
  - apply triple_bind_self. intros c. apply (triple_pre _ well_connected); [|by intros s [? _]].
    eapply triple_bind; [apply reconnect_if_needed_connects|]. intros []. apply keeps_after. go_keeps.
  - intros [src act]. eapply (triple_bind _ _ (λ _, connected)).
    + destruct (bool_decide _); [apply check_command_alive|by apply triple_ret].
    + intros _. eapply triple_conseq; [apply send_command_alive|done|intros ?; apply connected_well|intros ?; apply connected_after].
Qed.
Lemma command_inout_alive command arg : keeps well_connected (command_inout command arg).
Proof. apply two_attempts_alive; [apply command_attempt_alive|]. intros. apply command_failed_alive. Qed.
Lemma read_attempt_alive names : triple well_connected (src ← check_and_reconnect_sou; read_call names src) (λ _, well_connected) after.
Proof.
  unfold check_and_reconnect_sou. eapply (triple_bind _ _ (λ _, connected)).
  - apply triple_bind_self. intros c. apply (triple_pre _ well_connected); [|by intros s [? _]].
    eapply triple_bind; [apply reconnect_if_needed_connects|]. intros []. by apply triple_ret.
  - intros src. eapply triple_conseq; [apply read_call_alive|done|intros ?; apply connected_well|intros ?; apply connected_after].
Qed.
Lemma check_act_alive : triple well_connected check_and_reconnect_act (λ _, connected) after.
Proof.
  unfold check_and_reconnect_act. eapply triple_bind; [apply reconnect_if_needed_connects|]. intros []. apply keeps_after. go_keeps.
Qed.
Lemma check_write_alive : triple well_connected check_write_access (λ _, connected) after.
Proof.
  unfold check_write_access. eapply triple_bind; [apply check_act_alive|]. intros a. cbv beta.
  destruct (bool_decide _); [|by apply triple_ret]. simpl.
  eapply triple_bind; [apply read_only_ping_alive|]. intros []. apply keeps_after. go_keeps.
Qed.
Lemma for_version_alive o4 o l : keeps well_connected (for_version o4 o l).
Proof.
  unfold for_version. apply triple_bind_self. intros c. apply (triple_pre _ well_connected); [|by intros s [? _]].
  eapply (triple_bind _ _ (λ _, well_connected)); [|intros _; apply (triple_keeps well_connected); [go_keeps|done..]].
  destruct (_ =? _); simpl; [|by apply triple_ret].
  eapply triple_bind; [eapply triple_conseq; [apply check_act_alive|done|done|apply after_well]|]. intros a. apply triple_ret. apply connected_well.
Qed.
Lemma write_call_alive v : triple well_connected (write_call v) (λ _, well_connected) after.
Proof.
  unfold write_call. eapply triple_bind; [apply check_write_alive|]. intros [].
  eapply (triple_conseq _ connected _ _ (λ _, connected) _ (λ _, connected)); [|done|intros ?; apply connected_well|intros ?; apply connected_after].
  apply by_version. intros c Hv. versions.
  - apply (ident_call 4 (Write_attributes_4 (attr_value_list_4 v))). lia.
  - apply call_version. lia.
  - apply call_version. lia.
Qed.
Lemma write_3_alive l : triple well_connected (check_write_access;; c ← self; if 3 <=? version c then call 3 (Write_attributes_3 l) else call 1 (Write_attributes l))
  (λ _, well_connected) after.
Proof.
  eapply triple_bind; [apply check_write_alive|]. intros [].
  eapply (triple_conseq _ connected _ _ (λ _, connected) _ (λ _, connected)); [|done|intros ?; apply connected_well|intros ?; apply connected_after].
  apply by_version. intros c Hv. versions; apply call_version; lia.
Qed.
Lemma full_adm_name_alive st : keeps connected (full_adm_name st).
Proof. unfold full_adm_name. go_keeps. same. Qed.

Lemma commands_alive : keeps well_connected command_list_query.
Proof.
  apply request_alive, by_version. intros c Hc. versions; [apply then_ret; [|intros; apply keeps_ret]|]; apply call_version; lia.
Qed.
Lemma first_errors_well n errs : keeps well_connected (first_errors n errs).
Proof. unfold first_errors. go_keeps. Qed.

(** The methods that use the interface of the device: the others ask for a version. *)
Definition any_version {A} (m : Method (Any := Any) A) : bool :=
  match m with M_read_attribute_4 _ | M_read_attribute_5 _ | M_write_attribute_4 _ => false | _ => true end.
Lemma exec_alive {A} (m : Method A) : any_version m = true → keeps well_connected (exec m).
Proof.
  intros Hv. destruct m; try done; cbn [exec].
  - apply command_inout_alive.
  - apply command_inout_alive.
  - unfold ping. go_keeps. apply request_alive, call_first.
  - apply request_alive, call_first.
  - apply request_alive, call_first.
  - apply two_attempts_alive; [apply check_then, keeps_after, call_first|]. intros. apply proxy_failed_alive.
  - apply request_alive. go_keeps; [apply call_first|apply full_adm_name_alive].
  - apply request_alive, call_first.
  - apply request_alive, call_first.
  - unfold info. go_keeps. apply request_alive, info_alive.
  - apply request_alive, by_version. intros c Hc. versions; [apply then_ret; [|intros; apply keeps_ret]|]; apply call_version; lia.
  - apply commands_alive.
  - unfold get_command_config. eapply triple_bind; [apply commands_alive|]. intros. apply keeps_ret.
  - unfold get_command_list. eapply triple_bind; [apply commands_alive|]. intros. apply keeps_ret.
  - unfold read_attributes. eapply triple_bind; [apply lift_handled|]. intros []. eapply triple_bind.
    + apply two_attempts_alive; [apply read_attempt_alive|]. intros. apply read_failed_alive.
    + intros []; apply mapM_keeps; intros; [apply convert_old_handled|apply convert_new_handled].
  - unfold read_attribute_into. eapply triple_bind.
    + apply two_attempts_alive; [apply read_attempt_alive|]. intros. apply read_failed_alive.
    + intros [[|v l]|[|v l]]; solve [apply triple_undef|apply convert_old_handled|apply convert_new_handled].
  - eapply triple_bind; [apply for_version_alive|]. intros v. apply two_attempts_alive; [apply write_call_alive|].
    intros. apply write_failed_alive. intros. by apply (well_throw _ _ (λ c, _)).
  - eapply triple_bind; [apply for_version_alive|]. intros v. apply two_attempts_alive; [apply write_call_alive|].
    intros. apply write_failed_alive. apply first_errors_well.
  - destruct l as [|a l]; [apply triple_undef|]. apply two_attempts_alive; [apply write_3_alive|].
    intros. apply write_failed_alive. apply first_errors_well.
Qed.

(** C8: a connection that is in order stays so. When the check of the connection returns, the
    device is connected and the references of all the interfaces up to its version, between 1
    and 6, are there. Every request of a client that exists for a device of any version leaves
    the connection so, or marks it as lost, and makes no call through a nil reference, whatever
    the exceptions. The requests for the classes [AttributeValue_4] and [AttributeValue_5], the
    reading and the writing with these types, are not among them: they use the interface of
    their version, also when the device has none (finding of devapi_base.cpp:6425). *)
Theorem requests_stay_connected s :
  well_connected s →
  (∀ s', check_and_reconnect s = Some (s', inr tt) → connected s') ∧
  ∀ A (m : Method A) s' r, any_version m = true → exec m s = Some (s', r) → well_connected s'.
Proof.
  intros Hs. split.
  - intros s' Hr. exact (reconnect_if_needed_connects _ _ _ Hs Hr).
  - intros A m s' r Hm Hr. pose proof (exec_alive m Hm _ _ _ Hs Hr). by destruct r.
Qed.
End ConnState.
