(* ===== verification/ConnSafety.v ===== *)
(** * The exceptions, the delay and the access of the requests

  No CORBA exception comes out of a request; a request that comes too soon after a failed
  connection does nothing; without the right to write nothing is written. *)
From S2P Require Import Prelude StateExn CppString PollRing Attribute AttrHistory Number WAttribute BlackBox DevState ReadCache ClientExn DeviceAttr Connection ProxyRequests ConnTheory ConnProps ConnState.
Local Open Scope string_scope.
Local Open Scope list_scope.
Local Open Scope Z_scope.
#[local] Set Default Proof Using "Type*".

Section Clean.
Context {Ref Any Obj W : Type} `{orb : !Orb Ref Any Obj W} `{Sv : !Services W} `{M : !OmniMinors}.
Abbreviation St := (@Connection.St Ref Any W).
Abbreviation CM := (XM cexn (@Connection.St Ref Any W)).
Implicit Types s : St.

(** ** Exceptions *)

(** Code that throws no CORBA exception, whatever the state. *)
Definition clean {A} (m : CM A) : Prop := ∀ s s' e, m s = Some (s', inl (Sys e)) → False.

Lemma clean_ret {A} (a : A) : clean (mret a).
Proof. by intros s s' e [=]. Qed.
Lemma clean_throw {A} e : not_sys e → clean (A := A) (throw_exn e).
Proof. intros He s s' e' [= _ ->]. done. Qed.
Lemma clean_undef {A} : clean (A := A) undef.
Proof. by intros s s' e ?. Qed.
Lemma clean_bind {A B} (m : CM A) (f : A → CM B) : clean m → (∀ a, clean (f a)) → clean (m ≫= f).
Proof.
  intros Hm Hf s s' e. unfold mbind, SM_bind. destruct (m s) as [[s1 [e1|a]]|] eqn:E; [| |done].
  - intros [= <- ->]. by eapply Hm.
  - apply Hf.
Qed.
(** The handler receives every exception. *)
Lemma clean_catch {A} (m : CM A) h : (∀ e, clean (h e)) → clean (catch m h).
Proof. intros Hh s s' e. unfold catch. destruct (m s) as [[s1 [e1|a]]|]; [apply Hh|done|done]. Qed.
Lemma clean_when b (m : CM unit) : clean m → clean (when_ b m).
Proof. destruct b; [done|]. intros _. apply clean_ret. Qed.
Lemma clean_self : clean self.
Proof. by intros s s' e [=]. Qed.
Lemma clean_world : clean the_world.
Proof. by intros s s' e [=]. Qed.
Lemma clean_upd f : clean (upd f).
Proof. by intros s s' e [=]. Qed.
Lemma clean_run_world f : clean (run_world f).
Proof. by intros s s' e [=]. Qed.
Lemma clean_mapM {A B} (f : A → CM B) l : (∀ a, clean (f a)) → clean (mapM f l).
Proof.
  intros Hf. induction l as [|a l IH]; simpl; [apply clean_ret|]. apply clean_bind; [apply Hf|]. intros b.
  apply clean_bind; [exact IH|]. intros. apply clean_ret.
Qed.
Ltac go_clean := repeat first
  [ progress intros
  | progress cbv zeta
  | match goal with
    | |- clean (mbind _ _) => apply clean_bind
    | |- clean (when_ _ _) => apply clean_when
    | |- clean (catch _ _) => apply clean_catch
    | |- clean (mret _) => apply clean_ret
    | |- clean (throw_exn _) => apply clean_throw; done
    | |- clean undef => apply clean_undef
    | |- clean self => apply clean_self
    | |- clean the_world => apply clean_world
    | |- clean (upd _) => apply clean_upd
    | |- clean (set_connection_state _) => apply clean_upd
    | |- clean (run_world _) => apply clean_run_world
    | |- clean (match ?x with _ => _ end) => destruct x
    end
  | assumption ].

Lemma two_attempts_clean {A} h (m : CM A) : (∀ b e, clean (h b e)) → clean (two_attempts h m).
Proof. intros Hh. unfold two_attempts. go_clean; apply Hh. Qed.
Lemma ping_fails_clean : clean ping_fails.
Proof. unfold ping_fails. go_clean. Qed.
Lemma transient_clean a n l e : clean (transient_not_exist a n l e).
Proof. unfold transient_not_exist. go_clean. apply ping_fails_clean. Qed.
Lemma transient_cmd_clean n l e : clean (transient_not_exist_cmd n l e).
Proof. unfold transient_not_exist_cmd. go_clean. apply ping_fails_clean. Qed.
Lemma on_corba_clean trans failed o l e : (∀ k b x, clean (trans k b x)) → clean (on_corba trans failed o l e).
Proof. intros Ht. unfold on_corba. go_clean; apply Ht. Qed.
Lemma failed_clean l rs d o : clean (failed_or_unlocked (A := unit) l rs d o).
Proof. unfold failed_or_unlocked. go_clean. Qed.
Lemma command_failed_clean n l e : clean (command_failed n l e).
Proof. unfold command_failed. go_clean; first [apply failed_clean|apply on_corba_clean; intros; apply transient_cmd_clean]. Qed.
Lemma proxy_failed_clean n f l e : clean (proxy_failed n f l e).
Proof. apply on_corba_clean. intros. apply transient_clean. Qed.
Lemma read_failed_clean n f g l e : clean (read_failed n f g l e).
Proof. unfold read_failed. go_clean; apply on_corba_clean; intros; apply transient_clean. Qed.
Lemma write_failed_clean mu t f o l e : (∀ x, clean (mu x)) → clean (write_failed mu t f o l e).
Proof. intros Hm. unfold write_failed. go_clean; first [apply Hm|apply failed_clean|apply on_corba_clean; intros; apply transient_clean]. Qed.
Lemma first_errors_clean n errs : clean (first_errors n errs).
Proof. unfold first_errors. go_clean. Qed.
Lemma lift_clean {A} (x : outcome A) : clean (lift_outcome x).
Proof. intros s s' e. destruct x as [a|[]|]; simpl; by intros [=]. Qed.
Lemma attr_to_device_clean v w d d' e : attr_to_device v w d ≠ Some (d', inl (Sys e)).
Proof.
  unfold attr_to_device, mbind, SM_bind. simpl. repeat case_match; simpl in *; try done;
    unfold modify, mbind, SM_bind, throw_exn, undef, mret, SM_ret in *; simpl in *; congruence.
Qed.
Lemma attr_to_device_base_clean v d d' e : attr_to_device_base v d ≠ Some (d', inl (Sys e)).
Proof.
  unfold attr_to_device_base, mbind, SM_bind. simpl. repeat case_match; simpl in *; try done;
    unfold modify, mbind, SM_bind, throw_exn, undef, mret, SM_ret in *; simpl in *; congruence.
Qed.
Lemma convert_clean (m : DA unit) d : (∀ d' e, m d ≠ Some (d', inl (Sys e))) → clean (convert m d).
Proof. intros H s s' e. unfold convert. destruct (m d) as [[d' [e'|]]|] eqn:E; [|done|done]. intros [= _ ->]. by eapply H. Qed.
Lemma add_read_error_clean w b d : clean (add_read_error w b d).
Proof. unfold add_read_error. go_clean. Qed.
Lemma convert_new_clean w b v d : clean (convert_new w b v d).
Proof.
  unfold convert_new. go_clean; [|apply add_read_error_clean]. apply convert_clean. intros d' e.
  destruct (_ <=? _); [|apply attr_to_device_base_clean]. unfold attr_to_device_5, mbind, SM_bind.
  pose proof (attr_to_device_base_clean v d) as Hb. destruct (attr_to_device_base v d) as [[? []]|]; naive_solver.
Qed.
Lemma convert_old_clean w b v d : clean (convert_old w b v d).
Proof. unfold convert_old. go_clean; try apply add_read_error_clean. apply convert_clean. intros. apply attr_to_device_clean. Qed.
Lemma read_idl_clean a t k q : clean (read_idl a t k q).
Proof. unfold read_idl. go_clean. apply two_attempts_clean. intros. apply read_failed_clean. Qed.

(** The methods that check the connection outside of their handlers, when the version of the
    device is not known yet. *)
Definition checks_first {A} (m : Method (Any := Any) A) : bool :=
  match m with M_write_attributes _ | M_write_attribute _ | M_write_attribute_4 _ => true | _ => false end.
Lemma for_version_clean o4 o l s s' e : version (conn s) ≠ 0 → for_version o4 o l s ≠ Some (s', inl (Sys e)).
Proof.
  intros Hv. unfold for_version, mbind, SM_bind. simpl. by rewrite (proj2 (Z.eqb_neq _ _) Hv).
Qed.
Lemma write_after {A B} o4 o l (f : ToWrite → bool → cexn → CM unit) (g : ToWrite → CM A) s s' e :
  version (conn s) ≠ 0 → (∀ v b e, clean (f v b e)) → (v ← for_version o4 o l; two_attempts (f v) (g v)) s = Some (s', inl (Sys e)) → B.
Proof.
  intros Hv Hf. unfold mbind at 1, SM_bind at 1. pose proof (for_version_clean o4 o l s) as Hc.
  destruct (for_version o4 o l s) as [[s1 [e1|v]]|] eqn:E; [intros [= <- ->]; by destruct (Hc s1 e Hv)| |done].
  intros Hr. destruct (two_attempts_clean (f v) (g v) (Hf v) _ _ _ Hr).
Qed.

(** C9: what a client sees of a failure of the network. No CORBA exception comes out of a
    request: the handlers turn them all into exceptions of Tango, also those that the
    reconnection and the pings of the handlers meet. For the writings of attributes the version
    of the device is known: with the version 0 they connect before their handlers, and an
    exception of CORBA then comes out (finding of devapi_base.cpp:6878). *)
Theorem no_corba_exception {A} (m : Method A) s s' e :
  (checks_first m = true → version (conn s) ≠ 0) → exec m s ≠ Some (s', inl (Sys e)).
Proof.
  intros Hv.
  assert (∀ B (x : CM B), clean x → x s ≠ Some (s', inl (Sys e))) as Hc by (intros B x Hx Hr; by eapply Hx).
  assert (∀ n w B (b : CM B), clean (request n w b)) as Hq by (intros; apply two_attempts_clean; intros; apply proxy_failed_clean).
  destruct m; cbn [exec]; try (apply Hc, Hq).
  - apply Hc, two_attempts_clean. intros. apply command_failed_clean.
  - apply Hc, two_attempts_clean. intros. apply command_failed_clean.
  - apply Hc. unfold ping. go_clean. apply Hq.
  - apply Hc, two_attempts_clean. intros. apply proxy_failed_clean.
  - apply Hc. unfold info. go_clean. apply Hq.
  - apply Hc. unfold get_command_config. go_clean. apply Hq.
  - apply Hc. unfold get_command_list. go_clean. apply Hq.
  - apply Hc. unfold read_attributes. go_clean; try apply lift_clean.
    + apply two_attempts_clean. intros. apply read_failed_clean.
    + apply clean_mapM. intros. apply convert_old_clean.
    + apply clean_mapM. intros. apply convert_new_clean.
  - apply Hc. unfold read_attribute_into. go_clean.
    + apply two_attempts_clean. intros. apply read_failed_clean.
    + apply convert_old_clean.
    + apply convert_new_clean.
  - apply Hc, read_idl_clean.
  - apply Hc, read_idl_clean.
  - intros Hr. unfold write_attributes in Hr. eapply write_after in Hr; [exact Hr|by apply Hv|].
    intros. apply write_failed_clean. go_clean.
  - intros Hr. eapply write_after in Hr; [exact Hr|by apply Hv|]. intros. apply write_failed_clean, first_errors_clean.
  - destruct l as [|a l]; [by intros ?|]. apply Hc, two_attempts_clean. intros. apply write_failed_clean, first_errors_clean.
  - intros Hr. destruct l as [|a l]; [done|]. cbn [write_attribute_4] in Hr.
    apply bind_inl in Hr as [[=]|(s1 & c & [= <- <-] & Hr)]. rewrite (proj2 (Z.eqb_neq _ _) (Hv eq_refl)) in Hr.
    apply bind_inl in Hr as [[=]|(s1 & c & [= <- <-] & Hr)]. revert Hr. apply Hc. go_clean.
    apply two_attempts_clean. intros. apply write_failed_clean, first_errors_clean.
Qed.

(** ** A connection that failed less than a second ago *)

Section TooSoon.
Context (s : St).
Definition too_soon : Prop :=
  connection_ok (conn s) = false ∧ ∃ t0, prev_failed_t0 (conn s) = Some t0 ∧ steady_clock (world s) - t0 < RECONNECTION_DELAY.
Definition delayed : DevError :=
  mkDevError "API_CantConnectToDevice" ERR
    ("Failed to connect to device " +:+ dev_name (conn s) +:+ endl +:+ "The connection request was delayed." +:+ endl +:+
     "The last connection request was done less than 1000 ms ago") "Connection::reconnect".
(** Nothing has changed, and an exception is thrown. *)
Definition refused {A} (m : CM A) : Prop := ∀ s' r, m s = Some (s', r) → s' = s ∧ ∃ e, r = inl e.
Lemma refused_bind {A B} (m : CM A) (f : A → CM B) : refused m → refused (m ≫= f).
Proof.
  intros Hm s' r. unfold mbind, SM_bind. destruct (m s) as [[s1 [e|a]]|] eqn:E; [| |done].
  - intros [= <- <-]. destruct (Hm _ _ E) as [-> _]. eauto.
  - destruct (Hm _ _ E) as [_ [e [=]]].
Qed.
Lemma refused_after {A B} (m : CM A) (f : A → CM B) a : m s = Some (s, inr a) → refused (f a) → refused (m ≫= f).
Proof. intros Hm Hf s' r. rewrite (run_bind _ _ _ _ _ Hm). apply Hf. Qed.
Lemma refused_two {A} h (m : CM A) :
  m s = Some (s, inl (TErr PlainDevFailed [delayed])) → (∃ e, h false (TErr PlainDevFailed [delayed]) s = Some (s, inl e)) → refused (two_attempts h m).
Proof.
  intros Hm [e He] s' r. unfold two_attempts, catch. rewrite Hm. unfold mbind, SM_bind. rewrite He. intros [= <- <-]. eauto.
Qed.

Context (Hs : too_soon).
Lemma reconnect_too_soon : reconnect_if_needed s = Some (s, inl (TErr PlainDevFailed [delayed])).
Proof.
  destruct Hs as (Hok & t0 & Ht & Hlt). unfold reconnect_if_needed. rewrite run_self, Hok. simpl.
  unfold reconnect, reconnect_base. unfold mbind, SM_bind. simpl. rewrite Hok. simpl. rewrite Ht. simpl.
  by rewrite (proj2 (Z.ltb_lt _ _) Hlt).
Qed.
Lemma stopped {A} (f : unit → CM A) : (reconnect_if_needed ≫= f) s = Some (s, inl (TErr PlainDevFailed [delayed])).
Proof. unfold mbind, SM_bind. by rewrite reconnect_too_soon. Qed.
Lemma stopped_bind {A B} (m : CM A) (f : A → CM B) e : m s = Some (s, inl e) → (m ≫= f) s = Some (s, inl e).
Proof. intros Hm. unfold mbind, SM_bind. by rewrite Hm. Qed.
Lemma act_stopped : check_and_reconnect_act s = Some (s, inl (TErr PlainDevFailed [delayed])).
Proof. apply stopped. Qed.
Lemma sou_stopped : check_and_reconnect_sou s = Some (s, inl (TErr PlainDevFailed [delayed])).
Proof. unfold check_and_reconnect_sou. rewrite run_self. apply stopped. Qed.
Lemma write_stopped : check_write_access s = Some (s, inl (TErr PlainDevFailed [delayed])).
Proof. apply stopped_bind, act_stopped. Qed.
Lemma request_refused {A} n w (m : CM A) : refused (request n w m).
Proof. apply refused_two; [apply stopped|]. eexists; reflexivity. Qed.
Lemma list_refused : refused command_list_query.
Proof. apply request_refused. Qed.
Lemma again_refused rs d o : failed_or_unlocked (A := unit) [delayed] rs d o s = Some (s, inl (one_more PlainDevFailed [delayed] rs d o)).
Proof. unfold failed_or_unlocked. by rewrite bool_decide_false. Qed.
Lemma command_refused command arg : refused (command_inout command arg).
Proof.
  apply refused_two; [|eexists; unfold command_failed; rewrite run_self; apply again_refused]. unfold command_attempt. apply stopped_bind.
  unfold check_and_reconnect_sou_act. rewrite run_self. apply stopped.
Qed.
Lemma reading_refused {B} (f : DevSource → CM B) n g h : refused (two_attempts (read_failed n g h) (check_and_reconnect_sou ≫= f)).
Proof. apply refused_two; [apply stopped_bind, sou_stopped|]. eexists. unfold read_failed. by rewrite run_self. Qed.
Lemma read_idl_refused a t k q : refused (read_idl a t k q).
Proof.
  unfold read_idl. eapply refused_after; [done|]. destruct (IDLVersionIsTooOld _ _).
  - apply refused_bind. intros s' r [= <- <-]. eauto.
  - eapply refused_after; [done|]. apply refused_bind, reading_refused.
Qed.
Lemma writing_refused {A} o4 o l (f : ToWrite → bool → cexn → CM unit) (g : ToWrite → CM A) : (∀ v, refused (two_attempts (f v) (g v))) → refused (v ← for_version o4 o l; two_attempts (f v) (g v)).
Proof.
  intros Hf. unfold for_version. destruct (version (conn s) =? 0) eqn:Hv.
  - apply refused_bind. eapply refused_after; [done|]. rewrite Hv. apply refused_bind. simpl. apply refused_bind.
    intros s' r. rewrite act_stopped. intros [= <- <-]. eauto.
  - eapply refused_after; [|apply Hf]. rewrite run_self, Hv. by unfold mbind, SM_bind.
Qed.
Lemma write_two_refused f t g o (m : unit → CM unit) : refused (two_attempts (write_failed f t g o) (check_write_access ≫= m)).
Proof. apply refused_two; [apply stopped_bind, write_stopped|]. eexists. unfold write_failed. rewrite run_self. apply again_refused. Qed.
End TooSoon.

(** C38: the delay between two connections.  When the connection failed less than a second ago,
    every request throws an exception without any change and without any access to the
    network or to the database. *)
Theorem refused_too_soon {A} (m : Method A) s s' r : too_soon s → exec m s = Some (s', r) → s' = s ∧ ∃ e, r = inl e.
Proof.
  intros Hs. revert s' r. change (refused s (exec m)).
  pose proof (λ B n w m, @request_refused s Hs B n w m) as Hq.
  destruct m; cbn [exec]; try apply Hq.
  - by apply command_refused.
  - by apply command_refused.
  - eapply refused_after; [done|]. apply refused_bind, Hq.
  - apply refused_two; [by apply stopped|]. by eexists.
  - apply refused_bind, Hq.
  - by apply refused_bind, list_refused.
  - by apply refused_bind, list_refused.
  - unfold read_attributes. destruct (lift_outcome (same_att_name names "Deviceproxy::read_attributes()") s) as [[s1 [e|[]]]|] eqn:E.
    + apply refused_bind. intros s' r. rewrite E. intros [= <- <-]. unfold lift_outcome in E. repeat case_match; simplify_eq; eauto.
    + assert (s1 = s) as -> by (unfold lift_outcome in E; repeat case_match; by simplify_eq).
      eapply refused_after; [exact E|]. by apply refused_bind, reading_refused.
    + intros s' r. unfold mbind at 1, SM_bind at 1. by rewrite E.
  - by apply refused_bind, reading_refused.
  - by apply read_idl_refused.
  - by apply read_idl_refused.
  - apply writing_refused; [done|]. intros v. by apply write_two_refused.
  - apply writing_refused; [done|]. intros v. by apply write_two_refused.
  - destruct l; [by intros ???|]. by apply write_two_refused.
  - destruct l; [by intros ???|]. cbn [write_attribute_4]. eapply refused_after; [done|].
    destruct (version (conn s) =? 0).
    + apply refused_bind. simpl. apply refused_bind. intros s' r. rewrite act_stopped by done. intros [= <- <-]. eauto.
    + eapply refused_after; [done|]. eapply refused_after; [done|]. destruct (IDLVersionIsTooOld _ _).
      * apply refused_bind. intros s' r [= <- <-]. eauto.
      * eapply refused_after; [done|]. by apply write_two_refused.
Qed.

(** ** The right to read only *)

Definition is_write (x : Sent Any) : bool :=
  match operation x with existT _ q => match q with Write_attributes _ | Write_attributes_3 _ | Write_attributes_4 _ _ => true | _ => false end end.
Definition writes s : list (Sent Any) := filter is_write (calls s).
Definition writing {A} (m : Method (Any := Any) A) : bool :=
  match m with M_write_attributes _ | M_write_attribute _ | M_write_attribute_3 _ | M_write_attribute_4 _ => true | _ => false end.
Lemma writes_frame s s' : frame s s' → writes s' = writes s.
Proof.
  intros H. assert (∀ l : list (Sent Any), filter is_write l = filter is_write (user_calls l)) as Hf.
  { intros l. unfold user_calls. rewrite list_filter_filter_l; [done|]. intros [k b [A q]]. by destruct q. }
  unfold writes. by rewrite Hf, (fr_calls _ _ H), <-Hf.
Qed.

Section ReadOnly.
(** The access control of the database refuses, or fails. *)
Context (Hacc : ∀ n w w' a, check_access_control n w = (w', inr a) → a = ACCESS_READ).
Context (l : list (Sent Any)).
Definition read_only s : Prop := access (conn s) = ACCESS_READ ∧ writes s = l.
Lemma read_only_stable : stable read_only.
Proof.
  split.
  - intros s s' H [Ha Hw]. split; [by rewrite (fr_access _ _ H)|by rewrite (writes_frame _ _ H)].
  - intros n s s' r Hs. unfold mbind, SM_bind, run. destruct (check_access_control n (world s)) as [w [[c e]|a]] eqn:E.
    + by intros [= <- <-].
    + apply Hacc in E as ->. intros [= <- <-]. by destruct Hs.
Qed.
Lemma read_only_handled : handled read_only.
Proof.
  pose proof read_only_stable as HI. split; [by eapply stable_offline|step| |step].
  apply keeps_upd. by intros s [? ?].
Qed.
Lemma check_write_refuses : triple read_only check_write_access (λ _ _, False) (λ _, read_only).
Proof.
  pose proof read_only_stable as HI. unfold check_write_access.
  eapply (triple_bind _ _ (λ a s, read_only s ∧ a = ACCESS_READ)).
  - unfold check_and_reconnect_act. eapply (triple_bind _ _ (λ _, read_only)); [by apply reconnect_if_needed_stable|]. intros _.
    apply triple_bind_self. intros c. apply triple_ret. intros s [Hs <-]. split; [done|apply Hs].
  - intros a. destruct a; simpl.
    + apply (triple_pre _ read_only); [|by intros s [? _]].
      eapply (triple_bind _ _ (λ _, read_only)); [apply (read_only_ping_handled _ read_only_handled)|]. intros _.
      apply triple_bind_self. intros c. apply triple_throw. by intros s [? _].
    + apply triple_ret. by intros s [_ [=]].
Qed.
Lemma write_two_refuses {B} f t g o (m : unit → CM B) : (∀ x, keeps read_only (f x)) →
  triple read_only (two_attempts (write_failed f t g o) (check_write_access ≫= m)) (λ _ _, False) (λ _, read_only).
Proof.
  intros Hf. assert (triple read_only (check_write_access ≫= m) (λ _ _, False) (λ _, read_only)) as Hm.
  { eapply triple_bind; [apply check_write_refuses|]. by intros [] s s' r []. }
  unfold two_attempts. eapply triple_catch; [exact Hm|]. intros e.
  eapply (triple_bind _ _ (λ _, read_only)); [by apply write_failed_handled; [apply read_only_handled|]|]. intros _.
  eapply triple_catch; [exact Hm|]. intros e'.
  eapply (triple_bind _ _ (λ _, read_only)); [by apply write_failed_handled; [apply read_only_handled|]|]. intros _. apply triple_undef.
Qed.
Lemma for_version_read_only o4 o x : keeps read_only (for_version o4 o x).
Proof.
  pose proof read_only_stable as HI. unfold for_version, check_and_reconnect_act. go_keeps. by apply reconnect_if_needed_stable.
Qed.
Lemma writing_refuses {A} (m : Method A) : writing m = true → triple read_only (exec m) (λ _ _, False) (λ _, read_only).
Proof.
  pose proof read_only_stable as HI.
  assert (∀ n errs, keeps read_only (first_errors n errs)) as Hfe by (intros; unfold first_errors; go_keeps).
  intros Hm. destruct m; try done; cbn [exec].
  - eapply triple_bind; [apply for_version_read_only|]. intros v. apply write_two_refuses. intros. go_keeps.
  - eapply triple_bind; [apply for_version_read_only|]. intros v. by apply write_two_refuses.
  - destruct l0; [apply triple_undef|]. by apply write_two_refuses.
  - destruct l0; [apply triple_undef|]. cbn [write_attribute_4].
    eapply (triple_bind _ _ (λ _, read_only)); [apply keeps_self|]. intros c.
    eapply (triple_bind _ _ (λ _, read_only)).
    { apply keeps_when. unfold check_and_reconnect_act. go_keeps. by apply reconnect_if_needed_stable. }
    intros _. eapply (triple_bind _ _ (λ _, read_only)); [apply keeps_self|]. intros c1.
    eapply (triple_bind _ _ (λ _, read_only)); [apply keeps_when, keeps_throw|]. intros _. by apply write_two_refuses.
Qed.
End ReadOnly.

(** C11: a client without the right to write.  When the proxy has the access to read and the
    access control gives no other, also at the reconnections, a request that writes attributes
    throws an exception, and no writing is sent to the device. *)
Theorem read_only_never_writes {A} (m : Method A) s s' r :
  (∀ n w w' a, check_access_control n w = (w', inr a) → a = ACCESS_READ) → access (conn s) = ACCESS_READ →
  writing m = true → exec m s = Some (s', r) → writes s' = writes s ∧ ∃ e, r = inl e.
Proof.
  intros Hacc Ha Hm Hr. pose proof (writing_refuses Hacc (writes s) m Hm _ _ _ (conj Ha eq_refl) Hr) as H.
  destruct r as [e|]; [|done]. destruct H as [_ ?]. eauto.
Qed.
End Clean.
