(* ===== verification/ConnWitness.v ===== *)
(** * Examples for the requests of a proxy

  A device of version 5 whose server was started again: the first command of a connection
  fails with TRANSIENT, the next ones answer with their argument. *)
From S2P Require Import Prelude StateExn CppString PollRing Attribute AttrHistory Number WAttribute BlackBox DevState ReadCache ClientExn DeviceAttr Connection ProxyRequests ConnTheory ConnProps ConnState ConnSafety.
Local Open Scope string_scope.
Local Open Scope list_scope.
Local Open Scope Z_scope.

#[local] Instance ex_minors : OmniMinors := {|
  TRANSIENT_ConnectFailed := 1; TRANSIENT_CallTimedout := 2; OBJECT_NOT_EXIST_NoMatch := 3; COMM_FAILURE_WaitingForReply := 4 |}.
Definition ex_gone : SystemException := mkSys TRANSIENT 1 (Some "TRANSIENT_ConnectFailed").
(** The world: the number of commands received, and the clock. *)
Definition ex_invoke (A : Type) (r : Z) (q : IdlCall string A) (w : Z * Z) : (Z * Z) * (cexn + A) :=
  match q in IdlCall _ A return (Z * Z) * (cexn + A) with
  | Ping => (w, inr tt)
  | Name => (w, inr "Test/Device/1")
  | Info => (w, inr (mkDevInfo "Class" "server/1" "host" 6 "" "" []))
  | Command_inout_4 _ arg _ _ => ((fst w + 1, snd w), if fst w =? 0 then inl (Sys ex_gone) else inr arg)
  | Write_attributes_4 _ _ => (w, inr tt)
  | Write_attributes_3 _ => (w, inl (Sys ex_gone))
  | Read_attributes_5 names _ _ => (w, inl (TErr PlainDevFailed [mkDevError "API_AttrNotFound" ERR "not there" "device"]))
  | _ => (w, inl (StdErr "not used"))
  end.
#[local] Instance ex_orb : Orb Z string unit (Z * Z) := {|
  string_to_object _ w := (w, inr tt);
  narrow k _ w := (w, inr (if k <=? 5 then Some k else None));
  non_existent _ w := (w, inr false);
  invoke := ex_invoke;
  nil_reference := mkSys INV_OBJREF 9 None;
  alternate_address _ w := (w, inr None);
  setClientConnectTimeout _ w := w;
  setClientCallTimeout _ _ w := w;
  steady_clock w := snd w;
  client_pid _ := 42 |}.
(** The rights the access control gives. *)
Definition ex_services (a : AccessControlType) : Services (Z * Z) := {|
  local_import _ w := (w, inr "");
  import_device _ w := (w, inr (1, "IOR:01"));
  check_access_control _ w := (w, inr a);
  set_db_dev_name _ w := w;
  no_database _ := false;
  clear_access_except_errors _ w := (w, inr tt);
  is_command_allowed _ _ _ w := (w, inr false);
  get_access_except_errors _ _ := [];
  get_fqdn h w := (w, inr h) |}.
(** A new proxy, with its members after the construction of the [Connection]. *)
Definition ex_info : DeviceInfo := mkInfo "" "" "" 0 "" "" ∅.
Definition ex_conn (a : AccessControlType) (t0 : option Z) : Conn Z :=
  mkConn ∅ 0 0 false CLNT_TIMEOUT CACHE_DEV a true true t0 0 false (-1) true true "test/device/1" false "" "" "" "" 0 ex_info.
Definition ex_start (a : AccessControlType) (t0 : option Z) : St (Ref := Z) (Any := string) (W := Z * Z) := mkSt (ex_conn a t0) (0, 500) [].

Section Write.
#[local] Instance ex_sv : Services (Z * Z) := ex_services ACCESS_WRITE.
Definition ex_run := command_inout (Ref := Z) (Any := string) (Obj := unit) "Echo" "hello" (ex_start ACCESS_READ None).

(** The proxy connects, the command fails, the proxy connects again and the command answers. *)
Example ex_command_sent_twice :
  (match ex_run with Some (s, r) => Some (r, length (commands s), version (conn s), connection_ok (conn s), server_version (conn s)) | None => None end) =
  Some (inr "hello", 2%nat, 5, true, 6).
Proof. vm_compute. reflexivity. Qed.
Lemma command_sent_at_most_witness : ∃ s' r, ex_run = Some (s', r) ∧
  ∃ new, commands s' = [] ++ new ∧ Forall (carries "Echo" "hello") new ∧ (length new ≤ 2)%nat.
Proof.
  assert (is_Some ex_run) as [[s' r] Hr] by (vm_compute; eauto).
  exists s', r. split; [exact Hr|]. exact (command_sent_at_most "Echo" "hello" (ex_start ACCESS_READ None) s' r Hr).
Defined.

Lemma requests_stay_connected_witness :
  (∀ s', check_and_reconnect (Obj := unit) (ex_start ACCESS_READ None) = Some (s', inr tt) → connected s') ∧
  (∃ s', check_and_reconnect (Obj := unit) (ex_start ACCESS_READ None) = Some (s', inr tt)).
Proof.
  split.
  - apply (requests_stay_connected (ex_start ACCESS_READ None)). split; [done|]. constructor.
  - assert (is_Some (check_and_reconnect (Obj := unit) (ex_start ACCESS_READ None))) as [[s' r] Hr] by (vm_compute; eauto).
    exists s'. rewrite Hr. destruct r as [e|[]]; [|done]. vm_compute in Hr. discriminate.
Defined.

(** The reading of an attribute that is not there, and its exception. *)
Lemma no_corba_exception_witness : ∃ s' l, exec (Obj := unit) (M_read_attribute "nothing" DeviceAttribute_default) (ex_start ACCESS_READ None) = Some (s', inl (TErr PlainDevFailed l)) ∧
  ∀ e, exec (Obj := unit) (M_read_attribute "nothing" DeviceAttribute_default) (ex_start ACCESS_READ None) ≠ Some (s', inl (Sys e)).
Proof.
  eexists _, _. split; [vm_compute; reflexivity|]. intros e.
  apply (no_corba_exception (M_read_attribute "nothing" DeviceAttribute_default) (ex_start ACCESS_READ None)). intros [=].
Defined.

(** A device without a database whose name has "database" in it is taken for the database:
    the reconnection casts the proxy to a [Database]. *)
Definition ex_no_db : Conn Z :=
  mkConn ∅ 0 0 false CLNT_TIMEOUT CACHE_DEV ACCESS_WRITE true true None 0 false (-1) false false "sys/database/2" false "crate" "10000" "" "" 0 ex_info.
Example ex_database_device : exec (Obj := unit) M_ping (mkSt ex_no_db (0, 500) []) = None.
Proof. vm_compute. reflexivity. Qed.
(** A device of version 3 that comes back with version 5: what is sent again is empty, and the
    writing succeeds. *)
Definition ex_v3 : Conn Z :=
  mkConn {[1 := 1; 2 := 2; 3 := 3]} 3 5 true CLNT_TIMEOUT CACHE_DEV ACCESS_WRITE true true None 0 false (-1) true true "test/device/1" false "" "" "" "" 0 ex_info.
Definition written (x : Sent string) : option nat :=
  match operation x with existT _ q => match q with Write_attributes_4 l _ => Some (length l) | _ => None end end.
Example ex_write_lost :
  match exec (Obj := unit) (M_write_attribute DeviceAttribute_default) (mkSt ex_v3 (0, 500) []) with
  | Some (s, inr _) => option_map written (last (calls s))
  | _ => None
  end = Some (Some 0%nat).
Proof. vm_compute. reflexivity. Qed.

(** The connection failed 500 units of the clock before. *)
Lemma refused_too_soon_witness : ∃ s' r, exec (Obj := unit) M_state (ex_start ACCESS_READ (Some 0)) = Some (s', r) ∧
  s' = ex_start ACCESS_READ (Some 0) ∧ ∃ e, r = inl e.
Proof.
  assert (is_Some (exec (Obj := unit) M_state (ex_start ACCESS_READ (Some 0)))) as [[s' r] Hr] by (vm_compute; eauto).
  exists s', r. split; [exact Hr|]. apply (refused_too_soon M_state (ex_start ACCESS_READ (Some 0)) s' r); [|exact Hr].
  split; [reflexivity|]. exists 0. split; [reflexivity|]. vm_compute. reflexivity.
Defined.
End Write.

Section ReadOnly.
#[local] Instance ex_sv_read : Services (Z * Z) := ex_services ACCESS_READ.
(** The refusal of a command loses its class: it is a [DevFailed]. *)
Example ex_not_allowed :
  match exec (Obj := unit) (M_command_inout "Echo" "hello") (ex_start ACCESS_READ None) with
  | Some (_, inl (TErr c l)) => Some (c, reason <$> l)
  | _ => None
  end = Some (PlainDevFailed, ["API_ReadOnlyMode"; "API_CommandFailed"]).
Proof. vm_compute. reflexivity. Qed.
Lemma read_only_never_writes_witness : ∃ s' r,
  exec (Obj := unit) (M_write_attribute DeviceAttribute_default) (ex_start ACCESS_READ None) = Some (s', r) ∧ writes s' = [] ∧ ∃ e, r = inl e.
Proof.
  assert (is_Some (exec (Obj := unit) (M_write_attribute DeviceAttribute_default) (ex_start ACCESS_READ None))) as [[s' r] Hr] by (vm_compute; eauto).
  exists s', r. split; [exact Hr|].
  apply (read_only_never_writes (M_write_attribute DeviceAttribute_default) (ex_start ACCESS_READ None) s' r); [|reflexivity|reflexivity|exact Hr].
  by intros n w w' a [= <- <-].
Defined.
End ReadOnly.
