(* ===== verification/ProxyName.v ===== *)
(** * Names of devices and attributes (src/src/client/devapi_base.cpp, src/src/client/attr_proxy.cpp)

  [DeviceProxy::parse_name] and [AttributeProxy::parse_name]: the protocol, the modifier for
  the use of a database, the host and the port of a database or of a server, and the name of
  the device, of the attribute or their alias.  The resolution of a host and the aliases that
  the database knows are parameters. *)
From Stdlib Require Import Ascii.
From S2P Require Import Prelude StateExn CppString PollStatus ClientExn Connection.
Local Open Scope string_scope.
Local Open Scope list_scope.
Local Open Scope nat_scope.

(** What the parsing sets; a number that a branch leaves as it was is [None]. *)
Record Names := mkNames {
  nm_dbase_used : bool;
  nm_host : string;
  nm_port : string;
  nm_port_num : Z;
  nm_db_host : string;
  nm_db_port : string;
  nm_db_port_num : option Z;
  nm_from_env_var : bool;
  nm_device_name : string;
  nm_alias_name : string;
  nm_is_alias : bool;
  nethost_alias : bool;
  orig_tango_host : string;
}.

Definition FROM_IOR : string := "IOR".
Definition NOT_USED : string := "Unused".
(** [s << text << std::ends; s >> number]. *)
Definition number_of (text : string) : Z := stream_int (text +:+ String Ascii.zero "").
Definition wrong_name {A} (reason desc origin : string) : cexn + A := inl (api_error WrongNameSyntax reason desc origin).

(** ** Protocol and modifier, the same in the two methods *)

Definition strip_protocol (origin full_name_low : string) : cexn + string :=
  match find "://" full_name_low 0 with
  | None => inr (if (2 <? len full_name_low) && String.prefix "//" full_name_low then str_drop 2 full_name_low else full_name_low)
  | Some pos =>
      let protocol := str_take pos full_name_low in
      if bool_decide (protocol = "tango") then inr (str_drop (pos + 3) full_name_low)
      else wrong_name "API_UnsupportedProtocol" (protocol +:+ " protocol is an unsupported protocol") origin
  end.
(** The name without the modifier, and whether a database is used. *)
Definition strip_modifier (origin name_wo_prot : string) : cexn + (string * bool) :=
  match find "#" name_wo_prot 0 with
  | Some pos =>
      let mod_ := str_drop (pos + 1) name_wo_prot in
      if bool_decide (mod_ = "dbase=yes") then inr (str_take pos name_wo_prot, true)
      else if bool_decide (mod_ = "dbase=no") then inr (str_take pos name_wo_prot, false)
      else wrong_name "API_UnsupportedDBaseModifier" (mod_ +:+ " modifier is an unsupported db modifier") origin
  | None => inr (name_wo_prot, true)
  end.
(** [substr(pos + 1, tmp - pos - 1)] with numbers without sign: up to the end when [tmp] is
    before [pos]. *)
Definition between (s : string) (pos tmp : nat) : string :=
  if pos <? tmp then str_take (tmp - pos - 1) (str_drop (pos + 1) s) else str_drop (pos + 1) s.

Section Names.
(** [get_fqdn], and the attributes that the database knows by an alias. *)
Context (get_fqdn : string → string) (get_attribute_alias : DbIndex → string → ServiceError + string).

(** ** Devices *)

Definition dev_origin : string := "DeviceProxy::parse_name".
Definition wrong_dev {A} (desc : string) : cexn + A := wrong_name "API_WrongDeviceNameSyntax" desc dev_origin.
(** Two separators, which are not next to each other. *)
Definition two_separators (s : string) : bool :=
  match find "/" s 0 with
  | None => false
  | Some prev_sep =>
      match find "/" s (prev_sep + 1) with
      | None => false
      | Some tmp =>
          if tmp =? prev_sep + 1 then false else match find "/" s (tmp + 1) with None => true | Some _ => false end
      end
  end.
Definition parse_without_db (full_name name_wo_db_mod : string) : cexn + Names :=
  let no_host {A} : cexn + A := wrong_dev ("Host and port not correctly defined in device name " +:+ full_name) in
  match find ":" name_wo_db_mod 0 with
  | None => no_host
  | Some pos =>
      match find "/" name_wo_db_mod 0 with
      | None => no_host
      | Some tmp =>
          let device_name := str_drop (tmp + 1) name_wo_db_mod in
          let port := between name_wo_db_mod pos tmp in
          if two_separators device_name then
            inr (mkNames false (str_take pos name_wo_db_mod) port (number_of port) NOT_USED NOT_USED (Some 0%Z) false device_name "" false false "")
          else wrong_dev ("Wrong device name syntax (domain/family/member) in " +:+ full_name +:+ endl +:+ "Rem: Alias are forbidden when not using a database")
      end
  end.
Definition check_alias (full_name alias : string) : cexn + unit :=
  match find ":" alias 0 with
  | Some _ => wrong_dev ("Wrong alias name syntax in " +:+ full_name +:+ " (: is not allowed in alias name)")
  | None =>
      match find "->" alias 0 with
      | Some _ => wrong_dev ("Wrong alias name syntax in " +:+ full_name +:+ " (-> is not allowed in alias name)")
      | None => inr tt
      end
  end.
Definition wrong_syntax {A} (full_name : string) : cexn + A := wrong_dev ("Wrong device name syntax (domain/family/member) in " +:+ full_name).

(** The host of a database: its name on the network, and the one the user gave. *)
Definition db_host_of (tmp_host : string) : string := if bool_decide (find "." tmp_host 0 = None) then get_fqdn tmp_host else tmp_host.
Definition host_alias (safe_tmp_host : string) : bool * string :=
  let tmp_host := db_host_of safe_tmp_host in
  match find "." tmp_host 0 with
  | Some pos2 =>
      if bool_decide (str_take pos2 tmp_host = tmp_host) then (false, "")
      else (true, if bool_decide (find "." safe_tmp_host 0 = None) then safe_tmp_host +:+ str_drop pos2 tmp_host else safe_tmp_host)
  | None => (false, "")
  end.
Definition parse_at_host (full_name name_wo_db_mod : string) (pos tmp : nat) : cexn + Names :=
  let bef_sep := str_take pos name_wo_db_mod in
  let safe_tmp_host := str_take tmp bef_sep in
  let db_port := str_drop (tmp + 1) bef_sep in
  let object_name := str_drop (pos + 1) name_wo_db_mod in
  let '(alias_used, orig) := host_alias safe_tmp_host in
  let names device_name alias is_alias :=
    mkNames true FROM_IOR FROM_IOR 0%Z (db_host_of safe_tmp_host) db_port (Some (number_of db_port)) false device_name alias is_alias alias_used orig in
  match find "/" object_name 0 with
  | None => match check_alias full_name object_name with inl e => inl e | inr _ => inr (names object_name object_name true) end
  | Some _ => if two_separators object_name then inr (names object_name "" false) else wrong_syntax full_name
  end.
Definition parse_with_db (full_name name_wo_db_mod : string) : cexn + Names :=
  let names alias is_alias := mkNames true FROM_IOR FROM_IOR 0%Z "" "" None true name_wo_db_mod alias is_alias false "" in
  match find "/" name_wo_db_mod 0 with
  | None => match check_alias full_name name_wo_db_mod with inl e => inl e | inr _ => inr (names name_wo_db_mod true) end
  | Some pos =>
      match find ":" (str_take pos name_wo_db_mod) 0 with
      | None => if (pos =? 0) || negb (two_separators name_wo_db_mod) then wrong_syntax full_name else inr (names "" false)
      | Some tmp => parse_at_host full_name name_wo_db_mod pos tmp
      end
  end.
Definition parse_name (full_name : string) : cexn + Names :=
  if bool_decide (full_name = "") then
    wrong_dev ("The given name is an empty string!!! " +:+ full_name +:+ endl +:+ "Device name syntax is domain/family/member")
  else
    match strip_protocol dev_origin (tolower full_name) with
    | inl e => inl e
    | inr name_wo_prot =>
        match strip_modifier dev_origin name_wo_prot with
        | inl e => inl e
        | inr (name, true) => parse_with_db full_name name
        | inr (name, false) => parse_without_db full_name name
        end
    end.

(** ** Attributes *)

Definition attr_origin : string := "AttributeProxy::parse_name".
Definition wrong_attr {A} (desc : string) : cexn + A := wrong_name "API_WrongAttributeNameSyntax" desc attr_origin.
Definition four_fields : string :=
  "Attribute name must have four fields separated by /'s or no /'s at all if it is an alias (e.g. my/device/name/an_attr or myalias)".

(** Host, port and the rest of the name: no syntax is checked yet. *)
Definition attr_location (name_wo_db_mod : string) (db : bool) : cexn + Names :=
  if db then
    let env := mkNames true FROM_IOR FROM_IOR 0%Z "" "" None true name_wo_db_mod "" false false "" in
    match find "/" name_wo_db_mod 0 with
    | None => inr env
    | Some pos =>
        let bef_sep := str_take pos name_wo_db_mod in
        match find ":" bef_sep 0 with
        | None => inr env
        | Some tmp =>
            let db_port := str_drop (tmp + 1) bef_sep in
            inr (mkNames true FROM_IOR FROM_IOR 0%Z (str_take tmp bef_sep) db_port (Some (number_of db_port)) false (str_drop (pos + 1) name_wo_db_mod) "" false false "")
        end
    end
  else
    let no_host {A} : cexn + A := wrong_attr "Host and port not correctly defined in device name" in
    match find ":" name_wo_db_mod 0 with
    | None => no_host
    | Some pos =>
        match find "/" name_wo_db_mod 0 with
        | None => no_host
        | Some tmp =>
            let port := between name_wo_db_mod pos tmp in
            inr (mkNames false (str_take pos name_wo_db_mod) port (number_of port) NOT_USED NOT_USED (Some 0%Z) false (str_drop (tmp + 1) name_wo_db_mod) "" false false "")
        end
    end.
(** The number of separators and the end of the last field but one; [checked] when a field
    may not be empty.  [None] when the fuel is used up. *)
Fixpoint separators (checked : bool) (fuel : nat) (tmp : string) (n_sep end_pos : nat) : option (cexn + (nat * nat)) :=
  match fuel with
  | O => None
  | S fuel =>
      match find "/" tmp 0 with
      | None => Some (inr (n_sep, end_pos))
      | Some pos =>
          let rest := str_drop (pos + 1) tmp in
          if checked && ((pos =? 0) || (len rest =? 0)) then Some (wrong_attr four_fields)
          else separators checked fuel rest (S n_sep) (end_pos + (pos + 1))
      end
  end.
Definition all_separators (checked : bool) (s : string) (n_sep end_pos : nat) : option (cexn + (nat * nat)) := separators checked (S (len s)) s n_sep end_pos.

Record AttrNames := mkAttrNames { an_names : Names; an_attr_name : string }.
Definition set_device (d alias : string) (n : Names) : Names :=
  mkNames (nm_dbase_used n) (nm_host n) (nm_port n) (nm_port_num n) (nm_db_host n) (nm_db_port n) (nm_db_port_num n) (nm_from_env_var n) d alias (nm_is_alias n) (nethost_alias n) (orig_tango_host n).

(** An alias of an attribute: its name is asked to the database. *)
Definition attr_alias (n : Names) : option (cexn + AttrNames) :=
  let name := nm_device_name n in
  if negb (nm_dbase_used n) then Some (wrong_attr "Attribute alias is not supported when not using database")
  else
    match find ":" name 0, find "->" name 0 with
    | Some _, _ => Some (wrong_attr "Wrong alias name (: not allowed in alias name)")
    | None, Some _ => Some (wrong_attr "Wrong alias name (-> not allowed in alias name)")
    | None, None =>
        match get_attribute_alias (if nm_from_env_var n then ByEnv else ByHost (nm_db_host n) (default 0%Z (nm_db_port_num n))) name with
        | inl (c, l) =>
            match l with
            | [] => None
            | e :: _ =>
                Some (inl (if bool_decide (reason e = "DB_SQLError") then one_more ConnectionFailed l "API_AliasNotDefined" ("Can't connect to attribute with alias " +:+ name) attr_origin
                           else TErr c l))
            end
        | inr db_attr_name =>
            match all_separators false db_attr_name 0 0 with
            | None => None
            | Some (inl e) => Some (inl e)
            | Some (inr (n_sep, end_pos)) =>
                if negb (n_sep =? 3) then Some (wrong_attr "Attribute name must have four fields separated by /'s (check the alias entry in the database) ")
                else Some (inr (mkAttrNames (set_device (str_take (end_pos - 1) db_attr_name) (nm_alias_name n) n) (str_drop end_pos db_attr_name)))
            end
        end
    end.
(** The name of the attribute, in the case of the user. *)
Definition cased_attr (cased_name : string) : string :=
  let pos := match rfind "/" cased_name with Some p => p + 1 | None => 0 end in
  match rfind "#" cased_name with
  | Some pos_mod => if pos <=? pos_mod then str_take (pos_mod - pos) (str_drop pos cased_name) else str_drop pos cased_name
  | None => str_drop pos cased_name
  end.
Definition parse_attr_name (full_name : string) : option (cexn + AttrNames) :=
  match strip_protocol attr_origin (tolower full_name) with
  | inl e => Some (inl e)
  | inr name_wo_prot =>
      match strip_modifier attr_origin name_wo_prot with
      | inl e => Some (inl e)
      | inr (name_wo_db_mod, db) =>
          match attr_location name_wo_db_mod db with
          | inl e => Some (inl e)
          | inr n =>
              match all_separators true (nm_device_name n) 0 0 with
              | None => None
              | Some (inl e) => Some (inl e)
              | Some (inr (n_sep, end_pos)) =>
                  if (1 <? n_sep) && negb (n_sep =? 3) then Some (wrong_attr four_fields)
                  else if n_sep =? 0 then attr_alias n
                  else
                    let device_name := str_take (end_pos - 1) (nm_device_name n) in
                    let attr_name := cased_attr full_name in
                    if n_sep =? 1 then
                      if bool_decide (nm_db_host n = NOT_USED) then Some (wrong_attr "Can't use device or attribute alias without database")
                      else
                        let device_name := if nm_from_env_var n then device_name else match rfind "/" name_wo_db_mod with Some p => str_take p name_wo_db_mod | None => name_wo_db_mod end in
                        Some (inr (mkAttrNames (set_device device_name device_name n) attr_name))
                    else Some (inr (mkAttrNames (set_device device_name (nm_alias_name n) n) attr_name))
              end
          end
      end
  end.

(** The name of the [DeviceProxy] that [AttributeProxy::real_constructor] makes. *)
Definition device_proxy_name (full_name : string) (a : AttrNames) : string :=
  let n := an_names a in
  if nm_dbase_used n then
    if nm_from_env_var n then nm_device_name n else nm_db_host n +:+ ":" +:+ nm_db_port n +:+ "/" +:+ nm_device_name n
  else
    let name := tolower full_name in
    (match rfind "/" name with Some stop => str_take stop name | None => name end) +:+ "#dbase=no".
End Names.
