(* ===== verification/NameTheory.v ===== *)
(** * The names of devices and attributes are parsed as they are written

  Names of the forms of the documentation, with or without a host: the parts are found, and
  the [DeviceProxy] that an [AttributeProxy] makes is the one of the device. *)
From Stdlib Require Import Ascii.
From S2P Require Import Prelude StateExn CppString ClientExn PollStatus Connection ProxyName.
Local Open Scope string_scope.
Local Open Scope list_scope.
Local Open Scope nat_scope.
#[local] Arguments String.append : simpl nomatch.

(** ** Texts *)

Abbreviation slash := "/"%char.
Abbreviation colon := ":"%char.
Abbreviation sharp := "#"%char.

Lemma find_0 p s : find p s 0 = find_at p s.
Proof. unfold find. rewrite str_drop_0, (proj2 (Nat.leb_le _ _)) by lia. by destruct (find_at p s). Qed.
Lemma find_from_prefix p x y n : n = len x → find p (x +:+ y) n = Nat.add n <$> find_at p y.
Proof.
  intros ->. unfold find. rewrite (proj2 (Nat.leb_le _ _)) by (rewrite app_len; lia). by rewrite str_drop_app0.
Qed.
(** A text that starts with a character of the pattern is not before this character. *)
Lemma find_at_after c q h s : c ∉ chars h → find_at (String c q) (h +:+ s) = Nat.add (len h) <$> find_at (String c q) s.
Proof.
  induction h as [|b h IH]; cbn [String.append]; intros Hc.
  - by destruct (find_at _ s).
  - cbn [String.list_ascii_of_string] in Hc. apply not_elem_of_cons in Hc as [Hb Hc].
    rewrite find_at_cons, prefix_ne, IH by done. by destruct (find_at (String c q) s).
Qed.
Lemma rfind_absent c s : c ∉ chars s → rfind (String c "") s = None.
Proof.
  induction s as [|b s IH]; [done|]. cbn [String.list_ascii_of_string]. intros [Hb Hc]%not_elem_of_cons.
  cbn [rfind]. rewrite IH by done. by rewrite prefix_ne.
Qed.
Lemma rfind_last c x y : c ∉ chars y → rfind (String c "") (x +:+ String c y) = Some (len x).
Proof.
  intros Hc. induction x as [|b x IH]; cbn [String.append rfind].
  - rewrite rfind_absent by done. assert (String.prefix (String c "") (String c y) = true) as -> by exact (prefix_app (String c "") y). done.
  - by rewrite IH.
Qed.
Lemma not_in_text c t : bool_decide (c ∉ chars t) = true → c ∉ chars t.
Proof. apply bool_decide_eq_true_1. Qed.
Lemma tolower_len s : len (tolower s) = len s.
Proof. induction s as [|a s IH]; simpl; [done|]. by rewrite IH. Qed.

(** A part of a name. *)
Record plain (s : string) : Prop := {
  pl_some : s ≠ "";
  pl_slash : slash ∉ chars s;
  pl_colon : colon ∉ chars s;
  pl_sharp : sharp ∉ chars s }.
Lemma plain_lower s : plain s → plain (tolower s).
Proof.
  intros [H0 H1 H2 H3]. split.
  - destruct s; [done|]. by simpl.
  - apply tolower_absent; [|done]. intros a. destruct a as [[] [] [] [] [] [] [] []]; vm_compute; congruence.
  - apply tolower_absent; [|done]. intros a. destruct a as [[] [] [] [] [] [] [] []]; vm_compute; congruence.
  - apply tolower_absent; [|done]. intros a. destruct a as [[] [] [] [] [] [] [] []]; vm_compute; congruence.
Qed.

(** ** Forms *)

(** A device of the database of the environment, of the database at a host, or of a server
    without a database. *)
Inductive Where := EnvDb | AtDb (h p : string) | NoDb (h p : string).
Definition dev_text (d f m : string) : string := d +:+ String slash (f +:+ String slash m).
Definition located (w : Where) (object : string) : string :=
  match w with
  | EnvDb => object
  | AtDb h p => h +:+ String colon (p +:+ String slash object)
  | NoDb h p => h +:+ String colon (p +:+ String slash object)
  end.
Definition with_modifier (w : Where) (s : string) : string := match w with NoDb _ _ => s +:+ "#dbase=no" | _ => s end.
(** The name of an object, with the protocol when there is a host. *)
Definition full_name (w : Where) (object : string) : string :=
  match w with EnvDb => object | _ => "tango://" +:+ with_modifier w (located w object) end.
Definition low_where (w : Where) : Where :=
  match w with EnvDb => EnvDb | AtDb h p => AtDb (tolower h) (tolower p) | NoDb h p => NoDb (tolower h) (tolower p) end.
Definition plain_where (w : Where) : Prop := match w with EnvDb => True | AtDb h p | NoDb h p => plain h ∧ plain p end.
Definition uses_db (w : Where) : bool := match w with NoDb _ _ => false | _ => true end.

Lemma dev_text_lower d f m : tolower (dev_text d f m) = dev_text (tolower d) (tolower f) (tolower m).
Proof. unfold dev_text. by repeat (rewrite tolower_app; simpl). Qed.
Lemma full_name_lower w o : tolower (full_name w o) = full_name (low_where w) (tolower o).
Proof. destruct w; simpl; [done|..]; by repeat (rewrite tolower_app; simpl). Qed.
Lemma low_plain w : plain_where w → plain_where (low_where w).
Proof. destruct w; simpl; [done|..]; intros [? ?]; split; by apply plain_lower. Qed.
Lemma plain_head s r : plain s → String.prefix "//" (s +:+ r) = false.
Proof. intros [H0 H1 _ _]. destruct s as [|a s]; [done|]. cbn [String.append String.list_ascii_of_string] in *. apply prefix_ne. set_solver. Qed.
Lemma chars_cons a s : chars (String a s) = a :: chars s.
Proof. done. Qed.
Lemma no_protocol s r : plain s → sharp ∉ chars r → colon ∉ chars r → find_at "://" (s +:+ r) = None.
Proof. intros [] ? ?. apply (find_at_absent colon); [set_solver|]. rewrite chars_app. set_solver. Qed.

(** *** Protocol and modifier *)

(** The object that is named has no modifier, and starts with a part. *)
Record object_text (o : string) : Prop := {
  ob_colon : colon ∉ chars o;
  ob_sharp : sharp ∉ chars o;
  ob_head : String.prefix "//" o = false }.
Lemma located_sharp w o : plain_where w → object_text o → sharp ∉ chars (located w o).
Proof.
  intros Hw []. destruct w as [|h p|h p]; simpl; [done|..]; destruct Hw as [[] []]; rewrite chars_app, chars_cons, chars_app, chars_cons; set_solver.
Qed.
Lemma strip_tango org r : strip_protocol org ("tango://" +:+ r) = inr r.
Proof.
  unfold strip_protocol. rewrite find_0.
  assert (find_at "://" ("tango://" +:+ r) = Some 5) as ->.
  { change ("tango://" +:+ r) with ("tango" +:+ ("://" +:+ r)). rewrite find_at_after by by apply not_in_text.
    by rewrite find_at_prefix. }
  assert (str_take 5 ("tango://" +:+ r) = "tango") as -> by exact (str_take_app "tango" ("://" +:+ r)).
  assert (str_drop (5 + 3) ("tango://" +:+ r) = r) as -> by exact (str_drop_app0 "tango://" r).
  by rewrite bool_decide_true.
Qed.
Lemma strip_full w o org : plain_where w → object_text o → strip_protocol org (full_name w o) = inr (with_modifier w (located w o)).
Proof.
  intros Hw Ho. destruct w as [|h p|h p]; [|apply strip_tango..].
  unfold strip_protocol. rewrite find_0. simpl.
  rewrite (find_at_absent colon); [|set_solver|apply Ho]. by rewrite (ob_head _ Ho), andb_false_r.
Qed.
Lemma modifier_full w o org : plain_where w → object_text o → strip_modifier org (with_modifier w (located w o)) = inr (located w o, uses_db w).
Proof.
  intros Hw Ho. pose proof (located_sharp w o Hw Ho) as Hs. unfold strip_modifier. rewrite find_0.
  destruct w as [|h p|h p]; simpl with_modifier; simpl uses_db; [by rewrite (find_at_absent sharp); [|set_solver|]..|].
  change "#dbase=no" with (String sharp "dbase=no"). rewrite find_char_app by done.
  by rewrite str_drop_app, str_take_app.
Qed.

(** *** The object *)

Lemma two_fields d f m : slash ∉ chars d → f ≠ "" → slash ∉ chars f → slash ∉ chars m → two_separators (dev_text d f m) = true.
Proof.
  intros Hd Hf0 Hf Hm. unfold two_separators, dev_text. rewrite find_0, find_char_app by done.
  change (d +:+ String slash (f +:+ String slash m)) with (d +:+ (String slash "" +:+ (f +:+ String slash m))).
  rewrite <-app_assoc_str, find_from_prefix by (rewrite app_len; done). rewrite find_char_app by done. simpl.
  assert (len f ≠ 0) by (by destruct f). rewrite (proj2 (Nat.eqb_neq _ _)) by lia.
  change (f +:+ String slash m) with (f +:+ (String slash "" +:+ m)). rewrite <-app_assoc_str, <-app_assoc_str, find_from_prefix.
  - by rewrite (find_at_absent slash); [|set_solver|].
  - rewrite !app_len. simpl. lia.
Qed.
Lemma dev_object d f m : plain d → plain f → plain m → object_text (dev_text d f m).
Proof.
  intros Hd [] []. split; [..|by apply plain_head]; destruct Hd; unfold dev_text; rewrite chars_app, chars_cons, chars_app, chars_cons; set_solver.
Qed.

(** The first separator after a host, and what is around it. *)
Lemma at_port h p o : plain h → plain p → find "/" (h +:+ String colon (p +:+ String slash o)) 0 = Some (len h + 1 + len p).
Proof.
  intros [] []. rewrite find_0. replace (h +:+ String colon (p +:+ String slash o)) with ((h +:+ ":" +:+ p) +:+ String slash o) by (by rewrite !app_assoc_str).
  rewrite find_char_app by (rewrite !chars_app; simpl; set_solver). rewrite !app_len. simpl. f_equal. lia.
Qed.
Lemma before_port h p o : str_take (len h + 1 + len p) (h +:+ String colon (p +:+ String slash o)) = h +:+ String colon p.
Proof.
  replace (h +:+ String colon (p +:+ String slash o)) with ((h +:+ String colon p) +:+ String slash o) by (rewrite !app_assoc_str; done).
  replace (len h + 1 + len p) with (len (h +:+ String colon p)) by (rewrite app_len; simpl; lia). apply str_take_app.
Qed.
Lemma after_port h p o : str_drop (len h + 1 + len p + 1) (h +:+ String colon (p +:+ String slash o)) = o.
Proof.
  replace (h +:+ String colon (p +:+ String slash o)) with ((h +:+ String colon (p +:+ "/")) +:+ o) by (rewrite !app_assoc_str; simpl; by rewrite !app_assoc_str).
  replace (len h + 1 + len p + 1) with (len (h +:+ String colon (p +:+ "/"))) by (rewrite app_len; simpl; rewrite app_len; simpl; lia). apply str_drop_app0.
Qed.
Lemma port_text h p o : between (h +:+ String colon (p +:+ String slash o)) (len h) (len h + 1 + len p) = p.
Proof.
  unfold between. rewrite (proj2 (Nat.ltb_lt _ _)) by lia. replace (len h + 1 + len p - len h - 1) with (len p) by lia.
  rewrite str_drop_app. apply str_take_app.
Qed.

(** ** Devices *)

Section Parsed.
#[local] Set Default Proof Using "Type*".
Context (get_fqdn : string → string) (get_attribute_alias : DbIndex → string → ServiceError + string).

(** What is known of an object at a place: of a device, with the name of its host. *)
Definition dev_names (w : Where) (dev : string) : Names :=
  match w with
  | EnvDb => mkNames true FROM_IOR FROM_IOR 0%Z "" "" None true dev "" false false ""
  | AtDb h p => let '(al, orig) := host_alias get_fqdn h in
      mkNames true FROM_IOR FROM_IOR 0%Z (db_host_of get_fqdn h) p (Some (number_of p)) false dev "" false al orig
  | NoDb h p => mkNames false h p (number_of p) NOT_USED NOT_USED (Some 0%Z) false dev "" false false ""
  end.
Lemma parse_located full w d f m : plain_where w → plain d → plain f → plain m →
  (if uses_db w then parse_with_db get_fqdn full else parse_without_db full) (located w (dev_text d f m)) = inr (dev_names w (dev_text d f m)).
Proof.
  intros Hw Hd Hf Hm. pose proof (two_fields d f m (pl_slash _ Hd) (pl_some _ Hf) (pl_slash _ Hf) (pl_slash _ Hm)) as Ht.
  assert (find "/" (dev_text d f m) 0 = Some (len d)) as Hfirst by (unfold dev_text; by rewrite find_0, find_char_app by apply Hd).
  assert (str_take (len d) (dev_text d f m) = d) as Htake by apply str_take_app.
  destruct w as [|h p|h p]; cbn [uses_db located].
  - unfold parse_with_db. rewrite Hfirst, Htake.
    rewrite find_0, (find_at_absent colon) by (try apply Hd; set_solver).
    destruct (len d =? 0) eqn:E; [|by rewrite Ht]. apply Nat.eqb_eq in E. destruct Hd as [Hd0 _ _ _]. by destruct d.
  - destruct Hw as [Hh Hp]. unfold parse_with_db. rewrite at_port, before_port by done.
    rewrite find_0, find_char_app by apply Hh. unfold parse_at_host. rewrite before_port, after_port, str_take_app.
    rewrite str_drop_app. change (str_drop 1 (String colon p)) with p. unfold dev_names. destruct (host_alias get_fqdn h) as [al orig].
    by rewrite Hfirst, Ht.
  - destruct Hw as [Hh Hp]. unfold parse_without_db. rewrite at_port by done.
    rewrite find_0, find_char_app by apply Hh. by rewrite after_port, Ht, str_take_app, port_text.
Qed.
Lemma full_some w d f m : plain d → full_name w (dev_text d f m) ≠ "".
Proof. intros [Hd _ _ _]. destruct w; [|done..]. simpl. unfold dev_text. by destruct d. Qed.

Lemma parse_of_device w d f m :
  plain_where w → plain d → plain f → plain m →
  parse_name get_fqdn (full_name w (dev_text d f m)) = inr (dev_names (low_where w) (dev_text (tolower d) (tolower f) (tolower m))).
Proof.
  intros Hw Hd Hf Hm. unfold parse_name. rewrite bool_decide_false by (by apply full_some).
  rewrite full_name_lower, dev_text_lower, strip_full, modifier_full; try (by apply low_plain); try (by apply dev_object; apply plain_lower).
  pose proof (parse_located (full_name w (dev_text d f m)) (low_where w) _ _ _ (low_plain w Hw) (plain_lower d Hd) (plain_lower f Hf) (plain_lower m Hm)) as H.
  by destruct (uses_db (low_where w)).
Qed.

(** C15: the names of devices.  A name of the forms "domain/family/member",
    "tango://host:port/domain/family/member" and the same with "#dbase=no", in any case, is
    parsed as it is written: the device, its database or its server, in lower case. *)
Theorem device_name_parsed w d f m :
  plain_where w → plain d → plain f → plain m →
  parse_name get_fqdn (full_name w (dev_text d f m)) = inr (dev_names (low_where w) (dev_text (tolower d) (tolower f) (tolower m))).
Proof. apply parse_of_device. Qed.
End Parsed.

(** ** Attributes *)

Definition attr_text (d f m a : string) : string := dev_text d f m +:+ String slash a.
(** What is before the name of the attribute, and what is after it. *)
Definition before_attr (w : Where) (dev : string) : string := match w with EnvDb => dev | _ => "tango://" +:+ located w dev end.
Definition modifier (w : Where) : string := match w with NoDb _ _ => "#dbase=no" | _ => "" end.
Lemma full_split w x a : full_name w (x +:+ String slash a) = before_attr w x +:+ String slash (a +:+ modifier w).
Proof.
  destruct w as [|h p|h p]; simpl; rewrite ?app_empty; [done|..]; by repeat (rewrite ?app_assoc_str; simpl).
Qed.
Lemma full_before w x : full_name w x = before_attr w x +:+ modifier w.
Proof. destruct w as [|h p|h p]; simpl; rewrite ?app_empty; done. Qed.
Lemma cased_found w x a : sharp ∉ chars (before_attr w x) → plain a → cased_attr (full_name w (x +:+ String slash a)) = a.
Proof.
  intros Hx [_ Ha _ Has]. unfold cased_attr. rewrite full_split.
  assert (slash ∉ chars (a +:+ modifier w)) as Hs by (rewrite chars_app, elem_of_app; intros [?|Hm]; [done|]; destruct w; [set_solver|set_solver|by apply not_in_text in Hm]).
  rewrite rfind_last by done. rewrite str_drop_app.
  change (str_drop 1 (String slash (a +:+ modifier w))) with (a +:+ modifier w).
  destruct w as [|h p|h p]; simpl modifier; rewrite ?app_empty.
  - rewrite rfind_absent; [done|]. rewrite chars_app, chars_cons. set_solver.
  - rewrite rfind_absent; [done|]. rewrite chars_app, chars_cons. set_solver.
  - remember (before_attr (NoDb h p) x) as B eqn:HB. clear HB.
    change (a +:+ "#dbase=no") with (a +:+ String sharp "dbase=no").
    replace (B +:+ String slash (a +:+ String sharp "dbase=no")) with ((B +:+ String slash a) +:+ String sharp "dbase=no")
      by (rewrite app_assoc_str; done).
    rewrite rfind_last by by apply not_in_text. rewrite app_len. simpl len.
    rewrite (proj2 (Nat.leb_le _ _)) by lia. replace (len (B) + S (len a) - (len (B) + 1)) with (len a) by lia.
    apply str_take_app.
Qed.
Lemma separators_step fuel x r n e : x ≠ "" → slash ∉ chars x → r ≠ "" →
  separators true (S fuel) (x +:+ String slash r) n e = separators true fuel r (S n) (e + (len x + 1)).
Proof.
  intros Hx Hs Hr. cbn [separators]. rewrite find_0, find_char_app by done. rewrite str_drop_app.
  change (str_drop 1 (String slash r)) with r. by destruct x, r.
Qed.
Lemma attr_fields d f m a : attr_text d f m a = d +:+ String slash (f +:+ String slash (m +:+ String slash a)).
Proof. unfold attr_text, dev_text. rewrite !app_assoc_str. simpl. by rewrite !app_assoc_str. Qed.
Lemma attr_separators d f m a : plain d → plain f → plain m → plain a →
  all_separators true (attr_text d f m a) 0 0 = Some (inr (3, len (dev_text d f m) + 1)).
Proof.
  intros [Hd0 Hd _ _] [Hf0 Hf _ _] [Hm0 Hm _ _] [Ha0 Ha _ _]. unfold all_separators. rewrite attr_fields.
  assert (∃ k, S (len (d +:+ String slash (f +:+ String slash (m +:+ String slash a)))) = S (S (S (S k)))) as [k ->].
  { rewrite app_len. simpl. rewrite app_len. simpl. rewrite app_len. simpl. eexists (len d + len f + len m + len a). lia. }
  rewrite !separators_step; try done; try (by destruct f); try (by destruct m).
  cbn [separators]. rewrite find_0, (find_at_absent slash) by (try done; set_solver).
  do 3 f_equal. unfold dev_text. rewrite !app_len. simpl. rewrite app_len. simpl. lia.
Qed.

Lemma attr_object d f m a : plain d → plain f → plain m → plain a → object_text (attr_text d f m a).
Proof.
  intros Hd Hf Hm []. pose proof (dev_object d f m Hd Hf Hm) as [Hc Hs Hp]. split.
  - unfold attr_text. rewrite chars_app, chars_cons. set_solver.
  - unfold attr_text. rewrite chars_app, chars_cons. set_solver.
  - unfold attr_text, dev_text. rewrite !app_assoc_str. by apply plain_head.
Qed.
(** Where the object is, before its fields are looked at. *)
Definition attr_place (w : Where) (o : string) : Names :=
  match w with
  | EnvDb => mkNames true FROM_IOR FROM_IOR 0%Z "" "" None true o "" false false ""
  | AtDb h p => mkNames true FROM_IOR FROM_IOR 0%Z h p (Some (number_of p)) false o "" false false ""
  | NoDb h p => mkNames false h p (number_of p) NOT_USED NOT_USED (Some 0%Z) false o "" false false ""
  end.
Lemma location_found w d f m a : plain_where w → plain d → plain f → plain m → plain a →
  attr_location (located w (attr_text d f m a)) (uses_db w) = inr (attr_place w (attr_text d f m a)).
Proof.
  intros Hw Hd Hf Hm Ha.
  pose proof (attr_fields d f m a) as Ho.
  destruct w as [|h p|h p]; cbn [uses_db located]; unfold attr_location.
  - assert (find "/" (attr_text d f m a) 0 = Some (len d)) as -> by (rewrite Ho, find_0; apply find_char_app, Hd).
    assert (str_take (len d) (attr_text d f m a) = d) as -> by (rewrite Ho; apply str_take_app).
    rewrite find_0, (find_at_absent colon); [done|set_solver|apply Hd].
  - destruct Hw as [Hh Hp]. rewrite at_port, before_port by done. rewrite find_0, find_char_app by apply Hh.
    by rewrite after_port, str_take_app, str_drop_app.
  - destruct Hw as [Hh Hp]. rewrite at_port by done. rewrite find_0, find_char_app by apply Hh.
    by rewrite after_port, str_take_app, port_text.
Qed.

Section Attributes.
Context (get_fqdn : string → string) (get_attribute_alias : DbIndex → string → ServiceError + string).
#[local] Set Default Proof Using "Type*".

Lemma attr_parsed w d f m a : plain_where w → plain d → plain f → plain m → plain a →
  parse_attr_name get_attribute_alias (full_name w (attr_text d f m a)) =
  Some (inr (mkAttrNames (attr_place (low_where w) (dev_text (tolower d) (tolower f) (tolower m))) a)).
Proof.
  intros Hw Hd Hf Hm Ha. unfold parse_attr_name.
  assert (tolower (attr_text d f m a) = attr_text (tolower d) (tolower f) (tolower m) (tolower a)) as Hl.
  { unfold attr_text. rewrite tolower_app. simpl. by rewrite dev_text_lower. }
  assert (cased_attr (full_name w (attr_text d f m a)) = a) as ->.
  { apply cased_found; [|done]. destruct w as [|h p|h p]; cbn [before_attr].
    - by apply dev_object.
    - rewrite chars_app, elem_of_app. intros [H|H]; [by apply not_in_text in H|]. by apply (located_sharp (AtDb h p)) in H; [|done|apply dev_object].
    - rewrite chars_app, elem_of_app. intros [H|H]; [by apply not_in_text in H|]. by apply (located_sharp (NoDb h p)) in H; [|done|apply dev_object]. }
  apply low_plain in Hw. apply plain_lower in Hd, Hf, Hm. pose proof (plain_lower _ Ha) as Hla.
  rewrite full_name_lower, Hl, strip_full, modifier_full; try done; try by apply attr_object.
  rewrite location_found by done.
  assert (∀ o, nm_device_name (attr_place (low_where w) o) = o) as Hdev by (intros; by destruct (low_where w)).
  rewrite Hdev, attr_separators by done. simpl. rewrite Nat.add_sub.
  assert (str_take (len (dev_text (tolower d) (tolower f) (tolower m))) (attr_text (tolower d) (tolower f) (tolower m) (tolower a)) = dev_text (tolower d) (tolower f) (tolower m)) as ->
    by apply str_take_app.
  by destruct (low_where w).
Qed.
(** A name with the host and without the protocol. *)
Lemma parse_at_port h p d f m : plain h → plain p → plain d → plain f → plain m → tolower h = h → tolower p = p → tolower (dev_text d f m) = dev_text d f m →
  parse_name get_fqdn (h +:+ ":" +:+ p +:+ "/" +:+ dev_text d f m) = inr (dev_names get_fqdn (AtDb h p) (dev_text d f m)).
Proof.
  intros Hh Hp Hd Hf Hm Lh Lp Ld. set (full := h +:+ ":" +:+ p +:+ "/" +:+ dev_text d f m).
  assert (full = located (AtDb h p) (dev_text d f m)) as Hfull by done.
  pose proof (dev_object d f m Hd Hf Hm) as Ho.
  assert (tolower full = full) as Hl by (subst full; rewrite !tolower_app, Lh, Lp, Ld; done).
  unfold parse_name. rewrite bool_decide_false by (subst full; by destruct Hh, h). rewrite Hl. unfold strip_protocol. rewrite find_0.
  assert (find_at "://" full = None) as ->.
  { subst full. rewrite find_at_after by apply Hh. change (":" +:+ p +:+ "/" +:+ dev_text d f m) with (String colon (p +:+ String slash (dev_text d f m))).
    rewrite find_at_cons. assert (String.prefix "://" (String colon (p +:+ String slash (dev_text d f m))) = false) as -> by exact (plain_head p _ Hp).
    rewrite (find_at_absent colon); [done|set_solver|]. rewrite chars_app, chars_cons. destruct Hp, Ho. set_solver. }
  assert (String.prefix "//" full = false) as -> by by apply plain_head. rewrite andb_false_r.
  unfold strip_modifier. rewrite find_0, (find_at_absent sharp); [|set_solver|by apply (located_sharp (AtDb h p))].
  exact (parse_located get_fqdn full (AtDb h p) d f m (conj Hh Hp) Hd Hf Hm).
Qed.
Lemma low_idemp w : low_where (low_where w) = low_where w.
Proof. destruct w; simpl; by rewrite ?tolower_idemp. Qed.

(** C17: an attribute proxy and its device.  The name of an attribute that has four fields, with
    or without a host, is parsed into the attribute, in the case of the user, and its device;
    the name that is then given to the proxy of the device is parsed as the one of this device
    at this place. *)
Theorem attribute_name_parsed w d f m a :
  plain_where w → plain d → plain f → plain m → plain a →
  ∃ an, parse_attr_name get_attribute_alias (full_name w (attr_text d f m a)) = Some (inr an) ∧ an_attr_name an = a ∧
    parse_name get_fqdn (device_proxy_name (full_name w (attr_text d f m a)) an) =
    inr (dev_names get_fqdn (low_where w) (dev_text (tolower d) (tolower f) (tolower m))).
Proof.
  intros Hw Hd Hf Hm Ha. eexists. split; [by apply attr_parsed|]. split; [done|].
  assert (∀ w, plain_where w → parse_name get_fqdn (full_name (low_where w) (dev_text (tolower d) (tolower f) (tolower m))) =
    inr (dev_names get_fqdn (low_where w) (dev_text (tolower d) (tolower f) (tolower m)))) as Hdev.
  { intros w0 Hw0. pose proof (parse_of_device get_fqdn (low_where w0) _ _ _ (low_plain w0 Hw0) (plain_lower d Hd) (plain_lower f Hf) (plain_lower m Hm)) as H.
    by rewrite low_idemp, !tolower_idemp in H. }
  destruct w as [|h p|h p].
  - by apply (Hdev EnvDb).
  - destruct Hw as [Hh Hp]. apply parse_at_port; try (by apply plain_lower); try apply tolower_idemp.
    by rewrite dev_text_lower, !tolower_idemp.
  - rewrite <-(Hdev (NoDb h p) Hw). f_equal. unfold device_proxy_name.
    rewrite full_name_lower. unfold attr_text. rewrite tolower_app, dev_text_lower. change (tolower (String slash a)) with (String slash (tolower a)).
    rewrite full_split. cbn [low_where attr_place an_names nm_dbase_used].
    rewrite rfind_last, str_take_app; [by rewrite full_before|]. apply plain_lower in Ha as [_ Ha _ _].
    rewrite chars_app, elem_of_app. intros [?|H]; [done|]. by apply not_in_text in H.
Qed.
End Attributes.

(** ** Examples of names *)
Local Open Scope string_scope.
Local Open Scope list_scope.

Definition ex_fqdn (h : string) : string := h +:+ ".lab.org".
Definition ex_aliases (_ : DbIndex) (_ : string) : ServiceError + string := inr "sys/tg_test/1/double_scalar".
Lemma ex_plain_part s : bool_decide (s ≠ "") && bool_decide (slash ∉ chars s) && bool_decide (colon ∉ chars s) && bool_decide (sharp ∉ chars s) = true → plain s.
Proof. intros H. repeat apply andb_true_iff in H as [H ?]. split; by eapply bool_decide_eq_true_1. Qed.

Lemma device_name_parsed_witness :
  parse_name ex_fqdn "tango://Crate:10000/Sys/TG_test/1" = inr (dev_names ex_fqdn (AtDb "crate" "10000") "sys/tg_test/1").
Proof.
  apply (device_name_parsed ex_fqdn (AtDb "Crate" "10000") "Sys" "TG_test" "1"); try split; by apply ex_plain_part; vm_compute.
Defined.
Lemma attribute_name_parsed_witness : ∃ an,
  parse_attr_name ex_aliases "tango://Crate:10000/Sys/TG_test/1/Double_Scalar#dbase=no" = Some (inr an) ∧ an_attr_name an = "Double_Scalar" ∧
  parse_name ex_fqdn (device_proxy_name "tango://Crate:10000/Sys/TG_test/1/Double_Scalar#dbase=no" an) =
  inr (dev_names ex_fqdn (NoDb "crate" "10000") "sys/tg_test/1").
Proof.
  apply (attribute_name_parsed ex_fqdn ex_aliases (NoDb "Crate" "10000") "Sys" "TG_test" "1" "Double_Scalar"); try split; by apply ex_plain_part; vm_compute.
Defined.

(** What the parsing found, in short. *)
Definition seen (x : cexn + Names) : option (string * string * string * Z) :=
  match x with inr n => Some (nm_device_name n, nm_db_host n, nm_port n, nm_port_num n) | inl _ => None end.
(** An attribute of the alias of a device in the database of a host: the proxy of the device
    is given the host twice, and its name is refused. *)
Example alias_at_host_refused :
  match parse_attr_name ex_aliases "tango://crate.lab.org:10000/my_dev/current" with
  | Some (inr an) => Some (device_proxy_name "tango://crate.lab.org:10000/my_dev/current" an, seen (parse_name ex_fqdn (device_proxy_name "tango://crate.lab.org:10000/my_dev/current" an)))
  | _ => None
  end = Some ("crate.lab.org:10000/crate.lab.org:10000/my_dev", None).
Proof. vm_compute. reflexivity. Qed.
(** A device without a domain is refused without a host and accepted with one; the last part
    may be empty. *)
Example empty_domain : (seen (parse_name ex_fqdn "/family/member"), option_map (λ x, fst (fst (fst x))) (seen (parse_name ex_fqdn "crate:10000//family/member")),
  option_map (λ x, fst (fst (fst x))) (seen (parse_name ex_fqdn "domain/family/"))) = (None, Some "/family/member", Some "domain/family/").
Proof. vm_compute. reflexivity. Qed.
(** Without a database the port is what follows the first colon, also after the separators. *)
Example port_with_separators : seen (parse_name ex_fqdn "a/b/c:10/d#dbase=no") = Some ("b/c:10/d", NOT_USED, "10/d", 10%Z).
Proof. vm_compute. reflexivity. Qed.
